(* ===== verification/_CoqProject ===== *)
-Q . S2P
Prelude.v
RustStr.v
TextSearch.v
Float64.v
Json.v
Paths.v
PermRules.v
BashCommand.v
PermPolicy.v
ShellAccess.v
PermGate.v
ExecRisk.v
AutoMode.v
PermState.v
WebDomains.v
PermManager.v
PermActor.v
PermHandle.v
PermPrompter.v
PolicyUrl.v
ClaudeSettings.v
ManagedPolicy.v
Toml.v
ConfigLayers.v
PermResolution.v
TrustStore.v
FolderTrust.v
TrustGate.v
BotCore.v
DeliveryLifecycle.v
Delivery.v
PromptQueue.v
Interjection.v
Compaction.v
CompactionSummary.v
Reminder.v
CompactionRun.v
HunkDiff.v
HunkTracker.v
HunkInvariant.v
HunkActions.v
HunkLoc.v
BotUpdate.v
CodexMessage.v
CodexDiff.v
CodexTransport.v
CodexNormalize.v
Breaker.v
BotProvider.v
BreakerAtomic.v
