(* ===== verification/Prelude.v ===== *)
(** * A verification library for the Bot terminal agent

    Bot is a terminal client for coding agents.  Its own crates are
    [bot-core] (provider-neutral types), [bot-provider] (which providers exist
    and what they can do), [bot-provider-codex] (the client of the Codex app
    server) and [bot-update] (self update); below them lie small crates of the
    agent runtime that decide what happens to a user's messages
    ([xai-message-delivery-core], [xai-prompt-queue], [xai-interjection-core]),
    to conversations that outgrow the model ([xai-grok-compaction]), to the
    changes that are made to files ([xai-hunk-tracker]) and to failing upstream
    services ([xai-circuit-breaker]).  What an agent may do on the machine is decided by the permission code of
    [xai-grok-workspace].  This library models these parts.  Paths below are
    relative to [src/crates].

    ** How the parts fit together

    The Codex client writes one JSON object per line to the app server
    ([message.rs]), matches responses to waiting requests and broadcasts the
    rest ([transport.rs]); the broadcast events go through the normalizer
    ([normalize.rs]), which produces the events of [bot-core] that the terminal
    renders; the diff of a turn is cut into files and hunks ([diff.rs]).
    Messages a user sends while the agent works wait in the interjection
    buffer or in the prompt queue, where follow-ups may be merged; messages
    between agents are owned by the delivery lifecycle until their turn ends.
    When a conversation nears the window of the model, its older part is
    replaced by a summary that a model writes ([xai-grok-compaction]).  What the
    agent and others change in the files of the workspace is kept as hunks
    between a baseline and the current text, which the user accepts or rejects;
    a sink that follows the events of this tracker attributes lines to authors
    ([xai-hunk-tracker]).

    A tool call is checked before it runs.  Rules of the settings files
    ([types.rs], [rules.rs]) are compiled to a policy ([policy.rs]).  A shell
    command is parsed and cut into the commands it would run
    ([bash_command_splitting.rs]), and each is judged without its wrappers
    ([env], [timeout], [sh -c], ...); the files it names or redirects to are
    judged as file accesses ([shell_access.rs]).  The managed policy does all
    this once per request ([gate_preflight.rs]).  The permission manager is an
    actor that combines this answer with what the user granted or refused
    before ([manager/mod.rs], [bash_grants.rs], [state.rs]), with a look at what
    a command could execute ([exec_risk.rs]), in auto mode with the verdict of a
    classifier ([auto_mode/]), and asks the user when none of these answers.
    Sessions and subagents reach it through clones of a handle.  A question
    is shown as rows of a prompt, or sent to a hub ([prompter.rs],
    [hub_permission.rs]).

    Where the rules come from is decided before: the configuration files of the
    system, the organisation, the user and the project are read, overridden by
    version, campaign and environment, and merged below the requirements of
    administrators ([xai-grok-config]); the permission rules of all of them and
    of another assistant's settings are collected with their sources
    ([resolution.rs], [claude_settings.rs]); and a policy for servers and
    marketplaces is folded from its layers ([managed_policy/]).  What a project
    brings along counts only when its folder is trusted: a scan looks for it
    ([folder_trust.rs]), decisions are kept in a store that all processes share
    ([trust.rs]), and the loaders ask a gate that caches the verdicts
    ([xai-grok-shell/src/agent/folder_trust.rs]).

    ** Files

    - [Prelude] (this file): [result], saturating and checked machine
      arithmetic, the hint database, tactics and shared lemmas.
    - [RustStr]: the operations of [str] the code uses, on byte strings: UTF-8,
      character boundaries, [trim], [split], [lines], prefixes, integer
      parsing.
    - [TextSearch]: the last occurrence of a pattern, and what [contains],
      [replace] and [trim] do to occurrences.
    - [Float64]: [f64] as its bit pattern, with arithmetic through [SpecFloat].
    - [Json]: the class [SerdeJson] of the operations of [serde_json] that the
      code calls, the class [SerdeLaws] of the documented behaviour the
      round-trip theorems use, and [Tree], an implementation of both that the
      witnesses evaluate.
    - [Paths]: [std::path] on Unix (components, [join], [starts_with],
      [strip_prefix]) and [normalize_lexically] of [permission/resolution.rs]
      and of the shell gate.
    - [PermRules], [BashCommand], [PermPolicy], [ShellAccess], [PermGate]: the
      files [types.rs] and [rules.rs], [bash_command_splitting.rs],
      [policy.rs], [shell_access.rs] and [gate_preflight.rs] of
      [codegen/xai-grok-workspace/src/permission].  The syntax tree is the
      record [Node] of what the code reads of a tree-sitter node; the parser,
      glob matching, URLs, the file system and Unicode lower-casing are
      parameters.  The modules [PermPolicy.Sample], [ShellAccess.FileSample]
      and [PermGate.GateSample] instantiate them for the witnesses.
    - [ExecRisk]: [exec_risk.rs] and the reading of a repository's settings in
      [git_content_filters.rs]; libgit2 is the class [Git2].
    - [AutoMode]: [auto_mode/mod.rs], [security_findings.rs] and
      [routine_git.rs]: the heuristic, the messages to the model and the reading
      of its reply.  The model is an argument, and so is the text of the system
      prompt, which the build includes from a file.
    - [PermState]: [state.rs] over a map from paths to files; the TOML library
      is the class [Toml] with its round trip as [TomlLaws].
    - [WebDomains]: the allow list of [web_fetch/domain.rs].
    - [PermManager]: the functions of [manager/mod.rs] and [bash_grants.rs]
      that decide on one request; hash sets are [gset string].
    - [PermActor]: the actor of [manager/mod.rs].  [Actor] is the record of its
      variables, [handle_request] the arm for a request, composed of one
      definition per stage of the code; what the task waits for (files, the
      requester, classifier, user) is the record [Surroundings].  [reachable]
      is the relation of all its runs.
    - [PermHandle]: the handle's setters as sequences of atomic stores and
      sends, and all their interleavings with the actor ([wstep]).
    - [PermPrompter]: [prompter.rs] and [hub_permission.rs]: the rows, the
      meaning of the chosen one, the question to the hub; client and hub are
      functions from questions to answers.
    - [PolicyUrl], [ClaudeSettings], [ManagedPolicy]: [managed_policy/] (its
      URL patterns in the first) and [claude_settings.rs]; the classes
      [UrlParser], [SerdeView], [Files] and [TomlTree] stand for the crates and
      the disk.
    - [Toml]: [toml::Value] and [deep_merge_toml].  [ConfigLayers]: the loaders,
      overrides, campaigns, overlay, requirements and layers of
      [codegen/xai-grok-config/src]; the parser, [semver] and [shellexpand] are
      classes, what is fixed for a run is the class [Installation].
    - [PermResolution]: [resolution.rs], [project_config.rs] and the walk of
      [xai-grok-agent/src/repo.rs], on top of the former.
    - [TrustStore], [FolderTrust], [TrustGate]: [trust.rs] and
      [folder_trust.rs] of [codegen/xai-grok-workspace/src], the gate of
      [xai-grok-shell] with the prompt of graphical clients, and what they use
      of [xai-dirs], [flags.rs], [compat.rs] and [xai-grok-agent].  The disk is
      a map from paths to what reading them gives; a write takes the outcomes
      of its system calls and what peers write before it has the lock ([Io]);
      git, the registry of worktrees and the TOML codec are classes.
      [writer_step] interleaves writers, [gate_step] the calls on the gate.
    - [BotCore]: [bot-core/src] (identifiers, events, profiles, sessions, usage
      limits).
    - [BotProvider]: [bot-provider/src] (extension contracts, command
      ownership, discovery of provider executables in PATH).
    - [CodexMessage], [CodexDiff], [CodexTransport], [CodexNormalize]:
      the files of [bot-provider-codex/src] with these names.  In
      [CodexTransport] the state of a [CodexClient] and its reader task is the
      record [Client], and [Step] has one transition for the code between two
      awaits, so every interleaving of callers, reader and process is a
      sequence of steps.  In [CodexNormalize] [&mut self] with [?] is a state
      monad in which what was written before an early return stays written.
    - [BotUpdate]: [bot-update/src/lib.rs] as a state monad over the files on
      disk, in which each system call may fail; versions, SHA-256, HTTP,
      archives and the process are the class [UpdateDeps].
    - [DeliveryLifecycle], [Delivery]: [common/xai-message-delivery-core/src],
      the first its [lifecycle.rs], the second addresses, identities and
      envelopes.
    - [PromptQueue]: [codegen/xai-prompt-queue/src].
    - [Interjection]: [common/xai-interjection-core/src].
    - [Compaction]: [codegen/xai-token-estimation/src] and, of
      [common/xai-grok-compaction/src], [select.rs], [fit.rs], [trigger.rs] and
      the traits of an item; [CompactionSummary]: sampling, cleaning and
      carrying summaries ([code_compaction/], [history/]); [Reminder]:
      [reminder.rs]; [CompactionRun]: [intra_compaction/compact.rs] and
      [inter_compaction/compact.rs].  Items, token counter, builder and stream
      processor are classes, as they are traits in the code; the model is a
      function from its input and the number of the attempt to an answer; loops
      over text have the length of the text as fuel, which each round shortens.
    - [HunkDiff]: [types.rs] and [diff.rs] of [codegen/xai-hunk-tracker/src]; the
      line diff of the crate [similar] is the class [LineDiff], with the law
      that its changes spell both texts ([LineDiffLaws]); identities and times
      come from the record [Supply].  [HunkTracker]: the actor ([actor/],
      [commands.rs], [events.rs]) as the record [Tracker], one definition per
      command and [actor_round] for a round of its loop; the events sent and
      the files written are part of the state, git, the file system and the
      clock are the record [World], and hash maps are iterated in any order
      ([HashOrder]).  [HunkInvariant]: its reachable states.  [HunkActions]:
      what actions, batches and reads do.  [HunkLoc]: the sink of
      [loc/mod.rs].
    - [Breaker]: [common/xai-circuit-breaker/src], one step per call.
    - [BreakerAtomic]: [breaker.rs] again, one step per atomic access, clock
      reading or critical section, under arbitrary schedules.

    ** What the theorems show

    - Permission rules: a printed rule reads back as itself; a policy's answer
      is that of the strongest matching rule, whatever the order of the rules;
      resolving symbolic links can only make an answer stricter; the relative
      spellings of a path are exactly those that lead to it.
    - Shell commands: every command of a parsed script is among those that
      are judged; peeling wrappers yields a suffix of the words and
      stops only at a command that is none, or says that it gave up; a shell
      command is allowed without a question only when each of its commands
      is; the gate rejects exactly when one of the commands, or one of the
      files they touch, is denied; an edit that is not flagged as protected
      touches no protected file.  Two theorems show gaps: [env -S] found in
      the last round of peeling is not flagged, and a directory whose name is
      a character and a colon hides the parent components after it.
    - Preflight: its answer is the strictest of those of the parts of the
      request, and what a rule denies is rejected.
    - Decisions: the verdict on a script is that of its commands; more grants
      never turn an allow into a question; an offer to always allow a command
      works when it is accepted, and no reply can store more than was shown;
      [git] runs unasked only as a query; the allow list answers as its entries.
    - Classifier: nothing in the transcript or the request can change the
      trusted messages, and findings are never waved through without the model.
    - Stored grants: saves of several sessions accumulate, a reset is final.
    - Actor: deny rules are final in every mode; a hook's question is always
      asked; findings of the static analysis, and remembered denials in ask
      mode, are never overridden in silence; a request adds only grants for
      itself; the modes exclude each other, a lock on always-approve holds, and
      the counters are bounded.  The handle reports the actor's modes once all
      calls are done, and never a locked mode.
      Theorems also show where the code does not keep to this: a quoted program
      name that starts like a safe one passes as safe; a script of setup
      commands alone satisfies an ask rule; an ask rule on web searches is not
      heard; in auto mode a script that cannot be analysed skips the remembered
      denials; an unreadable store is overwritten; uncertain options of [env]
      raise no flag.
    - Prompt: the row the user picks decides, and what is remembered is what
      its label says; without the setting to remember nothing is; a hub that
      fails or answers nonsense never allows.
    - Managed policy: the verdict is exact over the layers and does not depend
      on their order; what a user writes lifts no block; lists that cannot be
      read block; escapes in an address do not dodge a deny pattern.
    - Configuration: the strongest layer that speaks of a setting decides it
      and requirements always win; the overlay and the patches of campaigns
      reach only what they may; tables never have a key twice; overrides by
      version are all or nothing; requirements that insist are in force when
      the start-up check passes.
    - Rules in force: exactly the loaded ones, less under the pin the catch-all
      allows of anyone but administrators; the system's pin cannot be taken
      back; a folder without trust adds nothing; the managed mode is final.
    - Folder trust: a lookup answers as the nearest record that covers the
      workspace; a decision reported as recorded reads back and loses no other;
      a failed write changes nothing; writers under the lock lose no update; a
      grant is what it reports; what the gate lets through has a reason that
      was not revoked, a revocation counts at once, and the permission rules of
      a folder apply only for such a reason.  Three theorems show gaps: the
      migration of older grants overrides a refusal made meanwhile, a grant
      that cannot be saved is honoured one question late, and an answer to a
      prompt from before a revocation counts once another prompt is open.
    - Compaction: a split keeps the longest end of the conversation that fits
      and separates no tool result from its request; the input of the
      summarizer is made by the first rung of the ladder that suffices, within
      the budget, and the model is sent nothing else; a clipped text stays
      well-formed and within its budget; retries are bounded and stop at an
      error that a retry cannot help; a cleaned summary holds no control tag;
      the queries of the user survive any number of rounds; a pass replaces what
      it summarized and nothing else, and one that fails changes nothing; chunks
      are the history in order; the reminder names all that runs.  Examples show
      gaps: without steps a newest turn above the budget yields an empty plan
      and no compaction, and the mode with two passes can fail after it has
      committed the first.
    - Hunks: the hunks of two texts go through both in order and replace exactly
      the lines they name; accepting some and rejecting the others meet in one
      text.  In every reachable state of the tracker the hunks of a file are the
      diff of the two contents held for it, identities are unique, and the index
      of turns answers as a scan over all files.  An action on a file settles
      both contents and touches no other; one that fails stops there.  The
      records of the sink sum to what was accepted and what is pending.  Theorems
      and examples show gaps: a change of the final newline cannot be accepted
      or rejected, a patch that leaves one blank line loses it, a rejection that
      fails is counted, an agent's write of binary content clears hunks
      without an event, a file that turned binary is shown as deleted, and two
      files that a move of the working directory gives one path keep the hunks
      of both under one baseline.
    - Normalizer: over any stream of app-server events, event ids never repeat
      and every event is of the own session; text comes out complete and in
      order; no approval request is lost; tool events carry the recorded call,
      whose output stays within its limit and is never cut inside a character;
      unknown notifications are passed on whole.
    - Transport: in every reachable state the pending table is exactly the
      unanswered calls; a response reaches the one call that waits for it; a
      call is answered once; the end of the reader answers every pending call.
      One theorem shows a gap: a request that is registered after the reader
      has finished is never answered.
    - Line protocol and diffs: encoded messages decode to themselves and a line
      is accepted only as what its fields say; rendered diffs parse back to
      their hunks and files.
    - Delivery: whatever the host does, every admitted message is in exactly
      one place and none is redelivered after its commit; the store refines one
      automaton per identity; minted tokens parse back and only owned children
      are addressed.
    - Update: the executable changes only by an install of a published release
      whose archive passed all checks; downloads are bounded.
    - Breaker: the counters, the window and the fast flag agree after any
      calls; an open breaker sheds until the cool-down has passed; a half-open
      one admits its free probe slots only; a lost probe delays recovery but
      does not prevent it.  Under concurrency a call that is not interrupted
      behaves as in the sequential model, every call ends within ten of its own
      accesses, and at most one request more than the free slots is admitted.
      Three theorems show races: that extra probe can occur, the lock-free
      mirror of the state can stay wrong, and the probe counter can wrap.
    - Queues, core types, providers: maximal merging without losing a text,
      bounded queues and texts, selection of the usage window, countdown
      texts, contracts closed under their dependencies, first executable in
      PATH order.

    ** Integers, bounds and fuel

    Machine integers are [Z] with checked, saturating or wrapping operations
    written where the code has them; [usize] is 64 bits wide.  Strings are
    their UTF-8 bytes.  Almost all recursion is structural.  The walks over a
    syntax tree take as fuel the number of its nodes, which
    [commands_complete] proves to be enough.  The depth limits of the
    permission code (eight nested wrappers and inline scripts, sixteen rounds
    of normalization, forty symbolic links) are the constants of the code and
    serve as fuel.  The recursion of [bash_command_is_routine] takes the number
    of words plus one, which [routine_unfold] shows to be enough, and the loop of
    [sanitize_model_path_arg] the length of the text ([strip_escapes_done]).  The
    open end of a heredoc's scope, [usize::MAX], is [None].
    The walks up the directories take the length of the path, and every parent
    is shorter ([parent_shorter]); [strip_json_nulls] takes the depth limit of
    the parser.  The search for a
    character boundary in [append_tail] takes as fuel the length of the text
    plus one; every text has a boundary at its end, and [output_tail_bounded]
    proves that the search returns within it.  [alone] in [BreakerAtomic] runs
    a call for at most ten accesses; [uninterrupted_calls_sequential] proves
    that this reaches its return.

    ** What is not modelled

    The terminal interface, the shell's actor loops, tools, login and
    telemetry crates; of the workspace, everything but the permission files
    named above and folder trust: in particular the conversion of typed
    tool inputs to requests, the directory a project's grants are kept in, the
    logging and the explanatory texts; of [xai-grok-config] the signatures and
    caches of synced policy and the choice of directories; code generated by derive macros (the
    records of [protocol.rs] and the serde form of the modelled records);
    the handle of the hunk tracker, which only sends its commands, and the writer
    of attribution records;
    process spawning, the initialize handshake and the timed wait of [close] in
    [transport.rs]; the Windows helper of [apply_update] and file permission
    bits.  The weaker memory orderings of the atomics of the breaker and of the
    permission handle are not modelled: their concurrent models are
    sequentially consistent.

    ** Plan

    Signed and cached policy of [xai-grok-config]; the names of project servers
    and the reload after a grant; the session prompt queue of [xai-grok-shell];
    the chat state; the workflow journal; the text area. *)

From Stdlib Require Export ZArith Lia.
From stdpp Require Export base option list gmap strings pretty numbers.

(** ** Rust's [Result] *)

(** [result E A] is Rust's [Result<A, E>]; the error type comes first so that
    [result E] is a monad and [?] is its bind. *)
Inductive result (E A : Type) : Type :=
| Ok (a : A)
| Err (e : E).
Arguments Ok {E A} a.
Arguments Err {E A} e.

#[export] Instance result_ret {E} : MRet (result E) := fun A a => Ok a.

#[export] Instance result_bind {E} : MBind (result E) :=
  fun A B f r => match r with Ok a => f a | Err e => Err e end.

#[export] Instance result_fmap {E} : FMap (result E) :=
  fun A B f r => match r with Ok a => Ok (f a) | Err e => Err e end.

#[export] Instance result_eq_dec {E A} `{EqDecision E, EqDecision A} :
  EqDecision (result E A).
Proof. solve_decision. Defined.

(** [Option::ok_or] *)
Definition ok_or {E A} (e : E) (o : option A) : result E A :=
  match o with Some a => Ok a | None => Err e end.

(** [Result::ok] *)
Definition ok {E A} (r : result E A) : option A :=
  match r with Ok a => Some a | Err _ => None end.

(** [Result::map_err] *)
Definition map_err {E F A} (f : E -> F) (r : result E A) : result F A :=
  match r with Ok a => Ok a | Err e => Err (f e) end.

Lemma result_bind_ok {E A B} (m : result E A) (f : A -> result E B) b :
  m ≫= f = Ok b <-> exists a, m = Ok a /\ f a = Ok b.
Proof.
  destruct m as [a|e]; cbn; split.
  - by intros ?; exists a.
  - by intros (?&[= ->]&?).
  - done.
  - by intros (?&?&?).
Qed.

Lemma result_bind_err {E A B} (m : result E A) (f : A -> result E B) e :
  m ≫= f = Err e <-> m = Err e \/ exists a, m = Ok a /\ f a = Err e.
Proof.
  destruct m as [a|e']; cbn; split.
  - intros ?; right; by exists a.
  - by intros [[=]|(?&[= ->]&?)].
  - intros [= ->]; by left.
  - by intros [[= ->]|(?&[=]&?)].
Qed.

Lemma ok_or_ok {E A} (e : E) (o : option A) a : ok_or e o = Ok a <-> o = Some a.
Proof. destruct o; cbn; intuition congruence. Qed.

Lemma ok_some {E A} (r : result E A) a : ok r = Some a <-> r = Ok a.
Proof. destruct r; cbn; intuition congruence. Qed.

(** ** Combinators of [Option] *)

(** [Option::filter] *)
Definition ofilter {A} (p : A -> bool) (o : option A) : option A :=
  match o with Some a => if p a then Some a else None | None => None end.

(** [Option::or_else] *)
Definition or_else {A} (o : option A) (k : option A) : option A :=
  match o with Some a => Some a | None => k end.

(** [Option::unwrap_or] *)
Definition unwrap_or {A} (d : A) (o : option A) : A :=
  match o with Some a => a | None => d end.

(** [bool::then_some] *)
Definition then_some {A} (b : bool) (a : A) : option A := if b then Some a else None.

Lemma ofilter_some {A} (p : A -> bool) o (a : A) :
  ofilter p o = Some a <-> o = Some a /\ p a = true.
Proof. destruct o as [x|]; cbn; [destruct (p x) eqn:E|]; intuition congruence. Qed.

Lemma then_some_some {A} b (x a : A) : then_some b x = Some a <-> b = true /\ x = a.
Proof. destruct b; cbn; intuition congruence. Qed.

(** ** Machine integers *)

(** Integers are [Z] with the width of the Rust type written out.  [usize] is
    the 64-bit one of the published targets. *)
Definition u8_max : Z := 2 ^ 8 - 1.
Definition u16_max : Z := 2 ^ 16 - 1.
Definition u64_max : Z := 2 ^ 64 - 1.
Definition u128_max : Z := 2 ^ 128 - 1.
Definition usize_max : Z := u64_max.
Definition i64_min : Z := - 2 ^ 63.
Definition i64_max : Z := 2 ^ 63 - 1.

Definition is_u64 (z : Z) : Prop := (0 <= z <= u64_max)%Z.
Definition is_i64 (z : Z) : Prop := (i64_min <= z <= i64_max)%Z.

(** Unsigned [saturating_add], [saturating_sub], [saturating_mul] at a maximum. *)
Definition sat_add (max a b : Z) : Z := Z.min (a + b) max.
Definition sat_sub (a b : Z) : Z := Z.max 0 (a - b).
Definition sat_mul (max a b : Z) : Z := Z.min (a * b) max.

(** [checked_add] of an integer type whose greatest value is [max]. *)
Definition checked_add (max a b : Z) : option Z :=
  if (a + b <=? max)%Z then Some (a + b)%Z else None.

(** [i64::saturating_sub] *)
Definition i64_sat_sub (a b : Z) : Z := Z.max i64_min (Z.min i64_max (a - b)).

Lemma checked_add_some max a b c :
  checked_add max a b = Some c <-> (a + b <= max)%Z /\ c = (a + b)%Z.
Proof. unfold checked_add. destruct (Z.leb_spec (a + b) max); intuition (try congruence); lia. Qed.

Lemma sat_add_exact max a b : (a + b <= max)%Z -> sat_add max a b = (a + b)%Z.
Proof. unfold sat_add. lia. Qed.

Lemma sat_sub_exact a b : (b <= a)%Z -> sat_sub a b = (a - b)%Z.
Proof. unfold sat_sub. lia. Qed.

(** ** Automation *)

Create Rewrite HintDb bot.
Create HintDb bot.
#[export] Hint Rewrite @result_bind_ok @ok_or_ok @ok_some @ofilter_some
  @then_some_some : bot.

(** Case analysis on every [match] and [if] of the goal or of a hypothesis,
    with the impossible branches closed. *)
Ltac split_match :=
  match goal with
  | |- context [match ?x with _ => _ end] =>
      lazymatch x with context [match _ with _ => _ end] => fail
                     | _ => destruct x eqn:? end
  | H : context [match ?x with _ => _ end] |- _ =>
      lazymatch x with context [match _ with _ => _ end] => fail
                     | _ => destruct x eqn:? end
  end.

Ltac split_matches := repeat (split_match; simplify_eq/=; try done).

(** Turn the boolean tests of the code that occur in hypotheses into the
    propositions they decide. *)
Ltac reflect_bools :=
  repeat match goal with
  | H : negb _ = true |- _ => apply negb_true_iff in H
  | H : negb _ = false |- _ => apply negb_false_iff in H
  | H : _ && _ = true |- _ => apply andb_true_iff in H as [??]
  | H : _ || _ = false |- _ => apply orb_false_iff in H as [??]
  | H : (_ <=? _)%Z = true |- _ => apply Z.leb_le in H
  | H : (_ <=? _)%Z = false |- _ => apply Z.leb_gt in H
  | H : (_ <? _)%Z = true |- _ => apply Z.ltb_lt in H
  | H : (_ <? _)%Z = false |- _ => apply Z.ltb_ge in H
  | H : (_ =? _)%Z = true |- _ => apply Z.eqb_eq in H
  | H : (_ =? _)%Z = false |- _ => apply Z.eqb_neq in H
  | H : String.eqb _ _ = true |- _ => apply String.eqb_eq in H
  | H : String.eqb _ _ = false |- _ => apply String.eqb_neq in H
  end.

Infix "=s?" := String.eqb (at level 70, no associativity) : stdpp_scope.

(** ** Lists *)

(** [Iterator::filter_map] *)
Fixpoint filter_map {A B} (f : A -> option B) (l : list A) : list B :=
  match l with
  | [] => []
  | x :: l' => match f x with Some y => y :: filter_map f l' | None => filter_map f l' end
  end.

(** [Iterator::find_map] *)
Fixpoint find_map {A B} (f : A -> option B) (l : list A) : option B :=
  match l with
  | [] => None
  | x :: l' => match f x with Some y => Some y | None => find_map f l' end
  end.

(** [Iterator::partition] *)
Fixpoint partition {A} (p : A -> bool) (l : list A) : list A * list A :=
  match l with
  | [] => ([], [])
  | x :: l' =>
      let '(yes, no) := partition p l' in
      if p x then (x :: yes, no) else (yes, x :: no)
  end.

Section lists.
Context {A B : Type}.
Implicit Types (f : A -> option B) (p : A -> bool) (l : list A).

Lemma filter_map_app f l k :
  filter_map f (l ++ k) = filter_map f l ++ filter_map f k.
Proof. induction l as [|x l IH]; cbn; [done|]. destruct (f x); cbn; by rewrite IH. Qed.

Lemma elem_of_filter_map f l y :
  y ∈ filter_map f l <-> exists x, x ∈ l /\ f x = Some y.
Proof.
  induction l as [|x l IH]; cbn.
  - split; [by intros ?%elem_of_nil|by intros (?&?%elem_of_nil&_)].
  - destruct (f x) eqn:E; setoid_rewrite elem_of_cons; rewrite ?IH; naive_solver.
Qed.

Lemma filter_map_nil f l : filter_map f l = [] <-> forall x, x ∈ l -> f x = None.
Proof.
  induction l as [|x l IH]; cbn.
  - split; [by intros _ ? ?%elem_of_nil|done].
  - setoid_rewrite elem_of_cons. destruct (f x) eqn:E; [|naive_solver].
    split; [done|intros H; specialize (H x); naive_solver].
Qed.

Lemma find_map_head f l : find_map f l = head (filter_map f l).
Proof. induction l as [|x l IH]; cbn; [done|]. by destruct (f x). Qed.

Lemma find_map_some f l y : find_map f l = Some y ->
  exists l1 x l2, l = l1 ++ x :: l2 /\ f x = Some y /\ forall z, z ∈ l1 -> f z = None.
Proof.
  induction l as [|x l IH]; cbn; [done|].
  destruct (f x) eqn:E; intros H; simplify_eq.
  - exists [], x, l. split_and!; [done..|]. by intros z ?%elem_of_nil.
  - destruct (IH H) as (l1&z&l2&->&?&?). exists (x :: l1), z, l2.
    split_and!; [done..|]. intros w [->|?]%elem_of_cons; naive_solver.
Qed.

Lemma partition_filter p l :
  partition p l = (List.filter p l, List.filter (fun x => negb (p x)) l).
Proof. induction l as [|x l IH]; cbn; [done|]. rewrite IH. by destruct (p x). Qed.

Lemma filter_permutation p l :
  l ≡ₚ List.filter p l ++ List.filter (fun x => negb (p x)) l.
Proof.
  induction l as [|x l IH]; cbn; [done|].
  destruct (p x); cbn; [by f_equiv|].
  by rewrite IH at 1; rewrite Permutation_middle.
Qed.
End lists.

(** Induction for loops that advance by one or by two. *)
Lemma list_ind2 {A} (P : list A -> Prop) :
  P [] -> (forall x, P [x]) -> (forall x y l, P l -> P (y :: l) -> P (x :: y :: l)) -> forall l, P l.
Proof.
  intros H0 H1 H2 l. enough (P l /\ forall x, P (x :: l)) as [? _] by done.
  induction l as [|y l [IH1 IH2]]; auto.
Qed.

Lemma suffix_tail {A} (x : A) l k : x :: l `suffix_of` k -> l `suffix_of` k.
Proof. intros [p ->]. exists (p ++ [x]). by rewrite <- app_assoc. Qed.

Lemma suffix_skip {A} (x : A) l k : l `suffix_of` k -> l `suffix_of` x :: k.
Proof. intros [p ->]. by exists (x :: p). Qed.
