(* ===== verification/RustStr.v ===== *)
(** * [str] and [String] of the Rust standard library

    A Rust string is the byte sequence that stores it: a [string], one [ascii]
    per byte, holding UTF-8.  The file defines the operations of [str] the
    modelled crates call, with the behaviour of the standard library on
    multi-byte characters (white space, character boundaries), and the lemmas
    the components share.  The decimal and hexadecimal forms of integers that
    [format!] prints and [str::parse] reads are here too. *)

From S2P Require Import Prelude.
From Stdlib Require Import Strings.Ascii HexadecimalString HexadecimalN.
Export Stdlib.Strings.Ascii (ascii, ascii_of_N, N_of_ascii).
Export (notations) Stdlib.Strings.Ascii.

(** Equality of two bytes. *)
Definition byte_eqb (a b : ascii) : bool := Stdlib.Strings.Ascii.eqb a b.

(** The length in bytes, [str::len]. *)
Definition len (s : string) : Z := Z.of_nat (String.length s).

Definition byte_val (c : ascii) : Z := Z.of_N (N_of_ascii c).

Definition in_range (lo hi : Z) (c : ascii) : bool :=
  (lo <=? byte_val c)%Z && (byte_val c <=? hi)%Z.

(** ** UTF-8 *)

(** A continuation byte, [0b10xxxxxx]. *)
Definition is_cont (c : ascii) : bool := in_range 128 191 c.

(** The second byte a three- or four-byte sequence may have after its lead. *)
Definition second_ok (a b : ascii) : bool :=
  if (byte_val a =? 224)%Z then in_range 160 191 b
  else if (byte_val a =? 237)%Z then in_range 128 159 b
  else if (byte_val a =? 240)%Z then in_range 144 191 b
  else if (byte_val a =? 244)%Z then in_range 128 143 b
  else is_cont b.

(** The invariant of [str]: well-formed UTF-8. *)
Fixpoint utf8 (s : string) : bool :=
  match s with
  | EmptyString => true
  | String a s1 =>
      if in_range 0 127 a then utf8 s1
      else match s1 with
      | EmptyString => false
      | String b s2 =>
          if in_range 194 223 a then is_cont b && utf8 s2
          else match s2 with
          | EmptyString => false
          | String c s3 =>
              if in_range 224 239 a then second_ok a b && is_cont c && utf8 s3
              else match s3 with
              | EmptyString => false
              | String d s4 =>
                  in_range 240 244 a && second_ok a b && is_cont c && is_cont d && utf8 s4
              end
          end
      end
  end.

(** [&s[n..]] as bytes. *)
Fixpoint sdrop (n : nat) (s : string) : string :=
  match n, s with
  | O, _ => s
  | S n', String _ s' => sdrop n' s'
  | S _, EmptyString => EmptyString
  end.

(** [&s[..n]] as bytes. *)
Fixpoint stake (n : nat) (s : string) : string :=
  match n, s with
  | O, _ => EmptyString
  | S n', String c s' => String c (stake n' s')
  | S _, EmptyString => EmptyString
  end.

(** [str::is_char_boundary] *)
Definition is_char_boundary (s : string) (n : nat) : bool :=
  match n with
  | O => true
  | S _ => match String.get n s with
           | Some c => negb (is_cont c)
           | None => (n =? String.length s)%nat
           end
  end.

(** [str::split_at_checked] *)
Definition split_at_checked (n : nat) (s : string) : option (string * string) :=
  if is_char_boundary s n then Some (stake n s, sdrop n s) else None.

(** ** White space *)

(** The characters of Unicode's [White_Space], by the length of their UTF-8
    form: [char::is_whitespace]. *)
Definition ws1 (a : ascii) : bool := in_range 9 13 a || (byte_val a =? 32)%Z.
Definition ws2 (a b : ascii) : bool :=
  (byte_val a =? 194)%Z && ((byte_val b =? 133)%Z || (byte_val b =? 160)%Z).
Definition ws3 (a b c : ascii) : bool :=
  ((byte_val a =? 225)%Z && (byte_val b =? 154)%Z && (byte_val c =? 128)%Z)
  || ((byte_val a =? 226)%Z && (byte_val b =? 128)%Z
      && (in_range 128 138 c || in_range 168 169 c || (byte_val c =? 175)%Z))
  || ((byte_val a =? 226)%Z && (byte_val b =? 129)%Z && (byte_val c =? 159)%Z)
  || ((byte_val a =? 227)%Z && (byte_val b =? 128)%Z && (byte_val c =? 128)%Z).

(** [str::trim_start] *)
Fixpoint trim_start (s : string) : string :=
  match s with
  | EmptyString => EmptyString
  | String a s1 =>
      if ws1 a then trim_start s1
      else match s1 with
      | EmptyString => s
      | String b s2 =>
          if ws2 a b then trim_start s2
          else match s2 with
          | EmptyString => s
          | String c s3 => if ws3 a b c then trim_start s3 else s
          end
      end
  end.

(** The whole string is white space. *)
Definition all_ws (s : string) : bool := trim_start s =s? "".

(** [str::trim_end]: cut at the first byte from which only white space is
    left.  In well-formed UTF-8 that byte starts a character. *)
Fixpoint trim_end (s : string) : string :=
  match s with
  | EmptyString => EmptyString
  | String a s' => if all_ws s then EmptyString else String a (trim_end s')
  end.

(** [str::trim] *)
Definition trim (s : string) : string := trim_end (trim_start s).

(** [str::is_empty] *)
Definition is_empty (s : string) : bool := s =s? "".

(** [str::split_whitespace]; [cur] is the field being read. *)
Fixpoint split_ws (cur : string) (s : string) : list string :=
  let flush rest := if is_empty cur then rest else cur :: rest in
  match s with
  | EmptyString => flush []
  | String a s1 =>
      if ws1 a then flush (split_ws "" s1)
      else match s1 with
      | EmptyString => [cur +:+ String a ""]
      | String b s2 =>
          if ws2 a b then flush (split_ws "" s2)
          else match s2 with
          | EmptyString => split_ws (cur +:+ String a "") s1
          | String c s3 =>
              if ws3 a b c then flush (split_ws "" s3)
              else split_ws (cur +:+ String a "") s1
          end
      end
  end.

Definition split_whitespace (s : string) : list string := split_ws "" s.

(** ** Prefixes, splitting, joining *)

(** [str::strip_prefix] with a string pattern *)
Fixpoint strip_prefix (p s : string) : option string :=
  match p, s with
  | EmptyString, _ => Some s
  | String a p', String b s' => if byte_eqb a b then strip_prefix p' s' else None
  | String _ _, EmptyString => None
  end.

(** [str::starts_with] *)
Definition starts_with (p s : string) : bool :=
  match strip_prefix p s with Some _ => true | None => false end.

(** [str::trim_start_matches] with a [char] pattern *)
Fixpoint trim_start_matches (c : ascii) (s : string) : string :=
  match s with
  | EmptyString => EmptyString
  | String a s' => if byte_eqb a c then trim_start_matches c s' else s
  end.

(** [str::split_once] *)
Fixpoint split_once (p s : string) : option (string * string) :=
  match strip_prefix p s with
  | Some rest => Some ("", rest)
  | None =>
      match s with
      | EmptyString => None
      | String c s' =>
          match split_once p s' with
          | Some (l, r) => Some (String c l, r)
          | None => None
          end
      end
  end.

Definition LF : ascii := "010"%char.
Definition CR : ascii := "013"%char.

(** [str::split_inclusive] with a [char] pattern: every piece keeps the
    separator that ends it, and no empty piece is produced at the end. *)
Fixpoint split_inclusive (c : ascii) (s : string) : list string :=
  match s with
  | EmptyString => []
  | String a s' =>
      if byte_eqb a c then String a "" :: split_inclusive c s'
      else match split_inclusive c s' with
           | [] => [String a ""]
           | l :: ls => String a l :: ls
           end
  end.

(** [str::split] with a [char] pattern: at least one piece. *)
Fixpoint split_char (c : ascii) (s : string) : list string :=
  match s with
  | EmptyString => [""]
  | String a s' =>
      if byte_eqb a c then "" :: split_char c s'
      else match split_char c s' with
           | [] => [String a ""]
           | l :: ls => String a l :: ls
           end
  end.

(** [str::strip_suffix] with a [char] pattern *)
Fixpoint strip_suffix_char (c : ascii) (s : string) : option string :=
  match s with
  | EmptyString => None
  | String a EmptyString => if byte_eqb a c then Some "" else None
  | String a s' => String a <$> strip_suffix_char c s'
  end.

(** The line of one [split_inclusive('\n')] piece, as [str::lines] maps it. *)
Definition line_of_piece (l : string) : string :=
  match strip_suffix_char LF l with
  | None => l
  | Some l1 => match strip_suffix_char CR l1 with None => l1 | Some l2 => l2 end
  end.

(** [str::lines] *)
Definition lines (s : string) : list string := line_of_piece <$> split_inclusive LF s.

(** [[&str]::join] *)
Fixpoint join (sep : string) (l : list string) : string :=
  match l with
  | [] => ""
  | [s] => s
  | s :: l' => s +:+ sep +:+ join sep l'
  end.

(** [Iterator<Item = &str>::collect::<String>] *)
Fixpoint concat_str (l : list string) : string :=
  match l with [] => "" | s :: l' => s +:+ concat_str l' end.

(** ** ASCII case *)

Definition lower (c : ascii) : ascii :=
  if in_range 65 90 c then ascii_of_N (N_of_ascii c + 32) else c.

(** [str::to_ascii_lowercase] *)
Fixpoint to_ascii_lowercase (s : string) : string :=
  match s with
  | EmptyString => EmptyString
  | String a s' => String (lower a) (to_ascii_lowercase s')
  end.

(** [str::eq_ignore_ascii_case] *)
Definition eq_ignore_ascii_case (s t : string) : bool :=
  to_ascii_lowercase s =s? to_ascii_lowercase t.

(** ** Integers *)

Definition digit_val (c : ascii) : option Z :=
  if in_range 48 57 c then Some (byte_val c - 48)%Z else None.

(** Decimal digits with the checked multiply and add of [from_str_radix]. *)
Fixpoint parse_digits (max acc : Z) (s : string) : option Z :=
  match s with
  | EmptyString => Some acc
  | String c s' =>
      match digit_val c with
      | Some d => if (acc * 10 + d <=? max)%Z then parse_digits max (acc * 10 + d) s' else None
      | None => None
      end
  end.

(** [str::parse] at an unsigned type whose greatest value is [max]: an
    optional [+], then at least one digit. *)
Definition parse_unsigned (max : Z) (s : string) : option Z :=
  match s with
  | EmptyString => None
  | String c EmptyString => parse_digits max 0 s
  | String c s' => if byte_eqb c "+"%char then parse_digits max 0 s' else parse_digits max 0 s
  end.

Definition parse_usize : string -> option Z := parse_unsigned usize_max.

(** [{}] of an unsigned integer *)
Definition dec (n : Z) : string := pretty (Z.to_N n).

(** [{:x}] of an unsigned integer *)
Definition hex (n : N) : string := NilZero.string_of_uint (N.to_hex_uint n).

(** Every byte satisfies [p]: [bytes().all(p)]. *)
Fixpoint sall (p : ascii -> bool) (s : string) : bool :=
  match s with EmptyString => true | String a s' => p a && sall p s' end.

(** ** Concatenation *)

Lemma sapp_nil_l s : "" +:+ s = s.
Proof. done. Qed.

Lemma sapp_cons a s t : String a s +:+ t = String a (s +:+ t).
Proof. done. Qed.

Lemma sapp_nil_r s : s +:+ "" = s.
Proof. induction s as [|a s IH]; [done|]. by rewrite sapp_cons, IH. Qed.

Lemma sapp_assoc s t u : (s +:+ t) +:+ u = s +:+ (t +:+ u).
Proof. induction s as [|a s IH]; [done|]. by rewrite !sapp_cons, IH. Qed.

Lemma length_sapp s t : String.length (s +:+ t) = (String.length s + String.length t)%nat.
Proof. induction s as [|a s IH]; [done|]. rewrite sapp_cons. cbn. by rewrite IH. Qed.

Lemma len_sapp s t : len (s +:+ t) = (len s + len t)%Z.
Proof. unfold len. rewrite length_sapp. lia. Qed.

Lemma len_nonneg s : (0 <= len s)%Z.
Proof. unfold len. lia. Qed.

Lemma sapp_inj_r s t u : s +:+ t = s +:+ u -> t = u.
Proof. induction s as [|a s IH]; [done|]. rewrite !sapp_cons. intros [= H]. by apply IH. Qed.

Lemma sapp_inj_l s t u : t +:+ s = u +:+ s -> t = u.
Proof.
  revert u. induction t as [|a t IH]; intros [|b u] H; rewrite ?sapp_cons, ?sapp_nil_l in H.
  - done.
  - apply (f_equal String.length) in H. cbn in H. rewrite length_sapp in H. lia.
  - apply (f_equal String.length) in H. cbn in H. rewrite length_sapp in H. lia.
  - injection H as -> H. f_equal. by apply IH.
Qed.

Lemma sapp_empty s t : s +:+ t = "" -> s = "" /\ t = "".
Proof. destruct s; [done|]. by rewrite sapp_cons. Qed.

Create Rewrite HintDb str.
#[export] Hint Rewrite sapp_nil_l sapp_nil_r sapp_cons sapp_assoc length_sapp len_sapp : str.

Lemma sall_app p s t : sall p (s +:+ t) = sall p s && sall p t.
Proof.
  induction s as [|a s IH]; [done|]. rewrite sapp_cons. cbn. rewrite IH.
  by rewrite andb_assoc.
Qed.

Lemma concat_str_app l k : concat_str (l ++ k) = concat_str l +:+ concat_str k.
Proof. induction l as [|s l IH]; cbn; [done|]. by rewrite IH, sapp_assoc. Qed.

(** ** Slices *)

Lemma stake_sdrop n s : stake n s +:+ sdrop n s = s.
Proof.
  revert n. induction s as [|a s IH]; intros [|n]; cbn; rewrite ?sapp_cons, ?IH; done.
Qed.

Lemma length_sdrop n s : String.length (sdrop n s) = (String.length s - n)%nat.
Proof. revert n. induction s as [|a s IH]; intros [|n]; cbn; [done..|apply IH]. Qed.

Lemma sdrop_app s t : sdrop (String.length s) (s +:+ t) = t.
Proof. induction s as [|a s IH]; [done|]. by rewrite sapp_cons. Qed.

Lemma stake_app s t : stake (String.length s) (s +:+ t) = s.
Proof. induction s as [|a s IH]; [done|]. rewrite sapp_cons. cbn. by rewrite IH. Qed.

Lemma sdrop_all n s : (String.length s <= n)%nat -> sdrop n s = "".
Proof. revert n. induction s as [|a s IH]; intros [|n]; cbn; try done; try lia. intros. apply IH. lia. Qed.

(** ** Prefixes *)

Lemma byte_eqb_spec a b : reflect (a = b) (byte_eqb a b).
Proof. apply Stdlib.Strings.Ascii.eqb_spec. Qed.

Lemma byte_eqb_refl a : byte_eqb a a = true.
Proof. by destruct (byte_eqb_spec a a). Qed.

Lemma strip_prefix_app p s : strip_prefix p (p +:+ s) = Some s.
Proof. induction p as [|a p IH]; [by destruct s|]. rewrite sapp_cons. cbn. by rewrite byte_eqb_refl. Qed.

Lemma strip_prefix_some p s r : strip_prefix p s = Some r <-> s = p +:+ r.
Proof.
  split; [|intros ->; apply strip_prefix_app].
  revert s. induction p as [|a p IH]; intros s; cbn.
  - by intros [= ->].
  - destruct s as [|b s]; [done|]. destruct (byte_eqb_spec a b) as [->|]; [|done].
    rewrite sapp_cons. intros ->%IH. done.
Qed.

Lemma split_once_some p s l r : split_once p s = Some (l, r) -> s = l +:+ p +:+ r.
Proof.
  revert l r. induction s as [|c s IH]; intros l r; cbn.
  - destruct (strip_prefix p "") as [rest|] eqn:E; [|done].
    intros [= <- <-]. rewrite sapp_nil_l. by apply strip_prefix_some in E.
  - destruct (strip_prefix p (String c s)) as [rest|] eqn:E.
    + intros [= <- <-]. rewrite sapp_nil_l. by apply strip_prefix_some in E.
    + destruct (split_once p s) as [[l' r']|] eqn:E'; [|done].
      intros [= <- <-]. rewrite sapp_cons. by rewrite (IH _ _ eq_refl) at 1.
Qed.

(** The first occurrence is found when no byte of the text before it can start
    the pattern. *)
Lemma split_once_app c p l r :
  sall (fun a => negb (byte_eqb c a)) l = true ->
  split_once (String c p) (l +:+ String c p +:+ r) = Some (l, r).
Proof.
  induction l as [|a l IH]; intros H.
  - rewrite sapp_nil_l, sapp_cons. cbn [split_once].
    by rewrite <- sapp_cons, strip_prefix_app.
  - cbn in H. apply andb_true_iff in H as [Ha Hl]. rewrite sapp_cons. cbn [split_once].
    cbn [strip_prefix]. apply negb_true_iff in Ha. rewrite Ha. by rewrite IH.
Qed.

(** ** Lines *)

Lemma concat_split_inclusive c s : concat_str (split_inclusive c s) = s.
Proof.
  induction s as [|a s IH]; [done|]. cbn [split_inclusive].
  destruct (byte_eqb a c); cbn [concat_str]; [by rewrite IH|].
  destruct (split_inclusive c s) as [|l ls]; cbn [concat_str] in *; by rewrite <- IH.
Qed.

Lemma split_inclusive_piece c l s :
  sall (fun a => negb (byte_eqb a c)) l = true ->
  split_inclusive c (l +:+ String c s) = (l +:+ String c "") :: split_inclusive c s.
Proof.
  induction l as [|a l IH]; intros H; [rewrite !sapp_nil_l; cbn; by rewrite byte_eqb_refl|].
  cbn in H. apply andb_true_iff in H as [Ha Hl]. apply negb_true_iff in Ha.
  rewrite !sapp_cons. cbn [split_inclusive]. by rewrite Ha, (IH Hl).
Qed.

Lemma split_char_piece c l s :
  sall (fun a => negb (byte_eqb a c)) l = true ->
  split_char c (l +:+ String c s) = l :: split_char c s.
Proof.
  induction l as [|a l IH]; intros H; [rewrite !sapp_nil_l; cbn; by rewrite byte_eqb_refl|].
  cbn in H. apply andb_true_iff in H as [Ha Hl]. apply negb_true_iff in Ha.
  rewrite !sapp_cons. cbn [split_char]. by rewrite Ha, (IH Hl).
Qed.

Lemma split_char_last c l :
  sall (fun a => negb (byte_eqb a c)) l = true -> split_char c l = [l].
Proof.
  induction l as [|a l IH]; intros H; [done|].
  cbn in H. apply andb_true_iff in H as [Ha Hl]. apply negb_true_iff in Ha.
  cbn [split_char]. by rewrite Ha, (IH Hl).
Qed.

Lemma join_cons sep s l : l <> [] -> join sep (s :: l) = s +:+ sep +:+ join sep l.
Proof. by destruct l. Qed.

(** ** White space *)

(** The string starts with a white-space character. *)
Definition ws_head (s : string) : bool :=
  match s with
  | EmptyString => false
  | String a s1 =>
      ws1 a || match s1 with
               | EmptyString => false
               | String b s2 =>
                   ws2 a b || match s2 with EmptyString => false | String c _ => ws3 a b c end
               end
  end.

(** Induction that follows the bytes a white-space character may take. *)
Lemma string_ind3 (P : string -> Prop) :
  P "" ->
  (forall a s, P s ->
     (forall b s2, s = String b s2 -> P s2) ->
     (forall b c s3, s = String b (String c s3) -> P s3) -> P (String a s)) ->
  forall s, P s.
Proof.
  intros H0 HS s.
  induction s as [s IH] using (induction_ltof1 _ String.length). unfold ltof in IH.
  destruct s as [|a s]; [done|]. apply HS.
  - apply IH. cbn. lia.
  - intros b s2 ->. apply IH. cbn. lia.
  - intros b c s3 ->. apply IH. cbn. lia.
Qed.

Lemma trim_start_head s : ws_head (trim_start s) = false.
Proof.
  induction s as [|a s IH IH2 IH3] using string_ind3; [done|]. cbn [trim_start].
  destruct (ws1 a) eqn:E1; [done|]. destruct s as [|b s2]; [cbn; by rewrite E1|].
  destruct (ws2 a b) eqn:E2; [by eapply IH2|].
  destruct s2 as [|c s3]; [cbn; by rewrite E1, E2|].
  destruct (ws3 a b c) eqn:E3; [by eapply IH3|]. cbn. by rewrite E1, E2, E3.
Qed.

Lemma trim_start_id s : ws_head s = false -> trim_start s = s.
Proof.
  destruct s as [|a [|b [|c s]]]; cbn; [done|..]; intros H; repeat split_match; done.
Qed.

Lemma trim_start_idemp s : trim_start (trim_start s) = trim_start s.
Proof. apply trim_start_id, trim_start_head. Qed.

Lemma trim_end_empty s : trim_end s = "" <-> all_ws s = true.
Proof. destruct s as [|a s]; cbn [trim_end]; [done|]. by destruct (all_ws _). Qed.

Lemma all_ws_trim_start s : all_ws (trim_start s) = all_ws s.
Proof. unfold all_ws. by rewrite trim_start_idemp. Qed.

(** [s.trim().is_empty()] holds exactly of the strings of white space. *)
Lemma trim_empty s : trim s = "" <-> trim_start s = "".
Proof.
  unfold trim. rewrite trim_end_empty, all_ws_trim_start. unfold all_ws.
  by rewrite String.eqb_eq.
Qed.

Lemma trim_end_prefix s : exists r, s = trim_end s +:+ r /\ all_ws r = true.
Proof.
  induction s as [|a s (r&E&Hr)]; [by exists ""|]. cbn [trim_end].
  destruct (all_ws (String a s)) eqn:H; [by exists (String a s)|].
  exists r. by rewrite sapp_cons, <- E.
Qed.

Lemma ws_head_prefix s r : ws_head (s +:+ r) = false -> ws_head s = false.
Proof.
  destruct s as [|a [|b [|c s]]]; rewrite ?sapp_cons, ?sapp_nil_l; [done|..].
  - cbn. destruct (ws1 a); [|done]. by destruct r.
  - cbn. destruct (ws1 a), (ws2 a b); cbn; done.
  - done.
Qed.

Lemma trim_head s : ws_head (trim s) = false.
Proof.
  unfold trim. destruct (trim_end_prefix (trim_start s)) as (r&E&_).
  apply (ws_head_prefix _ r). rewrite <- E. apply trim_start_head.
Qed.

Lemma trim_start_app x r : trim_start x = "" -> trim_start (x +:+ r) = trim_start r.
Proof.
  induction x as [|a x IH IH2 IH3] using string_ind3; [done|].
  rewrite sapp_cons. cbn [trim_start]. destruct (ws1 a); [done|].
  destruct x as [|b x]; [done|]. rewrite sapp_cons. destruct (ws2 a b); [by eapply IH2|].
  destruct x as [|c x]; [done|]. rewrite sapp_cons. destruct (ws3 a b c); [by eapply IH3|done].
Qed.

Lemma trim_end_idemp s : trim_end (trim_end s) = trim_end s.
Proof.
  induction s as [|a s IH]; [done|]. cbn [trim_end].
  destruct (all_ws (String a s)) eqn:H; [done|]. cbn [trim_end].
  destruct (all_ws (String a (trim_end s))) eqn:H'; [|by rewrite IH].
  destruct (trim_end_prefix s) as (r&E&Hr). unfold all_ws in *.
  apply String.eqb_eq in H', Hr.
  pose proof (trim_start_app _ r H') as K. rewrite sapp_cons, <- E, Hr in K.
  by rewrite K in H.
Qed.

Lemma trim_idemp s : trim (trim s) = trim s.
Proof.
  unfold trim at 1. rewrite (trim_start_id (trim s)) by apply trim_head.
  unfold trim. apply trim_end_idemp.
Qed.

(** A string with no white-space byte at either end is not changed.  The
    tokens the code builds are of this form. *)
Definition plain_byte (c : ascii) : bool := in_range 33 126 c.

Lemma plain_not_ws a : plain_byte a = true -> ws1 a = false /\
  (forall b, ws2 a b = false) /\ (forall b c, ws3 a b c = false).
Proof.
  unfold plain_byte, ws1, ws2, ws3, in_range. intros H. reflect_bools.
  split_and!.
  - apply orb_false_iff. split; [apply andb_false_iff; lia|lia].
  - intros b. apply andb_false_iff. lia.
  - intros b c.
    assert (H225 : (byte_val a =? 225)%Z = false) by lia.
    assert (H226 : (byte_val a =? 226)%Z = false) by lia.
    assert (H227 : (byte_val a =? 227)%Z = false) by lia.
    by rewrite H225, H226, H227.
Qed.

Lemma all_ws_plain a s : plain_byte a = true -> all_ws (String a s) = false.
Proof.
  intros (H1&H2&H3)%plain_not_ws. unfold all_ws. cbn [trim_start]. rewrite H1.
  destruct s as [|b [|c s]]; rewrite ?H2, ?H3; done.
Qed.

Lemma trim_end_plain s : sall plain_byte s = true -> trim_end s = s.
Proof.
  induction s as [|a s IH]; [done|]. cbn [sall]. intros [Ha Hs]%andb_true_iff.
  cbn [trim_end]. rewrite all_ws_plain, IH; done.
Qed.

Lemma trim_plain s : sall plain_byte s = true -> trim s = s.
Proof.
  intros H. unfold trim. rewrite trim_start_id; [by apply trim_end_plain|].
  destruct s as [|a s]; [done|]. cbn [sall] in H. apply andb_true_iff in H as [Ha _].
  apply plain_not_ws in Ha as (H1&H2&H3). cbn. rewrite H1. cbn.
  destruct s as [|b [|c s]]; rewrite ?H2, ?H3; done.
Qed.

(** A string that starts with a plain byte does not trim to nothing. *)
Lemma trim_plain_head a s : plain_byte a = true -> trim (String a s) <> "".
Proof.
  intros H E. apply trim_empty in E. pose proof (all_ws_plain a s H) as K.
  unfold all_ws in K. by rewrite E in K.
Qed.

Lemma plain_not_cont a : plain_byte a = true -> is_cont a = false.
Proof. unfold plain_byte, is_cont, in_range. intros H. reflect_bools. apply andb_false_iff. lia. Qed.

Lemma ws2_cont a b : ws2 a b = true -> is_cont b = true.
Proof.
  unfold ws2, is_cont, in_range. intros H. reflect_bools.
  apply andb_true_iff. split; lia.
Qed.

Lemma ws3_cont a b c : ws3 a b c = true -> is_cont b = true /\ is_cont c = true.
Proof.
  unfold ws3, is_cont, in_range. intros H. rewrite !andb_true_iff, !Z.leb_le. lia.
Qed.

(** A plain byte anywhere keeps a string from being white space. *)
Lemma trim_plain_inside x a r : plain_byte a = true -> trim (x +:+ String a r) <> "".
Proof.
  intros Ha. rewrite trim_empty. pose proof (plain_not_cont _ Ha) as Hc.
  induction x as [|b x IH IH2 IH3] using string_ind3.
  { rewrite sapp_nil_l, <- trim_empty. by apply trim_plain_head. }
  rewrite sapp_cons. cbn [trim_start]. destruct (ws1 b); [done|].
  destruct x as [|c x]; rewrite ?sapp_nil_l, ?sapp_cons in *.
  - destruct (ws2 b a) eqn:E; [apply ws2_cont in E; congruence|].
    destruct r as [|d r]; [done|].
    destruct (ws3 b a d) eqn:E3; [apply ws3_cont in E3 as [? ?]; congruence|done].
  - destruct (ws2 b c); [by eapply IH2|].
    destruct x as [|d x]; rewrite ?sapp_nil_l, ?sapp_cons in *.
    + destruct (ws3 b c a) eqn:E3; [apply ws3_cont in E3 as [? ?]; congruence|done].
    + destruct (ws3 b c d); [by eapply IH3|done].
Qed.

(** ** Character boundaries *)

Lemma get_sdrop n s : String.get n s = String.get 0 (sdrop n s).
Proof. revert n. induction s as [|a s IH]; intros [|n]; cbn; [done..|apply IH]. Qed.

Lemma is_char_boundary_end s : is_char_boundary s (String.length s) = true.
Proof.
  unfold is_char_boundary. destruct (String.length s) as [|n] eqn:E; [done|].
  rewrite <- E, get_sdrop, sdrop_all by lia. cbn. apply Nat.eqb_refl.
Qed.

(** The boundary test on a string whose first byte is known. *)
Lemma is_char_boundary_S a s n :
  is_char_boundary (String a s) (S n) =
  match String.get n s with Some c => negb (is_cont c) | None => (n =? String.length s)%nat end.
Proof. done. Qed.

Lemma boundary_tail a s n :
  is_char_boundary (String a s) (S n) = true -> is_char_boundary s n = true.
Proof. rewrite is_char_boundary_S. destruct n; [done|]. done. Qed.

Lemma boundary_1 a b s : is_cont b = true ->
  is_char_boundary (String a (String b s)) 1 = false.
Proof. intros H. rewrite is_char_boundary_S. cbn. by rewrite H. Qed.

Lemma second_ok_cont a b : second_ok a b = true -> is_cont b = true.
Proof.
  unfold second_ok, is_cont, in_range. intros H. repeat split_match; reflect_bools;
    apply andb_true_iff; split; lia.
Qed.

(** Cutting well-formed UTF-8 at a character boundary leaves well-formed UTF-8:
    why [String::drain] and slicing do not break the invariant of [str]. *)
Lemma utf8_sdrop n s : utf8 s = true -> is_char_boundary s n = true -> utf8 (sdrop n s) = true.
Proof.
  revert n. induction s as [s IH] using (induction_ltof1 _ String.length); unfold ltof in IH.
  intros n H B. destruct n as [|n]; [by destruct s|]. destruct s as [|a s1]; [done|].
  pose proof (boundary_tail _ _ _ B) as B1. cbn [sdrop]. cbn [utf8] in H.
  destruct (in_range 0 127 a) eqn:Ea; [apply IH; cbn; [lia|done|done]|].
  destruct s1 as [|b s2]; [done|].
  assert (Hb : is_cont b = true).
  { destruct (in_range 194 223 a); [by apply andb_true_iff in H as []|].
    destruct s2 as [|c s3]; [done|]. apply (second_ok_cont a).
    destruct (in_range 224 239 a); [by reflect_bools|].
    destruct s3; [done|by reflect_bools]. }
  destruct n as [|n]; [by rewrite boundary_1 in B|].
  pose proof (boundary_tail _ _ _ B1) as B2. cbn [sdrop].
  destruct (in_range 194 223 a).
  { apply andb_true_iff in H as []. apply IH; cbn; [lia|done|done]. }
  destruct s2 as [|c s3]; [done|].
  assert (Hc : is_cont c = true).
  { destruct (in_range 224 239 a); [by reflect_bools|]. destruct s3; [done|by reflect_bools]. }
  destruct n as [|n]; [by rewrite boundary_1 in B1|].
  pose proof (boundary_tail _ _ _ B2) as B3. cbn [sdrop].
  destruct (in_range 224 239 a).
  { reflect_bools. apply IH; cbn; [lia|done|done]. }
  destruct s3 as [|d s4]; [done|].
  destruct n as [|n]; [reflect_bools; by rewrite boundary_1 in B2|].
  pose proof (boundary_tail _ _ _ B3). cbn [sdrop]. reflect_bools.
  apply IH; cbn; [lia|done|done].
Qed.

Lemma utf8_app s t : utf8 s = true -> utf8 t = true -> utf8 (s +:+ t) = true.
Proof.
  induction s as [s IH] using (induction_ltof1 _ String.length); unfold ltof in IH.
  intros H Ht. destruct s as [|a s1]; [done|]. rewrite sapp_cons. cbn [utf8] in *.
  destruct (in_range 0 127 a); [apply IH; cbn; [lia|done|done]|].
  destruct s1 as [|b s2]; [done|]. rewrite sapp_cons.
  destruct (in_range 194 223 a).
  { reflect_bools. apply andb_true_iff; split; [done|]. apply IH; cbn; [lia|done|done]. }
  destruct s2 as [|c s3]; [done|]. rewrite sapp_cons.
  destruct (in_range 224 239 a).
  { reflect_bools. rewrite !andb_true_iff; split_and!; [done..|]. apply IH; cbn; [lia|done|done]. }
  destruct s3 as [|d s4]; [done|]. rewrite sapp_cons.
  reflect_bools. rewrite !andb_true_iff; split_and!; [done..|]. apply IH; cbn; [lia|done|done].
Qed.

Lemma utf8_head_not_cont a s : utf8 (String a s) = true -> is_cont a = false.
Proof.
  intros H. destruct (is_cont a) eqn:E; [|done]. exfalso.
  unfold is_cont, in_range in E. reflect_bools. cbn [utf8] in H.
  assert (in_range 0 127 a = false) as R0 by (apply andb_false_iff; lia).
  assert (in_range 194 223 a = false) as R1 by (apply andb_false_iff; lia).
  assert (in_range 224 239 a = false) as R2 by (apply andb_false_iff; lia).
  assert (in_range 240 244 a = false) as R3 by (apply andb_false_iff; lia).
  rewrite R0, R1, R2, R3 in H. by destruct s as [|? [|? [|? ?]]].
Qed.

Lemma boundary_cons a s n :
  utf8 s = true \/ (0 < n)%nat ->
  is_char_boundary s n = true -> is_char_boundary (String a s) (S n) = true.
Proof.
  rewrite is_char_boundary_S. destruct n as [|n]; [|done]. intros [H|]; [|lia].
  intros _. destruct s as [|b s]; [done|]. cbn. by rewrite (utf8_head_not_cont _ _ H).
Qed.

(** From any byte of well-formed UTF-8 a character boundary is at most three
    bytes away. *)
Lemma utf8_boundary_near s n : utf8 s = true -> (n <= String.length s)%nat ->
  exists k, (k <= 3)%nat /\ is_char_boundary s (n + k) = true.
Proof.
  revert n. induction s as [s IH] using (induction_ltof1 _ String.length); unfold ltof in IH.
  intros n H L. destruct n as [|n]; [exists 0%nat; split; [lia|done]|].
  destruct s as [|a s1]; [cbn in L; lia|]. cbn [utf8 String.length] in *.
  destruct (in_range 0 127 a).
  { destruct (IH s1 ltac:(lia) n H ltac:(lia)) as (k&?&?). exists k. split; [done|].
    apply boundary_cons; auto. }
  destruct s1 as [|b s2]; [done|]. cbn [String.length] in *.
  destruct (in_range 194 223 a).
  { apply andb_true_iff in H as [_ H]. destruct n as [|n].
    - exists 1%nat. split; [lia|]. do 2 (apply boundary_cons; auto with lia).
    - destruct (IH s2 ltac:(lia) n H ltac:(lia)) as (k&?&?). exists k. split; [done|].
      do 2 (apply boundary_cons; auto with lia). }
  destruct s2 as [|c s3]; [done|]. cbn [String.length] in *.
  destruct (in_range 224 239 a).
  { apply andb_true_iff in H as [_ H]. destruct n as [|[|n]].
    - exists 2%nat. split; [lia|]. do 3 (apply boundary_cons; auto with lia).
    - exists 1%nat. split; [lia|]. do 3 (apply boundary_cons; auto with lia).
    - destruct (IH s3 ltac:(lia) n H ltac:(lia)) as (k&?&?). exists k. split; [done|].
      do 3 (apply boundary_cons; auto with lia). }
  destruct s3 as [|d s4]; [done|]. cbn [String.length] in *.
  apply andb_true_iff in H as [_ H]. destruct n as [|[|[|n]]].
  - exists 3%nat. split; [lia|]. do 4 (apply boundary_cons; auto with lia).
  - exists 2%nat. split; [lia|]. do 4 (apply boundary_cons; auto with lia).
  - exists 1%nat. split; [lia|]. do 4 (apply boundary_cons; auto with lia).
  - destruct (IH s4 ltac:(lia) n H ltac:(lia)) as (k&?&?). exists k. split; [done|].
    do 4 (apply boundary_cons; auto with lia).
Qed.

(** ** Integers *)

Lemma pretty_N_char_val x : (x < 10)%N -> digit_val (pretty_N_char x) = Some (Z.of_N x).
Proof.
  intros H.
  assert (x = 0 \/ x = 1 \/ x = 2 \/ x = 3 \/ x = 4 \/ x = 5 \/ x = 6 \/ x = 7 \/ x = 8 \/ x = 9)%N
    as E by lia.
  destruct_or! E; by subst.
Qed.

Lemma parse_digits_pretty max x s :
  (Z.of_N x <= max)%Z ->
  parse_digits max 0 (pretty_N_go x s) = parse_digits max (Z.of_N x) s.
Proof.
  revert s. induction x as [x IH] using (well_founded_induction N.lt_wf_0). intros s Hx.
  destruct (decide (x = 0%N)) as [->|Hne]; [by rewrite pretty_N_go_0|].
  rewrite pretty_N_go_step by lia.
  pose proof (N.div_mod x 10 ltac:(lia)) as D.
  pose proof (N.mod_lt x 10 ltac:(lia)) as M.
  set (q := (x / 10)%N) in *. set (r := (x mod 10)%N) in *. clearbody q r.
  rewrite IH by lia.
  cbn [parse_digits]. rewrite pretty_N_char_val by done.
  replace (Z.of_N q * 10 + Z.of_N r)%Z with (Z.of_N x) by lia.
  destruct (Z.leb_spec (Z.of_N x) max); [done|lia].
Qed.

Definition is_digit (c : ascii) : bool := in_range 48 57 c.

Lemma pretty_N_char_digit x : (x < 10)%N -> is_digit (pretty_N_char x) = true.
Proof.
  intros H%pretty_N_char_val. unfold digit_val, is_digit in *. by destruct (in_range _ _ _).
Qed.

Lemma pretty_N_go_digits x s : sall is_digit s = true -> sall is_digit (pretty_N_go x s) = true.
Proof.
  revert s. induction x as [x IH] using (well_founded_induction N.lt_wf_0). intros s Hs.
  destruct (decide (x = 0%N)) as [->|Hne]; [by rewrite pretty_N_go_0|].
  rewrite pretty_N_go_step by lia. apply IH; [apply N.div_lt; lia|].
  cbn [sall]. rewrite pretty_N_char_digit by (apply N.mod_lt; lia). done.
Qed.

Lemma pretty_N_go_nonempty x s : s <> "" -> pretty_N_go x s <> "".
Proof.
  revert s. induction x as [x IH] using (well_founded_induction N.lt_wf_0). intros s Hs.
  destruct (decide (x = 0%N)) as [->|Hne]; [by rewrite pretty_N_go_0|].
  rewrite pretty_N_go_step by lia. apply IH; [apply N.div_lt; lia|done].
Qed.

Lemma dec_unfold n : dec n = if decide (Z.to_N n = 0%N) then "0" else pretty_N_go (Z.to_N n) "".
Proof. done. Qed.

Lemma dec_digits n : sall is_digit (dec n) = true.
Proof. rewrite dec_unfold. case_decide; [done|]. by apply pretty_N_go_digits. Qed.

Lemma dec_nonempty n : dec n <> "".
Proof.
  rewrite dec_unfold. case_decide; [done|]. rewrite pretty_N_go_step by lia.
  by apply pretty_N_go_nonempty.
Qed.

Lemma dec_inj n m : (0 <= n)%Z -> (0 <= m)%Z -> dec n = dec m -> n = m.
Proof. unfold dec. intros ?? H%(inj pretty). lia. Qed.

(** The number [{}] prints is the number [str::parse] reads back. *)
Lemma parse_unsigned_dec max n : (0 <= n <= max)%Z -> parse_unsigned max (dec n) = Some n.
Proof.
  intros Hn. assert (K : parse_digits max 0 (dec n) = Some n).
  { rewrite dec_unfold. case_decide as E.
    - replace n with 0%Z by lia. unfold parse_digits.
      replace (digit_val _) with (Some 0%Z) by done.
      rewrite (proj2 (Z.leb_le _ _)); [done|lia].
    - rewrite parse_digits_pretty by lia. cbn. f_equal. lia. }
  pose proof (dec_digits n) as D. pose proof (dec_nonempty n) as NE. revert K D NE.
  generalize (dec n) as s. intros [|c s] K D NE; [done|]. cbn [parse_unsigned].
  destruct s as [|b s]; [done|].
  destruct (byte_eqb_spec c "+"); [subst; discriminate D|exact K].
Qed.

Lemma digit_plain c : is_digit c = true -> plain_byte c = true.
Proof. unfold is_digit, plain_byte, in_range. intros H. reflect_bools. apply andb_true_iff. lia. Qed.

Lemma sall_impl (p q : ascii -> bool) s :
  (forall c, p c = true -> q c = true) -> sall p s = true -> sall q s = true.
Proof. intros H. induction s as [|a s IH]; [done|]. cbn. intros []%andb_true_iff. by rewrite H, IH. Qed.

(** A lower-case hexadecimal digit: [b'0'..=b'9' | b'a'..=b'f']. *)
Definition is_hex_digit (c : ascii) : bool := in_range 48 57 c || in_range 97 102 c.

Lemma hex_inj n m : hex n = hex m -> n = m.
Proof.
  unfold hex. intros H. apply (f_equal NilZero.uint_of_string) in H.
  rewrite !NilZero.usu in H; [|intros E..].
  - injection H as H. apply (f_equal N.of_hex_uint) in H. by rewrite !Unsigned.of_to in H.
  - destruct m as [|p]; [done|]. apply (f_equal N.of_hex_uint) in E.
    by rewrite Unsigned.of_to in E.
  - destruct n as [|p]; [done|]. apply (f_equal N.of_hex_uint) in E.
    by rewrite Unsigned.of_to in E.
Qed.

Lemma string_of_uint_hex d : sall is_hex_digit (NilEmpty.string_of_uint d) = true.
Proof. induction d; cbn; done. Qed.

Lemma hex_digits n : sall is_hex_digit (hex n) = true.
Proof.
  unfold hex, NilZero.string_of_uint. destruct (N.to_hex_uint n) eqn:E; [done|..];
    rewrite <- E; apply string_of_uint_hex.
Qed.

Lemma hex_nonempty n : hex n <> "".
Proof. unfold hex, NilZero.string_of_uint. by destruct (N.to_hex_uint n). Qed.

Lemma hex_digit_plain c : is_hex_digit c = true -> plain_byte c = true.
Proof.
  unfold is_hex_digit, plain_byte, in_range. intros H. apply orb_true_iff in H as [H|H];
    reflect_bools; apply andb_true_iff; lia.
Qed.

(** ** Suffixes, replacement, searching *)

(** [str::strip_suffix] with a string pattern *)
Fixpoint strip_suffix (p s : string) : option string :=
  if s =s? p then Some ""
  else match s with EmptyString => None | String a s' => String a <$> strip_suffix p s' end.

(** [str::ends_with] *)
Definition ends_with (p s : string) : bool :=
  match strip_suffix p s with Some _ => true | None => false end.

(** [str::contains] with a [char] predicate *)
Fixpoint sany (p : ascii -> bool) (s : string) : bool :=
  match s with EmptyString => false | String a s' => p a || sany p s' end.

(** [str::contains] with an ASCII [char] *)
Definition contains_byte (c : ascii) (s : string) : bool := sany (byte_eqb c) s.

(** [str::contains] with a string pattern *)
Definition contains_str (p s : string) : bool :=
  match split_once p s with Some _ => true | None => false end.

(** [str::replace] with a non-empty pattern; [skip] bytes belong to the last
    match. *)
Fixpoint replace_from (from to : string) (skip : nat) (s : string) : string :=
  match s with
  | EmptyString => ""
  | String a s' =>
      match skip with
      | S k => replace_from from to k s'
      | O => if starts_with from s then to +:+ replace_from from to (String.length from - 1) s'
             else String a (replace_from from to 0 s')
      end
  end.
Definition replace (from to s : string) : string := replace_from from to 0 s.

(** [chars().count()] *)
Fixpoint char_count (s : string) : nat :=
  match s with EmptyString => 0%nat | String a s' => if is_cont a then char_count s' else S (char_count s') end.

(** The byte offset of the [n]th character, or the length. *)
Fixpoint char_offset (n : nat) (s : string) : nat :=
  match s with
  | EmptyString => 0
  | String a s' =>
      if is_cont a then S (char_offset n s')
      else match n with O => 0 | S n => S (char_offset n s') end
  end.

(** [str::trim_end_matches] with an ASCII [char] pattern *)
Fixpoint trim_end_matches (c : ascii) (s : string) : string :=
  match s with
  | EmptyString => ""
  | String a s' => if sall (byte_eqb c) s then "" else String a (trim_end_matches c s')
  end.

(** [rsplit(['/', '\\']).next()]: what follows the last separator. *)
Definition is_sep (a : ascii) : bool := byte_eqb a "/" || byte_eqb a "\".
Fixpoint basename (s : string) : string :=
  match s with
  | EmptyString => ""
  | String a s' => if sany is_sep s' then basename s' else if is_sep a then s' else s
  end.

Lemma strip_suffix_some p s r : strip_suffix p s = Some r <-> s = r +:+ p.
Proof.
  revert r. induction s as [|a s IH]; intros r; cbn [strip_suffix].
  - destruct (String.eqb_spec "" p) as [<-|N].
    + split; [intros [= <-]; done|]. intros H. symmetry in H. by apply sapp_empty in H as [-> _].
    + split; [done|]. intros H. symmetry in H. apply sapp_empty in H as [_ ->]. done.
  - destruct (String.eqb_spec (String a s) p) as [<-|N].
    + split; [intros [= <-]; done|]. intros H. f_equal. symmetry.
      apply (sapp_inj_l (String a s)). by rewrite sapp_nil_l.
    + rewrite fmap_Some. split.
      * intros (r'&Hr&->). apply IH in Hr as ->. by rewrite sapp_cons.
      * destruct r as [|b r]; [by rewrite sapp_nil_l|]. rewrite sapp_cons. intros [= -> ->].
        exists r. split; [by apply IH|done].
Qed.

Lemma ends_with_app p s : ends_with p (s +:+ p) = true.
Proof. unfold ends_with. by rewrite (proj2 (strip_suffix_some p (s +:+ p) s) eq_refl). Qed.

Lemma starts_with_app p s : starts_with p (p +:+ s) = true.
Proof. unfold starts_with. by rewrite strip_prefix_app. Qed.

Lemma starts_with_iff p s : starts_with p s = true <-> exists r, s = p +:+ r.
Proof.
  unfold starts_with. destruct (strip_prefix p s) as [r|] eqn:E.
  - apply strip_prefix_some in E as ->. split; [by exists r|done].
  - split; [done|]. intros (r&->). by rewrite strip_prefix_app in E.
Qed.

Lemma trim_end_last s a : plain_byte a = true -> trim_end (s +:+ String a "") = s +:+ String a "".
Proof.
  intros Ha. induction s as [|b s IH]; [rewrite sapp_nil_l; apply trim_end_plain; cbn; by rewrite Ha|].
  rewrite sapp_cons. cbn [trim_end]. destruct (all_ws _) eqn:E; [exfalso|by rewrite IH].
  rewrite <- sapp_cons in E. unfold all_ws in E. apply String.eqb_eq, trim_empty in E.
  by apply (trim_plain_inside (String b s) a "" Ha) in E.
Qed.

Lemma plain_head_not_ws a s : plain_byte a = true -> ws_head (String a s) = false.
Proof.
  intros (H1&H2&H3)%plain_not_ws. unfold ws_head. rewrite H1. cbn.
  destruct s as [|b [|c s]]; rewrite ?H2, ?H3; done.
Qed.

(** Text between two plain bytes has nothing to trim. *)
Lemma trim_between a s b : plain_byte a = true -> plain_byte b = true ->
  trim (String a s +:+ String b "") = String a s +:+ String b "".
Proof.
  intros Ha Hb. unfold trim. rewrite trim_start_id; [by apply trim_end_last|].
  rewrite sapp_cons. by apply plain_head_not_ws.
Qed.

Lemma get_app_l i s t : (i < String.length s)%nat -> String.get i (s +:+ t) = String.get i s.
Proof.
  revert i. induction s as [|a s IH]; intros [|i]; cbn [String.length]; rewrite ?sapp_cons; cbn; try lia; [done|].
  intros. apply IH. lia.
Qed.

Lemma get_app_r s t : String.get (String.length s) (s +:+ t) = String.get 0 t.
Proof. induction s as [|a s IH]; [done|]. rewrite sapp_cons. exact IH. Qed.

Lemma sall_get p s i c : sall p s = true -> String.get i s = Some c -> p c = true.
Proof.
  revert i. induction s as [|a s IH]; intros i; [by destruct i|]. cbn [sall]. intros [Ha Hs]%andb_true_iff.
  destruct i as [|i]; cbn; [by intros [= <-]|by apply IH].
Qed.

(** [String::from_utf8_lossy]: each maximal part of a sequence that is not
    well formed becomes one replacement character. *)
Definition REPLACEMENT : string := String "239" (String "191" (String "189" "")).

Fixpoint from_utf8_lossy (s : string) : string :=
  match s with
  | EmptyString => ""
  | String a s1 =>
      if in_range 0 127 a then String a (from_utf8_lossy s1)
      else if in_range 194 223 a then
        match s1 with
        | String b s2 => if is_cont b then String a (String b (from_utf8_lossy s2))
                         else REPLACEMENT +:+ from_utf8_lossy s1
        | EmptyString => REPLACEMENT
        end
      else if in_range 224 239 a || in_range 240 244 a then
        match s1 with
        | EmptyString => REPLACEMENT
        | String b s2 =>
            if negb (second_ok a b) then REPLACEMENT +:+ from_utf8_lossy s1
            else match s2 with
            | EmptyString => REPLACEMENT
            | String c s3 =>
                if negb (is_cont c) then REPLACEMENT +:+ from_utf8_lossy s2
                else if in_range 224 239 a then String a (String b (String c (from_utf8_lossy s3)))
                else match s3 with
                | EmptyString => REPLACEMENT
                | String d s4 =>
                    if negb (is_cont d) then REPLACEMENT +:+ from_utf8_lossy s3
                    else String a (String b (String c (String d (from_utf8_lossy s4))))
                end
            end
        end
      else REPLACEMENT +:+ from_utf8_lossy s1
  end.

Lemma lossy_valid s : utf8 s = true -> from_utf8_lossy s = s.
Proof.
  induction s as [s IH] using (well_founded_induction (Wf_nat.well_founded_ltof _ String.length)). unfold Wf_nat.ltof in IH.
  intros H. destruct s as [|a s]; [done|]. cbn [utf8] in H. cbn [from_utf8_lossy].
  destruct (in_range 0 127 a). { f_equal. apply IH; [cbn; lia|done]. }
  destruct s as [|b s]; [done|]. destruct (in_range 194 223 a).
  { apply andb_true_iff in H as [-> H]. do 2 f_equal. apply IH; [cbn; lia|done]. }
  destruct s as [|c s]; [done|]. destruct (in_range 224 239 a).
  { rewrite !andb_true_iff in H. destruct H as [[-> ->] H]. cbn. do 3 f_equal. apply IH; [cbn; lia|done]. }
  destruct s as [|d s]; [done|]. rewrite !andb_true_iff in H. destruct H as [[[[-> ->] ->] ->] H]. cbn. do 4 f_equal.
  apply IH; [cbn; lia|done].
Qed.
