(* ===== verification/TextSearch.v ===== *)
(** * Searching, replacing and cutting text

    What the components that clean text need beyond [RustStr]: the last
    occurrence of a pattern, and facts on [str::contains], [str::replace] and
    cuts at character boundaries. *)

From S2P Require Import Prelude RustStr.

Open Scope Z_scope.

(** [str::rfind]: the text before and after the last occurrence of a pattern
    that is not empty. *)
Fixpoint rsplit_once (p s : string) : option (string * string) :=
  match s with
  | EmptyString => None
  | String c s' =>
      match rsplit_once p s' with
      | Some (l, r) => Some (String c l, r)
      | None => match strip_prefix p s with Some r => Some ("", r) | None => None end
      end
  end.

(** [str::trim_start_matches] with a set of ASCII characters *)
Fixpoint trim_start_set (p : ascii -> bool) (s : string) : string :=
  match s with EmptyString => "" | String a s' => if p a then trim_start_set p s' else s end.

(** [str::matches(p).count()]; [skip] bytes belong to the last match. *)
Fixpoint matches_from (p : string) (skip : nat) (s : string) : nat :=
  match s with
  | EmptyString => 0
  | String _ s' =>
      match skip with
      | S k => matches_from p k s'
      | O => if starts_with p s then S (matches_from p (String.length p - 1) s') else matches_from p 0 s'
      end
  end.
Definition matches_count (p s : string) : nat := matches_from p 0 s.

(** ** Occurrences *)

Definition occurs (p s : string) : Prop := exists l r, s = l +:+ p +:+ r.

Lemma sapp_split l1 r1 l2 r2 : l1 +:+ r1 = l2 +:+ r2 ->
  (exists m, l2 = l1 +:+ m /\ r1 = m +:+ r2) \/ (exists m, l1 = l2 +:+ m /\ r2 = m +:+ r1).
Proof.
  revert l2. induction l1 as [|a l1 IH]; intros l2; [intros E; left; by exists l2|].
  destruct l2 as [|b l2]; [intros E; right; by exists (String a l1)|]. rewrite !sapp_cons. intros [= -> E].
  destruct (IH l2 E) as [(m & -> & ->)|(m & -> & ->)]; [left|right]; by exists m.
Qed.

Lemma split_once_unfold p s :
  split_once p s =
  match strip_prefix p s with
  | Some rest => Some ("", rest)
  | None => match s with
            | EmptyString => None
            | String c s' => match split_once p s' with Some (l, r) => Some (String c l, r) | None => None end
            end
  end.
Proof. by destruct s. Qed.

Lemma split_once_none p s : split_once p s = None <-> ~ occurs p s.
Proof.
  split.
  - intros H (l & r & ->). induction l as [|a l IH]; rewrite split_once_unfold in H.
    + by rewrite sapp_nil_l, strip_prefix_app in H.
    + destruct (strip_prefix p _); [done|]. rewrite sapp_cons in H.
      destruct (split_once p (l +:+ p +:+ r)) as [[]|]; [done|]. by apply IH.
  - intros H. destruct (split_once p s) as [[l r]|] eqn:E; [|done]. exfalso. apply H. exists l, r. by apply split_once_some in E.
Qed.

Lemma contains_str_iff p s : contains_str p s = true <-> occurs p s.
Proof.
  unfold contains_str. destruct (split_once p s) as [[l r]|] eqn:E.
  - split; [|done]. intros _. exists l, r. by apply split_once_some in E.
  - split; [done|]. intros H. exfalso. revert H. by apply split_once_none.
Qed.

Lemma contains_str_false p s : contains_str p s = false <-> ~ occurs p s.
Proof. rewrite <- contains_str_iff. by destruct (contains_str p s). Qed.

Lemma occurs_mid p l s r : occurs p s -> occurs p (l +:+ s +:+ r).
Proof. intros (l' & r' & ->). exists (l +:+ l'), (r' +:+ r). by rewrite !sapp_assoc. Qed.

Lemma occurs_app_l p l s : occurs p s -> occurs p (l +:+ s).
Proof. intros H. pose proof (occurs_mid p l s "" H) as H'. by rewrite sapp_nil_r in H'. Qed.

Lemma occurs_app_r p s r : occurs p s -> occurs p (s +:+ r).
Proof. apply (occurs_mid p ""). Qed.

Lemma occurs_cons p a s : occurs p s -> occurs p (String a s).
Proof. apply (occurs_app_l p (String a "")). Qed.

Lemma occurs_cons_inv p a s : occurs p (String a s) -> starts_with p (String a s) = true \/ occurs p s.
Proof.
  intros ([|b l] & r & E); [rewrite sapp_nil_l in E; left; rewrite E; apply starts_with_app|]. rewrite sapp_cons in E. injection E as _ ->. right. by exists l, r.
Qed.

Lemma starts_with_occurs p s : starts_with p s = true -> occurs p s.
Proof. intros (r & ->)%starts_with_iff. by exists "", r. Qed.

Lemma occurs_length p s : occurs p s -> (String.length p <= String.length s)%nat.
Proof. intros (l & r & ->). rewrite !length_sapp. lia. Qed.

(** ** [str::replace] *)

Lemma replace_from_skip from to k s : replace_from from to k s = replace from to (sdrop k s).
Proof. revert k. induction s as [|a s IH]; intros [|k]; cbn; [done..|apply IH]. Qed.

Section replace.
Variables (c : ascii) (f to : string).
#[local] Abbreviation from := (String c f).

Lemma replace_match r : replace from to (from +:+ r) = to +:+ replace from to r.
Proof.
  rewrite sapp_cons. unfold replace at 1. cbn [replace_from]. rewrite <- sapp_cons, starts_with_app, replace_from_skip.
  cbn [String.length]. rewrite Nat.sub_succ, Nat.sub_0_r. by rewrite sdrop_app.
Qed.

Lemma replace_step a s : starts_with from (String a s) = false -> replace from to (String a s) = String a (replace from to s).
Proof. intros H. unfold replace. cbn [replace_from]. by rewrite H. Qed.

(** Induction along the matches. *)
Lemma replace_ind (P : string -> string -> Prop) :
  P "" "" ->
  (forall r, P r (replace from to r) -> P (from +:+ r) (to +:+ replace from to r)) ->
  (forall a r, starts_with from (String a r) = false -> P r (replace from to r) -> P (String a r) (String a (replace from to r))) ->
  forall s, P s (replace from to s).
Proof.
  intros H0 Hm Hs s. induction s as [s IH] using (induction_ltof1 _ String.length). unfold ltof in IH.
  destruct s as [|a s]; [done|]. destruct (starts_with from (String a s)) eqn:E.
  - apply starts_with_iff in E as (r & E). rewrite E, replace_match. apply Hm, IH. rewrite E, length_sapp. cbn. lia.
  - rewrite replace_step by done. apply Hs; [done|]. apply IH. cbn. lia.
Qed.

Lemma replace_id s : contains_str from s = false -> replace from to s = s.
Proof.
  rewrite contains_str_false. apply (replace_ind (fun s out => ~ occurs from s -> out = s)).
  - done.
  - intros r _ H. exfalso. apply H. by exists "", r.
  - intros a r _ IH H. f_equal. apply IH. intros Ho. by apply H, occurs_cons.
Qed.

Lemma replace_length s : (String.length to <= String.length from)%nat -> (String.length (replace from to s) <= String.length s)%nat.
Proof.
  intros H. apply (replace_ind (fun s out => (String.length out <= String.length s)%nat)); [done| |]; intros; rewrite ?length_sapp; cbn in *; lia.
Qed.

Lemma replace_shrinks s : (String.length to < String.length from)%nat -> occurs from s -> (String.length (replace from to s) < String.length s)%nat.
Proof.
  intros H. apply (replace_ind (fun s out => occurs from s -> (String.length out < String.length s)%nat)).
  - intros Ho%occurs_length. cbn in Ho. lia.
  - intros r _ _. pose proof (replace_length r). rewrite !length_sapp. lia.
  - intros a r Hn IH [Ho|Ho]%occurs_cons_inv; [by rewrite Hn in Ho|]. specialize (IH Ho). cbn. lia.
Qed.
End replace.

(** [u] uses none of the bytes of [sep]. *)
Definition apart (sep u : string) : Prop := sall (fun b => negb (contains_byte b sep)) u = true.

Lemma contains_byte_app b s t : contains_byte b (s +:+ t) = contains_byte b s || contains_byte b t.
Proof. unfold contains_byte. induction s as [|a s IH]; [done|]. rewrite sapp_cons. cbn. by rewrite IH, orb_assoc. Qed.

Lemma apart_app sep u v : apart sep (u +:+ v) <-> apart sep u /\ apart sep v.
Proof. unfold apart. by rewrite sall_app, andb_true_iff. Qed.

(** A text without the bytes of [sep] that is a prefix of, or occurs in, a text
    that goes on with [sep] ends before it. *)
Lemma apart_prefix sep u x y r : sep <> "" -> apart sep u -> u +:+ r = x +:+ sep +:+ y -> exists m, x = u +:+ m.
Proof.
  intros Hne Hu E. destruct (sapp_split _ _ _ _ E) as [(m & -> & _)|(m & -> & E')]; [by exists m|].
  destruct m as [|b m]; [rewrite sapp_nil_r; by exists ""; rewrite sapp_nil_r|]. exfalso.
  apply apart_app in Hu as [_ Hm]. destruct sep as [|c sep]; [done|]. rewrite !sapp_cons in E'. injection E' as -> _.
  unfold apart in Hm. cbn in Hm. by rewrite byte_eqb_refl in Hm.
Qed.

Lemma apart_position sep u x y l r : sep <> "" -> u <> "" -> apart sep u -> l +:+ u +:+ r = x +:+ sep +:+ y ->
  occurs u x \/ exists m, l = x +:+ sep +:+ m /\ y = m +:+ u +:+ r.
Proof.
  intros Hne Hun Hu E.
  destruct (sapp_split l (u +:+ r) (x +:+ sep) y) as [(m & El & Er)|(m & -> & ->)];
    [by rewrite sapp_assoc| |right; exists m; by rewrite sapp_assoc].
  destruct (sapp_split _ _ _ _ El) as [(k & -> & ->)|(k & -> & ->)].
  - right. destruct m as [|b m]; [exists ""; by rewrite !sapp_nil_r|]. exfalso. destruct u as [|a u]; [done|].
    rewrite !sapp_cons in Er. injection Er as -> _. unfold apart in Hu. cbn in Hu.
    rewrite contains_byte_app in Hu. unfold contains_byte at 2 in Hu. cbn in Hu. rewrite byte_eqb_refl, orb_true_r in Hu. done.
  - left. rewrite sapp_assoc in Er. destruct (apart_prefix sep u k y r Hne Hu Er) as (j & ->). by exists l, j.
Qed.

Lemma apart_occurs sep u x y : sep <> "" -> u <> "" -> apart sep u -> occurs u (x +:+ sep +:+ y) -> occurs u x \/ occurs u y.
Proof.
  intros Hne Hun Hu (l & r & E). symmetry in E.
  destruct (apart_position sep u x y l r Hne Hun Hu E) as [|(m & _ & ->)]; [by left|right; by exists m, r].
Qed.

(** ** Replacements that only separate *)

(** [out] has no text without separator bytes that [s] does not have. *)
Definition separates (sep s out : string) : Prop :=
  forall u, apart sep u -> (starts_with u out = true -> starts_with u s = true) /\ (u <> "" -> occurs u out -> occurs u s).

Lemma separates_app sep y s out : separates sep s out -> separates sep (y +:+ s) (y +:+ out).
Proof.
  intros H. induction y as [|a y IH]; [by rewrite !sapp_nil_l|]. rewrite !sapp_cons. intros u Hu.
  assert (Hp : starts_with u (String a (y +:+ out)) = true -> starts_with u (String a (y +:+ s)) = true).
  { destruct u as [|b u]; [done|]. unfold apart in Hu. cbn in Hu. apply andb_true_iff in Hu as [_ Hu].
    unfold starts_with. cbn [strip_prefix]. destruct (byte_eqb b a); [|done]. by apply (IH u). }
  split; [done|]. intros Hne [Ho|Ho]%occurs_cons_inv; [by apply starts_with_occurs, Hp|]. by apply occurs_cons, (IH u).
Qed.

Lemma replace_separates c f x sep y mid s : sep <> "" -> String c f = x +:+ mid +:+ y ->
  separates sep s (replace (String c f) (x +:+ sep +:+ y) s).
Proof.
  intros Hne Ef. apply (replace_ind c f (x +:+ sep +:+ y) (separates sep)).
  - done.
  - intros r IH u Hu. set (R := replace _ _ _) in *. rewrite Ef, !sapp_assoc. split.
    + intros (k & E)%starts_with_iff. symmetry in E. destruct (apart_prefix sep u x (y +:+ R) k Hne Hu E) as (m & ->).
      rewrite sapp_assoc. apply starts_with_app.
    + intros Hun [Ho|Ho]%apart_occurs; try done; [by apply occurs_app_r|].
      apply occurs_app_l, occurs_app_l. by apply (separates_app sep y _ _ IH u).
  - intros a r _ IH. by apply (separates_app sep (String a "")).
Qed.

Lemma occurs_byte_free c f y s : contains_byte c y = false -> occurs (String c f) (y +:+ s) -> occurs (String c f) s.
Proof.
  induction y as [|a y IH]; [done|]. unfold contains_byte. cbn. rewrite orb_false_iff. intros [Ha Hy]. rewrite sapp_cons.
  intros [Ho|Ho]%occurs_cons_inv; [|by apply IH]. unfold starts_with in Ho. cbn in Ho. by rewrite Ha in Ho.
Qed.

(** Splitting every match leaves none. *)
Lemma replace_removes c f x sep y s : sep <> "" -> x <> "" -> y <> "" -> String c f = x +:+ y ->
  apart sep (String c f) -> contains_byte c y = false ->
  ~ occurs (String c f) (replace (String c f) (x +:+ sep +:+ y) s).
Proof.
  intros Hne Hx Hy Ef Ha Hc.
  apply (replace_ind c f (x +:+ sep +:+ y) (fun _ out => ~ occurs (String c f) out)).
  - intros H%occurs_length. cbn in H. lia.
  - intros r IH Ho. rewrite !sapp_assoc in Ho. apply apart_occurs in Ho as [Ho|Ho]; try done.
    + apply occurs_length in Ho. rewrite Ef, length_sapp in Ho. destruct y; [done|cbn in Ho; lia].
    + by apply IH, (occurs_byte_free _ _ y).
  - intros a r Hn IH [Ho|Ho]%occurs_cons_inv; [|done].
    pose proof (replace_separates c f x sep y "" r Hne) as Hs. specialize (Hs Ef).
    apply (separates_app sep (String a "")) in Hs. destruct (Hs _ Ha) as [Hp _]. rewrite !sapp_cons, !sapp_nil_l in Hp.
    rewrite Hp in Hn; done.
Qed.

(** ** [str::trim] *)

Lemma trim_start_suffix s : exists l, s = l +:+ trim_start s.
Proof.
  induction s as [|a s IH IH2 IH3] using string_ind3; [by exists ""|]. cbn [trim_start].
  destruct (ws1 a); [destruct IH as (l & E); exists (String a l); by rewrite sapp_cons, <- E|].
  destruct s as [|b s]; [by exists ""|].
  destruct (ws2 a b); [destruct (IH2 b s eq_refl) as (l & E); exists (String a (String b l)); by rewrite !sapp_cons, <- E|].
  destruct s as [|c s]; [by exists ""|].
  destruct (ws3 a b c); [|by exists ""]. destruct (IH3 b c s eq_refl) as (l & E). exists (String a (String b (String c l))).
  by rewrite !sapp_cons, <- E.
Qed.

Lemma trim_sub s : exists l r, s = l +:+ trim s +:+ r.
Proof.
  destruct (trim_start_suffix s) as (l & E). destruct (trim_end_prefix (trim_start s)) as (r & E' & _).
  exists l, r. unfold trim. by rewrite <- E'.
Qed.

Lemma trim_occurs p s : occurs p (trim s) -> occurs p s.
Proof. intros H. destruct (trim_sub s) as (l & r & E). rewrite E. by apply occurs_mid. Qed.

(** ** Cuts and digits *)

Lemma utf8_stake n s : utf8 s = true -> is_char_boundary s n = true -> utf8 (stake n s) = true.
Proof.
  revert n. induction s as [s IH] using (induction_ltof1 _ String.length); unfold ltof in IH.
  intros n H B. destruct n as [|n]; [done|]. destruct s as [|a s1]; [done|].
  pose proof (boundary_tail _ _ _ B) as B1. cbn [stake utf8] in *.
  destruct (in_range 0 127 a) eqn:Ea; [apply IH; cbn; [lia|done|done]|].
  destruct s1 as [|b s2]; [done|]. destruct n as [|n].
  { exfalso. rewrite boundary_1 in B; [done|]. destruct (in_range 194 223 a); [by apply andb_true_iff in H as []|].
    destruct s2 as [|c s3]; [done|]. apply (second_ok_cont a). destruct (in_range 224 239 a); [by reflect_bools|].
    destruct s3; [done|by reflect_bools]. }
  pose proof (boundary_tail _ _ _ B1) as B2. cbn [stake].
  destruct (in_range 194 223 a).
  { apply andb_true_iff in H as [-> H]. apply IH; cbn; [lia|done|done]. }
  destruct s2 as [|c s3]; [done|]. destruct n as [|n].
  { exfalso. rewrite boundary_1 in B1; [done|]. destruct (in_range 224 239 a); [by reflect_bools|]. destruct s3; [done|by reflect_bools]. }
  pose proof (boundary_tail _ _ _ B2) as B3. cbn [stake].
  destruct (in_range 224 239 a).
  { apply andb_true_iff in H as [-> H]. apply IH; cbn; [lia|done|done]. }
  destruct s3 as [|d s4]; [done|]. destruct n as [|n]; [reflect_bools; by rewrite boundary_1 in B2|].
  pose proof (boundary_tail _ _ _ B3). cbn [stake]. apply andb_true_iff in H as [-> H]. apply IH; cbn; [lia|done|done].
Qed.

Lemma pretty_N_go_length k x s : (x < 10 ^ N.of_nat k)%N -> (String.length (pretty_N_go x s) <= k + String.length s)%nat.
Proof.
  revert x s. induction k as [|k IH]; intros x s Hx.
  { assert (x = 0%N) as -> by (cbn in Hx; lia). by rewrite pretty_N_go_0. }
  destruct (decide (x = 0%N)) as [->|]; [rewrite pretty_N_go_0; lia|]. rewrite pretty_N_go_step by lia.
  etransitivity; [apply IH|cbn; lia]. rewrite Nat2N.inj_succ, N.pow_succ_r' in Hx. apply N.Div0.div_lt_upper_bound; lia.
Qed.

Lemma dec_length k n : (0 < k)%nat -> 0 <= n < 10 ^ Z.of_nat k -> len (dec n) <= Z.of_nat k.
Proof.
  intros Hk Hn. rewrite dec_unfold. unfold len. case_decide; [cbn; lia|].
  pose proof (pretty_N_go_length k (Z.to_N n) ""). cbn [String.length] in *. apply Nat2Z.inj_le. etransitivity; [apply H0|lia].
  apply N2Z.inj_lt. rewrite Z2N.id by lia. rewrite N2Z.inj_pow, nat_N_Z. lia.
Qed.

Lemma utf8_digits s : sall is_digit s = true -> utf8 s = true.
Proof.
  induction s as [|c s IH]; [done|]. cbn [sall]. rewrite andb_true_iff. intros [Hc Hs]. cbn [utf8].
  assert (in_range 0 127 c = true) as -> by (unfold is_digit, in_range in *; reflect_bools; apply andb_true_iff; lia). by apply IH.
Qed.

(** A pattern whose first byte does not come again is found where it is put. *)
Lemma split_once_first c f l r : contains_byte c f = false -> ~ occurs (String c f) l ->
  split_once (String c f) (l +:+ String c f +:+ r) = Some (l, r).
Proof.
  intros Hc. induction l as [|a l IH]; intros Ho; rewrite split_once_unfold.
  { by rewrite sapp_nil_l, strip_prefix_app. }
  destruct (strip_prefix _ (String a l +:+ _)) as [k|] eqn:E.
  - exfalso. apply strip_prefix_some in E. symmetry in E.
    destruct (sapp_split _ _ _ _ E) as [(m & El & _)|(m & Em & Er)]; [apply Ho; exists "", m; by rewrite El|].
    rewrite sapp_cons in Em. injection Em as -> ->. rewrite sapp_cons in Er. destruct m as [|b m].
    { apply Ho. exists "", "". by rewrite !sapp_nil_r. }
    rewrite sapp_cons in Er. injection Er as <- _. rewrite contains_byte_app in Hc. unfold contains_byte at 2 in Hc. cbn in Hc.
    by rewrite byte_eqb_refl, orb_true_r in Hc.
  - rewrite sapp_cons. rewrite IH; [done|]. intros H. by apply Ho, occurs_cons.
Qed.

(** The text in front of the first occurrence holds none. *)
Lemma split_once_before c f s l r : split_once (String c f) s = Some (l, r) -> ~ occurs (String c f) l.
Proof.
  revert l r. induction s as [|a s IH]; intros l r; rewrite split_once_unfold.
  { cbn. done. }
  destruct (strip_prefix (String c f) (String a s)) as [rest|] eqn:E.
  { intros [= <- <-] H%occurs_length. cbn in H. lia. }
  destruct (split_once (String c f) s) as [[l' r']|] eqn:E'; [|done]. intros [= <- <-] [H|H]%occurs_cons_inv; [|by eapply IH].
  apply split_once_some in E'. apply starts_with_iff in H as (k & H).
  assert (Hs : String a s = String c f +:+ (k +:+ String c f +:+ r')) by (rewrite E', <- sapp_cons, H; by rewrite sapp_assoc).
  by rewrite Hs, strip_prefix_app in E.
Qed.
