(* ===== verification/Float64.v ===== *)
(** * [f64]

    A double is its 64-bit pattern, so that [f64::total_cmp], which orders
    patterns, is what the standard library computes.  Arithmetic and the
    partial order go through the standard IEEE-754 model of the library
    ([SpecFloat], binary64: precision 53, greatest exponent 1024). *)

From S2P Require Import Prelude.
From Stdlib Require Import SpecFloat.
#[local] Open Scope Z_scope.

Record f64 : Type := F64 { f64_bits : Z }.

#[export] Instance f64_eq_dec : EqDecision f64.
Proof. solve_decision. Defined.

Definition f64_sign (x : f64) : bool := Z.testbit (f64_bits x) 63.
Definition f64_exp (x : f64) : Z := Z.land (Z.shiftr (f64_bits x) 52) 2047.
Definition f64_man (x : f64) : Z := Z.land (f64_bits x) (2 ^ 52 - 1).

(** The value of a bit pattern. *)
Definition to_sf (x : f64) : spec_float :=
  let s := f64_sign x in
  let m := f64_man x in
  if f64_exp x =? 2047 then
    (if m =? 0 then S754_infinity s else S754_nan)
  else if f64_exp x =? 0 then
    match m with Zpos p => S754_finite s p (-1074) | _ => S754_zero s end
  else
    match m + 2 ^ 52 with Zpos p => S754_finite s p (f64_exp x - 1075) | _ => S754_nan end.

Definition sign_bit (s : bool) : Z := if s then 2 ^ 63 else 0.

(** The bit pattern of a value; a NaN result gets the quiet pattern. *)
Definition of_sf (v : spec_float) : f64 :=
  F64 match v with
      | S754_zero s => sign_bit s
      | S754_infinity s => sign_bit s + 2047 * 2 ^ 52
      | S754_nan => 2047 * 2 ^ 52 + 2 ^ 51
      | S754_finite s m e =>
          if (2 ^ 52 <=? Zpos m) then sign_bit s + (e + 1075) * 2 ^ 52 + (Zpos m - 2 ^ 52)
          else sign_bit s + Zpos m
      end.

Definition f64_sub (x y : f64) : f64 := of_sf (SFsub 53 1024 (to_sf x) (to_sf y)).
Definition f64_div (x y : f64) : f64 := of_sf (SFdiv 53 1024 (to_sf x) (to_sf y)).
(** [n as f64] *)
Definition f64_of_Z (n : Z) : f64 := of_sf (binary_normalize 53 1024 n 0 false).

Definition f64_lt (x y : f64) : bool := SFltb (to_sf x) (to_sf y).
Definition f64_ge (x y : f64) : bool := SFleb (to_sf y) (to_sf x).
Definition is_nan (x : f64) : bool :=
  match to_sf x with S754_nan => true | _ => false end.

(** [f64::clamp] *)
Definition f64_clamp (x lo hi : f64) : f64 :=
  let x := if f64_lt x lo then lo else x in
  if f64_lt hi x then hi else x.

(** The [i64] with the bits of a [u64]. *)
Definition as_i64 (b : Z) : Z := if b <? 2 ^ 63 then b else b - 2 ^ 64.
(** The [u64] with the bits of an [i64]. *)
Definition as_u64 (b : Z) : Z := b mod 2 ^ 64.

(** [f64::total_cmp] compares these keys of the two patterns. *)
Definition total_key (x : f64) : Z :=
  let left := as_i64 (f64_bits x) in
  Z.lxor left (as_i64 (Z.shiftr (as_u64 (Z.shiftr left 63)) 1)).

Definition total_cmp (x y : f64) : comparison := Z.compare (total_key x) (total_key y).

(** Decimal literals of the source. *)
Definition f64_0 : f64 := f64_of_Z 0.
Definition f64_100 : f64 := f64_of_Z 100.
Definition f64_half : f64 := f64_div (f64_of_Z 1) (f64_of_Z 2).

Lemma SFcompare_antisym a b c :
  SFcompare a b = Some c -> SFcompare b a = Some (CompOpp c).
Proof.
  destruct a as [[]|[]| |[] m1 e1], b as [[]|[]| |[] m2 e2]; cbn; try done;
    try (intros [= <-]; done).
  all: intros [= <-]; rewrite (Z.compare_antisym e1 e2);
    destruct (Z.compare e1 e2); cbn; try done.
  all:
    rewrite (Pos.compare_cont_antisym m1 m2 Eq); cbn; by destruct (Pos.compare_cont Eq m1 m2).
Qed.

Lemma SFcompare_total a b : a <> S754_nan -> b <> S754_nan -> exists c, SFcompare a b = Some c.
Proof. destruct a as [[]|[]| |[] ? ?], b as [[]|[]| |[] ? ?]; cbn; intros; try done; eauto. Qed.

(** On numbers, [!(x < y)] is [y <= x]. *)
Lemma f64_not_lt x y : is_nan x = false -> is_nan y = false -> f64_lt x y = false -> f64_ge x y = true.
Proof.
  unfold is_nan, f64_lt, f64_ge, SFltb, SFleb. intros Hx Hy H.
  destruct (SFcompare_total (to_sf x) (to_sf y)) as [c E]; [by intros E; rewrite E in *..|].
  rewrite E in H. rewrite (SFcompare_antisym _ _ _ E). by destruct c.
Qed.

Lemma f64_ge_refl_0 : f64_ge f64_0 f64_0 = true.
Proof. done. Qed.

(** [clamp] between two numbers gives a number between them, or a NaN when its
    argument is one. *)
Lemma f64_clamp_bounds x lo hi :
  is_nan lo = false -> is_nan hi = false -> f64_ge hi lo = true ->
  f64_ge lo lo = true -> f64_ge hi hi = true -> f64_lt hi lo = false ->
  let r := f64_clamp x lo hi in
  is_nan r = true \/ (f64_ge r lo = true /\ f64_ge hi r = true).
Proof.
  intros Hlo Hhi Hle Hl Hh Hnl. cbn zeta. unfold f64_clamp.
  destruct (f64_lt x lo) eqn:E1.
  - rewrite Hnl. by right.
  - destruct (f64_lt hi x) eqn:E2; [by right|].
    destruct (is_nan x) eqn:En; [by left|]. right.
    split; by apply f64_not_lt.
Qed.
