(* ===== verification/Json.v ===== *)
(** * The JSON library the providers are built on

    [serde_json] is a dependency, so its [Value] and [Map] are abstract here: a
    class of the operations the modelled crates call, and a second class of the
    documented laws a theorem may rely on.  The definitions of the components
    are written against the first class; only the round-trip theorems use the
    second.  [Tree] is a concrete implementation that satisfies the laws; the
    witnesses evaluate with it. *)

From S2P Require Import Prelude RustStr.

Class SerdeJson := {
  Value : Type;
  Map : Type;
  SerdeError : Type;
  (** [Display] of an error *)
  error_to_string : SerdeError -> string;
  VNull : Value;
  VString : string -> Value;
  VArray : list Value -> Value;
  VObject : Map -> Value;
  (** [Value::get] with a string index *)
  get : Value -> string -> option Value;
  as_str : Value -> option string;
  as_u64 : Value -> option Z;
  as_bool : Value -> option bool;
  as_array : Value -> option (list Value);
  as_object : Value -> option Map;
  is_null : Value -> bool;
  (** [Map::new], [insert], [get] and [remove] with the removed value *)
  map_new : Map;
  map_insert : string -> Value -> Map -> Map;
  map_get : string -> Map -> option Value;
  map_remove : string -> Map -> option Value * Map;
  (** [serde_json::to_string] and [from_str] at [Value] *)
  to_string : Value -> result SerdeError string;
  from_str : string -> result SerdeError Value }.

(** What the documentation of [serde_json] promises of a map and of the text
    form. *)
Class SerdeLaws (J : SerdeJson) : Prop := {
  as_object_object : forall m, as_object (VObject m) = Some m;
  as_str_string : forall s, as_str (VString s) = Some s;
  map_get_new : forall k, map_get k map_new = None;
  map_get_insert : forall k v m, map_get k (map_insert k v m) = Some v;
  map_get_insert_ne : forall k k' v m, k <> k' -> map_get k (map_insert k' v m) = map_get k m;
  map_remove_get : forall k m, (map_remove k m).1 = map_get k m;
  map_get_remove_ne : forall k k' m, k <> k' -> map_get k (map_remove k' m).2 = map_get k m;
  (** white space after a document is accepted *)
  from_str_newline : forall s v, from_str s = Ok v -> from_str (s +:+ String LF "") = Ok v }.

Create Rewrite HintDb json.

Section chained.
Context `{J : SerdeJson}.

(** [v.get(key).and_then(Value::as_str)] and the like, which is also
    [v.get(key)?.as_str()?]. *)
Definition get_str (v : Value) (key : string) : option string := get v key ≫= as_str.
Definition get_u64 (v : Value) (key : string) : option Z := get v key ≫= as_u64.
Definition get_bool (v : Value) (key : string) : option bool := get v key ≫= as_bool.
Definition get_array (v : Value) (key : string) : option (list Value) := get v key ≫= as_array.
End chained.

(** ** A concrete implementation *)

Module Tree.
(** A leaf is a string or a number; node 0 is null, 1 and 2 the booleans, 3 an
    array and 4 an object, whose children are its keys and values in turn. *)
Definition tree : Type := gen_tree (string + Z).

Fixpoint to_pairs (l : list tree) : list (string * tree) :=
  match l with
  | GenLeaf (inl k) :: v :: l' => (k, v) :: to_pairs l'
  | _ => []
  end.

Fixpoint of_pairs (m : list (string * tree)) : list tree :=
  match m with [] => [] | (k, v) :: m' => GenLeaf (inl k) :: v :: of_pairs m' end.

Fixpoint assoc_get (k : string) (m : list (string * tree)) : option tree :=
  match m with [] => None | (k', v) :: m' => if k =s? k' then Some v else assoc_get k m' end.

Definition assoc_del (k : string) (m : list (string * tree)) : list (string * tree) :=
  List.filter (fun p => negb (k =s? p.1)) m.

Definition obj (v : tree) : option (list (string * tree)) :=
  match v with GenNode 4 l => Some (to_pairs l) | _ => None end.

(** The text form: the bits of the value's code. *)
Fixpoint bits (p : positive) : string :=
  match p with
  | xH => "" | xO p => String "0" (bits p) | xI p => String "1" (bits p)
  end.

Fixpoint unbits (s : string) : option positive :=
  match s with
  | EmptyString => Some xH
  | String c s' =>
      if byte_eqb c LF then then_some (sall (byte_eqb LF) s') xH
      else if byte_eqb c "0" then xO <$> unbits s'
      else if byte_eqb c "1" then xI <$> unbits s' else None
  end.

Lemma unbits_bits p : unbits (bits p) = Some p.
Proof. induction p as [p IH|p IH|]; cbn; rewrite ?IH; done. Qed.

Lemma unbits_newline s p : unbits s = Some p -> unbits (s +:+ String LF "") = Some p.
Proof.
  revert p. induction s as [|c s IH]; intros p; [done|]. rewrite sapp_cons. cbn [unbits].
  destruct (byte_eqb c LF).
  - rewrite sall_app. by destruct (sall _ s).
  - destruct (byte_eqb c "0"); [|destruct (byte_eqb c "1"); [|done]];
      (destruct (unbits s) as [q|]; cbn; [|done]); intros [= <-]; by rewrite (IH _ eq_refl).
Qed.

#[local] Instance serde : SerdeJson := {|
  Value := tree; Map := list (string * tree); SerdeError := string; error_to_string := id;
  VNull := GenNode 0 []; VString s := GenLeaf (inl s);
  VArray l := GenNode 3 l; VObject m := GenNode 4 (of_pairs m);
  get v k := m ← obj v; assoc_get k m;
  as_str v := match v with GenLeaf (inl s) => Some s | _ => None end;
  as_u64 v := match v with
              | GenLeaf (inr z) => if ((0 <=? z) && (z <=? u64_max))%Z then Some z else None
              | _ => None end;
  as_bool v := match v with GenNode 1 [] => Some true | GenNode 2 [] => Some false | _ => None end;
  as_array v := match v with GenNode 3 l => Some l | _ => None end;
  as_object := obj;
  is_null v := match v with GenNode 0 [] => true | _ => false end;
  map_new := []; map_insert k v m := (k, v) :: assoc_del k m;
  map_get := assoc_get;
  map_remove k m := (assoc_get k m, assoc_del k m);
  to_string v := Ok (bits (encode v));
  from_str s := ok_or "invalid JSON" (p ← unbits s; decode p) |}.

Lemma pairs_id m : to_pairs (of_pairs m) = m.
Proof. induction m as [|[k v] m IH]; cbn; by rewrite ?IH. Qed.

Lemma assoc_get_del k k' m : k <> k' -> assoc_get k (assoc_del k' m) = assoc_get k m.
Proof.
  unfold assoc_del. intros N. induction m as [|[k1 v] m IH]; [done|]. cbn.
  destruct (String.eqb_spec k' k1) as [->|]; cbn; [|by rewrite IH].
  destruct (String.eqb_spec k k1); [done|]. exact IH.
Qed.

#[local] Instance serde_laws : SerdeLaws serde.
Proof.
  split; cbn.
  - intros m. by rewrite pairs_id.
  - done.
  - done.
  - intros k v m. by rewrite String.eqb_refl.
  - intros k k' v m N. destruct (String.eqb_spec k k'); [done|]. by apply assoc_get_del.
  - done.
  - intros k k' m N. by apply assoc_get_del.
  - intros s v H. apply ok_or_ok in H. apply ok_or_ok.
    destruct (unbits s) as [p|] eqn:E; [|done]. by rewrite (unbits_newline _ _ E).
Qed.

Lemma from_to v : exists s, to_string v = Ok s /\ from_str s = Ok v.
Proof. eexists. split; [done|]. cbn. by rewrite unbits_bits; cbn; rewrite decode_encode. Qed.
End Tree.
