(* ===== verification/Paths.v ===== *)
(** * [std::path] on Unix and [xai-grok-paths]

    A path is its bytes.  [Path::components] and the operations built on it
    are those of the standard library on Unix; [normalize_lexically] is the
    function of [xai-grok-paths].  The file shows what lexical normalization
    means: the normalized path of an absolute path is the place one reaches by
    walking its components from the root, and it holds no [.] and no [..]. *)

From S2P Require Import Prelude RustStr.

Inductive Component : Type := RootDir | CurDir | ParentDir | Normal (s : string).

#[export] Instance Component_eq_dec : EqDecision Component.
Proof. solve_decision. Defined.

(** One piece between slashes; empty pieces and [.] give nothing. *)
Definition body_component (t : string) : option Component :=
  if (t =s? "") || (t =s? ".") then None
  else if t =s? ".." then Some ParentDir
  else Some (Normal t).

Definition is_absolute (p : string) : bool := starts_with "/" p.

(** [Path::components]: a [.] counts only at the start of a relative path. *)
Definition components (p : string) : list Component :=
  let pieces := split_char "/" p in
  if is_absolute p then RootDir :: filter_map body_component pieces
  else match pieces with
       | piece :: rest =>
           (if piece =s? "." then [CurDir] else []) ++ filter_map body_component pieces
       | [] => []
       end.

Definition component_str (c : Component) : string :=
  match c with RootDir => "/" | CurDir => "." | ParentDir => ".." | Normal s => s end.

(** [PathBuf::push]; [Path::join] is a push on a copy. *)
Definition push (buf p : string) : string :=
  if is_absolute p then p
  else if is_empty buf || ends_with "/" buf then buf +:+ p
  else buf +:+ "/" +:+ p.

(** [Iterator<Item = Component>::collect::<PathBuf>] *)
Definition collect_path (cs : list Component) : string := foldl push "" (component_str <$> cs).

(** The pieces without those at the start that give no component. *)
Fixpoint skip_blank (ps : list string) : list string :=
  match ps with
  | t :: ps' => match body_component t with None => skip_blank ps' | Some _ => ps end
  | [] => []
  end.

(** [Path::strip_prefix] with a base that has a component: the bytes after the
    common components, without separators and [.] at their ends. *)
Definition trim_pieces (ps : list string) : list string := rev (skip_blank (rev (skip_blank ps))).

Fixpoint strip_pieces (base : list Component) (ps : list string) : option (list string) :=
  match base with
  | [] => Some ps
  | c :: base' =>
      (fix go (ps : list string) :=
         match ps with
         | [] => None
         | t :: ps' => match body_component t with
                       | None => go ps'
                       | Some c' => if bool_decide (c = c') then strip_pieces base' ps' else None
                       end
         end) ps
  end.

Definition strip_path_prefix (p base : string) : option string :=
  let pieces := split_char "/" p in
  let rest :=
    match components base with
    | RootDir :: bs => if is_absolute p then strip_pieces bs pieces else None
    | CurDir :: bs => match pieces with
                      | t :: ps => if t =s? "." then strip_pieces bs ps else None
                      | [] => None
                      end
    | bs => if is_absolute p then None
            else match pieces with
                 | t :: _ => if t =s? "." then None else strip_pieces bs pieces
                 | [] => strip_pieces bs pieces
                 end
    end in
  (fun ps => join "/" (trim_pieces ps)) <$> rest.

(** [Path::starts_with] and [==] compare components. *)
Fixpoint is_prefix (l k : list Component) : bool :=
  match l, k with
  | [], _ => true
  | a :: l', b :: k' => bool_decide (a = b) && is_prefix l' k'
  | _ :: _, [] => false
  end.
Definition path_starts_with (p base : string) : bool := is_prefix (components base) (components p).
Definition path_same (p q : string) : bool := bool_decide (components p = components q).

(** [Path::file_name]: the last component, when it is a name. *)
Definition file_name (p : string) : option string :=
  match list.last (components p) with Some (Normal s) => Some s | _ => None end.

(** [Path::parent]: the bytes before the last component, without separators and
    [.] at their end; the root has none. *)
Definition parent (p : string) : option string :=
  let body := split_char "/" p in
  let up (ps : list string) : list string := rev (skip_blank (drop 1 (skip_blank (rev ps)))) in
  match list.last (components p) with
  | None | Some RootDir => None
  | Some _ =>
      if is_absolute p then Some ("/" +:+ join "/" (up (drop 1 body)))
      else match body with
           | "."%string :: rest =>
               match skip_blank rest with
               | [] => Some ""
               | _ => Some (join "/" ("." :: up rest))
               end
           | _ => Some (join "/" (up body))
           end
  end.

(** ** [normalize_lexically] *)

(** One step of the loop; the stack has its last component first. *)
Definition normalize_step (stack : list Component) (c : Component) : list Component :=
  match c with
  | CurDir => stack
  | ParentDir => match stack with
                 | Normal _ :: rest => rest
                 | RootDir :: _ => stack
                 | _ => ParentDir :: stack
                 end
  | _ => c :: stack
  end.

Definition normalized_components (p : string) : list Component :=
  rev (foldl normalize_step [] (components p)).

Definition normalize_lexically (p : string) : string :=
  match normalized_components p with
  | [] => "."
  | cs => collect_path cs
  end.

(** ** Components and pieces *)

Definition no_slash (s : string) : bool := sall (fun a => negb (byte_eqb a "/")) s.

(** A component that comes from a piece between slashes. *)
Definition body_wf (c : Component) : Prop :=
  match c with
  | ParentDir => True
  | Normal s => no_slash s = true /\ s <> "" /\ s <> "." /\ s <> ".."
  | _ => False
  end.

Lemma split_char_no_slash s : Forall (fun t => no_slash t = true) (split_char "/" s).
Proof.
  induction s as [|a s IH]; cbn [split_char]; [by repeat constructor|].
  destruct (byte_eqb a "/") eqn:E; [by constructor|].
  destruct (split_char "/" s) as [|l ls]; [by constructor; [cbn; rewrite E|]|].
  destruct (Forall_cons_1 _ _ _ IH) as [Hl Hls]. constructor; [|done]. unfold no_slash in *. cbn. by rewrite E, Hl.
Qed.

Lemma body_component_wf t c : no_slash t = true -> body_component t = Some c ->
  body_wf c /\ component_str c = t.
Proof.
  intros Hn. unfold body_component.
  destruct (String.eqb_spec t ""), (String.eqb_spec t "."), (String.eqb_spec t ".."); cbn; intros [= <-];
    by subst.
Qed.

Lemma body_component_str c : body_wf c -> body_component (component_str c) = Some c.
Proof.
  destruct c as [| | |s]; try done. intros (_&H1&H2&H3). unfold body_component. cbn.
  destruct (String.eqb_spec s ""), (String.eqb_spec s "."), (String.eqb_spec s ".."); done.
Qed.

Lemma no_slash_head s : no_slash s = true -> is_absolute s = false.
Proof.
  destruct s as [|a s]; [done|]. unfold no_slash, is_absolute, starts_with. cbn [sall strip_prefix].
  destruct (byte_eqb_spec a "/") as [->|N]; [done|]. intros _.
  by destruct (byte_eqb_spec "/" a) as [<-|].
Qed.

Lemma no_slash_last s : no_slash s = true -> ends_with "/" s = false.
Proof.
  intros H. unfold ends_with. destruct (strip_suffix "/" s) as [r|] eqn:E; [|done].
  apply strip_suffix_some in E as ->. unfold no_slash in H. rewrite sall_app in H.
  apply andb_true_iff in H as [_ H]. done.
Qed.

(** The pieces of a list of components. *)
Definition pieces_ok (ss : list string) : Prop := Forall (fun s => no_slash s = true /\ s <> "") ss.

Lemma pieces_of_wf cs : Forall body_wf cs -> pieces_ok (component_str <$> cs).
Proof. intros H. apply Forall_fmap. eapply List.Forall_impl; [|exact H]. by intros [] Hc; cbn in *; naive_solver. Qed.

Lemma ends_with_sapp s t : t <> "" -> ends_with "/" (s +:+ t) = ends_with "/" t.
Proof.
  intros Ht. unfold ends_with. destruct (strip_suffix "/" t) as [r|] eqn:E.
  - apply strip_suffix_some in E as ->. rewrite <- sapp_assoc.
    by rewrite (proj2 (strip_suffix_some "/" _ (s +:+ r)) eq_refl).
  - destruct (strip_suffix "/" (s +:+ t)) as [r|] eqn:E'; [exfalso|done].
    apply strip_suffix_some in E'. revert r E'. induction s as [|a s IH]; intros r.
    + rewrite sapp_nil_l. intros ->. by rewrite (proj2 (strip_suffix_some "/" _ r) eq_refl) in E.
    + rewrite sapp_cons. destruct r as [|b r]; [|rewrite sapp_cons; intros [= _ H]; by eapply IH].
      rewrite sapp_nil_l. intros [= _ H]. apply sapp_empty in H as [_ ?]. done.
Qed.

Lemma push_pieces b ss : b <> "" -> ends_with "/" b = false -> pieces_ok ss ->
  foldl push b ss = join "/" (b :: ss).
Proof.
  intros Hb He H. revert b Hb He. induction H as [|s ss [Hs Hn] _ IH]; intros b Hb He; [done|].
  cbn [foldl]. assert (E : push b s = b +:+ "/" +:+ s).
  { unfold push. rewrite no_slash_head, He by done. unfold is_empty. by destruct (String.eqb_spec b ""). }
  rewrite E, IH.
  - destruct ss; cbn [join]; by rewrite ?sapp_assoc.
  - intros H. by apply sapp_empty in H as [? _].
  - rewrite <- sapp_assoc, ends_with_sapp by done. by apply no_slash_last.
Qed.

Lemma split_join ss : pieces_ok ss -> ss <> [] -> split_char "/" (join "/" ss) = ss.
Proof.
  intros H. induction H as [|s ss [Hs _] _ IH]; [done|]. intros _. destruct ss as [|t ss].
  - by apply split_char_last.
  - rewrite join_cons by done. change ("/" +:+ ?x) with (String "/" x).
    rewrite split_char_piece by done. by rewrite IH.
Qed.

Lemma join_relative ss : pieces_ok ss -> is_absolute (join "/" ss) = false.
Proof.
  intros H. destruct H as [|s ss [Hs Hn] H]; [done|]. destruct s as [|a s]; [done|].
  assert (Ha : byte_eqb "/" a = false).
  { apply no_slash_head in Hs. unfold is_absolute, starts_with in Hs. cbn [strip_prefix] in Hs.
    by destruct (byte_eqb "/" a). }
  unfold is_absolute, starts_with. destruct ss as [|t ss].
  - cbn [join strip_prefix]. by rewrite Ha.
  - rewrite join_cons, sapp_cons by done. cbn [strip_prefix]. by rewrite Ha.
Qed.

Lemma filter_map_pieces cs : Forall body_wf cs -> filter_map body_component (component_str <$> cs) = cs.
Proof.
  intros H. induction H as [|c cs Hc _ IH]; [done|]. cbn. rewrite body_component_str by done. by f_equal.
Qed.

(** ** What normalization means *)

Lemma components_relative cs : Forall body_wf cs -> cs <> [] ->
  components (join "/" (component_str <$> cs)) = cs.
Proof.
  intros H Hn. unfold components. pose proof (pieces_of_wf cs H) as P.
  rewrite join_relative, split_join by (done || by destruct cs).
  rewrite filter_map_pieces by done. destruct H as [|c cs Hc _]; [done|]. cbn.
  destruct (String.eqb_spec (component_str c) ".") as [E|]; [exfalso|done].
  destruct c; try done. cbn in Hc, E. naive_solver.
Qed.

Lemma components_rooted cs : Forall body_wf cs ->
  components ("/" +:+ join "/" (component_str <$> cs)) = RootDir :: cs.
Proof.
  intros H. unfold components, is_absolute. rewrite starts_with_app. f_equal.
  change ("/" +:+ ?x) with (String "/" x). cbn [split_char]. rewrite byte_eqb_refl. cbn [filter_map].
  change (body_component "") with (@None Component). cbn iota.
  destruct (decide (cs = [])) as [->|N]; [done|].
  rewrite split_join by (by apply pieces_of_wf || by destruct cs). by apply filter_map_pieces.
Qed.

Lemma collect_relative cs : Forall body_wf cs -> cs <> [] -> collect_path cs = join "/" (component_str <$> cs).
Proof.
  intros H N. unfold collect_path. pose proof (pieces_of_wf cs H) as P.
  destruct cs as [|c cs]; [done|]. cbn [fmap list_fmap] in *.
  destruct (Forall_cons_1 _ _ _ P) as [[Hc He] P']. cbn [foldl].
  assert (E : push "" (component_str c) = component_str c) by (unfold push; by rewrite no_slash_head).
  rewrite E. apply push_pieces; [done|by apply no_slash_last|done].
Qed.

Lemma collect_rooted cs : Forall body_wf cs -> collect_path (RootDir :: cs) = "/" +:+ join "/" (component_str <$> cs).
Proof.
  intros H. unfold collect_path. pose proof (pieces_of_wf cs H) as P.
  cbn [fmap list_fmap foldl component_str]. change (push "" "/") with "/".
  destruct (component_str <$> cs) as [|s ss]; [done|].
  destruct (Forall_cons_1 _ _ _ P) as [[Hs He] P']. cbn [foldl].
  assert (E : push "/" s = "/" +:+ s) by (unfold push; by rewrite no_slash_head).
  rewrite E, push_pieces.
  - destruct ss; cbn [join]; by rewrite ?sapp_assoc.
  - by destruct s.
  - rewrite ends_with_sapp by done. by apply no_slash_last.
  - done.
Qed.

Lemma body_components_wf p : Forall body_wf (filter_map body_component (split_char "/" p)).
Proof.
  apply list.Forall_forall. intros c (t&Ht&Hc)%elem_of_filter_map.
  pose proof (proj1 (list.Forall_forall _ _) (split_char_no_slash p) t Ht) as Hn.
  by apply (body_component_wf t c Hn).
Qed.


(** Walking a path from a directory, the last name first. *)
Definition walk_step (dir : list string) (c : Component) : list string :=
  match c with
  | RootDir => []
  | CurDir => dir
  | ParentDir => tl dir
  | Normal s => s :: dir
  end.
Definition walk (dir : list string) (cs : list Component) : list string := foldl walk_step dir cs.

Lemma normalize_rooted names cs : Forall body_wf cs ->
  foldl normalize_step ((Normal <$> names) ++ [RootDir]) cs = (Normal <$> walk names cs) ++ [RootDir].
Proof.
  intros H. revert names. induction H as [|c cs Hc _ IH]; intros names; [done|]. unfold walk in *. cbn [foldl].
  destruct c as [| | |s]; try done; cbn [normalize_step walk_step].
  - destruct names as [|n names]; cbn; [apply (IH [])|apply (IH names)].
  - apply (IH (s :: names)).
Qed.

Lemma walk_wf names cs : Forall body_wf (Normal <$> names) -> Forall body_wf cs ->
  Forall body_wf (Normal <$> walk names cs).
Proof.
  intros Hn H. revert names Hn. induction H as [|c cs Hc _ IH]; intros names Hn; [done|]. unfold walk. cbn [foldl].
  apply IH. destruct c as [| | |s]; try done; cbn; [|by constructor].
  destruct names; [done|]. by apply (Forall_cons_1 _ _ _ Hn).
Qed.

Lemma absolute_components p : is_absolute p = true ->
  exists cs, components p = RootDir :: cs /\ Forall body_wf cs.
Proof. intros H. unfold components. rewrite H. eexists. split; [done|]. apply body_components_wf. Qed.

Lemma fmap_rev {A B} (f : A -> B) l : f <$> rev l = rev (f <$> l).
Proof. apply List.map_rev. Qed.

Lemma normalize_absolute p : is_absolute p = true ->
  normalized_components p = RootDir :: (Normal <$> rev (walk [] (components p))) /\
  Forall body_wf (Normal <$> rev (walk [] (components p))).
Proof.
  intros H. destruct (absolute_components p H) as (cs&E&Hw). unfold normalized_components. rewrite E.
  change (foldl normalize_step [] (RootDir :: cs)) with (foldl normalize_step ((Normal <$> []) ++ [RootDir]) cs).
  change (walk [] (RootDir :: cs)) with (walk [] cs).
  rewrite normalize_rooted, rev_app_distr by done. rewrite fmap_rev. split; [done|].
  apply List.Forall_rev. by apply walk_wf.
Qed.

(** Lexical normalization of an absolute path is equivalent to walking it:
    the result is the absolute path of the directory reached from the root, it
    holds no [.] and no [..], and normalizing it again changes nothing. *)
Theorem normalize_is_walk p :
  is_absolute p = true ->
  let dir := rev (walk [] (components p)) in
  normalize_lexically p = "/" +:+ join "/" dir /\
  components (normalize_lexically p) = RootDir :: (Normal <$> dir) /\
  normalize_lexically (normalize_lexically p) = normalize_lexically p.
Proof.
  intros H. cbn zeta. destruct (normalize_absolute p H) as [E W].
  set (dir := rev (walk [] (components p))) in *.
  assert (S : component_str <$> (Normal <$> dir) = dir).
  { rewrite <- list_fmap_compose. apply list_fmap_id. }
  assert (N : normalize_lexically p = "/" +:+ join "/" dir).
  { unfold normalize_lexically. rewrite E, collect_rooted by done. by rewrite S. }
  assert (C : components (normalize_lexically p) = RootDir :: (Normal <$> dir)).
  { rewrite N, <- S at 1. rewrite S. rewrite <- S at 1. by apply components_rooted. }
  split_and!; [done|done|].
  assert (A : is_absolute (normalize_lexically p) = true) by (rewrite N; apply starts_with_app).
  destruct (normalize_absolute _ A) as [E' _]. rewrite C in E'.
  assert (W' : walk [] (RootDir :: (Normal <$> dir)) = rev dir).
  { clear. unfold walk. cbn [foldl walk_step]. rewrite <- (app_nil_r (rev dir)). generalize (@nil string) as acc.
    induction dir as [|d dir IH]; intros acc; [done|]. cbn. rewrite IH. by rewrite <- app_assoc. }
  rewrite W', rev_involutive in E'. transitivity ("/" +:+ join "/" dir); [|done].
  unfold normalize_lexically at 1. by rewrite E', collect_rooted, S.
Qed.

Lemma normalize_is_walk_witness :
  normalize_lexically "/srv/../home/./u/../../etc" = "/etc" /\
  components "/etc" = [RootDir; Normal "etc"].
Proof.
  destruct (normalize_is_walk "/srv/../home/./u/../../etc" ltac:(vm_compute; reflexivity)) as (H1&H2&_).
  vm_compute in H1, H2. split; [exact H1|exact H2].
Defined.

(** ** Stripping a base *)

(** The names from the root to the place a path leads to. *)
Definition place (p : string) : list string := rev (walk [] (components p)).

Lemma names_str (names : list string) : component_str <$> (Normal <$> names) = names.
Proof. rewrite <- list_fmap_compose. apply list_fmap_id. Qed.

Lemma place_wf p : is_absolute p = true -> Forall body_wf (Normal <$> place p).
Proof. intros H. by destruct (normalize_absolute p H). Qed.

Lemma normalize_place p : is_absolute p = true -> normalize_lexically p = "/" +:+ join "/" (place p).
Proof.
  intros H. destruct (normalize_absolute p H) as [E W]. unfold normalize_lexically.
  rewrite E, collect_rooted by done. by rewrite names_str.
Qed.

Lemma components_place names : Forall body_wf (Normal <$> names) ->
  components ("/" +:+ join "/" names) = RootDir :: (Normal <$> names).
Proof. intros H. pose proof (components_rooted _ H) as E. by rewrite names_str in E. Qed.

(** What is left of [names] after [base]. *)
Fixpoint names_under (base names : list string) : option (list string) :=
  match base, names with
  | [], _ => Some names
  | b :: base', n :: names' => if b =s? n then names_under base' names' else None
  | _ :: _, [] => None
  end.

Lemma names_under_some base names r : names_under base names = Some r <-> names = base ++ r.
Proof.
  revert names. induction base as [|b base IH]; intros names; cbn; [naive_solver|].
  destruct names as [|n names]; [done|]. destruct (String.eqb_spec b n) as [->|N]; [rewrite IH|]; naive_solver.
Qed.

Lemma strip_pieces_names base names : Forall body_wf (Normal <$> names) ->
  strip_pieces (Normal <$> base) names = names_under base names.
Proof.
  intros H. revert names H. induction base as [|b base IH]; intros names H; [done|].
  destruct names as [|n names]; [done|]. destruct (Forall_cons_1 _ _ _ H) as [Hn Hs].
  cbn [fmap list_fmap strip_pieces names_under]. pose proof (body_component_str _ Hn) as E. cbn in E. rewrite E.
  destruct (String.eqb_spec b n) as [->|N]; [rewrite bool_decide_true by done; by apply IH|].
  rewrite bool_decide_false by (by intros [=]). done.
Qed.

Lemma skip_blank_wf names : Forall body_wf (Normal <$> names) -> skip_blank names = names.
Proof.
  destruct names as [|n names]; [done|]. intros H. destruct (Forall_cons_1 _ _ _ H) as [Hn _].
  cbn. pose proof (body_component_str _ Hn) as E. cbn in E. by rewrite E.
Qed.

Lemma trim_pieces_wf names : Forall body_wf (Normal <$> names) -> trim_pieces names = names.
Proof.
  intros H. unfold trim_pieces. rewrite (skip_blank_wf names) by done. rewrite skip_blank_wf; [apply rev_involutive|].
  rewrite fmap_rev. by apply List.Forall_rev.
Qed.

Lemma Forall_under base names r : names = base ++ r -> Forall body_wf (Normal <$> names) -> Forall body_wf (Normal <$> r).
Proof. intros ->. rewrite fmap_app. intros H. by apply Forall_app in H as [_ H]. Qed.

(** Stripping one normalized path from another compares the names. *)
Lemma strip_place base names : Forall body_wf (Normal <$> base) -> Forall body_wf (Normal <$> names) ->
  strip_path_prefix ("/" +:+ join "/" names) ("/" +:+ join "/" base) = join "/" <$> names_under base names.
Proof.
  intros Hb Hn. unfold strip_path_prefix. rewrite components_place by done.
  assert (A : is_absolute ("/" +:+ join "/" names) = true) by apply starts_with_app. rewrite A.
  change (split_char "/" ("/" +:+ join "/" names)) with ("" :: split_char "/" (join "/" names)).
  assert (P : names <> [] -> split_char "/" (join "/" names) = names).
  { intros N. apply split_join; [|done]. pose proof (pieces_of_wf _ Hn) as Q. by rewrite names_str in Q. }
  assert (S : strip_pieces (Normal <$> base) ("" :: split_char "/" (join "/" names)) =
    match base with [] => Some ("" :: split_char "/" (join "/" names)) | _ => names_under base names end).
  { destruct base as [|b base]; [done|]. destruct names as [|n names]; [done|]. rewrite P by done.
    by rewrite <- strip_pieces_names. }
  rewrite S. clear S. destruct base as [|b base].
  - cbn [names_under fmap option_fmap option_map]. f_equal. f_equal. unfold trim_pieces. cbn [skip_blank].
    change (body_component "") with (@None Component). cbn iota. destruct names as [|n names]; [done|].
    rewrite P by done. by apply (trim_pieces_wf (n :: names)).
  - destruct (names_under (b :: base) names) as [r|] eqn:E; [|done]. cbn. do 2 f_equal.
    apply trim_pieces_wf. apply names_under_some in E. by eapply Forall_under.
Qed.
