(* ===== verification/PermRules.v ===== *)
(** * [xai-grok-workspace], [permission/types.rs] and [permission/rules.rs]

    What a tool may ask for, what the permission layer answers, and the parser
    of permission rules: a tool, and a pattern in parentheses.  The file shows that the
    parser inverts the escaping of rule texts and that its three replacements
    compute the unescaping one character at a time. *)

From S2P Require Import Prelude RustStr Json.

(** ** [types.rs] *)

Inductive ClientType : Type := Generic | GrokTUI | GrokWeb | Nebula | Extension | GrokPager | Desktop.

Definition user_agent_label (c : ClientType) : string :=
  match c with
  | Generic => "grok-shell" | GrokTUI => "grok-tui" | GrokWeb => "grok-web" | Nebula => "nebula"
  | Extension => "grok-code-extension" | GrokPager => "grok-pager" | Desktop => "grok-desktop"
  end.

Definition from_client_identifier (id : option string) : ClientType :=
  match id with
  | Some s =>
      if s =s? "grok-web" then GrokWeb else if s =s? "nebula" then Nebula
      else if s =s? "grok-code-extension" then Extension else if s =s? "grok-desktop" then Desktop
      else if s =s? "grok-pager" then GrokPager else Generic
  | None => Generic
  end.

Definition feedback_label (c : ClientType) : string :=
  match c with
  | GrokTUI | GrokPager => "tui" | GrokWeb => "web" | Nebula => "nebula" | Extension => "extension"
  | Generic => "agent" | Desktop => "desktop"
  end.

Definition can_present_permission_prompt (c : ClientType) : bool :=
  match c with Generic => false | _ => true end.

Inductive AccessKind {V : Type} : Type :=
| Read (path : option string)
| Grep (path glob : option string)
| Edit (path : string)
| Bash (command : string)
| MCPTool (name : string) (input : V)
| WebFetch (url : string)
| WebSearch (query : string)
| AgentMessage (subagent_id : string).
Arguments AccessKind : clear implicits.

(** [Decision] of the code. *)
Inductive PermDecision : Type :=
| DAllow | DAsk | DFollowupMessage (m : string) | DReject (reason : string)
| DPolicyDeny (reason : string) | DCancelled.

#[export] Instance PermDecision_eq_dec : EqDecision PermDecision.
Proof. solve_decision. Defined.

Inductive EditPolicy : Type := EditAsk | EditAllow | EditReject.

Definition edit_policy_str (p : EditPolicy) : string :=
  match p with EditAsk => "ask" | EditAllow => "allow" | EditReject => "reject" end.

Definition edit_policy_of_str (v : string) : option EditPolicy :=
  if v =s? "ask" then Some EditAsk else if v =s? "allow" then Some EditAllow
  else if v =s? "reject" then Some EditReject else None.

Record HookAsk : Type := MkHookAsk { hook_name : string; hook_reason : option string }.

Definition HOOK_ASK_SEPARATOR : string := " — ".

Definition ask_line (h : HookAsk) : string :=
  let reason := join " " (split_whitespace (unwrap_or "" (hook_reason h))) in
  if is_empty reason then "hook '" +:+ hook_name h +:+ "' asks for confirmation"
  else "hook '" +:+ hook_name h +:+ "' asks: " +:+ reason.

Definition prompt_header (h : HookAsk) (action : string) : string :=
  action +:+ HOOK_ASK_SEPARATOR +:+ ask_line h.

Definition strip_prompt_header (h : HookAsk) (title : string) : string :=
  unwrap_or title (strip_suffix (ask_line h) title ≫= strip_suffix HOOK_ASK_SEPARATOR).

Inductive PromptPolicy : Type := PromptAsk | PromptDeny | PromptAuto | PromptAllow.
Inductive PatternMode : Type := Glob | Domain.
Inductive RuleAction : Type := RAllow | RDeny | RAsk.
Inductive ToolFilter : Type :=
| FAny | FBash | FEdit | FRead | FGrep | FMcp | FWebFetch | FWebSearch | FAgentMessage.

#[export] Instance PatternMode_eq_dec : EqDecision PatternMode.
Proof. solve_decision. Defined.
#[export] Instance RuleAction_eq_dec : EqDecision RuleAction.
Proof. solve_decision. Defined.
#[export] Instance ToolFilter_eq_dec : EqDecision ToolFilter.
Proof. solve_decision. Defined.

Record PermissionRule : Type := MkRule {
  rule_action : RuleAction; rule_tool : ToolFilter;
  rule_pattern : option string; rule_mode : PatternMode }.

Record PermissionConfig : Type := MkPermissionConfig {
  rules : list PermissionRule; prompt_policy : PromptPolicy; default_mode_configured : bool }.

Definition PermissionConfig_new (rs : list PermissionRule) : PermissionConfig :=
  MkPermissionConfig rs PromptAsk false.

Section dynamic.
Context `{J : SerdeJson}.

Definition dynamic_string_field (value : Value) (keys : list string) : option string :=
  object ← as_object value;
  find_map (fun key => map_get key object ≫= as_str) keys.

Definition dynamic_has_field (value : Value) (keys : list string) : bool :=
  match as_object value with
  | Some object => existsb (fun key => match map_get key object with Some _ => true | None => false end) keys
  | None => false
  end.

Definition access_kind_from_dynamic (value : Value) : AccessKind Value :=
  match dynamic_string_field value ["filePath"; "file_path"; "path"] with
  | Some path =>
      if dynamic_has_field value ["oldString"; "old_string"; "newString"; "new_string"; "content"; "edits";
                                  "replaceAll"; "replace_all"]
      then Edit path else Read (Some path)
  | None => match dynamic_string_field value ["command"] with
            | Some command => Bash command
            | None => Read None
            end
  end.
End dynamic.

(** ** [rules.rs] *)

Inductive DefaultPermissionMode : Type :=
| MDefault | MAcceptEdits | MPlan | MAuto | MDontAsk | MBypassPermissions.

Definition mode_from_str (s : string) : result string DefaultPermissionMode :=
  if s =s? "default" then Ok MDefault else if s =s? "acceptEdits" then Ok MAcceptEdits
  else if s =s? "plan" then Ok MPlan else if s =s? "auto" then Ok MAuto
  else if s =s? "dontAsk" then Ok MDontAsk else if s =s? "bypassPermissions" then Ok MBypassPermissions
  else Err s.

Record DefaultModeEffects : Type := MkModeEffects {
  eff_prompt_policy : PromptPolicy; eff_accept_edits : bool; eff_bypass_permissions : bool }.

Definition effects (m : DefaultPermissionMode) : DefaultModeEffects :=
  match m with
  | MAcceptEdits => MkModeEffects PromptAsk true false
  | MBypassPermissions => MkModeEffects PromptAsk false true
  | MDefault | MPlan => MkModeEffects PromptAsk false false
  | MDontAsk => MkModeEffects PromptDeny false false
  | MAuto => MkModeEffects PromptAuto false false
  end.

Inductive RuleParseError : Type :=
| UnsupportedToolPrefix (prefix : string) | UnknownToolPrefix (prefix : string) | MalformedRule (detail : string).

Definition RuleParseError_display (e : RuleParseError) : string :=
  match e with
  | UnsupportedToolPrefix p => "unsupported tool prefix: " +:+ p
  | UnknownToolPrefix p => "unknown tool prefix: " +:+ p
  | MalformedRule d => "malformed rule: " +:+ d
  end.

Definition tool_name_to_filter (name : string) : option ToolFilter :=
  if name =s? "Bash" then Some FBash else if name =s? "Read" then Some FRead
  else if (name =s? "Edit") || (name =s? "Write") then Some FEdit
  else if name =s? "MCPTool" then Some FMcp
  else if (name =s? "Grep") || (name =s? "Glob") then Some FGrep
  else if name =s? "WebFetch" then Some FWebFetch
  else if name =s? "WebSearch" then Some FWebSearch
  else if (name =s? "AgentMessage") || (name =s? "SendSubagentMessage") || (name =s? "SendAgentMessage")
  then Some FAgentMessage
  else None.

(** The loop of [is_unescaped]. *)
Fixpoint backslashes_before (s : string) (j : nat) : nat :=
  match j with
  | O => 0
  | S k => match String.get k s with
           | Some c => if byte_eqb c "\" then S (backslashes_before s k) else 0
           | None => 0
           end
  end.

Definition is_unescaped (s : string) (pos : nat) : bool := Nat.even (backslashes_before s pos).

(** The byte at [i] is [target] and not escaped. *)
Definition unescaped_at (s : string) (target : ascii) (i : nat) : bool :=
  match String.get i s with Some b => byte_eqb b target && is_unescaped s i | None => false end.

Definition find_first_unescaped (s : string) (target : ascii) : option nat :=
  List.find (unescaped_at s target) (seq 0 (String.length s)).

Definition find_last_unescaped (s : string) (target : ascii) : option nat :=
  List.find (unescaped_at s target) (rev (seq 0 (String.length s))).

Definition unescape_rule_content (s : string) : string :=
  if negb (contains_byte "\" s) then s
  else replace "\\" "\" (replace "\)" ")" (replace "\(" "(" s)).

Definition strip_domain_prefix (pattern : string) : string * PatternMode :=
  match strip_prefix "domain:" pattern with
  | Some domain => (domain, Domain)
  | None => (pattern, Glob)
  end.

Definition strip_bash_colon_wildcard (pattern : string) : string :=
  unwrap_or pattern (strip_suffix ":*" pattern).

Definition unsupported_tool (name : string) : bool :=
  (name =s? "EnterWorktree") || (name =s? "NotebookEdit") || (name =s? "NotebookRead").

(** The rule of [Tool(content)] once the prefix and the content are split. *)
Definition parse_tool_rule (action : RuleAction) (prefix_trimmed raw_content : string)
  : result RuleParseError PermissionRule :=
  let pattern := if is_empty raw_content || (raw_content =s? "*") then ""
                 else unescape_rule_content raw_content in
  match tool_name_to_filter prefix_trimmed with
  | None => if unsupported_tool prefix_trimmed then Err (UnsupportedToolPrefix prefix_trimmed)
            else Err (UnknownToolPrefix prefix_trimmed)
  | Some tool =>
      let pattern := if bool_decide (tool = FBash) then strip_bash_colon_wildcard pattern else pattern in
      let '(pattern, mode) := strip_domain_prefix pattern in
      Ok (MkRule action tool (if is_empty pattern then None else Some pattern) mode)
  end.

(** A rule without parentheses. *)
Definition parse_bare_rule (rule : string) (action : RuleAction) : result RuleParseError PermissionRule :=
  if unsupported_tool rule then Err (UnsupportedToolPrefix rule)
  else match tool_name_to_filter rule with
  | Some tool => Ok (MkRule action tool None Glob)
  | None =>
      match ofilter (fun rest => negb (is_empty rest)) (strip_prefix "mcp__" rule) with
      | Some rest =>
          let pattern := if rest =s? "*" then None
                         else if contains_str "__" rest then Some rest
                         else Some (rest +:+ "__*") in
          Ok (MkRule action FMcp pattern Glob)
      | None => Ok (MkRule action FAny (if is_empty rule then None else Some rule) Glob)
      end
  end.

Definition parse_permission_rule (rule : string) (action : RuleAction) : result RuleParseError PermissionRule :=
  let rule := trim rule in
  match find_first_unescaped rule "(" with
  | Some open_paren =>
      let prefix_trimmed := trim (stake open_paren rule) in
      let content_and_close := sdrop (open_paren + 1) rule in
      close_paren ← ok_or (MalformedRule "missing closing parenthesis") (find_last_unescaped content_and_close ")");
      parse_tool_rule action prefix_trimmed (trim (stake close_paren content_and_close))
  | None => parse_bare_rule rule action
  end.

(** ** Unescaping *)

(** [replace] with a pattern of two bytes. *)
Section replace2.
Context (p q : ascii) (to : string).
Let from : string := String p (String q "").

Lemma replace2_match s : replace from to (String p (String q s)) = to +:+ replace from to s.
Proof.
  unfold replace, from. cbn [replace_from]. unfold starts_with. cbn [strip_prefix]. rewrite !byte_eqb_refl. done.
Qed.

Lemma replace2_other c s : c <> p -> replace from to (String c s) = String c (replace from to s).
Proof.
  intros N. unfold replace, from. cbn [replace_from]. unfold starts_with. cbn [strip_prefix].
  by destruct (byte_eqb_spec p c).
Qed.

Lemma replace2_half s : (forall r, s <> String q r) -> replace from to (String p s) = String p (replace from to s).
Proof.
  intros N. unfold replace, from. cbn [replace_from]. unfold starts_with. cbn [strip_prefix]. rewrite byte_eqb_refl.
  destruct s as [|d s]; [done|]. destruct (byte_eqb_spec q d) as [<-|]; [by destruct (N s)|done].
Qed.
End replace2.

(** The three replacements of [unescape_rule_content]. *)
Definition unescape3 (s : string) : string := replace "\\" "\" (replace "\)" ")" (replace "\(" "(" s)).

(** Unescaping one character at a time. *)
Fixpoint unescape (s : string) : string :=
  match s with
  | String a s' =>
      if byte_eqb a "\" then
        match s' with
        | String b s'' => if byte_eqb b "(" || byte_eqb b ")" || byte_eqb b "\" then String b (unescape s'')
                          else String a (unescape s')
        | EmptyString => s
        end
      else String a (unescape s')
  | EmptyString => ""
  end.

Lemma unescape3_plain a s : a <> "\"%char -> unescape3 (String a s) = String a (unescape3 s).
Proof. intros N. unfold unescape3. by rewrite !replace2_other. Qed.

Lemma unescape3_open s : unescape3 (String "\" (String "(" s)) = String "(" (unescape3 s).
Proof. unfold unescape3. rewrite replace2_match. change ("(" +:+ ?x) with (String "(" x). by rewrite !replace2_other. Qed.

Lemma unescape3_close s : unescape3 (String "\" (String ")" s)) = String ")" (unescape3 s).
Proof.
  unfold unescape3. rewrite replace2_half by (by intros r [=]). rewrite (replace2_other "\" "("), replace2_match by done.
  change (")" +:+ ?x) with (String ")" x). by rewrite replace2_other.
Qed.

Lemma unescape3_half c s : c <> "\"%char -> c <> "("%char -> c <> ")"%char ->
  unescape3 (String "\" (String c s)) = String "\" (String c (unescape3 s)).
Proof.
  intros N1 N2 N3. unfold unescape3.
  rewrite replace2_half by (intros r [=]; congruence). rewrite (replace2_other "\" "(") by done.
  rewrite replace2_half by (intros r [=]; congruence). rewrite (replace2_other "\" ")") by done.
  rewrite replace2_half by (intros r [=]; congruence). by rewrite (replace2_other "\" "\").
Qed.

(** The first byte after the first replacement of a text that starts with a
    backslash. *)
Lemma replace_open_head s : exists r, replace "\(" "(" (String "\" s) = String "\" r \/
  replace "\(" "(" (String "\" s) = String "(" r.
Proof.
  destruct s as [|c s]; [by exists ""; left|]. destruct (byte_eqb_spec c "(") as [->|N].
  - rewrite replace2_match. eexists. by right.
  - rewrite replace2_half by (intros r [=]; congruence). eexists. by left.
Qed.

Lemma unescape3_backslash s : unescape3 (String "\" (String "\" s)) = String "\" (unescape3 s).
Proof.
  unfold unescape3. rewrite replace2_half by (by intros r [=]).
  destruct s as [|c s]; [done|]. destruct (byte_eqb_spec c "(") as [->|No].
  { rewrite replace2_match. change ("(" +:+ ?x) with (String "(" x).
    rewrite (replace2_other "\" "(" _ "(") by done.
    rewrite replace2_half by (by intros r [=]). rewrite !(replace2_other "\" ")") by done.
    rewrite replace2_half by (by intros r [=]). by rewrite !(replace2_other "\" "\"). }
  rewrite (replace2_half "\" "(" _ (String c s)) by (intros r [=]; congruence).
  destruct (byte_eqb_spec c ")") as [->|Nc].
  { rewrite (replace2_other "\" "(") by done. rewrite replace2_half by (by intros r [=]).
    rewrite replace2_match. change (")" +:+ ?x) with (String ")" x).
    rewrite !(replace2_other "\" ")") by done.
    rewrite replace2_half by (by intros r [=]). by rewrite !(replace2_other "\" "\"). }
  rewrite replace2_half by (by intros r [=]).
  assert (H : forall r, replace "\(" "(" (String c s) <> String ")" r).
  { intros r. destruct (byte_eqb_spec c "\") as [->|Nb].
    - destruct (replace_open_head s) as (r'&[-> | ->]); by intros [=].
    - rewrite replace2_other by done. by intros [= ->]. }
  rewrite (replace2_half "\" ")" _ _ H). by rewrite replace2_match.
Qed.

Lemma unescape_id s : contains_byte "\" s = false -> unescape s = s.
Proof.
  induction s as [|a s IH]; [done|]. unfold contains_byte in *. cbn [sany unescape].
  intros [Ha Hs]%orb_false_iff. destruct (byte_eqb_spec a "\") as [->|N]; [done|]. by rewrite (IH Hs).
Qed.

Lemma unescape3_eq s : unescape3 s = unescape s.
Proof.
  remember (String.length s) as n eqn:Hn. revert s Hn.
  induction n as [n IH] using lt_wf_ind. intros [|a s] ->; [done|]. cbn [unescape String.length] in *.
  destruct (byte_eqb_spec a "\") as [->|Na].
  - destruct s as [|b s]; [done|]. cbn [String.length] in IH.
    destruct (byte_eqb_spec b "(") as [->|N1]; [cbn [orb]; rewrite unescape3_open; f_equal; eapply IH; [|done]; lia|].
    destruct (byte_eqb_spec b ")") as [->|N2]; [cbn [orb]; rewrite unescape3_close; f_equal; eapply IH; [|done]; lia|].
    destruct (byte_eqb_spec b "\") as [->|N3];
      [cbn [orb]; rewrite unescape3_backslash; f_equal; eapply IH; [|done]; lia|].
    cbn [orb]. rewrite unescape3_half by done. f_equal. rewrite <- unescape3_plain by done. eapply IH; [|done].
    cbn. lia.
  - rewrite unescape3_plain by done. f_equal. eapply IH; [|done]. lia.
Qed.

(** The three replacements of [unescape_rule_content], done one after the
    other over the whole text, compute the same as unescaping it from left to
    right one character at a time. *)
Theorem unescape_one_pass s : unescape_rule_content s = unescape s.
Proof.
  unfold unescape_rule_content. destruct (contains_byte "\" s) eqn:E; cbn [negb]; [|by rewrite unescape_id].
  apply unescape3_eq.
Qed.

(** ** Rules read back *)

(** Escaping, the inverse the parser is written for. *)
Definition special (a : ascii) : bool := byte_eqb a "(" || byte_eqb a ")" || byte_eqb a "\".
Fixpoint escape (s : string) : string :=
  match s with
  | EmptyString => ""
  | String a s' => if special a then String "\" (String a (escape s')) else String a (escape s')
  end.

Lemma unescape_escape s : unescape (escape s) = s.
Proof.
  induction s as [|a s IH]; [done|]. cbn [escape]. destruct (special a) eqn:E.
  - change (unescape (String "\" (String a (escape s)))) with
      (if special a then String a (unescape (escape s)) else String "\" (unescape (String a (escape s)))).
    by rewrite E, IH.
  - cbn [unescape]. unfold special in E. apply orb_false_iff in E as [_ ->]. by rewrite IH.
Qed.

Lemma unescape_content_escape s : unescape_rule_content (escape s) = s.
Proof.
  unfold unescape_rule_content. destruct (contains_byte "\" (escape s)) eqn:E; cbn [negb].
  - change (unescape3 (escape s) = s). by rewrite unescape3_eq, unescape_escape.
  - by rewrite <- (unescape_id _ E), unescape_escape.
Qed.

(** The backslashes a text ends with. *)
Definition trailing (s : string) : nat := backslashes_before s (String.length s).

Lemma backslashes_app s t j : (j <= String.length s)%nat -> backslashes_before (s +:+ t) j = backslashes_before s j.
Proof.
  induction j as [|j IH]; [done|]. intros H. cbn. rewrite get_app_l by lia. destruct (String.get j s); [|done].
  by rewrite IH by lia.
Qed.

Lemma trailing_snoc s a : trailing (s +:+ String a "") = if byte_eqb a "\" then S (trailing s) else 0.
Proof.
  unfold trailing. rewrite length_sapp. cbn [String.length]. rewrite Nat.add_1_r. cbn [backslashes_before].
  rewrite get_app_r. cbn. by rewrite backslashes_app.
Qed.

Lemma trailing_escape p c : Nat.even (trailing p) = true -> Nat.even (trailing (p +:+ escape c)) = true.
Proof.
  revert p. induction c as [|a c IH]; intros p Hp; cbn [escape]; [by rewrite sapp_nil_r|].
  assert (S : forall x t, x +:+ String a t = (x +:+ String a "") +:+ t) by (intros; by rewrite sapp_assoc).
  destruct (special a) eqn:E.
  - replace (p +:+ String "\" (String a (escape c))) with (((p +:+ String "\" "") +:+ String a "") +:+ escape c)
      by by rewrite !sapp_assoc.
    apply IH. rewrite trailing_snoc. destruct (byte_eqb a "\"); [|done]. by rewrite trailing_snoc.
  - rewrite S. apply IH. rewrite trailing_snoc. unfold special in E. by apply orb_false_iff in E as [_ ->].
Qed.

Lemma find_seq_first (f : nat -> bool) n k : (k < n)%nat -> f k = true ->
  (forall i, (i < k)%nat -> f i = false) -> List.find f (seq 0 n) = Some k.
Proof.
  intros Hk Ht Hf. replace n with (k + (n - k))%nat by lia. rewrite seq_app.
  assert (N : List.find f (seq 0 k) = None).
  { destruct (List.find f (seq 0 k)) as [i|] eqn:E; [|done]. apply find_some in E as [Hi%in_seq Hfi].
    rewrite Hf in Hfi by lia. done. }
  assert (A : forall l m, List.find f l = None -> List.find f (l ++ m) = List.find f m).
  { induction l as [|x l IH]; intros m; [done|]. cbn. destruct (f x); [done|apply IH]. }
  rewrite A by done. replace (n - k)%nat with (S (n - k - 1)) by lia. cbn. by rewrite Ht.
Qed.

(** The byte of a tool name: a letter, so plain and not special. *)
Definition name_byte (a : ascii) : bool := plain_byte a && negb (special a).

Lemma name_byte_not c : name_byte c = true -> byte_eqb c "(" = false /\ byte_eqb c "\" = false.
Proof. unfold name_byte, special. intros H. by reflect_bools. Qed.

Lemma tool_name_bytes name tool : tool_name_to_filter name = Some tool ->
  sall name_byte name = true /\ name <> "".
Proof.
  unfold tool_name_to_filter. intros H.
  repeat match type of H with context [name =s? ?n] =>
    destruct (String.eqb_spec name n) as [->|_]; [split; [vm_compute; reflexivity|done]|] end.
  done.
Qed.

Lemma find_open_paren name rest : sall name_byte name = true ->
  find_first_unescaped (name +:+ String "(" rest) "(" = Some (String.length name).
Proof.
  intros H. unfold find_first_unescaped. apply find_seq_first.
  - rewrite length_sapp. cbn. lia.
  - unfold unescaped_at. rewrite get_app_r. cbn. unfold is_unescaped. rewrite backslashes_app by done.
    destruct (String.length name) as [|k] eqn:E; [done|]. cbn.
    destruct (String.get k name) as [c|] eqn:G; [|done].
    by destruct (name_byte_not c (sall_get _ _ _ _ H G)) as [_ ->].
  - intros i Hi. unfold unescaped_at. rewrite get_app_l by done.
    destruct (String.get i name) as [c|] eqn:G; [|done].
    by destruct (name_byte_not c (sall_get _ _ _ _ H G)) as [-> _].
Qed.

Lemma find_close_paren content :
  find_last_unescaped (escape content +:+ ")") ")" = Some (String.length (escape content)).
Proof.
  unfold find_last_unescaped. rewrite length_sapp. cbn [String.length]. rewrite Nat.add_1_r, seq_S, rev_app_distr.
  cbn [rev app List.find Nat.add]. unfold unescaped_at. rewrite get_app_r. cbn [String.get]. rewrite byte_eqb_refl.
  unfold is_unescaped. rewrite backslashes_app by done.
  change (backslashes_before (escape content) _) with (trailing (escape content)).
  pose proof (trailing_escape "" content eq_refl) as H. rewrite sapp_nil_l in H. by rewrite H.
Qed.

(** A rule written for a known tool with its pattern escaped parses to
    exactly that tool and pattern, whatever parentheses, backslashes and other
    text the pattern holds; only the notations the syntax reserves (a lone
    star, a domain prefix, a Bash colon wildcard) are excluded. *)
Theorem rule_roundtrip name tool content action :
  tool_name_to_filter name = Some tool ->
  trim (escape content) = escape content -> content <> "" -> content <> "*" ->
  strip_prefix "domain:" content = None -> (tool = FBash -> strip_suffix ":*" content = None) ->
  parse_permission_rule (name +:+ "(" +:+ escape content +:+ ")") action
  = Ok (MkRule action tool (Some content) Glob).
Proof.
  intros Ht Htr N1 N2 Hd Hb. destruct (tool_name_bytes _ _ Ht) as [Hn Ne].
  assert (P : sall plain_byte name = true).
  { eapply sall_impl; [|exact Hn]. unfold name_byte. intros c Hc. by apply andb_true_iff in Hc as [? _]. }
  unfold parse_permission_rule.
  assert (T : trim (name +:+ "(" +:+ escape content +:+ ")") = name +:+ "(" +:+ escape content +:+ ")").
  { destruct name as [|a name]; [done|]. cbn [sall] in P. apply andb_true_iff in P as [Pa _].
    rewrite <- !sapp_assoc. rewrite (sapp_assoc (String a name)). rewrite sapp_cons. by apply trim_between. }
  rewrite T. change ("(" +:+ ?x) with (String "(" x). rewrite find_open_paren by done.
  rewrite stake_app, trim_plain by done.
  replace (sdrop (String.length name + 1) (name +:+ String "(" (escape content +:+ ")"))) with (escape content +:+ ")").
  2: { clear. induction name as [|a name IH]; [done|]. rewrite sapp_cons. exact IH. }
  rewrite find_close_paren. cbn [ok_or mbind result_bind]. rewrite stake_app, Htr.
  unfold parse_tool_rule. rewrite unescape_content_escape, Ht.
  assert (E1 : is_empty (escape content) = false).
  { unfold is_empty. apply String.eqb_neq. destruct content as [|a c]; [done|]. cbn. by destruct (special a). }
  assert (E2 : (escape content =s? "*") = false).
  { apply String.eqb_neq. destruct content as [|a c]; [done|]. cbn. destruct (special a) eqn:Sa; [done|].
    intros [= -> Hc]. apply N2. f_equal. destruct c as [|b c]; [done|]. cbn in Hc. by destruct (special b). }
  rewrite E1, E2. cbn [orb].
  assert (W : (if bool_decide (tool = FBash) then strip_bash_colon_wildcard content else content) = content).
  { case_bool_decide as Eb; [|done]. unfold strip_bash_colon_wildcard. by rewrite (Hb Eb). }
  rewrite W. unfold strip_domain_prefix. rewrite Hd. unfold is_empty. by destruct (String.eqb_spec content "").
Qed.

Lemma rule_roundtrip_witness :
  parse_permission_rule "Bash(echo \(a\\b\) > x)" RDeny = Ok (MkRule RDeny FBash (Some "echo (a\b) > x") Glob).
Proof.
  apply (rule_roundtrip "Bash" FBash "echo (a\b) > x" RDeny);
    vm_compute; try reflexivity; try discriminate; intros _; reflexivity.
Defined.

(** The header of a hook's question gives the action back. *)
Theorem prompt_header_roundtrip h action : strip_prompt_header h (prompt_header h action) = action.
Proof.
  unfold strip_prompt_header, prompt_header. rewrite <- sapp_assoc.
  rewrite (proj2 (strip_suffix_some _ _ (action +:+ HOOK_ASK_SEPARATOR)) eq_refl). cbn [mbind option_bind].
  by rewrite (proj2 (strip_suffix_some _ _ action) eq_refl).
Qed.
