(* ===== verification/BashCommand.v ===== *)
(** * [xai-grok-workspace], [permission/bash_command_splitting.rs]

    How a shell command line is taken apart before rules see it: the plain
    commands of a script, and the wrappers ([timeout], [env], [nice], ...) and
    transparent prefixes ([exec], [command], [builtin]) that are peeled off each
    of them.  tree-sitter is a parameter: a function from a script to a syntax
    tree, whose nodes are what its API shows of them.

    Rust slices of argument lists are lists here; every loop over a list that
    advances an index by one or two is a recursion on the rest of the list. *)

From Stdlib Require Import Sorted.
From S2P Require Import Prelude RustStr.

(** ** Syntax trees *)

(** A node, with the name of the field it is in its parent. *)
Inductive Node : Type :=
  MkNode { nd_kind : string; is_named : bool; nd_field : option string;
           start_byte : nat; end_byte : nat; nd_children : list Node }.

Record Tree : Type := MkTree { root_node : Node; has_error : bool }.

(** [tree-sitter] with the bash grammar. *)
Class TreeSitter := try_parse_shell : string -> option Tree.

(** [Node::utf8_text] *)
Definition slice (s : string) (a b : nat) : string := stake (b - a) (sdrop a s).
Definition utf8_text (src : string) (n : Node) : option string :=
  let t := slice src (start_byte n) (end_byte n) in then_some (utf8 t) t.

Definition named_children (n : Node) : list Node := List.filter is_named (nd_children n).

(** The number of nodes, for the walks that use a stack. *)
Fixpoint node_size (n : Node) : nat := S (list_sum (node_size <$> nd_children n)).
Definition stack_size (st : list Node) : nat := list_sum (node_size <$> st).

Definition is_one_of (l : list string) (s : string) : bool := existsb (String.eqb s) l.

(** ** Plain commands *)

Record BashCommandHighlights : Type := MkHighlights {
  hl_prefix : list string; highlighted_words : list string; hl_suffix : list string }.

Record PlainCommand : Type := MkPlainCommand {
  words : list string; span_start : nat; span_end : nat }.

(** [str::get(..i)] and [str::get(i..)] *)
Definition str_get_to (s : string) (i : nat) : option string :=
  then_some ((i <=? String.length s)%nat && is_char_boundary s i) (stake i s).
Definition str_get_from (s : string) (i : nat) : option string :=
  then_some ((i <=? String.length s)%nat && is_char_boundary s i) (sdrop i s).

Definition spans_whole_script (c : PlainCommand) (script : string) : bool :=
  match str_get_to script (span_start c), str_get_from script (span_end c) with
  | Some before, Some after => is_empty (trim before) && is_empty (trim after)
  | _, _ => false
  end.

Definition ALLOWED_KINDS : list string :=
  ["program"; "list"; "pipeline"; "command"; "command_name"; "word"; "string"; "string_content"; "raw_string";
   "number"; "concatenation"; "variable_assignment"; "variable_name"; "redirected_statement"; "file_redirect";
   "file_descriptor"; "comment"; "heredoc_redirect"; "heredoc_start"; "heredoc_body"; "heredoc_content";
   "heredoc_end"].

(** The double quote. *)
Definition DQ : ascii := "034"%char.
Definition QUOTE : string := String DQ "".

Definition ALLOWED_PUNCT_TOKENS : list string :=
  ["&&"; "||"; ";"; "|"; QUOTE; "'"; "="; ">"; ">>"; "<"; "<<"; ">&"; "&>"; "&>>"].

(** The test the walk makes at each node. *)
Definition node_allowed (n : Node) : bool :=
  let kind := nd_kind n in
  if is_named n then is_one_of ALLOWED_KINDS kind
  else
    negb (sany (fun c => byte_eqb c "&" || byte_eqb c ";" || byte_eqb c "|") kind
          && negb (is_one_of ALLOWED_PUNCT_TOKENS kind))
    && (is_one_of ALLOWED_PUNCT_TOKENS kind || is_empty (trim kind)).
Definition is_command_node (n : Node) : bool := is_named n && (nd_kind n =s? "command").

(** The walk, with its stack (the top first); the outer [None] is no fuel. *)
Fixpoint walk_commands (fuel : nat) (stack acc : list Node) : option (option (list Node)) :=
  match fuel with
  | O => match stack with [] => Some (Some acc) | _ => None end
  | S fuel =>
      match stack with
      | [] => Some (Some acc)
      | node :: stack =>
          if negb (node_allowed node) then Some None
          else walk_commands fuel (rev (nd_children node) ++ stack)
                 (if is_command_node node then acc ++ [node] else acc)
      end
  end.

(** [sort_by_key]: a stable sort. *)
Section sort.
Context {A} (key : A -> nat).
Fixpoint insert_by (x : A) (l : list A) : list A :=
  match l with
  | [] => [x]
  | y :: l' => if (key x <=? key y)%nat then x :: l else y :: insert_by x l'
  end.
Definition sort_by_key (l : list A) : list A := foldr insert_by [] l.
End sort.

(** The words and the span a [command] node has given so far. *)
Definition add_word (p : list string * option nat * option nat) (n : Node) (text : string) :=
  let '(ws, s, e) := p in
  (ws ++ [text], or_else s (Some (start_byte n)), Some (end_byte n)).

Definition simple_string (child : Node) : option Node :=
  match nd_children child with
  | [q1; c; q2] =>
      then_some ((nd_kind q1 =s? QUOTE) && (nd_kind c =s? "string_content") && (nd_kind q2 =s? QUOTE)) c
  | _ => None
  end.

Definition command_child (src : string) (p : list string * option nat * option nat) (child : Node)
  : option (list string * option nat * option nat) :=
  let kind := nd_kind child in
  if kind =s? "variable_assignment" then Some p
  else if kind =s? "command_name" then
    word_node ← head (named_children child);
    if nd_kind word_node =s? "word" then add_word p word_node <$> utf8_text src word_node else None
  else if (kind =s? "word") || (kind =s? "number") then add_word p child <$> utf8_text src child
  else if kind =s? "string" then
    content ← simple_string child; add_word p child <$> utf8_text src content
  else if kind =s? "raw_string" then
    raw ← utf8_text src child;
    s ← strip_prefix "'" raw ≫= strip_suffix "'";
    Some (add_word p child s)
  else if kind =s? "concatenation" then add_word p child <$> utf8_text src child
  else None.

Fixpoint command_children (src : string) (p : list string * option nat * option nat) (l : list Node)
  : option (list string * option nat * option nat) :=
  match l with
  | [] => Some p
  | child :: l' => command_child src p child ≫= fun p => command_children src p l'
  end.

Definition parse_plain_command_from_node (cmd : Node) (src : string) : option PlainCommand :=
  if negb (nd_kind cmd =s? "command") then None
  else
    '(ws, s, e) ← command_children src ([], None, None) (named_children cmd);
    Some (MkPlainCommand ws (unwrap_or (start_byte cmd) s) (unwrap_or (end_byte cmd) e)).

Definition try_parse_word_only_commands_sequence (tree : Tree) (src : string) : option (list PlainCommand) :=
  if has_error tree then None
  else
    let root := root_node tree in
    match walk_commands (node_size root) [root] [] with
    | Some (Some nodes) => mapM (fun n => parse_plain_command_from_node n src) (sort_by_key start_byte nodes)
    | _ => None
    end.

Definition all_commands_from_script `{TreeSitter} (script : string) : option (list PlainCommand) :=
  tree ← try_parse_shell script;
  try_parse_word_only_commands_sequence tree script.

Definition is_setup_command (cmd : list string) : bool :=
  match cmd with
  | [] => true
  | h :: _ => is_one_of ["cd"; "pushd"; "popd"; "export"; "unset"; "set"; "sleep"; "timeout"] h
  end.

(** ** [env] *)

Definition is_ascii_alpha (c : ascii) : bool := in_range 65 90 c || in_range 97 122 c.
Definition is_ascii_digit (c : ascii) : bool := in_range 48 57 c.

Definition is_env_assignment (tok : string) : bool :=
  match split_once "=" tok with
  | None => false
  | Some (name, _) =>
      match name with
      | EmptyString => false
      | String b _ =>
          (is_ascii_alpha b || byte_eqb b "_")
          && sall (fun b => is_ascii_alpha b || is_ascii_digit b || byte_eqb b "_") name
      end
  end.

Record EnvScan : Type := MkEnvScan {
  es_chdir : option string; es_has_split_string : bool; es_options_uncertain : bool;
  es_split_string_script : option string; command_start : nat }.

(** The loop of [decode_shell_literal_spelling]; [q] is the open quote. *)
Fixpoint decode_shell (q : option ascii) (raw : string) : option string :=
  match raw with
  | EmptyString => match q with None => Some "" | Some _ => None end
  | String ch rest =>
      match q with
      | None =>
          if byte_eqb ch "'" || byte_eqb ch DQ then decode_shell (Some ch) rest
          else if byte_eqb ch "\" then
            match rest with String n rest' => String n <$> decode_shell None rest' | EmptyString => None end
          else String ch <$> decode_shell None rest
      | Some open =>
          if byte_eqb open ch then decode_shell None rest
          else if byte_eqb open DQ && byte_eqb ch "\" then
            match rest with
            | String n rest' =>
                if byte_eqb n "$" || byte_eqb n "`" || byte_eqb n DQ || byte_eqb n "\" || byte_eqb n LF
                then String n <$> decode_shell q rest'
                else (fun s => String "\" (String n s)) <$> decode_shell q rest'
            | EmptyString => None
            end
          else String ch <$> decode_shell q rest
      end
  end.
Definition decode_shell_literal_spelling (raw : string) : option string := decode_shell None raw.

Definition decode_env_option_token (raw : string) : string :=
  if negb (sany (fun c => byte_eqb c "'" || byte_eqb c DQ) raw) then raw
  else unwrap_or raw (decode_shell_literal_spelling raw).

Definition NUL : ascii := "000"%char.

Definition is_high_confidence_env_s_payload (s : string) : bool :=
  negb (is_empty s) && negb (contains_byte NUL s)
  && negb (sany (fun c => byte_eqb c "'" || byte_eqb c DQ || byte_eqb c "\" || byte_eqb c "#" || byte_eqb c "`"
                          || byte_eqb c "$" || byte_eqb c LF || byte_eqb c CR) s).

Definition take_high_confidence_payload (raw : string) : option string :=
  then_some (is_high_confidence_env_s_payload raw) raw.

Inductive EnvShort : Type :=
| SplitStringNext | SplitStringGlued (payload : string) | SplitStringDetect | NoArg
| ArgNeedNext (kind : ascii) | ArgGlued (kind : ascii) | Uncertain.

(** The loop of [classify_env_short] over the letters of a cluster. *)
Fixpoint classify_cluster (body : string) : EnvShort :=
  match body with
  | EmptyString => NoArg
  | String c rest =>
      if byte_eqb c "i" || byte_eqb c "v" || byte_eqb c "0" then classify_cluster rest
      else if byte_eqb c "S" then SplitStringDetect
      else if byte_eqb c "u" || byte_eqb c "C" || byte_eqb c "P" || byte_eqb c "a" then
        if is_empty rest then ArgNeedNext c else ArgGlued c
      else Uncertain
  end.

Definition classify_env_short (tok : string) : EnvShort :=
  if negb (starts_with "-" tok) || starts_with "--" tok || (tok =s? "-") then Uncertain
  else
    let body := sdrop 1 tok in
    if is_empty body then Uncertain
    else match strip_prefix "S" body with
         | Some rest => if is_empty rest then SplitStringNext else SplitStringGlued rest
         | None => classify_cluster body
         end.

(** The loop of [env_scan] on the arguments from index [i] on; [chdir] is what
    was seen so far. *)
Fixpoint env_loop (chdir : option string) (i : nat) (cmd : list string) : EnvScan :=
  let uncertain := MkEnvScan chdir false true None i in
  let split script := MkEnvScan chdir true false script i in
  match cmd with
  | [] => MkEnvScan chdir false false None i
  | tok_raw :: rest =>
      if tok_raw =s? "--" then MkEnvScan chdir false false None (i + 1)
      else if tok_raw =s? "-" then env_loop chdir (i + 1) rest
      else if negb (starts_with "-" tok_raw) then
        if is_env_assignment tok_raw then env_loop chdir (i + 1) rest
        else MkEnvScan chdir false false None i
      else if starts_with "--" tok_raw then
        if tok_raw =s? "--chdir" then
          match rest with dir :: rest' => env_loop (Some dir) (i + 2) rest' | [] => uncertain end
        else match strip_prefix "--chdir=" tok_raw with
        | Some dir => env_loop (Some dir) (i + 1) rest
        | None =>
            if is_one_of ["--unset"; "--path"; "--argv0"] tok_raw then
              match rest with _ :: rest' => env_loop chdir (i + 2) rest' | [] => uncertain end
            else if starts_with "--unset=" tok_raw || starts_with "--path=" tok_raw
                    || starts_with "--argv0=" tok_raw then env_loop chdir (i + 1) rest
            else if is_one_of ["--ignore-environment"; "--null"; "--debug"; "--version"; "--help"] tok_raw
            then env_loop chdir (i + 1) rest
            else if tok_raw =s? "--split-string" then split (head rest ≫= take_high_confidence_payload)
            else match strip_prefix "--split-string=" tok_raw with
            | Some payload =>
                let payload := unwrap_or payload (strip_prefix "--split-string=" (decode_env_option_token tok_raw)) in
                split (take_high_confidence_payload payload)
            | None => uncertain
            end
        end
      else
        match classify_env_short (decode_env_option_token tok_raw) with
        | SplitStringNext => split (head rest ≫= take_high_confidence_payload)
        | SplitStringGlued payload => split (take_high_confidence_payload payload)
        | SplitStringDetect => split None
        | NoArg => env_loop chdir (i + 1) rest
        | ArgNeedNext kind =>
            match rest with
            | operand :: rest' => env_loop (if byte_eqb kind "C" then Some operand else chdir) (i + 2) rest'
            | [] => uncertain
            end
        | ArgGlued kind =>
            env_loop (if byte_eqb kind "C"
                      then Some (unwrap_or "" (ofilter (fun d => negb (is_empty d)) (strip_prefix "-C" tok_raw)))
                      else chdir) (i + 1) rest
        | Uncertain => uncertain
        end
  end.

Definition env_scan (cmd : list string) : EnvScan := env_loop None 1 (drop 1 cmd).

Definition head_is (name : string) (cmd : list string) : bool :=
  match cmd with h :: _ => basename h =s? name | [] => false end.

Definition env_split_string_script (cmd : list string) : option string :=
  if negb (head_is "env" cmd) then None
  else
    let scan := env_scan cmd in
    if negb (es_has_split_string scan) then None else es_split_string_script scan.

(** ** Wrappers *)

(** Skip leading options; the ones in [with_arg] take the next word. *)
Fixpoint skip_options (with_arg : list string) (cmd : list string) : list string :=
  match cmd with
  | o :: rest =>
      if starts_with "-" o then
        if is_one_of with_arg o then
          match rest with _ :: rest' => skip_options with_arg rest' | [] => [] end
        else skip_options with_arg rest
      else cmd
  | [] => []
  end.

Definition ne (l : list string) : option (list string) := match l with [] => None | _ => Some l end.

Definition strip_wrapper_command (cmd : list string) : option (list string) :=
  match cmd with
  | [] => None
  | h :: rest =>
      let b := basename h in
      if b =s? "timeout" then
        match skip_options ["-k"; "-s"; "--kill-after"; "--signal"] rest with _ :: inner => ne inner | [] => None end
      else if b =s? "nice" then ne (skip_options ["-n"; "--adjustment"] rest)
      else if b =s? "ionice" then
        ne (skip_options ["-c"; "-n"; "-p"; "-P"; "-u"; "--class"; "--classdata"; "--pid"; "--pgid"; "--uid"] rest)
      else if b =s? "chrt" then match skip_options [] rest with _ :: inner => ne inner | [] => None end
      else if b =s? "stdbuf" then ne (skip_options ["-i"; "-o"; "-e"] rest)
      else if b =s? "env" then
        let scan := env_scan cmd in
        if es_has_split_string scan || es_options_uncertain scan then None else ne (drop (command_start scan) cmd)
      else None
  end.

Definition is_wrapper_command (cmd : list string) : bool :=
  match cmd with
  | h :: _ => is_one_of ["timeout"; "nice"; "ionice"; "chrt"; "stdbuf"; "env"] (basename h)
  | [] => false
  end.

Definition MAX_WRAPPER_DEPTH : nat := 8.
Definition MAX_INLINE_SHELL_DEPTH : nat := 8.

Record CheckedWrapperPeel : Type := MkPeel {
  pw_words : list string; pw_has_chdir : bool; pw_has_split_string : bool;
  pw_env_options_uncertain : bool; pw_exhausted : bool }.

Definition is_some {A} (o : option A) : bool := match o with Some _ => true | None => false end.

(** The loop of [unwrap_wrappers_checked] with [n] rounds left. *)
Fixpoint unwrap_loop (n : nat) (current : list string) (chdir split uncertain : bool) : CheckedWrapperPeel :=
  match n with
  | O => MkPeel current chdir split uncertain
           (is_wrapper_command current && is_some (strip_wrapper_command current))
  | S n =>
      let env := head_is "env" current in
      let scan := env_scan current in
      let chdir := chdir || (env && is_some (es_chdir scan)) in
      let split := split || (env && es_has_split_string scan) in
      let uncertain := uncertain || (env && es_options_uncertain scan) in
      match strip_wrapper_command current with
      | Some inner => unwrap_loop n inner chdir split uncertain
      | None => MkPeel current chdir split uncertain false
      end
  end.

Definition unwrap_wrappers_checked (ws : list string) : CheckedWrapperPeel :=
  unwrap_loop MAX_WRAPPER_DEPTH ws false false false.

Definition unwrap_wrappers (ws : list string) : list string := pw_words (unwrap_wrappers_checked ws).
Definition unwrap_command_wrappers (ws : list string) : list string := unwrap_wrappers ws.

(** ** Transparent prefixes *)

Inductive TransparentStrip : Type := NotPrefix | Peeled (inner : list string) | Ambiguous.

Definition NUL_WORD : string := String NUL "".

(** What remains when the options are read: the command, if there is one. *)
Definition peeled_or_not (inner : list string) : TransparentStrip :=
  match inner with [] => NotPrefix | _ => Peeled inner end.

Fixpoint exec_options (cmd : list string) : TransparentStrip :=
  match cmd with
  | [] => NotPrefix
  | tok :: rest =>
      if tok =s? "--" then peeled_or_not rest
      else if (tok =s? "-") || negb (starts_with "-" tok) then Peeled cmd
      else if is_one_of ["-c"; "-l"; "-cl"; "-lc"] tok then exec_options rest
      else if tok =s? "-a" then
        match rest with
        | v :: rest' => if negb (v =s? NUL_WORD) && negb (is_empty v) then exec_options rest' else Ambiguous
        | [] => Ambiguous
        end
      else match ofilter (fun r => negb (is_empty r)) (strip_prefix "-a" tok) with
      | Some r => if r =s? NUL_WORD then Ambiguous else exec_options rest
      | None =>
          if negb (starts_with "--" tok) && sall (fun c => byte_eqb c "c" || byte_eqb c "l") (sdrop 1 tok)
          then exec_options rest else Ambiguous
      end
  end.
Definition strip_exec_prefix (cmd : list string) : TransparentStrip := exec_options (drop 1 cmd).

Fixpoint command_options (cmd : list string) : TransparentStrip :=
  match cmd with
  | [] => NotPrefix
  | tok :: rest =>
      if tok =s? "--" then peeled_or_not rest
      else if (tok =s? "-") || negb (starts_with "-" tok) then Peeled cmd
      else if is_one_of ["-v"; "-V"; "--help"; "--version"] tok
              || (negb (starts_with "--" tok) && sany (fun c => byte_eqb c "v" || byte_eqb c "V") (sdrop 1 tok))
      then NotPrefix
      else if (tok =s? "-p") || (negb (starts_with "--" tok) && sall (fun c => byte_eqb c "p") (sdrop 1 tok))
      then command_options rest
      else Ambiguous
  end.
Definition strip_command_prefix (cmd : list string) : TransparentStrip := command_options (drop 1 cmd).

Definition strip_builtin_prefix (cmd : list string) : TransparentStrip :=
  match drop 1 cmd with
  | [] => NotPrefix
  | tok :: rest => if starts_with "-" tok && negb (tok =s? "-") then Ambiguous else Peeled (tok :: rest)
  end.

Definition strip_transparent_prefix (cmd : list string) : TransparentStrip :=
  match cmd with
  | h :: _ =>
      if is_empty h || (h =s? NUL_WORD) then NotPrefix
      else
        let b := basename h in
        if b =s? "exec" then strip_exec_prefix cmd
        else if b =s? "command" then strip_command_prefix cmd
        else if b =s? "builtin" then strip_builtin_prefix cmd
        else NotPrefix
  | [] => NotPrefix
  end.

Definition MAX_TRANSPARENT_PREFIX_DEPTH : nat := 8.
Definition MAX_NORMALIZE_ROUNDS : nat := MAX_WRAPPER_DEPTH + MAX_TRANSPARENT_PREFIX_DEPTH.

(** The loop of [peel_transparent_prefixes]; [None] is [Ambiguous]. *)
Fixpoint peel_loop (n : nat) (current : list string) : option (list string) :=
  match n with
  | O => match strip_transparent_prefix current with NotPrefix => Some current | _ => None end
  | S n => match strip_transparent_prefix current with
           | NotPrefix => Some current
           | Peeled inner => peel_loop n inner
           | Ambiguous => None
           end
  end.
Definition peel_transparent_prefixes (ws : list string) : option (list string) :=
  peel_loop MAX_TRANSPARENT_PREFIX_DEPTH ws.

Record NormalizedCommandPeel : Type := MkNormalized {
  nw_words : list string; nw_has_chdir : bool; nw_has_split_string : bool;
  nw_env_options_uncertain : bool; nw_exhausted : bool; nw_ambiguous : bool }.

(** The loop of [normalize_command_words] with [n] rounds left.  [current] is a
    suffix of the words, so it is unchanged when its length is. *)
Fixpoint normalize_loop (n : nat) (s : NormalizedCommandPeel) : NormalizedCommandPeel :=
  match n with
  | O => s
  | S n =>
      let wrapped := unwrap_wrappers_checked (nw_words s) in
      let chdir := nw_has_chdir s || pw_has_chdir wrapped in
      let split := nw_has_split_string s || pw_has_split_string wrapped in
      let uncertain := nw_env_options_uncertain s || pw_env_options_uncertain wrapped in
      let exhausted := nw_exhausted s || pw_exhausted wrapped in
      if split || uncertain then MkNormalized (pw_words wrapped) chdir split uncertain exhausted false
      else match peel_transparent_prefixes (pw_words wrapped) with
      | None => MkNormalized (pw_words wrapped) chdir split uncertain exhausted true
      | Some inner =>
          let s' := MkNormalized inner chdir split uncertain exhausted false in
          if (length inner =? length (nw_words s))%nat then s' else normalize_loop n s'
      end
  end.

(** What [normalize_command_words] checks after its loop. *)
Definition finish_normalize (s : NormalizedCommandPeel) : NormalizedCommandPeel :=
  if negb (nw_ambiguous s) && negb (nw_has_split_string s) && negb (nw_env_options_uncertain s) then
    let current := nw_words s in
    let still_wrapper := is_wrapper_command current && is_some (strip_wrapper_command current) in
    let still_transparent := match strip_transparent_prefix current with NotPrefix => false | _ => true end in
    MkNormalized current (nw_has_chdir s) (nw_has_split_string s) (nw_env_options_uncertain s)
      (nw_exhausted s || (still_wrapper || still_transparent)) (nw_ambiguous s)
  else s.

Definition normalize_command_words (ws : list string) : NormalizedCommandPeel :=
  finish_normalize (normalize_loop MAX_NORMALIZE_ROUNDS (MkNormalized ws false false false false false)).

(** ** The primary command of a script *)

(** The loop of [sh_split_simple]: the current word and whether a single or a
    double quote is open. *)
Fixpoint sh_split (cur : string) (in_single in_double : bool) (s : string) : list string :=
  let flush rest := if is_empty cur then rest else cur :: rest in
  match s with
  | EmptyString => flush []
  | String c s1 =>
      if byte_eqb c "'" && negb in_double then sh_split cur (negb in_single) in_double s1
      else if byte_eqb c DQ && negb in_single then sh_split cur in_single (negb in_double) s1
      else if byte_eqb c "\" then
        match s1 with String n s2 => sh_split (cur +:+ String n "") in_single in_double s2 | EmptyString => flush [] end
      else if negb in_single && negb in_double then
        if ws1 c then flush (sh_split "" in_single in_double s1)
        else match s1 with
        | String b s2 =>
            if ws2 c b then flush (sh_split "" in_single in_double s2)
            else match s2 with
            | String d s3 =>
                if ws3 c b d then flush (sh_split "" in_single in_double s3)
                else sh_split (cur +:+ String c "") in_single in_double s1
            | EmptyString => sh_split (cur +:+ String c "") in_single in_double s1
            end
        | EmptyString => sh_split (cur +:+ String c "") in_single in_double s1
        end
      else sh_split (cur +:+ String c "") in_single in_double s1
  end.
Definition sh_split_simple (s : string) : list string := sh_split "" false false s.

(** The first command that is more than setup, with how many words were peeled. *)
Definition primary_of (c : PlainCommand) : option (PlainCommand * nat * list string) :=
  let peeled := unwrap_wrappers (words c) in
  if is_setup_command peeled then None
  else let peeled_off := (length (words c) - length peeled)%nat in
       Some (c, peeled_off, drop peeled_off (words c)).

Definition primary_command_from_script `{TreeSitter} (script : string) : option BashCommandHighlights :=
  tree ← try_parse_shell script;
  commands ← try_parse_word_only_commands_sequence tree script;
  '(primary, peeled_off, peeled_words) ← find_map primary_of commands;
  Some (MkHighlights
    (sh_split_simple (stake (span_start primary) script) ++ take peeled_off (words primary))
    peeled_words
    (sh_split_simple (sdrop (span_end primary) script))).

(** ** Display soft breaks *)

Definition PAYLOAD_NODE_KINDS : list string :=
  ["heredoc_body"; "simple_heredoc_body"; "heredoc_content"; "heredoc_end"; "string"; "raw_string";
   "string_content"; "ansi_c_string"; "translated_string"; "comment"].
Definition is_soft_break_operator_kind (kind : string) : bool := is_one_of ["&&"; "||"; "|"; ";"] kind.
Definition is_payload_node_kind (kind : string) : bool := is_one_of PAYLOAD_NODE_KINDS kind.

(** The walk for operators, top of the stack first. *)
Fixpoint walk_breaks (fuel : nat) (script : string) (stack : list Node) (breaks : list nat) : list nat :=
  match fuel, stack with
  | S fuel, node :: stack =>
      if is_payload_node_kind (nd_kind node) then walk_breaks fuel script stack breaks
      else
        let e := end_byte node in
        let breaks :=
          if is_soft_break_operator_kind (nd_kind node) && (0 <? e)%nat && (e <=? String.length script)%nat
             && is_char_boundary script e
          then breaks ++ [e] else breaks in
        walk_breaks fuel script (nd_children node ++ stack) breaks
  | _, _ => breaks
  end.

(** [Vec::dedup] *)
Fixpoint dedup {A} `{EqDecision A} (l : list A) : list A :=
  match l with
  | x :: (y :: _) as l' => if decide (x = y) then dedup l' else x :: dedup l'
  | _ => l
  end.

Definition soft_break_offsets_after_operators `{TreeSitter} (script : string) : list nat :=
  match try_parse_shell script with
  | None => []
  | Some tree =>
      if has_error tree then []
      else dedup (sort_by_key id (walk_breaks (node_size (root_node tree)) script [root_node tree] []))
  end.

(** The walk for heredoc bodies. *)
Definition HEREDOC_PAYLOAD : list string := ["heredoc_body"; "simple_heredoc_body"; "heredoc_content"].
Fixpoint walk_heredocs (fuel : nat) (script : string) (stack : list Node) (ranges : list (nat * nat)) : list (nat * nat) :=
  match fuel, stack with
  | S fuel, node :: stack =>
      if is_one_of HEREDOC_PAYLOAD (nd_kind node) then
        let '(s, e) := (start_byte node, end_byte node) in
        walk_heredocs fuel script stack
          (if (s <? e)%nat && (e <=? String.length script)%nat then ranges ++ [(s, e)] else ranges)
      else walk_heredocs fuel script (nd_children node ++ stack) ranges
  | _, _ => ranges
  end.

(** Sorting pairs: by the second component, then stably by the first. *)
Definition heredoc_payload_byte_ranges `{TreeSitter} (script : string) : list (nat * nat) :=
  match try_parse_shell script with
  | None => []
  | Some tree =>
      if has_error tree then []
      else dedup (sort_by_key fst (sort_by_key snd
             (walk_heredocs (node_size (root_node tree)) script [root_node tree] [])))
  end.

Definition range_fully_inside (s e : nat) (ranges : list (nat * nat)) : bool :=
  if (e <? s)%nat then false
  else existsb (fun '(rs, re) => (rs <=? s)%nat && (e <=? re)%nat) ranges.

(** The cuts of a line at ascending offsets, from offset [start] on. *)
Fixpoint cut_at (line : string) (start : nat) (rel : list nat) : list string :=
  match rel with
  | [] => if (start <? String.length line)%nat then [sdrop start line] else []
  | b :: rel' => if (start <? b)%nat then slice line start b :: cut_at line b rel' else cut_at line start rel'
  end.

Definition split_physical_line_at_soft_breaks (line : string) (line_start : nat) (breaks : list nat) : list string :=
  let line_end := (line_start + String.length line)%nat in
  let rel := dedup (List.filter (is_char_boundary line)
               ((fun b => (b - line_start)%nat)
                <$> List.filter (fun b => (line_start <? b)%nat && (b <? line_end)%nat) breaks)) in
  match rel with
  | [] => [line]
  | _ => match cut_at line 0 rel with [] => [line] | chunks => chunks end
  end.

Definition soft_break_chunks `{TreeSitter} (script : string) : list string :=
  match soft_break_offsets_after_operators script with
  | [] => [script]
  | breaks => cut_at script 0 (List.filter (fun b => (b <=? String.length script)%nat) breaks)
  end.

(** ** No command of a script is overlooked *)

(** The nodes of a tree in the order of the walk: the last child first. *)
Fixpoint visit (n : Node) : list Node :=
  n :: (fix go l := match l with [] => [] | c :: l' => go l' ++ visit c end) (nd_children n).

Definition visit_all (st : list Node) : list Node := st ≫= visit.

Lemma stack_size_app a b : stack_size (a ++ b) = (stack_size a + stack_size b)%nat.
Proof. unfold stack_size. rewrite fmap_app. apply list_sum_app. Qed.

Lemma stack_size_cons n st : stack_size (n :: st) = (node_size n + stack_size st)%nat.
Proof. done. Qed.

Lemma stack_size_rev a : stack_size (rev a) = stack_size a.
Proof.
  induction a as [|x a IH]; [done|]. cbn [rev]. change (x :: a) with ([x] ++ a).
  rewrite !stack_size_app, IH. lia.
Qed.

Lemma visit_all_app a b : visit_all (a ++ b) = visit_all a ++ visit_all b.
Proof. apply bind_app. Qed.

Lemma visit_unfold n : visit n = n :: visit_all (rev (nd_children n)).
Proof.
  destruct n as [k b f s e l]. cbn [visit nd_children]. f_equal.
  induction l as [|c l IH]; [done|]. cbn [rev]. rewrite visit_all_app, IH. f_equal.
  unfold visit_all. cbn. by rewrite app_nil_r.
Qed.

Lemma walk_commands_spec fuel st acc : (stack_size st <= fuel)%nat ->
  walk_commands fuel st acc =
    Some (if forallb node_allowed (visit_all st) then Some (acc ++ List.filter is_command_node (visit_all st)) else None).
Proof.
  revert st acc. induction fuel as [|fuel IH]; intros [|n st] acc H.
  - cbn. by rewrite app_nil_r.
  - exfalso. unfold stack_size in H. destruct n. cbn in H. lia.
  - cbn. by rewrite app_nil_r.
  - cbn [walk_commands]. unfold visit_all. cbn [mbind list_bind].
    rewrite visit_unfold. cbn [app forallb List.filter]. destruct (node_allowed n); cbn [andb negb]; [|done].
    rewrite IH.
    + fold (visit_all st). rewrite visit_all_app. destruct (forallb _ _); [|done].
      destruct (is_command_node n); [by rewrite <- app_assoc|done].
    + rewrite stack_size_app, stack_size_rev. rewrite stack_size_cons in H. destruct n. cbn [node_size nd_children] in *.
      change (list_sum _) with (stack_size nd_children0) in H. lia.
Qed.

Lemma insert_by_perm {A} (key : A -> nat) x l : insert_by key x l ≡ₚ x :: l.
Proof.
  induction l as [|y l IH]; [done|]. cbn. destruct (key x <=? key y)%nat; [done|]. rewrite IH. by constructor.
Qed.

Lemma sort_by_key_perm {A} (key : A -> nat) l : sort_by_key key l ≡ₚ l.
Proof. induction l as [|x l IH]; [done|]. cbn. by rewrite insert_by_perm, IH. Qed.

Lemma insert_by_sorted {A} (key : A -> nat) x l :
  StronglySorted (fun a b => (key a <= key b)%nat) l ->
  StronglySorted (fun a b => (key a <= key b)%nat) (insert_by key x l).
Proof.
  induction l as [|y l IH]; intros H; [by repeat constructor|]. cbn. inversion H as [|? ? Hl Hy]; subst.
  destruct (Nat.leb_spec (key x) (key y)).
  - constructor; [done|]. constructor; [done|]. eapply List.Forall_impl; [|exact Hy]. cbn. lia.
  - constructor; [by apply IH|]. rewrite insert_by_perm. constructor; [lia|done].
Qed.

Lemma sort_by_key_sorted {A} (key : A -> nat) l :
  StronglySorted (fun a b => (key a <= key b)%nat) (sort_by_key key l).
Proof. induction l as [|x l IH]; [constructor|]. by apply insert_by_sorted. Qed.

(** When a script is accepted as plain commands, every node of its syntax
    tree, at any depth, is of an allowed kind, the tree has no error, and the
    commands are exactly the command nodes in source order, each with the words
    its node has: none is overlooked. *)
Theorem commands_complete tree src cmds :
  try_parse_word_only_commands_sequence tree src = Some cmds ->
  has_error tree = false /\ (forall n, n ∈ visit (root_node tree) -> node_allowed n = true) /\
  exists nodes, nodes ≡ₚ List.filter is_command_node (visit (root_node tree)) /\
    StronglySorted (fun a b => (start_byte a <= start_byte b)%nat) nodes /\
    Forall2 (fun n c => parse_plain_command_from_node n src = Some c) nodes cmds.
Proof.
  unfold try_parse_word_only_commands_sequence. destruct (has_error tree); [done|].
  rewrite walk_commands_spec by (unfold stack_size; cbn; lia).
  assert (V : visit_all [root_node tree] = visit (root_node tree)) by (unfold visit_all; cbn; apply app_nil_r).
  rewrite V. cbn [app]. destruct (forallb _ _) eqn:F; [|done]. intros H%mapM_Some. split_and!; [done| |].
  - intros n Hn. rewrite forallb_forall in F. apply F. by apply list_elem_of_In.
  - eexists. split_and!; [apply sort_by_key_perm|apply sort_by_key_sorted|exact H].
Qed.

(** The tree of [git status; rm x], as the grammar gives it. *)
Definition word_node (s e : nat) : Node := MkNode "word" true None s e [].
Definition two_commands : Tree :=
  MkTree (MkNode "program" true None 0 16
    [MkNode "command" true None 0 10 [MkNode "command_name" true (Some "name") 0 3 [word_node 0 3]; word_node 4 10];
     MkNode ";" false None 10 11 [];
     MkNode "command" true None 12 16 [MkNode "command_name" true (Some "name") 12 14 [word_node 12 14]; word_node 15 16]]) false.

Lemma commands_complete_witness :
  try_parse_word_only_commands_sequence two_commands "git status; rm x"
    = Some [MkPlainCommand ["git"; "status"] 0 10; MkPlainCommand ["rm"; "x"] 12 16] /\
  forall n, n ∈ visit (root_node two_commands) -> node_allowed n = true.
Proof.
  split; [vm_compute; reflexivity|].
  apply (commands_complete two_commands "git status; rm x"
    [MkPlainCommand ["git"; "status"] 0 10; MkPlainCommand ["rm"; "x"] 12 16]).
  vm_compute. reflexivity.
Defined.

(** ** Peeling *)

(** One layer off a command: a wrapper with its options, or a transparent
    prefix. *)
Definition peel (x y : list string) : Prop :=
  strip_wrapper_command x = Some y \/ strip_transparent_prefix x = Peeled y.

Lemma ne_some l y : ne l = Some y <-> l = y /\ y <> [].
Proof. destruct l; cbn; naive_solver. Qed.

Lemma skip_options_suffix w l : skip_options w l `suffix_of` l.
Proof.
  induction l as [|o|o v l IH1 IH2] using list_ind2; cbn [skip_options] in *; [done| |];
    repeat case_match; eauto using suffix_nil, suffix_skip.
Qed.

Lemma env_loop_start d i l : (i <= command_start (env_loop d i l))%nat.
Proof.
  remember (length l) as n eqn:Hn. revert d i l Hn. induction n as [n IH] using lt_wf_ind.
  intros d i [|o rest] ->; [done|].
  assert (IH1 : forall d j, (i < j -> i <= command_start (env_loop d j rest))%nat).
  { intros e j Hj. pose proof (IH (length rest) ltac:(cbn; lia) e j rest eq_refl). lia. }
  assert (IH2 : forall d j v r, rest = v :: r -> (i < j -> i <= command_start (env_loop d j r))%nat).
  { intros e j v r -> Hj. pose proof (IH (length r) ltac:(cbn; lia) e j r eq_refl). lia. }
  cbn [env_loop]. destruct rest as [|v r]; repeat case_match; cbn [command_start]; try lia;
    first [apply IH1; lia | eapply IH2; [done|lia]].
Qed.

Lemma ne_suffix l k y : l `suffix_of` k -> ne l = Some y -> y `suffix_of` k /\ y <> [].
Proof. by intros S [<- Ne]%ne_some. Qed.

Lemma ne_tail_suffix l k y : l `suffix_of` k ->
  match l with [] => None | _ :: inner => ne inner end = Some y -> y `suffix_of` k /\ y <> [].
Proof. destruct l as [|d l]; intros S H; [done|]. eapply ne_suffix; [|done]. by eapply suffix_tail. Qed.

Lemma strip_wrapper_inner h rest y : strip_wrapper_command (h :: rest) = Some y -> y `suffix_of` rest /\ y <> [].
Proof.
  unfold strip_wrapper_command.
  destruct (basename h =s? "timeout"); [apply ne_tail_suffix, skip_options_suffix|].
  destruct (basename h =s? "nice"); [apply ne_suffix, skip_options_suffix|].
  destruct (basename h =s? "ionice"); [apply ne_suffix, skip_options_suffix|].
  destruct (basename h =s? "chrt"); [apply ne_tail_suffix, skip_options_suffix|].
  destruct (basename h =s? "stdbuf"); [apply ne_suffix, skip_options_suffix|].
  destruct (basename h =s? "env"); [|done]. case_match; [done|]. apply ne_suffix.
  pose proof (env_loop_start None 1 rest) as E. unfold env_scan. cbn [drop] in E |- *.
  destruct (command_start _) as [|n]; [lia|]. exists (take n rest). cbn. by rewrite take_drop.
Qed.

(** What is left of a prefix's options. *)
Definition inner_ok (k : list string) (t : TransparentStrip) : Prop :=
  match t with Peeled y => y `suffix_of` k /\ y <> [] | _ => True end.

Lemma inner_ok_skip x k t : inner_ok k t -> inner_ok (x :: k) t.
Proof. destruct t; cbn; try done. intros [S ?]. split; [by apply suffix_skip|done]. Qed.

Lemma exec_options_inner l : inner_ok l (exec_options l).
Proof.
  induction l as [|o|o v l IH1 IH2] using list_ind2; [done| |]; cbn [exec_options] in *;
    repeat case_match; cbn [peeled_or_not inner_ok] in *; eauto using inner_ok_skip;
    (split; [eauto using suffix_skip|done]).
Qed.

Lemma command_options_inner l : inner_ok l (command_options l).
Proof.
  induction l as [|o l IH]; [done|]. cbn [command_options].
  destruct (o =s? "--"); [destruct l; [done|]; split; [by apply suffix_skip|done]|].
  destruct (_ || _); [by split|]. repeat case_match; eauto using inner_ok_skip; done.
Qed.

Lemma strip_prefix_inner h rest y : strip_transparent_prefix (h :: rest) = Peeled y -> y `suffix_of` rest /\ y <> [].
Proof.
  cbn [strip_transparent_prefix]. intros H. change (inner_ok rest (Peeled y)). rewrite <- H.
  unfold strip_exec_prefix, strip_command_prefix, strip_builtin_prefix. cbn [drop].
  destruct (_ || _); [done|]. destruct (basename h =s? "exec"); [apply exec_options_inner|].
  destruct (basename h =s? "command"); [apply command_options_inner|].
  destruct (basename h =s? "builtin"); [|done]. destruct rest; [done|]. rewrite drop_0. by destruct (_ && _).
Qed.

Lemma peel_shorter x y : peel x y -> y `suffix_of` x /\ (length y < length x)%nat /\ y <> [].
Proof.
  intros H. destruct x as [|h rest]; [by destruct H|].
  assert (y `suffix_of` rest /\ y <> []) as [S Ne]
    by (destruct H; eauto using strip_wrapper_inner, strip_prefix_inner).
  split_and!; [by apply suffix_skip| |done]. apply suffix_length in S. cbn. lia.
Qed.

Lemma peels_suffix x y : rtc peel x y -> y `suffix_of` x.
Proof. induction 1 as [|x z y [? _]%peel_shorter _ IH]; [done|]. by etrans. Qed.

Lemma strip_is_wrapper x y : strip_wrapper_command x = Some y -> is_wrapper_command x = true.
Proof.
  destruct x as [|h rest]; [done|]. unfold strip_wrapper_command, is_wrapper_command, is_one_of. cbn [existsb].
  destruct (basename h =s? "timeout"); [done|]. destruct (basename h =s? "nice"); [done|].
  destruct (basename h =s? "ionice"); [done|]. destruct (basename h =s? "chrt"); [done|].
  destruct (basename h =s? "stdbuf"); [done|]. by destruct (basename h =s? "env").
Qed.

(** A wrapper's name is not a prefix's. *)
Lemma wrapper_not_prefix x : is_wrapper_command x = true -> strip_transparent_prefix x = NotPrefix.
Proof.
  destruct x as [|h rest]; [done|]. unfold is_wrapper_command, is_one_of, strip_transparent_prefix. cbn [existsb].
  rewrite !orb_true_iff, !String.eqb_eq. destruct (_ || _); [done|].
  by intros [-> | [-> | [-> | [-> | [-> | [-> | ?]]]]]].
Qed.

Lemma env_is_wrapper x : head_is "env" x = true -> is_wrapper_command x = true.
Proof. destruct x as [|h rest]; [done|]. cbn. intros ->. by rewrite !orb_true_r. Qed.

Lemma env_strip_flags x y : head_is "env" x = true -> strip_wrapper_command x = Some y ->
  es_has_split_string (env_scan x) = false /\ es_options_uncertain (env_scan x) = false.
Proof.
  destruct x as [|h rest]; [done|]. unfold head_is, strip_wrapper_command. intros ->%String.eqb_eq. cbn [String.eqb Ascii.eqb Bool.eqb].
  destruct (es_has_split_string _), (es_options_uncertain _); by cbn.
Qed.

(** *** What the loops reach *)

Lemma unwrap_reach n x c s u : rtc peel x (pw_words (unwrap_loop n x c s u)).
Proof.
  revert x c s u. induction n as [|n IH]; intros x c s u; cbn [unwrap_loop pw_words]; [done|].
  destruct (strip_wrapper_command x) as [y|] eqn:E; cbn [pw_words]; [|done].
  eapply rtc_l; [by left|apply IH].
Qed.

Lemma peel_loop_reach n x y : peel_loop n x = Some y -> rtc peel x y /\ strip_transparent_prefix y = NotPrefix.
Proof.
  revert x. induction n as [|n IH]; intros x; cbn [peel_loop];
    destruct (strip_transparent_prefix x) as [|z|] eqn:E; try done; try (by intros [= <-]).
  intros [R ?]%IH. split; [|done]. eapply rtc_l; [by right|done].
Qed.

Lemma normalize_loop_reach n s : rtc peel (nw_words s) (nw_words (normalize_loop n s)).
Proof.
  revert s. induction n as [|n IH]; intros s; cbn [normalize_loop]; [done|].
  pose proof (unwrap_reach MAX_WRAPPER_DEPTH (nw_words s) false false false) as W.
  unfold unwrap_wrappers_checked. set (w := unwrap_loop _ _ _ _ _) in *.
  destruct (_ || _); [done|]. unfold peel_transparent_prefixes.
  destruct (peel_loop _ _) as [inner|] eqn:E; [|done]. apply peel_loop_reach in E as [R _].
  destruct (_ =? _)%nat; cbn [nw_words]; [by etrans|]. etrans; [by etrans|]. apply (IH (MkNormalized inner _ _ _ _ _)).
Qed.

(** No flag is raised: the words are all that matters of the command. *)
Definition clean (r : NormalizedCommandPeel) : bool :=
  negb (nw_has_split_string r) && negb (nw_env_options_uncertain r) && negb (nw_exhausted r) && negb (nw_ambiguous r).

Lemma finish_words s : nw_words (finish_normalize s) = nw_words s.
Proof. unfold finish_normalize. by destruct (_ && _). Qed.

Lemma normalize_reach ws : rtc peel ws (nw_words (normalize_command_words ws)).
Proof.
  unfold normalize_command_words. rewrite finish_words.
  apply (normalize_loop_reach MAX_NORMALIZE_ROUNDS (MkNormalized ws false false false false false)).
Qed.

Lemma finish_clean s : clean (finish_normalize s) = true ->
  strip_wrapper_command (nw_words s) = None /\ strip_transparent_prefix (nw_words s) = NotPrefix.
Proof.
  unfold finish_normalize, clean. destruct (negb (nw_ambiguous s) && _ && _) eqn:F; cbn.
  - rewrite !andb_true_iff, !negb_true_iff, !orb_false_iff. intros [[_ (_&W&T)] _]. split.
    + destruct (strip_wrapper_command (nw_words s)) as [y|] eqn:E; [|done].
      by rewrite (strip_is_wrapper _ _ E) in W.
    + by destruct (strip_transparent_prefix (nw_words s)).
  - intros H. exfalso. revert F H. destruct (nw_ambiguous s), (nw_has_split_string s), (nw_env_options_uncertain s);
      cbn; by rewrite ?andb_false_r.
Qed.

Lemma clean_bare ws : clean (normalize_command_words ws) = true ->
  strip_wrapper_command (nw_words (normalize_command_words ws)) = None /\
  strip_transparent_prefix (nw_words (normalize_command_words ws)) = NotPrefix.
Proof. unfold normalize_command_words. rewrite finish_words. apply finish_clean. Qed.

(** A command with no layer left to peel, and nothing uncertain about that. *)
Definition bare (b : list string) : Prop :=
  strip_wrapper_command b = None /\ strip_transparent_prefix b = NotPrefix /\
  (head_is "env" b = true ->
   es_has_split_string (env_scan b) = false /\ es_options_uncertain (env_scan b) = false).

Lemma bare_no_step b y : bare b -> ~ peel b y.
Proof. intros (W&T&_) [H | H]; congruence. Qed.

Lemma steps_bare k b y : bare b -> nsteps peel k b y -> k = 0 /\ y = b.
Proof. intros B H. inversion H; subst; [done|]. by edestruct bare_no_step. Qed.

Lemma prefix_not_wrapper x y : strip_transparent_prefix x = Peeled y ->
  is_wrapper_command x = false /\ strip_wrapper_command x = None /\ head_is "env" x = false.
Proof.
  intros T. assert (W : is_wrapper_command x = false).
  { destruct (is_wrapper_command x) eqn:E; [|done]. by rewrite wrapper_not_prefix in T. }
  split_and!; [done| |].
  - destruct (strip_wrapper_command x) eqn:E; [|done]. by rewrite (strip_is_wrapper _ _ E) in W.
  - destruct (head_is "env" x) eqn:E; [|done]. by rewrite env_is_wrapper in W.
Qed.

(** The layer a step of the loops takes is the one [peel] takes. *)
Lemma steps_wrapper k x y b : bare b -> nsteps peel k x b -> strip_wrapper_command x = Some y ->
  exists k', k = S k' /\ nsteps peel k' y b.
Proof.
  intros B H E. inversion H as [|k' ? z ? P R]; subst; [by destruct B as [? _]; congruence|].
  exists k'. split; [done|]. destruct P as [P | [_ [P _]]%prefix_not_wrapper]; [|congruence].
  rewrite E in P. by injection P as ->.
Qed.

Lemma steps_prefix k x y b : bare b -> nsteps peel k x b -> strip_transparent_prefix x = Peeled y ->
  exists k', k = S k' /\ nsteps peel k' y b.
Proof.
  intros B H E. inversion H as [|k' ? z ? P R]; subst; [by destruct B as (_&?&_); congruence|].
  exists k'. split; [done|]. destruct (prefix_not_wrapper _ _ E) as (_&N&_).
  destruct P as [P | P]; [congruence|]. rewrite E in P. by injection P as ->.
Qed.

Lemma steps_certain k x b : bare b -> nsteps peel k x b ->
  strip_transparent_prefix x <> Ambiguous /\
  (head_is "env" x = true ->
   es_has_split_string (env_scan x) = false /\ es_options_uncertain (env_scan x) = false).
Proof.
  intros B H. inversion H as [|k' ? z ? P R]; subst; [destruct B as (_&->&?); by split|].
  destruct P as [P|P].
  - rewrite (wrapper_not_prefix _ (strip_is_wrapper _ _ P)). split; [done|]. intros E. by eapply env_strip_flags.
  - destruct (prefix_not_wrapper _ _ P) as (_&_&->). by rewrite P.
Qed.

Lemma unwrap_loop_bare n k x b c : bare b -> nsteps peel k x b -> (k <= n)%nat ->
  exists k' y c', (k' = k /\ y = x \/ (k' < k)%nat) /\ unwrap_loop n x c false false = MkPeel y c' false false false /\
    nsteps peel k' y b /\ strip_wrapper_command y = None.
Proof.
  intros B. revert k x c. induction n as [|n IH]; intros k x c H Hk.
  - assert (k = 0) as -> by lia. inversion H; subst. exists 0, b, c. cbn. destruct B as [-> _].
    rewrite andb_false_r. by split_and!; [left| |constructor|].
  - cbn [unwrap_loop orb]. destruct (steps_certain _ _ _ B H) as [_ F].
    assert (head_is "env" x && es_has_split_string (env_scan x) = false /\
            head_is "env" x && es_options_uncertain (env_scan x) = false) as [-> ->].
    { destruct (head_is "env" x); [|done]. by destruct (F eq_refl) as [-> ->]. }
    destruct (strip_wrapper_command x) as [y|] eqn:E.
    + destruct (steps_wrapper _ _ _ _ B H E) as (k'&->&R).
      destruct (IH k' y (c || head_is "env" x && is_some (es_chdir (env_scan x))) R ltac:(lia)) as (j&z&c'&?&->&?&?).
      exists j, z, c'. split_and!; try done. right. lia.
    + exists k, x. eexists. by split_and!; [left| | |].
Qed.

Lemma peel_loop_bare n k x b : bare b -> nsteps peel k x b -> (k <= n)%nat ->
  exists k' y, (k' = k /\ y = x \/ (k' < k)%nat) /\ peel_loop n x = Some y /\ nsteps peel k' y b /\ strip_transparent_prefix y = NotPrefix.
Proof.
  intros B. revert k x. induction n as [|n IH]; intros k x H Hk; cbn [peel_loop].
  - assert (k = 0) as -> by lia. inversion H; subst. exists 0, b. destruct B as (_&->&_).
    by split_and!; [left| |constructor|].
  - destruct (steps_certain _ _ _ B H) as [A _]. destruct (strip_transparent_prefix x) as [|y|] eqn:E; [| |done].
    + exists k, x. by split_and!; [left| | |].
    + destruct (steps_prefix _ _ _ _ B H E) as (k'&->&R).
      destruct (IH k' y R ltac:(lia)) as (j&z&?&->&?&?). exists j, z. split_and!; try done. right. lia.
Qed.

Lemma peels_same x y : rtc peel x y -> (length x <= length y)%nat -> y = x.
Proof. intros [p ->]%peels_suffix H. rewrite length_app in H. by destruct p; [|cbn in H; lia]. Qed.

Lemma normalize_loop_bare n k x b c : bare b -> nsteps peel k x b -> (k <= 8)%nat -> (k < n)%nat ->
  exists c', normalize_loop n (MkNormalized x c false false false false) = MkNormalized b c' false false false false.
Proof.
  intros B. revert k x c. induction n as [|n IH]; intros k x c H H8 Hk; [lia|]. cbn [normalize_loop nw_words].
  destruct (unwrap_loop_bare MAX_WRAPPER_DEPTH k x b false B H H8) as (k1&y&c1&L1&E1&R1&W).
  pose proof (unwrap_reach MAX_WRAPPER_DEPTH x false false false) as X1. rewrite E1 in X1.
  destruct (peel_loop_bare MAX_TRANSPARENT_PREFIX_DEPTH k1 y b B R1 ltac:(unfold MAX_TRANSPARENT_PREFIX_DEPTH; lia))
    as (k2&z&L2&E2&R2&T).
  destruct (peel_loop_reach _ _ _ E2) as [X2 _]. cbn [pw_words] in X1.
  unfold unwrap_wrappers_checked, peel_transparent_prefixes. rewrite E1. cbn -[peel_loop]. rewrite E2.
  destruct (Nat.eqb_spec (length z) (length x)) as [L|L].
  - assert (z = x) as -> by (apply peels_same; [by etrans|lia]).
    assert (y = x) as -> by (apply peels_same; [done|]; by apply peels_suffix, suffix_length in X2).
    inversion H as [|? ? ? ? P]; subst; [eauto|]. destruct P; congruence.
  - eapply (IH k2 z); [done|lia|]. destruct L1 as [[? ->]|]; [|lia]. destruct L2 as [[? ->]|]; [done|lia].
Qed.

Lemma normalize_bare k x b : bare b -> nsteps peel k x b -> (k <= 8)%nat ->
  clean (normalize_command_words x) = true /\ nw_words (normalize_command_words x) = b.
Proof.
  intros B H Hk. unfold normalize_command_words.
  destruct (normalize_loop_bare MAX_NORMALIZE_ROUNDS k x b false B H Hk) as (c'&->).
  { unfold MAX_NORMALIZE_ROUNDS, MAX_WRAPPER_DEPTH, MAX_TRANSPARENT_PREFIX_DEPTH. lia. }
  unfold finish_normalize, clean. cbn. destruct B as (->&->&_). by rewrite andb_false_r.
Qed.

(** The words a command is normalized to are reached from it by peeling
    layers off, and when no flag is raised nothing is left to peel: a wrapper
    or a transparent prefix the loops leave on always raises a flag. *)
Theorem normalize_sound ws :
  rtc peel ws (nw_words (normalize_command_words ws)) /\
  nw_words (normalize_command_words ws) `suffix_of` ws /\
  (clean (normalize_command_words ws) = true -> nf peel (nw_words (normalize_command_words ws))).
Proof.
  pose proof (normalize_reach ws) as R. split_and!; [done|by apply peels_suffix|].
  intros [W T]%clean_bare [y [P | P]]; congruence.
Qed.

(** A command under at most eight layers, in any mix of wrappers and
    transparent prefixes, is normalized to exactly the command inside, and no
    flag is raised. *)
Theorem normalize_complete k x b : nsteps peel k x b -> (k <= 8)%nat -> bare b ->
  clean (normalize_command_words x) = true /\ nw_words (normalize_command_words x) = b.
Proof. eauto using normalize_bare. Qed.

Definition layered : list string :=
  ["env"; "A=1"; "timeout"; "-k"; "3"; "5s"; "command"; "-p"; "nice"; "-n"; "5"; "exec"; "git"; "push"].

Lemma normalize_complete_witness :
  clean (normalize_command_words layered) = true /\ nw_words (normalize_command_words layered) = ["git"; "push"].
Proof.
  apply (normalize_complete 5 layered ["git"; "push"]); [|lia|vm_compute; split_and!; done].
  eapply nsteps_l; [left; vm_compute; reflexivity|]. eapply nsteps_l; [left; vm_compute; reflexivity|].
  eapply nsteps_l; [right; vm_compute; reflexivity|]. eapply nsteps_l; [left; vm_compute; reflexivity|].
  eapply nsteps_l; [right; vm_compute; reflexivity|]. constructor.
Defined.

Lemma normalize_sound_witness : nf peel (nw_words (normalize_command_words layered)).
Proof. apply (normalize_sound layered). vm_compute. reflexivity. Defined.

(** ** Soft breaks lose no text *)

Lemma sdrop_sdrop a b s : sdrop a (sdrop b s) = sdrop (b + a) s.
Proof. revert s. induction b as [|b IH]; intros s; [done|]. destruct s; [by destruct a|apply IH]. Qed.

Lemma cut_at_concat line start rel : (start <= String.length line)%nat ->
  Forall (fun b => (b <= String.length line)%nat) rel ->
  concat_str (cut_at line start rel) = sdrop start line.
Proof.
  intros Hs H. revert start Hs. induction H as [|b rel Hb _ IH]; intros start Hs; cbn [cut_at].
  - destruct (Nat.ltb_spec start (String.length line)); [apply sapp_nil_r|]. by rewrite sdrop_all.
  - destruct (Nat.ltb_spec start b); [|by apply IH]. cbn [concat_str]. rewrite IH by done. unfold slice.
    replace b with (start + (b - start))%nat at 2 by lia. rewrite <- sdrop_sdrop. apply stake_sdrop.
Qed.

Lemma Forall_filter_leb n l : Forall (fun b => (b <= n)%nat) (List.filter (fun b => (b <=? n)%nat) l).
Proof. induction l as [|b l IH]; cbn; [done|]. destruct (Nat.leb_spec b n); [by constructor|done]. Qed.

Lemma dedup_subset {A} `{EqDecision A} (l : list A) x : x ∈ dedup l -> x ∈ l.
Proof.
  induction l as [|y|y z l _ IH] using list_ind2; [done|done|]. cbn [dedup]. intros H.
  change (x ∈ (if decide (y = z) then dedup (z :: l) else y :: dedup (z :: l))) in H.
  destruct (decide (y = z)); [right; auto|]. apply elem_of_cons in H as [-> | ?]; [by left|right; auto].
Qed.

(** The chunks a script or a line is broken into for display are the whole
    text, in order and with nothing added or dropped, wherever the operators
    are. *)
Theorem soft_breaks_keep_text `{TreeSitter} script line line_start breaks :
  concat_str (soft_break_chunks script) = script /\
  concat_str (split_physical_line_at_soft_breaks line line_start breaks) = line.
Proof.
  split.
  - unfold soft_break_chunks. destruct (soft_break_offsets_after_operators script) as [|b bs]; [apply sapp_nil_r|].
    rewrite cut_at_concat; [done|lia|apply Forall_filter_leb].
  - unfold split_physical_line_at_soft_breaks. set (rel := dedup _).
    assert (C : concat_str (cut_at line 0 rel) = line).
    { rewrite cut_at_concat; [done|lia|]. apply list.Forall_forall. intros x Hx%dedup_subset.
      apply list_elem_of_In, filter_In in Hx as [Hx _]. apply list_elem_of_In, list_elem_of_fmap in Hx as (y&->&Hy).
      apply list_elem_of_In, filter_In in Hy as [_ Hy]. apply andb_true_iff in Hy as [_ Hy%Nat.ltb_lt]. lia. }
    destruct rel; [apply sapp_nil_r|]. destruct (cut_at line 0 _); [apply sapp_nil_r|done].
Qed.

(** ** The last round *)

(** [n] times a wrapper and a prefix around a command. *)
Definition alternate (n : nat) (b : list string) : list string :=
  Nat.iter n (fun x => "timeout" :: "1" :: "command" :: x) b.

(** The documentation says a packed [env -S] always fails closed.  When the
    sixteenth round is the one that uncovers it, no flag is raised, because the
    checks after the loop look at peelable heads only; one layer less and it is
    flagged. *)
Theorem split_string_unflagged_at_budget :
  let packed := ["env"; "-S"; "rm 'x'"] in
  es_has_split_string (env_scan packed) = true /\
  clean (normalize_command_words (alternate 15 packed)) = false /\
  clean (normalize_command_words (alternate 16 packed)) = true /\
  nw_words (normalize_command_words (alternate 16 packed)) = packed.
Proof. vm_compute. by split_and!. Qed.
