(* ===== verification/ShellAccess.v ===== *)
(** * [xai-grok-workspace], [permission/shell_access.rs]

    The gate that looks for files a shell command reads or writes, so that a
    Read or Edit rule also holds for [cat], [cp], [tee] and redirects; and the
    edit targets that are always confirmed.

    The code visits a syntax tree with a stack onto which it pushes the children
    in order, so it sees a node, then its last child with everything below it,
    and the first child last: [tree_nodes] is that order, each node with the way
    to the root.  [usize::MAX], the end of the outermost scope, is [None]. *)

From S2P Require Import Prelude RustStr Json Paths PermRules BashCommand PermPolicy.

(** ** Walking the tree *)

(** The parents of a node, the closest first, each with the sibling that follows
    the node on the way. *)
Definition Ancestors : Type := list (Node * option Node).

Fixpoint tree_nodes (up : Ancestors) (n : Node) : list (Ancestors * Node) :=
  (up, n) ::
  (fix go (l : list Node) : list (Ancestors * Node) :=
     match l with
     | [] => []
     | c :: l' => go l' ++ tree_nodes ((n, head l') :: up) c
     end) (nd_children n).

Definition child_by_field_name (n : Node) (field : string) : option Node :=
  List.find (fun c => bool_decide (nd_field c = Some field)) (nd_children n).

(** ** Scopes and changes of directory *)

Record ExecutionScope : Type := MkScope { scope_start : nat; scope_end : option nat }.

#[export] Instance ExecutionScope_eq_dec : EqDecision ExecutionScope.
Proof. solve_decision. Defined.

Definition scope_contains (self other : ExecutionScope) : bool :=
  (scope_start self <=? scope_start other)%nat
  && match scope_end self, scope_end other with
     | None, _ => true
     | Some _, None => false
     | Some a, Some b => (b <=? a)%nat
     end.

Definition node_scope (n : Node) : ExecutionScope := MkScope (start_byte n) (Some (end_byte n)).

Fixpoint execution_scope (up : Ancestors) (current : Node) : ExecutionScope :=
  match up with
  | [] => MkScope 0 None
  | (parent, next_sibling) :: up' =>
      if match next_sibling with Some s => nd_kind s =s? "&" | None => false end
      then node_scope (if nd_kind current =s? "list" then current else parent)
      else if is_one_of ["subshell"; "command_substitution"; "process_substitution"] (nd_kind parent)
      then node_scope parent
      else if nd_kind parent =s? "pipeline" then node_scope current
      else execution_scope up' parent
  end.

Record CwdPoison : Type := MkPoison { poison_at : nat; poison_scope : ExecutionScope }.

Definition cwd_poison_positions (root : Node) (src : string) : list CwdPoison :=
  filter_map (fun '(up, node) =>
    then_some
      ((nd_kind node =s? "command")
       && match child_by_field_name node "name" ≫= utf8_text src with
          | Some program => is_one_of ["cd"; "pushd"; "popd"] (basename program)
          | None => false
          end)
      (MkPoison (start_byte node) (execution_scope up node))) (tree_nodes [] root).

Definition script_has_cwd_change (root : Node) (src : string) : bool :=
  match cwd_poison_positions root src with [] => false | _ => true end.

Definition cwd_unpinned_before (positions : list CwdPoison) (at_ : nat) (scope : ExecutionScope) : bool :=
  existsb (fun poison =>
    (poison_at poison <? at_)%nat
    && (bool_decide (poison_scope poison = scope) || scope_contains (poison_scope poison) scope)) positions.

(** ** Words of the tree *)

Inductive ArgText : Type := ArgLiteral (s : string) | ArgAmbiguous.

Definition EXPANSION_KINDS : list string :=
  ["expansion"; "simple_expansion"; "command_substitution"; "arithmetic_expansion"; "process_substitution"].

(** A node below [n], not [n] itself, expands at run time. *)
Definition node_has_expansion (n : Node) : bool :=
  existsb (fun '(_, c) => is_one_of EXPANSION_KINDS (nd_kind c)) (drop 1 (tree_nodes [] n)).

Definition is_windows_path_like (raw : string) : bool :=
  starts_with "\\" raw
  || match raw with
     | String a (String b _) => is_ascii_alpha a && byte_eqb b ":"
     | _ => false
     end.

(** Every backslash stands for the character after it. *)
Fixpoint fold_backslashes (raw : string) : option string :=
  match raw with
  | EmptyString => Some ""
  | String ch rest =>
      if byte_eqb ch "\" then
        match rest with String n rest' => String n <$> fold_backslashes rest' | EmptyString => None end
      else String ch <$> fold_backslashes rest
  end.

Definition decode_unquoted_word (raw : string) : option string :=
  if negb (contains_byte "\" raw) then Some raw
  else if is_windows_path_like raw then Some raw
  else fold_backslashes raw.

Fixpoint fold_double_quoted (content : string) : option string :=
  match content with
  | EmptyString => Some ""
  | String ch rest =>
      if negb (byte_eqb ch "\") then String ch <$> fold_double_quoted rest
      else match rest with
      | EmptyString => None
      | String n rest' =>
          if byte_eqb n "$" || byte_eqb n "`" || byte_eqb n DQ || byte_eqb n "\" || byte_eqb n LF
          then String n <$> fold_double_quoted rest'
          else (fun s => String "\" (String n s)) <$> fold_double_quoted rest'
      end
  end.

Definition decode_double_quoted_content (content : string) : option string :=
  if negb (contains_byte "\" content) then Some content else fold_double_quoted content.

Definition literal_or_ambiguous (o : option string) : ArgText :=
  match o with Some literal => ArgLiteral literal | None => ArgAmbiguous end.

(** [raw] without a quote at each end, if it has both. *)
Definition unquote (q raw : string) : string := unwrap_or raw (strip_prefix q raw ≫= strip_suffix q).

Definition shell_node_arg (node : Node) (src : string) : option ArgText :=
  let kind := nd_kind node in
  if kind =s? "variable_assignment" then None
  else if (kind =s? "word") || (kind =s? "number") then
    Some (literal_or_ambiguous (utf8_text src node ≫= decode_unquoted_word))
  else if kind =s? "raw_string" then (fun raw => ArgLiteral (unquote "'" raw)) <$> utf8_text src node
  else if kind =s? "string" then
    if node_has_expansion node then Some ArgAmbiguous
    else (fun raw => literal_or_ambiguous (decode_double_quoted_content (unquote QUOTE raw))) <$> utf8_text src node
  else if kind =s? "concatenation" then
    if node_has_expansion node then Some ArgAmbiguous
    else Some (literal_or_ambiguous (utf8_text src node ≫= decode_shell_literal_spelling))
  else Some ArgAmbiguous.

(** ** Invocations *)

(** [InvocationWord] has the two cases of [ShellWord]. *)
Record ShellInvocation : Type := MkInvocation {
  inv_start_byte : nat; inv_scope : ExecutionScope; inv_words : list ShellWord; wrapper_words : list string }.

Definition literal_words (ws : list ShellWord) : list string :=
  filter_map (fun w => match w with Literal s => Some s | UntrustedWord => None end) ws.

Definition invocation_word (src : string) (child : Node) : option ShellWord :=
  let operand := if nd_kind child =s? "command_name"
                 then head (named_children child) ≫= fun inner => shell_node_arg inner src
                 else shell_node_arg child src in
  (fun a => match a with ArgLiteral word => Literal word | ArgAmbiguous => UntrustedWord end) <$> operand.

Definition wrapper_word (w : ShellWord) : string := match w with Literal s => s | UntrustedWord => NUL_WORD end.

Definition shell_command_invocations (root : Node) (src : string) : list ShellInvocation :=
  sort_by_key inv_start_byte
    (filter_map (fun '(up, node) =>
       if nd_kind node =s? "command" then
         let words := filter_map (invocation_word src) (named_children node) in
         Some (MkInvocation (start_byte node) (execution_scope up node) words (wrapper_word <$> words))
       else None) (tree_nodes [] root)).

Record CheckedInvocationPeel : Type := MkInvPeel {
  ip_words : list ShellWord; ip_has_chdir : bool; ip_has_split_string : bool;
  ip_env_options_uncertain : bool; ip_exhausted : bool; ip_transparent_ambiguous : bool }.

Definition unwrap_invocation_checked (inv : ShellInvocation) : CheckedInvocationPeel :=
  let norm := normalize_command_words (wrapper_words inv) in
  let peeled_count := (length (wrapper_words inv) - length (nw_words norm))%nat in
  MkInvPeel (drop peeled_count (inv_words inv)) (nw_has_chdir norm) (nw_has_split_string norm)
    (nw_env_options_uncertain norm) (nw_exhausted norm) (nw_ambiguous norm).

Definition words_are_opaque_shell (ws : list ShellWord) : bool :=
  is_potential_inline (shell_dash_c_script ws)
  || match ws with Literal program :: _ => basename program =s? "eval" | _ => false end.

Definition tree_has_opaque_shell (root : Node) (src : string) : bool :=
  existsb (fun inv => words_are_opaque_shell (ip_words (unwrap_invocation_checked inv)))
    (shell_command_invocations root src).

(** ** Files named by a command *)

Inductive ShellFileMode : Type := ModeRead | ModeWrite | ModeCreate.

Definition READ_PROGRAMS : list string :=
  ["cat"; "tac"; "nl"; "head"; "tail"; "grep"; "egrep"; "fgrep"; "rg"; "sed"; "awk"; "less"; "more"; "bat";
   "strings"; "xxd"; "od"; "hexdump"; "base64"; "base32"; "cut"; "sort"; "uniq"; "wc"; "type"; "get-content"; "gc";
   "diff"; "comm"; "rev"; "jq"; "yq"; "select-string"; "sls"; "ag"; "ack"; "zcat"; "zless"; "zmore"; "zgrep";
   "zegrep"; "zfgrep"; "bzcat"; "bzgrep"; "xzcat"; "xzgrep"; "zstdcat"; "lz4cat"].
Definition WRITE_PROGRAMS : list string :=
  ["tee"; "set-content"; "out-file"; "add-content"; "tee-object"; "truncate"].

Definition shell_file_mode (program : string) : option ShellFileMode :=
  if is_one_of READ_PROGRAMS program then Some ModeRead
  else if is_one_of WRITE_PROGRAMS program then Some ModeWrite else None.

Definition shell_arg_is_ambiguous (token : string) : bool :=
  contains_byte "*" token || contains_byte "?" token || contains_byte "[" token.

(** The first child that is a redirection operator; [None] also for a heredoc. *)
Fixpoint redirect_operator (l : list Node) : option string :=
  match l with
  | [] => None
  | c :: l' =>
      let kind := nd_kind c in
      if contains_str "<<" kind then None
      else if contains_byte ">" kind || contains_byte "<" kind then Some kind
      else redirect_operator l'
  end.

Definition shell_redirect_one (node : Node) (src : string) : option (option string * ShellFileMode * bool) :=
  redirect ← redirect_operator (nd_children node);
  let mode := if contains_byte ">" redirect then ModeWrite else ModeRead in
  let duplicates_fd := (redirect =s? ">&") || (redirect =s? "<&") in
  dest ← child_by_field_name node "destination";
  arg ← shell_node_arg dest src;
  match arg with
  | ArgLiteral s =>
      if is_empty s || starts_with "&" s || (duplicates_fd && ((s =s? "-") || sall is_ascii_digit s)) then None
      else Some (Some s, mode, shell_arg_is_ambiguous s)
  | ArgAmbiguous => Some (None, mode, true)
  end.

Record ShellRedirectTarget : Type := MkRedirect {
  rt_path : option string; rt_mode : ShellFileMode; rt_ambiguous : bool;
  rt_start_byte : nat; rt_scope : ExecutionScope }.

Definition shell_redirect_targets (root : Node) (src : string) : list ShellRedirectTarget :=
  filter_map (fun '(up, node) =>
    if nd_kind node =s? "file_redirect" then
      '(path, mode, ambiguous) ← shell_redirect_one node src;
      Some (MkRedirect path mode ambiguous (start_byte node) (execution_scope up node))
    else None) (tree_nodes [] root).

Definition shell_sed_in_place (ws : list string) : bool :=
  existsb (fun word =>
    (word =s? "--in-place") || starts_with "--in-place=" word
    || (starts_with "-" word && negb (starts_with "--" word) && contains_byte "i" word)) (drop 1 ws).

(** [enumerate] with the word that follows each word. *)
Fixpoint with_next (ws : list string) : list (string * option string) :=
  match ws with
  | [] => []
  | w :: ws' => (w, head ws') :: with_next ws'
  end.

Definition shell_output_flag_values (ws : list string) : list string :=
  filter_map (fun '(token, next) =>
    or_else (strip_prefix "--output=" token)
      (or_else (ofilter (fun v => negb (is_empty v)) (strip_prefix "-o" token))
         (if (token =s? "--output") || (token =s? "-o") then next else None))) (with_next ws).

Definition value_flag_values (ws : list string) (flag : string) : list string :=
  filter_map (fun '(token, next) =>
    match strip_prefix (flag +:+ "=") token with
    | Some value => Some value
    | None =>
        if token =s? flag then next
        else if negb (starts_with "--" flag) then ofilter (fun v => negb (is_empty v)) (strip_prefix flag token)
        else None
    end) (with_next ws).

(** The operands of a command; after a bare [--] every word is one. *)
Fixpoint candidates_from (end_of_options : bool) (ws : list string) : list string :=
  match ws with
  | [] => []
  | token :: ws' =>
      if negb end_of_options && (token =s? "--") then candidates_from true ws'
      else if end_of_options || (negb (token =s? "-") && negb (starts_with "-" token))
      then token :: candidates_from end_of_options ws'
      else candidates_from end_of_options ws'
  end.
Definition shell_file_candidates (ws : list string) : list string := candidates_from false (drop 1 ws).

Definition special_file_operands (program : string) (ws : list string) : list (string * ShellFileMode) :=
  if program =s? "dd" then
    filter_map (fun token =>
      or_else ((fun p => (p, ModeRead)) <$> strip_prefix "if=" token)
              ((fun p => (p, ModeWrite)) <$> strip_prefix "of=" token)) (drop 1 ws)
  else if is_one_of ["sort"; "go"; "git"] program then
    (fun o => (o, ModeWrite)) <$> shell_output_flag_values ws
  else if program =s? "rustc" then
    (fun o => (o, ModeWrite)) <$> (shell_output_flag_values ws ++ value_flag_values ws "--out-dir")
  else if program =s? "rustfmt" then (fun p => (p, ModeWrite)) <$> shell_file_candidates ws
  else [].

Definition is_creation_program (program : string) : bool := is_one_of ["mkdir"; "touch"] program.

Definition shell_path_command_operands (program : string) (ws : list string) : option (list (string * ShellFileMode)) :=
  let operands := shell_file_candidates ws in
  if is_one_of ["cp"; "mv"; "ln"; "install"] program then
    match rev operands with
    | dest :: sources => Some (((fun s => (s, ModeRead)) <$> rev sources) ++ [(dest, ModeWrite)])
    | [] => None
    end
  else if is_one_of ["rm"; "rmdir"] program then Some ((fun c => (c, ModeWrite)) <$> operands)
  else if is_creation_program program then Some ((fun c => (c, ModeCreate)) <$> operands)
  else if program =s? "uniq" then
    match operands with
    | input :: output :: _ => Some [(input, ModeRead); (output, ModeWrite)]
    | _ => None
    end
  else None.

Definition is_directory_operand (token : string) : bool :=
  (token =s? ".") || (token =s? "..") || ends_with "/" token.

Definition shell_reader_can_recurse (program : string) (ws candidates : list string) : bool :=
  (is_one_of ["grep"; "egrep"; "fgrep"] program
   && existsb (fun word =>
        (word =s? "--recursive") || (word =s? "--dereference-recursive")
        || (starts_with "-" word && negb (starts_with "--" word) && (contains_byte "r" word || contains_byte "R" word)))
        ws)
  || (is_one_of ["rg"; "ag"; "ack"] program
      && ((length candidates <=? 1)%nat || existsb is_directory_operand (drop 1 candidates))).

Definition shell_access {V} (mode : ShellFileMode) (path : string) : AccessKind V :=
  match mode with ModeRead => Read (Some path) | ModeWrite | ModeCreate => Edit path end.

(** ** Shell paths *)

Definition second_is_colon (path : string) : bool :=
  match path with String _ (String b _) => byte_eqb b ":" | _ => false end.

Definition is_absolute_shell_path (path : string) : bool :=
  starts_with "/" path || starts_with "~/" path || second_is_colon path.

(** [trim_matches] with the two quotes. *)
Definition is_quote (c : ascii) : bool := byte_eqb c DQ || byte_eqb c "'".
Fixpoint trim_start_quotes (s : string) : string :=
  match s with String c s' => if is_quote c then trim_start_quotes s' else s | EmptyString => "" end.
Fixpoint trim_end_quotes (s : string) : string :=
  match s with
  | EmptyString => ""
  | String c s' => let t := trim_end_quotes s' in if is_empty t && is_quote c then "" else String c t
  end.

Definition normalize_shell_path_raw (path : string) : string :=
  let p := replace "\" "/" (trim_end_quotes (trim_start_quotes path)) in
  match strip_prefix "/c/" p with Some rest => "C:/" +:+ rest | None => p end.

(** One segment of the loop of [lexical_normalize]; the last segment first. *)
Definition lexical_step (absolute : bool) (out : list string) (segment : string) : list string :=
  if (segment =s? "") || (segment =s? ".") then out
  else if segment =s? ".." then
    match out with
    | s :: out' => if negb (s =s? "..") then out' else if negb absolute then ".." :: out else out
    | [] => if negb absolute then [".."] else out
    end
  else segment :: out.

Definition lexical_normalize (path : string) : string :=
  let prefix_len := if second_is_colon path then 2 else 0 in
  let prefix := stake prefix_len path in
  let rest := sdrop prefix_len path in
  let absolute := starts_with "/" rest in
  let body := join "/" (rev (foldl (lexical_step absolute) [] (split_char "/" rest))) in
  if is_empty prefix then
    if absolute then if is_empty body then "/" else "/" +:+ body
    else body
  else
    if absolute then if is_empty body then prefix +:+ "/" else prefix +:+ "/" +:+ body
    else prefix +:+ body.

Definition normalize_shell_path (path : string) : string := lexical_normalize (normalize_shell_path_raw path).

(** ** The gate *)

Section evaluation.
Context `{T : TreeSitter} `{G : GlobCrate} `{U : UrlCrate} `{L : Unicode} `{F : FileSystem} `{J : SerdeJson}.
Context (self : CompiledPolicy) (cwd : string).

Definition escalate_access (rule_cwd : option string) (access : AccessKind Value) : option GateDecision :=
  match evaluate_lexical_with_cwd self access rule_cwd with
  | Some (DReject reason) => Some (GReject reason)
  | Some DAsk => Some AskRuleMatch
  | _ => None
  end.

(** [cwd.join(p).to_string_lossy()] *)
Definition under_cwd (p : string) : string := from_utf8_lossy (push cwd p).

Definition evaluate_shell_path (token : string) (mode : ShellFileMode) (cwd_unpinned : bool) : option GateDecision :=
  let path := normalize_shell_path token in
  let is_absolute := is_absolute_shell_path path in
  let rule_cwd := then_some (is_absolute || negb cwd_unpinned) cwd in
  let escalate := escalate_access rule_cwd in
  let raw := normalize_shell_path_raw token in
  let raw_absolute :=
    if is_absolute_shell_path raw then Some raw
    else if cwd_unpinned then None
    else Some (normalize_shell_path_raw (under_cwd raw)) in
  let absolute := if is_absolute then path else normalize_shell_path (under_cwd path) in
  let resolved_decision :=
    match raw_absolute with
    | Some raw_absolute =>
        match follow_absolute_symlink raw_absolute absolute with
        | FollowTarget resolved => escalate (shell_access mode resolved)
        | FollowUnresolvable => Some AskFailClosed
        | FollowNone => None
        end
    | None => None
    end in
  let path_decision := escalate (shell_access mode path) in
  let anchored_decision :=
    if cwd_unpinned && negb is_absolute then None
    else combine_gate_decisions (escalate (shell_access mode absolute)) resolved_decision in
  let decision := combine_gate_decisions path_decision anchored_decision in
  combine_gate_decisions decision (then_some (cwd_unpinned && negb is_absolute) AskFailClosed).

(** The decision so far and [forced_ask]. *)
Definition GateState : Type := option GateDecision * bool.

Definition evaluate_redirect (cwd_unpinned : bool) (cwd_changes : list CwdPoison) (st : GateState)
    (redirect : ShellRedirectTarget) : GateState :=
  let '(decision, forced_ask) := st in
  let forced_ask := forced_ask || rt_ambiguous redirect in
  match rt_path redirect with
  | Some path =>
      let unpinned := cwd_unpinned || cwd_unpinned_before cwd_changes (rt_start_byte redirect) (rt_scope redirect) in
      (combine_gate_decisions decision (evaluate_shell_path path (rt_mode redirect) unpinned), forced_ask)
  | None => (decision, forced_ask)
  end.

(** One operand with its mode. *)
Definition evaluate_operand (unpinned : bool) (st : GateState) (op : string * ShellFileMode) : GateState :=
  let '(decision, forced_ask) := st in
  (combine_gate_decisions decision (evaluate_shell_path op.1 op.2 unpinned),
   forced_ask || shell_arg_is_ambiguous op.1).

(** The operands of readers and writers; a token is checked once per mode. *)
Definition evaluate_candidate (unpinned : bool) (modes : list ShellFileMode) (st : GateState) (token : string) : GateState :=
  let '(decision, forced_ask) := st in
  (foldl (fun d mode => combine_gate_decisions d (evaluate_shell_path token mode unpinned)) decision modes,
   forced_ask || shell_arg_is_ambiguous token).

Definition candidate_modes (program : string) (ws : list string) : list ShellFileMode :=
  match shell_file_mode program with
  | Some ModeRead => if (program =s? "sed") && shell_sed_in_place ws then [ModeRead; ModeWrite] else [ModeRead]
  | Some ModeWrite => if (program =s? "sed") && shell_sed_in_place ws then [ModeRead; ModeWrite] else [ModeWrite]
  | Some ModeCreate => if (program =s? "sed") && shell_sed_in_place ws then [ModeRead; ModeWrite] else []
  | None => []
  end.

(** What an inline script adds; [inline] is absent when the depth is used up. *)
Definition evaluate_inline (inline : option (string -> bool -> option GateDecision)) (parse_failed unpinned : bool)
    (ws : list ShellWord) (st : GateState) : GateState :=
  let '(decision, forced_ask) := st in
  let inline_script := shell_dash_c_script ws in
  let forced_ask := forced_ask || (parse_failed && match inline_script with NotInline => false | _ => true end) in
  match inline_script with
  | InlineLiteral index =>
      match inline with
      | None => (decision, true)
      | Some rec => match ws !! index with
                    | Some (Literal inner) => (combine_gate_decisions decision (rec inner unpinned), forced_ask)
                    | _ => (decision, forced_ask)
                    end
      end
  | Untrusted | Unrecognized => (decision, true)
  | NotInline => (decision, forced_ask)
  end.

(** The files of one invocation, its wrappers peeled off. *)
Definition evaluate_files (parse_failed unpinned : bool) (ws : list ShellWord) (st : GateState) : GateState :=
  match ws with
  | Literal program :: _ =>
      let program := to_ascii_lowercase (basename program) in
      if is_one_of ["cd"; "pushd"; "popd"] program then st
      else
        let literals := literal_words ws in
        let has_ambiguous_word := existsb (fun w => match w with UntrustedWord => true | _ => false end) ws in
        let candidates := shell_file_candidates literals in
        let path_operands := shell_path_command_operands program literals in
        let is_known := (program =s? "dd") || is_some (shell_file_mode program) || is_some path_operands in
        let st := (st.1, st.2 || (is_known && (unpinned || has_ambiguous_word || parse_failed))) in
        let st := foldl (evaluate_operand unpinned) st (special_file_operands program literals) in
        if program =s? "dd" then st
        else match path_operands with
        | Some operands => foldl (evaluate_operand unpinned) st operands
        | None =>
            match candidate_modes program literals with
            | [] => st
            | modes =>
                let st := foldl (evaluate_candidate unpinned modes) st candidates in
                (st.1, st.2 || shell_reader_can_recurse program literals candidates)
            end
        end
  | _ => st
  end.

Definition evaluate_invocation (inline : option (string -> bool -> option GateDecision)) (parse_failed cwd_unpinned : bool)
    (cwd_changes : list CwdPoison) (st : GateState) (invocation : ShellInvocation) : GateState :=
  let peeled := unwrap_invocation_checked invocation in
  let unpinned := cwd_unpinned
    || cwd_unpinned_before cwd_changes (inv_start_byte invocation) (inv_scope invocation) || ip_has_chdir peeled in
  let st := (st.1, st.2 || ip_exhausted peeled || ip_has_split_string peeled || ip_env_options_uncertain peeled
                   || ip_transparent_ambiguous peeled) in
  let st := evaluate_inline inline parse_failed unpinned (ip_words peeled) st in
  evaluate_files parse_failed unpinned (ip_words peeled) st.

Fixpoint evaluate_shell_file_access_inner (inline_depth_remaining : nat) (cmd : string)
    (cwd_unpinned entered_inline : bool) : option GateDecision :=
  match try_parse_shell cmd with
  | None => then_some entered_inline AskFailClosed
  | Some tree =>
      let root := root_node tree in
      let parse_failed := has_error tree in
      let cwd_changes := cwd_poison_positions root cmd in
      let st := (None, entered_inline && parse_failed) in
      let st := foldl (evaluate_redirect cwd_unpinned cwd_changes) st (shell_redirect_targets root cmd) in
      let inline := match inline_depth_remaining with
                    | O => None
                    | S n => Some (fun inner unpinned => evaluate_shell_file_access_inner n inner unpinned true)
                    end in
      let '(decision, forced_ask) :=
        foldl (evaluate_invocation inline parse_failed cwd_unpinned cwd_changes) st (shell_command_invocations root cmd) in
      combine_gate_decisions decision (then_some forced_ask AskFailClosed)
  end.

Definition evaluate_shell_file_access_gate (cmd : string) : option GateDecision :=
  if negb (has_file_restrictions self) then None
  else evaluate_shell_file_access_inner MAX_INLINE_SHELL_DEPTH cmd false false.

Definition evaluate_shell_file_access (cmd : string) : option PermDecision :=
  into_decision <$> evaluate_shell_file_access_gate cmd.
End evaluation.

(** ** Paths a command writes *)

Definition command_words_write_paths (ws : list string) : list string :=
  let inner := unwrap_wrappers ws in
  match inner with
  | [] => []
  | h :: _ =>
      let program := to_ascii_lowercase (basename h) in
      let writes := filter_map (fun '(path, mode) => match mode with ModeWrite => Some path | _ => None end) in
      let out := writes (special_file_operands program inner) in
      match shell_path_command_operands program inner with
      | Some operands => out ++ writes operands
      | None =>
          if match shell_file_mode program with Some ModeWrite => true | _ => false end
             || ((program =s? "sed") && shell_sed_in_place inner)
          then out ++ shell_file_candidates inner
          else out
      end
  end.

Definition command_words_creation_paths (ws : list string) : list string :=
  let inner := unwrap_wrappers ws in
  match inner with
  | [] => []
  | h :: _ =>
      filter_map (fun '(path, mode) => match mode with ModeCreate => Some path | _ => None end)
        (unwrap_or [] (shell_path_command_operands (to_ascii_lowercase (basename h)) inner))
  end.

Record WritePathsSplit : Type := MkWriteSplit {
  redirect_paths : list string; unextracted_write_redirect : bool;
  word_paths : list string; creation_paths : list string }.

Definition command_write_paths_split (root : Node) (src : string) : WritePathsSplit :=
  let writes := List.filter (fun r => match rt_mode r with ModeWrite => true | _ => false end)
                  (shell_redirect_targets root src) in
  let words := literal_words ∘ inv_words <$> shell_command_invocations root src in
  MkWriteSplit (filter_map rt_path writes) (existsb (fun r => negb (is_some (rt_path r))) writes)
    (words ≫= command_words_write_paths) (words ≫= command_words_creation_paths).

Definition command_write_paths_in_tree (root : Node) (src : string) : list string :=
  let split := command_write_paths_split root src in redirect_paths split ++ word_paths split.

Definition is_safe_write_sink (path : string) : bool := is_one_of ["/dev/null"; "/dev/stdout"; "/dev/stderr"] path.

(** ** Protected edit targets *)

Inductive ProtectedEditReason : Type :=
| HookRoot | GitHooks | Ssh | StartupFile | Etc | GrokConfig | GrokSandbox | ClaudeSettings | CursorHooks | Sensitive.

Definition reason_kind (r : ProtectedEditReason) : string :=
  match r with
  | HookRoot => "hook_root" | GitHooks => "git_hooks" | Ssh => "ssh" | StartupFile => "startup_file" | Etc => "etc"
  | GrokConfig => "grok_config" | GrokSandbox => "grok_sandbox" | ClaudeSettings => "claude_settings"
  | CursorHooks => "cursor_hooks" | Sensitive => "sensitive"
  end.

Definition STARTUP_FILES : list string :=
  [".bashrc"; ".bash_profile"; ".bash_login"; ".bash_logout"; ".profile"; ".zshrc"; ".zshenv"; ".zprofile";
   ".zlogin"; ".zlogout"; ".kshrc"; ".cshrc"; ".tcshrc"; ".login"; ".logout"; ".inputrc"; ".xprofile"].

(** Slices of component names. *)
Fixpoint starts_at (pat l : list string) : bool :=
  match pat, l with
  | [], _ => true
  | a :: pat', b :: l' => (a =s? b) && starts_at pat' l'
  | _ :: _, [] => false
  end.
(** [windows(pat.len()).any(|w| w == pat)] *)
Fixpoint has_window (pat l : list string) : bool :=
  match l with
  | [] => starts_at pat []
  | _ :: l' => starts_at pat l || has_window pat l'
  end.
(** [ends_with] *)
Definition names_end_with (pat l : list string) : bool :=
  bool_decide (length pat <= length l)%nat && bool_decide (drop (length l - length pat) l = pat).

(** A [.git] followed by [modules], a name, and [hooks] somewhere after it. *)
Fixpoint submodule_hooks (l : list string) : bool :=
  match l with
  | [] => false
  | c :: l' =>
      ((c =s? ".git") && match l' with
                         | m :: l'' => (m =s? "modules") && is_one_of (drop 1 l'') "hooks"
                         | [] => false
                         end)
      || submodule_hooks l'
  end.
Definition protected_git_hooks_path (components : list string) : bool :=
  has_window [".git"; "hooks"] components || submodule_hooks components.

(** [xai_grok_config]: the names of its files; the user's directory is an
    argument. *)
Definition USER_CONFIG_FILENAME : string := "config.toml".
Definition MANAGED_CONFIG_FILENAME : string := "managed_config.toml".
Definition REQUIREMENTS_FILENAME : string := "requirements.toml".
Definition SANDBOX_CONFIG_FILENAME : string := "sandbox.toml".

Section protected.
Context `{F : FileSystem} (user_grok_home : option string).

Definition grok_home_matches (pred : string -> bool) : bool :=
  match user_grok_home with
  | Some home =>
      let lexical := normalize_lexically home in
      pred lexical || match resolve_following_symlinks lexical with Some r => pred r | None => false end
  | None => false
  end.

Definition path_is_under_user_grok_hook_root (path grok_home : string) : bool :=
  path_starts_with path (push grok_home "hooks") || path_same path (push grok_home "hooks-paths").

Definition protected_grok_hook_root (path : string) (components : list string) : bool :=
  has_window [".grok"; "hooks"] components || names_end_with [".grok"; "hooks-paths"] components
  || grok_home_matches (path_is_under_user_grok_hook_root path).

Definition protected_grok_config_file_with_home (path : string) (components : list string) : option ProtectedEditReason :=
  reason ← match list.last components with
           | Some f => if is_one_of [USER_CONFIG_FILENAME; MANAGED_CONFIG_FILENAME; REQUIREMENTS_FILENAME] f
                       then Some GrokConfig
                       else if f =s? SANDBOX_CONFIG_FILENAME then Some GrokSandbox else None
           | None => None
           end;
  let in_dot_grok := match components !! (length components - 2)%nat with
                     | Some c => (2 <=? length components)%nat && (c =s? ".grok")
                     | None => false
                     end in
  let in_grok_home := grok_home_matches (fun home => match parent path with Some p => path_same p home | None => false end) in
  then_some (in_dot_grok || in_grok_home) reason.

(** The names of a path, in lower case. *)
Definition lower_names (path : string) : list string :=
  filter_map (fun c => match c with Normal part => Some (to_ascii_lowercase (from_utf8_lossy part)) | _ => None end)
    (components path).

Definition protected_edit_reason (path : string) : option ProtectedEditReason :=
  let components := lower_names path in
  let file := unwrap_or "" (list.last components) in
  if protected_grok_hook_root path components then Some HookRoot
  else if names_end_with [".claude"; "settings.json"] components
          || names_end_with [".claude"; "settings.local.json"] components then Some ClaudeSettings
  else if names_end_with [".cursor"; "hooks.json"] components then Some CursorHooks
  else if protected_git_hooks_path components then Some GitHooks
  else if is_one_of components ".ssh" then Some Ssh
  else if is_one_of STARTUP_FILES file then Some StartupFile
  else match protected_grok_config_file_with_home path components with
  | Some reason => Some reason
  | None => if path_same path "/etc" || path_starts_with path "/etc" then Some Etc else None
  end.

Definition resolved_path_is_within_root (resolved_path root : string) : bool :=
  unwrap_or true ((fun resolved_root => path_starts_with resolved_path resolved_root) <$> resolve_following_symlinks root).

Definition edit_target_protection (path : string) : option ProtectedEditReason :=
  if negb (is_absolute path) then Some Sensitive
  else match protected_edit_reason (normalize_lexically path) with
  | Some reason => Some reason
  | None =>
      match resolve_following_symlinks path with
      | None => Some Sensitive
      | Some resolved =>
          match protected_edit_reason resolved with
          | Some reason => Some reason
          | None => then_some (resolved_path_is_within_root resolved "/etc") Sensitive
          end
      end
  end.
End protected.

Opaque normalize_command_words MAX_INLINE_SHELL_DEPTH.

(** ** The gate sees every file *)

Section file_gate.
Context `{T : TreeSitter} `{G : GlobCrate} `{U : UrlCrate} `{L : Unicode} `{F : FileSystem} `{J : SerdeJson}.
Context (P : CompiledPolicy) (cwd : string).

(** The files the words of a command name, each with what is done to it. *)
Definition file_operands (ws : list ShellWord) : list (string * ShellFileMode) :=
  match ws with
  | Literal program :: _ =>
      let program := to_ascii_lowercase (basename program) in
      let literals := literal_words ws in
      if is_one_of ["cd"; "pushd"; "popd"] program then []
      else special_file_operands program literals ++
           if program =s? "dd" then []
           else match shell_path_command_operands program literals with
           | Some operands => operands
           | None => token ← shell_file_candidates literals; mode ← candidate_modes program literals; [(token, mode)]
           end
  | _ => []
  end.

(** Whether a command or redirect at a place in the script runs in a directory
    that is not known. *)
Definition unpinned_at (tree : Tree) (cmd : string) (unpinned : bool) (at_ : nat) (scope : ExecutionScope) : bool :=
  unpinned || cwd_unpinned_before (cwd_poison_positions (root_node tree) cmd) at_ scope.

(** With [n] levels of inline scripts left, the script names a file; [u] is
    whether the directory it is relative to is not known. *)
Inductive Touches : nat -> string -> bool -> string -> ShellFileMode -> bool -> Prop :=
| touch_redirect n cmd unpinned tree r token :
    try_parse_shell cmd = Some tree -> r ∈ shell_redirect_targets (root_node tree) cmd -> rt_path r = Some token ->
    Touches n cmd unpinned token (rt_mode r) (unpinned_at tree cmd unpinned (rt_start_byte r) (rt_scope r))
| touch_operand n cmd unpinned tree inv token mode :
    try_parse_shell cmd = Some tree -> inv ∈ shell_command_invocations (root_node tree) cmd ->
    (token, mode) ∈ file_operands (ip_words (unwrap_invocation_checked inv)) ->
    Touches n cmd unpinned token mode
      (unpinned_at tree cmd unpinned (inv_start_byte inv) (inv_scope inv) || ip_has_chdir (unwrap_invocation_checked inv))
| touch_inline n cmd unpinned tree inv i inner token mode u :
    try_parse_shell cmd = Some tree -> inv ∈ shell_command_invocations (root_node tree) cmd ->
    shell_dash_c_script (ip_words (unwrap_invocation_checked inv)) = InlineLiteral i ->
    ip_words (unwrap_invocation_checked inv) !! i = Some (Literal inner) ->
    Touches n inner
      (unpinned_at tree cmd unpinned (inv_start_byte inv) (inv_scope inv) || ip_has_chdir (unwrap_invocation_checked inv))
      token mode u ->
    Touches (S n) cmd unpinned token mode u.

#[local] Abbreviation path_rank u op := (gate_rank (evaluate_shell_path P cwd (fst op) (snd op) u)).

(** A loop each step of which adds what [Q] says. *)
Lemma fold_state_rank {A} (f : GateState -> A -> GateState) (Q : A -> Prop) t :
  (forall st x, (t <= gate_rank (f st x).1)%nat <-> (t <= gate_rank st.1)%nat \/ Q x) ->
  forall l st, (t <= gate_rank (foldl f st l).1)%nat <-> (t <= gate_rank st.1)%nat \/ exists x, x ∈ l /\ Q x.
Proof.
  intros H. induction l as [|x l IH]; intros st; cbn [foldl].
  - split; [by left|]. intros [?|(x&Hx&_)]; [done|]. by apply elem_of_nil in Hx.
  - rewrite IH, H. setoid_rewrite elem_of_cons. split; [|naive_solver].
    intros [[?|?]|(y&?&?)]; [by left|right; by eauto|right; by eauto].
Qed.

Lemma combine_le a b t : (t <= gate_rank (combine_gate_decisions a b))%nat <->
  (t <= gate_rank a)%nat \/ (t <= gate_rank b)%nat.
Proof. rewrite combine_rank. lia. Qed.

Lemma operands_rank u ops st t :
  (t <= gate_rank (foldl (evaluate_operand P cwd u) st ops).1)%nat <->
  (t <= gate_rank st.1)%nat \/ exists op, op ∈ ops /\ (t <= path_rank u op)%nat.
Proof. apply fold_state_rank. intros [d f] op. apply combine_le. Qed.

Lemma candidates_rank u modes tokens st t :
  (t <= gate_rank (foldl (evaluate_candidate P cwd u modes) st tokens).1)%nat <->
  (t <= gate_rank st.1)%nat \/
  exists op, op ∈ (token ← tokens; mode ← modes; [(token, mode)]) /\ (t <= path_rank u op)%nat.
Proof.
  rewrite (fold_state_rank _ (fun tok => exists m, m ∈ modes /\ (t <= path_rank u (tok, m))%nat)).
  - f_equiv. split.
    + intros (tok&Ht&m&Hm&H). exists (tok, m). split; [|done]. apply list_elem_of_bind. exists tok. split; [|done].
      apply list_elem_of_bind. exists m. split; [by left|done].
    + intros (op&(tok&(m&Hop&Hm)%list_elem_of_bind&Ht)%list_elem_of_bind&H).
      apply list_elem_of_singleton in Hop as ->. eauto.
  - intros [d f] tok. apply (fold_rank (fun mode => evaluate_shell_path P cwd tok mode u)).
Qed.

Lemma files_rank pf u ws st t :
  (t <= gate_rank (evaluate_files P cwd pf u ws st).1)%nat <->
  (t <= gate_rank st.1)%nat \/ exists op, op ∈ file_operands ws /\ (t <= path_rank u op)%nat.
Proof.
  assert (N : forall st : GateState, (t <= gate_rank st.1)%nat <->
    (t <= gate_rank st.1)%nat \/ exists op : string * ShellFileMode, op ∈ [] /\ (t <= path_rank u op)%nat).
  { intros s. split; [by left|]. intros [?|(x&Hx&_)]; [done|]. by apply elem_of_nil in Hx. }
  unfold evaluate_files, file_operands. destruct ws as [|[h|] ws]; [apply N| |apply N].
  set (program := to_ascii_lowercase (basename h)). set (literals := literal_words (Literal h :: ws)).
  destruct (is_one_of ["cd"; "pushd"; "popd"] program); [apply N|].
  setoid_rewrite elem_of_app. set (st1 := (st.1, _)).
  assert (S : forall (st' : GateState) (ops : list (string * ShellFileMode)), ((t <= gate_rank st'.1)%nat <-> (t <= gate_rank (foldl (evaluate_operand P cwd u) st1
      (special_file_operands program literals)).1)%nat \/ exists op, op ∈ ops /\ (t <= path_rank u op)%nat) ->
    (t <= gate_rank st'.1)%nat <-> (t <= gate_rank st.1)%nat \/
      exists op, (op ∈ special_file_operands program literals \/ op ∈ ops) /\ (t <= path_rank u op)%nat).
  { intros st' ops H. rewrite operands_rank in H. rewrite H. subst st1. cbn [fst]. naive_solver. }
  apply S. clear S. destruct (program =s? "dd"); [apply N|].
  destruct (shell_path_command_operands program literals) as [ops|]; [apply operands_rank|].
  destruct (candidate_modes program literals) as [|m modes] eqn:M.
  - split; [by left|]. intros [?|(op&(tok&(m&_&Hm)%list_elem_of_bind&_)%list_elem_of_bind&_)]; [done|].
    by apply elem_of_nil in Hm.
  - cbn [fst]. apply candidates_rank.
Qed.

Lemma inline_rank inline pf u ws st t :
  (t <= gate_rank (evaluate_inline inline pf u ws st).1)%nat <->
  (t <= gate_rank st.1)%nat \/ exists i inner rec, shell_dash_c_script ws = InlineLiteral i /\
    ws !! i = Some (Literal inner) /\ inline = Some rec /\ (t <= gate_rank (rec inner u))%nat.
Proof.
  unfold evaluate_inline. destruct st as [d f]. destruct (shell_dash_c_script ws) as [|i| |];
    [naive_solver| |naive_solver|naive_solver].
  destruct inline as [rec|]; [|naive_solver]. destruct (ws !! i) as [[inner|]|] eqn:E; cbn [fst]; [|naive_solver..].
  rewrite combine_le. naive_solver.
Qed.

(** The decision procedure for inline scripts at depth [n]. *)
Definition file_inline (n : nat) : option (string -> bool -> option GateDecision) :=
  match n with
  | O => None
  | S m => Some (fun inner unpinned => evaluate_shell_file_access_inner P cwd m inner unpinned true)
  end.

(** The files and the inline scripts of the invocation add to the rank. *)
Definition invocation_adds (inline : option (string -> bool -> option GateDecision)) (u : bool) (ws : list ShellWord)
    (t : nat) : Prop :=
  (exists op, op ∈ file_operands ws /\ (t <= path_rank u op)%nat) \/
  exists i inner rec, shell_dash_c_script ws = InlineLiteral i /\ ws !! i = Some (Literal inner) /\
    inline = Some rec /\ (t <= gate_rank (rec inner u))%nat.

Lemma invocations_rank inline pf cu tree cmd invs st t :
  (t <= gate_rank (foldl (evaluate_invocation P cwd inline pf cu (cwd_poison_positions (root_node tree) cmd)) st invs).1)%nat <->
  (t <= gate_rank st.1)%nat \/ exists inv, inv ∈ invs /\
    invocation_adds inline (unpinned_at tree cmd cu (inv_start_byte inv) (inv_scope inv)
      || ip_has_chdir (unwrap_invocation_checked inv)) (ip_words (unwrap_invocation_checked inv)) t.
Proof.
  apply fold_state_rank. intros st' inv. unfold evaluate_invocation. rewrite files_rank, inline_rank. cbn [fst].
  unfold invocation_adds, unpinned_at. naive_solver.
Qed.

Lemma redirects_rank cu tree cmd rs st t :
  (t <= gate_rank (foldl (evaluate_redirect P cwd cu (cwd_poison_positions (root_node tree) cmd)) st rs).1)%nat <->
  (t <= gate_rank st.1)%nat \/ exists r, r ∈ rs /\ exists token, rt_path r = Some token /\
    (t <= path_rank (unpinned_at tree cmd cu (rt_start_byte r) (rt_scope r)) (token, rt_mode r))%nat.
Proof.
  apply fold_state_rank. intros [d f] r. unfold evaluate_redirect, unpinned_at. destruct (rt_path r); cbn [fst];
    [rewrite combine_le|]; naive_solver.
Qed.

Lemma inner_rank n cmd cu ei t : (2 <= t)%nat ->
  (t <= gate_rank (evaluate_shell_file_access_inner P cwd n cmd cu ei))%nat <->
  exists tree, try_parse_shell cmd = Some tree /\
    ((exists r, r ∈ shell_redirect_targets (root_node tree) cmd /\ exists token, rt_path r = Some token /\
       (t <= path_rank (unpinned_at tree cmd cu (rt_start_byte r) (rt_scope r)) (token, rt_mode r))%nat) \/
     exists inv, inv ∈ shell_command_invocations (root_node tree) cmd /\
       invocation_adds (file_inline n) (unpinned_at tree cmd cu (inv_start_byte inv) (inv_scope inv)
         || ip_has_chdir (unwrap_invocation_checked inv)) (ip_words (unwrap_invocation_checked inv)) t).
Proof.
  intros Ht. assert (Unf : evaluate_shell_file_access_inner P cwd n cmd cu ei =
    match try_parse_shell cmd with
    | None => then_some ei AskFailClosed
    | Some tree =>
        let st := foldl (evaluate_invocation P cwd (file_inline n) (has_error tree) cu (cwd_poison_positions (root_node tree) cmd))
          (foldl (evaluate_redirect P cwd cu (cwd_poison_positions (root_node tree) cmd)) (None, ei && has_error tree)
             (shell_redirect_targets (root_node tree) cmd)) (shell_command_invocations (root_node tree) cmd) in
        combine_gate_decisions st.1 (then_some st.2 AskFailClosed)
    end).
  { destruct n; cbn [evaluate_shell_file_access_inner file_inline]; (destruct (try_parse_shell cmd); [|done]);
      cbv zeta; match goal with |- context [foldl ?f ?s (shell_command_invocations ?r ?c)] =>
        destruct (foldl f s (shell_command_invocations r c)) end; done. }
  rewrite Unf. destruct (try_parse_shell cmd) as [tree|]; [|destruct ei; cbn; naive_solver lia].
  cbv zeta. rewrite combine_le, invocations_rank, redirects_rank. cbn [fst gate_rank].
  assert (R : ~ (t <= 0)%nat) by lia.
  match goal with |- context [then_some ?b AskFailClosed] =>
    assert (R' : ~ (t <= gate_rank (then_some b AskFailClosed))%nat) by (destruct b; cbn; lia) end.
  split; [|naive_solver]. intros [[[?|?]|?]|?]; [done|eauto..|done].
Qed.

Lemma touches_rank n cmd cu ei t : (2 <= t)%nat ->
  (t <= gate_rank (evaluate_shell_file_access_inner P cwd n cmd cu ei))%nat <->
  exists token mode u, Touches n cmd cu token mode u /\ (t <= gate_rank (evaluate_shell_path P cwd token mode u))%nat.
Proof.
  intros Ht. split.
  - revert cmd cu ei. induction n as [|n IH]; intros cmd cu ei (tree&E&[(r&Hr&tok&Hp&H)|(inv&Hi&[([tok m]&Ho&H)|
      (i&inner&rec&Hd&Hl&Hrec&H)])])%inner_rank; try done.
    all: try (eexists _, _, _; split; [first [by eapply touch_redirect | by eapply touch_operand]|done]).
    injection Hrec as <-. apply IH in H as (tok&m&u&X&H). eexists _, _, _. split; [by eapply touch_inline|done].
  - intros (token&mode&u&X&H). revert ei. induction X as [n cmd cu tree r tok E Hr Hp|n cmd cu tree inv tok m E Hi Ho|
      n cmd cu tree inv i inner tok m u E Hi Hd Hl X IH]; intros ei; apply inner_rank; try done; exists tree; split; try done.
    + left. eauto.
    + right. exists inv. split; [done|]. left. exists (tok, m). done.
    + right. exists inv. split; [done|]. right. eexists _, _, _. split_and!; [done|done|done|]. by apply IH.
Qed.

(** The directory the rules are anchored to for a token. *)
Definition anchor (token : string) (u : bool) : option string :=
  then_some (is_absolute_shell_path (normalize_shell_path token) || negb u) cwd.

(** The spellings of a token the rules see: its normalized text and, unless it
    is relative to an unknown directory, its absolute form and where links take
    it. *)
Definition spellings (token : string) (u : bool) : list string :=
  let path := normalize_shell_path token in
  let is_absolute := is_absolute_shell_path path in
  let absolute := if is_absolute then path else normalize_shell_path (under_cwd cwd path) in
  let raw := normalize_shell_path_raw token in
  path ::
  if u && negb is_absolute then []
  else absolute ::
    match (if is_absolute_shell_path raw then Some raw
           else if u then None else Some (normalize_shell_path_raw (under_cwd cwd raw))) with
    | Some raw_absolute => match follow_absolute_symlink raw_absolute absolute with
                           | FollowTarget resolved => [resolved]
                           | _ => []
                           end
    | None => []
    end.

Lemma shell_path_rank token mode u t : (2 <= t)%nat ->
  (t <= gate_rank (evaluate_shell_path P cwd token mode u))%nat <->
  exists q, q ∈ spellings token u /\ (t <= gate_rank (escalate_access P (anchor token u) (shell_access mode q)))%nat.
Proof.
  intros Ht. unfold evaluate_shell_path, spellings, anchor. cbv zeta. rewrite !combine_le.
  set (path := normalize_shell_path token). set (abs := is_absolute_shell_path path).
  set (e := escalate_access P _). setoid_rewrite elem_of_cons.
  assert (Z : ~ (t <= gate_rank (then_some (u && negb abs) AskFailClosed))%nat) by (destruct (_ && _); cbn; lia).
  destruct (u && negb abs) eqn:B.
  - setoid_rewrite elem_of_nil. cbn [gate_rank]. split; [|naive_solver]. intros [[?|?]|?]; [by eauto|lia|done].
  - rewrite combine_le. setoid_rewrite elem_of_cons.
    set (absolute := if abs then path else _). set (raw := if is_absolute_shell_path _ then _ else _).
    destruct raw as [raw|]; [destruct (follow_absolute_symlink raw absolute)|]; cbn [gate_rank rank];
      repeat setoid_rewrite elem_of_cons; setoid_rewrite elem_of_nil;
      (split; [intros [[?|[?|?]]|?]; eauto 6; try lia; done|naive_solver]).
Qed.

Lemma escalate_access_reject rc a : (3 <= gate_rank (escalate_access P rc a))%nat <->
  exists r, evaluate_lexical_with_cwd P a rc = Some (DReject r).
Proof. unfold escalate_access. destruct (evaluate_lexical_with_cwd P a rc) as [[]|]; cbn; split; naive_solver lia. Qed.

(** C19: the file gate is exact about rules.  It rejects a script exactly when a
    deny rule matches a file the script names: a redirect at any depth of the
    syntax, an operand of a reader, writer or path command under its wrappers, or
    one inside an inline script, in any of the spellings the rules see.  And
    when it stays silent no deny or ask rule matches any of them. *)
Theorem file_gate_exact cmd : has_file_restrictions P = true ->
  let gate := evaluate_shell_file_access_gate P cwd cmd in
  let names token mode q rc :=
    exists u, Touches MAX_INLINE_SHELL_DEPTH cmd false token mode u /\ q ∈ spellings token u /\ rc = anchor token u in
  ((exists r, gate = Some (GReject r)) <->
   exists token mode q rc r, names token mode q rc /\
     evaluate_lexical_with_cwd P (shell_access mode q) rc = Some (DReject r)) /\
  (gate = None -> forall token mode q rc, names token mode q rc ->
     escalate_access P rc (shell_access mode q) = None).
Proof.
  intros R gate names. unfold gate, evaluate_shell_file_access_gate. rewrite R. cbn [negb].
  set (n := MAX_INLINE_SHELL_DEPTH) in *. split.
  - rewrite <- gate_rank_reject.
    assert (I : gate_rank (evaluate_shell_file_access_inner P cwd n cmd false false) = 3 <->
      (3 <= gate_rank (evaluate_shell_file_access_inner P cwd n cmd false false))%nat).
    { pose proof (gate_rank_le (evaluate_shell_file_access_inner P cwd n cmd false false)). lia. }
    rewrite I, touches_rank by lia. setoid_rewrite shell_path_rank; [|lia].
    setoid_rewrite escalate_access_reject. unfold names. naive_solver.
  - intros N token mode q rc (u&X&Hq&->). destruct (escalate_access P _ _) eqn:E; [|done]. exfalso.
    assert (H : (2 <= gate_rank (evaluate_shell_file_access_inner P cwd n cmd false false))%nat).
    { apply touches_rank; [done|]. eexists _, _, _. split; [done|]. apply shell_path_rank; [done|].
      exists q. split; [done|]. rewrite E. unfold escalate_access in E.
      destruct (evaluate_lexical_with_cwd P _ _) as [[]|]; simplify_eq; cbn; lia. }
    rewrite N in H. cbn in H. lia.
Qed.
End file_gate.

(** ** The two normalizations agree *)

Lemma lexical_walk pieces out : Forall (fun s => s <> "..") out -> Forall (fun t => no_slash t = true) pieces ->
  foldl (lexical_step true) out pieces = walk out (filter_map body_component pieces).
Proof.
  intros Ho Hp. revert out Ho. induction Hp as [|t pieces Ht _ IH]; intros out Ho; [done|]. cbn [foldl filter_map].
  unfold lexical_step at 2, body_component at 1.
  destruct ((t =s? "") || (t =s? ".")); [by apply IH|].
  destruct (String.eqb_spec t "..") as [->|N]; unfold walk; cbn [foldl walk_step].
  - destruct Ho as [|s out Hs Ho]; cbn [tl negb]; [by apply IH|].
    destruct (String.eqb_spec s ".."); [done|]. cbn [negb]. by apply IH.
  - apply IH. by constructor.
Qed.

(** The normalization the shell gate has of its own computes, for a path
    from the root, the same as the one the tools' paths go through, so that
    both gates ask the rules about the same path. *)
Theorem shell_normalize_agrees p : is_absolute p = true -> second_is_colon p = false ->
  lexical_normalize p = normalize_lexically p.
Proof.
  intros A C. rewrite (normalize_place p A). unfold lexical_normalize. rewrite C. cbn [stake sdrop is_empty].
  change (is_empty "") with true. cbn iota. unfold is_absolute in A. rewrite A.
  rewrite lexical_walk by (done || apply split_char_no_slash).
  assert (W : walk [] (filter_map body_component (split_char "/" p)) = walk [] (components p)).
  { unfold components. by rewrite (A : is_absolute p = true). }
  rewrite W. change (rev (walk [] (components p))) with (place p).
  pose proof (place_wf p A) as Hw. destruct (place p) as [|n names]; [done|].
  destruct (join_names_short n names Hw) as [N _]. unfold is_empty.
  by destruct (String.eqb_spec (join "/" (n :: names)) "").
Qed.

Lemma shell_normalize_agrees_witness : lexical_normalize "/w/a/./../secret" = normalize_lexically "/w/a/./../secret".
Proof. apply shell_normalize_agrees; vm_compute; reflexivity. Defined.

(** ** Unprotected edits *)

Section unprotected.
Context `{F : FileSystem} (home : option string).

Lemma has_window_false pat l a b : pat <> [] -> has_window pat l = false -> l <> a ++ pat ++ b.
Proof.
  intros Ne H ->. revert H. assert (S : forall b, starts_at pat (pat ++ b) = true).
  { clear. induction pat as [|x pat IH]; intros b; [done|]. cbn. by rewrite String.eqb_refl, IH. }
  induction a as [|x a IH]; cbn [app].
  - destruct (pat ++ b) as [|y l] eqn:E; [by destruct pat|]. cbn [has_window]. rewrite <- E, S. done.
  - cbn [has_window]. by intros [_ H%IH]%orb_false_iff.
Qed.

Lemma is_prefix_app l k : is_prefix l k = true <-> exists r, k = l ++ r.
Proof.
  revert k. induction l as [|c l IH]; intros k; cbn; [naive_solver|].
  destruct k as [|d k]; [naive_solver|]. rewrite andb_true_iff, bool_decide_eq_true, IH. naive_solver.
Qed.

(** No protected place is met on the way. *)
Definition harmless (q : string) : Prop :=
  ".ssh" ∉ lower_names q /\ (forall f, list.last (lower_names q) = Some f -> f ∉ STARTUP_FILES) /\
  (forall a b, lower_names q <> a ++ [".git"; "hooks"] ++ b) /\ (forall a b, lower_names q <> a ++ [".grok"; "hooks"] ++ b) /\
  (forall r, components q <> [RootDir; Normal "etc"] ++ r).

Lemma is_one_of_false l s : is_one_of l s = false -> s ∉ l.
Proof.
  intros H Hs%list_elem_of_In. assert (is_one_of l s = true); [|congruence].
  apply existsb_exists. exists s. split; [done|apply String.eqb_refl].
Qed.

Lemma unprotected_harmless q : protected_edit_reason home q = None -> harmless q.
Proof.
  unfold protected_edit_reason. intros H.
  destruct (protected_grok_hook_root home q (lower_names q)) eqn:E1; [done|]. destruct (names_end_with [".claude"; _] _ || _) eqn:E2; [done|].
  destruct (names_end_with [".cursor"; _] _) eqn:E3; [done|]. destruct (protected_git_hooks_path _) eqn:E4; [done|].
  destruct (is_one_of (lower_names q) ".ssh") eqn:E5; [done|]. destruct (is_one_of STARTUP_FILES _) eqn:E6; [done|].
  destruct (protected_grok_config_file_with_home _ _ _); [done|]. destruct (_ || path_starts_with q "/etc") eqn:E7; [done|].
  unfold protected_grok_hook_root in E1. rewrite !orb_false_iff in E1. destruct E1 as [[E1 _] _].
  apply orb_false_iff in E4 as [E4 _]. apply orb_false_iff in E7 as [_ E7]. split_and!.
  - by apply is_one_of_false.
  - intros f Hf. rewrite Hf in E6. by apply is_one_of_false.
  - intros a b. by apply has_window_false.
  - intros a b. by apply has_window_false.
  - intros r Hr. assert (X : path_starts_with q "/etc" = true) by (apply is_prefix_app; by exists r). congruence.
Qed.

(** An edit is accepted without confirmation only when its target is
    absolute, all links on the way resolve, and neither the path as written nor
    the place it resolves to is in a hooks directory, under [.ssh] or [/etc], or
    a shell's startup file. *)
Theorem unprotected_edit_is_harmless path : edit_target_protection home path = None ->
  is_absolute path = true /\ harmless (normalize_lexically path) /\
  exists resolved, resolve_following_symlinks path = Some resolved /\ harmless resolved /\
    resolved_path_is_within_root resolved "/etc" = false.
Proof.
  unfold edit_target_protection. destruct (is_absolute path); [|done]. cbn [negb].
  destruct (protected_edit_reason home (normalize_lexically path)) eqn:E1; [done|].
  destruct (resolve_following_symlinks path) as [resolved|]; [|done].
  destruct (protected_edit_reason home resolved) eqn:E2; [done|].
  destruct (resolved_path_is_within_root resolved "/etc") eqn:E3; [done|]. intros _.
  split_and!; [done|by apply unprotected_harmless|]. exists resolved. split_and!; [done|by apply unprotected_harmless|done].
Qed.
End unprotected.

(** ** Concrete runs *)

Module FileSample.
#[local] Existing Instances Sample.one_command Sample.prefix_glob Sample.no_urls Sample.ascii_lower Tree.serde.

(** Every path exists and there are no links. *)
#[local] Instance plain_files : FileSystem := {|
  canonicalize p := Some (normalize_lexically p); symlink_metadata _ := Ok false; read_link _ := None |}.

Definition deny_secret : CompiledPolicy :=
  CompiledPolicy_new (PermissionConfig_new [MkRule RDeny FRead (Some "/w/secret") Glob]).

Lemma file_gate_exact_witness :
  (exists r, evaluate_shell_file_access_gate deny_secret "/w" "timeout 5 cat a/../secret" = Some (GReject r)) /\
  exists token mode u, Touches MAX_INLINE_SHELL_DEPTH "timeout 5 cat a/../secret" false token mode u.
Proof.
  assert (H : exists r, evaluate_shell_file_access_gate deny_secret "/w" "timeout 5 cat a/../secret" = Some (GReject r))
    by (eexists; vm_compute; reflexivity).
  split; [exact H|].
  destruct (file_gate_exact deny_secret "/w" "timeout 5 cat a/../secret" ltac:(vm_compute; reflexivity)) as [[N _] _].
  destruct (N H) as (token&mode&q&rc&r&(u&X&_)&_). exact (ex_intro _ token (ex_intro _ mode (ex_intro _ u X))).
Defined.

Lemma unprotected_edit_is_harmless_witness :
  harmless "/w/src/main.rs" /\ edit_target_protection (Some "/home/u/.grok") "/w/.git/hooks/pre-push" = Some GitHooks.
Proof.
  split; [|vm_compute; reflexivity].
  apply (unprotected_edit_is_harmless (Some "/home/u/.grok") "/w/src/main.rs"). vm_compute. reflexivity.
Defined.

(** A directory whose name is one character and a colon is taken for a drive, so
    that a parent component after it is not resolved: the direct read of the file
    is rejected, and so is the shell's read through another directory, but not
    the shell's read through such a directory. *)
Theorem drive_name_hides_parent :
  normalize_lexically (push "/w" "x:/../secret") = "/w/secret" /\
  (exists r, evaluate_lexical_with_cwd deny_secret (Read (Some "x:/../secret")) (Some "/w") = Some (DReject r)) /\
  (exists r, evaluate_shell_file_access_gate deny_secret "/w" "cat y/../secret" = Some (GReject r)) /\
  evaluate_shell_file_access_gate deny_secret "/w" "cat x:/../secret" = None.
Proof. split_and!; try (eexists; vm_compute; reflexivity); vm_compute; reflexivity. Qed.
End FileSample.
