(* ===== verification/PermGate.v ===== *)
(** * [xai-grok-workspace], [permission/gate_preflight.rs]

    The managed policy's answer to one request: the direct pass over the rules,
    the bash command gate and the shell file gate, evaluated once and combined.
    The theorems compose what the three files below show of each part. *)

From S2P Require Import Prelude RustStr Json Paths PermRules BashCommand PermPolicy ShellAccess.

(** The labels of [manager/reasons.rs] this file uses. *)
Definition POLICY_ASK : string := "policy_ask".
Definition BASH_COMMAND_GATE_ASK : string := "bash_command_gate_ask".
Definition SHELL_FILE_GATE_ASK : string := "shell_file_gate_ask".

Record GatePreflight : Type := MkPreflight {
  direct : option PermDecision; bash_command : option GateDecision; shell_file : option GateDecision;
  native_symlink_fail_closed : bool; pf_defers_gate_ask : bool }.

Definition is_direct_ask (d : option PermDecision) : bool := match d with Some DAsk => true | _ => false end.
Definition is_rule_match (g : option GateDecision) : bool := match g with Some AskRuleMatch => true | _ => false end.
Definition is_fail_closed (g : option GateDecision) : bool := match g with Some AskFailClosed => true | _ => false end.
Definition gate_is_ask (g : option GateDecision) : bool := match g with Some g => is_ask g | None => false end.

Section preflight.
Context `{T : TreeSitter} `{G : GlobCrate} `{U : UrlCrate} `{L : Unicode} `{F : FileSystem} `{J : SerdeJson}.

Definition preflight_evaluate (policy : option CompiledPolicy) (access : AccessKind Value) (cwd : string)
    (auto_mode : bool) : GatePreflight :=
  let '(direct, native_symlink_fail_closed) :=
    match policy with
    | Some policy => evaluate_with_cwd_details policy access (Some cwd)
    | None => (None, false)
    end in
  let '(bash_command, shell_file) :=
    match policy, access with
    | Some policy, Bash cmd => (evaluate_bash_command_gate policy cmd, evaluate_shell_file_access_gate policy cwd cmd)
    | _, _ => (None, None)
    end in
  let rule_match_ask := is_direct_ask direct || is_rule_match bash_command || is_rule_match shell_file in
  let fail_closed_ask := is_fail_closed bash_command || is_fail_closed shell_file in
  MkPreflight direct bash_command shell_file native_symlink_fail_closed
    (auto_mode && fail_closed_ask && negb rule_match_ask).
End preflight.

Definition policy_decision (p : GatePreflight) : option PermDecision :=
  combine_decisions (combine_decisions (direct p) (into_decision <$> bash_command p)) (into_decision <$> shell_file p).

Definition policy_forced_prompt (p : GatePreflight) : bool := is_direct_ask (policy_decision p).

Definition shell_file_forced_prompt (p : GatePreflight) : bool := gate_is_ask (shell_file p).

Definition shell_forced_prompt (p : GatePreflight) : bool :=
  gate_is_ask (bash_command p) || shell_file_forced_prompt p || native_symlink_fail_closed p.

Definition defers_gate_ask (p : GatePreflight) : bool := pf_defers_gate_ask p.

Definition admits_auto_classifier (p : GatePreflight) : bool := negb (policy_forced_prompt p) || defers_gate_ask p.

Definition prompt_trigger (p : GatePreflight) (auto_prompt_reason : option string) : option string :=
  if is_direct_ask (direct p) then Some POLICY_ASK
  else if defers_gate_ask p then auto_prompt_reason
  else if gate_is_ask (bash_command p) then Some BASH_COMMAND_GATE_ASK
  else if shell_file_forced_prompt p then Some SHELL_FILE_GATE_ASK
  else auto_prompt_reason.

(** ** What the combination promises *)

(** The verdicts the rules give: no other kind reaches the preflight. *)
Definition rule_verdict (d : option PermDecision) : Prop :=
  d = None \/ d = Some DAllow \/ d = Some DAsk \/ exists r, d = Some (DReject r).

Section theorems.
Context `{T : TreeSitter} `{G : GlobCrate} `{U : UrlCrate} `{L : Unicode} `{F : FileSystem} `{J : SerdeJson}.

Lemma combine_verdicts a b : rule_verdict a -> rule_verdict b -> rule_verdict (combine_decisions a b).
Proof.
  unfold rule_verdict. intros [-> | [-> | [-> | [r ->]]]] [-> | [-> | [-> | [r' ->]]]]; cbn; eauto.
Qed.

Lemma details_verdict P access cwd : rule_verdict (evaluate_with_cwd_details P access cwd).1.
Proof.
  pose proof (lexical_kinds P access cwd) as K. unfold evaluate_with_cwd_details.
  destruct (native_file_path access); [|done]. destruct (raw_absolute_tool_path _ _); [|done].
  destruct (follow_absolute_symlink _ _) as [|t|]; [done| |].
  - apply combine_verdicts; [done|]. destruct (_ ≫= _) as [[]|]; unfold rule_verdict; eauto.
  - destruct (native_path_restrictions_apply P access); [|done]. apply combine_verdicts; [done|]. unfold rule_verdict. eauto.
Qed.

Lemma preflight_direct policy access cwd auto : rule_verdict (direct (preflight_evaluate policy access cwd auto)).
Proof.
  unfold preflight_evaluate. destruct policy as [P|]; [|by destruct access; left].
  pose proof (details_verdict P access (Some cwd)) as V. destruct (evaluate_with_cwd_details _ _ _) as [d m].
  by destruct access.
Qed.

Lemma gate_verdict g : rule_verdict (into_decision <$> g).
Proof. unfold rule_verdict. destruct g as [[]|]; cbn; eauto. Qed.

(** The rank of the combined decision is the highest of the three. *)
Definition verdict_rank (d : option PermDecision) : nat := unwrap_or 0 (decision_rank <$> d).

Lemma combine_decisions_rank a b : verdict_rank (combine_decisions a b) = (verdict_rank a `max` verdict_rank b)%nat.
Proof.
  unfold verdict_rank. destruct a as [a|], b as [b|]; cbn; try lia.
  destruct (Nat.leb_spec (decision_rank b) (decision_rank a)); cbn; lia.
Qed.

Lemma policy_decision_rank p : verdict_rank (policy_decision p) =
  (verdict_rank (direct p) `max` verdict_rank (into_decision <$> bash_command p)
   `max` verdict_rank (into_decision <$> shell_file p))%nat.
Proof. unfold policy_decision. by rewrite !combine_decisions_rank. Qed.

Lemma preflight_verdict policy access cwd auto :
  rule_verdict (policy_decision (preflight_evaluate policy access cwd auto)).
Proof. unfold policy_decision. eauto using combine_verdicts, preflight_direct, gate_verdict. Qed.

Lemma verdict_reject d : rule_verdict d -> verdict_rank d = 3 -> exists r, d = Some (DReject r).
Proof. intros [-> | [-> | [-> | [r ->]]]]; cbn; naive_solver. Qed.

Lemma preflight_defers policy access cwd auto :
  defers_gate_ask (preflight_evaluate policy access cwd auto) =
  let p := preflight_evaluate policy access cwd auto in
  auto && (is_fail_closed (bash_command p) || is_fail_closed (shell_file p))
  && negb (is_direct_ask (direct p) || is_rule_match (bash_command p) || is_rule_match (shell_file p)).
Proof.
  unfold preflight_evaluate. destruct policy as [P|]; [destruct (evaluate_with_cwd_details _ _ _)|]; by destruct access.
Qed.

(** The combined answer is the strictest of its parts: it is an allow only
    when the rules allow directly and both gates are silent; a question that
    comes from a rule always prompts and is never handed to the classifier; and
    a question is handed over only in auto mode, and only when some part could
    not be analysed and no rule asked. *)
Theorem preflight_is_strictest policy access cwd auto :
  let p := preflight_evaluate policy access cwd auto in
  (policy_decision p = Some DAllow <-> direct p = Some DAllow /\ bash_command p = None /\ shell_file p = None) /\
  (is_direct_ask (direct p) || is_rule_match (bash_command p) || is_rule_match (shell_file p) = true ->
     (exists r, policy_decision p = Some (DReject r)) \/ policy_forced_prompt p = true /\ admits_auto_classifier p = false) /\
  (policy_forced_prompt p = true -> admits_auto_classifier p = true ->
     auto = true /\ (bash_command p = Some AskFailClosed \/ shell_file p = Some AskFailClosed) /\
     direct p <> Some DAsk /\ bash_command p <> Some AskRuleMatch /\ shell_file p <> Some AskRuleMatch).
Proof.
  cbv zeta. pose proof (preflight_direct policy access cwd auto) as V.
  pose proof (preflight_defers policy access cwd auto) as D. cbv zeta in D. revert V D.
  generalize (preflight_evaluate policy access cwd auto). intros [d b s m df]. unfold admits_auto_classifier.
  unfold policy_forced_prompt, policy_decision, defers_gate_ask. cbn [direct bash_command shell_file pf_defers_gate_ask].
  intros V ->. destruct V as [-> | [-> | [-> | [r ->]]]], b as [[]|], s as [[]|], auto; cbn; naive_solver.
Qed.

Lemma gates_reach cfg cmd cwd auto :
  let p := preflight_evaluate (Some (CompiledPolicy_new cfg)) (Bash cmd) cwd auto in
  bash_command p = evaluate_bash_command_gate (CompiledPolicy_new cfg) cmd /\
  shell_file p = evaluate_shell_file_access_gate (CompiledPolicy_new cfg) cwd cmd.
Proof. cbv zeta. unfold preflight_evaluate. by destruct (evaluate_with_cwd_details _ _ _). Qed.

Lemma reject_wins policy access cwd auto r :
  let p := preflight_evaluate policy access cwd auto in
  bash_command p = Some (GReject r) \/ shell_file p = Some (GReject r) ->
  exists r', policy_decision p = Some (DReject r').
Proof.
  cbv zeta. pose proof (preflight_verdict policy access cwd auto) as V. intros H. apply verdict_reject; [done|].
  rewrite policy_decision_rank. pose proof (preflight_direct policy access cwd auto) as D.
  assert (R : (verdict_rank (direct (preflight_evaluate policy access cwd auto)) <= 3)%nat)
    by (destruct D as [-> | [-> | [-> | [? ->]]]]; cbn; lia).
  assert (B : forall g, (verdict_rank (into_decision <$> g) <= 3)%nat) by (intros [[]|]; cbn; lia).
  pose proof (B (bash_command (preflight_evaluate policy access cwd auto))).
  pose proof (B (shell_file (preflight_evaluate policy access cwd auto))).
  destruct H as [-> | ->]; cbn in *; lia.
Qed.

(** A deny rule cannot be avoided by the way a command is written.  When a
    rule denies a command the script shows (under wrappers, in any position, in
    an inline script), or denies reading or writing a file the script names (as
    an operand or a redirect, in any spelling, through a link), the managed policy
    rejects the request, in every mode. *)
Theorem denied_is_rejected cfg cmd cwd auto r :
  r ∈ rules cfg -> rule_action r = RDeny ->
  (exists seg, Exposed MAX_INLINE_SHELL_DEPTH cmd seg /\ applies (Bash seg) None r = true) \/
  (exists token mode u q, Touches MAX_INLINE_SHELL_DEPTH cmd false token mode u /\ q ∈ spellings cwd token u /\
     applies (shell_access mode q) (anchor cwd token u) r = true) ->
  exists reason, policy_decision (preflight_evaluate (Some (CompiledPolicy_new cfg)) (Bash cmd) cwd auto)
    = Some (DReject reason).
Proof.
  intros Hr Ha [(seg&X&M)|(token&mode&u&q&X&Hq&M)].
  - assert (R : has_bash_command_restrictions (CompiledPolicy_new cfg) = true).
    { cbn. apply existsb_exists. exists r. split; [by apply list_elem_of_In|]. unfold restricts, bash_or_any. rewrite Ha.
      unfold applies, rule_matches in M. apply andb_true_iff in M as [M _]. cbn [fst] in M. by destruct (rule_tool r). }
    destruct (proj2 (gate_reject_exposed _ cmd R)) as [reason E].
    { exists seg. split; [done|]. by eapply deny_applies. }
    eapply reject_wins. left. destruct (gates_reach cfg cmd cwd auto) as [-> _]. done.
  - destruct (deny_verdict _ _ _ _ Hr Ha M) as [reason V].
    assert (R : has_file_restrictions (CompiledPolicy_new cfg) = true).
    { cbn. apply existsb_exists. exists r. split; [by apply list_elem_of_In|]. unfold restricts, file_tool. rewrite Ha.
      unfold applies, rule_matches in M. apply andb_true_iff in M as [M _]. cbn [fst] in M.
      by destruct (rule_tool r), mode. }
    assert (K : gate_rank (evaluate_shell_file_access_gate (CompiledPolicy_new cfg) cwd cmd) = 3).
    { unfold evaluate_shell_file_access_gate. rewrite R. cbn [negb].
      match goal with |- gate_rank ?g = 3 => pose proof (gate_rank_le g) end.
      assert (3 <= gate_rank (evaluate_shell_file_access_inner (CompiledPolicy_new cfg) cwd MAX_INLINE_SHELL_DEPTH cmd
        false false))%nat; [|lia].
      apply touches_rank; [lia|]. exists token, mode, u. split; [done|]. apply shell_path_rank; [lia|]. exists q.
      split; [done|]. apply escalate_access_reject. eauto. }
    apply gate_rank_reject in K as [reason' E]. eapply reject_wins. right.
    destruct (gates_reach cfg cmd cwd auto) as [_ ->]. exact E.
Qed.
End theorems.

Module GateSample.
#[local] Existing Instances Sample.one_command Sample.prefix_glob Sample.no_urls Sample.ascii_lower Tree.serde
  FileSample.plain_files.

Lemma denied_is_rejected_witness :
  exists reason, policy_decision
    (preflight_evaluate (Some (CompiledPolicy_new Sample.sample)) (Bash "nice timeout 5 rm x") "/w" true)
    = Some (DReject reason).
Proof.
  apply (denied_is_rejected Sample.sample "nice timeout 5 rm x" "/w" true Sample.deny_rm).
  - right. left.
  - reflexivity.
  - left. exists "rm x". split; [|vm_compute; reflexivity].
    apply (exposed_peeled MAX_INLINE_SHELL_DEPTH "nice timeout 5 rm x"
      [MkPlainCommand ["nice"; "timeout"; "5"; "rm"; "x"] 0 19]
      (MkPlainCommand ["nice"; "timeout"; "5"; "rm"; "x"] 0 19)); [vm_compute; reflexivity|left].
Defined.

Lemma preflight_is_strictest_witness :
  let p := preflight_evaluate (Some (CompiledPolicy_new Sample.sample)) (Bash "nice git status") "/w" true in
  direct p = Some DAllow /\ bash_command p = None /\ shell_file p = None.
Proof.
  apply (preflight_is_strictest (Some (CompiledPolicy_new Sample.sample)) (Bash "nice git status") "/w" true).
  vm_compute. reflexivity.
Defined.
End GateSample.
