(* ===== verification/ExecRisk.v ===== *)
(** * [xai-grok-workspace], [permission/exec_risk.rs] and [git_content_filters.rs]

    Which commands of a script may run other programs behind the user's back:
    flags of [git] and [sort] that name a program, and commands that the
    configuration of a git repository names.  The commands are looked at
    without their wrappers and prefixes.  libgit2 and the file system below it
    are the class [Git2]. *)

From S2P Require Import Prelude RustStr Paths BashCommand.

(** ** The command inside *)

(** The loop of [normalize_for_exec_risk] with [n] rounds left; [None] is
    [FailClosed].  All slices are suffixes of the words, so two of them are the
    same slice when their lengths agree. *)
Fixpoint exec_normalize_loop (n : nat) (current : list string) : option (list string) :=
  match n with
  | O => None
  | S n =>
      let checked := unwrap_wrappers_checked current in
      if pw_exhausted checked || pw_has_split_string checked || pw_has_chdir checked then None
      else
        let after_wrap := pw_words checked in
        match peel_transparent_prefixes after_wrap with
        | None => None
        | Some after_trans =>
            if (length after_trans =? length current)%nat then Some after_trans
            else if (length after_trans =? length after_wrap)%nat then Some after_trans
            else exec_normalize_loop n after_trans
        end
  end.
Definition normalize_for_exec_risk (ws : list string) : option (list string) :=
  exec_normalize_loop MAX_NORMALIZE_ROUNDS ws.

Definition is_ascii_alphanumeric (c : ascii) : bool := is_ascii_alpha c || is_ascii_digit c.

Definition is_accepted_long_option_prefix (flag full : string) (min_len : nat) : bool :=
  starts_with "--" flag && (min_len <=? String.length flag)%nat && starts_with flag full
  && sall (fun b => is_ascii_alphanumeric b || byte_eqb b "-") flag.

Definition strip_exe (name : string) : string := unwrap_or name (strip_suffix ".exe" name).

Definition normalized_program_name (ws : list string) : option string :=
  raw ← head ws;
  let base := basename raw in
  if is_empty base then None else Some (strip_exe (to_ascii_lowercase base)).

Definition program_is (name : string) (ws : list string) : bool :=
  match normalized_program_name ws with Some n => n =s? name | None => false end.
Definition is_git_program (ws : list string) : bool := program_is "git" ws.
Definition is_sort_program (ws : list string) : bool := program_is "sort" ws.

Definition normalized_token_basename (token : string) : string := strip_exe (to_ascii_lowercase (basename token)).

(** The text before the first equals sign. *)
Definition before_eq (w : string) : string := match split_once "=" w with Some (f, _) => f | None => w end.

(** ** Flags of [sort] and [git] *)

Fixpoint compress_program_among (ws : list string) : bool :=
  match ws with
  | [] => false
  | w :: ws =>
      if w =s? "--" then false
      else if (w =s? "--compress-program") || starts_with "--compress-program=" w then true
      else if is_accepted_long_option_prefix (before_eq w) "--compress-program" 4 then true
      else compress_program_among ws
  end.
Definition sort_has_compress_program_flag (ws : list string) : bool := compress_program_among (drop 1 ws).

Definition is_git_config_env_flag (tok : string) : bool :=
  if (tok =s? "--config-env") || starts_with "--config-env=" tok then true
  else is_accepted_long_option_prefix (before_eq tok) "--config-env" 4.

Definition is_git_repo_retarget_flag (tok : string) : bool :=
  if (tok =s? "--git-dir") || starts_with "--git-dir=" tok || (tok =s? "--work-tree")
     || starts_with "--work-tree=" tok then true
  else is_accepted_long_option_prefix (before_eq tok) "--git-dir" 4
       || is_accepted_long_option_prefix (before_eq tok) "--work-tree" 4.

Definition is_attached_git_config_c (tok : string) : bool :=
  starts_with "-c" tok && (2 <? String.length tok)%nat && negb (starts_with "--" tok).

Definition attached_git_c_path (tok : string) : option string :=
  ofilter (fun rest => negb (is_empty rest) && negb (starts_with "--" tok)) (strip_prefix "-C" tok).

Definition git_global_option_takes_value (tok : string) : bool :=
  is_one_of ["-C"; "-c"; "--git-dir"; "--work-tree"; "--namespace"; "--super-prefix"; "--exec-path"; "--list-cmds";
             "--attr-source"; "--config-env"] tok
  || is_accepted_long_option_prefix tok "--config-env" 4
  || is_accepted_long_option_prefix tok "--git-dir" 4
  || is_accepted_long_option_prefix tok "--work-tree" 4
  || is_accepted_long_option_prefix tok "--namespace" 7
  || is_accepted_long_option_prefix tok "--super-prefix" 8
  || is_accepted_long_option_prefix tok "--exec-path" 7
  || is_accepted_long_option_prefix tok "--list-cmds" 7
  || is_accepted_long_option_prefix tok "--attr-source" 8.

(** What [git] reads as an option before the subcommand. *)
Definition is_option_word (tok : string) : bool := starts_with "-" tok && negb (tok =s? "-").

(** Whether the word after [tok] is its value. *)
Definition value_follows (tok next : string) : bool :=
  negb (contains_byte "=" tok) && git_global_option_takes_value tok && negb (is_option_word next).

Definition risky_global (tok : string) : bool :=
  (tok =s? "-c") || is_attached_git_config_c tok || is_git_config_env_flag tok || is_git_repo_retarget_flag tok.

(** The loop of [git_has_exec_risk_global] from some index on. *)
Fixpoint risky_globals (ws : list string) : bool :=
  match ws with
  | [] => false
  | tok :: rest =>
      if tok =s? "--" then false
      else if negb (is_option_word tok) then false
      else if risky_global tok then true
      else if is_some (attached_git_c_path tok) then risky_globals rest
      else match rest with
           | next :: rest' => if value_follows tok next then risky_globals rest' else risky_globals rest
           | [] => false
           end
  end.
Definition git_has_exec_risk_global (ws : list string) : bool := risky_globals (drop 1 ws).

Definition segment_has_exec_risk_flag (ws : list string) : bool :=
  if is_sort_program ws then sort_has_compress_program_flag ws
  else if is_git_program ws then git_has_exec_risk_global ws
  else false.

Record SegmentExecFacts : Type := MkExecFacts { exec_risk : bool; has_git : bool }.

Definition segment_exec_facts (ws : list string) : SegmentExecFacts :=
  match normalize_for_exec_risk ws with
  | None => MkExecFacts true false
  | Some inner => MkExecFacts (segment_has_exec_risk_flag inner) (is_git_program inner)
  end.

(** ** Read-only queries *)

Definition SAFE_GIT_SUBCOMMANDS : list string :=
  ["status"; "branch"; "log"; "diff"; "ls-files"; "show"; "rev-parse"; "blame"; "grep"; "describe"; "merge-base";
   "check-ignore"; "check-attr"; "cat-file"; "ls-tree"; "show-ref"; "for-each-ref"; "rev-list"; "name-rev";
   "count-objects"; "shortlog"].

Definition GIT_QUERY_UNSAFE_OPTIONS : list string :=
  ["--filters"; "--textconv"; "--output"; "--ext-diff"; "--open-files-in-pager"].

Definition git_query_option_is_unsafe (word : string) : bool :=
  (2 <? String.length (before_eq word))%nat
  && existsb (fun full => starts_with (before_eq word) full) GIT_QUERY_UNSAFE_OPTIONS.

(** The loop of [git_safe_query_verb_index] from index [i] on. *)
Fixpoint verb_index_from (i : nat) (ws : list string) : option nat :=
  match ws with
  | [] => None
  | tok :: rest =>
      if (tok =s? "-") || (tok =s? "--") then None
      else if negb (starts_with "-" tok) then Some i
      else if tok =s? "-C" then
        match rest with _ :: rest' => verb_index_from (i + 2) rest' | [] => None end
      else if is_some (attached_git_c_path tok) || (tok =s? "--no-pager") || (tok =s? "-P")
      then verb_index_from (i + 1) rest
      else None
  end.
Definition git_safe_query_verb_index (ws : list string) : option nat := verb_index_from 1 (drop 1 ws).

Definition first_is (name : string) (ws : list string) : bool :=
  match ws with h :: _ => h =s? name | [] => false end.

Definition git_words_have_unsafe_query_option (ws : list string) : bool :=
  if negb (first_is "git" ws) then false
  else if existsb git_query_option_is_unsafe (drop 1 ws) then true
  else match git_safe_query_verb_index ws ≫= (fun i => ws !! i) with
       | Some verb => (verb =s? "grep") && existsb (starts_with "-O") (drop 1 ws)
       | None => false
       end.

Definition git_words_are_read_only_query (ws : list string) : bool :=
  if negb (first_is "git" ws) then false
  else if git_has_exec_risk_global ws then false
  else match git_safe_query_verb_index ws ≫= (fun i => ws !! i) with
       | None => false
       | Some verb => is_one_of SAFE_GIT_SUBCOMMANDS verb && negb (git_words_have_unsafe_query_option ws)
       end.

(** ** What the configuration of a repository runs *)

(** [str::rsplit_once] with a [char] *)
Fixpoint rsplit_once (c : ascii) (s : string) : option (string * string) :=
  match s with
  | EmptyString => None
  | String a s' =>
      match rsplit_once c s' with
      | Some (l, r) => Some (String a l, r)
      | None => if byte_eqb c a then Some ("", s') else None
      end
  end.

Definition filter_command_driver (name : string) : option string :=
  head ← str_get_to name 7;
  if negb (eq_ignore_ascii_case head "filter.") then None
  else
    rest ← str_get_from name 7;
    '(driver, prop) ← rsplit_once "." rest;
    then_some (negb (is_empty driver)
               && (eq_ignore_ascii_case prop "clean" || eq_ignore_ascii_case prop "smudge"
                   || eq_ignore_ascii_case prop "process")) driver.

Definition local_includeif_unsupported (name : string) : bool :=
  match str_get_to name 10 with
  | None => false
  | Some head =>
      if negb (eq_ignore_ascii_case head "includeif.") then false
      else
        let rest := unwrap_or "" (str_get_from name 10) in
        let condition := match split_once ":" rest with Some (c, _) => c | None => rest end in
        negb (is_one_of ["gitdir"; "gitdir/i"; "onbranch"] (to_ascii_lowercase condition))
  end.

(** An entry of a configuration: whether its level is local or worktree, and
    its name and value where they are UTF-8. *)
Record ConfigEntry : Type := MkConfigEntry {
  entry_is_local : bool; entry_name : option string; entry_has_value : bool; entry_value : option string }.

(** libgit2 and the files it reads. *)
Class Git2 := {
  Repository : Type;
  (** [Config::parse_bool(value).is_ok()] *)
  parses_as_bool : string -> bool;
  (** [Err true] is the error of a directory that is in no repository. *)
  discover : string -> result bool Repository;
  repo_path : Repository -> string;
  commondir : Repository -> string;
  (** [config()] and [entries(None)]; the outer [None] is their failure, an
      inner one that of reading the entry. *)
  config_entries : Repository -> option (list (option ConfigEntry));
  (** [File::open] and [metadata]: [Ok true] is a regular file that opens,
      [Err true] a file that does not exist. *)
  open_regular : string -> result bool bool }.

Section config.
Context `{Git : Git2}.

Definition path_unreadable (path : string) : bool :=
  match open_regular path with Ok is_file => negb is_file | Err not_found => negb not_found end.

(** The loop over the entries; [None] is an early return. *)
Fixpoint collect_entries (l : list (option ConfigEntry)) : option (list (string * string)) :=
  match l with
  | [] => Some []
  | None :: _ => None
  | Some entry :: l =>
      if negb (entry_is_local entry) then collect_entries l
      else
        name ← entry_name entry;
        if local_includeif_unsupported name then None
        else if entry_has_value entry then
          match entry_value entry with
          | Some value => cons (name, value) <$> collect_entries l
          | None => if is_some (filter_command_driver name) then None else collect_entries l
          end
        else if is_some (filter_command_driver name) then None
        else cons (name, "true") <$> collect_entries l
  end.

Definition read_local_git_config_entries (cwd : string) : option (list (string * string)) :=
  match discover cwd with
  | Err true => Some []
  | Err false => None
  | Ok repo =>
      if path_unreadable (push (commondir repo) "config") || path_unreadable (push (repo_path repo) "config")
         || path_unreadable (push (repo_path repo) "config.worktree") then None
      else config_entries repo ≫= collect_entries
  end.

Definition local_git_config_entry_is_exec (name value : string) : bool :=
  let name := to_ascii_lowercase name in
  let value := trim value in
  if is_empty value then false
  else if name =s? "core.fsmonitor" then negb (parses_as_bool value)
  else if name =s? "diff.external" then true
  else if match strip_prefix "diff." name with
          | Some rest => ends_with ".command" rest || ends_with ".textconv" rest || ends_with ".external" rest
          | None => false
          end then true
  else if is_some (filter_command_driver name) then true
  else match strip_prefix "alias." name with
       | Some alias => is_one_of SAFE_GIT_SUBCOMMANDS alias && starts_with "!" value
       | None => false
       end.

Definition local_repo_config_has_exec_risk (cwd : string) : bool :=
  match read_local_git_config_entries cwd with
  | None => true
  | Some entries => existsb (fun '(name, value) => local_git_config_entry_is_exec name value) entries
  end.
End config.

(** ** Where [git] runs *)

Definition is_static_path_operand (p : string) : bool :=
  negb (is_empty p) && negb (p =s? "-") && negb (starts_with "-" p) && negb (contains_byte "$" p)
  && negb (contains_byte "`" p) && negb (contains_str "$(" p).

(** [join_cwd] of this file. *)
Definition exec_join_cwd (base operand : string) : string := if is_absolute operand then operand else push base operand.

(** The loop of [apply_literal_chdir]: the operand, or [None] for an early
    return. *)
Fixpoint chdir_target (target : option string) (args : list string) : option (option string) :=
  match args with
  | [] => Some target
  | tok :: args =>
      if tok =s? "--" then Some (head args)
      else if starts_with "-" tok then None
      else if is_some target then None
      else chdir_target (Some tok) args
  end.

Definition apply_literal_chdir (cwd : string) (ws : list string) : option string :=
  target ← chdir_target None (drop 1 ws);
  target ← target;
  if negb (is_static_path_operand target) then None else Some (exec_join_cwd cwd target).

(** The loop of [git_effective_cwd]. *)
Fixpoint effective_cwd_from (cwd : string) (ws : list string) : option string :=
  match ws with
  | [] => Some cwd
  | tok :: rest =>
      if (tok =s? "--") || negb (is_option_word tok) then Some cwd
      else if is_git_repo_retarget_flag tok then None
      else if tok =s? "-C" then
        match rest with
        | path :: rest' =>
            if negb (is_static_path_operand path) then None else effective_cwd_from (exec_join_cwd cwd path) rest'
        | [] => None
        end
      else match attached_git_c_path tok with
      | Some path => if negb (is_static_path_operand path) then None else effective_cwd_from (exec_join_cwd cwd path) rest
      | None =>
          match rest with
          | next :: rest' => if value_follows tok next then effective_cwd_from cwd rest' else effective_cwd_from cwd rest
          | [] => Some cwd
          end
      end
  end.
Definition git_effective_cwd (ws : list string) (start_cwd : string) : option string :=
  effective_cwd_from start_cwd (drop 1 ws).

Inductive AmbientScanPlan : Type := FailClosed | CheckDirs (dirs : list string).

(** The loop over the segments; [None] is [FailClosed]. *)
Fixpoint ambient_dirs (cwd : string) (raw_segments : list (list string)) : option (list string) :=
  match raw_segments with
  | [] => Some []
  | raw :: raws =>
      ws ← normalize_for_exec_risk raw;
      match normalized_program_name ws with
      | Some name =>
          if (name =s? "cd") || (name =s? "pushd") then next ← apply_literal_chdir cwd ws; ambient_dirs next raws
          else if name =s? "popd" then None
          else if name =s? "git" then effective ← git_effective_cwd ws cwd; cons effective <$> ambient_dirs cwd raws
          else ambient_dirs cwd raws
      | None => ambient_dirs cwd raws
      end
  end.

Definition ambient_scan_plan_from_segments (raw_segments : list (list string)) (session_cwd : string) : AmbientScanPlan :=
  match ambient_dirs session_cwd raw_segments with
  | None | Some [] => FailClosed
  | Some dirs => CheckDirs dirs
  end.

Definition ambient_exec_risk_from_plan `{Git2} (plan : AmbientScanPlan) : bool :=
  match plan with
  | FailClosed => true
  | CheckDirs dirs => existsb local_repo_config_has_exec_risk dirs
  end.

(** ** Scripts that cannot be decomposed *)

Definition is_token_break (c : ascii) : bool :=
  byte_eqb c "|" || byte_eqb c "&" || byte_eqb c ";" || byte_eqb c "(" || byte_eqb c ")" || byte_eqb c "`"
  || byte_eqb c LF || byte_eqb c "<" || byte_eqb c ">".

(** [str::split] at white space and shell punctuation. *)
Fixpoint split_tokens (cur : string) (s : string) : list string :=
  match s with
  | EmptyString => [cur]
  | String a s1 =>
      if ws1 a || is_token_break a then cur :: split_tokens "" s1
      else match s1 with
      | String b s2 =>
          if ws2 a b then cur :: split_tokens "" s2
          else match s2 with
          | String c s3 =>
              if ws3 a b c then cur :: split_tokens "" s3 else split_tokens (cur +:+ String a "") s1
          | EmptyString => split_tokens (cur +:+ String a "") s1
          end
      | EmptyString => split_tokens (cur +:+ String a "") s1
      end
  end.

Definition is_quote_char (c : ascii) : bool := byte_eqb c "'" || byte_eqb c DQ || byte_eqb c "`".

(** [str::trim_matches] with a predicate on ASCII characters *)
Fixpoint trim_start_pred (p : ascii -> bool) (s : string) : string :=
  match s with String a s' => if p a then trim_start_pred p s' else s | EmptyString => "" end.
Fixpoint trim_end_pred (p : ascii -> bool) (s : string) : string :=
  match s with
  | EmptyString => ""
  | String a s' => if sall p s then "" else String a (trim_end_pred p s')
  end.
Definition trim_matches (p : ascii -> bool) (s : string) : string := trim_end_pred p (trim_start_pred p s).

Definition script_may_invoke_git (cmd : string) : bool :=
  existsb (fun token =>
    let trimmed := trim_matches is_quote_char token in
    negb (is_empty trimmed) && (normalized_token_basename trimmed =s? "git")) (split_tokens "" cmd).

(** ** The command that is judged is the one inside *)

Lemma unwrap_loop_stops n x c s u :
  pw_exhausted (unwrap_loop n x c s u) = false -> strip_wrapper_command (pw_words (unwrap_loop n x c s u)) = None.
Proof.
  revert x c s u. induction n as [|n IH]; intros x c s u; cbn [unwrap_loop].
  - cbn [pw_exhausted pw_words]. intros E. destruct (strip_wrapper_command x) as [y|] eqn:S; [|done].
    by rewrite (strip_is_wrapper _ _ S) in E.
  - destruct (strip_wrapper_command x) as [y|] eqn:S; [apply IH|done].
Qed.

Lemma exec_normalize_sound n x b : exec_normalize_loop n x = Some b -> rtc peel x b /\ nf peel b.
Proof.
  revert x. induction n as [|n IH]; intros x; cbn [exec_normalize_loop]; [done|].
  pose proof (unwrap_reach MAX_WRAPPER_DEPTH x false false false) as W.
  pose proof (unwrap_loop_stops MAX_WRAPPER_DEPTH x false false false) as N.
  unfold unwrap_wrappers_checked. set (w := unwrap_loop _ _ _ _ _) in *.
  destruct (pw_exhausted w); [done|]. destruct (_ || _); [done|]. specialize (N eq_refl).
  unfold peel_transparent_prefixes. destruct (peel_loop _ _) as [t|] eqn:E; [|done].
  apply peel_loop_reach in E as [R T].
  assert (R' : rtc peel x t) by by etrans.
  assert (D : t = pw_words w -> rtc peel x t /\ nf peel t).
  { intros ->. split; [done|]. intros [y [P|P]]; congruence. }
  destruct (Nat.eqb_spec (length t) (length x)) as [L|_].
  { intros [= <-]. apply D. apply peels_same; [done|]. apply peels_suffix, suffix_length in W. lia. }
  destruct (Nat.eqb_spec (length t) (length (pw_words w))) as [L|_].
  { intros [= <-]. apply D. apply peels_same; [done|lia]. }
  intros [R2 ?]%IH. split; [by etrans|done].
Qed.

(** No layer changes the directory. *)
Definition keeps_cwd (x : list string) : Prop := head_is "env" x = true -> es_chdir (env_scan x) = None.

Lemma unwrap_keeps_cwd n x s u : (forall z, rtc peel x z -> keeps_cwd z) ->
  pw_has_chdir (unwrap_loop n x false s u) = false.
Proof.
  revert x s u. induction n as [|n IH]; intros x s u H; cbn [unwrap_loop]; [done|].
  assert (head_is "env" x && is_some (es_chdir (env_scan x)) = false) as ->.
  { destruct (head_is "env" x) eqn:E; [|done]. by rewrite (H x (rtc_refl _ _) E). }
  cbn [orb]. destruct (strip_wrapper_command x) as [y|] eqn:S; [|done]. apply IH. intros z R. apply H.
  eapply rtc_l; [by left|done].
Qed.

Lemma exec_normalize_bare n k x b : bare b -> nsteps peel k x b -> (k <= 8)%nat -> (k < n)%nat ->
  (forall z, rtc peel x z -> keeps_cwd z) -> exec_normalize_loop n x = Some b.
Proof.
  intros B. revert k x. induction n as [|n IH]; intros k x H H8 Hk C; [lia|]. cbn [exec_normalize_loop].
  destruct (unwrap_loop_bare MAX_WRAPPER_DEPTH k x b false B H H8) as (k1&y&c1&L1&E1&R1&W).
  pose proof (unwrap_keeps_cwd MAX_WRAPPER_DEPTH x false false C) as C1.
  pose proof (unwrap_reach MAX_WRAPPER_DEPTH x false false false) as X1.
  unfold unwrap_wrappers_checked. rewrite E1 in *. cbn [pw_words pw_has_chdir pw_exhausted pw_has_split_string] in *.
  rewrite C1. cbn [orb].
  destruct (peel_loop_bare MAX_TRANSPARENT_PREFIX_DEPTH k1 y b B R1 ltac:(unfold MAX_TRANSPARENT_PREFIX_DEPTH; lia))
    as (k2&z&L2&E2&R2&T).
  destruct (peel_loop_reach _ _ _ E2) as [X2 _]. unfold peel_transparent_prefixes. rewrite E2.
  assert (D : z = y -> Some z = Some b).
  { intros ->. f_equal. inversion R2 as [|? ? ? ? P]; subst; [done|]. destruct P; congruence. }
  destruct (Nat.eqb_spec (length z) (length x)) as [L|L].
  { apply D. apply peels_same; [done|]. apply peels_suffix, suffix_length in X1. lia. }
  destruct (Nat.eqb_spec (length z) (length y)) as [L'|L'].
  { apply D. apply peels_same; [done|lia]. }
  apply (IH k2); [done|lia| |].
  - destruct L2 as [[? ->]|]; [done|]. destruct L1 as [[? ->]|]; lia.
  - intros v Rv. apply C. etrans; [exact X1|]. by etrans.
Qed.

(** The facts about a segment are those of the command inside it.  When
    the segment is not flagged, peeling its wrappers and prefixes ends in a
    command with no risky flag, and the scan for [git] saw that command; and a
    command under at most eight layers, none of which changes the directory, is
    judged exactly as the command alone. *)
Theorem exec_facts_inner ws :
  (exec_risk (segment_exec_facts ws) = false ->
   exists b, rtc peel ws b /\ nf peel b /\ segment_has_exec_risk_flag b = false /\
     has_git (segment_exec_facts ws) = is_git_program b) /\
  (forall k b, nsteps peel k ws b -> (k <= 8)%nat -> bare b -> (forall z, rtc peel ws z -> keeps_cwd z) ->
   segment_exec_facts ws = MkExecFacts (segment_has_exec_risk_flag b) (is_git_program b)).
Proof.
  unfold segment_exec_facts. split.
  - destruct (normalize_for_exec_risk ws) as [b|] eqn:E; [|done]. cbn. intros H.
    apply exec_normalize_sound in E as [??]. eauto.
  - intros k b H Hk B C. unfold normalize_for_exec_risk.
    rewrite (exec_normalize_bare MAX_NORMALIZE_ROUNDS k ws b); try done.
    unfold MAX_NORMALIZE_ROUNDS, MAX_WRAPPER_DEPTH, MAX_TRANSPARENT_PREFIX_DEPTH. lia.
Qed.

(** ** Queries *)

(** Options before the subcommand that only move or silence [git]; [ok] is
    what a directory operand must satisfy. *)
Inductive Benign (ok : string -> Prop) : list string -> Prop :=
| benign_nil : Benign ok []
| benign_dir p l : ok p -> Benign ok l -> Benign ok ("-C" :: p :: l)
| benign_attached p l : p <> "" -> Benign ok l -> Benign ok (("-C" +:+ p) :: l)
| benign_no_pager l : Benign ok l -> Benign ok ("--no-pager" :: l)
| benign_pager l : Benign ok l -> Benign ok ("-P" :: l).

Lemma attached_some tok : is_some (attached_git_c_path tok) = true -> exists p, p <> "" /\ tok = "-C" +:+ p.
Proof.
  unfold attached_git_c_path. destruct (strip_prefix "-C" tok) as [p|] eqn:E; [|done]. apply strip_prefix_some in E as ->.
  cbn [ofilter]. destruct (negb (is_empty p)) eqn:N; [|done]. intros _. exists p. split; [|done].
  intros ->. done.
Qed.

Lemma attached_app p : p <> "" -> attached_git_c_path ("-C" +:+ p) = Some p.
Proof. intros N. unfold attached_git_c_path. rewrite strip_prefix_app. cbn. by destruct p. Qed.

Lemma verb_index_sound i ws j : verb_index_from i ws = Some j ->
  exists globals verb args, ws = globals ++ verb :: args /\ Benign (fun _ => True) globals /\
    starts_with "-" verb = false /\ j = (i + length globals)%nat.
Proof.
  remember (length ws) as n eqn:Hn. revert i ws Hn. induction n as [n IH] using lt_wf_ind.
  intros i [|tok rest] ->; cbn [verb_index_from]; [done|]. destruct (_ || _); [done|].
  destruct (starts_with "-" tok) eqn:S; cbn [negb].
  - destruct (String.eqb_spec tok "-C") as [->|_].
    + destruct rest as [|p rest]; [done|].
      intros (g&v&a&->&Bg&Sv&->)%(IH (length rest)); [|cbn; lia|done]. exists ("-C" :: p :: g), v, a.
      split_and!; try done; [by constructor|cbn; lia].
    + assert (K : verb_index_from (i + 1) rest = Some j -> forall g0, (forall g, Benign (fun _ => True) g -> Benign (fun _ => True) (g0 :: g)) ->
        exists globals verb args, g0 :: rest = globals ++ verb :: args /\ Benign (fun _ => True) globals /\
          starts_with "-" verb = false /\ j = (i + length globals)%nat).
      { intros (g&v&a&->&Bg&Sv&->)%(IH (length rest)); [|cbn; lia|done]. intros g0 Hg0. exists (g0 :: g), v, a.
        split_and!; eauto. cbn. lia. }
      destruct (is_some (attached_git_c_path tok)) eqn:A.
      { apply attached_some in A as (p&Np&->). cbn [orb]. intros H. apply K; [done|]. intros. by constructor. }
      destruct (String.eqb_spec tok "--no-pager") as [->|_].
      { intros H. apply K; [done|]. intros. by constructor. }
      destruct (String.eqb_spec tok "-P") as [->|_]; [|done].
      intros H. apply K; [done|]. intros. by constructor.
  - intros [= <-]. exists [], tok, rest. split_and!; [done|constructor|done|cbn; lia].
Qed.

Lemma verb_index_complete ok i globals verb args : Benign ok globals -> starts_with "-" verb = false ->
  verb_index_from i (globals ++ verb :: args) = Some (i + length globals)%nat.
Proof.
  intros B V. revert i. induction B as [|p l _ B IH|p l Np B IH|l B IH|l B IH]; intros i; cbn [app verb_index_from length].
  - assert (verb <> "-" /\ verb <> "--") as [N1 N2] by (split; intros ->; done).
    apply String.eqb_neq in N1, N2. rewrite N1, N2, V. cbn. f_equal. lia.
  - cbn. rewrite IH. f_equal. lia.
  - rewrite attached_app by done. assert (p = String.String (default "000"%char (String.get 0 p)) (sdrop 1 p)) as ->
      by by destruct p. cbn. rewrite IH. f_equal. lia.
  - cbn. rewrite IH. f_equal. lia.
  - cbn. rewrite IH. f_equal. lia.
Qed.

(** An operand that is not itself an option. *)
Definition plain_operand (p : string) : Prop := starts_with "-" p = false.

Lemma dash_c p : "-C" +:+ p = String "-" (String "C" p).
Proof. by rewrite !sapp_cons, sapp_nil_l. Qed.

Lemma before_eq_attached p : starts_with "--" (before_eq ("-C" +:+ p)) = false.
Proof. rewrite dash_c. unfold before_eq. cbn. by destruct (split_once "=" p) as [[f r]|]. Qed.

Lemma accepted_attached p full n : is_accepted_long_option_prefix (before_eq ("-C" +:+ p)) full n = false.
Proof. unfold is_accepted_long_option_prefix. by rewrite before_eq_attached. Qed.

Lemma risky_attached p : risky_global ("-C" +:+ p) = false.
Proof. unfold risky_global, is_git_config_env_flag, is_git_repo_retarget_flag. by rewrite !accepted_attached, dash_c. Qed.

Lemma benign_not_risky globals verb args : Benign plain_operand globals -> starts_with "-" verb = false ->
  risky_globals (globals ++ verb :: args) = false.
Proof.
  intros B V. induction B as [|p l P B IH|p l Np B IH|l B IH|l B IH]; cbn [app].
  - cbn [risky_globals]. unfold is_option_word. rewrite V. by destruct (verb =s? "--").
  - cbn [risky_globals]. unfold value_follows, is_option_word. rewrite P. cbn. exact IH.
  - cbn [risky_globals]. rewrite risky_attached, attached_app by done. by rewrite dash_c.
  - cbn. destruct (l ++ verb :: args) as [|next r] eqn:E; [by destruct l|]. exact IH.
  - cbn. destruct (l ++ verb :: args) as [|next r] eqn:E; [by destruct l|]. exact IH.
Qed.

Lemma safe_verb_plain verb : is_one_of SAFE_GIT_SUBCOMMANDS verb = true -> starts_with "-" verb = false.
Proof.
  unfold is_one_of, SAFE_GIT_SUBCOMMANDS. cbn [existsb]. rewrite !orb_true_iff, !String.eqb_eq.
  intros H. repeat destruct H as [-> | H]; done.
Qed.

(** The subcommand of a query is where the index says. *)
Lemma verb_at globals verb args : ("git" :: globals ++ verb :: args) !! S (length globals) = Some verb.
Proof. change ((globals ++ verb :: args) !! length globals = Some verb). by apply list_lookup_middle. Qed.

(** No word runs a driver, opens a pager or names an output file. *)
Definition harmless_words (verb : string) (ws : list string) : Prop :=
  Forall (fun w => git_query_option_is_unsafe w = false) ws /\
  (verb = "grep" -> Forall (fun w => starts_with "-O" w = false) ws).

Lemma existsb_false_iff {A} (p : A -> bool) l : existsb p l = false <-> Forall (fun x => p x = false) l.
Proof.
  induction l as [|x l IH]; cbn; [split; [constructor|done]|].
  rewrite orb_false_iff, IH, list.Forall_cons. done.
Qed.

Lemma unsafe_option_iff globals verb args : git_safe_query_verb_index ("git" :: globals ++ verb :: args) = Some (S (length globals)) ->
  git_words_have_unsafe_query_option ("git" :: globals ++ verb :: args) = false <->
  harmless_words verb (globals ++ verb :: args).
Proof.
  intros I. unfold git_words_have_unsafe_query_option, harmless_words. cbn [first_is]. rewrite String.eqb_refl. cbn [negb].
  rewrite I. cbn [mbind option_bind drop]. rewrite verb_at, drop_0.
  destruct (existsb git_query_option_is_unsafe _) eqn:E.
  - split; [done|]. intros [H%existsb_false_iff _]. congruence.
  - apply existsb_false_iff in E. destruct (String.eqb_spec verb "grep") as [->|N]; cbn [andb].
    + rewrite existsb_false_iff. naive_solver.
    + naive_solver.
Qed.

(** A [git] command runs without a question only as a query: when it is
    accepted it is [git], then options that only choose a directory or silence
    the pager, then one of the listed subcommands, and no later word, however
    abbreviated, runs a driver, opens a pager or writes to a file; and every
    such command whose directories are not spelled like options is accepted. *)
Theorem read_only_query_exact :
  (forall ws, git_words_are_read_only_query ws = true ->
   exists globals verb args, ws = "git" :: globals ++ verb :: args /\ Benign (fun _ => True) globals /\
     is_one_of SAFE_GIT_SUBCOMMANDS verb = true /\ harmless_words verb (globals ++ verb :: args)) /\
  (forall globals verb args, Benign plain_operand globals -> is_one_of SAFE_GIT_SUBCOMMANDS verb = true ->
   harmless_words verb (globals ++ verb :: args) ->
   git_words_are_read_only_query ("git" :: globals ++ verb :: args) = true).
Proof.
  split.
  - intros [|h rest]; [done|]. unfold git_words_are_read_only_query. cbn [first_is].
    destruct (String.eqb_spec h "git") as [->|]; [|done]. cbn [negb]. destruct (git_has_exec_risk_global _); [done|].
    destruct (git_safe_query_verb_index ("git" :: rest)) as [i|] eqn:I; [|done]. cbn [mbind option_bind].
    pose proof I as J. unfold git_safe_query_verb_index in J. cbn [drop] in J. rewrite drop_0 in J.
    apply verb_index_sound in J as (g&v&a&->&B&V&->). cbn [plus] in I |- *. rewrite verb_at.
    intros [Hs Hu%negb_true_iff]%andb_true_iff. apply unsafe_option_iff in Hu; [|done]. eauto 10.
  - intros g v a B S H. pose proof (safe_verb_plain _ S) as V.
    assert (I : git_safe_query_verb_index ("git" :: g ++ v :: a) = Some (Datatypes.S (length g))).
    { unfold git_safe_query_verb_index. cbn [drop]. rewrite drop_0. by apply (verb_index_complete plain_operand). }
    unfold git_words_are_read_only_query. cbn [first_is]. rewrite String.eqb_refl. cbn [negb].
    unfold git_has_exec_risk_global. cbn [drop]. rewrite drop_0, benign_not_risky, I by done.
    cbn [mbind option_bind]. rewrite verb_at, S. by apply negb_true_iff, unsafe_option_iff.
Qed.

Lemma exec_facts_inner_witness :
  segment_exec_facts ["timeout"; "5"; "command"; "git"; "-c"; "core.fsmonitor=x"; "status"] = MkExecFacts true true.
Proof.
  apply (proj2 (exec_facts_inner ["timeout"; "5"; "command"; "git"; "-c"; "core.fsmonitor=x"; "status"]) 2
    ["git"; "-c"; "core.fsmonitor=x"; "status"]).
  - eapply nsteps_l; [left; vm_compute; reflexivity|]. eapply nsteps_l; [right; vm_compute; reflexivity|]. constructor.
  - lia.
  - vm_compute. split_and!; done.
  - intros z R. apply rtc_nsteps in R as [n R]. unfold keeps_cwd.
    repeat (inversion R as [|? ? ? ? P R']; subst; clear R;
      [done|destruct P as [P|P]; vm_compute in P; try discriminate P; injection P as <-; rename R' into R]).
Defined.

Lemma read_only_query_exact_witness :
  git_words_are_read_only_query ["git"; "-C"; "sub"; "--no-pager"; "log"; "--oneline"] = true.
Proof.
  apply (proj2 read_only_query_exact ["-C"; "sub"; "--no-pager"] "log" ["--oneline"]).
  - repeat constructor.
  - reflexivity.
  - split; [repeat constructor|done].
Defined.

(** The comment on [segment_exec_facts] says that what cannot be peeled fails
    closed.  An [env] whose options are not understood is left as it is and
    neither flagged nor recognised as a [git] command, though the policy's
    normalization does flag it. *)
Theorem uncertain_env_not_flagged :
  let ws := ["env"; "--block-signal=INT"; "git"; "-c"; "core.fsmonitor=x"; "status"] in
  segment_exec_facts ws = MkExecFacts false false /\
  segment_exec_facts (drop 2 ws) = MkExecFacts true true /\
  nw_env_options_uncertain (normalize_command_words ws) = true.
Proof. vm_compute. by split_and!. Qed.
