(* ===== verification/PermState.v ===== *)
(** * [xai-grok-workspace], [permission/state.rs]

    The grants and denials a user has given in a project, and the files they
    are kept in.  Hash sets of strings are [gset string].  The TOML library is a
    class; the disk is a map from paths to files, and a write may fail, in which
    case it changes nothing.  The file shows that sessions which save their
    grants one after the other lose none of them, and that a reset cannot be
    undone by an older file. *)

From stdpp Require Import gmap sets.
From S2P Require Import Prelude RustStr Json Paths PermRules BashCommand PermPolicy.

(** ** The state *)

Definition VALIDATED_MCP_SERVER_GRANTS_VERSION : Z := 1.

Record PermissionState : Type := MkPermState {
  edit_policy : EditPolicy;
  allow_bash_execute : bool;
  allowed_bash_commands : gset string;
  disallowed_bash_commands : gset string;
  allowed_bash_globs : gset string;
  allowed_web_fetch_domains : gset string;
  allowed_mcp_tools : gset string;
  allowed_mcp_servers : gset string;
  disallowed_mcp_tools : gset string;
  disallowed_web_fetch_domains : gset string;
  validated_mcp_server_grants_version : Z }.

Definition PermissionState_default : PermissionState :=
  MkPermState EditAsk false ∅ ∅ ∅ ∅ ∅ ∅ ∅ ∅ VALIDATED_MCP_SERVER_GRANTS_VERSION.

Definition merge_grants_from (self other : PermissionState) : PermissionState :=
  MkPermState (edit_policy self)
    (allow_bash_execute self || allow_bash_execute other)
    (allowed_bash_commands self ∪ allowed_bash_commands other)
    (disallowed_bash_commands self ∪ disallowed_bash_commands other)
    (allowed_bash_globs self ∪ allowed_bash_globs other)
    (allowed_web_fetch_domains self ∪ allowed_web_fetch_domains other)
    (allowed_mcp_tools self ∪ allowed_mcp_tools other)
    (allowed_mcp_servers self ∪ allowed_mcp_servers other)
    (disallowed_mcp_tools self ∪ disallowed_mcp_tools other)
    (disallowed_web_fetch_domains self ∪ disallowed_web_fetch_domains other)
    (validated_mcp_server_grants_version self).

(** The same state with other server grants. *)
Definition set_mcp_servers (self : PermissionState) (servers : gset string) (version : Z) : PermissionState :=
  MkPermState (edit_policy self) (allow_bash_execute self) (allowed_bash_commands self) (disallowed_bash_commands self)
    (allowed_bash_globs self) (allowed_web_fetch_domains self) (allowed_mcp_tools self) servers
    (disallowed_mcp_tools self) (disallowed_web_fetch_domains self) version.

(** ** The files *)

Record File : Type := MkFile { file_text : string; file_readable : bool; file_mtime : Z }.
Abbreviation Disk := (gmap string File).

Class Toml := {
  (** [toml::from_str] and [toml::to_string_pretty] at [PermissionState] *)
  toml_from_str : string -> option PermissionState;
  toml_to_string : PermissionState -> option string }.

(** What the documentation promises: a state that is written reads back. *)
Class TomlLaws (Tm : Toml) : Prop := {
  toml_total : forall s, is_Some (toml_to_string s);
  toml_roundtrip : forall s t, (0 <= validated_mcp_server_grants_version s)%Z ->
    toml_to_string s = Some t -> toml_from_str t = Some s }.

Definition read_to_string (path : string) (d : Disk) : result IoError string :=
  match d !! path with
  | None => Err NotFound
  | Some f => if file_readable f then Ok (file_text f) else Err OtherIoError
  end.

(** [try_exists] other than [Ok(false)] *)
Definition present (path : string) (d : Disk) : bool := match d !! path with Some _ => true | None => false end.

(** One character, however many bytes it has, gives one. *)
Fixpoint sanitize_client_id (id : string) : string :=
  match id with
  | EmptyString => ""
  | String a id' =>
      if is_cont a then sanitize_client_id id'
      else String (if is_ascii_alpha a || is_ascii_digit a || byte_eqb a "-" || byte_eqb a "_" then a else "_")
             (sanitize_client_id id')
  end.

Definition state_file_path (dir : string) (client_identifier : option string) : string :=
  match client_identifier with
  | Some id => push dir ("permission_" +:+ sanitize_client_id id +:+ ".toml")
  | None => push dir "permission.toml"
  end.

Record StoreDirs : Type := MkStoreDirs { store_dir : string; legacy_dir : option string }.

(** [legacy_state_dir], given the store of the exact directory. *)
Definition legacy_state_dir (legacy dir : string) : option string := then_some (negb (path_same legacy dir)) legacy.

Section store.
Context `{Tm : Toml} (may_write : string -> bool) (now : Z).

(** [write_atomically], and the creation of the directory before it. *)
Definition write_file (path contents : string) (d : Disk) : Disk :=
  if may_write path then <[path := MkFile contents true now]> d else d.

Definition persist_state_to_path (path : string) (state : PermissionState) (d : Disk) : Disk :=
  match toml_to_string state with
  | Some contents => write_file path contents d
  | None => d
  end.

Definition try_load_state (path : string) (d : Disk) : option PermissionState * Disk :=
  match read_to_string path d with
  | Ok s =>
      let state := unwrap_or PermissionState_default (toml_from_str s) in
      if (validated_mcp_server_grants_version state <? VALIDATED_MCP_SERVER_GRANTS_VERSION)%Z then
        let state := set_mcp_servers state ∅ VALIDATED_MCP_SERVER_GRANTS_VERSION in
        (Some state, persist_state_to_path path state d)
      else (Some state, d)
  | Err _ => (None, d)
  end.

Definition load_shared (dir : string) (d : Disk) : PermissionState * Disk :=
  let '(state, d) := try_load_state (state_file_path dir None) d in (unwrap_or PermissionState_default state, d).

Definition load_state_from_dir (dir : string) (client_identifier : option string) (d : Disk) : PermissionState * Disk :=
  match client_identifier with
  | Some id =>
      match try_load_state (state_file_path dir (Some id)) d with
      | (Some state, d) => (state, d)
      | (None, d) => load_shared dir d
      end
  | None => load_shared dir d
  end.

Definition state_dir_has_store (dir : string) (client_identifier : option string) (d : Disk) : bool :=
  match client_identifier with
  | Some id => present (state_file_path dir (Some id)) d || present (state_file_path dir None) d
  | None => present (state_file_path dir None) d
  end.

Definition load_state_with_fallback (dirs : StoreDirs) (client_identifier : option string) (d : Disk)
  : PermissionState * Disk :=
  match legacy_dir dirs with
  | Some legacy =>
      if negb (state_dir_has_store (store_dir dirs) client_identifier d)
      then load_state_from_dir legacy client_identifier d
      else load_state_from_dir (store_dir dirs) client_identifier d
  | None => load_state_from_dir (store_dir dirs) client_identifier d
  end.

Definition load_state_from_disk := load_state_with_fallback.

Definition persist_state_to_dir (dir : string) (state : PermissionState) (client_identifier : option string) (d : Disk) : Disk :=
  persist_state_to_path (state_file_path dir client_identifier) state d.

Definition persist_state_merging_to_dir (dir : string) (state : PermissionState) (client_identifier : option string)
    (d : Disk) : Disk :=
  let '(on_disk, d) := try_load_state (state_file_path dir client_identifier) d in
  let merged := match on_disk with Some on_disk => merge_grants_from state on_disk | None => state end in
  persist_state_to_dir dir merged client_identifier d.

Definition persist_state (dirs : StoreDirs) (state : PermissionState) (client_identifier : option string) (d : Disk) : Disk :=
  persist_state_merging_to_dir (store_dir dirs) state client_identifier d.

Definition replace_state_on_disk (dirs : StoreDirs) (state : PermissionState) (client_identifier : option string)
    (d : Disk) : Disk :=
  persist_state_to_dir (store_dir dirs) state client_identifier d.

(** *** The store of a running session *)

Record CachedStateStore : Type := MkCachedStore {
  cs_dirs : StoreDirs; cs_client : option string; last_sig : option (Z * Z) }.

Definition current_sig (self : CachedStateStore) (d : Disk) : option (Z * Z) :=
  f ← d !! state_file_path (store_dir (cs_dirs self)) (cs_client self); Some (file_mtime f, len (file_text f)).

Definition cs_read (self : CachedStateStore) (d : Disk) : PermissionState * Disk :=
  load_state_with_fallback (cs_dirs self) (cs_client self) d.

Definition resolve_and_load (dirs : StoreDirs) (client_identifier : option string) (d : Disk)
  : CachedStateStore * PermissionState * Disk :=
  let store := MkCachedStore dirs client_identifier None in
  let store := MkCachedStore dirs client_identifier (current_sig store d) in
  let '(state, d) := cs_read store d in (store, state, d).

Definition reload_if_changed (self : CachedStateStore) (d : Disk) : option PermissionState * CachedStateStore * Disk :=
  let sig := current_sig self d in
  if bool_decide (sig = last_sig self) then (None, self, d)
  else
    let self := MkCachedStore (cs_dirs self) (cs_client self) sig in
    let '(state, d) := cs_read self d in (Some state, self, d).

(** *** Old files *)

(** A file two levels below the sessions directory that
    [cleanup_stale_permission_state] removes; a modification time after now has
    no age. *)
Definition is_stale (sessions_dir : string) (max_age : Z) (path : string) (f : File) : bool :=
  let name := unwrap_or "" (file_name path) in
  match parent path ≫= parent with
  | Some grandparent => path_same grandparent sessions_dir
  | None => false
  end
  && starts_with "permission" name && ends_with ".toml" name
  && (file_mtime f <=? now)%Z && (max_age <? now - file_mtime f)%Z.

Definition cleanup_stale_permission_state (sessions_dir : string) (max_age : Z) (may_remove : string -> bool) (d : Disk) : Disk :=
  filter (fun '(path, f) => negb (is_stale sessions_dir max_age path f && may_remove path) = true) d.
End store.

(** ** Merging *)

(** What a state permits and forbids, apart from the two scalars that a merge
    keeps. *)
Definition grants_le (s t : PermissionState) : Prop :=
  Is_true (implb (allow_bash_execute s) (allow_bash_execute t)) /\
  allowed_bash_commands s ⊆ allowed_bash_commands t /\ disallowed_bash_commands s ⊆ disallowed_bash_commands t /\
  allowed_bash_globs s ⊆ allowed_bash_globs t /\ allowed_web_fetch_domains s ⊆ allowed_web_fetch_domains t /\
  allowed_mcp_tools s ⊆ allowed_mcp_tools t /\ allowed_mcp_servers s ⊆ allowed_mcp_servers t /\
  disallowed_mcp_tools s ⊆ disallowed_mcp_tools t /\ disallowed_web_fetch_domains s ⊆ disallowed_web_fetch_domains t.

Infix "⊑g" := grants_le (at level 70).

#[export] Instance grants_le_preorder : PreOrder grants_le.
Proof.
  split.
  - intros s. unfold grants_le. destruct (allow_bash_execute s); split_and!; done.
  - intros s t u (B1&?&?&?&?&?&?&?&?) (B2&?&?&?&?&?&?&?&?). unfold grants_le. split_and!; [|by etrans..].
    destruct (allow_bash_execute s), (allow_bash_execute t); cbn in *; try done.
Qed.

(** Expose the fields of a merged state, and nothing below the set operations. *)
Ltac merge_fields :=
  cbv [grants_le merge_grants_from allow_bash_execute allowed_bash_commands disallowed_bash_commands allowed_bash_globs
       allowed_web_fetch_domains allowed_mcp_tools allowed_mcp_servers disallowed_mcp_tools disallowed_web_fetch_domains].

(** A merge is the least upper bound. *)
Lemma merge_le_l s t : s ⊑g merge_grants_from s t.
Proof.
  destruct s as [? b], t as [? c]. merge_fields. split_and!; [by destruct b|apply union_subseteq_l..].
Qed.

Lemma merge_le_r s t : t ⊑g merge_grants_from s t.
Proof.
  destruct s as [? b], t as [? c]. merge_fields. split_and!; [by destruct b, c|apply union_subseteq_r..].
Qed.

Lemma merge_least s t u : s ⊑g u -> t ⊑g u -> merge_grants_from s t ⊑g u.
Proof.
  destruct s as [? b], t as [? c], u as [? e]. merge_fields.
  intros (B1&?&?&?&?&?&?&?&?) (B2&?&?&?&?&?&?&?&?). split_and!; [by destruct b, c|by apply union_least..].
Qed.

#[export] Instance merge_mono : Proper (grants_le ==> grants_le ==> grants_le) merge_grants_from.
Proof.
  intros s s' Hs t t' Ht. apply merge_least.
  - etrans; [exact Hs|apply merge_le_l].
  - etrans; [exact Ht|apply merge_le_r].
Qed.

(** ** Saving and loading *)

Section saving.
Context `{Tm : Toml} `{!TomlLaws Tm}.
Implicit Types (s t g : PermissionState) (d : Disk).

(** The grants were checked by this or a later version of the code. *)
Definition current_version s : Prop := (VALIDATED_MCP_SERVER_GRANTS_VERSION <= validated_mcp_server_grants_version s)%Z.

Definition readable (path : string) d : Prop := forall f, d !! path = Some f -> file_readable f = true.

(** What a load finds in a file, absent files aside. *)
Definition found (path : string) d : PermissionState :=
  unwrap_or PermissionState_default (try_load_state (fun _ => true) 0 path d).1.

Lemma try_load_now may_write now path d :
  (try_load_state may_write now path d).1 = (try_load_state (fun _ => true) 0 path d).1.
Proof. unfold try_load_state. destruct (read_to_string path d); [|done]. by destruct (_ <? _)%Z. Qed.

Lemma load_written now now' path s d may_write : current_version s -> may_write path = true ->
  let d' := persist_state_to_path may_write now path s d in
  forall mw, try_load_state mw now' path d' = (Some s, d').
Proof.
  intros V W d' mw. unfold d', persist_state_to_path. destruct (toml_total s) as [t E]. rewrite E.
  unfold write_file. rewrite W. unfold try_load_state, read_to_string. rewrite lookup_insert_eq. cbn [file_readable file_text].
  rewrite (toml_roundtrip s t); [|unfold current_version, VALIDATED_MCP_SERVER_GRANTS_VERSION in V; lia|done].
  cbn [unwrap_or]. destruct (Z.ltb_spec (validated_mcp_server_grants_version s) VALIDATED_MCP_SERVER_GRANTS_VERSION) as [L|L];
    [|done]. unfold current_version in V. lia.
Qed.

(** One save merges what is there. *)
Lemma save_one may_write now dir client s d : current_version s -> (forall p, may_write p = true) ->
  let path := state_file_path dir client in
  let d' := persist_state_merging_to_dir may_write now dir s client d in
  exists m, current_version m /\ (forall mw n, try_load_state mw n path d' = (Some m, d')) /\
    (readable path d -> forall g, m ⊑g g <-> s ⊑g g /\ found path d ⊑g g).
Proof.
  intros V W path d'. unfold d', persist_state_merging_to_dir. fold path.
  destruct (try_load_state may_write now path d) as [o d1] eqn:E. unfold persist_state_to_dir. fold path.
  set (m := match o with Some _ => _ | None => _ end).
  assert (Vm : current_version m) by (unfold m; destruct o; done).
  exists m. split; [done|]. split; [intros; by apply load_written|]. intros R g.
  assert (F : found path d = unwrap_or PermissionState_default o).
  { unfold found. pose proof (try_load_now may_write now path d) as T. rewrite E in T. cbn in T. by rewrite <- T. }
  rewrite F. unfold m. destruct o as [o|]; cbn [unwrap_or].
  - split; [|intros [??]; by apply merge_least]. intros H. split; (etrans; [|exact H]); [apply merge_le_l|apply merge_le_r].
  - assert (D : PermissionState_default ⊑g g).
    { merge_fields. cbv [PermissionState_default]. split_and!; [done|apply empty_subseteq..]. }
    naive_solver.
Qed.

Definition save_all (may_write : string -> bool) (dir : string) (client : option string) (saves : list (Z * PermissionState)) d : Disk :=
  foldl (fun d '(now, s) => persist_state_merging_to_dir may_write now dir s client d) d saves.

(** Sessions that save one after the other, each from its own possibly
    stale copy, lose nothing: after any number of saves the file holds exactly
    the union of what was there and of what every session saved, grants and
    denials alike. *)
Theorem saves_accumulate may_write dir client now0 s0 saves d :
  let path := state_file_path dir client in
  (forall p, may_write p = true) -> readable path d ->
  Forall (fun '(_, s) => current_version s) ((now0, s0) :: saves) ->
  let d' := save_all may_write dir client ((now0, s0) :: saves) d in
  exists f, (forall mw now, try_load_state mw now path d' = (Some f, d')) /\
    forall g, f ⊑g g <-> found path d ⊑g g /\ Forall (fun '(_, s) => s ⊑g g) ((now0, s0) :: saves).
Proof.
  intros path W R V. apply Forall_cons_1 in V as [V0 V]. unfold save_all. cbn [foldl].
  destruct (save_one may_write now0 dir client s0 d V0 W) as (m&Vm&L&M). fold path in L, M. specialize (M R).
  set (d0 := persist_state_merging_to_dir _ _ _ _ _ _) in *. clearbody d0.
  assert (K : forall g, m ⊑g g <-> found path d ⊑g g /\ Forall (fun '(_, s) => s ⊑g g) [(now0, s0)]).
  { intros g. rewrite M, list.Forall_cons, list.Forall_nil. tauto. }
  clear M R V0. change ((now0, s0) :: saves) with ([(now0, s0)] ++ saves). set (past := [(now0, s0)]) in *. clearbody past.
  revert m d0 past Vm L K. induction V as [|[n s] saves Vs V IH]; intros m d0 past Vm L K; cbn [foldl].
  - rewrite app_nil_r. by exists m.
  - destruct (save_one may_write n dir client s d0 Vs W) as (m'&Vm'&L'&M'). fold path in L', M'.
    assert (R0 : readable path d0).
    { intros f Hf. specialize (L (fun _ => true) 0%Z). unfold try_load_state, read_to_string in L. rewrite Hf in L.
      by destruct (file_readable f). }
    specialize (M' R0).
    assert (F : found path d0 = m) by (unfold found; by rewrite L).
    replace (past ++ (n, s) :: saves) with ((past ++ [(n, s)]) ++ saves) by by rewrite <- app_assoc.
    eapply (IH m' _ (past ++ [(n, s)])); [done|exact L'|]. intros g. rewrite M', F, K, Forall_app, list.Forall_cons, list.Forall_nil.
    tauto.
Qed.

(** A reset is final: once the default state has replaced the file, every
    load of this client gives the default state, whatever older files exist and
    from whichever subdirectory of the repository it looks. *)
Theorem reset_is_final may_write now dirs legacy client d :
  may_write (state_file_path (store_dir dirs) client) = true ->
  let d' := replace_state_on_disk may_write now dirs PermissionState_default client d in
  forall mw now', load_state_with_fallback mw now' (MkStoreDirs (store_dir dirs) legacy) client d' = (PermissionState_default, d').
Proof.
  intros W d' mw now'. unfold d', replace_state_on_disk, persist_state_to_dir.
  assert (V : current_version PermissionState_default) by (unfold current_version; cbn; lia).
  pose proof (load_written now now' (state_file_path (store_dir dirs) client) _ d may_write V W mw) as L. cbv zeta in L.
  set (d1 := persist_state_to_path _ _ _ _ _) in *.
  assert (P : present (state_file_path (store_dir dirs) client) d1 = true).
  { unfold present. unfold try_load_state, read_to_string in L. by destruct (d1 !! _). }
  assert (F : load_state_from_dir mw now' (store_dir dirs) client d1 = (PermissionState_default, d1)).
  { unfold load_state_from_dir, load_shared. destruct client; by rewrite L. }
  unfold load_state_with_fallback. cbn [legacy_dir store_dir]. destruct legacy as [legacy|]; [|done].
  unfold state_dir_has_store. destruct client; rewrite P; done.
Qed.
End saving.

(** ** A concrete file format *)

Module TomlSample.
#[local] Instance EditPolicy_eq_dec : EqDecision EditPolicy.
Proof. solve_decision. Defined.
#[local] Instance EditPolicy_countable : Countable EditPolicy.
Proof.
  refine (inj_countable' (fun p => match p with EditAsk => 0 | EditAllow => 1 | EditReject => 2 end)%nat
    (fun n => match n with 0 => EditAsk | 1 => EditAllow | _ => EditReject end)%nat _). by intros [].
Defined.

Definition to_tuple (s : PermissionState) :=
  (edit_policy s, allow_bash_execute s, allowed_bash_commands s, disallowed_bash_commands s, allowed_bash_globs s,
   allowed_web_fetch_domains s, allowed_mcp_tools s, allowed_mcp_servers s, disallowed_mcp_tools s,
   disallowed_web_fetch_domains s, validated_mcp_server_grants_version s).
Definition of_tuple (t : EditPolicy * bool * gset string * gset string * gset string * gset string * gset string
    * gset string * gset string * gset string * Z) : PermissionState :=
  let '(a, b, c, d, e, f, g, h, i, j, k) := t in MkPermState a b c d e f g h i j k.

(** The text of a state is the code of its fields. *)
#[local] Instance toml : Toml := {|
  toml_from_str t := of_tuple <$> (Tree.unbits t ≫= decode);
  toml_to_string s := Some (Tree.bits (encode (to_tuple s))) |}.

#[local] Instance toml_laws : TomlLaws toml.
Proof.
  split; [by intros s; eexists|]. intros s t _ [= <-]. unfold toml_from_str, toml.
  rewrite Tree.unbits_bits. cbn [mbind option_bind]. rewrite decode_encode. by destruct s.
Qed.

Definition yes : string -> bool := fun _ => true.
Definition cargo : PermissionState := MkPermState EditAsk false {["cargo test"]} ∅ ∅ ∅ ∅ ∅ ∅ ∅ 1.
Definition no_rm : PermissionState := MkPermState EditAsk false ∅ {["rm"]} ∅ ∅ ∅ ∅ ∅ ∅ 1.

Lemma saves_accumulate_witness :
  exists f, (forall mw now, try_load_state mw now "/s/permission.toml" (save_all yes "/s" None [(1, cargo); (2, no_rm)]%Z ∅)
      = (Some f, save_all yes "/s" None [(1, cargo); (2, no_rm)]%Z ∅)) /\
    forall g, f ⊑g g <-> found "/s/permission.toml" ∅ ⊑g g /\ Forall (fun '(_, s) => s ⊑g g) [(1, cargo); (2, no_rm)]%Z.
Proof.
  apply (saves_accumulate yes "/s" None 1 cargo [(2, no_rm)]%Z ∅); [done|by intros f H|].
  repeat constructor; unfold current_version, VALIDATED_MCP_SERVER_GRANTS_VERSION; cbn; lia.
Defined.

Lemma reset_is_final_witness :
  forall mw now, load_state_with_fallback mw now (MkStoreDirs "/s" (Some "/old")) None
    (replace_state_on_disk yes 7 (MkStoreDirs "/s" None) PermissionState_default None
      {["/old/permission.toml" := MkFile "x" true 1]})
  = (PermissionState_default, replace_state_on_disk yes 7 (MkStoreDirs "/s" None) PermissionState_default None
      {["/old/permission.toml" := MkFile "x" true 1]}).
Proof. apply (reset_is_final yes 7 (MkStoreDirs "/s" None) (Some "/old") None). reflexivity. Defined.

(** The comment on the merging save says that the grants of another session
    are lost only when both write at the same instant.  A file that cannot be
    read at the moment of the save is overwritten too. *)
Theorem unreadable_store_is_overwritten s :
  current_version s ->
  forall d0 mw now, d0 !! "/s/permission.toml" = Some (MkFile (Tree.bits (encode (to_tuple no_rm))) false 1) ->
  try_load_state mw now "/s/permission.toml" (persist_state_merging_to_dir yes 2 "/s" s None d0)
  = (Some s, persist_state_merging_to_dir yes 2 "/s" s None d0).
Proof.
  intros V d0 mw now E. unfold persist_state_merging_to_dir.
  change (state_file_path "/s" None) with "/s/permission.toml".
  assert (try_load_state yes 2 "/s/permission.toml" d0 = (None, d0)) as ->
    by (unfold try_load_state, read_to_string; by rewrite E).
  by apply (load_written (Tm := toml) 2 now "/s/permission.toml" s d0 yes).
Qed.
End TomlSample.
