(* ===== verification/WebDomains.v ===== *)
(** * [xai-grok-tools], [web_fetch/domain.rs]

    The list of hosts and paths that may be fetched without a question.  The
    list is compiled to a map from hosts to what they may serve; the theorem
    says that the map answers as the list would, entry by entry, so that the
    order of the entries does not matter. *)

From stdpp Require Import gmap.
From S2P Require Import Prelude RustStr BashCommand PermPolicy.

(** [Url::path] of a URL that parses. *)
Class UrlPath := url_path : string -> string.

Inductive HostEntry : Type := AnyPath | PathPrefixes (prefixes : list string).

Abbreviation DomainMatcher := (gmap string HostEntry).

(** [web_fetch/config.rs] *)
Definition DEFAULT_ALLOWED_DOMAINS : list string :=
  ["x.ai"; "console.x.ai"; "docs.x.ai"; "api.x.ai"; "docs.python.org"; "en.cppreference.com"; "docs.oracle.com";
   "learn.microsoft.com"; "developer.mozilla.org"; "go.dev"; "pkg.go.dev"; "www.php.net"; "docs.swift.org";
   "kotlinlang.org"; "ruby-doc.org"; "doc.rust-lang.org"; "docs.rs"; "www.typescriptlang.org"; "react.dev";
   "angular.io"; "vuejs.org"; "nextjs.org"; "expressjs.com"; "nodejs.org"; "bun.sh"; "jquery.com";
   "getbootstrap.com"; "tailwindcss.com"; "d3js.org"; "threejs.org"; "redux.js.org"; "webpack.js.org"; "jestjs.io";
   "reactrouter.com"; "docs.djangoproject.com"; "flask.palletsprojects.com"; "fastapi.tiangolo.com";
   "pandas.pydata.org"; "numpy.org"; "www.tensorflow.org"; "pytorch.org"; "scikit-learn.org"; "matplotlib.org";
   "requests.readthedocs.io"; "jupyter.org"; "laravel.com"; "symfony.com"; "wordpress.org"; "docs.spring.io";
   "hibernate.org"; "tomcat.apache.org"; "gradle.org"; "maven.apache.org"; "asp.net"; "dotnet.microsoft.com";
   "nuget.org"; "blazor.net"; "reactnative.dev"; "docs.flutter.dev"; "developer.apple.com"; "developer.android.com";
   "keras.io"; "spark.apache.org"; "huggingface.co"; "www.kaggle.com"; "redis.io"; "www.postgresql.org";
   "dev.mysql.com"; "www.sqlite.org"; "graphql.org"; "prisma.io"; "docs.aws.amazon.com"; "cloud.google.com";
   "kubernetes.io"; "www.docker.com"; "www.terraform.io"; "www.ansible.com"; "vercel.com/docs"; "docs.netlify.com";
   "devcenter.heroku.com"; "cypress.io"; "selenium.dev"; "docs.unity.com"; "docs.unrealengine.com"; "git-scm.com";
   "nginx.org"; "httpd.apache.org"].

Section domains.
Context `{L : Unicode}.

(** The host of an entry and, from the first slash on, its path. *)
Definition split_entry (normalized : string) : string * option string :=
  match split_once "/" normalized with
  | Some (host, rest) => (host, Some ("/" +:+ rest))
  | None => (normalized, None)
  end.

Definition insert_prefix (host prefix : string) (entries : DomainMatcher) : DomainMatcher :=
  match entries !! host with
  | Some (PathPrefixes v) => if is_one_of v prefix then entries else <[host := PathPrefixes (v ++ [prefix])]> entries
  | Some AnyPath => entries
  | None => <[host := PathPrefixes [prefix]]> entries
  end.

Definition add_entry (entries : DomainMatcher) (raw : string) : DomainMatcher :=
  let normalized := normalize_domain raw in
  if is_empty normalized then entries
  else match split_entry normalized with
  | (host, None) => <[host := AnyPath]> entries
  | (host, Some raw_path) =>
      match entries !! host with
      | Some AnyPath => entries
      | _ =>
          let prefix := trim_end_matches "/" raw_path in
          if is_empty prefix || (prefix =s? "/") then <[host := AnyPath]> entries
          else insert_prefix host (if starts_with "/" prefix then prefix else "/" +:+ prefix) entries
      end
  end.

Definition DomainMatcher_new (raw_entries : list string) : DomainMatcher := foldl add_entry ∅ raw_entries.

(** A path is under a prefix at a segment boundary. *)
Definition path_under (url_path prefix : string) : bool :=
  (url_path =s? prefix)
  || (starts_with prefix url_path
      && match String.get (String.length prefix) url_path with Some b => byte_eqb b "/" | None => false end).

(** [check(url).is_none()], on the host and the path of the URL. *)
Definition check_permits (self : DomainMatcher) (host : option string) (path : string) : bool :=
  match host with
  | None => false
  | Some raw_host =>
      match self !! normalize_domain raw_host with
      | Some AnyPath => true
      | Some (PathPrefixes prefixes) => existsb (path_under (to_lowercase path)) prefixes
      | None => false
      end
  end.

(** ** The list, entry by entry *)

(** What one entry says about a host and a lower-case path. *)
Definition entry_permits (host path : string) (raw : string) : bool :=
  let normalized := normalize_domain raw in
  negb (is_empty normalized)
  && match split_entry normalized with
     | (h, None) => h =s? host
     | (h, Some raw_path) =>
         let prefix := trim_end_matches "/" raw_path in
         (h =s? host)
         && (is_empty prefix || (prefix =s? "/")
             || path_under path (if starts_with "/" prefix then prefix else "/" +:+ prefix))
     end.

(** What the map says. *)
Definition map_permits (m : DomainMatcher) (host path : string) : bool :=
  match m !! host with
  | Some AnyPath => true
  | Some (PathPrefixes prefixes) => existsb (path_under path) prefixes
  | None => false
  end.

Lemma map_permits_insert m h e host path : map_permits (<[h := e]> m) host path =
  if h =s? host then match e with AnyPath => true | PathPrefixes v => existsb (path_under path) v end
  else map_permits m host path.
Proof.
  unfold map_permits. destruct (String.eqb_spec h host) as [->|N]; [by rewrite lookup_insert_eq|].
  by rewrite lookup_insert_ne.
Qed.

Lemma existsb_app_one {A} (p : A -> bool) l x : existsb p (l ++ [x]) = existsb p l || p x.
Proof. rewrite existsb_app. cbn. by rewrite orb_false_r. Qed.

Lemma is_one_of_existsb v x p : is_one_of v x = true -> p x = true -> existsb p v = true.
Proof.
  intros (y&Hy&->%String.eqb_eq)%existsb_exists Hp. apply existsb_exists. eauto.
Qed.

Lemma insert_prefix_permits m h x host path : m !! h <> Some AnyPath ->
  map_permits (insert_prefix h x m) host path = map_permits m host path || ((h =s? host) && path_under path x).
Proof.
  intros N. unfold insert_prefix. destruct (m !! h) as [[|v]|] eqn:E; [done| |].
  - destruct (is_one_of v x) eqn:O.
    + destruct (String.eqb_spec h host) as [<-|]; cbn; [|by rewrite orb_false_r].
      unfold map_permits. rewrite E. destruct (path_under path x) eqn:U; [|by rewrite orb_false_r].
      by rewrite (is_one_of_existsb v x).
    + rewrite map_permits_insert. destruct (String.eqb_spec h host) as [<-|]; cbn; [|by rewrite orb_false_r].
      unfold map_permits. by rewrite E, existsb_app_one.
  - rewrite map_permits_insert. destruct (String.eqb_spec h host) as [<-|]; cbn; [|by rewrite orb_false_r].
    unfold map_permits. by rewrite E, orb_false_r.
Qed.

Lemma add_entry_permits m raw host path :
  map_permits (add_entry m raw) host path = map_permits m host path || entry_permits host path raw.
Proof.
  unfold add_entry, entry_permits. destruct (is_empty _); [by rewrite orb_false_r|]. cbn [negb andb].
  destruct (split_entry _) as [h [p|]]; [|rewrite map_permits_insert; by destruct (h =s? host), (map_permits _ _ _)].
  assert (K : m !! h <> Some AnyPath ->
    map_permits (if is_empty (trim_end_matches "/" p) || (trim_end_matches "/" p =s? "/") then <[h := AnyPath]> m
      else insert_prefix h (if starts_with "/" (trim_end_matches "/" p) then trim_end_matches "/" p
        else "/" +:+ trim_end_matches "/" p) m) host path =
    map_permits m host path || ((h =s? host) && (is_empty (trim_end_matches "/" p) || (trim_end_matches "/" p =s? "/")
      || path_under path (if starts_with "/" (trim_end_matches "/" p) then trim_end_matches "/" p
        else "/" +:+ trim_end_matches "/" p)))).
  { intros N. destruct (_ || _); [rewrite map_permits_insert; by destruct (h =s? host), (map_permits _ _ _)|].
    by rewrite insert_prefix_permits. }
  destruct (m !! h) as [[|v]|] eqn:E; [|by apply K..].
  destruct (String.eqb_spec h host) as [<-|]; [|by rewrite orb_false_r]. unfold map_permits. by rewrite E.
Qed.

Lemma matcher_permits raws host path :
  map_permits (DomainMatcher_new raws) host path = existsb (entry_permits host path) raws.
Proof.
  unfold DomainMatcher_new. assert (K : forall m, map_permits (foldl add_entry m raws) host path =
    map_permits m host path || existsb (entry_permits host path) raws); [|by rewrite K].
  induction raws as [|raw raws IH]; intros m; cbn [foldl existsb]; [by rewrite orb_false_r|].
  by rewrite IH, add_entry_permits, orb_assoc.
Qed.

(** The compiled list permits a URL exactly when one of its entries does:
    the host of the entry is the host of the URL and its path, if it has one, is
    a prefix of the URL's path that ends at a segment.  The order of the entries
    and repetitions do not matter. *)
Theorem domain_check_exact raws raw_host path :
  check_permits (DomainMatcher_new raws) (Some raw_host) path = true <->
  exists raw, raw ∈ raws /\ entry_permits (normalize_domain raw_host) (to_lowercase path) raw = true.
Proof.
  change (check_permits _ _ _) with (map_permits (DomainMatcher_new raws) (normalize_domain raw_host) (to_lowercase path)).
  rewrite matcher_permits, existsb_exists. by setoid_rewrite <- list_elem_of_In.
Qed.
End domains.
