(* ===== verification/PermManager.v ===== *)
(** * [xai-grok-workspace], [permission/manager/mod.rs] and [bash_grants.rs]: decisions

    What the permission manager decides about one request from the grants of a
    session and from a static look at a shell command: which commands are safe,
    which need a question whatever was granted, which grants a command matches,
    and what is stored when the user grants more than one call.  The actor that
    calls these functions is in the next file. *)

From stdpp Require Import gmap sets.
From S2P Require Import Prelude RustStr Json Paths PermRules BashCommand PermPolicy ShellAccess PermGate ExecRisk.
From S2P Require Import AutoMode PermState WebDomains.

(** ** [manager/reasons.rs] *)

Definition YOLO : string := "yolo".
Definition POLICY_ALLOW : string := "policy_allow".
Definition POLICY_DENY : string := "policy_deny".
Definition AUTO_FAST_PATH : string := "auto_fast_path".
Definition AUTO_CLASSIFIER_ALLOW : string := "auto_classifier_allow".
Definition AUTO_CLASSIFIER_DENY : string := "auto_classifier_deny".
Definition AUTO_CLASSIFIER_TIMEOUT : string := "auto_classifier_timeout".
Definition AUTO_CLASSIFIER_UNAVAILABLE : string := "auto_classifier_unavailable".
Definition AUTO_DENIAL_LIMIT : string := "auto_denial_limit".
Definition SANDBOX_AUTO : string := "sandbox_auto".
Definition PERSISTED_GRANT : string := "persisted_grant".
Definition SESSION_GRANT : string := "session_grant".
Definition STATIC_ALLOWLIST : string := "static_allowlist".
Definition SAFE_COMMAND : string := "safe_command".
Definition SESSION_DENY : string := "session_deny".
Definition PROMPT_DENY : string := "prompt_deny".
Definition PROMPT_ALLOW : string := "prompt_allow".
Definition NEEDS_USER : string := "needs_user".
Definition BASH_REQUEST_FLOOR : string := "bash_request_floor".
Definition OPAQUE_SHELL : string := "opaque_shell".
Definition HOOK_ASK : string := "hook_ask".
Definition REQUESTER_GONE : string := "requester_gone".

(** [HashSet::iter] in some order. *)
Definition set_any (p : string -> bool) (X : gset string) : bool := existsb p (elements X).
Definition set_find (p : string -> bool) (X : gset string) : option string := List.find p (elements X).
Definition set_has (X : gset string) (x : string) : bool := bool_decide (x ∈ X).

(** ** MCP tools *)

Definition MCP_TOOL_NAME_DELIMITER : string := "__".

Definition is_id_char (c : ascii) : bool := is_ascii_alphanumeric c || byte_eqb c "_" || byte_eqb c "-".
Definition is_valid_segment (s : string) : bool := negb (is_empty s) && sall is_id_char s.

Definition is_well_formed_tool_id (s : string) : bool :=
  match split_char ":" s with
  | [first] => is_valid_segment first
  | [first; second] => is_valid_segment first && is_valid_segment second
  | _ => false
  end.

(** The positions of the delimiter, overlapping ones included. *)
Fixpoint boundaries_from (i : nat) (name : string) : list nat :=
  match name with
  | EmptyString => []
  | String _ rest =>
      if starts_with MCP_TOOL_NAME_DELIMITER name then i :: boundaries_from (S i) rest else boundaries_from (S i) rest
  end.

Definition parse_mcp_qualified_name (name : string) : option (string * string) :=
  match boundaries_from 0 name with
  | [boundary] =>
      let server := stake boundary name in
      let tool := sdrop (boundary + String.length MCP_TOOL_NAME_DELIMITER) name in
      if is_empty server || is_empty tool then None
      else then_some (negb (is_empty name) && is_well_formed_tool_id name) (server, tool)
  | _ => None
  end.

Definition mcp_server_prefix_allowed (name : string) (servers : gset string) : bool :=
  match parse_mcp_qualified_name name with Some (server, _) => set_has servers server | None => false end.

Definition previously_rejected (what : string) : string := "User previously rejected `" +:+ what +:+ "` in this project".

Definition mcp_pre_decision (name : string) (state : PermissionState) (policy_forced_prompt remember_tool_approvals : bool)
  : option PermDecision :=
  if set_has (disallowed_mcp_tools state) name then Some (DReject (previously_rejected name))
  else if policy_forced_prompt && negb remember_tool_approvals then None
  else if set_has (allowed_mcp_tools state) name then Some DAllow
  else if mcp_server_prefix_allowed name (allowed_mcp_servers state) then Some DAllow
  else None.

(** ** Flags *)

Definition kubectl_has_unsafe_flag (ws : list string) : bool :=
  head_named "kubectl" ws && existsb (fun w => is_one_of KUBECTL_UNSAFE_FLAGS (before_eq w)) (drop 1 ws).

Definition PS_VALUE_FLAGS : list string :=
  ["-o"; "-O"; "--format"; "--sort"; "-p"; "-q"; "-t"; "-u"; "-U"; "-g"; "-G"; "-C"; "-s"; "--pid"; "--ppid"; "--sid";
   "--tty"; "--user"; "--group"; "--cols"; "--columns"; "--width"; "o"; "O"].

Fixpoint ps_words_dump (skip_next : bool) (ws : list string) : bool :=
  match ws with
  | [] => false
  | s :: ws =>
      if skip_next then ps_words_dump false ws
      else if starts_with "--format=" s || starts_with "--sort=" s then ps_words_dump false ws
      else if is_one_of PS_VALUE_FLAGS s then ps_words_dump true ws
      else if starts_with "-o" s || starts_with "-O" s then ps_words_dump false ws
      else
        let dashless := negb (starts_with "-" s) in
        let bsd_selector_cluster :=
          starts_with "-" s && negb (starts_with "--" s) && sany (fun c => byte_eqb c "a" || byte_eqb c "x") s in
        if contains_byte "E" s || (contains_byte "e" s && (dashless || bsd_selector_cluster)) then true
        else if starts_with "-" s && negb (starts_with "--" s) && (ends_with "o" s || ends_with "O" s)
        then ps_words_dump true ws
        else ps_words_dump false ws
  end.
Definition ps_dumps_environment (ws : list string) : bool := head_named "ps" ws && ps_words_dump false (drop 1 ws).

(** ** Safe commands *)

Definition is_safe_git_query_prefix (cmd : string) : bool :=
  match strip_prefix "git " cmd with
  | Some rest => existsb (matches_command_prefix rest) SAFE_GIT_SUBCOMMANDS
  | None => false
  end.

(** The calls of [matches_command_prefix] in [is_safe_command_words_str]. *)
Definition SAFE_PREFIXES : list string :=
  ["ls"; "cat"; "pwd"; "date"; "whoami"; "hostname"; "uptime"; "grep"; "rg"; "kubectl get"; "kubectl logs";
   "kubectl describe"; "ps"; "bin/explorer ls"; "head"; "tail"; "wc"; "sort"; "uniq"; "tr"; "cut"; "echo"; "printf"].

Definition is_safe_command_words_str (cmd : string) : bool :=
  existsb (matches_command_prefix cmd) SAFE_PREFIXES || is_safe_git_query_prefix cmd.

Definition has_special_flag (ws : list string) : bool :=
  rg_has_unsafe_flag ws || kubectl_has_unsafe_flag ws || ps_dumps_environment ws.

Definition is_safe_command_words (ws : list string) : bool :=
  match ws with
  | [] => false
  | _ =>
      if has_special_flag ws then false
      else if first_is "git" ws then git_words_are_read_only_query ws
      else is_safe_command_words_str (join " " ws)
  end.

Definition ALWAYS_SAFE_COMMANDS : list string :=
  ["ls"; "cat"; "pwd"; "date"; "whoami"; "hostname"; "uptime"; "ps"; "grep"; "rg"; "kubectl get"; "kubectl logs";
   "kubectl describe"; "bin/explorer ls"].

Definition is_always_safe_command_words (ws : list string) : bool :=
  match ws with
  | [] => false
  | _ =>
      if has_special_flag ws then false
      else if first_is "git" ws then git_words_are_read_only_query ws
      else existsb (matches_command_prefix (join " " ws)) ALWAYS_SAFE_COMMANDS
  end.

Definition is_safe_creation_command (ws : list string) : bool :=
  match ws with h :: _ => is_creation_program h | [] => false end.

Definition DANGEROUS_PREFIXES : list string :=
  ["rm"; "chmod"; "chown"; "chgrp"; "chattr"; "pkill"; "kill"; "killall"; "git push"].

Definition is_dangerous_command_words (ws : list string) : bool :=
  match normalized_command_head ws with
  | None => false
  | Some head =>
      let joined := if (length ws =? 1)%nat then head else head +:+ " " +:+ join " " (drop 1 ws) in
      existsb (matches_command_prefix joined) DANGEROUS_PREFIXES
  end.

(** ** Scopes of grants *)

Definition always_allow_scope_pinned (ws : list string) : bool :=
  is_dangerous_command_words ws || head_is_exec_vehicle ws || head_named "sed" ws.

Definition gh_always_allow_scope (ws : list string) : option nat :=
  if negb (head_named "gh" ws) then None
  else Some (match ws with
             | _ :: group :: verb :: _ =>
                 if negb (starts_with "-" group) && negb (starts_with "-" verb) then 3 else length ws
             | _ => length ws
             end).

(** The flags that follow the first [n] words. *)
Fixpoint leading_flags (ws : list string) : nat :=
  match ws with w :: ws => if starts_with "-" w then S (leading_flags ws) else 0 | [] => 0 end.

Definition base_scope (ws : list string) : nat :=
  let by_words := let n := (length ws `min` 2)%nat in (n + leading_flags (drop n ws))%nat in
  if is_safe_command_words ws then
    if is_safe_command_words_str (unwrap_or "" (head ws)) then 1
    else if (2 <=? length ws)%nat && is_safe_command_words_str (join " " (take 2 ws)) then 2
    else by_words
  else by_words.

Definition default_always_allow_scope (ws : list string) : nat :=
  match ws with
  | [] => 0
  | _ => if always_allow_scope_pinned ws then length ws
         else match gh_always_allow_scope ws with Some n => n | None => base_scope ws end
  end.

Definition default_always_deny_scope (ws : list string) : nat := match ws with [] => 0 | _ => base_scope ws end.

Definition minimum_always_allow_scope (ws : list string) : nat :=
  if always_allow_scope_pinned ws then length ws else unwrap_or 1 (gh_always_allow_scope ws).

Definition matches_whitelist_prefix (segment_str allowed_prefix : string) : bool :=
  matches_command_prefix segment_str allowed_prefix.

(** ** Web fetches *)

Section web.
Context `{U : UrlCrate} `{L : Unicode}.

Definition web_fetch_deny_key (host : string) : string := to_lowercase (trim_end_matches "." (trim host)).

Definition web_fetch_deny_key_from_url (url : string) : option string :=
  host ← url_parse_host url; host ← host;
  let key := web_fetch_deny_key host in then_some (negb (is_empty key)) key.

(** A denied host covers itself and the hosts below it. *)
Definition deny_covers (domain denied : string) : bool :=
  negb (is_empty denied)
  && ((domain =s? denied)
      || ((String.length denied + 1 <? String.length domain)%nat
          && ends_with denied domain
          && match String.get (String.length domain - String.length denied - 1) domain with
             | Some b => byte_eqb b "."
             | None => false
             end)).

Definition denied_web_fetch_domain (host : string) (disallowed : gset string) : option string :=
  set_find (deny_covers (web_fetch_deny_key host)) disallowed.

(** [host] is [host_str()] of the parsed URL. *)
Definition web_fetch_deny_pre_decision (host : option string) (state : PermissionState) : option PermDecision :=
  host ← host;
  denied ← denied_web_fetch_domain host (disallowed_web_fetch_domains state);
  Some (DReject (previously_rejected denied)).
End web.

(** ** Shell commands *)

Inductive SegmentEvaluation : Type :=
| AutoAllow (via_session_grant : bool)
| SegReject (reason : string)
| NeedsPrompts (segments : list string)
| Unparseable.

Record BashEvaluation : Type := MkEvaluation {
  segments : SegmentEvaluation;
  exact_grant : bool;
  all_segments_granted : bool;
  assessment : BashSecurityAssessment;
  redirect_write : bool;
  ambient_segments : option (list (list string));
  ev_creation_paths : list string;
  has_cwd_change : bool }.

Definition unparseable_exec_risk (cmd : string) : bool := script_may_invoke_git cmd.

Definition env_risk_finding (r : EnvRisk) : option ClassifierSecurityFinding :=
  match r with EnvInjected => Some EnvInjection | EnvUnvetted => Some UnvettedEnv | EnvSafe => None end.

Definition insert_if (b : bool) (f : ClassifierSecurityFinding) (a : BashSecurityAssessment) : BashSecurityAssessment :=
  if b then assess_insert f a else a.

(** A remembered deny that a text starts with. *)
Definition matching_deny (state : PermissionState) (text : string) : option string :=
  set_find (matches_whitelist_prefix text) (disallowed_bash_commands state).

Definition raw_deny_rejection (cmd : string) (state : PermissionState) : option SegmentEvaluation :=
  (fun d => SegReject (previously_rejected d)) <$> matching_deny state cmd.

Section evaluate.
Context `{T : TreeSitter} `{G : GlobCrate}.

Definition matches_bash_glob (segment_str pattern : string) : bool := bash_pattern_matches_command pattern segment_str.

(** [bash_grants.rs]: the words are what the joined text parses to. *)
Definition words_join_unambiguously (ws : list string) : bool :=
  let joined := join " " ws in
  match try_parse_shell joined ≫= (fun tree => try_parse_word_only_commands_sequence tree joined) with
  | Some [only] => spans_whole_script only joined && bool_decide (words only = ws)
  | _ => false
  end.

Definition whole_script_grant (cmd : string) (segs : list PlainCommand) (state : PermissionState) : bool :=
  if set_has (allowed_bash_commands state) cmd then true
  else match segs with
  | [only] =>
      spans_whole_script only cmd && words_join_unambiguously (words only)
      && set_has (allowed_bash_commands state) (join " " (words only))
  | _ => false
  end.

Definition matched_command_grant (state : PermissionState) (ws : list string) : bool :=
  let s := join " " ws in
  if always_allow_scope_pinned ws then set_has (allowed_bash_commands state) s
  else set_any (matches_whitelist_prefix s) (allowed_bash_commands state).

Definition matched_grant (state : PermissionState) (ws : list string) : bool :=
  matched_command_grant state ws || set_any (matches_bash_glob (join " " ws)) (allowed_bash_globs state).

Definition special_exec_surface (ws : list string) : bool :=
  kubectl_has_unsafe_flag ws || rg_has_unsafe_flag ws || ps_dumps_environment ws || git_words_have_unsafe_query_option ws.

Definition matched_safe (ws : list string) : bool :=
  is_safe_command_words ws || is_always_safe_command_words ws || is_safe_creation_command ws.

(** The variables of the loop over the segments. *)
Record SegState : Type := MkSegState {
  needs_prompt : list string; via_session_grant : bool; sg_all_granted : bool; sg_exec_risk : bool;
  has_git_command : bool; ambient_raw : list (list string); sg_assessment : BashSecurityAssessment }.

(** One segment; the left result is the early return of a deny. *)
Definition segment_step (state : PermissionState) (honor_safe_lists : bool) (st : SegState) (parsed : PlainCommand)
  : (string * SegState) + SegState :=
  let raw_words := words parsed in
  let ws := unwrap_wrappers raw_words in
  let facts := segment_exec_facts raw_words in
  let a := insert_if (words_are_opaque_shell (Literal <$> ws)) OpaqueShell (sg_assessment st) in
  let a := insert_if (exec_risk facts) ExecOrAmbientGit a in
  let risk := sg_exec_risk st || exec_risk facts in
  let git := has_git_command st || has_git facts in
  let raw := ambient_raw st ++ [raw_words] in
  if is_setup_command ws
  then inr (MkSegState (needs_prompt st) (via_session_grant st) (sg_all_granted st) risk git raw a)
  else
    let s := join " " ws in
    match matching_deny state s with
    | Some d =>
        inl (previously_rejected d, MkSegState (needs_prompt st) (via_session_grant st) (sg_all_granted st) risk git raw a)
    | None =>
        let granted := matched_grant state ws in
        let all := sg_all_granted st && granted in
        if is_dangerous_command_words ws
        then inr (MkSegState (needs_prompt st ++ [s]) (via_session_grant st) all risk git raw (assess_insert DangerousCommand a))
        else if special_exec_surface ws && negb (set_has (allowed_bash_commands state) s)
        then inr (MkSegState (needs_prompt st ++ [s]) (via_session_grant st) all risk git raw (assess_insert SpecialExecSurface a))
        else if granted || (honor_safe_lists && matched_safe ws)
        then inr (MkSegState (needs_prompt st) (via_session_grant st || granted) all risk git raw a)
        else inr (MkSegState (needs_prompt st ++ [s]) (via_session_grant st) all risk git raw a)
    end.

Fixpoint segment_loop (state : PermissionState) (honor_safe_lists : bool) (st : SegState) (segs : list PlainCommand)
  : (string * SegState) + SegState :=
  match segs with
  | [] => inr st
  | parsed :: segs =>
      match segment_step state honor_safe_lists st parsed with
      | inl r => inl r
      | inr st => segment_loop state honor_safe_lists st segs
      end
  end.

(** The result for a script that cannot be decomposed. *)
Definition undecomposable (cmd : string) (state : PermissionState) (a : BashSecurityAssessment) : BashEvaluation :=
  MkEvaluation (unwrap_or Unparseable (raw_deny_rejection cmd state)) (set_has (allowed_bash_commands state) cmd) false a
    true None [] false.

Definition evaluate_bash (cmd : string) (state : PermissionState) (honor_safe_lists : bool) : BashEvaluation :=
  match try_parse_shell cmd with
  | None =>
      undecomposable cmd state (insert_if (unparseable_exec_risk cmd) ExecOrAmbientGit (assess_insert UnparseableShell []))
  | Some tree =>
      let root := root_node tree in
      let writes := command_write_paths_split root cmd in
      let cwd_change := script_has_cwd_change root cmd in
      let redirect :=
        unextracted_write_redirect writes || existsb (fun path => negb (is_safe_write_sink path)) (redirect_paths writes) in
      let a := insert_if (redirect || existsb (fun path => negb (is_safe_write_sink path)) (word_paths writes)) FileWrite [] in
      let segs := try_parse_word_only_commands_sequence tree cmd in
      let a := match env_risk_finding (script_env_risk root cmd (unwrap_or [] segs)) with
               | Some f => assess_insert f a
               | None => a
               end in
      match segs with
      | None =>
          undecomposable cmd state
            (insert_if (unparseable_exec_risk cmd) ExecOrAmbientGit
              (insert_if (tree_has_opaque_shell root cmd) OpaqueShell (assess_insert UnparseableShell a)))
      | Some segs =>
          let exact := whole_script_grant cmd segs state in
          match segment_loop state honor_safe_lists (MkSegState [] false true false false [] a) segs with
          | inl (reason, st) =>
              MkEvaluation (SegReject reason) exact (sg_all_granted st) (sg_assessment st) redirect None [] false
          | inr st =>
              MkEvaluation
                (match needs_prompt st with [] => AutoAllow (via_session_grant st) | l => NeedsPrompts l end)
                exact (sg_all_granted st) (sg_assessment st) redirect
                (then_some (has_git_command st && negb (sg_exec_risk st)) (ambient_raw st))
                (creation_paths writes) cwd_change
          end
      end
  end.
End evaluate.

(** ** Grants that answer a request *)

Definition clamp_yolo (requested : bool) (yolo_pin : option string) : bool := requested && negb (is_some yolo_pin).

Definition MAX_RECORDED_PERMISSION_DECISIONS : nat := 12.

Definition prompted_decision_approved (decision : PermDecision) (outcome_str : string) : option bool :=
  match decision with
  | DAllow => Some true
  | DReject _ => if negb (outcome_str =s? "error") then Some false else None
  | _ => None
  end.

Definition auto_prompt_blocks_allow {V} (access : AccessKind V) : bool := match access with Bash _ => false | _ => true end.

Definition persisted_bash_auto_allows (state : PermissionState) (cmd : string) (yolo_pin : option string) : bool :=
  (allow_bash_execute state && negb (is_some yolo_pin)) || set_has (allowed_bash_commands state) cmd.

Definition bash_request_floor_requires_prompt (evaluation : option BashEvaluation) : bool :=
  match evaluation with
  | Some e => negb (exact_grant e) && constrains_broad_grant (assessment e)
  | None => false
  end.

Definition bash_assessment_is_clear (evaluation : option BashEvaluation) : bool :=
  match evaluation with Some e => assess_is_empty (assessment e) | None => true end.

Definition classifier_assessment (evaluation : option BashEvaluation) (fail_closed_policy : bool) : BashSecurityAssessment :=
  insert_if fail_closed_policy FailClosedPolicy (match evaluation with Some e => assessment e | None => [] end).

Definition sandbox_may_auto_allow_bash (evaluation : option BashEvaluation) (sandbox_active : bool) : bool :=
  sandbox_active && negb (bash_request_floor_requires_prompt evaluation).

Record BashGrantOpts : Type := MkGrantOpts {
  honor_safe_lists : bool; allow_blanket : bool; conservative_blanket : bool }.
Definition PRE_CLASSIFIER : BashGrantOpts := MkGrantOpts true true true.
Definition ASK_FLOOR_REMEMBER : BashGrantOpts := MkGrantOpts false false false.
Definition post_classify (auto_forced_prompt : bool) : BashGrantOpts := MkGrantOpts true (negb auto_forced_prompt) false.

Definition grant_allow (reason : string) : option (PermDecision * string) := Some (DAllow, reason).

Definition bash_grant_pre_decision (cmd : string) (evaluation : BashEvaluation) (state : PermissionState)
    (yolo_pin : option string) (opts : BashGrantOpts) : option (PermDecision * string) :=
  match segments evaluation with
  | SegReject reason => Some (DReject reason, SESSION_DENY)
  | AutoAllow via =>
      if bash_request_floor_requires_prompt (Some evaluation) then None
      else if negb (honor_safe_lists opts) && negb (all_segments_granted evaluation) then None
      else grant_allow (if via then SESSION_GRANT else SAFE_COMMAND)
  | NeedsPrompts _ =>
      if bash_request_floor_requires_prompt (Some evaluation) then None
      else if negb (allow_blanket opts) then None
      else if conservative_blanket opts && assess_contains (assessment evaluation) DangerousCommand
      then then_some (exact_grant evaluation) (DAllow, SESSION_GRANT)
      else then_some (persisted_bash_auto_allows state cmd yolo_pin) (DAllow, SESSION_GRANT)
  | Unparseable =>
      if bash_request_floor_requires_prompt (Some evaluation) then None
      else if negb (allow_blanket opts) then None
      else then_some (if conservative_blanket opts then exact_grant evaluation
                      else persisted_bash_auto_allows state cmd yolo_pin) (DAllow, SESSION_GRANT)
  end.

Section grants.
Context `{T : TreeSitter} `{G : GlobCrate} `{U : UrlCrate} `{L : Unicode} `{J : SerdeJson} `{W : UrlPath}.

Definition narrow_allow_clears_write_floor `{F : FileSystem} (evaluation : option BashEvaluation)
    (policy : option CompiledPolicy) (access : AccessKind Value) : bool :=
  match evaluation with
  | Some e => is_file_write_only (assessment e) && negb (redirect_write e)
  | None => false
  end
  && match policy with Some p => narrow_allow_authorizes p access | None => false end.

(** The label of an answer of [mcp_pre_decision]. *)
Definition mcp_label (allow_reason : string) (d : PermDecision) : PermDecision * string :=
  (d, match d with DReject _ => SESSION_DENY | _ => allow_reason end).

Definition session_grant_pre_decision (access : AccessKind Value) (bash_evaluation : option BashEvaluation)
    (state : PermissionState) (allow_edits_for_session : bool) (static_domain_matcher : DomainMatcher)
    (honor_static_web_allowlist : bool) (yolo_pin : option string) : option (PermDecision * string) :=
  match access with
  | MCPTool name _ => mcp_label SESSION_GRANT <$> mcp_pre_decision name state false false
  | WebFetch url =>
      match url_parse_host url with
      | None => None
      | Some host =>
          match web_fetch_deny_pre_decision host state with
          | Some reject => Some (reject, SESSION_DENY)
          | None =>
              if honor_static_web_allowlist && check_permits static_domain_matcher host (url_path url)
              then grant_allow STATIC_ALLOWLIST
              else
                host ← host;
                if set_has (allowed_web_fetch_domains state) (normalize_domain host)
                then grant_allow SESSION_GRANT else None
          end
      end
  | Edit _ => if allow_edits_for_session then grant_allow SESSION_GRANT else None
  | Bash cmd => evaluation ← bash_evaluation; bash_grant_pre_decision cmd evaluation state yolo_pin PRE_CLASSIFIER
  | Read _ | Grep _ _ | WebSearch _ | AgentMessage _ => None
  end.

(** ** What is stored ([bash_grants.rs]) *)

Definition with_bash_commands (state : PermissionState) (f : gset string -> gset string) : PermissionState :=
  MkPermState (edit_policy state) (allow_bash_execute state) (f (allowed_bash_commands state))
    (disallowed_bash_commands state) (allowed_bash_globs state) (allowed_web_fetch_domains state)
    (allowed_mcp_tools state) (allowed_mcp_servers state) (disallowed_mcp_tools state)
    (disallowed_web_fetch_domains state) (validated_mcp_server_grants_version state).

Definition always_allow_scope_persists (h : BashCommandHighlights) (n : nat) : bool :=
  let ws := highlighted_words h in
  if (n =? 0)%nat || (length ws <? n)%nat || (n <? minimum_always_allow_scope ws)%nat then false
  else words_join_unambiguously (take n ws)
       || ((n =? length ws)%nat && is_nil (hl_prefix h) && is_nil (hl_suffix h)).

Definition MAX_SEGMENT_GRANTS : nat := 5.

Definition segment_grant_key (parsed : PlainCommand) : option string :=
  let ws := unwrap_wrappers (words parsed) in
  then_some (negb (is_nil ws) && negb (is_setup_command ws) && negb (is_dangerous_command_words ws)
             && negb (head_is_exec_vehicle ws) && words_join_unambiguously ws) (join " " ws).

Definition bash_grant_segments (cmd : string) : list string :=
  match try_parse_shell cmd ≫= (fun tree => try_parse_word_only_commands_sequence tree cmd) with
  | None => []
  | Some segs =>
      let grants := filter_map segment_grant_key segs in
      if (MAX_SEGMENT_GRANTS <? length grants)%nat then [] else grants
  end.

Definition persist_bash_always_allow (state : PermissionState) (cmd prefix : string) : PermissionState :=
  match primary_command_from_script cmd with
  | None => state
  | Some h =>
      let ws := highlighted_words h in
      let min_scope := minimum_always_allow_scope ws in
      let labeled_words_verified :=
        existsb (fun n => words_join_unambiguously (take n ws) && (join " " (take n ws) =s? prefix))
          (seq min_scope (S (length ws) - min_scope)) in
      if labeled_words_verified then with_bash_commands state (fun X => {[prefix]} ∪ X)
      else if is_nil (hl_prefix h) && is_nil (hl_suffix h) && (join " " ws =s? prefix)
      then with_bash_commands state (fun X => {[cmd]} ∪ X)
      else state
  end.

Definition bash_glob_covers_script (cmd pattern : string) : bool :=
  if bash_glob_is_catchall pattern then false
  else match try_parse_shell cmd ≫= (fun tree => try_parse_word_only_commands_sequence tree cmd) with
  | None => bash_pattern_matches_command pattern cmd
  | Some segs =>
      existsb (fun seg =>
        let ws := unwrap_wrappers (words seg) in
        negb (is_nil ws) && negb (is_setup_command ws) && bash_pattern_matches_command pattern (join " " ws)) segs
  end.

Definition always_allow_row_is_effective (cmd : string) : bool :=
  match primary_command_from_script cmd with
  | None => false
  | Some h =>
      let scope := default_always_allow_scope (highlighted_words h) in
      if negb (always_allow_scope_persists h scope) then false
      else
        let scratch := persist_bash_always_allow PermissionState_default cmd (join " " (take scope (highlighted_words h))) in
        match bash_grant_pre_decision cmd (evaluate_bash cmd scratch true) scratch None PRE_CLASSIFIER with
        | Some (DAllow, _) => true
        | _ => false
        end
  end.
End grants.

(** ** The verdict on a script, in closed form *)

Lemma set_any_iff p X : set_any p X = true <-> exists x, x ∈ X /\ p x = true.
Proof. unfold set_any. rewrite existsb_exists. setoid_rewrite <- list_elem_of_In. by setoid_rewrite elem_of_elements. Qed.

Lemma set_any_mono p X Y : X ⊆ Y -> set_any p X = true -> set_any p Y = true.
Proof. rewrite !set_any_iff. intros S (x&Hx&?). exists x. split; [by apply S|done]. Qed.

Lemma set_has_iff X x : set_has X x = true <-> x ∈ X.
Proof. unfold set_has. by rewrite bool_decide_eq_true. Qed.

Lemma set_has_mono X Y x : X ⊆ Y -> set_has X x = true -> set_has Y x = true.
Proof. rewrite !set_has_iff. intros S. apply S. Qed.

Lemma set_find_some p X x : set_find p X = Some x -> x ∈ X /\ p x = true.
Proof. intros H. apply find_some in H as [H ?]. split; [|done]. by apply elem_of_elements, list_elem_of_In. Qed.

Lemma set_find_none p X : set_find p X = None <-> set_any p X = false.
Proof.
  unfold set_find, set_any. induction (elements X) as [|x l IH]; cbn; [done|]. by destruct (p x).
Qed.

Section closed_form.
Context `{T : TreeSitter} `{G : GlobCrate}.
Implicit Types (state : PermissionState) (segs : list PlainCommand) (ws : list string).

Definition seg_words (p : PlainCommand) : list string := unwrap_wrappers (words p).

(** The commands that are judged: all but the setup ones. *)
Definition judged segs : list (list string) := List.filter (fun ws => negb (is_setup_command ws)) (seg_words <$> segs).

Definition denied state ws : bool := is_some (matching_deny state (join " " ws)).

(** A command that needs a question. *)
Definition asks state (honor : bool) ws : bool :=
  is_dangerous_command_words ws
  || (special_exec_surface ws && negb (set_has (allowed_bash_commands state) (join " " ws)))
  || negb (matched_grant state ws || (honor && matched_safe ws)).

(** What one command adds to the assessment. *)
Definition seg_findings state (p : PlainCommand) : list ClassifierSecurityFinding :=
  let ws := seg_words p in
  (if words_are_opaque_shell (Literal <$> ws) then [OpaqueShell] else [])
  ++ (if exec_risk (segment_exec_facts (words p)) then [ExecOrAmbientGit] else [])
  ++ (if is_setup_command ws then []
      else if is_dangerous_command_words ws then [DangerousCommand]
      else if special_exec_surface ws && negb (set_has (allowed_bash_commands state) (join " " ws))
      then [SpecialExecSurface] else []).

Lemma elem_of_insert_if b f g a : g ∈ insert_if b f a <-> g ∈ (if b then [f] else []) \/ g ∈ a.
Proof.
  destruct b; cbn [insert_if]; [|rewrite elem_of_nil; naive_solver].
  rewrite elem_of_assess_insert, list_elem_of_singleton. done.
Qed.

(** What a round of the loop that does not reject changes. *)
Lemma segment_step_inr state honor st p st' : segment_step state honor st p = inr st' ->
  existsb (denied state) (judged [p]) = false /\
  needs_prompt st' = needs_prompt st ++ (join " " <$> List.filter (asks state honor) (judged [p])) /\
  sg_all_granted st' = sg_all_granted st && forallb (matched_grant state) (judged [p]) /\
  (forall f, f ∈ sg_assessment st' <-> f ∈ sg_assessment st \/ f ∈ seg_findings state p).
Proof.
  unfold segment_step, judged, seg_findings. cbn [fmap list_fmap List.filter]. fold (seg_words p).
  destruct (is_setup_command (seg_words p)); cbn [negb]; cbv beta iota.
  { intros [= <-]. cbn [needs_prompt sg_all_granted sg_assessment existsb forallb List.filter fmap list_fmap].
    rewrite app_nil_r, andb_true_r. split_and!; [done..|]. intros f. rewrite !elem_of_insert_if, !elem_of_app, elem_of_nil.
    tauto. }
  unfold denied. cbn [existsb]. destruct (matching_deny state (join " " (seg_words p))) as [d|]; [done|].
  cbn [is_some orb List.filter forallb fmap list_fmap]. rewrite andb_true_r. unfold asks.
  set (a := insert_if _ ExecOrAmbientGit _).
  assert (A : forall f, f ∈ a <-> f ∈ sg_assessment st \/
    f ∈ (if words_are_opaque_shell (Literal <$> seg_words p) then [OpaqueShell] else []) \/
    f ∈ (if exec_risk (segment_exec_facts (words p)) then [ExecOrAmbientGit] else [])).
  { intros f. unfold a. rewrite !elem_of_insert_if. tauto. }
  clearbody a. destruct (is_dangerous_command_words (seg_words p)); cbn [orb].
  { intros [= <-]. cbn [needs_prompt sg_all_granted sg_assessment]. split_and!; [done..|]. intros f.
    rewrite elem_of_assess_insert, A, !elem_of_app, list_elem_of_singleton. tauto. }
  destruct (special_exec_surface (seg_words p) && negb _); cbn [orb].
  { intros [= <-]. cbn [needs_prompt sg_all_granted sg_assessment]. split_and!; [done..|]. intros f.
    rewrite elem_of_assess_insert, A, !elem_of_app, list_elem_of_singleton. tauto. }
  destruct (matched_grant state (seg_words p) || (honor && matched_safe (seg_words p))); cbn [negb];
    intros [= <-]; cbn [needs_prompt sg_all_granted sg_assessment fmap list_fmap]; rewrite ?app_nil_r; (split_and!; [done..|]);
    intros f; rewrite A, !elem_of_app, ?elem_of_nil; tauto.
Qed.

Lemma judged_cons p segs : judged (p :: segs) = judged [p] ++ judged segs.
Proof. unfold judged. cbn [fmap list_fmap List.filter]. by destruct (negb _). Qed.

Lemma segment_loop_inr state honor st segs st' : segment_loop state honor st segs = inr st' ->
  existsb (denied state) (judged segs) = false /\
  needs_prompt st' = needs_prompt st ++ (join " " <$> List.filter (asks state honor) (judged segs)) /\
  sg_all_granted st' = sg_all_granted st && forallb (matched_grant state) (judged segs) /\
  (forall f, f ∈ sg_assessment st' <-> f ∈ sg_assessment st \/ exists p, p ∈ segs /\ f ∈ seg_findings state p).
Proof.
  revert st. induction segs as [|p segs IH]; intros st; cbn [segment_loop].
  - intros [= <-]. cbn. rewrite app_nil_r, andb_true_r. split_and!; [done..|]. intros f. setoid_rewrite elem_of_nil.
    naive_solver.
  - destruct (segment_step state honor st p) as [r|st1] eqn:E; [done|]. apply segment_step_inr in E as (D1&N1&A1&F1).
    intros (D2&N2&A2&F2)%IH. rewrite judged_cons, existsb_app, forallb_app, List.filter_app, fmap_app.
    rewrite D1, D2, N2, N1, A2, A1, andb_assoc, app_assoc. split_and!; [done..|]. intros f. rewrite F2, F1.
    setoid_rewrite elem_of_cons. naive_solver.
Qed.

Lemma segment_loop_inl state honor st segs r st' : segment_loop state honor st segs = inl (r, st') ->
  exists ws d, ws ∈ judged segs /\ matching_deny state (join " " ws) = Some d /\ r = previously_rejected d.
Proof.
  revert st. induction segs as [|p segs IH]; intros st; cbn [segment_loop]; [done|].
  destruct (segment_step state honor st p) as [[r1 st1]|st1] eqn:E.
  - intros [= -> ->]. unfold segment_step in E. fold (seg_words p) in E.
    destruct (is_setup_command (seg_words p)) eqn:S; [done|].
    destruct (matching_deny state (join " " (seg_words p))) as [d|] eqn:D.
    + injection E as <- <-. exists (seg_words p), d. split; [|done]. rewrite judged_cons, elem_of_app. left.
      unfold judged. cbn. rewrite S. by left.
    + repeat case_match; done.
  - intros (ws&d&Hw&?)%IH. exists ws, d. rewrite judged_cons, elem_of_app. split; [by right|done].
Qed.

(** The script and what it decomposes into. *)
Definition decomposed (cmd : string) : option (list PlainCommand) :=
  try_parse_shell cmd ≫= fun tree => try_parse_word_only_commands_sequence tree cmd.

Lemma evaluate_decomposed cmd segs : decomposed cmd = Some segs ->
  exists a0 redirect creation cwd,
  (forall f, f ∈ a0 -> f = FileWrite \/ f = EnvInjection \/ f = UnvettedEnv) /\
  forall state honor, evaluate_bash cmd state honor =
  match segment_loop state honor (MkSegState [] false true false false [] a0) segs with
  | inl (reason, st) =>
      MkEvaluation (SegReject reason) (whole_script_grant cmd segs state) (sg_all_granted st) (sg_assessment st) redirect
        None [] false
  | inr st =>
      MkEvaluation (match needs_prompt st with [] => AutoAllow (via_session_grant st) | l => NeedsPrompts l end)
        (whole_script_grant cmd segs state) (sg_all_granted st) (sg_assessment st) redirect
        (then_some (has_git_command st && negb (sg_exec_risk st)) (ambient_raw st)) creation cwd
  end.
Proof.
  unfold decomposed. destruct (try_parse_shell cmd) as [tree|] eqn:P; [|done]. cbn [mbind option_bind]. intros D.
  unfold evaluate_bash. rewrite P, D. cbv zeta. do 4 eexists. split; [|intros; reflexivity].
  intros f. cbn [unwrap_or].
  set (b := _ || existsb _ (word_paths _)). destruct (script_env_risk _ _ _); cbn [env_risk_finding];
    rewrite ?elem_of_assess_insert, elem_of_insert_if, elem_of_nil; destruct b; rewrite ?list_elem_of_singleton, ?elem_of_nil; tauto.
Qed.
End closed_form.

Section verdicts.
Context `{T : TreeSitter} `{G : GlobCrate}.

(** The verdict on a script that decomposes is that on its commands: it is
    rejected only for a command that a remembered denial matches; it is allowed
    exactly when no command is denied and every command but the setup ones is
    granted or known to be safe, is not dangerous, and has no special flag
    without a grant of the very command; otherwise the question lists, in
    order, the commands that are not. *)
Theorem segments_exact cmd state honor segs : decomposed cmd = Some segs ->
  match segments (evaluate_bash cmd state honor) with
  | SegReject r => exists ws d, ws ∈ judged segs /\ matching_deny state (join " " ws) = Some d /\ r = previously_rejected d
  | AutoAllow _ => forall ws, ws ∈ judged segs -> denied state ws = false /\ asks state honor ws = false
  | NeedsPrompts l =>
      (forall ws, ws ∈ judged segs -> denied state ws = false) /\ l <> [] /\
      l = (join " " <$> List.filter (asks state honor) (judged segs))
  | Unparseable => False
  end.
Proof.
  intros D. destruct (evaluate_decomposed cmd segs D) as (a0&rd&cr&cw&_&E). rewrite E.
  destruct (segment_loop state honor _ segs) as [[r st]|st] eqn:L; cbn [segments].
  - by apply segment_loop_inl in L.
  - apply segment_loop_inr in L as (Dn&N&_&_). cbn [needs_prompt app] in N.
    assert (K : forall ws, ws ∈ judged segs -> denied state ws = false).
    { intros ws Hw. apply existsb_false_iff in Dn. rewrite list.Forall_forall in Dn. by apply Dn. }
    destruct (needs_prompt st) as [|x l] eqn:E2; cbn [segments]; [|by rewrite <- N].
    intros ws Hw. split; [by apply K|]. destruct (asks state honor ws) eqn:A; [exfalso|done].
    assert (H : ws ∈ List.filter (asks state honor) (judged segs)) by (rewrite list_elem_of_In, filter_In, <- list_elem_of_In; done).
    destruct (List.filter (asks state honor) (judged segs)) as [|y k]; [by apply elem_of_nil in H|done].
Qed.

(** ** More grants never turn an allow into a question *)

(** [t] grants what [s] grants. *)
Definition more_grants (s t : PermissionState) : Prop :=
  allowed_bash_commands s ⊆ allowed_bash_commands t /\ allowed_bash_globs s ⊆ allowed_bash_globs t /\
  (allow_bash_execute s = true -> allow_bash_execute t = true).

Lemma orb_mono a b a' b' : (a = true -> a' = true) -> (b = true -> b' = true) -> a || b = true -> a' || b' = true.
Proof. destruct a, b, a', b'; naive_solver. Qed.

Lemma matched_grant_mono s t ws : more_grants s t -> matched_grant s ws = true -> matched_grant t ws = true.
Proof.
  intros (C&Gl&_). unfold matched_grant, matched_command_grant. apply orb_mono.
  - destruct (always_allow_scope_pinned ws); eauto using set_has_mono, set_any_mono.
  - eauto using set_any_mono.
Qed.

Lemma asks_mono s t honor ws : more_grants s t -> asks s honor ws = false -> asks t honor ws = false.
Proof.
  intros M. unfold asks. rewrite !orb_false_iff, !negb_false_iff. intros [[-> H] K]. split_and!; [done| |].
  - destruct (special_exec_surface ws); [|done]. cbn [andb] in *. rewrite negb_false_iff in *.
    destruct M as (C&_). eauto using set_has_mono.
  - revert K. apply orb_mono; [by apply matched_grant_mono|done].
Qed.

Lemma seg_findings_mono s t p f : more_grants s t -> f ∈ seg_findings t p -> f ∈ seg_findings s p.
Proof.
  intros (C&_). unfold seg_findings. rewrite !elem_of_app. intros [H|[H|H]]; [tauto|tauto|]. right; right.
  destruct (is_setup_command _); [done|]. destruct (is_dangerous_command_words _); [done|].
  destruct (special_exec_surface _); [|done]. cbn [andb] in *.
  destruct (set_has (allowed_bash_commands s) _) eqn:E; [by rewrite (set_has_mono _ _ _ C E) in H|].
  destruct (set_has (allowed_bash_commands t) _); [by apply elem_of_nil in H|done].
Qed.

Lemma dangerous_finding s t p : DangerousCommand ∈ seg_findings s p -> DangerousCommand ∈ seg_findings t p.
Proof.
  unfold seg_findings. rewrite !elem_of_app. intros [H|[H|H]].
  - destruct (words_are_opaque_shell _); [|by apply elem_of_nil in H]. apply list_elem_of_singleton in H. done.
  - destruct (exec_risk _); [|by apply elem_of_nil in H]. apply list_elem_of_singleton in H. done.
  - right; right. destruct (is_setup_command _); [done|]. destruct (is_dangerous_command_words _); [done|].
    destruct (_ && _); [|by apply elem_of_nil in H]. apply list_elem_of_singleton in H. done.
Qed.

Lemma whole_script_grant_mono s t cmd segs : more_grants s t ->
  whole_script_grant cmd segs s = true -> whole_script_grant cmd segs t = true.
Proof.
  intros (C&_). unfold whole_script_grant. destruct (set_has (allowed_bash_commands s) cmd) eqn:E.
  { by rewrite (set_has_mono _ _ _ C E). }
  destruct segs as [|only [|]]; [done| |done]. rewrite !andb_true_iff. intros [[-> ->] H].
  rewrite (set_has_mono _ _ _ C H). by destruct (set_has (allowed_bash_commands t) cmd).
Qed.

(** How the evaluations under fewer and under more grants compare, when
    neither rejects. *)
Record Tighter (e e' : BashEvaluation) : Prop := MkTighter {
  tg_exact : exact_grant e = true -> exact_grant e' = true;
  tg_all : all_segments_granted e = true -> all_segments_granted e' = true;
  tg_finding : forall f, f ∈ assessment e' -> f ∈ assessment e;
  tg_danger : DangerousCommand ∈ assessment e -> DangerousCommand ∈ assessment e';
  tg_segments : match segments e, segments e' with
                | AutoAllow _, AutoAllow _ | NeedsPrompts _, AutoAllow _ | NeedsPrompts _, NeedsPrompts _
                | Unparseable, Unparseable => True
                | _, _ => False
                end }.

Lemma evaluate_undecomposed cmd : decomposed cmd = None ->
  exists a, forall state honor, evaluate_bash cmd state honor = undecomposable cmd state a.
Proof.
  unfold decomposed, evaluate_bash. destruct (try_parse_shell cmd) as [tree|]; [|eauto]. cbn [mbind option_bind].
  intros ->. eauto.
Qed.

Lemma evaluate_tighter cmd s t honor : more_grants s t ->
  (forall r, segments (evaluate_bash cmd s honor) <> SegReject r) ->
  (forall r, segments (evaluate_bash cmd t honor) <> SegReject r) ->
  Tighter (evaluate_bash cmd s honor) (evaluate_bash cmd t honor).
Proof.
  intros M. destruct (decomposed cmd) as [segs|] eqn:D.
  - destruct (evaluate_decomposed cmd segs D) as (a0&rd&cr&cw&_&E). rewrite !E.
    destruct (segment_loop s honor _ segs) as [[r st]|st] eqn:L1; [intros Hr; by destruct (Hr r)|].
    destruct (segment_loop t honor _ segs) as [[r' st']|st'] eqn:L2; [intros _ Hr; by destruct (Hr r')|].
    intros _ _. apply segment_loop_inr in L1 as (_&N1&A1&F1), L2 as (_&N2&A2&F2). cbn [needs_prompt sg_all_granted andb app] in *.
    split; cbn [exact_grant all_segments_granted assessment segments].
    + eauto using whole_script_grant_mono.
    + rewrite A1, A2, !forallb_forall. intros H ws Hw. eauto using matched_grant_mono.
    + intros f. rewrite F1, F2. intros [H|(p&Hp&H)]; [by left|right]. eauto using seg_findings_mono.
    + rewrite F1, F2. intros [H|(p&Hp&H)]; [by left|right]. eauto using dangerous_finding.
    + assert (K : needs_prompt st = [] -> needs_prompt st' = []).
      { rewrite N1, N2. intros Hn. apply fmap_nil_inv in Hn.
        enough (List.filter (asks t honor) (judged segs) = []) as -> by done.
        destruct (List.filter (asks t honor) (judged segs)) as [|x l] eqn:Ef; [done|exfalso].
        assert (H : x ∈ List.filter (asks t honor) (judged segs)) by (rewrite Ef; by left).
        rewrite list_elem_of_In, filter_In in H. destruct H as [H1 H2].
        destruct (asks s honor x) eqn:As; [|by rewrite (asks_mono s t honor x M As) in H2].
        assert (H : In x (List.filter (asks s honor) (judged segs))) by by apply filter_In. by rewrite Hn in H. }
      destruct (needs_prompt st) as [|x l]; [by rewrite K|]. by destruct (needs_prompt st').
  - destruct (evaluate_undecomposed cmd D) as (a&E). rewrite !E. unfold undecomposable. intros H1 H2.
    split; cbn [exact_grant all_segments_granted assessment segments]; try done.
    + destruct M as (C&_). eauto using set_has_mono.
    + destruct (raw_deny_rejection cmd s) as [e|] eqn:R1.
      { unfold raw_deny_rejection in R1. apply fmap_Some in R1 as (d&_&->). by destruct (H1 (previously_rejected d)). }
      destruct (raw_deny_rejection cmd t) as [e|] eqn:R2; [|done].
      unfold raw_deny_rejection in R2. apply fmap_Some in R2 as (d&_&->). by destruct (H2 (previously_rejected d)).
Qed.

Lemma floor_tighter e e' : Tighter e e' ->
  bash_request_floor_requires_prompt (Some e) = false -> bash_request_floor_requires_prompt (Some e') = false.
Proof.
  intros [X _ Fd _ _]. cbn. destruct (exact_grant e'); [done|]. destruct (exact_grant e); [by discriminate X|]. cbn.
  destruct (constrains_broad_grant (assessment e')) eqn:C; [|done]. apply constrains_iff in C as (f&Hf&Hg).
  intros H. rewrite (proj2 (constrains_iff (assessment e))) in H; [done|eauto].
Qed.

Lemma grant_tighter cmd e e' s t pin opts r : Tighter e e' -> more_grants s t ->
  honor_safe_lists opts = true \/ allow_blanket opts = false ->
  bash_grant_pre_decision cmd e s pin opts = Some (DAllow, r) ->
  exists r', bash_grant_pre_decision cmd e' t pin opts = Some (DAllow, r').
Proof.
  intros Tg M O. pose proof (floor_tighter _ _ Tg) as Fl. destruct Tg as [X A Fd Dg Sg]. unfold bash_grant_pre_decision.
  assert (P : persisted_bash_auto_allows s cmd pin = true -> persisted_bash_auto_allows t cmd pin = true).
  { destruct M as (C&_&B). unfold persisted_bash_auto_allows. apply orb_mono; [|eauto using set_has_mono].
    destruct (allow_bash_execute s); [by rewrite B|done]. }
  destruct (bash_request_floor_requires_prompt (Some e)).
  { by destruct (segments e). }
  rewrite Fl by done. destruct (segments e) as [v|r0|l|], (segments e') as [v'|r0'|l'|]; try done.
  - destruct (honor_safe_lists opts); cbn [negb andb]; [unfold grant_allow; eauto|].
    destruct (all_segments_granted e); [|done]. rewrite A by done. cbn. unfold grant_allow. eauto.
  - intros H. destruct O as [->|O]; [unfold grant_allow; eauto|]. rewrite O in H. done.
  - destruct (allow_blanket opts); [|done]. cbn [negb].
    assert (C : assess_contains (assessment e') DangerousCommand = assess_contains (assessment e) DangerousCommand).
    { apply eq_true_iff_eq. rewrite !assess_contains_iff. naive_solver. }
    rewrite C. destruct (_ && _); intros [H _]%then_some_some; [rewrite (X H)|rewrite (P H)]; eauto.
  - destruct (allow_blanket opts); [|done]. cbn [negb].
    destruct (conservative_blanket opts); intros [H _]%then_some_some; [rewrite (X H)|rewrite (P H)]; eauto.
Qed.

Lemma grant_not_reject cmd e s pin opts r : bash_grant_pre_decision cmd e s pin opts = Some (DAllow, r) ->
  forall r', segments e <> SegReject r'.
Proof. unfold bash_grant_pre_decision. by destruct (segments e). Qed.

(** Granting more never turns an allow into a question: what the stored
    grants allow without asking, they still allow after any grants are added,
    unless a denial was added that rejects the script; this holds before the
    classifier, after it, and where a grant answers an ask rule. *)
Theorem grants_monotone cmd s t pin opts r :
  opts ∈ [PRE_CLASSIFIER; ASK_FLOOR_REMEMBER; post_classify false; post_classify true] ->
  more_grants s t ->
  (forall reason, segments (evaluate_bash cmd t true) <> SegReject reason) ->
  bash_grant_pre_decision cmd (evaluate_bash cmd s true) s pin opts = Some (DAllow, r) ->
  exists r', bash_grant_pre_decision cmd (evaluate_bash cmd t true) t pin opts = Some (DAllow, r').
Proof.
  intros O M H A. pose proof (grant_not_reject _ _ _ _ _ _ A) as N. eapply (grant_tighter _ _ _ s t); [|done| |exact A].
  - by apply evaluate_tighter.
  - repeat (apply elem_of_cons in O as [->|O]; [cbn; tauto|]). by apply elem_of_nil in O.
Qed.
End verdicts.

(** ** Remembered denials *)

Section denials.
Context `{T : TreeSitter} `{G : GlobCrate}.

(** A remembered denial matches one of the judged commands, or the text of a
    script that does not decompose. *)
Definition rejected (state : PermissionState) (cmd : string) : bool :=
  match decomposed cmd with
  | Some segs => existsb (denied state) (judged segs)
  | None => is_some (matching_deny state cmd)
  end.

Lemma evaluate_reject state honor cmd :
  (exists r, segments (evaluate_bash cmd state honor) = SegReject r) <-> rejected state cmd = true.
Proof.
  unfold rejected. destruct (decomposed cmd) as [segs|] eqn:D.
  - destruct (evaluate_decomposed cmd segs D) as (a0&rd&cr&cw&_&E). rewrite E.
    destruct (segment_loop state honor _ segs) as [[r st]|st] eqn:L; cbn [segments].
    + apply segment_loop_inl in L as (ws&d&Hw&Hd&_). split; [intros _|by eauto]. apply existsb_exists. exists ws.
      split; [by apply list_elem_of_In|]. unfold denied. by rewrite Hd.
    + apply segment_loop_inr in L as (Dn&_). rewrite Dn. destruct (needs_prompt st); split; [by intros [??]|done|by intros [??]|done].
  - destruct (evaluate_undecomposed cmd D) as (a&E). rewrite E. unfold undecomposable, raw_deny_rejection. cbn [segments].
    destruct (matching_deny state cmd); cbn; split; eauto; [by intros [??]|done].
Qed.

Lemma rejected_same_denials s t cmd : disallowed_bash_commands s = disallowed_bash_commands t -> rejected s cmd = rejected t cmd.
Proof. intros H. unfold rejected, denied, matching_deny. by rewrite H. Qed.

Lemma rejected_decision state pin opts cmd : rejected state cmd = true ->
  exists r, bash_grant_pre_decision cmd (evaluate_bash cmd state true) state pin opts = Some (DReject r, SESSION_DENY).
Proof. intros [r E]%(evaluate_reject state true). exists r. unfold bash_grant_pre_decision. by rewrite E. Qed.
End denials.

(** ** What is stored, and what it is good for *)

Section stored.
Context `{T : TreeSitter} `{G : GlobCrate} `{U : UrlCrate} `{L : Unicode} `{J : SerdeJson} `{W : UrlPath}.

(** The grants [persist_bash_always_allow] adds. *)
Definition stored_keys (cmd label : string) : gset string :=
  allowed_bash_commands (persist_bash_always_allow PermissionState_default cmd label).

Lemma added_to_default f : allowed_bash_commands (with_bash_commands PermissionState_default f) = f ∅.
Proof. done. Qed.

Lemma persist_adds s cmd label :
  persist_bash_always_allow s cmd label = with_bash_commands s (fun X => stored_keys cmd label ∪ X).
Proof.
  unfold stored_keys, persist_bash_always_allow.
  assert (N : with_bash_commands s (fun X => allowed_bash_commands PermissionState_default ∪ X) = s).
  { change (allowed_bash_commands PermissionState_default) with (∅ : gset string). unfold with_bash_commands.
    rewrite (left_id_L ∅ (∪)). by destruct s. }
  destruct (primary_command_from_script cmd) as [h|]; [|by rewrite N].
  destruct (existsb _ _); [|destruct (_ && _); [|by rewrite N]]; rewrite added_to_default; unfold with_bash_commands; by rewrite ?(right_id_L ∅ (∪)).
Qed.

(** C8: an accepted offer is kept.  When the prompt offers to always allow a
    command, accepting the default scope stores a grant under which the same
    script runs without a question from then on, whatever was granted before,
    as long as no remembered denial rejects it. *)
Theorem always_allow_row_honest cmd h s pin :
  primary_command_from_script cmd = Some h -> always_allow_row_is_effective cmd = true -> rejected s cmd = false ->
  let label := join " " (take (default_always_allow_scope (highlighted_words h)) (highlighted_words h)) in
  let s' := persist_bash_always_allow s cmd label in
  exists r, bash_grant_pre_decision cmd (evaluate_bash cmd s' true) s' pin PRE_CLASSIFIER = Some (DAllow, r).
Proof.
  intros P R D label s'. unfold always_allow_row_is_effective in R. rewrite P in R.
  destruct (always_allow_scope_persists h _); [|done]. cbn [negb] in R. fold label in R.
  set (scratch := persist_bash_always_allow PermissionState_default cmd label) in R.
  destruct (bash_grant_pre_decision cmd (evaluate_bash cmd scratch true) scratch None PRE_CLASSIFIER) as [[[] r]|] eqn:E; try done.
  assert (X : allow_bash_execute scratch = false) by (unfold scratch; by rewrite persist_adds).
  assert (E' : bash_grant_pre_decision cmd (evaluate_bash cmd scratch true) scratch pin PRE_CLASSIFIER = Some (DAllow, r)).
  { rewrite <- E. unfold bash_grant_pre_decision, persisted_bash_auto_allows. by rewrite X. }
  assert (M : more_grants scratch s').
  { unfold s'. rewrite persist_adds. unfold more_grants. rewrite X. split_and!; [|unfold scratch; rewrite persist_adds; set_solver|done].
    unfold scratch. rewrite persist_adds. cbv [with_bash_commands allowed_bash_commands PermissionState_default].
    fold (allowed_bash_commands s). rewrite (right_id_L ∅ (∪)). apply union_subseteq_l. }
  eapply (grant_tighter _ _ _ scratch s'); [|done|by left|exact E'].
  apply evaluate_tighter; [done|by eapply grant_not_reject|]. intros reason Hr.
  assert (K : rejected s' cmd = true) by (apply (evaluate_reject s' true); eauto).
  rewrite (rejected_same_denials s' s) in K; [congruence|]. unfold s'. by rewrite persist_adds.
Qed.

(** A reply cannot widen what the user saw.  Whatever label a client sends
    back for an always-allow choice, the only grant that can be stored is the
    label itself, when it is an initial part of the command shown, at least as
    long as the minimum scope, that parses back to exactly those words; or the
    script itself, when the command is all of it.  For a dangerous command, an
    interpreter or a package runner nothing shorter than the command is stored. *)
Theorem stored_key_scope cmd label key : key ∈ stored_keys cmd label ->
  exists h, primary_command_from_script cmd = Some h /\
    ((key = label /\ exists n, (minimum_always_allow_scope (highlighted_words h) <= n <= length (highlighted_words h))%nat /\
        key = join " " (take n (highlighted_words h)) /\ words_join_unambiguously (take n (highlighted_words h)) = true) \/
     (key = cmd /\ hl_prefix h = [] /\ hl_suffix h = [] /\ label = join " " (highlighted_words h))) /\
    (always_allow_scope_pinned (highlighted_words h) = true -> key = join " " (highlighted_words h) \/ key = cmd).
Proof.
  unfold stored_keys, persist_bash_always_allow.
  destruct (primary_command_from_script cmd) as [h|]; [|by intros ?%elem_of_empty].
  destruct (existsb _ _) eqn:E.
  - cbv [with_bash_commands allowed_bash_commands PermissionState_default].
    intros [->%elem_of_singleton|?%elem_of_empty]%elem_of_union; [|done]. exists h. split; [done|].
    apply existsb_exists in E as (n&Hn%in_seq&[Hj Hl%String.eqb_eq]%andb_true_iff). split.
    + left. split; [done|]. exists n. split_and!; [lia|lia|done|done].
    + intros Pn. left. unfold minimum_always_allow_scope in Hn. rewrite Pn in Hn. by rewrite <- Hl, take_ge by lia.
  - destruct (is_nil (hl_prefix h) && is_nil (hl_suffix h) && _) eqn:A; [|by intros ?%elem_of_empty].
    cbv [with_bash_commands allowed_bash_commands PermissionState_default].
    intros [->%elem_of_singleton|?%elem_of_empty]%elem_of_union; [|done]. exists h. split; [done|].
    apply andb_true_iff in A as [[A1 A2]%andb_true_iff A3%String.eqb_eq].
    split; [right|by right]. split_and!; [done| | |done]; [by destruct (hl_prefix h)|by destruct (hl_suffix h)].
Qed.

(** A key that parses back identifies its words. *)
Lemma join_key_injective ws ws' : words_join_unambiguously ws = true -> words_join_unambiguously ws' = true ->
  join " " ws = join " " ws' -> ws = ws'.
Proof.
  unfold words_join_unambiguously. intros H H' E. rewrite E in H.
  destruct (_ ≫= _) as [[|only [|]]|]; try done.
  apply andb_true_iff in H as [_ H%bool_decide_eq_true], H' as [_ H'%bool_decide_eq_true]. congruence.
Qed.
End stored.

(** ** Two corners of the safe lists *)

(** The tree of [env "ls x/run"]: the command name, then a quoted word. *)
Definition quoted_name_script : string := "env " +:+ QUOTE +:+ "ls x/run" +:+ QUOTE.
Definition quoted_name_tree : TreeSitter := fun _ =>
  Some (MkTree (MkNode "program" true None 0 14
    [MkNode "command" true None 0 14
      [MkNode "command_name" true (Some "name") 0 3 [word_node 0 3];
       MkNode "string" true (Some "argument") 4 14
         [MkNode QUOTE false None 4 5 []; MkNode "string_content" true None 5 13 []; MkNode QUOTE false None 13 14 []]]]) false).

(** The words of a command are matched against the safe list after they are
    joined with spaces, so a program whose quoted name starts with a safe name
    and a space passes for the safe one: nothing is asked before [ls x/run] is
    run. *)
Theorem quoted_name_passes_as_safe :
  @decomposed quoted_name_tree quoted_name_script = Some [MkPlainCommand ["env"; "ls x/run"] 0 14] /\
  seg_words (MkPlainCommand ["env"; "ls x/run"] 0 14) = ["ls x/run"] /\
  let e := @evaluate_bash quoted_name_tree Sample.prefix_glob quoted_name_script PermissionState_default true in
  bash_grant_pre_decision quoted_name_script e PermissionState_default None PRE_CLASSIFIER = Some (DAllow, SAFE_COMMAND).
Proof. vm_compute. done. Qed.

Section setup_only.
Context `{T : TreeSitter} `{G : GlobCrate}.

(** Where a stored grant may answer an ask rule, a script of setup commands
    alone counts as granted although nothing was granted: the flag starts true
    and setup commands do not clear it. *)
Theorem setup_only_counts_as_granted cmd segs pin : decomposed cmd = Some segs -> judged segs = [] ->
  constrains_broad_grant (assessment (evaluate_bash cmd PermissionState_default false)) = false ->
  bash_grant_pre_decision cmd (evaluate_bash cmd PermissionState_default false) PermissionState_default pin ASK_FLOOR_REMEMBER
  = Some (DAllow, SAFE_COMMAND) \/
  bash_grant_pre_decision cmd (evaluate_bash cmd PermissionState_default false) PermissionState_default pin ASK_FLOOR_REMEMBER
  = Some (DAllow, SESSION_GRANT).
Proof.
  intros D J. destruct (evaluate_decomposed cmd segs D) as (a0&rd&cr&cw&_&E). rewrite !E.
  destruct (segment_loop _ _ _ segs) as [[r st]|st] eqn:L; cbn [segments].
  { apply segment_loop_inl in L as (ws&d&Hw&_). rewrite J in Hw. by apply elem_of_nil in Hw. }
  apply segment_loop_inr in L as (_&N&A&_). rewrite J in N, A. cbn in N, A. rewrite N, A.
  unfold bash_grant_pre_decision, bash_request_floor_requires_prompt. cbn [segments exact_grant assessment all_segments_granted].
  intros ->. rewrite andb_false_r. cbn. destruct (via_session_grant st); [by right|by left].
Qed.
End setup_only.

(** ** Concrete settings *)

Module ManagerSample.
#[local] Existing Instances Sample.one_command Sample.prefix_glob Sample.no_urls Sample.ascii_lower Tree.serde.

(** A session in which [cargo build] was granted and [curl] was refused. *)
Definition session : PermissionState :=
  MkPermState (edit_policy PermissionState_default) false {["cargo build"]} {["curl"]} ∅ ∅ ∅ ∅ ∅ ∅ 0%Z.

Lemma segments_exact_witness :
  exists ws, ws ∈ judged [MkPlainCommand ["nice"; "curl"; "x"] 0 11] /\ denied session ws = true.
Proof.
  pose proof (segments_exact "nice curl x" session true [MkPlainCommand ["nice"; "curl"; "x"] 0 11]) as H.
  specialize (H ltac:(vm_compute; reflexivity)).
  assert (E : segments (evaluate_bash "nice curl x" session true) = SegReject (previously_rejected "curl")) by (vm_compute; reflexivity).
  rewrite E in H. destruct H as (ws&d&Hw&Hd&_). exists ws. split; [exact Hw|]. unfold denied. by rewrite Hd.
Defined.

Lemma grants_monotone_witness :
  exists r, bash_grant_pre_decision "cargo build -q" (evaluate_bash "cargo build -q" session true) session None PRE_CLASSIFIER
    = Some (DAllow, r).
Proof.
  apply (grants_monotone "cargo build -q" (with_bash_commands PermissionState_default (fun _ => {["cargo build"]})) session
    None PRE_CLASSIFIER SESSION_GRANT).
  - left.
  - by vm_compute.
  - vm_compute. discriminate.
  - vm_compute. reflexivity.
Defined.

Lemma always_allow_row_honest_witness :
  let s' := persist_bash_always_allow session "cargo test -q" "cargo test -q" in
  exists r, bash_grant_pre_decision "cargo test -q" (evaluate_bash "cargo test -q" s' true) s' None PRE_CLASSIFIER
    = Some (DAllow, r).
Proof.
  apply (always_allow_row_honest "cargo test -q" (MkHighlights [] ["cargo"; "test"; "-q"] []) session None);
    vm_compute; reflexivity.
Defined.

Lemma stored_key_scope_witness :
  exists h, primary_command_from_script "cargo test -q" = Some h /\ minimum_always_allow_scope (highlighted_words h) = 1.
Proof.
  destruct (stored_key_scope "cargo test -q" "cargo test" "cargo test") as (h&P&_); [by vm_compute|].
  exists h. split; [exact P|]. vm_compute in P. injection P as <-. vm_compute. reflexivity.
Defined.
(** [cd /tmp] is answered without a question although an ask rule applies. *)
Example setup_only_sample :
  bash_grant_pre_decision "cd /tmp" (evaluate_bash "cd /tmp" PermissionState_default false) PermissionState_default None
    ASK_FLOOR_REMEMBER = Some (DAllow, SAFE_COMMAND).
Proof.
  destruct (setup_only_counts_as_granted "cd /tmp" [MkPlainCommand ["cd"; "/tmp"] 0 7] None) as [H|H];
    [vm_compute; reflexivity..|exact H|]. vm_compute in H. discriminate H.
Defined.
End ManagerSample.
