(* ===== verification/PermActor.v ===== *)
(** * [xai-grok-workspace], [permission/manager/mod.rs]: the actor

    One task owns the grants of a session and answers the requests of the agent
    and its subagents one after the other.  [handle_request] is the arm of its
    loop for a request, in the stages the code has; the other arms are
    [actor_command].  What the task waits for is an argument of each step: the
    files as they are when they are read, whether the requester is still there,
    the answer of the classifier and that of the user. *)

From stdpp Require Import gmap sets.
From S2P Require Import Prelude RustStr Json Paths PermRules BashCommand PermPolicy ShellAccess PermGate ExecRisk.
From S2P Require Import AutoMode PermState WebDomains PermManager.

(** ** Paths the model writes ([xai-grok-tools], [types/resources.rs]) *)

(** [shellexpand::tilde] *)
Class ShellExpand := tilde : string -> string.

Fixpoint strip_escapes (fuel : nat) (s : string) : string :=
  match fuel with
  | O => s
  | S fuel =>
      match strip_suffix "\n" s with
      | Some r => strip_escapes fuel (trim_end r)
      | None =>
          match strip_suffix "\r" s with
          | Some r => strip_escapes fuel (trim_end r)
          | None =>
              match strip_suffix "\t" s with
              | Some r => strip_escapes fuel (trim_end r)
              | None => s
              end
          end
      end
  end.

Lemma strip_escapes_done n s p : (String.length s <= n)%nat -> p ∈ ["\n"; "\r"; "\t"] ->
  strip_suffix p (strip_escapes n s) = None.
Proof.
  intros H Hp. revert s H. induction n as [|n IH]; intros s H; cbn [strip_escapes].
  { destruct s; [|cbn in H; lia]. repeat (apply elem_of_cons in Hp as [->|Hp]; [done|]). by apply elem_of_nil in Hp. }
  assert (K : forall q r, strip_suffix q s = Some r -> (1 <= String.length q)%nat -> strip_suffix p (strip_escapes n (trim_end r)) = None).
  { intros q r E%strip_suffix_some L. apply IH. destruct (trim_end_prefix r) as (r'&E'&_).
    pose proof (f_equal String.length E) as L1. pose proof (f_equal String.length E') as L2. rewrite length_sapp in L1, L2. lia. }
  destruct (strip_suffix "\n" s) eqn:E1; [by eapply K; [exact E1|cbn; lia]|].
  destruct (strip_suffix "\r" s) eqn:E2; [by eapply K; [exact E2|cbn; lia]|].
  destruct (strip_suffix "\t" s) eqn:E3; [by eapply K; [exact E3|cbn; lia]|].
  repeat (apply elem_of_cons in Hp as [->|Hp]; [done|]). by apply elem_of_nil in Hp.
Qed.

Definition starts_quoted (s : string) : bool := match s with String c _ => is_quote c | EmptyString => false end.
Definition ends_quoted (s : string) : bool := ends_with QUOTE s || ends_with "'" s.

Definition sanitize_model_path_arg (input : string) : string :=
  let trimmed := trim input in
  let quote_wrapped := (2 <=? String.length trimmed)%nat && starts_quoted trimmed && ends_quoted trimmed in
  let unquoted := trim (trim_matches is_quote trimmed) in
  if negb quote_wrapped then unquoted else strip_escapes (String.length unquoted) unquoted.

Definition resolve_model_path `{ShellExpand} (cwd : string) (display_cwd : option string) (input : string) : string :=
  let expanded := tilde (sanitize_model_path_arg input) in
  match then_some (is_absolute expanded) display_cwd with
  | Some (Some display) =>
      match strip_path_prefix expanded display with Some suffix => push cwd suffix | None => expanded end
  | _ =>
      let mirrored :=
        if negb (is_absolute expanded) && negb (is_empty expanded) then
          let as_absolute := "/" +:+ expanded in
          let effective_base := unwrap_or cwd display_cwd in
          if path_starts_with as_absolute effective_base then strip_path_prefix as_absolute effective_base else None
        else None in
      match mirrored with Some suffix => push cwd suffix | None => push cwd expanded end
  end.

(** ** Requests *)

Record RequestPathContext : Type := MkPathContext { real_cwd : string; display_cwd : option string }.

Record PermissionRequest {V : Type} : Type := MkRequest {
  rq_access : AccessKind V; tool_call_id : string; path_context : option RequestPathContext;
  rq_session_id : option string; subagent_type : option string; subagent_description : option string;
  hook_ask : option HookAsk }.
Arguments PermissionRequest : clear implicits.
Arguments MkRequest {V}.

Definition SEND_SUBAGENT_MESSAGE_TOOL_NAME : string := "send_subagent_message".

Definition tool_name_for_access {V} (access : AccessKind V) : string :=
  match access with
  | Read _ => "read_file"
  | Grep _ _ => "grep"
  | Edit _ => "search_replace"
  | Bash _ => "run_terminal_command"
  | MCPTool name _ => "mcp:" +:+ name
  | WebFetch _ => "web_fetch"
  | WebSearch _ => "web_search"
  | AgentMessage _ => SEND_SUBAGENT_MESSAGE_TOOL_NAME
  end.

(** [prompter.rs] *)
Inductive PromptOutcome : Type :=
| AllowOnce | AllowAlways | AllowEditsForSession
| AllowAlwaysBashCommand (prefix : string) | AllowAlwaysBashGlob (pattern : string)
| AllowAlwaysDomain (domain : string) | AllowAlwaysMcpTool (tool : string) | AllowAlwaysMcpServer (server : string)
| RejectOnce | RejectAlwaysBashCommand (prefix : string) | RejectAlwaysMcpTool (tool : string)
| RejectAlwaysDomain (domain : string)
| PromptCancelled | FollowupMessage (message : string) | PromptError (error : string).

Inductive PromptOutcomeKind : Type :=
| POAllowOnce | POAllowAlways | POAllowEditsForSession | POAllowAlwaysBash | POAllowAlwaysBashGlob | POAllowAlwaysDomain
| POAllowAlwaysMcpTool | POAllowAlwaysMcpServer | PORejectOnce | PORejectAlwaysBash | PORejectAlwaysMcpTool
| PORejectAlwaysDomain | POCancelled | POFollowup | POError.

Definition outcome_wire_str (k : PromptOutcomeKind) : string :=
  match k with
  | POAllowOnce => "allow_once" | POAllowAlways => "allow_always" | POAllowEditsForSession => "allow_edits_for_session"
  | POAllowAlwaysBash => "allow_always_bash" | POAllowAlwaysBashGlob => "allow_always_bash_glob"
  | POAllowAlwaysDomain => "allow_always_domain" | POAllowAlwaysMcpTool => "allow_always_mcp_tool"
  | POAllowAlwaysMcpServer => "allow_always_mcp_server" | PORejectOnce => "reject_once"
  | PORejectAlwaysBash => "reject_always_bash" | PORejectAlwaysMcpTool => "reject_always_mcp_tool"
  | PORejectAlwaysDomain => "reject_always_domain" | POCancelled => "cancelled" | POFollowup => "followup"
  | POError => "error"
  end.

Definition prompt_kind (o : PromptOutcome) : PromptOutcomeKind :=
  match o with
  | AllowOnce => POAllowOnce
  | AllowAlways => POAllowAlways
  | AllowEditsForSession => POAllowEditsForSession
  | AllowAlwaysBashCommand _ => POAllowAlwaysBash
  | AllowAlwaysBashGlob _ => POAllowAlwaysBashGlob
  | AllowAlwaysDomain _ => POAllowAlwaysDomain
  | AllowAlwaysMcpTool _ => POAllowAlwaysMcpTool
  | AllowAlwaysMcpServer _ => POAllowAlwaysMcpServer
  | RejectOnce => PORejectOnce
  | RejectAlwaysBashCommand _ => PORejectAlwaysBash
  | RejectAlwaysMcpTool _ => PORejectAlwaysMcpTool
  | RejectAlwaysDomain _ => PORejectAlwaysDomain
  | PromptCancelled => POCancelled
  | FollowupMessage _ => POFollowup
  | PromptError _ => POError
  end.

(** ** [manager/request_classification.rs] *)

Definition AUTO_DENY_CONSECUTIVE_LIMIT : nat := 3.
Definition AUTO_DENY_TOTAL_LIMIT : nat := 20.
Definition AUTO_DENY_GUIDANCE : string :=
  "Take a safer approach that stays within what the user asked for; do not retry this exact action or attempt to work around the denial. If no safer alternative exists, ask the user how to proceed.".

Record DenialCounters : Type := MkDenials { consecutive : nat; dn_total : nat }.

Inductive ClassificationSource : Type := ByClassifier (s : ClassifierSource) | NotWired.
Definition classification_kind (s : ClassificationSource) : ClassifierSourceKind :=
  match s with ByClassifier s => source_kind s | NotWired => KNotWired end.

Record ClassificationOutcome : Type := MkClassification {
  co_verdict : ClassifierVerdict; co_source : ClassificationSource; latency_ms : option Z }.

Inductive RequestClassification : Type :=
| NotClassified
| FastPath
| Classified (assessment : BashSecurityAssessment) (outcome : option ClassificationOutcome).

Definition classifier_source (c : RequestClassification) : option ClassifierSourceKind :=
  match c with
  | NotClassified => None
  | FastPath => Some KFastPath
  | Classified _ outcome => (fun o => classification_kind (co_source o)) <$> outcome
  end.
Definition classifier_verdict (c : RequestClassification) : option ClassifierVerdict :=
  match c with Classified _ (Some o) => Some (co_verdict o) | _ => None end.
Definition classifier_latency_ms (c : RequestClassification) : option Z :=
  match c with Classified _ (Some o) => latency_ms o | _ => None end.
Definition security_findings_tokens (c : RequestClassification) : option (list string) :=
  match c with Classified a _ => Some (assess_tokens a) | _ => None end.

Inductive PermissionMode : Type := AlwaysApprove | Auto | Ask.
Definition permission_mode_artifact_str (m : PermissionMode) : string :=
  match m with AlwaysApprove => "always-approve" | Auto => "auto" | Ask => "ask" end.

(** ** The actor *)

(** [dyn PermissionClassifier]; the number stands for what an answer depends on
    besides its arguments. *)
Definition Classifier (V : Type) : Type :=
  Z -> string -> AccessKind V -> option string -> ClassifierContext -> ClassifierOutcome.

(** What the actor is spawned with. *)
Record ManagerConfig : Type := MkManager {
  mc_dirs : StoreDirs; mc_cwd : string; client_type : ClientType; permission_config : option PermissionConfig;
  web_fetch_allowed_domains : list string; mc_initial_yolo : bool; client_identifier : option string;
  remember_tool_approvals : bool; yolo_pin : option string }.

Definition mc_prompt_policy (c : ManagerConfig) : PromptPolicy :=
  match permission_config c with Some pc => prompt_policy pc | None => PromptAsk end.
Definition is_prompt_auto (c : ManagerConfig) : bool := match mc_prompt_policy c with PromptAuto => true | _ => false end.
Definition initial_yolo (c : ManagerConfig) : bool := clamp_yolo (mc_initial_yolo c) (yolo_pin c).
Definition seed_auto (c : ManagerConfig) : bool := negb (initial_yolo c) && is_prompt_auto c.

(** The variables of the task. *)
Record Actor {V : Type} : Type := MkActor {
  store : CachedStateStore; state : PermissionState; yolo_mode : bool; auto_mode : bool;
  auto_classifier : option (Classifier V); denials : DenialCounters; classifier_turns : list ClassifierTurn;
  recorded_permission_decisions : list ClassifierTurn; ac_instructions : option string; pin_refusal_logged : bool;
  allow_edits_for_session : bool }.
Arguments Actor : clear implicits.
Arguments MkActor {V}.

(** What happens while one request is handled. *)
Record Surroundings : Type := MkSurroundings {
  gone_at_dequeue : bool; gone_after_scan : bool; gone_in_classify : bool; gone_before_prompt : bool;
  gone_while_open : bool; gone_at_end : bool;
  scan_finishes : bool;                 (** [spawn_blocking] does not panic *)
  should_auto_allow_bash : bool;        (** [xai_grok_sandbox] *)
  moment : Z; classify_ms : Z; wait_ms : Z; queue_depth : Z; timestamp : Z;
  user : PromptOutcome;                 (** the answer, when there is a prompt *)
  disk_at_answer : gmap string File; may_write : string -> bool }.

Record PermissionEvent : Type := MkPermEvent {
  ev_tool_id : string; ev_tool_name : string; ev_access_kind : string; ev_access_detail : option string;
  ev_yolo_mode : bool; ev_auto_approved : bool; ev_user_prompted : bool; ev_decision : string;
  ev_prompt_outcome : option string; ev_reject_reason : option string; ev_timestamp : Z;
  ev_session : option string; ev_subagent_type : option string; ev_subagent_description : option string;
  ev_permission_mode : option string; ev_decision_reason : option string; ev_classifier_source : option string;
  ev_classifier_latency_ms : option Z; ev_denials_consecutive : option nat; ev_denials_total : option nat;
  ev_wait_ms : option Z; ev_queue_depth : option Z; ev_security_findings : option (list string);
  ev_classifier_verdict : option string; ev_remember : option bool }.

Section spawn.
Context `{T : TreeSitter} `{J : SerdeJson} (PROMPT : string) `{Tm : Toml}.

Definition default_auto_mode_classifier : Classifier Value := fun _ => llm_classify PROMPT production_default.

Definition migrate_edit_policy (s : PermissionState) : PermissionState :=
  MkPermState EditAsk (allow_bash_execute s) (allowed_bash_commands s) (disallowed_bash_commands s) (allowed_bash_globs s)
    (allowed_web_fetch_domains s) (allowed_mcp_tools s) (allowed_mcp_servers s) (disallowed_mcp_tools s)
    (disallowed_web_fetch_domains s) (validated_mcp_server_grants_version s).

(** The task up to its loop. *)
Definition spawn_actor (may_write : string -> bool) (now : Z) (c : ManagerConfig) (d : Disk) : Actor Value * Disk :=
  let '(store, state, d) := resolve_and_load may_write now (mc_dirs c) (client_identifier c) d in
  let '(state, d) :=
    match edit_policy state with
    | EditAllow => let state := migrate_edit_policy state in
                   (state, persist_state may_write now (mc_dirs c) state (client_identifier c) d)
    | _ => (state, d)
    end in
  (MkActor store state (initial_yolo c) (seed_auto c) (Some default_auto_mode_classifier) (MkDenials 0 0) [] [] None false
     false, d).
End spawn.

(** *** Setters *)

Section setters.
Context {V : Type}.
Implicit Types a : Actor V.

Definition with_modes a (yolo auto logged : bool) (clf : option (Classifier V)) : Actor V :=
  MkActor (store a) (state a) yolo auto clf (denials a) (classifier_turns a) (recorded_permission_decisions a)
    (ac_instructions a) logged (allow_edits_for_session a).
Definition with_state a (st : CachedStateStore) (s : PermissionState) (edits : bool) : Actor V :=
  MkActor st s (yolo_mode a) (auto_mode a) (auto_classifier a) (denials a) (classifier_turns a)
    (recorded_permission_decisions a) (ac_instructions a) (pin_refusal_logged a) edits.
Definition with_context a (turns : list ClassifierTurn) (instructions : option string) : Actor V :=
  MkActor (store a) (state a) (yolo_mode a) (auto_mode a) (auto_classifier a) (denials a) turns
    (recorded_permission_decisions a) instructions (pin_refusal_logged a) (allow_edits_for_session a).
Definition with_history a (dn : DenialCounters) (recorded : list ClassifierTurn) : Actor V :=
  MkActor (store a) (state a) (yolo_mode a) (auto_mode a) (auto_classifier a) dn (classifier_turns a)
    recorded (ac_instructions a) (pin_refusal_logged a) (allow_edits_for_session a).
End setters.

(** *** The other commands *)

Inductive PermissionCommand {V : Type} : Type :=
| Request (r : PermissionRequest V)
| SetYoloMode (enabled : bool)
| SetAutoMode (enabled : bool)
| SetClassifier (c : option (Classifier V))
| SetClassifierTranscript (turns : list ClassifierTurn)
| SetProjectInstructions (instructions : option string)
| ResetState
| Shutdown.
Arguments PermissionCommand : clear implicits.

Section commands.
Context `{T : TreeSitter} `{J : SerdeJson} (PROMPT : string).
Implicit Types a : Actor Value.

Definition set_yolo_command (c : ManagerConfig) (enabled : bool) a : Actor Value :=
  let clamped := clamp_yolo enabled (yolo_pin c) in
  let logged := pin_refusal_logged a || (enabled && negb clamped) in
  with_modes a clamped (if clamped then false else auto_mode a) logged (auto_classifier a).

Definition set_auto_command (enabled : bool) a : Actor Value :=
  if enabled
  then with_modes a false true (pin_refusal_logged a)
         (match auto_classifier a with None => Some (default_auto_mode_classifier PROMPT) | clf => clf end)
  else with_modes a (yolo_mode a) false (pin_refusal_logged a) (auto_classifier a).

Definition reset_command `{Tm : Toml} (may_write : string -> bool) (now : Z) (c : ManagerConfig) (d : Disk) a
  : Actor Value * Disk :=
  (with_state a (store a) PermissionState_default false,
   replace_state_on_disk may_write now (mc_dirs c) PermissionState_default (client_identifier c) d).
End commands.

(** ** A request *)

Section request.
Context `{T : TreeSitter} `{G : GlobCrate} `{U : UrlCrate} `{L : Unicode} `{F : FileSystem} `{J : SerdeJson} `{W : UrlPath}.
Context `{Gt : Git2} `{X : ShellExpand} `{Tm : Toml} (grok_home : option string) (cfg : ManagerConfig).
Implicit Types (a : Actor Value) (r : PermissionRequest Value) (w : Surroundings) (access : AccessKind Value).

Definition compiled_policy : option CompiledPolicy := CompiledPolicy_new <$> permission_config cfg.
Definition static_domain_matcher : DomainMatcher := DomainMatcher_new (web_fetch_allowed_domains cfg).
Definition web_fetch_allowlist_is_default : bool := bool_decide (web_fetch_allowed_domains cfg = DEFAULT_ALLOWED_DOMAINS).

Definition request_cwd r : string := match path_context r with Some ctx => real_cwd ctx | None => mc_cwd cfg end.

Definition current_mode a : PermissionMode := if yolo_mode a then AlwaysApprove else if auto_mode a then Auto else Ask.

Definition access_strings access : string * option string :=
  match access with
  | Read _ => ("read", None)
  | Grep path _ => ("grep", path)
  | Edit path => ("edit", Some path)
  | Bash cmd => ("bash", Some cmd)
  | MCPTool name input => ("mcp", Some (mcp_access_detail name input))
  | WebFetch url => ("web_fetch", Some url)
  | WebSearch query => ("web_search", Some query)
  | AgentMessage subagent_id => ("agent_message", Some subagent_id)
  end.

Definition decision_strings (d : PermDecision) : string * option string :=
  match d with
  | DAllow => ("allow", None)
  | DAsk => ("ask", None)
  | DReject reason | DPolicyDeny reason => ("reject", Some reason)
  | DFollowupMessage _ => ("followup", None)
  | DCancelled => ("cancelled", None)
  end.

Definition emit_event a r w (dn : DenialCounters) (cl : RequestClassification) (decision : PermDecision)
    (auto_approved user_prompted : bool) (prompt_outcome : option string) (decision_reason : string) : PermissionEvent :=
  let '(access_kind, access_detail) := access_strings (rq_access r) in
  let '(decision_str, reject_reason) := decision_strings decision in
  MkPermEvent (tool_call_id r) (tool_name_for_access (rq_access r)) access_kind access_detail (yolo_mode a) auto_approved
    user_prompted decision_str prompt_outcome reject_reason (timestamp w) (rq_session_id r) (subagent_type r)
    (subagent_description r) (Some (permission_mode_artifact_str (current_mode a))) (Some decision_reason)
    (source_wire_str <$> classifier_source cl) (classifier_latency_ms cl)
    (then_some (auto_mode a) (consecutive dn)) (then_some (auto_mode a) (dn_total dn))
    (Some (wait_ms w)) (Some (queue_depth w)) (security_findings_tokens cl) (verdict_wire_str <$> classifier_verdict cl)
    (Some (remember_tool_approvals cfg)).

(** *** Before the decision *)

Definition reads_grants access : bool := match access with Bash _ | MCPTool _ _ | WebFetch _ => true | _ => false end.

(** Grants other sessions have saved. *)
Definition refresh w access a (d : Disk) : Actor Value * Disk :=
  if reads_grants access then
    let '(fresh, st, d) := reload_if_changed (may_write w) (timestamp w) (store a) d in
    let s := match fresh with Some fresh => merge_grants_from (state a) fresh | None => state a end in
    (with_state a st s (allow_edits_for_session a), d)
  else (a, d).

Definition take_ambient (e : BashEvaluation) (f : BashSecurityAssessment -> BashSecurityAssessment) : BashEvaluation :=
  MkEvaluation (segments e) (exact_grant e) (all_segments_granted e) (f (assessment e)) (redirect_write e) None
    (ev_creation_paths e) (has_cwd_change e).

Definition ambient_risk r w (raw : list (list string)) : bool :=
  match ambient_scan_plan_from_segments raw (request_cwd r) with
  | FailClosed => true
  | plan => if scan_finishes w then ambient_exec_risk_from_plan plan else true
  end.

(** The evaluation of a shell command, or nothing when the requester left
    during the scan of the repositories. *)
Definition evaluate_request r w (s : PermissionState) : option (option BashEvaluation) :=
  match rq_access r with
  | Bash cmd =>
      let e := evaluate_bash cmd s true in
      match ambient_segments e with
      | Some raw =>
          if gone_after_scan w then None
          else Some (Some (take_ambient e (insert_if (ambient_risk r w raw) ExecOrAmbientGit)))
      | None => Some (Some e)
      end
  | _ => Some None
  end.

Definition resolve_request_path r (path : string) : string :=
  match path_context r with
  | Some ctx => resolve_model_path (real_cwd ctx) (display_cwd ctx) path
  | None => resolve_model_path (mc_cwd cfg) None path
  end.

Fixpoint find_protection r (paths : list string) : option ProtectedEditReason :=
  match paths with
  | [] => None
  | p :: ps => match edit_target_protection grok_home (resolve_request_path r p) with
               | Some reason => Some reason
               | None => find_protection r ps
               end
  end.

Definition protected_edit r (evaluation : option BashEvaluation) : option ProtectedEditReason :=
  match rq_access r with
  | Edit path => edit_target_protection grok_home (resolve_request_path r path)
  | Bash _ =>
      e ← evaluation;
      if has_cwd_change e && existsb (fun p => negb (is_absolute p)) (ev_creation_paths e) then Some Sensitive
      else find_protection r (ev_creation_paths e)
  | _ => None
  end.

(** What the stages below read. *)
Record Facts : Type := MkFacts {
  access_of : AccessKind Value; evaluation : option BashEvaluation; protection : option ProtectedEditReason;
  preflight : GatePreflight; hook_forced_prompt : bool }.

Definition facts_of a r (e : option BashEvaluation) : Facts :=
  MkFacts (rq_access r) e (protected_edit r e)
    (preflight_evaluate compiled_policy (rq_access r) (request_cwd r) (auto_mode a)) (is_some (hook_ask r)).

Definition pre_classifier_forced_prompt (f : Facts) : bool :=
  policy_forced_prompt (preflight f) || shell_forced_prompt (preflight f) || hook_forced_prompt f.

(** *** The stages before the classifier *)

(** An answer: the decision, whether it counts as approved by a rule, and why. *)
Record Answer : Type := MkAnswer { an_decision : PermDecision; auto_approved : bool; an_reason : string }.

Definition policy_deny (f : Facts) : option Answer :=
  match policy_decision (preflight f) with
  | Some (DReject reason) => Some (MkAnswer (DPolicyDeny reason) false POLICY_DENY)
  | _ => None
  end.

Definition yolo_allow a (f : Facts) : option Answer :=
  then_some (yolo_mode a && negb (shell_forced_prompt (preflight f)) && negb (hook_forced_prompt f))
    (MkAnswer DAllow true YOLO).

Definition session_grant a (f : Facts) : option Answer :=
  if negb (pre_classifier_forced_prompt f) && negb (is_some (protection f)) then
    (fun '(d, reason) => MkAnswer d true reason) <$>
    session_grant_pre_decision (access_of f) (evaluation f) (state a) (allow_edits_for_session a) static_domain_matcher
      (negb (auto_mode a && web_fetch_allowlist_is_default)) (yolo_pin cfg)
  else None.

Definition policy_allows (f : Facts) : bool :=
  match policy_decision (preflight f) with Some DAllow => true | _ => false end.

Definition narrowly_allowed access : bool :=
  match compiled_policy with Some p => narrow_allow_authorizes p access | None => false end.

Definition auto_policy_allow a (f : Facts) : option Answer :=
  then_some (auto_mode a && negb (pre_classifier_forced_prompt f) && negb (is_some (protection f)) && policy_allows f
             && (bash_assessment_is_clear (evaluation f)
                 || (negb (bash_request_floor_requires_prompt (evaluation f)) && narrowly_allowed (access_of f))))
    (MkAnswer DAllow true POLICY_ALLOW).

Definition before_classifier a (f : Facts) : option Answer :=
  or_else (policy_deny f) (or_else (yolo_allow a f) (or_else (session_grant a f) (auto_policy_allow a f))).

(** *** The classifier *)

(** How the auto stage ends: with an answer, without a requester, or with a
    prompt forced for some reason or not. *)
Inductive AutoEnd : Type :=
| AutoAnswer (answer : Answer)
| AutoGone
| AutoOn (auto_forced_prompt : bool) (auto_prompt_reason : option string).

Record AutoResult : Type := MkAutoResult {
  auto_end : AutoEnd; auto_denials : DenialCounters; auto_classification : RequestClassification }.

Inductive RouteResult : Type := RouteCompleted (o : ClassifierOutcome) | RouteNotWired | RouteAbandoned.

Definition classify_route a w (f : Facts) (assessment : BashSecurityAssessment) : RouteResult :=
  match auto_classifier a with
  | Some clf =>
      if gone_in_classify w then RouteAbandoned
      else RouteCompleted (clf (moment w) (tool_name_for_access (access_of f)) (access_of f)
             (access_strings (access_of f)).2
             (MkContext (classifier_turns a ++ recorded_permission_decisions a) (ac_instructions a) assessment))
  | None =>
      match access_of f with
      | AgentMessage _ => RouteCompleted (outcome_heuristic VBlock)
      | _ => RouteNotWired
      end
  end.

Definition auto_deny_reason (o : ClassifierOutcome) : string :=
  match oc_reason o with
  | Some reason => "Auto mode blocked this action (" +:+ trim_end_matches "." reason +:+ "). " +:+ AUTO_DENY_GUIDANCE
  | None => "Auto mode blocked this action. " +:+ AUTO_DENY_GUIDANCE
  end.

(** The match on the verdict of a completed route. *)
Definition on_verdict a (f : Facts) (o : ClassifierOutcome) : AutoEnd * DenialCounters :=
  let dn := denials a in
  match oc_verdict o with
  | VAllow =>
      (if hook_forced_prompt f then AutoOn false None else AutoAnswer (MkAnswer DAllow true AUTO_CLASSIFIER_ALLOW),
       MkDenials 0 (dn_total dn))
  | VBlock =>
      if can_present_permission_prompt (client_type cfg) then (AutoOn true (Some AUTO_CLASSIFIER_DENY), dn)
      else if (consecutive dn <? AUTO_DENY_CONSECUTIVE_LIMIT)%nat && (dn_total dn <? AUTO_DENY_TOTAL_LIMIT)%nat
      then (AutoAnswer (MkAnswer (DPolicyDeny (auto_deny_reason o)) false AUTO_CLASSIFIER_DENY),
            MkDenials (S (consecutive dn)) (S (dn_total dn)))
      else (AutoOn true (Some AUTO_DENIAL_LIMIT), dn)
  | VUnavailable =>
      (AutoOn true (Some (if is_timeout o then AUTO_CLASSIFIER_TIMEOUT else AUTO_CLASSIFIER_UNAVAILABLE)), dn)
  end.

Definition classify_stage a w (f : Facts) : AutoResult :=
  let assessment := classifier_assessment (evaluation f) (defers_gate_ask (preflight f)) in
  match classify_route a w f assessment with
  | RouteAbandoned => MkAutoResult AutoGone (denials a) (Classified assessment None)
  | RouteNotWired =>
      MkAutoResult (AutoOn true (Some AUTO_CLASSIFIER_UNAVAILABLE)) (denials a)
        (Classified assessment (Some (MkClassification VUnavailable NotWired None)))
  | RouteCompleted o =>
      let '(e, dn) := on_verdict a f o in
      MkAutoResult e dn
        (Classified assessment (Some (MkClassification (oc_verdict o) (ByClassifier (outcome_source o)) (Some (classify_ms w)))))
  end.

Definition auto_stage a w (f : Facts) : AutoResult :=
  let skip := MkAutoResult (AutoOn false None) (denials a) NotClassified in
  if auto_mode a && admits_auto_classifier (preflight f) then
    let tool_name := tool_name_for_access (access_of f) in
    let needs_user := is_some (protection f) || access_requires_user_interaction tool_name (access_of f) in
    match auto_mode_fast_path (access_of f) tool_name needs_user with
    | FastAllow =>
        if hook_forced_prompt f then skip
        else MkAutoResult (AutoAnswer (MkAnswer DAllow true AUTO_FAST_PATH)) (denials a) FastPath
    | FastPromptUser => MkAutoResult (AutoOn true (Some NEEDS_USER)) (denials a) NotClassified
    | FastClassify => classify_stage a w f
    end
  else skip.

(** *** The stages after the classifier *)

Definition is_bash access : bool := match access with Bash _ => true | _ => false end.

Definition sandbox_allow w (f : Facts) (auto_forced_prompt : bool) : option Answer :=
  then_some (is_bash (access_of f) && sandbox_may_auto_allow_bash (evaluation f) (should_auto_allow_bash w)
             && negb (policy_forced_prompt (preflight f)) && negb auto_forced_prompt && negb (hook_forced_prompt f)
             && negb (is_some (protection f)))
    (MkAnswer DAllow true SANDBOX_AUTO).

(** An allow rule waits behind the confirmation floor. *)
Definition allow_deferred (f : Facts) (auto_forced_prompt : bool) : bool :=
  is_some (protection f) || auto_forced_prompt || hook_forced_prompt f
  || (bash_request_floor_requires_prompt (evaluation f)
      && negb (narrow_allow_clears_write_floor (evaluation f) compiled_policy (access_of f))).

Definition policy_answer (f : Facts) (auto_forced_prompt : bool) : option Answer :=
  match policy_decision (preflight f) with
  | Some DAsk | None => None
  | Some DAllow => if allow_deferred f auto_forced_prompt then None else Some (MkAnswer DAllow true POLICY_ALLOW)
  | Some decision => Some (MkAnswer decision true POLICY_ALLOW)
  end.

Definition web_fetch_pre_decision (s : PermissionState) (url : string) : option (PermDecision * string) :=
  match url_parse_host url with
  | None => None
  | Some host =>
      match web_fetch_deny_pre_decision host s with
      | Some reject => Some (reject, SESSION_DENY)
      | None =>
          if check_permits static_domain_matcher host (url_path url) then Some (DAllow, STATIC_ALLOWLIST)
          else host ← host;
               if set_has (allowed_web_fetch_domains s) (normalize_domain host) then Some (DAllow, PERSISTED_GRANT) else None
      end
  end.

Definition bash_pre_decision a (f : Facts) (auto_forced_prompt : bool) (cmd : string) : option (PermDecision * string) :=
  if is_some (protection f) || bash_request_floor_requires_prompt (evaluation f) then None
  else
    e ← evaluation f;
    if policy_forced_prompt (preflight f) then
      if remember_tool_approvals cfg && negb auto_forced_prompt && negb (shell_file_forced_prompt (preflight f))
      then bash_grant_pre_decision cmd e (state a) (yolo_pin cfg) ASK_FLOOR_REMEMBER
      else None
    else bash_grant_pre_decision cmd e (state a) (yolo_pin cfg) (post_classify auto_forced_prompt).

Definition pre_decision a (f : Facts) (auto_forced_prompt : bool) : option (PermDecision * string) :=
  match access_of f with
  | Read _ | Grep _ _ => if policy_forced_prompt (preflight f) then None else Some (DAllow, SAFE_COMMAND)
  | WebSearch _ => Some (DAllow, SAFE_COMMAND)
  | MCPTool name _ =>
      mcp_label PERSISTED_GRANT <$>
      mcp_pre_decision name (state a) (policy_forced_prompt (preflight f)) (remember_tool_approvals cfg)
  | Edit _ =>
      if allow_edits_for_session a && negb (is_some (protection f)) then Some (DAllow, PERSISTED_GRANT)
      else match edit_policy (state a) with
           | EditReject => Some (DReject "edits prohibited", SESSION_DENY)
           | EditAsk | EditAllow => None
           end
  | Bash cmd => bash_pre_decision a f auto_forced_prompt cmd
  | AgentMessage _ => None
  | WebFetch url => web_fetch_pre_decision (state a) url
  end.

Definition is_allow (d : option (PermDecision * string)) : bool := match d with Some (DAllow, _) => true | _ => false end.

Definition is_web_fetch access : bool := match access with WebFetch _ => true | _ => false end.

(** The allows that a forced prompt takes back. *)
Definition blocked_allow (f : Facts) (forced : bool) (reason : option string) (d : option (PermDecision * string)) : bool :=
  let classifier_absent :=
    match reason with
    | Some reason => (reason =s? AUTO_CLASSIFIER_TIMEOUT) || (reason =s? AUTO_CLASSIFIER_UNAVAILABLE)
    | None => false
    end in
  let webfetch_static_fallback :=
    classifier_absent && is_web_fetch (access_of f)
    && match d with
       | Some (DAllow, reason) => (reason =s? STATIC_ALLOWLIST) || (reason =s? PERSISTED_GRANT)
       | _ => false
       end in
  is_allow d && ((forced && auto_prompt_blocks_allow (access_of f) && negb webfetch_static_fallback) || hook_forced_prompt f).

Definition grant_answer a (f : Facts) (forced : bool) (reason : option string) : option Answer :=
  let d := pre_decision a f forced in
  if blocked_allow f forced reason d then None else (fun '(d, reason) => MkAnswer d true reason) <$> d.

Definition prompt_policy_answer (f : Facts) : option Answer :=
  match mc_prompt_policy cfg with
  | PromptDeny => Some (MkAnswer (DPolicyDeny "denied by prompt policy (tool not pre-approved)") false PROMPT_DENY)
  | PromptAllow => then_some (negb (hook_forced_prompt f)) (MkAnswer DAllow true PROMPT_ALLOW)
  | _ => None
  end.

Definition after_classifier a w (f : Facts) (forced : bool) (reason : option string) : option Answer :=
  or_else (sandbox_allow w f forced)
    (or_else (policy_answer f forced) (or_else (grant_answer a f forced reason) (prompt_policy_answer f))).

(** Why the user is asked. *)
Definition trigger_of (f : Facts) (reason : option string) : string :=
  let opaque_floor :=
    match evaluation f with Some e => negb (exact_grant e) && assess_contains (assessment e) OpaqueShell | None => false end in
  unwrap_or (if hook_forced_prompt f then HOOK_ASK
             else if opaque_floor then OPAQUE_SHELL
             else if bash_request_floor_requires_prompt (evaluation f) then BASH_REQUEST_FLOOR
             else NEEDS_USER)
    (prompt_trigger (preflight f) reason).

(** *** The decision short of a prompt *)

Inductive Route : Type := Answered (answer : Answer) | Gone | Prompting (trigger : string).

Record Decided : Type := MkDecided { route : Route; dc_denials : DenialCounters; dc_classification : RequestClassification }.

Definition decide_request a w (f : Facts) : Decided :=
  match before_classifier a f with
  | Some answer => MkDecided (Answered answer) (denials a) NotClassified
  | None =>
      let auto := auto_stage a w f in
      let route :=
        match auto_end auto with
        | AutoAnswer answer => Answered answer
        | AutoGone => Gone
        | AutoOn forced reason =>
            match after_classifier a w f forced reason with
            | Some answer => Answered answer
            | None => if gone_before_prompt w then Gone else Prompting (trigger_of f reason)
            end
        end in
      MkDecided route (auto_denials auto) (auto_classification auto)
  end.

(** *** The prompt *)

(** What an answer of the user changes: the grants, whether they are saved,
    whether edits are allowed from now on; the decision and its label. *)
Record Reaction : Type := MkReaction {
  rx_state : PermissionState; rx_persist : bool; rx_edits : bool; rx_decision : PermDecision; rx_kind : PromptOutcomeKind }.

Definition excluded (what : string) : string :=
  "User rejected the execution and excluded `" +:+ what +:+ "` from future runs in this project".
Definition REJECTED : string := "User rejected the execution".
Definition prompt_failed (e : string) : string := "Failed to request permission from user: " +:+ e.

(** Updates of one set of the grants. *)
Definition add_bash_deny (s : PermissionState) (x : string) : PermissionState :=
  MkPermState (edit_policy s) (allow_bash_execute s) (allowed_bash_commands s) ({[x]} ∪ disallowed_bash_commands s)
    (allowed_bash_globs s) (allowed_web_fetch_domains s) (allowed_mcp_tools s) (allowed_mcp_servers s)
    (disallowed_mcp_tools s) (disallowed_web_fetch_domains s) (validated_mcp_server_grants_version s).
Definition add_bash_glob (s : PermissionState) (x : string) : PermissionState :=
  MkPermState (edit_policy s) (allow_bash_execute s) (allowed_bash_commands s) (disallowed_bash_commands s)
    ({[x]} ∪ allowed_bash_globs s) (allowed_web_fetch_domains s) (allowed_mcp_tools s) (allowed_mcp_servers s)
    (disallowed_mcp_tools s) (disallowed_web_fetch_domains s) (validated_mcp_server_grants_version s).
Definition add_domain (s : PermissionState) (x : string) : PermissionState :=
  MkPermState (edit_policy s) (allow_bash_execute s) (allowed_bash_commands s) (disallowed_bash_commands s)
    (allowed_bash_globs s) ({[x]} ∪ allowed_web_fetch_domains s) (allowed_mcp_tools s) (allowed_mcp_servers s)
    (disallowed_mcp_tools s) (disallowed_web_fetch_domains s) (validated_mcp_server_grants_version s).
Definition add_mcp_tool (s : PermissionState) (x : string) : PermissionState :=
  MkPermState (edit_policy s) (allow_bash_execute s) (allowed_bash_commands s) (disallowed_bash_commands s)
    (allowed_bash_globs s) (allowed_web_fetch_domains s) ({[x]} ∪ allowed_mcp_tools s) (allowed_mcp_servers s)
    (disallowed_mcp_tools s) (disallowed_web_fetch_domains s) (validated_mcp_server_grants_version s).
Definition add_mcp_server (s : PermissionState) (x : string) : PermissionState :=
  set_mcp_servers s ({[x]} ∪ allowed_mcp_servers s) (validated_mcp_server_grants_version s).
Definition add_mcp_deny (s : PermissionState) (x : string) : PermissionState :=
  MkPermState (edit_policy s) (allow_bash_execute s) (allowed_bash_commands s) (disallowed_bash_commands s)
    (allowed_bash_globs s) (allowed_web_fetch_domains s) (allowed_mcp_tools s) (allowed_mcp_servers s)
    ({[x]} ∪ disallowed_mcp_tools s) (disallowed_web_fetch_domains s) (validated_mcp_server_grants_version s).
Definition add_domain_deny (s : PermissionState) (x : string) : PermissionState :=
  MkPermState (edit_policy s) (allow_bash_execute s) (allowed_bash_commands s) (disallowed_bash_commands s)
    (allowed_bash_globs s) (allowed_web_fetch_domains s) (allowed_mcp_tools s) (allowed_mcp_servers s)
    (disallowed_mcp_tools s) ({[x]} ∪ disallowed_web_fetch_domains s) (validated_mcp_server_grants_version s).

Definition bash_reaction (s : PermissionState) (edits : bool) (cmd : string) (o : PromptOutcome) : Reaction :=
  let once d := MkReaction s false edits d (prompt_kind o) in
  match o with
  | AllowOnce => once DAllow
  | AllowAlways =>
      MkReaction (with_bash_commands s (fun X => list_to_set (bash_grant_segments cmd) ∪ ({[cmd]} ∪ X))) true edits DAllow
        POAllowAlways
  | AllowAlwaysBashCommand prefix =>
      MkReaction (persist_bash_always_allow s cmd prefix) true edits DAllow POAllowAlwaysBash
  | AllowAlwaysBashGlob pattern =>
      if bash_glob_covers_script cmd pattern
      then MkReaction (add_bash_glob s pattern) true edits DAllow POAllowAlwaysBashGlob
      else once DAllow
  | AllowAlwaysDomain _ | AllowAlwaysMcpTool _ | AllowAlwaysMcpServer _ | AllowEditsForSession =>
      MkReaction s false edits DAllow POAllowOnce
  | RejectOnce => once (DReject REJECTED)
  | RejectAlwaysBashCommand prefix =>
      MkReaction (add_bash_deny s prefix) true edits (DReject (excluded prefix)) PORejectAlwaysBash
  | RejectAlwaysMcpTool _ | RejectAlwaysDomain _ => MkReaction s false edits (DReject REJECTED) PORejectOnce
  | PromptCancelled => once DCancelled
  | FollowupMessage msg => once (DFollowupMessage msg)
  | PromptError e => once (DReject (prompt_failed e))
  end.

(** A message to a subagent is allowed or refused once. *)
Definition agent_message_outcome (o : PromptOutcome) : PromptOutcome :=
  match o with
  | AllowOnce | AllowAlways | AllowEditsForSession | AllowAlwaysBashCommand _ | AllowAlwaysBashGlob _
  | AllowAlwaysDomain _ | AllowAlwaysMcpTool _ | AllowAlwaysMcpServer _ => AllowOnce
  | RejectOnce | RejectAlwaysBashCommand _ | RejectAlwaysMcpTool _ | RejectAlwaysDomain _ => RejectOnce
  | other => other
  end.

Definition mcp_server_reaction (s : PermissionState) (name server : string) : PermissionState :=
  match parse_mcp_qualified_name name with
  | Some (canonical, _) => if canonical =s? server then add_mcp_server s canonical else add_mcp_tool s name
  | None => add_mcp_tool s name
  end.

Definition other_reaction (s : PermissionState) (edits : bool) (access : AccessKind Value) (o : PromptOutcome) : Reaction :=
  let o := match access with AgentMessage _ => agent_message_outcome o | _ => o end in
  let once d := MkReaction s false edits d (prompt_kind o) in
  match o with
  | AllowOnce => once DAllow
  | AllowEditsForSession => MkReaction s false true DAllow POAllowEditsForSession
  | AllowAlways =>
      MkReaction (match access with MCPTool name _ => add_mcp_tool s name | _ => s end) true edits DAllow POAllowAlways
  | AllowAlwaysBashCommand _ | AllowAlwaysBashGlob _ => MkReaction s false edits DAllow POAllowAlwaysBash
  | AllowAlwaysDomain _ =>
      match access with
      | WebFetch url =>
          match url_parse_host url with
          | Some (Some host) => MkReaction (add_domain s (normalize_domain host)) true edits DAllow POAllowAlwaysDomain
          | _ => once DAllow
          end
      | _ => once DAllow
      end
  | AllowAlwaysMcpTool _ =>
      match access with
      | MCPTool name _ => MkReaction (add_mcp_tool s name) true edits DAllow POAllowAlwaysMcpTool
      | _ => once DAllow
      end
  | AllowAlwaysMcpServer server =>
      match access with
      | MCPTool name _ => MkReaction (mcp_server_reaction s name server) true edits DAllow POAllowAlwaysMcpServer
      | _ => once DAllow
      end
  | RejectAlwaysBashCommand _ => once (DReject REJECTED)
  | RejectAlwaysMcpTool _ =>
      match access with
      | MCPTool name _ => MkReaction (add_mcp_deny s name) true edits (DReject (excluded name)) PORejectAlwaysMcpTool
      | _ => MkReaction s false edits (DReject REJECTED) PORejectOnce
      end
  | RejectAlwaysDomain _ =>
      match (match access with WebFetch url => web_fetch_deny_key_from_url url | _ => None end) with
      | Some domain =>
          MkReaction (add_domain_deny s domain) true edits (DReject (excluded domain)) PORejectAlwaysDomain
      | None => MkReaction s false edits (DReject REJECTED) PORejectOnce
      end
  | RejectOnce => once (DReject REJECTED)
  | PromptCancelled => once DCancelled
  | PromptError e => once (DReject (prompt_failed e))
  | FollowupMessage msg => once (DFollowupMessage msg)
  end.

(** The answer that wins the race with the requester. *)
Definition prompt_outcome_of w : PromptOutcome := if gone_while_open w then PromptCancelled else user w.

Definition reaction a w access : Reaction :=
  match access with
  | Bash cmd => bash_reaction (state a) (allow_edits_for_session a) cmd (prompt_outcome_of w)
  | _ => other_reaction (state a) (allow_edits_for_session a) access (prompt_outcome_of w)
  end.

(** At most [MAX_RECORDED_PERMISSION_DECISIONS], the newest ones. *)
Definition record_decision access (rx : Reaction) (recorded : list ClassifierTurn) : list ClassifierTurn :=
  match prompted_decision_approved (rx_decision rx) (outcome_wire_str (rx_kind rx)) with
  | Some approved =>
      let recorded := recorded ++ [PermissionDecision (tool_name_for_access access)
        (permission_decision_args access (access_strings access).2) approved] in
      drop (length recorded - MAX_RECORDED_PERMISSION_DECISIONS) recorded
  | None => recorded
  end.

(** *** The whole arm *)

(** The state after it, the event that is sent, the answer that is sent if any,
    and whether the user was notified of a prompt. *)
Record Handled : Type := MkHandled {
  h_actor : Actor Value; h_disk : gmap string File; h_event : PermissionEvent; h_reply : option PermDecision; h_prompted : bool }.

Definition requester_gone a r w (dn : DenialCounters) (cl : RequestClassification) (d : Disk) : Handled :=
  MkHandled (with_history a dn (recorded_permission_decisions a)) d
    (emit_event a r w dn cl DCancelled false false None REQUESTER_GONE) None false.

Definition prompt_user a r w (dn : DenialCounters) (cl : RequestClassification) (trigger : string) (d : Disk) : Handled :=
  let rx := reaction a w (rq_access r) in
  let d := if rx_persist rx
           then persist_state (may_write w) (timestamp w) (mc_dirs cfg) (rx_state rx) (client_identifier cfg) (disk_at_answer w)
           else disk_at_answer w in
  let recorded := record_decision (rq_access r) rx (recorded_permission_decisions a) in
  let outcome_str := outcome_wire_str (rx_kind rx) in
  let gone := bool_decide (rx_decision rx = DCancelled) && gone_at_end w in
  let trigger := if gone then REQUESTER_GONE else trigger in
  let dn' := if negb (outcome_str =s? "error") && negb gone then MkDenials 0 0 else dn in
  MkHandled (with_history (with_state a (store a) (rx_state rx) (rx_edits rx)) dn' recorded) d
    (emit_event a r w dn cl (rx_decision rx) false true (Some outcome_str) trigger) (Some (rx_decision rx)) true.

Definition handle_request a r w (d : Disk) : Handled :=
  if gone_at_dequeue w then requester_gone a r w (denials a) NotClassified d
  else
    let '(a, d) := refresh w (rq_access r) a d in
    match evaluate_request r w (state a) with
    | None => requester_gone a r w (denials a) NotClassified d
    | Some e =>
        let '(MkDecided rt dn cl) := decide_request a w (facts_of a r e) in
        match rt with
        | Answered (MkAnswer decision auto reason) =>
            MkHandled (with_history a dn (recorded_permission_decisions a)) d
              (emit_event a r w dn cl decision auto false None reason) (Some decision) false
        | Gone => requester_gone a r w dn cl d
        | Prompting trigger => prompt_user a r w dn cl trigger d
        end
    end.
End request.

(** ** What the arm promises *)

Section promises.
Context `{T : TreeSitter} `{G : GlobCrate} `{U : UrlCrate} `{L : Unicode} `{F : FileSystem} `{J : SerdeJson} `{W : UrlPath}.
Context `{Gt : Git2} `{X : ShellExpand} `{Tm : Toml} (grok_home : option string) (cfg : ManagerConfig).
Implicit Types (a : Actor Value) (r : PermissionRequest Value) (w : Surroundings) (f : Facts) (access : AccessKind Value).

Notation handle := (handle_request grok_home cfg).
Notation decide := (decide_request cfg).

(** A request that was allowed without a prompt. *)
Definition silent (h : Handled) : Prop := h_reply h = Some DAllow /\ h_prompted h = false.

(** The answers of the user that allow something. *)
Definition user_allows (o : PromptOutcome) : bool :=
  match o with
  | AllowOnce | AllowAlways | AllowEditsForSession | AllowAlwaysBashCommand _ | AllowAlwaysBashGlob _
  | AllowAlwaysDomain _ | AllowAlwaysMcpTool _ | AllowAlwaysMcpServer _ => true
  | _ => false
  end.

Lemma reaction_allow a w access : rx_decision (reaction a w access) = DAllow -> user_allows (prompt_outcome_of w) = true.
Proof.
  unfold reaction. destruct access; cbn [bash_reaction other_reaction]; destruct (prompt_outcome_of w); try done;
    cbn; repeat case_match; try done.
Qed.

(** The state the decision is made in, and the facts it is made on. *)
Lemma handle_inv a r w d :
  (h_reply (handle a r w d) = None /\ h_prompted (handle a r w d) = false) \/
  exists e, let a' := (refresh w (rq_access r) a d).1 in
    evaluate_request cfg r w (state a') = Some e /\
    ((exists an, route (decide a' w (facts_of grok_home cfg a' r e)) = Answered an /\
        h_reply (handle a r w d) = Some (an_decision an) /\ h_prompted (handle a r w d) = false /\
        state (h_actor (handle a r w d)) = state a' /\
        ev_decision_reason (h_event (handle a r w d)) = Some (an_reason an)) \/
     (exists trigger, route (decide a' w (facts_of grok_home cfg a' r e)) = Prompting trigger /\
        h_reply (handle a r w d) = Some (rx_decision (reaction a' w (rq_access r))) /\
        h_prompted (handle a r w d) = true /\
        state (h_actor (handle a r w d)) = rx_state (reaction a' w (rq_access r)))).
Proof.
  unfold handle_request. destruct (gone_at_dequeue w); [by left|].
  destruct (refresh w (rq_access r) a d) as [a' d']. cbn [fst].
  destruct (evaluate_request cfg r w (state a')) as [e|] eqn:E; [|by left].
  destruct (decide a' w _) as [rt dn cl] eqn:D.
  destruct rt as [[dec auto reason]| |trigger] eqn:R; cbn [route].
  - right. exists e. split; [done|]. left. exists (MkAnswer dec auto reason). rewrite D. split_and!; try done.
    cbn. unfold emit_event. by destruct (access_strings _), (decision_strings _).
  - by left.
  - right. exists e. split; [done|]. right. exists trigger. rewrite D. split_and!; done.
Qed.

(** A silent allow comes from one of the stages. *)
Lemma answered_allow a w f an : route (decide a w f) = Answered an -> an_decision an = DAllow ->
  yolo_allow a f = Some an \/ session_grant cfg a f = Some an \/ auto_policy_allow cfg a f = Some an \/
  auto_end (auto_stage cfg a w f) = AutoAnswer an \/
  exists forced reason, auto_end (auto_stage cfg a w f) = AutoOn forced reason /\
    (sandbox_allow w f forced = Some an \/ policy_answer cfg f forced = Some an \/
     grant_answer cfg a f forced reason = Some an \/ prompt_policy_answer cfg f = Some an).
Proof.
  unfold decide_request. destruct (before_classifier cfg a f) as [an'|] eqn:B.
  - intros [= ->] D. unfold before_classifier, or_else in B. repeat case_match; simplify_eq/=; try tauto.
    unfold policy_deny in *. repeat case_match; simplify_eq/=.
  - cbn [route]. destruct (auto_end _) as [an'| |forced reason]; [intros [= ->]; tauto|done|].
    destruct (after_classifier cfg a w f forced reason) as [an'|] eqn:E; [|by destruct (gone_before_prompt w)].
    intros [= ->] _. right; right; right; right. exists forced, reason. split; [done|].
    unfold after_classifier, or_else in E. repeat case_match; simplify_eq; tauto.
Qed.

Lemma is_some_false {A} (o : option A) : is_some o = false <-> o = None.
Proof. by destruct o. Qed.

(** A stage that allows under a hook's question would be silent: none does. *)
Lemma hook_never_answered a w f an : hook_forced_prompt f = true -> route (decide a w f) = Answered an ->
  an_decision an <> DAllow.
Proof.
  intros H R D. destruct (answered_allow a w f an R D) as [S|[S|[S|[S|(fd&rs&_&S)]]]].
  - apply then_some_some in S as [S _]. rewrite H in S. by rewrite andb_false_r in S.
  - unfold session_grant, pre_classifier_forced_prompt in S. rewrite H, orb_true_r in S. done.
  - apply then_some_some in S as [S _]. unfold pre_classifier_forced_prompt in S. rewrite H, orb_true_r in S.
    cbn in S. by rewrite andb_false_r in S.
  - unfold auto_stage in S. rewrite H in S. repeat case_match; try done. unfold classify_stage in S.
    repeat case_match; try done. simplify_eq/=. unfold on_verdict in *. rewrite H in *. repeat case_match; simplify_eq/=.
  - destruct S as [S|[S|[S|S]]].
    + apply then_some_some in S as [S _]. rewrite H in S. by rewrite !andb_false_r in S.
    + unfold policy_answer, allow_deferred in S. rewrite H, orb_true_r in S. repeat case_match; simplify_eq/=.
    + unfold grant_answer, blocked_allow in S. rewrite H, orb_true_r, andb_true_r in S.
      destruct (pre_decision cfg a f fd) as [[dd rr]|]; [|done]. destruct dd; simplify_eq/=.
    + unfold prompt_policy_answer in S. rewrite H in S. repeat case_match; simplify_eq/=.
Qed.

(** C2: a hook that asks for confirmation is always heard.  In every mode, with
    every grant, rule, prompt policy and classifier, a request for which a hook
    asked is allowed only after the user was prompted and chose to allow it. *)
Theorem hook_ask_is_asked a r w d hook : hook_ask r = Some hook ->
  h_reply (handle a r w d) = Some DAllow ->
  h_prompted (handle a r w d) = true /\ gone_while_open w = false /\ user_allows (user w) = true.
Proof.
  intros H A. destruct (handle_inv a r w d) as [[N _]|(e&_&[(an&R&Re&_)|(tr&_&Re&P&_)])]; [congruence| |].
  - exfalso. rewrite Re in A. injection A as A. revert A. eapply hook_never_answered; [|exact R].
    cbn. by rewrite H.
  - rewrite Re in A. injection A as A. apply reaction_allow in A. split; [done|].
    unfold prompt_outcome_of in A. destruct (gone_while_open w); [done|]. done.
Qed.

(** *** Deny rules *)

Lemma policy_decision_mode policy access cwd auto auto' :
  policy_decision (preflight_evaluate policy access cwd auto) = policy_decision (preflight_evaluate policy access cwd auto').
Proof.
  unfold preflight_evaluate. destruct policy as [P|]; [destruct (evaluate_with_cwd_details _ _ _)|]; by destruct access.
Qed.

Lemma refresh_keeps w access a d : let a' := (refresh w access a d).1 in
  yolo_mode a' = yolo_mode a /\ auto_mode a' = auto_mode a /\ auto_classifier a' = auto_classifier a /\
  denials a' = denials a /\ recorded_permission_decisions a' = recorded_permission_decisions a /\
  edit_policy (state a') = edit_policy (state a) /\ allow_edits_for_session a' = allow_edits_for_session a.
Proof.
  cbv zeta. unfold refresh. destruct (reads_grants access); [|done].
  destruct (reload_if_changed _ _ _ _) as [[[fresh|] st] d']; done.
Qed.

Lemma policy_reject_final a r w d reason : gone_at_dequeue w = false -> gone_after_scan w = false ->
  policy_decision (preflight_evaluate (compiled_policy cfg) (rq_access r) (request_cwd cfg r) false) = Some (DReject reason) ->
  h_reply (handle a r w d) = Some (DPolicyDeny reason) /\ h_prompted (handle a r w d) = false /\
  state (h_actor (handle a r w d)) = state (refresh w (rq_access r) a d).1 /\
  h_disk (handle a r w d) = (refresh w (rq_access r) a d).2.
Proof.
  intros G1 G2 P. unfold handle_request. rewrite G1. destruct (refresh w (rq_access r) a d) as [a' d']. cbn [fst snd].
  assert (E : exists e, evaluate_request cfg r w (state a') = Some e).
  { unfold evaluate_request. rewrite G2. repeat case_match; eauto. }
  destruct E as [e ->]. unfold decide_request, before_classifier, policy_deny, facts_of. cbn [preflight].
  rewrite (policy_decision_mode _ _ _ _ false), P. done.
Qed.

(** C1: a deny rule is final.  When a rule of the managed policy denies a
    command that the script shows (under wrappers, in any position, in an inline
    script), or denies reading or writing a file it names (in any spelling,
    through a link), the request is refused, without a prompt, in every mode
    and whatever was granted, approved before or configured; and nothing is
    granted or saved by it. *)
Theorem deny_rule_is_final a r w d pc cmd rule :
  permission_config cfg = Some pc -> rq_access r = Bash cmd -> rule ∈ rules pc -> rule_action rule = RDeny ->
  (exists seg, Exposed MAX_INLINE_SHELL_DEPTH cmd seg /\ applies (Bash seg) None rule = true) \/
  (exists token mode u q, Touches MAX_INLINE_SHELL_DEPTH cmd false token mode u /\ q ∈ spellings (request_cwd cfg r) token u /\
     applies (shell_access mode q) (anchor (request_cwd cfg r) token u) rule = true) ->
  gone_at_dequeue w = false -> gone_after_scan w = false ->
  (exists reason, h_reply (handle a r w d) = Some (DPolicyDeny reason)) /\ h_prompted (handle a r w d) = false /\
  state (h_actor (handle a r w d)) = state (refresh w (rq_access r) a d).1 /\
  h_disk (handle a r w d) = (refresh w (rq_access r) a d).2.
Proof.
  intros C A Hr Ha M G1 G2.
  destruct (denied_is_rejected pc cmd (request_cwd cfg r) false rule Hr Ha M) as [reason P].
  destruct (policy_reject_final a r w d reason G1 G2) as (R&K); [|split; [by exists reason|exact K]].
  unfold compiled_policy. rewrite C, A. exact P.
Qed.

(** *** The floor under shell commands *)

Lemma floor_not_clear e : bash_request_floor_requires_prompt (Some e) = true -> bash_assessment_is_clear (Some e) = false.
Proof.
  cbn. intros [_ H]%andb_true_iff. apply constrains_iff in H as (x&Hx&_). unfold assess_is_empty.
  destruct (assessment e); [by apply elem_of_nil in Hx|done].
Qed.

Lemma floor_blocks_grants cmd e s pin opts d rs : bash_request_floor_requires_prompt (Some e) = true ->
  bash_grant_pre_decision cmd e s pin opts = Some (d, rs) -> d <> DAllow.
Proof. unfold bash_grant_pre_decision. intros ->. by destruct (segments e); intros [= <- <-]. Qed.

(** The verdict of the classifier that is installed. *)
Definition classifier_said_allow a w f : Prop :=
  exists clf, auto_classifier a = Some clf /\
    oc_verdict (clf (moment w) (tool_name_for_access (access_of f)) (access_of f) (access_strings (access_of f)).2
      (MkContext (classifier_turns a ++ recorded_permission_decisions a) (ac_instructions a)
        (classifier_assessment (evaluation f) (defers_gate_ask (preflight f))))) = VAllow.

Lemma auto_answer_allow a w f an : auto_end (auto_stage cfg a w f) = AutoAnswer an -> an_decision an = DAllow ->
  auto_mode a = true /\ admits_auto_classifier (preflight f) = true /\ protection f = None /\
  ((an_reason an = AUTO_FAST_PATH /\ auto_mode_fast_path (access_of f) (tool_name_for_access (access_of f)) false = FastAllow) \/
   (an_reason an = AUTO_CLASSIFIER_ALLOW /\ classifier_said_allow a w f)).
Proof.
  unfold auto_stage. destruct (auto_mode a); [|done]. destruct (admits_auto_classifier _); [|done]. cbn [andb].
  set (tool := tool_name_for_access (access_of f)).
  destruct (is_some (protection f)) eqn:P; cbn [orb]; [done|]. apply is_some_false in P.
  destruct (access_requires_user_interaction tool (access_of f)) eqn:I; [done|].
  destruct (auto_mode_fast_path _ _ _) eqn:K.
  - destruct (hook_forced_prompt f); [done|]. intros [= <-] _. cbn. split_and!; try done. by left.
  - done.
  - unfold classify_stage, classify_route. destruct (auto_classifier a) as [clf|] eqn:C.
    + destruct (gone_in_classify w); [done|]. unfold on_verdict.
      destruct (oc_verdict _) eqn:V; intros S D; repeat case_match; simplify_eq/=.
      split_and!; try done. right. split; [done|]. exists clf. done.
    + destruct (access_of f); intros S D; cbn in S; repeat case_match; simplify_eq/=.
Qed.

Lemma fast_path_bash cmd : auto_mode_fast_path (Bash cmd) (tool_name_for_access (@Bash Value cmd)) false = FastAllow ->
  is_one_of ["true"; ":"; "false"] (trim cmd) = true.
Proof. unfold auto_mode_fast_path. cbn [orb is_auto_mode_allowlisted_access]. by destruct (is_one_of _ (trim cmd)). Qed.


(** *** Remembered denials *)

Lemma evaluate_request_rejected r w s cmd e : rq_access r = Bash cmd -> evaluate_request cfg r w s = Some (Some e) ->
  segments e = segments (evaluate_bash cmd s true).
Proof. unfold evaluate_request. intros ->. repeat case_match; intros [= <-]; done. Qed.

Lemma rejected_grant s cmd e pin opts : rejected s cmd = true -> segments e = segments (evaluate_bash cmd s true) ->
  exists rs, bash_grant_pre_decision cmd e s pin opts = Some (DReject rs, SESSION_DENY).
Proof. intros [rs E]%(evaluate_reject s true) H. exists rs. unfold bash_grant_pre_decision. by rewrite H, E. Qed.

(** A gate that asks about a shell command shows in the policy's decision. *)
Lemma bash_shell_forced policy cmd cwd auto : let p := preflight_evaluate policy (Bash cmd) cwd auto in
  shell_forced_prompt p = true -> policy_forced_prompt p = true \/ exists rs, policy_decision p = Some (DReject rs).
Proof.
  cbv zeta. pose proof (preflight_direct policy (Bash cmd) cwd auto) as V.
  assert (N : native_symlink_fail_closed (preflight_evaluate policy (Bash cmd) cwd auto) = false).
  { unfold preflight_evaluate, evaluate_with_cwd_details. by destruct policy. }
  destruct (preflight_evaluate policy (Bash cmd) cwd auto) as [dr b s m df].
  unfold shell_forced_prompt, shell_file_forced_prompt, policy_forced_prompt, policy_decision.
  cbn [direct bash_command shell_file native_symlink_fail_closed] in *. rewrite N.
  destruct V as [-> | [-> | [-> | [rs ->]]]], b as [[]|], s as [[]|]; cbn; eauto.
Qed.

(** Something forces a prompt. *)
Definition prompt_forced f : Prop :=
  hook_forced_prompt f = true \/ policy_forced_prompt (preflight f) = true \/ is_some (protection f) = true.

Lemma not_clear_forced a r e cmd : rq_access r = Bash cmd ->
  let f := facts_of grok_home cfg a r e in
  policy_deny f = None -> negb (pre_classifier_forced_prompt f) && negb (is_some (protection f)) = false -> prompt_forced f.
Proof.
  intros A. cbv zeta. unfold pre_classifier_forced_prompt, prompt_forced. rewrite andb_false_iff, !negb_false_iff.
  intros Pd [[[H|H]%orb_true_iff|H]%orb_true_iff|H]; [tauto| |tauto|tauto].
  unfold policy_deny in Pd. cbn [preflight facts_of] in *. rewrite A in *. apply bash_shell_forced in H as [H|[rs H]]; [tauto|].
  by rewrite H in Pd.
Qed.

(** The grants answer no more than a reject. *)
Definition grants_refuse a f cmd : Prop := forall opts e, evaluation f = Some e ->
  is_allow (bash_grant_pre_decision cmd e (state a) (yolo_pin cfg) opts) = false.

Lemma forced_after_classifier a w f cmd forced reason an : prompt_forced f -> access_of f = Bash cmd -> grants_refuse a f cmd ->
  mc_prompt_policy cfg <> PromptAllow -> policy_deny f = None ->
  after_classifier cfg a w f forced reason = Some an -> an_decision an <> DAllow.
Proof.
  intros P A Gr Pp Pd. unfold after_classifier, or_else.
  destruct (sandbox_allow w f forced) as [an'|] eqn:S1.
  { apply then_some_some in S1 as [S _]. rewrite !andb_true_iff, !negb_true_iff in S. destruct S as [[[[_ S1] _] S2] S3].
    destruct P as [P|[P|P]]; congruence. }
  destruct (policy_answer cfg f forced) as [an'|] eqn:S2.
  { unfold prompt_forced, policy_forced_prompt in P. unfold policy_answer, policy_deny, allow_deferred in *.
    destruct (policy_decision (preflight f)) as [[]|]; try done; [|intros [= <-]; by injection S2 as <-..].
    destruct P as [P|[P|P]]; rewrite ?P, ?orb_true_r in S2; done. }
  destruct (grant_answer cfg a f forced reason) as [an'|] eqn:S3.
  { intros [= <-]. unfold grant_answer in S3. destruct (blocked_allow _ _ _ _); [done|]. unfold pre_decision in S3.
    rewrite A in S3. unfold bash_pre_decision in S3. destruct (_ || _); [done|].
    destruct (evaluation f) as [e|] eqn:E; [|done]. cbn [mbind option_bind] in S3.
    assert (K : forall opts dd rr, bash_grant_pre_decision cmd e (state a) (yolo_pin cfg) opts = Some (dd, rr) -> dd <> DAllow).
    { intros opts dd rr H ->. specialize (Gr opts e E). by rewrite H in Gr. }
    repeat case_match; try done; destruct (bash_grant_pre_decision _ _ _ _ _) as [[dd rr]|] eqn:B; try done;
      injection S3 as <-; by apply K in B. }
  unfold prompt_policy_answer. destruct (mc_prompt_policy cfg); try done. by intros [= <-].
Qed.

Lemma fmap_None_if {A B} (g : A -> B) (b : bool) : (if b then g <$> None else None) = (None : option B).
Proof. by destruct b. Qed.

Lemma before_classifier_ask a f : yolo_mode a = false -> auto_mode a = false ->
  before_classifier cfg a f = or_else (policy_deny f) (session_grant cfg a f).
Proof.
  intros Y M. unfold before_classifier, yolo_allow, auto_policy_allow. rewrite Y, M. cbn [andb then_some or_else].
  by destruct (policy_deny f), (session_grant cfg a f).
Qed.

(** C4: a command the user has refused for good stays refused.  Outside the
    modes in which the user is not asked, a script that a remembered denial
    matches is never allowed without a prompt, also not by an allow rule, a
    grant, a safe list or a sandbox; and unless something forces a prompt, it
    is rejected outright. *)
Theorem remembered_denial_holds a r w d cmd e : rq_access r = Bash cmd -> yolo_mode a = false -> auto_mode a = false ->
  mc_prompt_policy cfg <> PromptAllow ->
  let a' := (refresh w (rq_access r) a d).1 in
  evaluate_request cfg r w (state a') = Some (Some e) -> rejected (state a') cmd = true ->
  let f := facts_of grok_home cfg a' r (Some e) in
  ~ silent (handle a r w d) /\
  (policy_deny f = None -> pre_classifier_forced_prompt f = false -> protection f = None -> gone_at_dequeue w = false ->
   exists reason, h_reply (handle a r w d) = Some (DReject reason) /\ h_prompted (handle a r w d) = false).
Proof.
  intros A Y M Pp. cbv zeta. intros E Rj. destruct (refresh_keeps w (rq_access r) a d) as (Y'&M'&_).
  set (a' := (refresh w (rq_access r) a d).1) in *. set (f := facts_of grok_home cfg a' r (Some e)).
  assert (Gr : forall opts, exists rs, bash_grant_pre_decision cmd e (state a') (yolo_pin cfg) opts = Some (DReject rs, SESSION_DENY)).
  { intros opts. eapply rejected_grant; [exact Rj|]. by eapply evaluate_request_rejected. }
  destruct (Gr PRE_CLASSIFIER) as [rs Hr].
  assert (B : before_classifier cfg a' f = or_else (policy_deny f)
    (then_some (negb (pre_classifier_forced_prompt f) && negb (is_some (protection f))) (MkAnswer (DReject rs) true SESSION_DENY))).
  { rewrite before_classifier_ask by congruence. f_equal. unfold session_grant. change (access_of f) with (rq_access r).
    rewrite A. cbn [session_grant_pre_decision evaluation facts_of f mbind option_bind]. rewrite Hr. by destruct (_ && _). }
  split.
  - intros [Re Pr]. destruct (handle_inv a r w d) as [[N _]|(e'&E'&[(an&R&Re'&_)|(tr&_&_&P&_)])]; [congruence| |congruence].
    fold a' in E', R. assert (e' = Some e) as -> by congruence. fold f in R. rewrite Re' in Re. injection Re as D.
    unfold decide_request in R. rewrite B in R. destruct (policy_deny f) as [an'|] eqn:Pd; cbn [or_else] in R.
    { unfold policy_deny in Pd. cbn in R. repeat case_match; simplify_eq/=. }
    destruct (_ && _) eqn:H; cbn [then_some] in R; [by injection R as <-|]. cbn [route] in R. unfold auto_stage in R. rewrite M', M in R. cbn in R.
    destruct (after_classifier cfg a' w f false None) as [an'|] eqn:S; [|by destruct (gone_before_prompt w)].
    injection R as ->. revert D. eapply (forced_after_classifier a' w f cmd); [|exact A| |done..|exact S].
    + by eapply not_clear_forced.
    + intros opts e' [= <-]. destruct (Gr opts) as [? ->]. done.
  - intros Pd Fp Pn Gq. unfold handle_request. rewrite Gq. destruct (refresh w (rq_access r) a d) as [a0 d0] eqn:Rf.
    change a0 with a'. rewrite E. fold f. unfold decide_request. rewrite B, Pd, Fp, Pn. cbn. by exists rs.
Qed.

(** *** Two corners *)

(** An ask rule on web searches is never heard: outside always-approve mode the
    search is answered as a safe command although the policy asks. *)
Theorem ask_rule_on_web_search_ignored a r w d query :
  rq_access r = WebSearch query -> hook_ask r = None -> yolo_mode a = false -> auto_mode a = false ->
  gone_at_dequeue w = false ->
  policy_decision (preflight_evaluate (compiled_policy cfg) (rq_access r) (request_cwd cfg r) false) = Some DAsk ->
  silent (handle a r w d) /\ ev_decision_reason (h_event (handle a r w d)) = Some SAFE_COMMAND.
Proof.
  intros A H Y M Gq P. unfold handle_request, refresh, evaluate_request. rewrite Gq, A. cbn [reads_grants].
  unfold decide_request. rewrite before_classifier_ask by done.
  unfold policy_deny, facts_of. cbn [preflight]. rewrite (policy_decision_mode _ _ _ (auto_mode a) false), P. cbn [or_else].
  unfold session_grant. cbn [access_of]. rewrite A in *. cbn [session_grant_pre_decision]. rewrite fmap_None_if.
  unfold auto_stage. rewrite M. cbn [andb auto_end auto_denials auto_classification]. unfold after_classifier, sandbox_allow.
  cbn [access_of is_bash andb then_some or_else].
  unfold policy_answer. cbn [preflight]. rewrite P. cbn [or_else].
  unfold grant_answer, pre_decision. cbn [access_of]. unfold blocked_allow. cbn [is_allow hook_forced_prompt andb orb]. rewrite H.
  cbn. unfold emit_event, silent. rewrite A. cbn. done.
Qed.

(** *** What a request can grant *)

(** [s'] grants and forbids what [s] does, and beyond it only what concerns the
    access. *)
Record Concerns access (s s' : PermissionState) : Prop := {
  co_scalars : edit_policy s' = edit_policy s /\ allow_bash_execute s' = allow_bash_execute s;
  co_commands : forall x, x ∈ allowed_bash_commands s' -> x ∈ allowed_bash_commands s \/
    exists cmd, access = Bash cmd /\ (x = cmd \/ x ∈ bash_grant_segments cmd \/ exists label, x ∈ stored_keys cmd label);
  co_globs : forall x, x ∈ allowed_bash_globs s' -> x ∈ allowed_bash_globs s \/
    exists cmd, access = Bash cmd /\ bash_glob_covers_script cmd x = true;
  co_domains : forall x, x ∈ allowed_web_fetch_domains s' -> x ∈ allowed_web_fetch_domains s \/
    exists url host, access = WebFetch url /\ url_parse_host url = Some (Some host) /\ x = normalize_domain host;
  co_tools : forall x, x ∈ allowed_mcp_tools s' -> x ∈ allowed_mcp_tools s \/ exists input, access = MCPTool x input;
  co_servers : forall x, x ∈ allowed_mcp_servers s' -> x ∈ allowed_mcp_servers s \/
    exists name input tool, access = MCPTool name input /\ parse_mcp_qualified_name name = Some (x, tool) }.

Lemma concerns_refl access s : Concerns access s s.
Proof. split; auto. Qed.

(** The fields of a state after an update. *)
Ltac fields :=
  lazy beta iota delta [with_bash_commands add_bash_deny add_bash_glob add_domain add_mcp_tool add_mcp_server add_mcp_deny
    add_domain_deny set_mcp_servers edit_policy allow_bash_execute allowed_bash_commands allowed_bash_globs
    allowed_web_fetch_domains allowed_mcp_tools allowed_mcp_servers].

Ltac concerns := split; fields; [done|..]; intros x; rewrite ?elem_of_union, ?elem_of_singleton; try tauto.

Lemma bash_concerns s ed cmd o : Concerns (Bash cmd) s (rx_state (bash_reaction s ed cmd o)).
Proof.
  destruct o; cbn [bash_reaction rx_state]; try apply concerns_refl.
  - concerns. rewrite elem_of_list_to_set. intros [H|[->|H]]; [right; exists cmd; by eauto|right; exists cmd; by eauto|by left].
  - rewrite persist_adds. concerns. intros [H|H]; [right; exists cmd; eauto|by left].
  - destruct (bash_glob_covers_script cmd pattern) eqn:E; [|apply concerns_refl]. cbn [rx_state]. concerns.
    intros [->|H]; [right; by exists cmd|by left].
  - concerns.
Qed.

Lemma other_concerns s ed access o : Concerns access s (rx_state (other_reaction s ed access o)).
Proof.
  unfold other_reaction. set (o' := match access with AgentMessage _ => agent_message_outcome o | _ => o end).
  destruct o'; cbn [rx_state]; try apply concerns_refl;
    destruct access; cbn [rx_state]; try apply concerns_refl.
  - concerns. intros [->|H]; eauto.
  - destruct (url_parse_host url) as [[host|]|] eqn:E; cbn [rx_state]; try apply concerns_refl. concerns.
    intros [->|H]; [right; by exists url, host|by left].
  - concerns. intros [->|H]; eauto.
  - unfold mcp_server_reaction. destruct (parse_mcp_qualified_name name) as [[c tl]|] eqn:E; [destruct (c =s? server)|];
      concerns; intros [->|H]; eauto 10.
  - concerns.
  - destruct (web_fetch_deny_key_from_url url); cbn [rx_state]; [concerns|apply concerns_refl].
Qed.

(** An answer that does not allow leaves what is allowed as it was. *)
Definition same_allowed (s s' : PermissionState) : Prop :=
  allowed_bash_commands s' = allowed_bash_commands s /\ allowed_bash_globs s' = allowed_bash_globs s /\
  allowed_web_fetch_domains s' = allowed_web_fetch_domains s /\ allowed_mcp_tools s' = allowed_mcp_tools s /\
  allowed_mcp_servers s' = allowed_mcp_servers s.

Lemma refused_same_allowed a w access : user_allows (prompt_outcome_of w) = false ->
  same_allowed (state a) (rx_state (reaction a w access)).
Proof.
  unfold reaction. destruct (prompt_outcome_of w) eqn:O; try done; intros _; destruct access; try done.
  cbn [other_reaction]. by destruct (web_fetch_deny_key_from_url url).
Qed.

(** The grants the request is decided on. *)
Definition grants_before a r w (d : Disk) : PermissionState :=
  if gone_at_dequeue w then state a else state (refresh w (rq_access r) a d).1.

Lemma handle_state a r w d : state (h_actor (handle a r w d)) =
  if h_prompted (handle a r w d) then rx_state (reaction (refresh w (rq_access r) a d).1 w (rq_access r))
  else grants_before a r w d.
Proof.
  unfold handle_request, grants_before. destruct (gone_at_dequeue w); [done|].
  destruct (refresh w (rq_access r) a d) as [a' d']. cbn [fst].
  destruct (evaluate_request cfg r w (state a')) as [e|]; [|done].
  destruct (decide a' w _) as [[[dec auto reason]| |trigger] dn cl]; done.
Qed.

Lemma prompted_grants a r w d : h_prompted (handle a r w d) = true ->
  grants_before a r w d = state (refresh w (rq_access r) a d).1.
Proof. unfold handle_request, grants_before. by destruct (gone_at_dequeue w). Qed.

Lemma handle_concerns a r w d : Concerns (rq_access r) (grants_before a r w d) (state (h_actor (handle a r w d))).
Proof.
  rewrite handle_state. destruct (h_prompted (handle a r w d)) eqn:P; [|apply concerns_refl].
  rewrite prompted_grants by done. unfold reaction. destruct (rq_access r); try apply other_concerns. apply bash_concerns.
Qed.

End promises.

(** ** The loop *)

Section loop.
Context `{T : TreeSitter} `{G : GlobCrate} `{U : UrlCrate} `{L : Unicode} `{F : FileSystem} `{J : SerdeJson} `{W : UrlPath}.
Context `{Gt : Git2} `{X : ShellExpand} `{Tm : Toml} (PROMPT : string) (grok_home : option string) (cfg : ManagerConfig).
Implicit Types (a : Actor Value) (r : PermissionRequest Value) (w : Surroundings).

(** One round; [None] ends the task. *)
Definition actor_command w (cmd : PermissionCommand Value) a (d : Disk) : option (Actor Value * Disk) :=
  match cmd with
  | Request r => let h := handle_request grok_home cfg a r w d in Some (h_actor h, h_disk h)
  | SetYoloMode enabled => Some (set_yolo_command cfg enabled a, d)
  | SetAutoMode enabled => Some (set_auto_command PROMPT enabled a, d)
  | SetClassifier clf => Some (with_modes a (yolo_mode a) (auto_mode a) (pin_refusal_logged a) clf, d)
  | SetClassifierTranscript turns => Some (with_context a turns (ac_instructions a), d)
  | SetProjectInstructions instructions => Some (with_context a (classifier_turns a) instructions, d)
  | ResetState => Some (reset_command (may_write w) (timestamp w) cfg d a)
  | Shutdown => None
  end.

(** The states of a task: other sessions may change the files at any time. *)
Inductive reachable : Actor Value -> gmap string File -> Prop :=
| reach_spawn mw now d a d' : spawn_actor PROMPT mw now cfg d = (a, d') -> reachable a d'
| reach_command a d w cmd a' d' : reachable a d -> actor_command w cmd a d = Some (a', d') -> reachable a' d'
| reach_elsewhere a d d' : reachable a d -> reachable a d'.

Record ActorInv a : Prop := {
  inv_pin : is_some (yolo_pin cfg) = true -> yolo_mode a = false;
  inv_exclusive : yolo_mode a && auto_mode a = false;
  inv_denials : (consecutive (denials a) <= AUTO_DENY_CONSECUTIVE_LIMIT /\ dn_total (denials a) <= AUTO_DENY_TOTAL_LIMIT /\
    consecutive (denials a) <= dn_total (denials a))%nat;
  inv_recorded : (length (recorded_permission_decisions a) <= MAX_RECORDED_PERMISSION_DECISIONS)%nat;
  inv_edits : edit_policy (state a) <> EditAllow }.

Definition bounded (dn : DenialCounters) : Prop :=
  (consecutive dn <= AUTO_DENY_CONSECUTIVE_LIMIT /\ dn_total dn <= AUTO_DENY_TOTAL_LIMIT /\ consecutive dn <= dn_total dn)%nat.

Lemma decide_bounded a w f : bounded (denials a) -> bounded (dc_denials (decide_request cfg a w f)).
Proof.
  intros B. unfold decide_request. destruct (before_classifier cfg a f); [done|]. cbn [dc_denials].
  unfold auto_stage. destruct (_ && _); [|done]. destruct (auto_mode_fast_path _ _ _); [by destruct (hook_forced_prompt f)|done|].
  unfold classify_stage. destruct (classify_route _ _ _ _) as [o| |]; [|done..]. unfold on_verdict.
  destruct (oc_verdict o); [unfold bounded in *; cbn; lia| |done].
  destruct (can_present_permission_prompt _); [done|]. destruct (_ && _) eqn:E; [|done].
  apply andb_true_iff in E as [E1%Nat.ltb_lt E2%Nat.ltb_lt]. unfold bounded in *. cbn. lia.
Qed.

Lemma record_bounded access rx l : (length l <= MAX_RECORDED_PERMISSION_DECISIONS)%nat ->
  (length (record_decision access rx l) <= MAX_RECORDED_PERMISSION_DECISIONS)%nat.
Proof.
  unfold record_decision. destruct (prompted_decision_approved _ _); [|done]. rewrite length_drop, length_app. cbn [length].
  lia.
Qed.

Lemma handle_modes a r w d : let a' := h_actor (handle_request grok_home cfg a r w d) in
  yolo_mode a' = yolo_mode a /\ auto_mode a' = auto_mode a.
Proof.
  cbv zeta. unfold handle_request. destruct (gone_at_dequeue w); [done|].
  destruct (refresh_keeps w (rq_access r) a d) as (Y&M&_). destruct (refresh w (rq_access r) a d) as [a' d']. cbn [fst] in *.
  destruct (evaluate_request cfg r w (state a')) as [e|]; [|done].
  by destruct (decide_request cfg a' w _) as [[[dec auto reason]| |trigger] dn cl].
Qed.

(** What handling a request does to the history. *)
Lemma handle_history a r w d : let a' := h_actor (handle_request grok_home cfg a r w d) in
  bounded (denials a) -> (length (recorded_permission_decisions a) <= MAX_RECORDED_PERMISSION_DECISIONS)%nat ->
  bounded (denials a') /\ (length (recorded_permission_decisions a') <= MAX_RECORDED_PERMISSION_DECISIONS)%nat.
Proof.
  cbv zeta. intros Dn Rc. unfold handle_request. destruct (gone_at_dequeue w); [done|].
  destruct (refresh_keeps w (rq_access r) a d) as (_&_&_&D&Rd&_).
  destruct (refresh w (rq_access r) a d) as [a' d']. cbn [fst] in *.
  destruct (evaluate_request cfg r w (state a')) as [e|].
  2: { unfold requester_gone. cbn. by rewrite D, Rd. }
  pose proof (decide_bounded a' w (facts_of grok_home cfg a' r e)) as B. rewrite D in B. specialize (B Dn).
  destruct (decide_request cfg a' w _) as [[[dec auto reason]| |trigger] dn cl]; cbn [dc_denials] in B;
    [cbn; by rewrite Rd..|]. unfold prompt_user. cbn [h_actor with_history with_state denials recorded_permission_decisions].
  split; [|apply record_bounded; by rewrite Rd]. destruct (_ && _); [unfold bounded; cbn; lia|exact B].
Qed.

Lemma handle_edit_policy a r w d :
  edit_policy (state (h_actor (handle_request grok_home cfg a r w d))) = edit_policy (state a).
Proof.
  destruct (handle_concerns grok_home cfg a r w d) as [[-> _] _ _ _ _ _]. unfold grants_before.
  destruct (gone_at_dequeue w); [done|]. apply refresh_keeps.
Qed.

Lemma clamp_pinned b pin : is_some pin = true -> clamp_yolo b pin = false.
Proof. unfold clamp_yolo. intros ->. apply andb_false_r. Qed.

Lemma spawn_inv mw now d a d' : spawn_actor PROMPT mw now cfg d = (a, d') -> ActorInv a.
Proof.
  unfold spawn_actor. destruct (resolve_and_load _ _ _ _ _) as [[st s] d0].
  assert (K : forall s, edit_policy s <> EditAllow ->
    ActorInv (MkActor st s (initial_yolo cfg) (seed_auto cfg) (Some (default_auto_mode_classifier PROMPT)) (MkDenials 0 0)
      [] [] None false false)).
  { intros s' H. split; cbn; [by apply clamp_pinned| |lia|lia|exact H]. unfold seed_auto. by destruct (initial_yolo cfg). }
  destruct (edit_policy s) eqn:E; intros [= <- <-]; apply K; cbn; congruence.
Qed.

(** C6: the invariant of the task.  In every state it can reach: always-approve
    is off when it is locked off, and never on together with auto mode; the
    counters of denials stay within their limits; at most twelve decisions are
    remembered for the classifier; and a stored permission to edit everything
    never takes effect. *)
Theorem actor_invariant a d : reachable a d -> ActorInv a.
Proof.
  induction 1 as [mw now d a d' S|a d w cmd a' d' _ IH S|]; [by eapply spawn_inv| |done].
  destruct cmd; cbn [actor_command] in S; [|injection S as <- <-..|done].
  - injection S as <- <-. destruct (handle_modes a r w d) as [Y M]. pose proof (handle_edit_policy a r w d) as K.
    destruct IH as [P E B0 Rc0 Ed]. destruct (handle_history a r w d B0 Rc0) as [B Rc]. split; [by rewrite Y|by rewrite Y, M|exact B|exact Rc|by rewrite K].
  - destruct IH as [P E B Rc Ed]. split; try done; cbn; [by apply clamp_pinned|].
    by destruct (clamp_yolo enabled (yolo_pin cfg)).
  - destruct IH as [P E B Rc Ed]. unfold set_auto_command. destruct enabled; split; try done; cbn. apply andb_false_r.
  - destruct IH as [P E B Rc Ed]. by split.
  - destruct IH as [P E B Rc Ed]. by split.
  - destruct IH as [P E B Rc Ed]. by split.
  - destruct IH as [P E B Rc Ed]. split; try done.
Qed.
End loop.

(** ** Concrete runs *)

Module ActorSample.
#[local] Existing Instances Sample.one_command Sample.prefix_glob Sample.no_urls Sample.ascii_lower Tree.serde
  FileSample.plain_files TomlSample.toml.
#[local] Instance root_path : UrlPath := fun _ => "/".
#[local] Instance no_tilde : ShellExpand := fun s => s.
#[local] Instance no_repository : Git2 := {|
  Repository := unit; parses_as_bool := fun _ => true; discover := fun _ => Err true; repo_path := fun _ => "";
  commondir := fun _ => ""; config_entries := fun _ => Some []; open_regular := fun _ => Ok true |}.

Definition config (pc : option PermissionConfig) : ManagerConfig :=
  MkManager (MkStoreDirs "/s" None) "/w" GrokPager pc [] false None true None.
Definition calm (o : PromptOutcome) : Surroundings :=
  MkSurroundings false false false false false false true false 0 0 0 0 1 o ∅ (fun _ => true).
Definition fresh (s : PermissionState) (auto : bool) (clf : option (Classifier Value)) : Actor Value :=
  MkActor (MkCachedStore (MkStoreDirs "/s" None) None None) s false auto clf (MkDenials 0 0) [] [] None false false.
Definition ask (access : AccessKind Value) (hook : option HookAsk) : PermissionRequest Value :=
  MkRequest access "call" None None None None hook.
Definition hook : HookAsk := MkHookAsk "guard" None.

Lemma hook_ask_is_asked_witness :
  h_prompted (handle_request None (config None) (fresh PermissionState_default false None) (ask (Bash "ls") (Some hook))
    (calm AllowOnce) ∅) = true.
Proof.
  apply (hook_ask_is_asked None (config None) (fresh PermissionState_default false None) (ask (Bash "ls") (Some hook))
    (calm AllowOnce) ∅ hook); vm_compute; reflexivity.
Defined.

Lemma deny_rule_is_final_witness :
  exists reason, h_reply (handle_request None (config (Some Sample.sample)) (fresh PermissionState_default true None)
    (ask (Bash "nice timeout 5 rm x") None) (calm AllowAlways) ∅) = Some (DPolicyDeny reason).
Proof.
  apply (deny_rule_is_final None (config (Some Sample.sample)) (fresh PermissionState_default true None)
    (ask (Bash "nice timeout 5 rm x") None) (calm AllowAlways) ∅ Sample.sample "nice timeout 5 rm x" Sample.deny_rm);
    try reflexivity.
  - right. left.
  - left. exists "rm x". split; [|vm_compute; reflexivity].
    apply (exposed_peeled MAX_INLINE_SHELL_DEPTH "nice timeout 5 rm x"
      [MkPlainCommand ["nice"; "timeout"; "5"; "rm"; "x"] 0 19]
      (MkPlainCommand ["nice"; "timeout"; "5"; "rm"; "x"] 0 19)); [vm_compute; reflexivity|left].
Defined.

Lemma remembered_denial_holds_witness :
  exists reason, h_reply (handle_request None (config None) (fresh ManagerSample.session false None)
    (ask (Bash "nice curl x") None) (calm AllowOnce) ∅) = Some (DReject reason).
Proof.
  destruct (remembered_denial_holds None (config None) (fresh ManagerSample.session false None)
    (ask (Bash "nice curl x") None) (calm AllowOnce) ∅ "nice curl x"
    (evaluate_bash "nice curl x" ManagerSample.session true)) as [_ H]; [reflexivity..|done|vm_compute; reflexivity| |].
  - vm_compute. reflexivity.
  - destruct H as (reason&R&_); [vm_compute; reflexivity..|]. by exists reason.
Defined.

Definition ask_searches : PermissionConfig := PermissionConfig_new [MkRule RAsk FWebSearch None Glob].

Example ask_rule_on_web_search_sample :
  silent (handle_request None (config (Some ask_searches)) (fresh PermissionState_default false None)
    (ask (WebSearch "x") None) (calm RejectOnce) ∅).
Proof.
  apply (ask_rule_on_web_search_ignored None (config (Some ask_searches)) (fresh PermissionState_default false None)
    (ask (WebSearch "x") None) (calm RejectOnce) ∅ "x"); vm_compute; reflexivity.
Defined.

Definition agrees : Classifier Value := fun _ _ _ _ _ => outcome_llm VAllow None.


Lemma actor_invariant_witness :
  ActorInv (config None) (set_yolo_command (config None) true
    (spawn_actor "p" (fun _ => true) 1 (config None) ∅).1).
Proof.
  apply (actor_invariant "p" None (config None) _ (spawn_actor "p" (fun _ => true) 1 (config None) ∅).2).
  eapply (reach_command "p" None (config None) _ _ (calm AllowOnce) (SetYoloMode true)); [|reflexivity].
  eapply (reach_spawn "p" None (config None) (fun _ => true) 1%Z ∅). apply surjective_pairing.
Defined.

(** In auto mode, a script that cannot be analysed is handed to the classifier
    when the policy restricts commands, and the remembered denials are not
    looked at: what the user has refused for good runs without a prompt when
    the classifier agrees. *)
Theorem deferred_denial_reaches_classifier :
  let T := (fun _ => None) : TreeSitter in
  let a := fresh ManagerSample.session true (Some agrees) in
  let run pc := @handle_request T _ _ _ _ _ _ _ _ _ None (config pc) a (ask (Bash "curl x") None) (calm RejectOnce) ∅ in
  @rejected T (state a) "curl x" = true /\
  h_reply (run None) = Some (DReject (previously_rejected "curl")) /\
  silent (run (Some Sample.sample)).
Proof. vm_compute. done. Qed.
End ActorSample.
