(* ===== verification/PermHandle.v ===== *)
(** * [xai-grok-workspace], [permission/manager/mod.rs]: the handle

    Clones of [PermissionHandle] are used by several tasks at once.  A setter
    stores into the shared atomics and then sends a command to the actor, which
    stores into the same atomics when it gets to the command.  Here every store
    and every send is a step of its own, and the steps of the callers and of the
    actor interleave freely. *)

From stdpp Require Import gmap sets.
From S2P Require Import Prelude RustStr Json Paths PermRules BashCommand PermPolicy ShellAccess PermGate ExecRisk.
From S2P Require Import AutoMode PermState WebDomains PermManager PermActor.

(** ** The handle *)

Inductive Atom : Type := YoloState | AutoState | SideQueryWired.
#[export] Instance Atom_eq_dec : EqDecision Atom.
Proof. solve_decision. Defined.

Section handle.
Context {V : Type}.

(** What a call does to what is shared, in order. *)
Inductive Action : Type := Store (x : Atom) (v : bool) | Send (c : PermissionCommand V).

Definition set_yolo_mode (pin : option string) (enabled : bool) : list Action :=
  let clamped := clamp_yolo enabled pin in
  Store YoloState clamped :: (if clamped then [Store AutoState false] else []) ++ [Send (SetYoloMode enabled)].

Definition set_auto_mode (enabled : bool) : list Action :=
  Store AutoState enabled :: (if enabled then [Store YoloState false] else []) ++ [Send (SetAutoMode enabled)].

Definition set_classifier (c : option (Classifier V)) : list Action := [Store SideQueryWired false; Send (SetClassifier c)].
Definition set_classifier_with_side_query (c : Classifier V) (has_side_query : bool) : list Action :=
  [Store SideQueryWired has_side_query; Send (SetClassifier (Some c))].
Definition set_llm_side_query_wired (wired : bool) : list Action := [Store SideQueryWired wired].
Definition set_classifier_transcript (turns : list ClassifierTurn) : list Action := [Send (SetClassifierTranscript turns)].
Definition set_project_instructions (instructions : option string) : list Action := [Send (SetProjectInstructions instructions)].
Definition reset_state : list Action := [Send ResetState].

Inductive PermissionHandle : Type := HandleActor | HandleAllowAll.

(** [request]: whether the command was sent, and the answer if one came. *)
Definition handle_resolution (h : PermissionHandle) (sent : bool) (reply : option PermDecision) : PermDecision :=
  match h with
  | HandleAllowAll => DAllow
  | HandleActor =>
      if sent then unwrap_or (DReject "failed to receive permission decision") reply
      else DReject "permission manager unavailable"
  end.

(** The programs of the calls. *)
Inductive Program (pin : option string) : list Action -> Prop :=
| prog_yolo b : Program pin (set_yolo_mode pin b)
| prog_auto b : Program pin (set_auto_mode b)
| prog_classifier c : Program pin (set_classifier c)
| prog_side c b : Program pin (set_classifier_with_side_query c b)
| prog_wired b : Program pin (set_llm_side_query_wired b)
| prog_transcript l : Program pin (set_classifier_transcript l)
| prog_instructions i : Program pin (set_project_instructions i)
| prog_reset : Program pin reset_state
| prog_request r : Program pin [Send (Request r)].

(** The stores of the actor for a command, in order. *)
Definition actor_stores (pin : option string) (c : PermissionCommand V) : list (Atom * bool) :=
  match c with
  | SetYoloMode enabled =>
      let clamped := clamp_yolo enabled pin in (YoloState, clamped) :: (if clamped then [(AutoState, false)] else [])
  | SetAutoMode enabled => (AutoState, enabled) :: (if enabled then [(YoloState, false)] else [])
  | _ => []
  end.
End handle.
Arguments Action : clear implicits.

(** ** Callers and actor together *)

Section world.
Context `{T : TreeSitter} `{G : GlobCrate} `{U : UrlCrate} `{L : Unicode} `{F : FileSystem} `{J : SerdeJson} `{W : UrlPath}.
Context `{Gt : Git2} `{X : ShellExpand} `{Tm : Toml} (PROMPT : string) (grok_home : option string) (cfg : ManagerConfig).

Record World : Type := MkWorld {
  atom : Atom -> bool;                      (** the shared atomics *)
  calls : list (list (Action Value));       (** what is left of each call that is under way *)
  queue : list (PermissionCommand Value);   (** the channel *)
  actor : Actor Value; files : gmap string File;
  stores : list (Atom * bool) }.            (** what is left of the command the actor is at *)

Definition set_atom (x : Atom) (v : bool) (m : Atom -> bool) : Atom -> bool := fun y => if decide (x = y) then v else m y.

Inductive wstep : World -> World -> Prop :=
| ws_call w p : Program (yolo_pin cfg) p ->
    wstep w (MkWorld (atom w) (p :: calls w) (queue w) (actor w) (files w) (stores w))
| ws_store w pre x v rest post : calls w = pre ++ (Store x v :: rest) :: post ->
    wstep w (MkWorld (set_atom x v (atom w)) (pre ++ rest :: post) (queue w) (actor w) (files w) (stores w))
| ws_send w pre c rest post : calls w = pre ++ (Send c :: rest) :: post ->
    wstep w (MkWorld (atom w) (pre ++ rest :: post) (queue w ++ [c]) (actor w) (files w) (stores w))
| ws_return w pre post : calls w = pre ++ [] :: post ->
    wstep w (MkWorld (atom w) (pre ++ post) (queue w) (actor w) (files w) (stores w))
| ws_receive w c q s a d : queue w = c :: q -> stores w = [] ->
    actor_command PROMPT grok_home cfg s c (actor w) (files w) = Some (a, d) ->
    wstep w (MkWorld (atom w) (calls w) q a d (actor_stores (yolo_pin cfg) c))
| ws_actor_store w x v l : stores w = (x, v) :: l ->
    wstep w (MkWorld (set_atom x v (atom w)) (calls w) (queue w) (actor w) (files w) l)
| ws_files w d : wstep w (MkWorld (atom w) (calls w) (queue w) (actor w) d (stores w)).

(** The state [spawn_permission_manager_with_pin] starts in. *)
Definition initial_atoms (x : Atom) : bool :=
  match x with YoloState => initial_yolo cfg | AutoState => seed_auto cfg | SideQueryWired => false end.

Inductive wreach : World -> Prop :=
| wr_start mw now d a d' : spawn_actor PROMPT mw now cfg d = (a, d') -> wreach (MkWorld initial_atoms [] [] a d' [])
| wr_step w w' : wreach w -> wstep w w' -> wreach w'.

(** ** The atomics tell the modes *)

(** The variable of the actor that an atomic stands for. *)
Definition mode (a : Actor Value) (x : Atom) : option bool :=
  match x with YoloState => Some (yolo_mode a) | AutoState => Some (auto_mode a) | SideQueryWired => None end.

Definition writes (c : PermissionCommand Value) (x : Atom) : Prop := x ∈ (actor_stores (yolo_pin cfg) c).*1.

(** A call whose stores are all repeated by the actor. *)
Fixpoint repeated (p : list (Action Value)) : Prop :=
  match p with
  | [] => True
  | Store x _ :: rest => (x <> SideQueryWired -> exists c, Send c ∈ rest /\ writes c x) /\ repeated rest
  | Send _ :: rest => repeated rest
  end.

Definition due (w : World) (x : Atom) : Prop :=
  (exists p c, p ∈ calls w /\ Send c ∈ p /\ writes c x) \/ (exists c, c ∈ queue w /\ writes c x) \/ x ∈ (stores w).*1.

Record WorldInv (w : World) : Prop := {
  wi_repeated : Forall repeated (calls w);
  wi_stores : Forall (fun '(x, v) => mode (actor w) x = Some v) (stores w);
  wi_due : forall x v, mode (actor w) x = Some v -> atom w x = v \/ due w x }.

Lemma program_repeated p : Program (yolo_pin cfg) p -> repeated p.
Proof.
  assert (K : forall l (c : PermissionCommand Value), Send c ∈ (l ++ [Send c])).
  { intros l c. apply elem_of_app. right. by left. }
  destruct 1 as [b|b|c|c b|b|l|i| |r]; cbn [repeated set_yolo_mode set_auto_mode]; try done.
  - split.
    + intros _. exists (SetYoloMode b). split; [apply K|]. unfold writes. cbn. by left.
    + destruct (clamp_yolo b (yolo_pin cfg)) eqn:C; cbn [app repeated]; [|done]. split; [|done]. intros _.
      exists (SetYoloMode b). split; [by left|]. unfold writes, actor_stores. rewrite C. right. by left.
  - split.
    + intros _. exists (SetAutoMode b). split; [apply K|]. unfold writes. cbn. by left.
    + destruct b; cbn; [|done]. split; [|done]. intros _. exists (SetAutoMode true). split; [by left|].
      unfold writes. cbn. right. by left.
Qed.

(** The actor's variables change only as it stores. *)
Lemma command_modes s c a d a' d' x v : actor_command PROMPT grok_home cfg s c a d = Some (a', d') -> mode a' x = Some v ->
  (mode a x = Some v \/ x ∈ (actor_stores (yolo_pin cfg) c).*1) /\
  (forall u, (x, u) ∈ actor_stores (yolo_pin cfg) c -> u = v).
Proof.
  destruct c as [r|b|b|clf|l|i| |]; cbn [actor_command actor_stores]; [|intros [= <- <-]..|done].
  - intros [= <- <-]. destruct (handle_modes grok_home cfg a r s d) as [Y M]. cbv zeta in Y, M.
    split; [left|by intros u ?%elem_of_nil]. destruct x; cbn in *; congruence.
  - unfold set_yolo_command. destruct (clamp_yolo b (yolo_pin cfg)), x; cbn; intros [= <-];
      (split; [set_solver|intros u; rewrite ?elem_of_cons, ?elem_of_nil; naive_solver]).
  - unfold set_auto_command. destruct b, x; cbn; intros [= <-];
      (split; [set_solver|intros u; rewrite ?elem_of_cons, ?elem_of_nil; naive_solver]).
  - intros H. split; [by left|by intros u ?%elem_of_nil].
  - intros H. split; [by left|by intros u ?%elem_of_nil].
  - intros H. split; [by left|by intros u ?%elem_of_nil].
  - intros H. split; [by left|by intros u ?%elem_of_nil].
Qed.

Lemma set_atom_eq x v m : set_atom x v m x = v.
Proof. unfold set_atom. by rewrite decide_True. Qed.
Lemma set_atom_ne x y v m : x <> y -> set_atom x v m y = m y.
Proof. intros H. unfold set_atom. by rewrite decide_False. Qed.

(** What a step of a call sends. *)
Definition sent (act : Action Value) : list (PermissionCommand Value) := match act with Send c => [c] | Store _ _ => [] end.

Lemma due_mono w w' x : due w x -> (forall c, c ∈ queue w -> c ∈ queue w') -> stores w' = stores w ->
  (forall p c, p ∈ calls w -> Send c ∈ p -> (exists p', p' ∈ calls w' /\ Send c ∈ p') \/ c ∈ queue w') -> due w' x.
Proof.
  intros [(p&c&Hp&Hs&Hw)|[(c&Hc&Hw)|H]] Q St K.
  - destruct (K p c Hp Hs) as [(p'&Hp'&Hs')|Hq]; [left; eauto|right; left; eauto].
  - right; left. exists c. eauto.
  - right; right. by rewrite St.
Qed.

(** A step of a call: what is due stays due. *)
Lemma due_caller w pre act rest post m x : calls w = pre ++ (act :: rest) :: post -> due w x ->
  due (MkWorld m (pre ++ rest :: post) (queue w ++ sent act) (actor w) (files w) (stores w)) x.
Proof.
  intros E K. eapply due_mono; [exact K| |done|]; cbn [queue calls]; [intros c ?; apply elem_of_app; by left|].
  intros p c Hp Hs. rewrite E, elem_of_app, elem_of_cons in Hp.
  assert (M : forall p', p' ∈ pre \/ p' = rest \/ p' ∈ post -> p' ∈ pre ++ rest :: post)
    by (intros p'; by rewrite elem_of_app, elem_of_cons).
  destruct Hp as [Hp|[->|Hp]]; [left; exists p; auto| |left; exists p; auto].
  apply elem_of_cons in Hs as [<-|Hs]; [right; apply elem_of_app; right; by left|left; exists rest; auto].
Qed.

Lemma repeated_caller (w : World) pre act rest post : calls w = pre ++ (act :: rest) :: post -> Forall repeated (calls w) ->
  Forall repeated (pre ++ rest :: post) /\
  match act with Store x _ => x <> SideQueryWired -> exists c, Send c ∈ rest /\ writes c x | Send _ => True end.
Proof.
  intros -> [R1 [R2 R3]%Forall_cons_1]%Forall_app. split; [|by destruct act; [apply R2|]].
  apply Forall_app. split; [done|]. constructor; [|done]. by destruct act; [apply R2|].
Qed.

Lemma caller_inv w pre act rest post : WorldInv w -> calls w = pre ++ (act :: rest) :: post ->
  WorldInv (MkWorld (match act with Store x v => set_atom x v (atom w) | Send _ => atom w end) (pre ++ rest :: post)
    (queue w ++ sent act) (actor w) (files w) (stores w)).
Proof.
  intros [R S D] E. destruct (repeated_caller w pre act rest post E R) as [R' A]. split; [exact R'|exact S|].
  intros y u H. cbn [atom]. pose proof (due_caller w pre act rest post) as K.
  destruct act as [x v|c]; [|destruct (D y u H); eauto]. destruct (decide (x = y)) as [->|Ne].
  - right. destruct A as (c&Hc&Hw); [by intros ->|]. left. exists rest, c. split_and!; [|done|done].
    apply elem_of_app. right. by left.
  - rewrite set_atom_ne by done. destruct (D y u H); eauto.
Qed.

Lemma receive_world_inv w c q s a d : WorldInv w -> queue w = c :: q -> stores w = [] ->
  actor_command PROMPT grok_home cfg s c (actor w) (files w) = Some (a, d) ->
  WorldInv (MkWorld (atom w) (calls w) q a d (actor_stores (yolo_pin cfg) c)).
Proof.
  intros [R S D] Q N C. split; [exact R| |]; cbn [actor stores].
  - apply list.Forall_forall. intros [x u] Hx.
    assert (M : exists v, mode a x = Some v) by (destruct x; [by eexists..|exfalso; destruct c; cbn in Hx; repeat case_match; set_solver]).
    destruct M as [v M]. destruct (command_modes _ _ _ _ _ _ x v C M) as [_ K]. by rewrite (K u Hx).
  - intros x v M. destruct (command_modes _ _ _ _ _ _ x v C M) as [[M0|K] _]; [|by right; right; right].
    destruct (D x v M0) as [|[(p&c'&Hp&Hs&Hw)|[(c'&Hc&Hw)|Hs]]]; [by left|right; left; eauto| |].
    + rewrite Q in Hc. apply elem_of_cons in Hc as [->|Hc]; [by right; right; right|right; right; left; eauto].
    + rewrite N in Hs. by apply elem_of_nil in Hs.
Qed.

Lemma wstep_inv w w' : WorldInv w -> wstep w w' -> WorldInv w'.
Proof.
  intros I. destruct 1 as [w p P|w pre x v rest post E|w pre c rest post E|w pre post E|w c q s a d Q N C|w x v l E|w d].
  - destruct I as [R S D]. split; [constructor; [by apply program_repeated|done]|done|]. intros x v H.
    destruct (D x v H) as [K|K]; [by left|right]. eapply due_mono; [exact K|done..|]. intros p' c Hp Hs. left. exists p'.
    split; [by right|done].
  - pose proof (caller_inv w pre _ rest post I E) as K. cbn [sent] in K. by rewrite app_nil_r in K.
  - apply (caller_inv w pre _ rest post I E).
  - destruct I as [R S D]. rewrite E in R. apply Forall_app in R as [R1 [_ R3]%Forall_cons_1].
    split; [by apply Forall_app|done|]. intros y u H. destruct (D y u H) as [K|K]; [by left|right].
    eapply due_mono; [exact K|done..|]. cbn [calls]. intros p c Hp Hs. left. exists p. split; [|done].
    rewrite E, elem_of_app, elem_of_cons in Hp. apply elem_of_app.
    destruct Hp as [Hp|[->|Hp]]; [by left|by apply elem_of_nil in Hs|by right].
  - by eapply receive_world_inv.
  - destruct I as [R S D]. rewrite E in S. apply Forall_cons_1 in S as [S1 S2]. split; [done|done|]. intros y u H. cbn [atom].
    destruct (decide (x = y)) as [->|Ne]; [left; rewrite set_atom_eq; cbn in H; congruence|].
    rewrite set_atom_ne by done. destruct (D y u H) as [K|[K|[K|K]]]; [by left|right; by left|right; right; by left|].
    rewrite E in K. apply elem_of_cons in K as [->|K]; [done|right; right; by right].
  - by destruct I.
Qed.

Lemma wreach_inv w : wreach w -> WorldInv w.
Proof.
  induction 1 as [mw now d a d' S|w w' _ IH St]; [|by eapply wstep_inv].
  split; [constructor|constructor|]. cbn [actor atom]. intros x v M. left. unfold spawn_actor in S.
  destruct (resolve_and_load _ _ _ _ _) as [[st s] d0]. destruct (edit_policy s); injection S as <- <-;
    destruct x; cbn in M; (done || by injection M as <-).
Qed.

(** C7: the handle tells the truth once its callers are done.  However the calls
    of several clones and the work of the actor interleave, when no call is
    under way, the channel is empty and the actor is between two commands, the
    two atomics that [is_yolo_mode] and [is_auto_mode] read are the modes the
    actor decides by. *)
Theorem quiescent_modes_agree w : wreach w -> calls w = [] -> queue w = [] -> stores w = [] ->
  atom w YoloState = yolo_mode (actor w) /\ atom w AutoState = auto_mode (actor w).
Proof.
  intros R C Q S. apply wreach_inv in R as [_ _ D].
  assert (N : forall x, ~ due w x).
  { intros x [(p&c&Hp&_)|[(c&Hc&_)|H]]; [rewrite C in Hp|rewrite Q in Hc|rewrite S in H]; by eapply elem_of_nil. }
  split; [destruct (D YoloState _ eq_refl) as [|H]|destruct (D AutoState _ eq_refl) as [|H]]; try done; by apply N in H.
Qed.

(** ** A locked mode is never shown *)

(** A call that stores no true into the first atomic. *)
Definition no_yolo (p : list (Action Value)) : Prop := forall v, Store YoloState v ∈ p -> v = false.

Record PinInv (w : World) : Prop := {
  pi_atom : atom w YoloState = false;
  pi_mode : yolo_mode (actor w) = false;
  pi_calls : Forall no_yolo (calls w);
  pi_stores : forall v, (YoloState, v) ∈ stores w -> v = false }.

Lemma program_no_yolo p : is_some (yolo_pin cfg) = true -> Program (yolo_pin cfg) p -> no_yolo p.
Proof.
  intros P. destruct 1 as [b|b|c|c b|b|l|i| |r]; intros v;
    unfold set_yolo_mode, set_auto_mode, set_classifier, set_classifier_with_side_query, set_llm_side_query_wired,
      set_classifier_transcript, set_project_instructions, reset_state; rewrite ?clamp_pinned by done;
    try destruct b; cbn [app]; rewrite ?elem_of_cons, ?elem_of_nil; intros ?; destruct_or?; by simplify_eq.
Qed.

Lemma pinned_command s c a d a' d' : is_some (yolo_pin cfg) = true -> yolo_mode a = false ->
  actor_command PROMPT grok_home cfg s c a d = Some (a', d') ->
  yolo_mode a' = false /\ forall v, (YoloState, v) ∈ actor_stores (yolo_pin cfg) c -> v = false.
Proof.
  intros P Y C. assert (K : forall v, (YoloState, v) ∈ actor_stores (yolo_pin cfg) c -> v = false).
  { intros v. destruct c as [r|b|b| | | | |]; cbn [actor_stores]; rewrite ?clamp_pinned by done; try destruct b;
      rewrite ?elem_of_cons, ?elem_of_nil; intros ?; destruct_or?; by simplify_eq. }
  split; [|exact K]. destruct (command_modes _ _ _ _ _ _ YoloState _ C eq_refl) as [[M|M] V].
  - cbn in M. congruence.
  - apply list_elem_of_fmap in M as ([x u]&E&M). cbn in E. subst x. rewrite <- (V u M). by apply K.
Qed.

Lemma pin_step w w' : is_some (yolo_pin cfg) = true -> PinInv w -> wstep w w' -> PinInv w'.
Proof.
  intros P I. destruct 1 as [w p Pg|w pre x v rest post E|w pre c rest post E|w pre post E|w c q s a d Q N C|w x v l E|w d];
    destruct I as [A M Cl S].
  - split; try done. constructor; [by apply program_no_yolo|done].
  - rewrite E in Cl. apply Forall_app in Cl as [C1 [C2 C3]%Forall_cons_1]. split; [|done| |done]; cbn [atom calls].
    + destruct (decide (x = YoloState)) as [->|Ne]; [rewrite set_atom_eq; apply C2; by left|by rewrite set_atom_ne].
    + apply Forall_app. split; [done|]. constructor; [|done]. intros u Hu. apply C2. by right.
  - rewrite E in Cl. apply Forall_app in Cl as [C1 [C2 C3]%Forall_cons_1]. split; [done|done| |done]; cbn [calls].
    apply Forall_app. split; [done|]. constructor; [|done]. intros u Hu. apply C2. by right.
  - rewrite E in Cl. apply Forall_app in Cl as [C1 [C2 C3]%Forall_cons_1]. split; [done|done|by apply Forall_app|done].
  - destruct (pinned_command _ _ _ _ _ _ P M C) as [M' S']. by split.
  - rewrite E in S. split; [|done|done|]; cbn [atom stores].
    + destruct (decide (x = YoloState)) as [->|Ne]; [rewrite set_atom_eq; apply S; by left|by rewrite set_atom_ne].
    + intros u Hu. apply S. by right.
  - by split.
Qed.

(** Always-approve that is locked off is never on and never reported, not
    even for a moment: whatever the callers request and however they interleave,
    [is_yolo_mode] is false in every state, and so is the actor's mode. *)
Theorem pinned_never_shown w : is_some (yolo_pin cfg) = true -> wreach w ->
  atom w YoloState = false /\ yolo_mode (actor w) = false.
Proof.
  intros P R. assert (I : PinInv w); [|by destruct I].
  induction R as [mw now d a d' S|w w' _ IH St]; [|by eapply pin_step].
  pose proof (inv_pin _ _ (spawn_inv PROMPT cfg mw now d a d' S) P) as Y.
  split; [by apply clamp_pinned|exact Y|constructor|]. intros v H. by apply elem_of_nil in H.
Qed.
End world.

(** ** A concrete run *)

Module HandleSample.
#[local] Existing Instances Sample.one_command Sample.prefix_glob Sample.no_urls Sample.ascii_lower Tree.serde
  FileSample.plain_files TomlSample.toml ActorSample.root_path ActorSample.no_tilde ActorSample.no_repository.

Definition pinned : ManagerConfig := MkManager (MkStoreDirs "/s" None) "/w" GrokPager None [] true None true (Some "locked").
Definition start (c : ManagerConfig) : World :=
  MkWorld (initial_atoms c) [] [] (spawn_actor "p" (fun _ => true) 1 c ∅).1 (spawn_actor "p" (fun _ => true) 1 c ∅).2 [].

Lemma start_reachable c : wreach "p" None c (start c).
Proof. eapply (wr_start "p" None c (fun _ => true) 1%Z ∅). apply surjective_pairing. Qed.

(** A call that asks for always-approve, halfway. *)
Lemma pinned_never_shown_witness :
  exists w, wreach "p" None pinned w /\ calls w = [[Send (SetYoloMode true)]] /\ atom w YoloState = false.
Proof.
  set (w1 := MkWorld (atom (start pinned)) [set_yolo_mode (yolo_pin pinned) true] [] (actor (start pinned)) (files (start pinned)) []).
  assert (R1 : wreach "p" None pinned w1).
  { eapply wr_step; [apply start_reachable|]. apply (ws_call "p" None pinned (start pinned)). apply prog_yolo. }
  set (w2 := MkWorld (set_atom YoloState false (atom w1)) [[Send (SetYoloMode true)]] [] (actor w1) (files w1) []).
  assert (R2 : wreach "p" None pinned w2).
  { eapply wr_step; [exact R1|]. by apply (ws_store "p" None pinned w1 [] YoloState false [Send (SetYoloMode true)] []). }
  exists w2. split; [exact R2|]. split; [reflexivity|]. apply (pinned_never_shown "p" None pinned w2); [reflexivity|exact R2].
Defined.

(** A call that turns auto mode on, from its start until the actor is done. *)
Definition quiet : ManagerConfig := ActorSample.config None.
Definition at_ (m : Atom -> bool) (cs : list (list (Action Value))) (q : list (PermissionCommand Value)) (on : bool)
    (st : list (Atom * bool)) : World :=
  MkWorld m cs q (if on then set_auto_command "p" true (actor (start quiet)) else actor (start quiet)) (files (start quiet)) st.
Definition m0 : Atom -> bool := initial_atoms quiet.
Definition m2 (m : Atom -> bool) : Atom -> bool := set_atom YoloState false (set_atom AutoState true m).

Lemma auto_run : wreach "p" None quiet (at_ (m2 (m2 m0)) [] [] true []).
Proof.
  assert (R0 : wreach "p" None quiet (at_ m0 [] [] false [])) by apply start_reachable.
  assert (R1 : wreach "p" None quiet (at_ m0 [set_auto_mode true] [] false [])).
  { eapply wr_step; [exact R0|]. apply (ws_call "p" None quiet (at_ m0 [] [] false [])), prog_auto. }
  assert (R2 : wreach "p" None quiet (at_ (set_atom AutoState true m0) [[Store YoloState false; Send (SetAutoMode true)]] [] false [])).
  { eapply wr_step; [exact R1|]. by apply (ws_store "p" None quiet (at_ m0 [set_auto_mode true] [] false []) [] _ _ _ []). }
  assert (R3 : wreach "p" None quiet (at_ (m2 m0) [[Send (SetAutoMode true)]] [] false [])).
  { eapply wr_step; [exact R2|]. by apply (ws_store "p" None quiet (at_ (set_atom AutoState true m0) _ _ _ _) [] _ _ _ []). }
  assert (R4 : wreach "p" None quiet (at_ (m2 m0) [[]] [SetAutoMode true] false [])).
  { eapply wr_step; [exact R3|]. by apply (ws_send "p" None quiet (at_ (m2 m0) _ [] _ _) [] _ _ []). }
  assert (R5 : wreach "p" None quiet (at_ (m2 m0) [] [SetAutoMode true] false [])).
  { eapply wr_step; [exact R4|]. by apply (ws_return "p" None quiet (at_ (m2 m0) _ _ _ _) [] []). }
  assert (R6 : wreach "p" None quiet (at_ (m2 m0) [] [] true [(AutoState, true); (YoloState, false)])).
  { eapply wr_step; [exact R5|]. by apply (ws_receive "p" None quiet (at_ (m2 m0) _ _ false _) (SetAutoMode true) [] (ActorSample.calm AllowOnce)). }
  assert (R7 : wreach "p" None quiet (at_ (set_atom AutoState true (m2 m0)) [] [] true [(YoloState, false)])).
  { eapply wr_step; [exact R6|]. by apply (ws_actor_store "p" None quiet (at_ (m2 m0) _ _ _ _) AutoState true). }
  eapply wr_step; [exact R7|]. by apply (ws_actor_store "p" None quiet (at_ (set_atom AutoState true (m2 m0)) _ _ _ _) YoloState false).
Qed.

Lemma quiescent_modes_agree_witness :
  atom (at_ (m2 (m2 m0)) [] [] true []) AutoState = true /\ auto_mode (actor (at_ (m2 (m2 m0)) [] [] true [])) = true.
Proof.
  destruct (quiescent_modes_agree "p" None quiet _ auto_run eq_refl eq_refl eq_refl) as [_ A].
  split; [rewrite A|]; reflexivity.
Defined.
End HandleSample.
