(* ===== verification/PermPrompter.v ===== *)
(** * [xai-grok-workspace], [permission/prompter.rs] and [permission/hub_permission.rs]

    The prompt a user sees when a request needs a decision: the rows that are
    offered, how a chosen row and the client's extra data become a
    [PromptOutcome], and the same question asked over the hub.  The file shows
    that a row does what it says, that nothing is remembered while remembering
    is switched off, and that the hub fails closed; the theorems on the actor
    compose the prompter with [PermActor]. *)

From stdpp Require Import gmap sets.
From S2P Require Import Prelude RustStr Json Paths PermRules BashCommand PermPolicy ShellAccess PermGate ExecRisk.
From S2P Require Import AutoMode PermState WebDomains PermManager PermActor.

(** [Value::as_i64]; the other operations of a JSON value are in [Json]. *)
Class SerdeInt `{SerdeJson} := value_as_i64 : Value -> option Z.

(** [char::to_uppercase], on the bytes of one character. *)
Class UnicodeUpper := to_uppercase : string -> string.

(** ** [indexmap::IndexMap], keyed by strings *)

Section indexmap.
Context {A : Type}.
Implicit Types (m : list (string * A)).

Fixpoint ix_get m (k : string) : option A :=
  match m with [] => None | (k', v) :: m' => if k =s? k' then Some v else ix_get m' k end.

(** A key that is there keeps its place. *)
Fixpoint ix_insert m (k : string) (v : A) : list (string * A) :=
  match m with
  | [] => [(k, v)]
  | (k', v') :: m' => if k =s? k' then (k', v) :: m' else (k', v') :: ix_insert m' k v
  end.

Definition ix_extend m (l : list (string * A)) : list (string * A) := foldl (fun m '(k, v) => ix_insert m k v) m l.

Definition shift_remove m (k : string) : list (string * A) := List.filter (fun p => negb (k =s? p.1)) m.
End indexmap.

(** ** [agent_client_protocol] *)

Inductive PermissionOptionKind : Type := KAllowOnce | KAllowAlways | KRejectOnce | KRejectAlways | KOtherKind.

Section prompter.
Context `{T : TreeSitter} `{G : GlobCrate} `{U : UrlCrate} `{L : Unicode} `{Up : UnicodeUpper} `{J : SerdeJson}.
Context {Si : SerdeInt}.
Implicit Types (access : AccessKind Value).

Record PermissionOption : Type := MkOption {
  option_id : string; option_name : string; option_kind : PermissionOptionKind; option_meta : option Map }.
Definition OptionMap : Type := list (string * PermissionOption).

(** A row without metadata, under its own id. *)
Definition row (id name : string) (kind : PermissionOptionKind) : string * PermissionOption :=
  (id, MkOption id name kind None).
Definition with_row (m : OptionMap) (r : string * PermissionOption) : OptionMap := ix_insert m r.1 r.2.

Definition REJECT_ONCE_LABEL : string := "No, and tell Grok what to do differently".
Definition ALLOW_EDITS_SESSION_OPTION_ID : string := "allow-edits-session".
Definition ENABLE_ALWAYS_APPROVE_OPTION_ID : string := "enable-always-approve".
Definition ENABLE_ALWAYS_APPROVE_LABEL : string := "Yes, and don't ask again for anything (always-approve mode)".

Definition enable_always_approve_option : PermissionOption :=
  MkOption ENABLE_ALWAYS_APPROVE_OPTION_ID ENABLE_ALWAYS_APPROVE_LABEL KAllowOnce None.
Definition is_enable_always_approve_option (o : PermissionOption) : bool := option_id o =s? ENABLE_ALWAYS_APPROVE_OPTION_ID.

Definition client_supports_enable_always_approve (c : ClientType) : bool :=
  match c with GrokTUI | GrokPager | Desktop => true | _ => false end.

Definition prepend_enable_always_approve (c : ClientType) (base : OptionMap) : OptionMap :=
  if negb (client_supports_enable_always_approve c) then base
  else
    let opt := enable_always_approve_option in
    let with_yolo := ix_insert [] (option_id opt) opt in
    ix_extend with_yolo base.

(** ** Names of MCP tools *)

Definition mcp_tool_action (tool_name : string) (server_prefix : option string) : string :=
  match server_prefix with
  | None => tool_name
  | Some prefix => unwrap_or tool_name (strip_prefix prefix tool_name ≫= strip_prefix MCP_TOOL_NAME_DELIMITER)
  end.

(** One word: its first character in upper case. *)
Definition titleize_word (word : string) : string :=
  match word with
  | EmptyString => ""
  | _ => let n := char_offset 1 word in to_uppercase (stake n word) +:+ sdrop n word
  end.

Definition mcp_titleize_segment (name : string) : string := join " " (titleize_word <$> split_char "_" name).

Definition server_action (server action : string) : string :=
  "(" +:+ mcp_titleize_segment server +:+ ") " +:+ mcp_titleize_segment action.

Definition mcp_tool_display_name (tool_name : string) (server_prefix : option string) : string :=
  let action := mcp_tool_action tool_name server_prefix in
  match server_prefix with
  | Some server => server_action server action
  | None => mcp_titleize_segment tool_name
  end.

Definition mcp_pretty_name_if_qualified (name : string) : string :=
  match parse_mcp_qualified_name name with
  | Some (server, action) => server_action server action
  | None => name
  end.

(** ** Metadata *)

Definition VStrings (l : list string) : Value := VArray (VString <$> l).

(** [BashCommandPermission] *)
Definition bash_permission_meta (prompt_prefix : string) : option Map :=
  as_object (VObject (map_insert "prompt_prefix" (VString prompt_prefix) map_new)).

(** [McpToolPermission] *)
Definition mcp_permission_meta (prompt_prefix tool_name : string) (server_prefix : option string) : option Map :=
  as_object (VObject (map_insert "server_prefix" (match server_prefix with Some s => VString s | None => VNull end)
    (map_insert "tool_name" (VString tool_name) (map_insert "prompt_prefix" (VString prompt_prefix) map_new)))).

Inductive McpScopeSelection : Type := ScopeTool (tool_name : string) | ScopeServer (server : string).

(** [from_value::<McpScopeSelection>]: tagged by [kind]. *)
Definition mcp_scope_selection (m : Map) : option McpScopeSelection :=
  kind ← map_get "kind" m ≫= as_str;
  if kind =s? "tool" then ScopeTool <$> (map_get "tool_name" m ≫= as_str)
  else if kind =s? "server" then ScopeServer <$> (map_get "server" m ≫= as_str)
  else None.

Record BashCommandSelectedTerms : Type := MkSelectedTerms { command_parts : list string; is_glob : bool }.

(** [from_value::<BashCommandSelectedTerms>]: [is_glob] may be left out. *)
Definition bash_selected_terms (m : Map) : option BashCommandSelectedTerms :=
  parts ← map_get "command_parts" m ≫= as_array;
  parts ← mapM as_str parts;
  glob ← match map_get "is_glob" m with Some v => as_bool v | None => Some false end;
  Some (MkSelectedTerms parts glob).

(** ** The prompter *)

(** [dyn PermissionHookTransport] *)
Definition HookTransport : Type := Value -> result string Value.

Record AcpPrompter : Type := MkPrompter {
  ap_session_id : string; ap_client_type : ClientType; edit_options : OptionMap; bash_options : OptionMap;
  generic_bash_options : OptionMap; fallback_options : OptionMap; agent_message_options : OptionMap;
  hub_permission : option HookTransport; ap_remember : bool }.

Definition AcpPrompter_new (session_id : string) (c : ClientType) : AcpPrompter := {|
  ap_session_id := session_id;
  ap_client_type := c;
  edit_options := foldl with_row []
    [row ALLOW_EDITS_SESSION_OPTION_ID "Yes, allow all edits during this session" KAllowAlways;
     row "allow-once" "Yes" KAllowOnce;
     row "reject-once" REJECT_ONCE_LABEL KRejectOnce];
  bash_options := foldl with_row []
    [row "allow-once" "Yes, proceed" KAllowOnce;
     row "reject-once" REJECT_ONCE_LABEL KRejectOnce];
  generic_bash_options := foldl with_row []
    [row "always-allow" "Yes, and don't ask again for bash commands" KAllowAlways;
     row "allow-once" "Yes, proceed" KAllowOnce;
     row "reject-once" REJECT_ONCE_LABEL KRejectOnce;
     row "reject-always" "No, and don't ask again for this command" KRejectAlways];
  fallback_options := foldl with_row []
    [row "always-allow" "always allow" KAllowAlways;
     row "allow-once" "allow once" KAllowOnce;
     row "reject-once" "reject once" KRejectOnce];
  agent_message_options := foldl with_row []
    [row "allow-once" "Yes, send once" KAllowOnce;
     row "reject-once" REJECT_ONCE_LABEL KRejectOnce];
  hub_permission := None;
  ap_remember := false |}.

Definition with_remember_tool_approvals (p : AcpPrompter) (enabled : bool) : AcpPrompter :=
  MkPrompter (ap_session_id p) (ap_client_type p) (edit_options p) (bash_options p) (generic_bash_options p)
    (fallback_options p) (agent_message_options p) (hub_permission p) enabled.
Definition with_hub_permission (p : AcpPrompter) (hub : option HookTransport) : AcpPrompter :=
  MkPrompter (ap_session_id p) (ap_client_type p) (edit_options p) (bash_options p) (generic_bash_options p)
    (fallback_options p) (agent_message_options p) hub (ap_remember p).

Definition REMEMBER_TOOL_APPROVALS_GATED_IDS : list string :=
  ["allow-always-command"; "reject-always-command"; "allow-always-mcp"; "reject-always-mcp"; "allow-always-domain";
   "reject-always-domain"; "always-allow"; "reject-always"].

Definition bash_scope_option (id prefix : string) (kind : PermissionOptionKind) (primary : BashCommandHighlights)
  : string * PermissionOption :=
  (id, MkOption id (prefix +:+ " " +:+ join " " (highlighted_words primary)) kind (bash_permission_meta prefix)).

Definition domain_from_url (raw_url : string) : option string :=
  host ← url_parse_host raw_url; normalize_domain <$> host.

(** The rows of a shell command in the clients that edit the scope. *)
Definition scoped_bash_rows (p : AcpPrompter) (bash_command : string) : OptionMap :=
  let primary_command := primary_command_from_script bash_command in
  let rows :=
    match primary_command with
    | Some primary =>
        if always_allow_row_is_effective bash_command
        then with_row [] (bash_scope_option "allow-always-command" "Always allow:" KAllowAlways primary)
        else []
    | None => []
    end in
  let rows := ix_extend rows (bash_options p) in
  match primary_command with
  | Some primary => with_row rows (bash_scope_option "reject-always-command" "Never allow:" KRejectAlways primary)
  | None => rows
  end.

Definition web_fetch_rows (url : string) : OptionMap :=
  let domain := unwrap_or "unknown domain" (domain_from_url url) in
  let deny_domain := unwrap_or domain (web_fetch_deny_key_from_url url) in
  foldl with_row []
    [row "allow-always-domain" ("Yes, always allow " +:+ domain +:+ " for this project") KAllowAlways;
     row "allow-once" "Yes, allow once" KAllowOnce;
     row "reject-once" REJECT_ONCE_LABEL KRejectOnce;
     row "reject-always-domain" ("No, never allow " +:+ deny_domain +:+ " for this project") KRejectAlways].

Definition scoped_mcp_rows (tool_name : string) : OptionMap :=
  let server_prefix := fst <$> parse_mcp_qualified_name tool_name in
  foldl with_row []
    [("allow-always-mcp", MkOption "allow-always-mcp" ("Always allow: " +:+ tool_name) KAllowAlways
        (mcp_permission_meta "Always allow:" tool_name server_prefix));
     row "allow-once" "Yes" KAllowOnce;
     row "reject-once" REJECT_ONCE_LABEL KRejectOnce;
     row "reject-always-mcp" ("Never allow: " +:+ mcp_tool_display_name tool_name server_prefix) KRejectAlways].

Definition build_options_inner (p : AcpPrompter) access : OptionMap :=
  match access with
  | Edit _ => edit_options p
  | AgentMessage _ => agent_message_options p
  | Bash bash_command =>
      match ap_client_type p with
      | GrokTUI | GrokPager | Desktop => scoped_bash_rows p bash_command
      | Generic | GrokWeb | Nebula | Extension => generic_bash_options p
      end
  | WebFetch url => web_fetch_rows url
  | MCPTool tool_name _ =>
      match ap_client_type p with
      | GrokTUI | GrokPager | Desktop => scoped_mcp_rows tool_name
      | Generic | GrokWeb | Nebula | Extension => fallback_options p
      end
  | _ => fallback_options p
  end.

Definition build_options (p : AcpPrompter) access : OptionMap :=
  let base := build_options_inner p access in
  let base := if negb (ap_remember p) then foldl shift_remove base REMEMBER_TOOL_APPROVALS_GATED_IDS else base in
  prepend_enable_always_approve (ap_client_type p) base.

(** *** The metadata of a request *)

Definition HOOK_ASK_META_KEY : string := "hookAsk".

Definition protected_edit_description (r : ProtectedEditReason) : option string :=
  match r with
  | HookRoot => Some "Note: This edit contains changes to hooks, which can be executed as code on later sessions without a separate execution approval."
  | GitHooks => Some "Note: This edit contains changes to Git hooks, which can run automatically on commit, push, or other Git actions without a separate execution approval."
  | Ssh => Some "Note: This edit contains changes under `.ssh`, which can affect credentials and authentication for future sessions."
  | StartupFile => Some "Note: This edit contains changes to a shell startup file, which can run automatically in future terminals without a separate execution approval."
  | Etc => Some "Note: This edit contains changes under `/etc`, which is system configuration and can affect this machine beyond the current project."
  | GrokConfig => Some "Note: This edit contains changes to Grok config, which can alter permissions, tools, and other behavior in later sessions."
  | GrokSandbox => Some "Note: This edit contains changes to the Grok sandbox config, which can loosen filesystem and network restrictions on commands."
  | ClaudeSettings => Some "Note: This edit contains changes to Claude-compatible settings, which can install hooks or change permission mode without a separate execution approval."
  | CursorHooks => Some "Note: This edit contains changes to Cursor hooks, which can run automatically in later sessions without a separate execution approval."
  | Sensitive => None
  end.

(** A field that is left out when there is no value. *)
Definition insert_some (k : string) (v : option string) (m : Map) : Map :=
  match v with Some s => map_insert k (VString s) m | None => m end.

(** [ProtectedEditPermission::from_reason], serialised. *)
Definition protected_edit_meta (r : ProtectedEditReason) : option Map :=
  as_object (VObject (insert_some "description" (protected_edit_description r)
    (map_insert "kind" (VString (reason_kind r)) map_new))).

Definition hook_ask_value (h : HookAsk) : Value :=
  VObject (insert_some "reason" (hook_reason h) (map_insert "hookName" (VString (hook_name h)) map_new)).

Definition highlights_value (h : BashCommandHighlights) : Value :=
  VObject (map_insert "suffix" (VStrings (hl_suffix h)) (map_insert "highlighted_words" (VStrings (highlighted_words h))
    (map_insert "prefix" (VStrings (hl_prefix h)) map_new))).

Definition bash_selection_meta (p : AcpPrompter) access : option Map :=
  match access with
  | Bash bash_command =>
      if ap_remember p && client_supports_enable_always_approve (ap_client_type p)
      then as_object (match primary_command_from_script bash_command with Some h => highlights_value h | None => VNull end)
      else None
  | _ => None
  end.

(** The hook's question goes on top of what is there; no metadata at all
    otherwise (the maps of the other two sources are never empty). *)
Definition permission_request_meta (p : AcpPrompter) access (protected_edit : option ProtectedEditReason)
  (hook_ask : option HookAsk) : option Map :=
  let meta := or_else (bash_selection_meta p access) (protected_edit ≫= protected_edit_meta) in
  match hook_ask with
  | Some ask => Some (map_insert HOOK_ASK_META_KEY (hook_ask_value ask) (unwrap_or map_new meta))
  | None => meta
  end.

(** The title of the tool call that is shown. *)
Definition with_hook_ask_header (title : option string) (hook_ask : option HookAsk) (tool_name : string) : option string :=
  match hook_ask with
  | Some ask =>
      let action := unwrap_or tool_name (ofilter (fun t => negb (is_empty t)) (trim <$> title)) in
      Some (prompt_header ask action)
  | None => title
  end.

(** *** The chosen row *)

Definition allow_always_outcome (option_id : string) (meta : option Map) access : PromptOutcome :=
  if option_id =s? ENABLE_ALWAYS_APPROVE_OPTION_ID then AllowOnce
  else if option_id =s? "allow-always-mcp" then
    match meta ≫= mcp_scope_selection with
    | Some (ScopeTool tool_name) => AllowAlwaysMcpTool tool_name
    | Some (ScopeServer server) =>
        if is_empty server
        then match access with MCPTool name _ => AllowAlwaysMcpTool name | _ => AllowAlways end
        else AllowAlwaysMcpServer server
    | None => match access with MCPTool name _ => AllowAlwaysMcpTool name | _ => AllowAlways end
    end
  else if option_id =s? "allow-always-domain" then
    match access with
    | WebFetch url => match domain_from_url url with
                      | Some domain => if negb (is_empty domain) then AllowAlwaysDomain domain else AllowOnce
                      | None => AllowOnce
                      end
    | _ => AllowOnce
    end
  else if option_id =s? "allow-always-command" then
    match meta ≫= bash_selected_terms with
    | Some terms =>
        let pattern := join " " (command_parts terms) in
        if is_glob terms then AllowAlwaysBashGlob pattern else AllowAlwaysBashCommand pattern
    | None =>
        match access with
        | Bash cmd => match primary_command_from_script cmd with
                      | Some primary => AllowAlwaysBashCommand (join " " (highlighted_words primary))
                      | None => AllowAlways
                      end
        | _ => AllowAlways
        end
    end
  else if (option_id =s? ALLOW_EDITS_SESSION_OPTION_ID) && match access with Edit _ => true | _ => false end
  then AllowEditsForSession
  else AllowAlways.

Definition reject_once_outcome (meta : option Map) : PromptOutcome :=
  match (m ← meta; map_get "followup_message" m ≫= as_str) with
  | Some followup => if negb (is_empty (trim followup)) then FollowupMessage followup else RejectOnce
  | None => RejectOnce
  end.

Definition reject_always_outcome (id : string) (meta : option Map) access : PromptOutcome :=
  if (id =s? "reject-always-command") || (id =s? "reject-always") then
    match meta ≫= bash_selected_terms with
    | Some terms => RejectAlwaysBashCommand (join " " (command_parts terms))
    | None =>
        match access with
        | Bash cmd => match primary_command_from_script cmd with
                      | Some primary => RejectAlwaysBashCommand (join " " (highlighted_words primary))
                      | None => RejectAlwaysBashCommand cmd
                      end
        | _ => RejectOnce
        end
    end
  else if id =s? "reject-always-mcp" then
    match access with MCPTool name _ => RejectAlwaysMcpTool name | _ => RejectOnce end
  else if id =s? "reject-always-domain" then
    match access with
    | WebFetch url => match web_fetch_deny_key_from_url url with
                      | Some domain => RejectAlwaysDomain domain
                      | None => RejectOnce
                      end
    | _ => RejectOnce
    end
  else RejectOnce.

Definition map_selected_outcome (permission_options : OptionMap) (option_id : string) (meta : option Map) access
  : PromptOutcome :=
  match ix_get permission_options option_id with
  | Some option =>
      match option_kind option with
      | KAllowOnce => AllowOnce
      | KAllowAlways => allow_always_outcome option_id meta access
      | KRejectOnce => reject_once_outcome meta
      | KRejectAlways => reject_always_outcome option_id meta access
      | KOtherKind => PromptError "unknown permission option kind"
      end
  | None => PromptError "unknown permission option"
  end.

(** ** [hub_permission.rs] *)

Definition is_timeout_err (msg : string) : bool := contains_str "timed out" msg.

(** [env] is [std::env::var(GROK_HITL_PERMISSION_LIVE)]. *)
Definition hitl_permission_live_enabled (env : option string) : bool :=
  match env with
  | Some v => is_one_of ["1"; "true"; "yes"; "on"] (to_ascii_lowercase (trim v))
  | None => false
  end.

(** What a request over the tool server leaves in the metrics: the label of the
    observed duration, and whether a timeout was counted. *)
Record HubMetrics : Type := MkHubMetrics { reply_label : string; timeout_counted : bool }.

(** [ToolServerPermissionTransport::request_permission]; [server] is [None] when
    the server is gone. *)
Definition tool_server_request (server : option HookTransport) (payload : Value) : result string Value * HubMetrics :=
  match server with
  | None => (Err "tool server gone (weak upgrade failed)", MkHubMetrics "error" false)
  | Some request_hook =>
      match request_hook payload with
      | Ok reply => (Ok reply, MkHubMetrics "ok" false)
      | Err e => (Err e, MkHubMetrics "error" (is_timeout_err e))
      end
  end.

Definition scope_for_access access : string :=
  match access with
  | Bash _ | Edit _ | MCPTool _ _ | AgentMessage _ => "write"
  | Read _ | Grep _ _ | WebFetch _ | WebSearch _ => "read"
  end.

Definition describe_access access : string :=
  match access with
  | Bash _ => "Run a terminal command"
  | Edit path => "Edit " +:+ path
  | MCPTool name _ => "Run MCP tool " +:+ name
  | WebFetch url => "Fetch " +:+ url
  | WebSearch query => "Search the web for " +:+ query
  | Read _ => "Read a file"
  | Grep _ _ => "Search file contents"
  | AgentMessage subagent_id => "Send a message to subagent " +:+ subagent_id
  end.

Definition build_permission_payload access (tool_call_id : string) (hook_ask : option HookAsk) : Value :=
  let description := match hook_ask with
                     | Some ask => prompt_header ask (describe_access access)
                     | None => describe_access access
                     end in
  let map := map_insert "scope" (VString (scope_for_access access)) (map_insert "description" (VString description)
    (map_insert "tool_name" (VString (tool_name_for_access access)) (map_insert "tool_call_id" (VString tool_call_id) map_new))) in
  VObject match access with
          | Bash command => map_insert "bash_command" (VString command) map
          | AgentMessage subagent_id => map_insert "subagent_id" (VString subagent_id) map
          | Edit path => map_insert "edit_file_paths" (VStrings [path]) map
          | _ => map
          end.

Definition scope_kind_value (reply : Value) : option (string * option string) :=
  scope ← get reply "scope";
  kind ← get_str scope "kind";
  Some (kind, get_str scope "value").

(** The outcome as a word; numbers are those of the wire enum. *)
Definition reply_word (reply : Value) : string :=
  match get reply "outcome" with
  | Some v =>
      match as_str v with
      | Some s => s
      | None =>
          match value_as_i64 v with
          | Some 1%Z => "approve"
          | Some 2%Z => "reject"
          | Some 3%Z => "always_approve"
          | Some 4%Z => "always_reject"
          | _ => ""
          end
      end
  | None => ""
  end.

Definition always_approve_outcome (reply : Value) : PromptOutcome :=
  match scope_kind_value reply with
  | Some (kind, Some value) =>
      if kind =s? "bash_command" then AllowAlwaysBashCommand value
      else if kind =s? "bash_glob" then AllowAlwaysBashGlob value
      else if kind =s? "server_prefix" then AllowAlwaysMcpServer value
      else if kind =s? "domain" then AllowAlwaysDomain value
      else AllowAlways
  | _ => AllowAlways
  end.

Definition reply_to_outcome (reply : Value) : PromptOutcome :=
  let outcome := reply_word reply in
  let followup := ofilter (fun s => negb (is_empty s)) (get_str reply "followup_message") in
  if outcome =s? "approve" then AllowOnce
  else if outcome =s? "always_approve" then always_approve_outcome reply
  else if outcome =s? "reject" then match followup with Some message => FollowupMessage message | None => RejectOnce end
  else if outcome =s? "always_reject" then
    match scope_kind_value reply with
    | Some (kind, Some value) => if kind =s? "bash_command" then RejectAlwaysBashCommand value else RejectOnce
    | _ => RejectOnce
    end
  else if outcome =s? "cancelled" then PromptCancelled
  else RejectOnce.

Definition prompt_outcome_allows (o : PromptOutcome) : bool :=
  match o with
  | AllowOnce | AllowAlways | AllowEditsForSession | AllowAlwaysBashCommand _ | AllowAlwaysBashGlob _
  | AllowAlwaysDomain _ | AllowAlwaysMcpTool _ | AllowAlwaysMcpServer _ => true
  | _ => false
  end.

Definition request_permission_via_hub (transport : HookTransport) access (tool_call_id : string) (hook_ask : option HookAsk)
  : PromptOutcome :=
  match transport (build_permission_payload access tool_call_id hook_ask) with
  | Ok reply =>
      match reply_to_outcome reply with
      | AllowAlways => match access with Edit _ => AllowEditsForSession | AgentMessage _ => AllowOnce | _ => AllowAlways end
      | other => other
      end
  | Err e => PromptError ("hub permission request failed: " +:+ e)
  end.

(** *** Requests from the hub *)

Definition arg_str (args : Value) (keys : list string) (default : string) : string :=
  unwrap_or default (find_map (get args) keys ≫= as_str).

(** [rsplit(':').next()] *)
Definition after_last_colon (s : string) : string := unwrap_or s (list.last (split_char ":" s)).

Definition access_kind_for_hub_tool_name (tool_name : string) (args : Value) : option (AccessKind Value) :=
  let name := after_last_colon tool_name in
  let name := unwrap_or name (strip_prefix "GrokBuild:" name) in
  if is_one_of ["run_terminal_command"; "run_terminal_cmd"; "bash"; "shell"] name
  then Some (Bash (arg_str args ["command"; "full_command"] ""))
  else if is_one_of ["search_replace"; "hashline_edit"; "edit"] name
  then Some (Edit (arg_str args ["file_path"; "filePath"; "path"] "unknown"))
  else if is_one_of ["write"; "write_file"] name
  then Some (Edit (arg_str args ["file_path"; "filePath"; "path"] "unknown"))
  else if name =s? "apply_patch" then Some (Edit "apply_patch")
  else if name =s? SEND_SUBAGENT_MESSAGE_TOOL_NAME then Some (AgentMessage (arg_str args ["subagent_id"] "unknown"))
  else if is_one_of ["task"; "Task"; "spawn_subagent"] name
  then Some (Edit ("task:" +:+ arg_str args ["subagent_type"] "task"))
  else if name =s? "web_fetch" then Some (WebFetch (arg_str args ["url"] ""))
  else if contains_str "__" name || starts_with "mcp" name then Some (MCPTool tool_name args)
  else None.

(** [active_agent_message]: the tool kind is [ToolKind::ActiveAgentMessage]. *)
Definition access_kind_for_hub_tool (active_agent_message : bool) (tool_name : string) (args : Value)
  : option (AccessKind Value) :=
  if active_agent_message then Some (AgentMessage (arg_str args ["subagent_id"] "unknown"))
  else access_kind_for_hub_tool_name tool_name args.

(** ** [AcpPrompter::request] *)

(** [acp::RequestPermissionRequest] and its answer. *)
Record PermissionQuestion : Type := MkQuestion {
  pq_session : string; pq_title : option string; pq_options : list PermissionOption; pq_meta : option Map }.
Inductive RequestPermissionOutcome : Type := ReplyCancelled | ReplySelected (option_id : string) | ReplyOther.
Record PermissionResponse : Type := MkResponse { rp_outcome : RequestPermissionOutcome; rp_meta : option Map }.

Definition question (p : AcpPrompter) access (title : option string) (protected_edit : option ProtectedEditReason)
  (hook_ask : option HookAsk) : PermissionQuestion :=
  MkQuestion (ap_session_id p) (with_hook_ask_header title hook_ask (tool_name_for_access access))
    (snd <$> build_options p access) (permission_request_meta p access protected_edit hook_ask).

(** [gateway] sends a question to the client. *)
Definition request (p : AcpPrompter) (gateway : PermissionQuestion -> result string PermissionResponse) access
  (tool_call_id : string) (title : option string) (protected_edit : option ProtectedEditReason) (hook_ask : option HookAsk)
  : PromptOutcome :=
  match hub_permission p with
  | Some transport => request_permission_via_hub transport access tool_call_id hook_ask
  | None =>
      let permission_options := build_options p access in
      match gateway (question p access title protected_edit hook_ask) with
      | Ok resp =>
          match rp_outcome resp with
          | ReplyCancelled => PromptCancelled
          | ReplySelected option_id => map_selected_outcome permission_options option_id (rp_meta resp) access
          | ReplyOther => PromptError "unknown permission outcome"
          end
      | Err _ => PromptError "failed to request permission"
      end
  end.

(** *** Session events *)

Inductive EventDecision : Type := EAllow | EDeny | ECancelled | EFollowup.
Inductive SessionEvent : Type := PermissionRequested (tool_name : string) | PermissionResolved (tool_name : string) (decision : EventDecision).

Definition permission_decision_for_outcome (o : PromptOutcome) : EventDecision :=
  match o with
  | AllowOnce | AllowAlways | AllowEditsForSession | AllowAlwaysBashCommand _ | AllowAlwaysBashGlob _
  | AllowAlwaysDomain _ | AllowAlwaysMcpTool _ | AllowAlwaysMcpServer _ => EAllow
  | RejectOnce | RejectAlwaysBashCommand _ | RejectAlwaysMcpTool _ | RejectAlwaysDomain _ | PromptError _ => EDeny
  | PromptCancelled => ECancelled
  | FollowupMessage _ => EFollowup
  end.

(** What [request] writes; [None] when its future is dropped before the answer,
    which the guard reports. *)
Definition request_events access (outcome : option PromptOutcome) : list SessionEvent :=
  let tool_name := tool_name_for_access access in
  [PermissionRequested tool_name;
   PermissionResolved tool_name (match outcome with Some o => permission_decision_for_outcome o | None => ECancelled end)].
End prompter.

(** ** Insertion-ordered maps *)

Section index_lemmas.
Context {A : Type}.
Implicit Types (m : list (string * A)).

Lemma ix_get_elem m k v : ix_get m k = Some v -> (k, v) ∈ m.
Proof.
  induction m as [|[k' v'] m IH]; [done|]. cbn. destruct (String.eqb_spec k k') as [->|]; [intros [= ->]|intros H];
    apply elem_of_cons; [by left|right; by apply IH].
Qed.

Lemma ix_get_nodup m k v : NoDup m.*1 -> (k, v) ∈ m -> ix_get m k = Some v.
Proof.
  induction m as [|[k' v'] m IH]; cbn; [by intros _ ?%elem_of_nil|]. intros [N D]%list.NoDup_cons [[= <- <-]|H]%elem_of_cons.
  - by rewrite String.eqb_refl.
  - destruct (String.eqb_spec k k') as [->|]; [|by apply IH]. exfalso. apply N. apply list_elem_of_fmap. by exists (k', v).
Qed.
End index_lemmas.

(** ** The rows of a prompt *)

Section rows.
Context `{T : TreeSitter} `{G : GlobCrate} `{U : UrlCrate} `{L : Unicode} `{Up : UnicodeUpper} `{J : SerdeJson}.
Context {Si : SerdeInt}.
Implicit Types (access : AccessKind Value) (c : ClientType) (id : string) (o : PermissionOption).

(** The prompter the manager makes. *)
Definition manager_prompter (session : string) (cfg : ManagerConfig) (hub : option HookTransport) : AcpPrompter :=
  with_remember_tool_approvals (with_hub_permission (AcpPrompter_new session (client_type cfg)) hub)
    (remember_tool_approvals cfg).

Definition opt_row {A} (x : option A) (f : A -> string * PermissionOption) : list (string * PermissionOption) :=
  match x with Some a => [f a] | None => [] end.

(** The rows of an access in order, as a plain list. *)
Definition base_rows c access : list (string * PermissionOption) :=
  let once yes no := [row "allow-once" yes KAllowOnce; row "reject-once" no KRejectOnce] in
  match access with
  | Edit _ => row ALLOW_EDITS_SESSION_OPTION_ID "Yes, allow all edits during this session" KAllowAlways
              :: once "Yes" REJECT_ONCE_LABEL
  | AgentMessage _ => once "Yes, send once" REJECT_ONCE_LABEL
  | Bash cmd =>
      if client_supports_enable_always_approve c then
        opt_row (ofilter (fun _ => always_allow_row_is_effective cmd) (primary_command_from_script cmd))
          (bash_scope_option "allow-always-command" "Always allow:" KAllowAlways)
        ++ once "Yes, proceed" REJECT_ONCE_LABEL
        ++ opt_row (primary_command_from_script cmd) (bash_scope_option "reject-always-command" "Never allow:" KRejectAlways)
      else row "always-allow" "Yes, and don't ask again for bash commands" KAllowAlways
           :: once "Yes, proceed" REJECT_ONCE_LABEL
           ++ [row "reject-always" "No, and don't ask again for this command" KRejectAlways]
  | WebFetch url => web_fetch_rows url
  | MCPTool tool _ =>
      if client_supports_enable_always_approve c then scoped_mcp_rows tool
      else row "always-allow" "always allow" KAllowAlways :: once "allow once" "reject once"
  | _ => row "always-allow" "always allow" KAllowAlways :: once "allow once" "reject once"
  end.

Definition gated (id : string) : bool := is_one_of REMEMBER_TOOL_APPROVALS_GATED_IDS id.

Definition shown_rows c (remember : bool) access : list (string * PermissionOption) :=
  (if client_supports_enable_always_approve c then [(ENABLE_ALWAYS_APPROVE_OPTION_ID, enable_always_approve_option)] else [])
  ++ List.filter (fun r => remember || negb (gated r.1)) (base_rows c access).

(** The map that is built holds these rows in this order. *)
Lemma build_options_rows session cfg hub access :
  build_options (manager_prompter session cfg hub) access = shown_rows (client_type cfg) (remember_tool_approvals cfg) access.
Proof.
  unfold build_options, shown_rows, manager_prompter. destruct cfg as [dirs cwd c pc dom yolo ident remember pin].
  cbn [client_type remember_tool_approvals]. destruct remember, access, c; try reflexivity;
    cbn [build_options_inner base_rows client_supports_enable_always_approve ap_client_type with_remember_tool_approvals
      with_hub_permission AcpPrompter_new]; unfold scoped_bash_rows;
    destruct (primary_command_from_script command) as [h|]; cbn [ofilter]; try reflexivity;
    destruct (always_allow_row_is_effective command); reflexivity.
Qed.
End rows.

(** ** What a chosen row does *)

Definition allow_kind (k : PermissionOptionKind) : bool := match k with KAllowOnce | KAllowAlways => true | _ => false end.

(** Answers that are about this call only, or end with the session. *)
Definition forgetful (o : PromptOutcome) : bool :=
  match o with
  | AllowOnce | AllowEditsForSession | RejectOnce | PromptCancelled | FollowupMessage _ | PromptError _ => true
  | _ => false
  end.

(** The rows of an access one by one. *)
Ltac each_row := repeat first [apply List.Forall_cons | apply List.Forall_nil].
Ltac split_rows c access :=
  destruct access; cbn [base_rows]; try (destruct (client_supports_enable_always_approve c));
  unfold web_fetch_rows, scoped_mcp_rows;
  try (destruct (primary_command_from_script _) as [h|] eqn:Hp; cbn [ofilter];
       try destruct (always_allow_row_is_effective _) eqn:He).

Section chosen.
Context `{T : TreeSitter} `{G : GlobCrate} `{U : UrlCrate} `{L : Unicode} `{Up : UnicodeUpper} `{J : SerdeJson}.
Context {Si : SerdeInt}.
Implicit Types (access : AccessKind Value) (c : ClientType) (id : string) (o : PermissionOption) (s : PermissionState).

Lemma prompt_allows_user out : prompt_outcome_allows out = user_allows out.
Proof. done. Qed.

Lemma allow_always_allows id meta access : user_allows (allow_always_outcome id meta access) = true.
Proof. unfold allow_always_outcome. repeat case_match; done. Qed.

Lemma reject_always_rejects id meta access : user_allows (reject_always_outcome id meta access) = false.
Proof. unfold reject_always_outcome. repeat case_match; done. Qed.

Lemma reject_once_forgetful meta : user_allows (reject_once_outcome meta) = false /\ forgetful (reject_once_outcome meta) = true.
Proof. unfold reject_once_outcome. repeat case_match; done. Qed.

(** Whatever the client sends along, a row allows exactly when it is one of the
    rows that say so. *)
Lemma selected_allows opts id meta access : user_allows (map_selected_outcome opts id meta access) =
  match ix_get opts id with Some o => allow_kind (option_kind o) | None => false end.
Proof.
  unfold map_selected_outcome. destruct (ix_get opts id) as [o|]; [|done]. destruct (option_kind o); try done.
  - apply allow_always_allows.
  - apply reject_once_forgetful.
  - apply reject_always_rejects.
Qed.

(** A row that is there without the gate is for once or for the session. *)
Lemma ungated_row c access id o : (id, o) ∈ base_rows c access -> gated id = false ->
  option_kind o = KAllowOnce \/ option_kind o = KRejectOnce \/
  (id = ALLOW_EDITS_SESSION_OPTION_ID /\ option_kind o = KAllowAlways /\ exists path, access = Edit path).
Proof.
  intros H. enough (F : List.Forall (fun r => gated r.1 = false -> option_kind r.2 = KAllowOnce \/ option_kind r.2 = KRejectOnce \/
    (r.1 = ALLOW_EDITS_SESSION_OPTION_ID /\ option_kind r.2 = KAllowAlways /\ exists path, access = Edit path)) (base_rows c access)).
  { rewrite List.Forall_forall in F. apply (F (id, o)). by apply list_elem_of_In. }
  clear H. split_rows c access; cbn; each_row; cbn; intros Hg; try discriminate Hg; eauto 6.
Qed.

Lemma base_nodup c access : NoDup (base_rows c access).*1 /\ ~ ENABLE_ALWAYS_APPROVE_OPTION_ID ∈ (base_rows c access).*1.
Proof.
  split_rows c access; cbn; split; try (apply (bool_decide_unpack _); reflexivity).
Qed.

Lemma shown_nodup c remember access : NoDup (shown_rows c remember access).*1.
Proof.
  destruct (base_nodup c access) as [N E]. unfold shown_rows.
  assert (K : forall f (l : list (string * PermissionOption)), NoDup l.*1 -> NoDup (List.filter f l).*1 /\ (forall x, x ∈ (List.filter f l).*1 -> x ∈ l.*1)).
  { intros f l. induction l as [|r l IH]; cbn; [done|]. intros [Nr Nl]%list.NoDup_cons. destruct (IH Nl) as [I1 I2].
    destruct (f r); cbn; [rewrite list.NoDup_cons|]; split_and?; try done; [by intros Hx%I2| |]; intros x Hx;
      [apply elem_of_cons in Hx as [->|Hx]|]; apply elem_of_cons; [by left|right; by apply I2..]. }
  destruct (K (fun r => remember || negb (gated r.1)) _ N) as [K1 K2].
  destruct (client_supports_enable_always_approve c); [|done]. rewrite fmap_app. apply list.NoDup_cons. split; [|done].
  by intros H%K2.
Qed.

(** Choosing a row that is shown finds it. *)
Lemma shown_get session cfg hub access id o :
  ix_get (build_options (manager_prompter session cfg hub) access) id = Some o <->
  (id, o) ∈ build_options (manager_prompter session cfg hub) access.
Proof. split; [apply ix_get_elem|]. apply ix_get_nodup. rewrite build_options_rows. apply shown_nodup. Qed.

Lemma shown_inv c remember access r : r ∈ shown_rows c remember access ->
  r = (ENABLE_ALWAYS_APPROVE_OPTION_ID, enable_always_approve_option) \/
  (r ∈ base_rows c access /\ (remember = false -> gated r.1 = false)).
Proof.
  unfold shown_rows. rewrite elem_of_app. intros [H|H].
  - left. destruct (client_supports_enable_always_approve c); [by apply list_elem_of_singleton in H|by apply elem_of_nil in H].
  - right. apply list_elem_of_In, filter_In in H as [H1 H2]. split; [by apply list_elem_of_In|]. intros ->.
    by apply negb_true_iff in H2.
Qed.

(** With remembering switched off no answer of the client is remembered. *)
Lemma gate_off_forgetful session cfg id meta access : remember_tool_approvals cfg = false ->
  forgetful (map_selected_outcome (build_options (manager_prompter session cfg None) access) id meta access) = true.
Proof.
  intros R. unfold map_selected_outcome. destruct (ix_get _ id) as [o|] eqn:E; [|done].
  apply ix_get_elem in E. rewrite build_options_rows, R in E. apply shown_inv in E as [[= -> ->]|[E Hg]]; [done|].
  destruct (ungated_row _ _ _ _ E (Hg eq_refl)) as [->|[->|(->&->&path&->)]]; [done|apply reject_once_forgetful|done].
Qed.
End chosen.

(** ** The prompter and the manager *)

Section together.
Context `{T : TreeSitter} `{G : GlobCrate} `{U : UrlCrate} `{L : Unicode} `{F : FileSystem} `{J : SerdeJson} `{W : UrlPath}.
Context `{Gt : Git2} `{X : ShellExpand} `{Tm : Toml} `{Up : UnicodeUpper}.
Context {Si : SerdeInt} (grok_home : option string) (cfg : ManagerConfig) (session : string).
Context (gateway : PermissionQuestion -> result string PermissionResponse) (title : option string)
  (edit : option ProtectedEditReason).
Implicit Types (a : Actor Value) (r : PermissionRequest Value) (w : Surroundings) (access : AccessKind Value) (o : PermissionOption).

Notation handle := (handle_request grok_home cfg).
Notation local_prompter := (manager_prompter session cfg None).

(** The answer of the user is the one the prompter of the manager gets. *)
Definition asks_locally r w : Prop :=
  user w = request local_prompter gateway (rq_access r) (tool_call_id r) title edit (hook_ask r).

Lemma reaction_allow_iff a w access :
  rx_decision (reaction a w access) = DAllow <-> user_allows (prompt_outcome_of w) = true.
Proof.
  split; [apply reaction_allow|]. unfold reaction.
  destruct access, (prompt_outcome_of w); try done; intros _; cbn; repeat case_match; done.
Qed.

Lemma forgetful_reaction a w access : forgetful (prompt_outcome_of w) = true ->
  rx_state (reaction a w access) = state a /\ rx_persist (reaction a w access) = false.
Proof. unfold reaction. by destruct access, (prompt_outcome_of w). Qed.

Lemma handle_disk a r w d : h_prompted (handle a r w d) = true ->
  rx_persist (reaction (refresh w (rq_access r) a d).1 w (rq_access r)) = false -> h_disk (handle a r w d) = disk_at_answer w.
Proof.
  unfold handle_request. destruct (gone_at_dequeue w); [done|]. destruct (refresh w (rq_access r) a d) as [a' d']. cbn [fst].
  destruct (evaluate_request cfg r w (state a')) as [e|]; [|done].
  destruct (decide_request cfg a' w _) as [[[dec auto reason]| |trigger] dn cl]; try done. intros _ P. cbn. by rewrite P.
Qed.

(** The row that is chosen decides.  When a request is put to the user of
    the local client, it is allowed exactly when the client came back, while
    the requester was still there, with the id of a row that was shown and that
    allows; the data the client sends along, an id that was not shown, a
    cancelled or failed prompt never allow it. *)
Theorem chosen_row_decides a r w d : asks_locally r w -> h_prompted (handle a r w d) = true ->
  h_reply (handle a r w d) = Some DAllow <->
  gone_while_open w = false /\
  exists id meta o, gateway (question local_prompter (rq_access r) title edit (hook_ask r)) = Ok (MkResponse (ReplySelected id) meta) /\
    (id, o) ∈ build_options local_prompter (rq_access r) /\ allow_kind (option_kind o) = true.
Proof.
  intros Hu P. destruct (handle_inv grok_home cfg a r w d) as [[_ N]|(e&_&[(an&_&_&N&_)|(tr&_&Re&_)])]; [congruence..|].
  rewrite Re. transitivity (user_allows (prompt_outcome_of w) = true).
  { rewrite <- reaction_allow_iff. split; [by intros [= ->]|by intros ->]. }
  unfold prompt_outcome_of. destruct (gone_while_open w); [naive_solver|]. rewrite Hu. unfold request.
  change (hub_permission local_prompter) with (@None HookTransport). cbn iota.
  setoid_rewrite <- shown_get. destruct (gateway _) as [[[|id|] meta]|err]; cbn [rp_outcome rp_meta]; [naive_solver| |naive_solver..].
  rewrite selected_allows. split.
  - intros H. destruct (ix_get _ id) as [o|] eqn:E; [|done]. split; [done|]. by exists id, meta, o.
  - intros (_&id'&meta'&o&[= <- <-]&E&K). by rewrite E.
Qed.

(** Nothing is remembered while remembering is switched off.  Without
    [remember_tool_approvals] the grants and denials after a request that the
    local client answered are those before it, whatever the client sends, and
    the file of the project is not written. *)
Theorem gate_off_remembers_nothing a r w d : asks_locally r w -> remember_tool_approvals cfg = false ->
  state (h_actor (handle a r w d)) = grants_before a r w d /\
  (h_prompted (handle a r w d) = true -> h_disk (handle a r w d) = disk_at_answer w).
Proof.
  intros Hu R. assert (Fg : forgetful (prompt_outcome_of w) = true).
  { unfold prompt_outcome_of. destruct (gone_while_open w); [done|]. rewrite Hu. unfold request.
    change (hub_permission local_prompter) with (@None HookTransport). cbn iota.
    destruct (gateway _) as [[[|id|] meta]|err]; try done. by apply gate_off_forgetful. }
  split.
  - rewrite handle_state. destruct (h_prompted _) eqn:P; [|done]. rewrite (prompted_grants grok_home cfg) by done.
    by apply forgetful_reaction.
  - intros P. apply handle_disk; [done|]. by apply forgetful_reaction.
Qed.

(** *** Labels *)

(** What a row promises by its label, and how the grants change when the manager
    is told of it. *)
Inductive Promised access : PermissionOption -> PermissionState -> PermissionState -> Prop :=
| keeps_nothing o s : option_kind o = KAllowOnce \/ option_kind o = KRejectOnce \/
    option_id o = ALLOW_EDITS_SESSION_OPTION_ID -> Promised access o s s
| allows_command cmd x o s : access = Bash cmd -> option_name o = "Always allow: " +:+ x ->
    Promised access o s (persist_bash_always_allow s cmd x)
| denies_command cmd x o s : access = Bash cmd -> option_name o = "Never allow: " +:+ x -> Promised access o s (add_bash_deny s x)
| allows_tool x input o s : access = MCPTool x input -> option_name o = "Always allow: " +:+ x ->
    Promised access o s (add_mcp_tool s x)
| denies_tool x input o s : access = MCPTool x input ->
    option_name o = "Never allow: " +:+ mcp_tool_display_name x (fst <$> parse_mcp_qualified_name x) ->
    Promised access o s (add_mcp_deny s x)
| allows_domain url x o s : access = WebFetch url -> domain_from_url url = Some x ->
    option_name o = "Yes, always allow " +:+ x +:+ " for this project" -> Promised access o s (add_domain s x)
| denies_domain url x o s : access = WebFetch url -> web_fetch_deny_key_from_url url = Some x ->
    option_name o = "No, never allow " +:+ x +:+ " for this project" -> Promised access o s (add_domain_deny s x)
| allows_script cmd o s : access = Bash cmd -> option_id o = "always-allow" ->
    Promised access o s (with_bash_commands s (fun X => list_to_set (bash_grant_segments cmd) ∪ ({[cmd]} ∪ X)))
| denies_script cmd x o s : access = Bash cmd -> option_id o = "reject-always" ->
    x = match primary_command_from_script cmd with Some h => join " " (highlighted_words h) | None => cmd end ->
    Promised access o s (add_bash_deny s x)
| always_allows_tool x input o s : access = MCPTool x input -> option_id o = "always-allow" -> Promised access o s (add_mcp_tool s x)
| always_allows_nothing o s : match access with Read _ | Grep _ _ | WebSearch _ => True | _ => False end ->
    option_id o = "always-allow" -> Promised access o s s.

(** What the manager makes of an answer. *)
Definition answered (s : PermissionState) (edits : bool) access (out : PromptOutcome) : PermissionState :=
  rx_state match access with Bash cmd => bash_reaction s edits cmd out | _ => other_reaction s edits access out end.

(** The deny key of a host with a name is its key. *)
Definition host_named access : Prop :=
  match access with
  | WebFetch url => (exists x, domain_from_url url = Some x /\ x <> "") /\ is_some (web_fetch_deny_key_from_url url) = true
  | _ => True
  end.

Lemma allow_command_outcome cmd h : primary_command_from_script cmd = Some h ->
  allow_always_outcome "allow-always-command" None (Bash cmd) = AllowAlwaysBashCommand (join " " (highlighted_words h)).
Proof. intros E. unfold allow_always_outcome. cbn. by rewrite E. Qed.

Lemma deny_command_outcome id cmd : id = "reject-always-command" \/ id = "reject-always" ->
  reject_always_outcome id None (Bash cmd) =
  RejectAlwaysBashCommand (match primary_command_from_script cmd with Some h => join " " (highlighted_words h) | None => cmd end).
Proof. intros [->| ->]; unfold reject_always_outcome; cbn; by destruct (primary_command_from_script cmd). Qed.

Lemma answered_domain url x s edits : domain_from_url url = Some x -> x <> "" ->
  answered s edits (WebFetch url) (allow_always_outcome "allow-always-domain" None (WebFetch url)) = add_domain s x.
Proof.
  intros E N. unfold allow_always_outcome. cbn -[domain_from_url other_reaction normalize_domain]. rewrite E.
  unfold is_empty. destruct (String.eqb_spec x ""); [done|]. cbn [negb]. unfold answered, other_reaction.
  unfold domain_from_url in E. destruct (url_parse_host url) as [[host|]|]; [|done..]. by injection E as <-.
Qed.

Lemma answered_domain_deny url x s edits : web_fetch_deny_key_from_url url = Some x ->
  answered s edits (WebFetch url) (reject_always_outcome "reject-always-domain" None (WebFetch url)) = add_domain_deny s x.
Proof.
  intros E. unfold reject_always_outcome. cbn -[web_fetch_deny_key_from_url other_reaction]. rewrite E.
  unfold answered, other_reaction. by rewrite E.
Qed.

Lemma base_promised (c : ClientType) access s edits : host_named access ->
  List.Forall (fun (q : string * PermissionOption) => Promised access q.2 s (answered s edits access
    match option_kind q.2 with
    | KAllowOnce => AllowOnce
    | KAllowAlways => allow_always_outcome q.1 None access
    | KRejectOnce => reject_once_outcome None
    | KRejectAlways => reject_always_outcome q.1 None access
    | KOtherKind => PromptError "unknown permission option kind"
    end)) (base_rows c access).
Proof.
  intros Hn. split_rows c access; lazy beta iota delta [foldl with_row ix_insert row fst snd opt_row app String.eqb Ascii.eqb Bool.eqb];
    each_row; cbn [fst snd option_kind]; try (by apply keeps_nothing; cbn; auto); try (by apply always_allows_nothing);
    try (by eapply always_allows_tool); try (by eapply allows_script);
    try (by eapply allows_tool); try (by eapply denies_tool);
    try (cbn [bash_scope_option option_kind]; rewrite ?(allow_command_outcome _ _ Hp), ?deny_command_outcome, ?Hp by auto;
         first [by eapply allows_command|by eapply denies_command|by eapply denies_script]);
    destruct Hn as [(x&Ex&Nx) Hk]; destruct (web_fetch_deny_key_from_url url) as [k|] eqn:Ek; try done;
    first [rewrite (answered_domain _ _ _ _ Ex Nx); eapply allows_domain; [done|exact Ex|by rewrite Ex]
          |rewrite (answered_domain_deny _ _ _ _ Ek); by eapply denies_domain].
Qed.

(** A row does what its label says.  For every access, client and setting,
    when a row that is shown is chosen without further selection, what is
    remembered afterwards is exactly what the label names: the words shown, the
    tool called, the host, or nothing for the rows that speak of this call or
    this session; the rows of the plain clients store the script and the
    commands in it, the command shown or the tool. *)
Theorem label_names_grant access id o s edits : host_named access ->
  (id, o) ∈ build_options local_prompter access ->
  Promised access o s (answered s edits access (map_selected_outcome (build_options local_prompter access) id None access)).
Proof.
  intros Hn Ho. unfold map_selected_outcome. rewrite (proj2 (shown_get _ _ _ _ _ _) Ho).
  rewrite build_options_rows in Ho. apply shown_inv in Ho as [[= -> ->]|[Ho _]].
  - destruct access; apply keeps_nothing; by left.
  - pose proof (base_promised (client_type cfg) access s edits Hn) as P. rewrite List.Forall_forall in P.
    apply (P (id, o)). by apply list_elem_of_In.
Qed.

(** *** The hub *)

(** C10: the hub fails closed.  A request that is put to the hub is allowed only
    when the transport delivered a reply whose outcome is one of the two words,
    or of the two numbers, for approval; a lost server, a timeout, an unknown
    or missing outcome, a refusal and a cancellation never allow it. *)
Theorem hub_fails_closed transport access call ask :
  user_allows (request_permission_via_hub transport access call ask) = true ->
  exists reply v, transport (build_permission_payload access call ask) = Ok reply /\ get reply "outcome" = Some v /\
    (as_str v = Some "approve" \/ as_str v = Some "always_approve" \/
     as_str v = None /\ (value_as_i64 v = Some 1%Z \/ value_as_i64 v = Some 3%Z)).
Proof.
  unfold request_permission_via_hub. destruct (transport _) as [reply|e]; [|done]. intros H. exists reply.
  assert (K : reply_word reply = "approve" \/ reply_word reply = "always_approve").
  { unfold reply_to_outcome in H. destruct (String.eqb_spec (reply_word reply) "approve"); [by left|].
    destruct (String.eqb_spec (reply_word reply) "always_approve"); [by right|]. exfalso.
    destruct (_ =s? "reject"); [|destruct (_ =s? "always_reject"); [|destruct (_ =s? "cancelled")]]; repeat case_match; done. }
  unfold reply_word in K. destruct (get reply "outcome") as [v|]; [|by destruct K]. exists v. split_and!; [done..|].
  destruct (as_str v) as [t|]; [naive_solver|]. right. right. split; [done|].
  destruct (value_as_i64 v) as [z|]; [|by destruct K]. destruct z as [|[[]|[]|]|]; try (by destruct K); auto;
    repeat case_match; by destruct K.
Qed.
End together.

(** ** Samples *)

Module PrompterSample.
#[local] Existing Instances Sample.one_command Sample.prefix_glob Sample.no_urls Sample.ascii_lower Tree.serde
  FileSample.plain_files TomlSample.toml ActorSample.root_path ActorSample.no_tilde ActorSample.no_repository.
#[local] Instance ascii_upper : UnicodeUpper := fun s =>
  match s with
  | String c s' => String (if in_range 97 122 c then ascii_of_N (N_of_ascii c - 32) else c) s'
  | EmptyString => ""
  end.
#[local] Instance tree_int : SerdeInt := fun v =>
  match v with GenLeaf (inr z) => if ((i64_min <=? z) && (z <=? i64_max))%Z then Some z else None | _ => None end.

Definition setup (c : ClientType) (remember : bool) : ManagerConfig :=
  MkManager (MkStoreDirs "/s" None) "/w" c None [] false None remember None.
Definition picks (id : string) : PermissionQuestion -> result string PermissionResponse :=
  fun _ => Ok (MkResponse (ReplySelected id) None).
Definition hooked : PermissionRequest Value := ActorSample.ask (Bash "ls") (Some ActorSample.hook).
Definition answer (cfg : ManagerConfig) (id : string) : Surroundings :=
  ActorSample.calm (request (manager_prompter "s" cfg None) (picks id) (rq_access hooked) (tool_call_id hooked) None None
    (PermActor.hook_ask hooked)).
Definition start : Actor Value := ActorSample.fresh PermissionState_default false None.

Example titles : mcp_pretty_name_if_qualified "linear__list_issues" = "(Linear) List Issues" /\
  mcp_titleize_segment "getMyTaskList" = "GetMyTaskList".
Proof. vm_compute. done. Qed.

Example rows_of_a_command :
  fst <$> build_options (manager_prompter "s" (setup GrokPager true) None) (Bash "cargo test") =
    ["enable-always-approve"; "allow-always-command"; "allow-once"; "reject-once"; "reject-always-command"] /\
  fst <$> build_options (manager_prompter "s" (setup GrokPager false) None) (Bash "cargo test") =
    ["enable-always-approve"; "allow-once"; "reject-once"].
Proof. vm_compute. done. Qed.

Definition once : PermissionOption := MkOption "allow-once" "Yes, proceed" KAllowOnce None.
Definition never : PermissionOption :=
  (bash_scope_option "reject-always-command" "Never allow:" KRejectAlways (MkHighlights [] ["cargo"; "test"] [])).2.

Lemma chosen_row_decides_witness :
  h_reply (handle_request None (setup GrokPager true) start hooked (answer (setup GrokPager true) "allow-once") ∅) = Some DAllow.
Proof.
  apply (chosen_row_decides None (setup GrokPager true) "s" (picks "allow-once") None None start hooked
    (answer (setup GrokPager true) "allow-once") ∅); [exact eq_refl|vm_compute; reflexivity|].
  split; [exact eq_refl|]. exists "allow-once", None, once.
  split; [exact eq_refl|]. split; [|exact eq_refl]. apply ix_get_elem. vm_cast_no_check (eq_refl (Some once)).
Defined.

Lemma gate_off_remembers_nothing_witness :
  let h := handle_request None (setup GrokWeb false) start hooked (answer (setup GrokWeb false) "always-allow") ∅ in
  h_prompted h = true /\ state (h_actor h) = grants_before start hooked (answer (setup GrokWeb false) "always-allow") ∅.
Proof.
  split; [vm_compute; reflexivity|].
  apply (gate_off_remembers_nothing None (setup GrokWeb false) "s" (picks "always-allow") None None start hooked
    (answer (setup GrokWeb false) "always-allow") ∅); exact eq_refl.
Defined.

Lemma label_names_grant_witness :
  exists o, option_name o = "Never allow: cargo test" /\
    Promised (Bash "cargo test") o PermissionState_default
      (answered PermissionState_default false (Bash "cargo test")
        (map_selected_outcome (build_options (manager_prompter "s" (setup GrokPager true) None) (Bash "cargo test"))
           "reject-always-command" None (Bash "cargo test"))).
Proof.
  exists never. split; [reflexivity|].
  apply (label_names_grant (setup GrokPager true) "s" (Bash "cargo test") "reject-always-command"); [exact I|].
  apply ix_get_elem. vm_cast_no_check (eq_refl (Some never)).
Defined.

Definition approves : HookTransport := fun _ => Ok (VObject (map_insert "outcome" (VString "approve") map_new)).

Lemma hub_fails_closed_witness :
  exists reply v, approves (build_permission_payload (Bash "ls") "call" None) = Ok reply /\ get reply "outcome" = Some v /\
    (as_str v = Some "approve" \/ as_str v = Some "always_approve" \/
     as_str v = None /\ (value_as_i64 v = Some 1%Z \/ value_as_i64 v = Some 3%Z)).
Proof. apply (hub_fails_closed approves (Bash "ls") "call" None). vm_compute. reflexivity. Defined.

(** The row of the plain clients that promises not to ask again for shell
    commands grants this script only: the next command is asked for. *)
Theorem generic_row_covers_one_script :
  let cfg := setup GrokWeb true in
  let h := handle_request None cfg start hooked (answer cfg "always-allow") ∅ in
  option_name <$> ix_get (build_options (manager_prompter "s" cfg None) (rq_access hooked)) "always-allow" =
    Some "Yes, and don't ask again for bash commands" /\
  h_reply h = Some DAllow /\
  h_prompted (handle_request None cfg (h_actor h) (ActorSample.ask (Bash "cargo build") None) (answer cfg "reject-once") ∅) = true.
Proof. vm_compute. done. Qed.
End PrompterSample.
