(* ===== verification/PolicyUrl.v ===== *)
(** * [xai-grok-workspace], [permission/managed_policy/url_match.rs]

    How an entry of a managed policy matches the URL, the command or the name of
    an MCP server.  An allow entry is a grant and matches scheme, host, port and
    path one by one; a deny entry matches the host on any scheme and port.  The
    addresses are those of [std::net]; the [url] and [glob] crates are
    parameters.  The file shows that neither kind can be dodged by another
    spelling of a path, that deny entries do not fail open and that the
    warnings about entries that can never match are right. *)

From S2P Require Import Prelude RustStr BashCommand PermPolicy ExecRisk.

(** ** [std::net] *)

(** The octets of an IPv4 address, the segments of an IPv6 address. *)
Inductive IpAddr : Type := V4 (octets : list Z) | V6 (segments : list Z).

#[export] Instance IpAddr_eq_dec : EqDecision IpAddr.
Proof. solve_decision. Defined.

(** [char::to_digit] *)
Definition to_digit (radix : Z) (c : ascii) : option Z :=
  let v := if in_range 48 57 c then (byte_val c - 48)%Z
           else if in_range 97 102 c then (byte_val c - 87)%Z
           else if in_range 65 70 c then (byte_val c - 55)%Z else 36%Z in
  if (v <? radix)%Z then Some v else None.

(** The digits at the front: their number, their value, what follows. *)
Fixpoint read_digits (radix : Z) (n : nat) (acc : Z) (s : string) : nat * Z * string :=
  match s with
  | String c s' => match to_digit radix c with
                   | Some d => read_digits radix (S n) (acc * radix + d) s'
                   | None => (n, acc, s)
                   end
  | EmptyString => (n, acc, s)
  end.

(** [Parser::read_number] *)
Definition read_number (radix max : Z) (max_digits : nat) (allow_zero_prefix : bool) (s : string) : option (Z * string) :=
  let '(count, value, rest) := read_digits radix 0 0 s in
  let has_leading_zero := starts_with "0" s in
  if (max_digits <? count)%nat || (count =? 0)%nat then None
  else if negb allow_zero_prefix && has_leading_zero && (1 <? count)%nat then None
  else if (value <=? max)%Z then Some (value, rest) else None.

(** [Parser::read_separator] *)
Definition read_separator {A} (sep : string) (index : nat) (inner : string -> option (A * string)) (s : string) : option (A * string) :=
  match index with O => inner s | S _ => strip_prefix sep s ≫= inner end.

(** [Parser::read_ipv4_addr] *)
Definition read_ipv4_addr (s : string) : option (list Z * string) :=
  let octet i := read_separator "." i (read_number 10 u8_max 3 false) in
  '(a, s) ← octet 0%nat s; '(b, s) ← octet 1%nat s; '(c, s) ← octet 2%nat s; '(d, s) ← octet 3%nat s;
  Some ([a; b; c; d], s).

(** [read_groups]: the groups read, whether they end in an IPv4 address, and
    what follows; [n] places are left after the first [i]. *)
Fixpoint read_groups (n i : nat) (s : string) : list Z * bool * string :=
  match n with
  | O => ([], false, s)
  | S n' =>
      let ipv4 := match n' with O => None | S _ => read_separator ":" i read_ipv4_addr s end in
      match ipv4 with
      | Some ([a; b; c; d], s) => ([a * 256 + b; c * 256 + d]%Z, true, s)
      | _ =>
          match read_separator ":" i (read_number 16 u16_max 4 true) s with
          | Some (g, s) => let '(gs, v4, s) := read_groups n' (S i) s in (g :: gs, v4, s)
          | None => ([], false, s)
          end
      end
  end.

(** [Ipv6Addr::from_str] *)
Definition parse_ipv6 (s : string) : option (list Z) :=
  let '(head, head_ipv4, s) := read_groups 8 0 s in
  let '(segments, s) :=
    if (length head =? 8)%nat then (Some head, s)
    else if head_ipv4 then (None, s)
    else match strip_prefix "::" s with
         | None => (None, s)
         | Some s =>
             let '(tail, _, s) := read_groups (8 - (length head + 1)) 0 s in
             (Some (head ++ replicate (8 - length head - length tail) 0%Z ++ tail), s)
         end in
  if is_empty s then segments else None.

Definition ipv4_to_string (octets : list Z) : string := join "." (dec <$> octets).

(** [Ipv6Addr::to_ipv4_mapped] *)
Definition to_ipv4_mapped (segments : list Z) : option (list Z) :=
  match segments with
  | [0; 0; 0; 0; 0; 65535; a; b]%Z => Some [a / 256; a mod 256; b / 256; b mod 256]%Z
  | _ => None
  end.

(** [IpAddr::to_canonical] *)
Definition to_canonical (a : IpAddr) : IpAddr :=
  match a with
  | V4 _ => a
  | V6 segments => match to_ipv4_mapped segments with Some octets => V4 octets | None => a end
  end.

(** The longest run of zero segments, the first of several: start and length. *)
Fixpoint longest_zeroes (i : nat) (current longest : nat * nat) (segments : list Z) : nat * nat :=
  match segments with
  | [] => longest
  | g :: segments' =>
      if (g =? 0)%Z then
        let current := (if (current.2 =? 0)%nat then i else current.1, S current.2) in
        longest_zeroes (S i) current (if (longest.2 <? current.2)%nat then current else longest) segments'
      else longest_zeroes (S i) (0, 0)%nat longest segments'
  end.

Definition segments_to_string (segments : list Z) : string := join ":" ((fun g => hex (Z.to_N g)) <$> segments).

(** [Display] of an [Ipv6Addr] *)
Definition ipv6_to_string (segments : list Z) : string :=
  match to_ipv4_mapped segments with
  | Some octets => "::ffff:" +:+ ipv4_to_string octets
  | None =>
      let '(start, n) := longest_zeroes 0 (0, 0)%nat (0, 0)%nat segments in
      if (1 <? n)%nat
      then segments_to_string (take start segments) +:+ "::" +:+ segments_to_string (drop (start + n) segments)
      else segments_to_string segments
  end.

Definition ip_to_string (a : IpAddr) : string := match a with V4 o => ipv4_to_string o | V6 s => ipv6_to_string s end.

Example ipv6_samples :
  parse_ipv6 "2001:db8::1" = Some [8193; 3512; 0; 0; 0; 0; 0; 1]%Z /\
  parse_ipv6 "::ffff:10.0.0.1" = Some [0; 0; 0; 0; 0; 65535; 2560; 1]%Z /\
  parse_ipv6 "1:2:3:4:5:6:7:8:9" = None /\ parse_ipv6 "::12345" = None /\ parse_ipv6 "1::2::3" = None /\
  ipv6_to_string [8193; 3512; 0; 0; 0; 0; 0; 1]%Z = "2001:db8::1" /\ ipv6_to_string [0; 0; 0; 0; 0; 0; 0; 1]%Z = "::1" /\
  ipv6_to_string [0; 0; 0; 0; 0; 65535; 2560; 1]%Z = "::ffff:10.0.0.1".
Proof. vm_compute. done. Qed.

(** [str::parse::<u16>] *)
Definition parse_u16 : string -> option Z := parse_unsigned u16_max.

(** ** The [url] crate *)

Inductive Host : Type := HDomain (d : string) | HIpv4 (octets : list Z) | HIpv6 (segments : list Z).

(** [Url::scheme], [host], [port] (absent when it is the default one) and [path]. *)
Record ParsedUrl : Type := MkUrl { pu_scheme : string; pu_host : option Host; pu_port : option Z; pu_path : string }.

Class UrlParser := { whatwg_parse : string -> option ParsedUrl; host_parse : string -> option Host }.

(** The part of a string after the last [c]: [rsplit(c).next()]. *)
Definition after_last (c : ascii) (s : string) : string := match rsplit_once c s with Some (_, r) => r | None => s end.

Definition is_ascii (s : string) : bool := sall (fun c => (byte_val c <? 128)%Z) s.
Definition is_glob_char (c : ascii) : bool := byte_eqb c "*" || byte_eqb c "?" || byte_eqb c "[".
Definition has_glob (s : string) : bool := sany is_glob_char s.

(** ** Paths *)

(** The split at the first slash: [find('/')] and two slices. *)
Definition split_authority_path (s : string) : string * string :=
  match split_once "/" s with Some (a, p) => (a, "/" +:+ p) | None => (s, "") end.

Definition unreserved (b : ascii) : bool :=
  is_ascii_alphanumeric b || byte_eqb b "-" || byte_eqb b "." || byte_eqb b "_" || byte_eqb b "~".

Definition to_ascii_upper (c : ascii) : ascii := if in_range 97 122 c then ascii_of_N (N_of_ascii c - 32) else c.

Fixpoint decode_unreserved_escapes (path : string) : string :=
  match path with
  | String c (String h (String l rest) as path') =>
      if byte_eqb c "%" then
        match to_digit 16 h, to_digit 16 l with
        | Some hi, Some lo =>
            let decoded := ascii_of_N (Z.to_N (hi * 16 + lo)) in
            if unreserved decoded then String decoded (decode_unreserved_escapes rest)
            else String "%" (String (to_ascii_upper h) (String (to_ascii_upper l) (decode_unreserved_escapes rest)))
        | _, _ => String c (decode_unreserved_escapes path')
        end
      else String c (decode_unreserved_escapes path')
  | String c path' => String c (decode_unreserved_escapes path')
  | EmptyString => ""
  end.

(** One segment; the last one first. *)
Definition dot_step (out : list string) (seg : string) : list string :=
  if seg =s? "." then out
  else if seg =s? ".." then (if (1 <? length out)%nat then drop 1 out else out)
  else seg :: out.

Definition resolve_pattern_dot_segments (path : string) : string :=
  if negb (contains_str "/." path) then path
  else
    let last := after_last "/" path in
    let ends_dir := (last =s? ".") || (last =s? "..") in
    let joined := join "/" (rev (foldl dot_step [] (split_char "/" path))) in
    let joined := if is_empty joined then "/" else joined in
    if ends_dir && negb (ends_with "/" joined) then joined +:+ "/" else joined.

Definition needs_encoding (b : ascii) : bool :=
  (128 <=? byte_val b)%Z || (byte_val b <? 32)%Z || byte_eqb b " " || (byte_val b =? 34)%Z || byte_eqb b "#"
  || byte_eqb b "<" || byte_eqb b ">" || byte_eqb b "`" || byte_eqb b "{" || byte_eqb b "}" || (byte_val b =? 127)%Z.

Definition hex_upper (n : Z) : ascii := ascii_of_N (Z.to_N (if (n <? 10)%Z then n + 48 else n + 55)).

Fixpoint encode_path (path : string) : string :=
  match path with
  | EmptyString => ""
  | String b path' =>
      if needs_encoding b
      then String "%" (String (hex_upper (byte_val b / 16)) (String (hex_upper (byte_val b mod 16)) (encode_path path')))
      else String b (encode_path path')
  end.

Definition canonicalize_pattern_path (path : string) : string :=
  let path := resolve_pattern_dot_segments (decode_unreserved_escapes path) in
  if negb (sany needs_encoding path) then path else encode_path path.

(** [after_slash]: the output so far ends in a slash. *)
Fixpoint collapse_from (after_slash : bool) (path : string) : string :=
  match path with
  | EmptyString => ""
  | String c path' =>
      if byte_eqb c "/" && after_slash then collapse_from after_slash path'
      else String c (collapse_from (byte_eqb c "/") path')
  end.
Definition collapse_empty_segments (path : string) : string := collapse_from false path.

Section matching.
Context `{G : GlobCrate} `{U : UrlParser}.

(** ** Hosts *)

Definition canonicalize_label (label : string) : string :=
  if has_glob label || (is_ascii label && negb (contains_byte "%" label)) then to_ascii_lowercase label
  else match host_parse label with
       | Some (HDomain canonical) => canonical
       | _ => to_ascii_lowercase label
       end.

Definition canonicalize_pattern_host (host : string) : string :=
  let host := trim_end_matches "." host in
  if is_ascii host && negb (contains_byte "%" host) then to_ascii_lowercase host
  else join "." (canonicalize_label <$> split_char "." host).

Definition parse_ip_host (host : string) : option IpAddr :=
  let addr := match parse_ipv6 host with
              | Some v6 => Some (V6 v6)
              | None => match host_parse host with
                        | Some (HIpv4 a) => Some (V4 a)
                        | Some (HIpv6 a) => Some (V6 a)
                        | _ => None
                        end
              end in
  to_canonical <$> addr.

(** The host and the path of a pattern, without scheme, user and port. *)
Definition split_host_path (s : string) : option string * string :=
  let after_scheme := match split_once "://" s with Some (_, r) => r | None => s end in
  let '(authority, path) := split_authority_path after_scheme in
  let authority := after_last "@" authority in
  let bracket_ipv6 :=
    rest ← strip_prefix "[" authority;
    let content := match split_once "]" rest with Some (c, _) => c | None => rest end in
    then_some (is_some (parse_ipv6 content)) content in
  let host :=
    match bracket_ipv6 with
    | Some content => content
    | None =>
        match (match rsplit_once ":" authority with
               | Some (before_port, port) =>
                   then_some (negb (is_empty port) && sall is_ascii_digit port && is_some (parse_u16 port)
                              && is_some (parse_ipv6 before_port)) before_port
               | None => None
               end) with
        | Some before_port => before_port
        | None => if is_some (parse_ipv6 authority) then authority
                  else match split_once ":" authority with Some (h, _) => h | None => authority end
        end
    end in
  let host := to_ascii_lowercase (trim_end_matches "." host) in
  (then_some (negb (is_empty host)) host, path).

(** ** The URL of a server *)

Record RuntimeUrl : Type := MkRuntime { rt_scheme : string; rt_host : Host; rt_port : option Z; rt_path : string }.

Definition runtime_parse (url : string) : option RuntimeUrl :=
  parsed ← whatwg_parse url;
  host ← pu_host parsed;
  Some (MkRuntime (pu_scheme parsed) host (pu_port parsed) (decode_unreserved_escapes (pu_path parsed))).

Definition host_text (r : RuntimeUrl) : string :=
  match rt_host r with
  | HDomain d => to_ascii_lowercase (trim_end_matches "." d)
  | HIpv4 a => ipv4_to_string a
  | HIpv6 a => ipv6_to_string a
  end.

Definition runtime_authority (r : RuntimeUrl) : string :=
  let host := match rt_host r with HIpv6 a => "[" +:+ ipv6_to_string a +:+ "]" | _ => host_text r end in
  match rt_port r with Some port => host +:+ ":" +:+ dec port | None => host end.

Definition scheme_default_port (scheme : string) : option string :=
  if (scheme =s? "http") || (scheme =s? "ws") then Some "80"
  else if (scheme =s? "https") || (scheme =s? "wss") then Some "443" else None.

Definition POLICY_GLOB_OPTS : MatchOptions := MkMatchOptions false false false.
Definition ALLOW_PATH_GLOB_OPTS : MatchOptions := MkMatchOptions true false false.

(** ** Allow entries *)

Definition SUPPORTED_REMOTE_SCHEMES : list string := ["http"; "https"].

Inductive AllowScheme : Type := SchemeAny | SchemeLiteral (scheme : string) | SchemeNever.

Definition AllowScheme_new (scheme : string) : AllowScheme :=
  if scheme =s? "*" then SchemeAny else if is_empty scheme || has_glob scheme then SchemeNever else SchemeLiteral scheme.

Definition scheme_matches (self : AllowScheme) (runtime_scheme : string) : bool :=
  match self with
  | SchemeAny => existsb (fun s => eq_ignore_ascii_case s runtime_scheme) SUPPORTED_REMOTE_SCHEMES
  | SchemeLiteral scheme => eq_ignore_ascii_case scheme runtime_scheme
  | SchemeNever => false
  end.

Inductive AllowAuthority : Type := BracketedIpv6 (authority : string) | HostPort (host : option Pattern) (port : option string).
Inductive AllowPath : Type := PathAny | PathGlob (p : Pattern) | PathNever.

Definition AllowPath_new (canonical : string) : AllowPath :=
  if is_empty canonical || (canonical =s? "/") then PathAny
  else match Pattern_new canonical with Some p => PathGlob p | None => PathNever end.

Definition allow_path_matches (self : AllowPath) (url_path : string) : bool :=
  match self with
  | PathAny => true
  | PathGlob p => matches_with p url_path ALLOW_PATH_GLOB_OPTS
  | PathNever => false
  end.

Definition split_scheme (s : string) : option string * string :=
  match split_once "://" s with Some (scheme, rest) => (Some scheme, rest) | None => (None, s) end.

Definition is_bracketed_ipv6 (authority : string) : bool :=
  match (rest ← strip_prefix "[" authority; split_once "]" rest) with
  | Some (addr, _) => is_some (parse_ipv6 addr)
  | None => false
  end.

Record AllowPatternParts : Type := MkParts {
  pp_scheme : option string; pp_authority : string; pp_bracketed : bool; pp_host : string; pp_port : option string;
  pp_path : string }.

Definition split_allow_pattern (pattern : string) : AllowPatternParts :=
  let '(scheme, rest) := split_scheme pattern in
  let '(authority, path) := split_authority_path rest in
  let authority := after_last "@" authority in
  let bracketed := is_bracketed_ipv6 authority in
  let '(host, port) :=
    if bracketed then (authority, None)
    else match rsplit_once ":" authority with Some (h, p) => (h, Some p) | None => (authority, None) end in
  MkParts scheme authority bracketed host port path.

Record CompiledAllow : Type := MkAllow { al_scheme : AllowScheme; al_authority : AllowAuthority; al_path : AllowPath }.
Definition AllowUrlMatcher : Type := option CompiledAllow.

Definition AllowUrlMatcher_new (pattern : string) : AllowUrlMatcher :=
  let parts := split_allow_pattern pattern in
  scheme ← pp_scheme parts;
  let authority := if pp_bracketed parts then BracketedIpv6 (pp_authority parts)
                   else HostPort (Pattern_new (canonicalize_pattern_host (pp_host parts))) (pp_port parts) in
  Some (MkAllow (AllowScheme_new scheme) authority (AllowPath_new (canonicalize_pattern_path (pp_path parts)))).

Definition strip_pattern_default_port (authority scheme : string) : string :=
  match scheme_default_port scheme ≫= parse_u16 with
  | None => authority
  | Some default =>
      match rsplit_once ":" authority with
      | Some (host, port) => if ends_with "]" host && bool_decide (parse_u16 port = Some default) then host else authority
      | None => authority
      end
  end.

(** An address in brackets and what follows it. *)
Definition parse_bracketed (authority : string) : option (list Z * string) :=
  rest ← strip_prefix "[" authority;
  '(content, suffix) ← split_once "]" rest;
  addr ← parse_ipv6 content;
  Some (addr, suffix).

Definition ports_equal (a b : string) : bool :=
  match parse_u16 <$> strip_prefix ":" a, parse_u16 <$> strip_prefix ":" b with
  | Some (Some pa), Some (Some pb) => (pa =? pb)%Z
  | _, _ => a =s? b
  end.

Definition ipv6_authorities_equal (a b : string) : bool :=
  match parse_bracketed a, parse_bracketed b with
  | Some (addr_a, port_a), Some (addr_b, port_b) => bool_decide (addr_a = addr_b) && ports_equal port_a port_b
  | _, _ => eq_ignore_ascii_case a b
  end.

Definition allow_port_ok (port : option string) (r : RuntimeUrl) : bool :=
  match port, rt_port r with
  | None, None => true
  | None, Some _ => false
  | Some p, Some port => bool_decide (parse_u16 p = Some port)
  | Some p, None => match scheme_default_port (rt_scheme r) with
                    | Some default => bool_decide (parse_u16 p = parse_u16 default)
                    | None => false
                    end
  end.

Definition authority_matches (self : AllowAuthority) (r : RuntimeUrl) : bool :=
  match self with
  | BracketedIpv6 pat_authority =>
      ipv6_authorities_equal (strip_pattern_default_port pat_authority (rt_scheme r)) (runtime_authority r)
  | HostPort host port =>
      match host with Some h => matches_with h (host_text r) POLICY_GLOB_OPTS | None => false end && allow_port_ok port r
  end.

Definition allow_matches (self : AllowUrlMatcher) (url : string) : bool :=
  match self with
  | None => false
  | Some compiled =>
      match runtime_parse url with
      | None => false
      | Some r => scheme_matches (al_scheme compiled) (rt_scheme r) && authority_matches (al_authority compiled) r
                  && allow_path_matches (al_path compiled) (rt_path r)
      end
  end.

(** ** Deny entries *)

Inductive DenyHost : Type := DHostGlob (p : Pattern) | DHostLiteral (host : string).
Inductive DenyPath : Type := HostOnly | DPathGlob (p : Pattern) | DPathBroken.
Record CompiledDeny : Type := MkDeny { dn_ip : option IpAddr; dn_host : DenyHost; dn_path : DenyPath; dn_pattern : string }.
Definition DenyUrlMatcher : Type := option CompiledDeny.

Definition DenyUrlMatcher_new (pattern : string) : DenyUrlMatcher :=
  match split_host_path pattern with
  | (None, _) => None
  | (Some pat_host, pat_path) =>
      let canonical_host := canonicalize_pattern_host pat_host in
      let host := match Pattern_new canonical_host with Some p => DHostGlob p | None => DHostLiteral canonical_host end in
      let pat_path := collapse_empty_segments (canonicalize_pattern_path pat_path) in
      let path := if is_empty pat_path || (pat_path =s? "/") then HostOnly
                  else match Pattern_new pat_path with Some p => DPathGlob p | None => DPathBroken end in
      Some (MkDeny (parse_ip_host pat_host) host path pattern)
  end.

Definition deny_host_matches (compiled : CompiledDeny) (url_host : string) : bool :=
  match dn_ip compiled, parse_ip_host url_host with
  | Some pat_ip, Some url_ip => bool_decide (pat_ip = url_ip)
  | _, _ =>
      match dn_host compiled with
      | DHostGlob p => matches_with p url_host POLICY_GLOB_OPTS
      | DHostLiteral canonical => eq_ignore_ascii_case canonical url_host
      end
  end.

Definition deny_path_matches (p : DenyPath) (path : string) : bool :=
  match p with
  | HostOnly => true
  | DPathGlob p => matches_with p (collapse_empty_segments path) POLICY_GLOB_OPTS
  | DPathBroken => true
  end.

Definition deny_matches (self : DenyUrlMatcher) (url : string) : bool :=
  match self with
  | None => false
  | Some compiled =>
      match runtime_parse url with
      | None => true
      | Some r => deny_host_matches compiled (host_text r) && deny_path_matches (dn_path compiled) (rt_path r)
      end
  end.

(** ** Entries that can never match *)

Definition dead_unicode_glob_label (host : string) : bool :=
  existsb (fun label => negb (is_ascii label) && has_glob label) (split_char "." host).

(** [warn_on_unmatchable_deny_url]: whether it warns. *)
Definition unmatchable_deny_url (pattern : string) : bool :=
  match (split_host_path pattern).1 with
  | None => true
  | Some host => negb (is_some (Pattern_new (canonicalize_pattern_host host))) || dead_unicode_glob_label host
  end.

(** The warnings of [warn_on_unmatchable_allow_url], by what they complain of. *)
Inductive AllowLint : Type :=
| NoScheme | DeadScheme | BadPort | NoHost | Ipv6NotCanonical (canonical : string) | Ipv6Unbracketed
| IpNotCanonical (canonical : string) | BrokenHostGlob | DeadUnicodeLabel.

Definition host_lint (host : string) : option AllowLint :=
  if is_empty host then Some NoHost
  else match parse_ipv6 host with
  | Some v6 => let canonical := ipv6_to_string v6 in then_some (negb (canonical =s? host)) (Ipv6NotCanonical canonical)
  | None =>
      if contains_byte ":" host && negb (has_glob host) then Some Ipv6Unbracketed
      else match ofilter (fun ip => negb (ip_to_string ip =s? host)) (parse_ip_host host) with
      | Some ip => Some (IpNotCanonical (ip_to_string ip))
      | None => if negb (is_some (Pattern_new (canonicalize_pattern_host host))) then Some BrokenHostGlob
                else then_some (dead_unicode_glob_label host) DeadUnicodeLabel
      end
  end.

Definition unmatchable_allow_url (pattern : string) : option AllowLint :=
  let parts := split_allow_pattern pattern in
  match AllowScheme_new <$> pp_scheme parts with
  | None => Some NoScheme
  | Some SchemeNever => Some DeadScheme
  | Some _ =>
      if pp_bracketed parts then
        let suffix := match split_once "]" (pp_authority parts) with Some (_, rest) => rest | None => "" end in
        let port_ok := is_empty suffix
                       || match strip_prefix ":" suffix with Some p => is_some (parse_u16 p) | None => false end in
        then_some (negb port_ok) BadPort
      else
        let host := trim_end_matches "." (pp_host parts) in
        if negb (contains_byte ":" host) && match pp_port parts with Some p => negb (is_some (parse_u16 p)) | None => false end
        then Some BadPort
        else host_lint host
  end.
End matching.

(** ** Spellings of a path *)

(** [Spells p s]: [p] is [s] with some of its unreserved characters written as
    escapes, in either case. *)
Inductive Spells : string -> string -> Prop :=
| spells_nil : Spells "" ""
| spells_plain c p s : byte_eqb c "%" = false -> Spells p s -> Spells (String c p) (String c s)
| spells_escape c h l hi lo p s : unreserved c = true -> to_digit 16 h = Some hi -> to_digit 16 l = Some lo ->
    byte_val c = (hi * 16 + lo)%Z -> Spells p s -> Spells (String "%" (String h (String l p))) (String c s).

Lemma decode_plain c p : byte_eqb c "%" = false -> decode_unreserved_escapes (String c p) = String c (decode_unreserved_escapes p).
Proof. intros H. destruct p as [|h [|l p]]; [done..|]. cbn [decode_unreserved_escapes]. by rewrite H. Qed.

Lemma ascii_of_byte_val c : ascii_of_N (Z.to_N (byte_val c)) = c.
Proof. unfold byte_val. by rewrite N2Z.id, Stdlib.Strings.Ascii.ascii_N_embedding. Qed.

Lemma decode_spells p s : Spells p s -> decode_unreserved_escapes p = s.
Proof.
  induction 1 as [|c p s Hc _ IH|c h l hi lo p s Hu Hh Hl Hv _ IH]; [done| |].
  - by rewrite decode_plain, IH.
  - cbn [decode_unreserved_escapes]. replace (byte_eqb "%" "%") with true by done. rewrite Hh, Hl, <- Hv, ascii_of_byte_val, Hu.
    by rewrite IH.
Qed.

(** Two hosts and ports are the same, only the paths differ. *)
Definition same_target (u v : ParsedUrl) : Prop := pu_scheme u = pu_scheme v /\ pu_host u = pu_host v /\ pu_port u = pu_port v.

Section spelling.
Context `{G : GlobCrate} `{U : UrlParser}.

(** Another spelling of a path dodges no entry.  Two URLs of the same server
    whose paths spell the same text, with unreserved characters escaped or not,
    are granted by the same allow entries and denied by the same deny entries;
    for a deny entry the texts may also differ in repeated slashes. *)
Theorem spelling_cannot_dodge pattern url url' u u' t t' :
  whatwg_parse url = Some u -> whatwg_parse url' = Some u' -> same_target u u' ->
  Spells (pu_path u) t -> Spells (pu_path u') t' -> collapse_empty_segments t = collapse_empty_segments t' ->
  deny_matches (DenyUrlMatcher_new pattern) url = deny_matches (DenyUrlMatcher_new pattern) url' /\
  (t = t' -> allow_matches (AllowUrlMatcher_new pattern) url = allow_matches (AllowUrlMatcher_new pattern) url').
Proof.
  intros Hu Hu' (S1&S2&S3) Ht Ht' Hc. unfold deny_matches, allow_matches, runtime_parse. rewrite Hu, Hu'. cbn [mbind option_bind].
  rewrite <- S2. rewrite (decode_spells _ _ Ht), (decode_spells _ _ Ht'), <- S1, <- S3. split.
  - destruct (DenyUrlMatcher_new pattern) as [m|]; [|done]. destruct (pu_host u) as [h|]; [|done]. cbn. f_equal.
    unfold deny_path_matches. by rewrite Hc.
  - by intros ->.
Qed.

(** ** Deny entries do not fail open *)

(** What the documentation of [glob] says of a pattern without metacharacters. *)
Class GlobLiteral : Prop :=
  glob_literal : forall s, has_glob s = false -> exists p, Pattern_new s = Some p /\
    forall t o, matches_with p t o = if case_sensitive o then s =s? t else eq_ignore_ascii_case s t.

Lemma lower_idem c : lower (lower c) = lower c.
Proof. by destruct c as [[][][][][][][][]]. Qed.

Lemma to_lower_idem s : to_ascii_lowercase (to_ascii_lowercase s) = to_ascii_lowercase s.
Proof. induction s as [|c s IH]; cbn; [done|]. by rewrite lower_idem, IH. Qed.

Lemma eq_ignore_refl s : eq_ignore_ascii_case s s = true.
Proof. apply String.eqb_refl. Qed.

Lemma lower_dot c : byte_eqb "." (lower c) = byte_eqb "." c.
Proof. by destruct c as [[][][][][][][][]]. Qed.

Lemma sall_dot_lower s : sall (byte_eqb ".") (to_ascii_lowercase s) = sall (byte_eqb ".") s.
Proof. induction s as [|c s IH]; [done|]. cbn [to_ascii_lowercase sall]. by rewrite lower_dot, IH. Qed.

Lemma trim_dots_lower s : trim_end_matches "." (to_ascii_lowercase s) = to_ascii_lowercase (trim_end_matches "." s).
Proof.
  induction s as [|c s IH]; [done|]. pose proof (sall_dot_lower (String c s)) as E. cbn [to_ascii_lowercase trim_end_matches] in *.
  rewrite E, IH. clear E. by destruct (sall _ (String c s)).
Qed.

Lemma sall_trim c s : sall (byte_eqb c) (trim_end_matches c s) = true -> sall (byte_eqb c) s = true.
Proof.
  induction s as [|a s IH]; [done|]. cbn [trim_end_matches]. destruct (sall (byte_eqb c) (String a s)) eqn:E; [done|].
  cbn [sall] in *. intros [A H%IH]%andb_true_iff. by rewrite A, H in E.
Qed.

Lemma trim_matches_idem c s : trim_end_matches c (trim_end_matches c s) = trim_end_matches c s.
Proof.
  induction s as [|a s IH]; [done|]. cbn [trim_end_matches]. destruct (sall (byte_eqb c) (String a s)) eqn:E; [done|].
  cbn [trim_end_matches]. destruct (sall (byte_eqb c) (String a (trim_end_matches c s))) eqn:E'; [|by rewrite IH].
  cbn [sall] in *. apply andb_true_iff in E' as [A B%sall_trim]. by rewrite A, B in E.
Qed.

(** The host of a pattern is in lower case and has no dots at its end. *)
Lemma split_host_normal pattern h path : split_host_path pattern = (Some h, path) ->
  to_ascii_lowercase h = h /\ trim_end_matches "." h = h.
Proof.
  unfold split_host_path. destruct (split_authority_path _) as [a p]. intros [= E _]. apply then_some_some in E as [_ <-].
  by rewrite to_lower_idem, trim_dots_lower, trim_matches_idem.
Qed.

(** The host of an entry is plain text, and its path is the root. *)
Definition plain_host_entry (pattern h : string) : Prop :=
  exists path, split_host_path pattern = (Some h, path) /\ is_ascii h = true /\ contains_byte "%" h = false /\ has_glob h = false /\
    let p := collapse_empty_segments (canonicalize_pattern_path path) in is_empty p || (p =s? "/") = true.

(** A deny entry does not fail open.  An entry that names a host denies every
    URL that reaches it, whatever the scheme, the port, the path and the
    spelling of the host as an address; and a URL that cannot be parsed is
    denied by every entry that has a host. *)
Theorem deny_never_open `{!GlobLiteral} pattern h url : plain_host_entry pattern h ->
  (forall r, runtime_parse url = Some r -> host_text r = h \/
     (exists ip, parse_ip_host h = Some ip /\ parse_ip_host (host_text r) = Some ip)) ->
  deny_matches (DenyUrlMatcher_new pattern) url = true.
Proof.
  intros (path&Hs&Ha&Hp&Hg&Hr) Hh. destruct (split_host_normal _ _ _ Hs) as [Hl Ht].
  unfold deny_matches, DenyUrlMatcher_new. rewrite Hs. cbv zeta in Hr. rewrite Hr.
  destruct (runtime_parse url) as [r|]; [|done]. cbn [dn_path deny_path_matches]. rewrite andb_true_r.
  unfold deny_host_matches. cbn [dn_ip dn_host].
  assert (C : canonicalize_pattern_host h = h) by (unfold canonicalize_pattern_host; by rewrite Ht, Ha, Hp).
  rewrite C. destruct (glob_literal _ Hg) as (p&->&Hm). destruct (Hh r eq_refl) as [->|(ip&H1&H2)].
  - assert (M : matches_with p h POLICY_GLOB_OPTS = true) by (rewrite Hm; apply eq_ignore_refl).
    destruct (parse_ip_host h); [by rewrite bool_decide_true|done].
  - rewrite H1, H2. by rewrite bool_decide_true.
Qed.

(** ** Entries that can never match *)

Lemma canonicalize_host_trim host : canonicalize_pattern_host (trim_end_matches "." host) = canonicalize_pattern_host host.
Proof. unfold canonicalize_pattern_host. by rewrite trim_matches_idem. Qed.

Lemma bad_port_grants_nothing p r : parse_u16 p = None -> allow_port_ok (Some p) r = false.
Proof.
  intros E. unfold allow_port_ok. rewrite E. destruct (rt_port r); [by rewrite bool_decide_false|].
  unfold scheme_default_port. destruct (_ || _); [by vm_compute|]. by destruct (_ || _).
Qed.

(** The warnings whose ground is the text of the entry alone. *)
Definition textual_lint (l : AllowLint) : bool :=
  match l with NoScheme | DeadScheme | BadPort | BrokenHostGlob => true | _ => false end.

Lemma host_lint_broken host l : host_lint host = Some l -> textual_lint l = true ->
  is_some (Pattern_new (canonicalize_pattern_host host)) = false.
Proof.
  unfold host_lint. intros E Hl. repeat (case_match; simplify_eq/=; try done).
  - by apply then_some_some in E as [_ <-].
  - by apply negb_true_iff.
  - by apply then_some_some in E as [_ <-].
Qed.

(** The warnings are right.  When an allow entry without a bracketed address
    is reported as having no scheme, a scheme that cannot match, a port that is
    no number or a host pattern that does not compile, it grants no URL. *)
Theorem lint_is_right pattern l url : unmatchable_allow_url pattern = Some l -> textual_lint l = true ->
  pp_bracketed (split_allow_pattern pattern) = false -> allow_matches (AllowUrlMatcher_new pattern) url = false.
Proof.
  unfold unmatchable_allow_url, AllowUrlMatcher_new, allow_matches. set (parts := split_allow_pattern pattern).
  intros E Hl Hb. rewrite Hb in *. destruct (pp_scheme parts) as [sc|]; [|done]. cbn [fmap option_fmap option_map mbind option_bind] in *.
  destruct (runtime_parse url) as [r|]; [|done]. cbn [al_scheme al_authority al_path authority_matches].
  destruct (AllowScheme_new sc) as [|sch|]; [| |done].
  all: destruct (_ && match pp_port parts with Some _ => _ | None => _ end) eqn:P in E.
  1,3: apply andb_true_iff in P as [_ P]; destruct (pp_port parts) as [p|]; [|done]; rewrite bad_port_grants_nothing;
    [by rewrite !andb_false_r|by destruct (parse_u16 p)].
  all: apply host_lint_broken in E; [|done]; rewrite canonicalize_host_trim in E;
    destruct (Pattern_new (canonicalize_pattern_host (pp_host parts))); [done|by rewrite andb_false_r].
Qed.
End spelling.

(** ** Dot segments *)

Definition dot_segment (seg : string) : bool := (seg =s? ".") || (seg =s? "..").

Lemma dot_step_clean out seg : List.Forall (fun t => dot_segment t = false) out ->
  List.Forall (fun t => dot_segment t = false) (dot_step out seg).
Proof.
  intros H. unfold dot_step. destruct (seg =s? ".") eqn:E1; [done|]. destruct (seg =s? "..") eqn:E2.
  - destruct (1 <? length out)%nat; [|done]. destruct H; [by apply List.Forall_nil|done].
  - apply List.Forall_cons; [|done]. unfold dot_segment. by rewrite E1, E2.
Qed.

(** The first segment is kept: the path stays rooted. *)
Lemma dot_step_last out seg : out <> [] -> list.last (dot_step out seg) = list.last out /\ dot_step out seg <> [].
Proof.
  intros H. unfold dot_step. destruct (seg =s? "."); [done|]. destruct (seg =s? "..").
  - destruct (1 <? length out)%nat eqn:L; [|done]. apply Nat.ltb_lt in L. destruct out as [|a [|b out]]; [done|cbn in L; lia|done].
  - by destruct out.
Qed.

Lemma dot_fold segs out : List.Forall (fun t => dot_segment t = false) out -> out <> [] ->
  List.Forall (fun t => dot_segment t = false) (foldl dot_step out segs) /\ list.last (foldl dot_step out segs) = list.last out.
Proof.
  revert out. induction segs as [|seg segs IH]; intros out H N; [done|]. cbn [foldl].
  destruct (dot_step_last out seg N) as [L N']. destruct (IH (dot_step out seg)) as [I1 I2]; [by apply dot_step_clean|done|].
  split; [done|]. by rewrite I2.
Qed.

(** The segments a rooted path is left with: none is a dot segment, and the
    first one is the empty one before the root. *)
Lemma dot_segments_resolved path : let out := rev (foldl dot_step [] (split_char "/" ("/" +:+ path))) in
  List.Forall (fun t => dot_segment t = false) out /\ head out = Some "".
Proof.
  cbv zeta. assert (E : split_char "/" ("/" +:+ path) = "" :: split_char "/" path) by done. rewrite E. cbn [foldl].
  destruct (dot_fold (split_char "/" path) (dot_step [] "")) as [H L]; [by repeat constructor|done|].
  split; [by apply List.Forall_rev|]. revert L. generalize (foldl dot_step (dot_step [] "") (split_char "/" path)). clear.
  intros l L. change (list.last l = Some "") in L. apply list.last_Some in L as [l' ->]. by rewrite rev_app_distr.
Qed.

(** ** Samples *)

Module UrlSample.
(** Patterns without metacharacters. *)
#[local] Instance plain_glob : GlobCrate := {|
  Pattern := string; Pattern_new p := if has_glob p then None else Some p;
  matches_with p t o := if case_sensitive o then p =s? t else eq_ignore_ascii_case p t |}.

#[local] Instance plain_glob_literal : GlobLiteral.
Proof. intros s H. exists s. cbn. by rewrite H. Qed.

(** A parser for [https://] with a domain and a path. *)
#[local] Instance https_urls : UrlParser := {|
  whatwg_parse s := rest ← strip_prefix "https://" s; let '(a, p) := split_authority_path rest in
                    then_some (negb (is_empty a)) (MkUrl "https" (Some (HDomain a)) None (if is_empty p then "/" else p));
  host_parse s := Some (HDomain s) |}.

Example resolved : canonicalize_pattern_path "/x/../%61dmin/." = "/admin/" /\ canonicalize_pattern_path "/a b" = "/a%20b".
Proof. vm_compute. done. Qed.

Lemma spells_admin : Spells "/%61dmin" "/admin".
Proof.
  apply spells_plain; [done|]. eapply (spells_escape _ _ _ 6 1); [done..|]. repeat (apply spells_plain; [done|]). apply spells_nil.
Qed.

Lemma spelling_cannot_dodge_witness :
  deny_matches (DenyUrlMatcher_new "h.example/admin") "https://h.example/%61dmin" =
  deny_matches (DenyUrlMatcher_new "h.example/admin") "https://h.example/admin".
Proof.
  apply (spelling_cannot_dodge "h.example/admin" "https://h.example/%61dmin" "https://h.example/admin"
    (MkUrl "https" (Some (HDomain "h.example")) None "/%61dmin") (MkUrl "https" (Some (HDomain "h.example")) None "/admin")
    "/admin" "/admin"); [reflexivity|reflexivity|done|exact spells_admin| |reflexivity].
  repeat (apply spells_plain; [done|]). apply spells_nil.
Defined.

Lemma deny_never_open_witness : deny_matches (DenyUrlMatcher_new "http://u@H.example.:8080/") "https://h.example/x" = true.
Proof.
  apply (deny_never_open "http://u@H.example.:8080/" "h.example" "https://h.example/x").
  - exists "/". vm_compute. done.
  - intros r [= <-]. left. reflexivity.
Defined.

Lemma lint_is_right_witness :
  unmatchable_allow_url "h.example" = Some NoScheme /\ allow_matches (AllowUrlMatcher_new "h.example") "https://h.example/" = false.
Proof. split; [reflexivity|]. apply (lint_is_right "h.example" NoScheme "https://h.example/"); reflexivity. Defined.
End UrlSample.
