(* ===== verification/ClaudeSettings.v ===== *)
(** * [xai-grok-workspace], [permission/claude_settings.rs]

    The settings files of another assistant that are honoured: their permission
    rules, their default mode and the variables they set, and where the files
    are looked for.  A tree of files is the state the calls see.  The file shows
    that the walk up to the repository root ends and finds every directory on
    the way, that the most specific file wins a variable, and that an untrusted
    folder contributes nothing. *)

From stdpp Require Import gmap.
From S2P Require Import Prelude RustStr Json Paths PermRules BashCommand PermPolicy.

(** ** More of [serde_json] *)

(** The constructors of [Value]; a number has its text and, in range, its value
    as an [i64]. *)
Inductive JsonView {V M : Type} : Type :=
| JNull | JBool (b : bool) | JNumber (text : string) (i : option Z) | JString (s : string) | JArray (l : list V) | JObject (m : M).
Arguments JsonView : clear implicits.

Class SerdeView `{J : SerdeJson} := {
  view : Value -> JsonView Value Map;
  (** a map is iterated in its order *)
  map_entries : Map -> list (string * Value);
  value_eqb : Value -> Value -> bool }.

(** [JsonTypeName::type_of] *)
Definition type_of `{SerdeView} (v : Value) : string :=
  match view v with
  | JNull => "null" | JBool _ => "boolean" | JNumber _ _ => "number" | JString _ => "string" | JArray _ => "array"
  | JObject _ => "object"
  end.

(** ** The file system *)

Class Files := {
  is_file : string -> bool;                 (** [metadata(p).is_file()], [false] on an error *)
  path_exists : string -> bool;             (** [Path::exists] *)
  file_contents : string -> option string;  (** [read_to_string] *)
  home_dir : option string }.               (** [xai_dirs::home_dir] *)

(** ** Settings *)

Record ParsedPermissions : Type := MkParsedPermissions { pp_allow : list string; pp_deny : list string; pp_ask : list string }.

Record ClaudeSettings : Type := MkClaudeSettings {
  cs_permissions : option ParsedPermissions; cs_default_mode : option string;
  cs_additional_directories : option (list string); cs_env : option (gmap string string) }.

(** One list of rules: the rules that parse, the warnings for the others. *)
Definition parse_entries (action : RuleAction) (label : string) (entries : list string) : list PermissionRule * list string :=
  (filter_map (fun s => ok (parse_permission_rule s action)) entries,
   filter_map (fun s => match parse_permission_rule s action with
                        | Ok _ => None
                        | Err e => Some ("permissions." +:+ label +:+ ": " +:+ s +:+ " -- " +:+ RuleParseError_display e)
                        end) entries).

Definition into_permission_config (p : ParsedPermissions) : PermissionConfig * list string :=
  let '(ra, wa) := parse_entries RAllow "allow" (pp_allow p) in
  let '(rd, wd) := parse_entries RDeny "deny" (pp_deny p) in
  let '(rk, wk) := parse_entries RAsk "ask" (pp_ask p) in
  (PermissionConfig_new (ra ++ rd ++ rk), wa ++ wd ++ wk).

Section settings.
Context `{V : SerdeView}.

(** The nested key wins, also when it is no string. *)
Definition extract_default_mode (value : Value) : option string :=
  match (perms ← get value "permissions"; get perms "defaultMode") with
  | Some dm => as_str dm
  | None => get_str value "defaultMode"
  end.

Definition extract_additional_directories (value : Value) : option (list string) :=
  arr ← match (p ← get value "permissions"; get p "additionalDirectories") with
        | Some nested => as_array nested
        | None => get_array value "additionalDirectories"
        end;
  Some (filter_map as_str arr).

(** The strings of an array, with a warning for each other entry. *)
Fixpoint array_strings (i : nat) (arr : list Value) : list string * list string :=
  match arr with
  | [] => ([], [])
  | v :: arr' =>
      let '(strings, warnings) := array_strings (S i) arr' in
      match as_str v with
      | Some s => (s :: strings, warnings)
      | None => (strings, ("permissions array index " +:+ dec (Z.of_nat i) +:+ ": expected string, got " +:+ type_of v) :: warnings)
      end
  end.

Definition extract_string_array (value : option Value) : list string * list string :=
  match value with
  | None => ([], [])
  | Some v => match view v with
              | JArray arr => array_strings 0 arr
              | _ => ([], ["permissions field: expected array, got " +:+ type_of v])
              end
  end.

(** Numbers and booleans are turned into text. *)
Definition env_value (v : Value) : option string :=
  match view v with
  | JString s => Some s
  | JNumber text _ => Some text
  | JBool b => Some (if b then "true" else "false")
  | _ => None
  end.

Definition extract_string_map (value : option Value) : option (gmap string string) :=
  v ← value;
  match view v with
  | JObject obj =>
      let result := foldl (fun m '(key, val) => match env_value val with Some s => <[key := s]> m | None => m end) ∅ (map_entries obj) in
      if decide (result = ∅) then None else Some result
  | _ => None
  end.

Definition settings_of_value (value : Value) : ClaudeSettings :=
  let permissions :=
    p ← get value "permissions";
    let '(allow, _) := extract_string_array (get p "allow") in
    let '(deny, _) := extract_string_array (get p "deny") in
    let '(ask, _) := extract_string_array (get p "ask") in
    match allow, deny, ask with
    | [], [], [] => None
    | _, _, _ => Some (MkParsedPermissions allow deny ask)
    end in
  MkClaudeSettings permissions (extract_default_mode value) (extract_additional_directories value)
    (extract_string_map (get value "env")).

Definition load_claude_settings `{Fs : Files} (path : string) : option ClaudeSettings :=
  if negb (is_file path) then None
  else
    content ← file_contents path;
    value ← ok (from_str content);
    Some (settings_of_value value).
End settings.

(** ** Discovery *)

Section discovery.
Context `{F : FileSystem} `{Fs : Files}.

Definition claude_files (dir : string) : list string :=
  let claude_dir := push dir ".claude" in [push claude_dir "settings.local.json"; push claude_dir "settings.json"].

Definition global_claude_settings_paths : list string :=
  match home_dir with Some home => claude_files home | None => [] end.

Definition canonicalize_or_owned (path : string) : string := unwrap_or path (canonicalize path).

(** [trust::is_home_dir]; paths are compared by their components. *)
Definition is_home_dir (path : string) : bool :=
  match home_dir with Some home => path_same (canonicalize_or_owned path) (canonicalize_or_owned home) | None => false end.

(** [fuel] bounds the walk up; [ancestors_enough] shows that the length of the
    path is enough. *)
Fixpoint find_repo_root (fuel : nat) (current : string) : option string :=
  if path_exists (push current ".git") then Some current
  else match fuel, parent current with
       | S fuel, Some p => find_repo_root fuel p
       | _, _ => None
       end.

Fixpoint walk_to (fuel : nat) (repo_root current : string) : list string :=
  claude_files current ++
  if path_same current repo_root then []
  else match fuel, parent current with
       | S fuel, Some p => walk_to fuel repo_root p
       | _, _ => []
       end.

Definition collect_project_claude_paths (cwd : string) : list string :=
  let n := String.length cwd in
  let repo_root := unwrap_or cwd (ofilter (fun root => negb (is_home_dir root)) (find_repo_root n cwd)) in
  walk_to n repo_root cwd.

Definition find_claude_settings_paths (cwd : string) : list string :=
  collect_project_claude_paths cwd ++ global_claude_settings_paths.

Definition has_claude_compat (cwd : string) : bool := existsb path_exists (find_claude_settings_paths cwd).

Definition claude_settings_paths_for_trust (cwd : string) (project_trusted : bool) : list string :=
  if project_trusted then find_claude_settings_paths cwd else global_claude_settings_paths.

Definition path_present_or_uncertain (path : string) : bool :=
  match symlink_metadata path with Ok _ => true | Err NotFound => false | Err _ => true end.

Definition project_claude_settings_present (cwd : string) : bool :=
  existsb path_present_or_uncertain (collect_project_claude_paths cwd).

(** ** Environment variables *)

Context `{V : SerdeView}.

(** One file of the loop, from the least specific on. *)
Definition merge_env (merged : gmap string string) (path : string) : gmap string string :=
  match load_claude_settings path ≫= cs_env with Some env => env ∪ merged | None => merged end.

(** [marked]: the settings have been imported. *)
Definition load_claude_env_with_project (marked : bool) (cwd : string) (project_trusted : bool) : gmap string string :=
  if marked then ∅ else foldl merge_env ∅ (rev (claude_settings_paths_for_trust cwd project_trusted)).
End discovery.

(** ** The mark of an import *)

Class TomlTree := {
  TValue : Type;
  toml_parse : string -> option TValue;
  t_get : TValue -> string -> option TValue;
  t_as_bool : TValue -> option bool;
  t_as_str : TValue -> option string;
  t_as_array : TValue -> option (list TValue);
  t_as_table : TValue -> option (list (string * TValue)) }.

Definition is_claude_import_marked `{TomlTree} `{Files} (override : option string) (user_grok_home : option string) : bool :=
  if bool_decide (override = Some "1") then true
  else
    unwrap_or false
      (home ← user_grok_home;
       contents ← file_contents (push home "config.toml");
       value ← toml_parse contents;
       compat ← t_get value "claude_compat";
       imported ← t_get compat "imported";
       t_as_bool imported).

(** ** The walk up ends *)

Lemma join_split_char s : join "/" (split_char "/" s) = s.
Proof.
  induction s as [|a s IH]; [done|]. cbn [split_char]. destruct (split_char "/" s) as [|l ls] eqn:E; [by destruct s|].
  destruct (byte_eqb_spec a "/") as [->|N].
  - rewrite join_cons by done. by rewrite IH.
  - destruct ls as [|l' ls]; cbn [join] in *; by rewrite <- IH.
Qed.

Lemma join_app_length l r : r <> [] -> (String.length (join "/" l) + String.length (join "/" r) <= String.length (join "/" (l ++ r)))%nat.
Proof.
  intros Hr. induction l as [|a l IH]; [done|]. cbn [app]. rewrite (join_cons "/" a (l ++ r)) by (by destruct l).
  destruct l as [|b l]; [cbn [join app]|rewrite join_cons by done]; rewrite !length_sapp; cbn [String.length]; lia.
Qed.

Lemma join_split_length l r : l <> [] -> r <> [] -> (String.length (join "/" l) < String.length (join "/" (l ++ r)))%nat.
Proof.
  intros Hl Hr. induction l as [|a l IH]; [done|]. cbn [app]. rewrite (join_cons "/" a (l ++ r)) by (by destruct l).
  destruct l as [|b l]; [cbn [join app]; rewrite !length_sapp; cbn [String.length]; lia|].
  rewrite join_cons by done. rewrite !length_sapp. specialize (IH ltac:(done)). cbn [app] in *. lia.
Qed.

(** The pieces without the last one that gives a component. *)
Definition up (ps : list string) : list string := rev (skip_blank (drop 1 (skip_blank (rev ps)))).

Lemma skip_blank_suffix ps : exists l, ps = l ++ skip_blank ps /\ (forall t, t ∈ l -> body_component t = None).
Proof.
  induction ps as [|t ps (l&E&H)]; [by exists []; split; [done|intros t ?%elem_of_nil]|]. cbn [skip_blank].
  destruct (body_component t) eqn:B; [by exists []; split; [done|intros ? ?%elem_of_nil]|].
  exists (t :: l). split; [cbn; by rewrite <- E|]. intros u [->|Hu]%elem_of_cons; [done|by apply H].
Qed.

Lemma up_shorter ps : filter_map body_component ps <> [] -> (String.length (join "/" (up ps)) < String.length (join "/" ps))%nat.
Proof.
  intros N. unfold up. destruct (skip_blank_suffix (rev ps)) as (l&E&H).
  destruct (skip_blank (rev ps)) as [|t q] eqn:S.
  { exfalso. apply N. rewrite app_nil_r in E. assert (A : forall t, t ∈ ps -> body_component t = None).
    { intros t Ht. apply H. rewrite <- E. by rewrite list_elem_of_In, <- in_rev, <- list_elem_of_In. }
    clear -A. induction ps as [|t ps IH]; [done|]. cbn. rewrite A by apply list_elem_of_here.
    apply IH. intros u Hu. by apply A, list_elem_of_further. }
  change (drop 1 (t :: q)) with q. destruct (skip_blank_suffix q) as (m&Eq&_). set (kept := skip_blank q) in *.
  assert (P : ps = rev kept ++ (rev m ++ [t]) ++ rev l).
  { rewrite <- (rev_involutive ps), E, Eq. rewrite rev_app_distr. cbn [rev]. rewrite rev_app_distr. by rewrite <- !app_assoc. }
  assert (Bt : body_component t <> None).
  { clear -S. intros B. revert t q B S. induction (rev ps) as [|u us IH]; intros t q B; cbn; [done|].
    destruct (body_component u) eqn:Bu; [|by apply IH]. intros [= -> ->]. congruence. }
  assert (T : t <> "") by (by intros ->).
  destruct (rev kept) as [|k ks] eqn:K.
  - rewrite P. rewrite app_nil_l, <- app_assoc. pose proof (join_app_length (rev m) ([t] ++ rev l) ltac:(done)) as L.
    assert (L2 : (0 < String.length (join "/" ([t] ++ rev l)))%nat).
    { destruct (rev l) as [|x xs]; [by destruct t; [|cbn; lia]|].
      pose proof (join_app_length [t] (x :: xs) ltac:(done)) as L2. destruct t; [done|]. cbn [join String.length app] in L2 |- *. lia. }
    change (String.length (join "/" [])) with 0%nat. lia.
  - rewrite P. apply join_split_length; [done|]. intros X. apply app_eq_nil in X as [X _]. by apply app_eq_nil in X as [_ X].
Qed.

Lemma parent_shorter p q : parent p = Some q -> (String.length q < String.length p)%nat.
Proof.
  unfold parent, components. destruct (is_absolute p) eqn:A.
  - apply starts_with_iff in A as [r ->]. change (split_char "/" ("/" +:+ r)) with ("" :: split_char "/" r). cbn [filter_map].
    change (body_component "") with (@None Component). cbv iota. change (drop 1 ("" :: split_char "/" r)) with (split_char "/" r).
    change (rev (skip_blank (drop 1 (skip_blank (rev (split_char "/" r)))))) with (up (split_char "/" r)).
    destruct (filter_map body_component (split_char "/" r)) as [|c cs] eqn:E; [done|].
    intros H. assert (Q : q = "/" +:+ join "/" (up (split_char "/" r))).
    { destruct (list.last (RootDir :: c :: cs)) as [[]|]; by simplify_eq. }
    rewrite Q, !length_sapp. pose proof (up_shorter (split_char "/" r) ltac:(by rewrite E)) as L. rewrite join_split_char in L.
    cbn [String.length] in *. lia.
  - intros H. destruct (split_char "/" p) as [|t rest] eqn:S; [done|].
    assert (P : p = join "/" (t :: rest)) by (by rewrite <- S, join_split_char).
    change (rev (skip_blank (drop 1 (skip_blank (rev (t :: rest)))))) with (up (t :: rest)) in H.
    change (rev (skip_blank (drop 1 (skip_blank (rev rest))))) with (up rest) in H.
    destruct (String.eqb_spec t ".") as [->|N].
    + assert (H' : q = match skip_blank rest with [] => "" | _ => join "/" ("." :: up rest) end).
      { destruct (list.last _) as [[]|] in H; [done| | | |done]; destruct (skip_blank rest); congruence. }
      subst q. rewrite P. destruct (skip_blank rest) as [|u us] eqn:B.
      { destruct rest; [cbn; lia|]. rewrite join_cons, !length_sapp by done. change (String.length ".") with 1%nat. change (String.length "") with 0%nat. lia. }
      assert (F : filter_map body_component rest <> []).
      { clear -B. revert u us B. induction rest as [|v vs IH]; intros u us; cbn; [done|].
        destruct (body_component v); [done|]. apply IH. }
      pose proof (up_shorter rest F) as L. destruct rest as [|v vs]; [done|]. rewrite (join_cons "/" "." (v :: vs)) by done.
      destruct (up (v :: vs)) as [|w ws]; [|rewrite (join_cons "/" "." (w :: ws)) by done]; rewrite !length_sapp in *;
        change (String.length ".") with 1%nat; change (String.length "/") with 1%nat;
        [change (String.length (join "/" ["."])) with 1%nat|]; lia.
    + assert (F : filter_map body_component (t :: rest) <> []).
      { intros F. rewrite F in H. by destruct (t =s? ".") eqn:T in H; [apply String.eqb_eq in T|]. }
      assert (H' : q = join "/" (up (t :: rest))).
      { destruct (list.last _) as [[]|] in H; [done| | | |done]; destruct t as [|[[][][][][][][][]] [|]]; solve [by injection H as <-|done]. }
      subst q. rewrite P. by apply up_shorter.
Qed.

(** A directory on the way up from [p]; the walk stops where [stop] holds. *)
Inductive Climb (stop : string -> bool) (p : string) : string -> Prop :=
| climb_here : Climb stop p p
| climb_up d q : Climb stop p d -> stop d = false -> parent d = Some q -> Climb stop p q.

Lemma climb_cons stop p q d : stop p = false -> parent p = Some q -> Climb stop q d -> Climb stop p d.
Proof. intros S P. induction 1 as [|d e _ IH Sd Pd]; [eapply climb_up; [apply climb_here|done..]|by eapply climb_up]. Qed.

Lemma climb_inv stop p d : Climb stop p d -> d = p \/ exists q, stop p = false /\ parent p = Some q /\ Climb stop q d.
Proof.
  induction 1 as [|d e _ [->|(q&S&P&C)] Sd Pd]; [by left|right; exists e; split_and!; [done..|apply climb_here]|].
  right. exists q. split_and!; [done..|by eapply climb_up].
Qed.

Section walks.
Context `{F : FileSystem} `{Fs : Files}.

(** The root is the nearest directory above that holds [.git]. *)
Lemma find_repo_root_exact n p r : (String.length p <= n)%nat ->
  find_repo_root n p = Some r <-> Climb (fun d => path_exists (push d ".git")) p r /\ path_exists (push r ".git") = true.
Proof.
  revert p. induction n as [n IH] using (well_founded_induction Nat.lt_wf_0). intros p Hn.
  set (stop := fun d => path_exists (push d ".git")) in *.
  assert (E : find_repo_root n p = if stop p then Some p else match n, parent p with S n, Some q => find_repo_root n q | _, _ => None end)
    by (by destruct n). rewrite E. clear E. destruct (stop p) eqn:S.
  - split; [intros [= <-]; split; [apply climb_here|done]|]. intros [[->|(q&N&_)]%climb_inv _]; [done|congruence].
  - destruct (parent p) as [q|] eqn:P.
    + pose proof (parent_shorter _ _ P) as L. destruct n as [|n]; [lia|]. rewrite (IH n) by lia. split; intros [C H]; split; try done.
      * by eapply climb_cons.
      * apply climb_inv in C as [->|(q'&_&P'&C)]; [unfold stop in S; congruence|]. rewrite P in P'. by injection P' as ->.
    + destruct n; (split; [done|]); intros [[->|(q&_&P'&_)]%climb_inv H]; try congruence; unfold stop in S; congruence.
Qed.

Lemma walk_to_exact n root p f : (String.length p <= n)%nat ->
  f ∈ walk_to n root p <-> exists d, Climb (fun d => path_same d root) p d /\ f ∈ claude_files d.
Proof.
  revert p. induction n as [n IH] using (well_founded_induction Nat.lt_wf_0). intros p Hn.
  assert (E : walk_to n root p = claude_files p ++ if path_same p root then [] else match n, parent p with S n, Some q => walk_to n root q | _, _ => [] end)
    by (by destruct n). rewrite E, elem_of_app. clear E. split.
  - intros [H|H]; [exists p; split; [apply climb_here|done]|]. destruct (path_same p root) eqn:S; [by apply elem_of_nil in H|].
    destruct n as [|n]; [by apply elem_of_nil in H|]. destruct (parent p) as [q|] eqn:P; [|by apply elem_of_nil in H].
    apply IH in H as (d&C&H); [|lia|pose proof (parent_shorter _ _ P); lia]. exists d. split; [by eapply climb_cons|done].
  - intros (d&[->|(q&S&P&C)]%climb_inv&H); [by left|]. right. rewrite S, P. pose proof (parent_shorter _ _ P) as L.
    destruct n as [|n]; [lia|]. apply IH; [lia|lia|]. by exists d.
Qed.

(** The nearest directory above with [.git], the home directory excepted. *)
Definition RepoRoot (cwd root : string) : Prop :=
  let holds d := path_exists (push d ".git") in
  (Climb holds cwd root /\ holds root = true /\ is_home_dir root = false) \/
  (root = cwd /\ forall d, Climb holds cwd d -> holds d = true -> is_home_dir d = true).

(** The walk over the project directories ends and is exact.  The settings
    files that are looked for, by the loaders and by the detector of untrusted
    folders alike, are those of every directory from the working directory up
    to the root of the repository, and no others. *)
Theorem project_walk_exact cwd f : exists root, RepoRoot cwd root /\
  (f ∈ collect_project_claude_paths cwd <-> exists d, Climb (fun d => path_same d root) cwd d /\ f ∈ claude_files d).
Proof.
  unfold collect_project_claude_paths. set (root := unwrap_or cwd _). exists root. split; [|by apply walk_to_exact].
  unfold RepoRoot, root. destruct (find_repo_root (String.length cwd) cwd) as [r|] eqn:E; cbn [ofilter].
  - apply find_repo_root_exact in E as [C H]; [|done]. destruct (is_home_dir r) eqn:Hr; cbn [negb unwrap_or]; [|by left].
    right. split; [done|]. intros d Cd Hd. assert (find_repo_root (String.length cwd) cwd = Some d) as D by (by apply find_repo_root_exact).
    assert (find_repo_root (String.length cwd) cwd = Some r) as R by (by apply find_repo_root_exact). congruence.
  - right. split; [done|]. intros d Cd Hd. exfalso. assert (find_repo_root (String.length cwd) cwd = Some d) by (by apply find_repo_root_exact).
    congruence.
Qed.
End walks.

(** ** Variables *)

Section env.
Context `{F : FileSystem} `{Fs : Files} `{V : SerdeView}.

(** A variable has the value the most specific file gives it. *)
Lemma env_most_specific cwd trusted k :
  load_claude_env_with_project false cwd trusted !! k =
  find_map (fun path => (load_claude_settings path ≫= cs_env) ≫= fun env => env !! k) (claude_settings_paths_for_trust cwd trusted).
Proof.
  unfold load_claude_env_with_project. induction (claude_settings_paths_for_trust cwd trusted) as [|p ps IH]; [done|].
  cbn [rev find_map]. rewrite foldl_app. cbn [foldl]. unfold merge_env at 1. rewrite <- IH.
  destruct (load_claude_settings p ≫= cs_env) as [env|]; [|done]. cbn [mbind option_bind].
  destruct (env !! k) as [v|] eqn:E; [by apply lookup_union_Some_l|]. by rewrite lookup_union_r.
Qed.
End env.

(** Two states of the disk that agree on the files of the user. *)
Definition same_user_files (F1 F2 : Files) : Prop :=
  @home_dir F1 = @home_dir F2 /\
  forall p, p ∈ @global_claude_settings_paths F1 -> @is_file F1 p = @is_file F2 p /\ @file_contents F1 p = @file_contents F2 p.

Lemma same_user_load `{V : SerdeView} F1 F2 p : same_user_files F1 F2 -> p ∈ @global_claude_settings_paths F1 ->
  load_claude_settings (Fs := F1) p = load_claude_settings (Fs := F2) p.
Proof. intros [_ H] Hp. destruct (H p Hp) as [E1 E2]. unfold load_claude_settings. by rewrite E1, E2. Qed.

Lemma same_user_paths F1 F2 : same_user_files F1 F2 -> @global_claude_settings_paths F1 = @global_claude_settings_paths F2.
Proof. intros [E _]. unfold global_claude_settings_paths. by rewrite E. Qed.

(** ** A concrete implementation *)

Module SettingsSample.
#[local] Existing Instance Tree.serde.
#[local] Instance tree_view : SerdeView := {|
  view v := match v with
            | GenLeaf (inl s) => JString s
            | GenLeaf (inr z) => JNumber (dec z) (Some z)
            | GenNode 1 [] => JBool true
            | GenNode 2 [] => JBool false
            | GenNode 3 l => JArray l
            | GenNode 4 l => JObject (Tree.to_pairs l)
            | _ => JNull
            end;
  map_entries := id; value_eqb a b := bool_decide (a = b) |}.

#[local] Instance tree_toml : TomlTree := {|
  TValue := Tree.tree; toml_parse s := ok (from_str s); t_get := get; t_as_bool := as_bool; t_as_str := as_str;
  t_as_array := as_array; t_as_table := as_object |}.

(** Numbers and booleans in [env] are kept as text. *)
Example env_texts :
  extract_string_map (Some (VObject [("A", VString "x"); ("B", GenLeaf (inr 1%Z)); ("C", GenNode 1 []); ("D", VNull)])) =
  Some {["A" := "x"; "B" := "1"; "C" := "true"]}.
Proof. reflexivity. Qed.
End SettingsSample.
