(* ===== verification/ManagedPolicy.v ===== *)
(** * [xai-grok-workspace], [permission/managed_policy]

    The policy an organisation sets for MCP servers, plugins and marketplaces:
    its layers and who owns them, the reading of one layer, and the verdict on a
    server over all of them.  The file shows what the verdict is, that the
    layers a user can write never lift a block of the layers an administrator
    owns, that the order of the layers does not matter to it, and that keys
    which cannot be read block. *)

From stdpp Require Import gmap.
From S2P Require Import Prelude RustStr Json Paths PermRules BashCommand PermPolicy ExecRisk AutoMode PermPrompter PolicyUrl ClaudeSettings.

(** ** [types.rs]: where a rule comes from *)

Inductive RequirementSource : Type :=
| SrcUnknown | SrcRequirements (path : string) | SrcSystemRequirements (path : string) | SrcManagedSettings (path : string)
| SrcManagedConfig (path : string) | SrcConfig (path : string) | SrcSettings (path : string).

Definition requirement_source_display (s : RequirementSource) : string :=
  match s with
  | SrcUnknown => "<unknown>"
  | SrcRequirements p => p +:+ " (requirements)"
  | SrcSystemRequirements p => p +:+ " (system requirements)"
  | SrcManagedSettings p => p +:+ " (managed-settings)"
  | SrcManagedConfig p => p +:+ " (managed config)"
  | SrcConfig p => p +:+ " (config)"
  | SrcSettings p => p +:+ " (settings)"
  end.

Record Sourced {A : Type} : Type := MkSourced { sv_value : A; sv_source : RequirementSource }.
Arguments Sourced : clear implicits.
Arguments MkSourced {A}.

(** ** [layer.rs] *)

Inductive PolicyLayerTier : Type := Mdm | SystemRequirements | SystemManaged | UserRequirements | UserManaged | Vendor.
Inductive PolicySourceAuthority : Type := Native | Advisory.
Inductive PolicyLayerOwnership : Type := Admin | User.

#[export] Instance tier_eq_dec : EqDecision PolicyLayerTier.
Proof. solve_decision. Defined.
#[export] Instance authority_eq_dec : EqDecision PolicySourceAuthority.
Proof. solve_decision. Defined.
#[export] Instance ownership_eq_dec : EqDecision PolicyLayerOwnership.
Proof. solve_decision. Defined.

(** The derived order. *)
Definition tier_rank (t : PolicyLayerTier) : nat :=
  match t with Mdm => 0 | SystemRequirements => 1 | SystemManaged => 2 | UserRequirements => 3 | UserManaged => 4 | Vendor => 5 end.

Definition tier_authority (t : PolicyLayerTier) : PolicySourceAuthority := match t with Vendor => Advisory | _ => Native end.
Definition tier_ownership (t : PolicyLayerTier) : PolicyLayerOwnership :=
  match t with UserRequirements | UserManaged => User | Mdm | SystemRequirements | SystemManaged | Vendor => Admin end.

Inductive PolicyPin : Type := Unpinned | Disabled (source : string) (ownership : PolicyLayerOwnership).
Definition is_disabled (p : PolicyPin) : bool := match p with Disabled _ _ => true | Unpinned => false end.
Definition pin_source (p : PolicyPin) : option string := match p with Unpinned => None | Disabled s _ => Some s end.

Definition accepts_grant_from (self grant : PolicyLayerOwnership) : bool :=
  bool_decide (self = User) || bool_decide (grant = Admin).

(** ** [mcp.rs] *)

Inductive PolicySubjectOrigin : Type := GrokNative | Foreign.
#[export] Instance origin_eq_dec : EqDecision PolicySubjectOrigin.
Proof. solve_decision. Defined.

(** [agent_client_protocol::McpServer]; the last one stands for the transports
    that are not known. *)
Inductive McpServer : Type :=
| SHttp (name url : string) | SSse (name url : string) | SStdio (name command : string) (args : list string) | SOther.

Inductive AllowedMcpServer : Type :=
| EHttp (url_pattern : string) | EStdio (command : string) | EStdioArgv (argv : list string) | EName (name : string).

Definition argv_matches (argv : list string) (command : string) (args : list string) : bool :=
  match argv with
  | [] => false
  | first :: rest => (first =s? from_utf8_lossy command) && bool_decide (rest = args)
  end.

Definition mcp_server_name (server : McpServer) : string :=
  match server with SHttp n _ | SSse n _ | SStdio n _ _ => n | SOther => "" end.

Definition server_url (server : McpServer) : option string :=
  match server with SHttp _ url | SSse _ url => Some url | _ => None end.

Definition MANAGED_MCP_PREFIX : string := "grok_com_".
Definition MANAGED_MCP_NAME_MAX_CHARS : nat := 39.

Section names.
Context `{L : Unicode}.

Definition normalize_managed_name (bare : string) : string := replace " " "_" (to_lowercase bare).

Definition name_key (s : string) : string := normalize_managed_name (unwrap_or s (strip_prefix MANAGED_MCP_PREFIX s)).

Definition truncate_key (key : string) : string :=
  let max_bare := (MANAGED_MCP_NAME_MAX_CHARS - String.length MANAGED_MCP_PREFIX)%nat in stake (char_offset max_bare key) key.

Definition mcp_name_matches (pattern name : string) : bool :=
  let pattern_key := name_key pattern in
  let nkey := name_key name in
  let '(pattern_key, nkey) :=
    if starts_with MANAGED_MCP_PREFIX name && (char_count name =? MANAGED_MCP_NAME_MAX_CHARS)%nat
    then (truncate_key pattern_key, truncate_key nkey) else (pattern_key, nkey) in
  negb (is_empty pattern_key) && (pattern_key =s? nkey).

Definition mcp_entry_matches (entry : AllowedMcpServer) (server : McpServer) : bool :=
  match entry, server with
  | EName name, _ => mcp_name_matches name (mcp_server_name server)
  | EStdio command, SStdio _ server_command _ => command =s? from_utf8_lossy server_command
  | EStdioArgv argv, SStdio _ server_command args => argv_matches argv server_command args
  | _, _ => false
  end.
End names.

Definition mcp_entry_restricts (entry : AllowedMcpServer) (server : McpServer) : bool :=
  match server with
  | SOther => true
  | _ => match entry with
         | EName _ => true
         | EHttp _ => match server with SHttp _ _ | SSse _ _ => true | _ => false end
         | EStdio _ | EStdioArgv _ => match server with SStdio _ _ _ => true | _ => false end
         end
  end.

(** An entry with the matcher of its URL. *)
Record CompiledEntry {M : Type} : Type := MkEntry { ce_entry : AllowedMcpServer; ce_matcher : option M }.
Arguments CompiledEntry : clear implicits.
Arguments MkEntry {M}.

Definition is_nil {A} (l : list A) : bool := match l with [] => true | _ => false end.

Section policy.
Context `{G : GlobCrate} `{Up : UrlParser} `{L : Unicode}.
Implicit Types (server : McpServer) (origin : PolicySubjectOrigin).

Definition compile_entries {M} (compile : string -> M) (entries : list AllowedMcpServer) : list (CompiledEntry M) :=
  (fun e => MkEntry e (match e with EHttp url_pattern => Some (compile url_pattern) | _ => None end)) <$> entries.

Record McpServerAllowlist : Type := MkAllowlist {
  al_entries : list (CompiledEntry AllowUrlMatcher); al_deny_entries : list (CompiledEntry DenyUrlMatcher);
  al_managed_only : bool; al_lockdown : bool; al_ownership : PolicyLayerOwnership; al_source_path : option string;
  al_source_authority : PolicySourceAuthority }.
Implicit Types (s : McpServerAllowlist).

Definition McpServerAllowlist_new (entries deny_entries : list AllowedMcpServer) (source_path : option string) : McpServerAllowlist :=
  MkAllowlist (compile_entries AllowUrlMatcher_new entries) (compile_entries DenyUrlMatcher_new deny_entries) false false User
    source_path Native.

Definition with_managed_only s : McpServerAllowlist :=
  MkAllowlist (al_entries s) (al_deny_entries s) true (al_lockdown s) (al_ownership s) (al_source_path s) (al_source_authority s).
Definition with_lockdown s : McpServerAllowlist :=
  MkAllowlist (al_entries s) (al_deny_entries s) (al_managed_only s) true (al_ownership s) (al_source_path s) (al_source_authority s).
Definition with_authority s (a : PolicySourceAuthority) : McpServerAllowlist :=
  MkAllowlist (al_entries s) (al_deny_entries s) (al_managed_only s) (al_lockdown s) (al_ownership s) (al_source_path s) a.
Definition with_ownership s (o : PolicyLayerOwnership) : McpServerAllowlist :=
  MkAllowlist (al_entries s) (al_deny_entries s) (al_managed_only s) (al_lockdown s) o (al_source_path s) (al_source_authority s).

Definition authority_binds (a : PolicySourceAuthority) origin : bool := bool_decide (a = Native) || bool_decide (origin = Foreign).
Definition binds s origin : bool := authority_binds (al_source_authority s) origin.

Definition is_restricted s : bool :=
  al_lockdown s || al_managed_only s || negb (is_nil (al_entries s)) || negb (is_nil (al_deny_entries s)).

(** An entry of a list matches; the URL of an entry goes through its matcher. *)
Definition entry_hits {M} (matches : M -> string -> bool) server (e : CompiledEntry M) : bool :=
  match ce_matcher e with
  | Some matcher => match server_url server with Some url => matches matcher url | None => false end
  | None => mcp_entry_matches (ce_entry e) server
  end.

Definition matches_allow_entry s server : bool := existsb (entry_hits allow_matches server) (al_entries s).
Definition is_server_denied_by s server : bool := existsb (entry_hits deny_matches server) (al_deny_entries s).

Definition allows_ignoring_managed_only s server : bool :=
  if al_lockdown s then false
  else if negb (is_restricted s) then true
  else
    let restricted := existsb (fun e => mcp_entry_restricts (ce_entry e) server) (al_entries s) in
    negb restricted || matches_allow_entry s server.

(** [McpServerPolicy]: its sources. *)
Definition McpServerPolicy : Type := list McpServerAllowlist.
Implicit Types (policy : McpServerPolicy).

Definition policy_is_restricted policy : bool := existsb is_restricted policy.
Definition binding_sources policy origin : list McpServerAllowlist := List.filter (fun s => binds s origin) policy.
Definition policy_managed_only policy origin : bool := existsb al_managed_only (binding_sources policy origin).
Definition denying_source policy server origin : option McpServerAllowlist :=
  List.find (fun s => is_server_denied_by s server) (binding_sources policy origin).
Definition is_server_denied policy server origin : bool := is_some (denying_source policy server origin).

Definition grants_exception policy server (restriction_ownership : PolicyLayerOwnership) : bool :=
  existsb (fun s => accepts_grant_from restriction_ownership (al_ownership s) && matches_allow_entry s server) policy.

Definition blocking_allow_source policy server origin : option McpServerAllowlist :=
  or_else (List.find (fun s => al_managed_only s && negb (grants_exception policy server (al_ownership s))) (binding_sources policy origin))
    (List.find (fun s => negb (allows_ignoring_managed_only s server)) (binding_sources policy origin)).

Definition is_server_allowed policy server origin : bool :=
  negb (is_server_denied policy server origin) && negb (is_some (blocking_allow_source policy server origin)).

Definition entry_count policy : nat := list_sum ((fun s => length (al_entries s) + length (al_deny_entries s))%nat <$> policy).
Definition source_paths policy : list string := filter_map al_source_path policy.

(** ** [marketplace.rs] *)

Record MarketplaceAllowlist : Type := MkMarketplaces {
  allowed_urls : list string; mp_source_path : option string; mp_authority : PolicySourceAuthority }.
Implicit Types (m : MarketplaceAllowlist).

Definition normalize_git_url (url : string) : string :=
  let url := unwrap_or url (strip_suffix ".git" url) in
  match split_once "://" url with
  | Some (scheme, rest) =>
      let '(authority, path) := split_authority_path rest in
      to_ascii_lowercase scheme +:+ "://" +:+ to_ascii_lowercase authority +:+ path
  | None =>
      match split_once ":" url with
      | Some (user_host, path) =>
          if contains_byte "@" user_host then to_ascii_lowercase user_host +:+ ":" +:+ path else url
      | None => url
      end
  end.

Definition marketplace_binds m origin : bool := authority_binds (mp_authority m) origin.
Definition marketplace_lockdown m : bool := is_nil (allowed_urls m).
Definition marketplace_url_allowed m (url : string) : bool :=
  let normalized := normalize_git_url url in existsb (fun a => normalize_git_url a =s? normalized) (allowed_urls m).

Definition user_facing_policy_source (path : string) : string :=
  match file_name path with Some name => from_utf8_lossy name | None => from_utf8_lossy path end.

Definition not_in_strict : string := "source not in strictKnownMarketplaces".
Definition marketplace_block_reason m : string :=
  match mp_source_path m with Some p => not_in_strict +:+ " (" +:+ p +:+ ")" | None => not_in_strict end.
Definition marketplace_user_facing_reason m : string :=
  match mp_source_path m with Some p => not_in_strict +:+ " (" +:+ user_facing_policy_source p +:+ ")" | None => not_in_strict end.

Definition MarketplacePolicy : Type := list MarketplaceAllowlist.
Implicit Types (mp : MarketplacePolicy).

Definition marketplace_restricted mp : bool := negb (is_nil mp).
Definition marketplace_restricted_for mp origin : bool := existsb (fun m => marketplace_binds m origin) mp.
Definition is_url_allowed mp (url : string) origin : bool :=
  forallb (fun m => marketplace_url_allowed m url) (List.filter (fun m => marketplace_binds m origin) mp).
Definition blocking_source mp (url : string) origin : option MarketplaceAllowlist :=
  or_else (List.find (fun m => marketplace_binds m origin && negb (marketplace_url_allowed m url)) mp)
    (List.find (fun m => marketplace_binds m origin) mp).
Definition block_reason mp (url : string) origin : string :=
  unwrap_or not_in_strict (marketplace_block_reason <$> blocking_source mp url origin).
Definition add_block_reason mp (identity : string) : option string :=
  then_some (marketplace_restricted_for mp Foreign && negb (is_url_allowed mp identity Foreign))
    (unwrap_or not_in_strict (marketplace_user_facing_reason <$> blocking_source mp identity Foreign)).
Definition all_allowed_urls mp : list string :=
  foldl (fun out url => if is_one_of out url then out else out ++ [url]) [] (mp ≫= allowed_urls).

Inductive ManagedMarketplaceKind : Type := MGit (url : string) (git_ref : option string) | MLocal (path : string).
Record ManagedMarketplace : Type := MkManagedMarketplace {
  mm_name : string; mm_kind : ManagedMarketplaceKind; mm_ownership : PolicyLayerOwnership }.

(** ** The settings and the verdict ([mod.rs], [verdict.rs]) *)

Record ManagedSettingsFeatures : Type := MkFeatures {
  disable_telemetry : option bool; disable_yolo : option bool; ft_source_path : option string }.

Record ManagedSettings : Type := MkManagedSettings {
  ms_features : ManagedSettingsFeatures; ms_permissions : list (Sourced PermissionRule);
  ms_default_mode : option DefaultPermissionMode; mcp_allowlist : McpServerPolicy; marketplace_allowlist : MarketplacePolicy;
  project_mcp : PolicyPin; plugin_auto_update : PolicyPin; extra_marketplaces : list ManagedMarketplace }.
Implicit Types (ms : ManagedSettings).

Definition ManagedSettings_default : ManagedSettings :=
  MkManagedSettings (MkFeatures None None None) [] None [] [] Unpinned Unpinned [].

Inductive McpBlockReason : Type :=
| BDeny (source : string) | BNotGranted (source : string) | BLockdown (source : string) | BProjectPin (source : string).
Inductive McpVerdict : Type := Allowed | Blocked (reason : McpBlockReason).

Definition reason_source (r : McpBlockReason) : string := match r with BDeny s | BNotGranted s | BLockdown s | BProjectPin s => s end.
Definition reason_rule (r : McpBlockReason) : string :=
  match r with
  | BDeny _ => "matches deniedMcpServers"
  | BNotGranted _ => "not in allowedMcpServers"
  | BLockdown _ => "locked down by policy"
  | BProjectPin _ => "project MCP disabled by enableAllProjectMcpServers = false"
  end.
Definition reason_with (r : McpBlockReason) (source : string) : string := reason_rule r +:+ " (" +:+ source +:+ ")".
Definition user_facing_source (r : McpBlockReason) : string := user_facing_policy_source (reason_source r).
Definition user_facing_reason (r : McpBlockReason) : string := reason_with r (user_facing_source r).
Definition reason_display (r : McpBlockReason) : string := reason_with r (reason_source r).

Record McpSubject : Type := MkSubject { sj_origin : PolicySubjectOrigin; project_scoped : bool }.
Implicit Types (subject : McpSubject).

Definition mcp_project_pin_block ms server subject : option McpBlockReason :=
  match project_mcp ms with
  | Unpinned => None
  | Disabled source ownership =>
      if negb (project_scoped subject) || grants_exception (mcp_allowlist ms) server ownership then None
      else Some (BProjectPin source)
  end.

Definition mcp_verdict ms server subject : McpVerdict :=
  let policy := mcp_allowlist ms in
  match denying_source policy server (sj_origin subject) with
  | Some denying => Blocked (BDeny (unwrap_or "" (al_source_path denying)))
  | None =>
      match blocking_allow_source policy server (sj_origin subject) with
      | Some blocking =>
          let source := unwrap_or "" (al_source_path blocking) in
          Blocked (if al_lockdown blocking then BLockdown source else BNotGranted source)
      | None => match mcp_project_pin_block ms server subject with
                | Some reason => Blocked reason
                | None => Allowed
                end
      end
  end.
End policy.

(** ** [parse.rs] *)

Inductive PolicyKey {A : Type} : Type := Absent | Present (a : A) | Malformed.
Arguments PolicyKey : clear implicits.

Definition key_and_then {A B} (f : A -> PolicyKey B) (k : PolicyKey A) : PolicyKey B :=
  match k with Absent => Absent | Present a => f a | Malformed => Malformed end.
Definition key_map {A B} (f : A -> B) (k : PolicyKey A) : PolicyKey B := key_and_then (fun a => Present (f a)) k.
Definition is_absent {A} (k : PolicyKey A) : bool := match k with Absent => true | _ => false end.
Definition is_malformed {A} (k : PolicyKey A) : bool := match k with Malformed => true | _ => false end.
Definition locks_down {A} (k : PolicyKey (list A)) : bool :=
  match k with Present e => is_nil e | _ => false end || is_malformed k.
Definition key_entries {A} (k : PolicyKey (list A)) : list A := match k with Present e => e | Absent | Malformed => [] end.

Definition MANAGED_POLICY_CONFIG_KEYS : list string :=
  ["allowedMcpServers"; "allowed_mcp_servers"; "deniedMcpServers"; "denied_mcp_servers"; "allowManagedMcpServersOnly";
   "allow_managed_mcp_servers_only"; "enableAllProjectMcpServers"; "enable_all_project_mcp_servers"; "pluginAutoUpdate";
   "plugin_auto_update"; "strictKnownMarketplaces"; "strict_known_marketplaces"; "extraKnownMarketplaces";
   "extra_known_marketplaces"].

Inductive McpPolicyList : Type := ListAllow | ListDeny.
Definition list_keys (l : McpPolicyList) : list string :=
  match l with
  | ListAllow => ["allowedMcpServers"; "allowed_mcp_servers"]
  | ListDeny => ["deniedMcpServers"; "denied_mcp_servers"]
  end.

Definition SERVER_URL : list string := ["serverUrl"; "server_url"].
Definition SERVER_COMMAND : list string := ["serverCommand"; "server_command"].
Definition SERVER_NAME : list string := ["serverName"; "server_name"].

Section parse.
Context `{G : GlobCrate} `{Up : UrlParser} `{V : SerdeView}.
Implicit Types (json entry : Value) (keys : list string) (l : McpPolicyList).

(** A key by its spellings: different values under two of them are malformed. *)
Definition policy_field json keys : PolicyKey Value :=
  match filter_map (get json) keys with
  | [] => Absent
  | first :: present => if existsb (fun value => negb (value_eqb value first)) present then Malformed else Present first
  end.

Definition policy_bool json keys (fail_closed : bool) : option bool :=
  match policy_field json keys with
  | Absent => None
  | Malformed => Some fail_closed
  | Present value => Some (unwrap_or fail_closed (as_bool value))
  end.

Definition policy_array json keys : PolicyKey (list Value) :=
  key_and_then (fun value => match as_array value with Some arr => Present arr | None => Malformed end) (policy_field json keys).

Definition marketplace_source_from_json entry : option ManagedMarketplaceKind :=
  let git_ref := or_else (get entry "ref") (get entry "branch") ≫= as_str in
  source ← get_str entry "source";
  if source =s? "git" then url ← get_str entry "url"; Some (MGit url git_ref)
  else if source =s? "github" then repo ← get_str entry "repo"; Some (MGit ("https://github.com/" +:+ repo +:+ ".git") git_ref)
  else if source =s? "local" then path ← get_str entry "path"; Some (MLocal path)
  else None.

Definition parse_strict_marketplaces json : PolicyKey (list string) :=
  key_map (filter_map (fun entry => match marketplace_source_from_json entry with Some (MGit url _) => Some url | _ => None end))
    (policy_array json ["strictKnownMarketplaces"; "strict_known_marketplaces"]).

Record ExtraMarketplaces : Type := MkExtras { ex_entries : list ManagedMarketplace; pin_auto_update_off : bool }.

(** One entry of the table. *)
Definition extra_step (ownership : PolicyLayerOwnership) (out : ExtraMarketplaces) (e : string * Value) : ExtraMarketplaces :=
  let '(name, entry) := e in
  match as_object entry with
  | None => MkExtras (ex_entries out) true
  | Some fields =>
      let off := pin_auto_update_off out || bool_decide (policy_bool entry ["autoUpdate"; "auto_update"] false = Some false) in
      match map_get "source" fields ≫= marketplace_source_from_json with
      | None => MkExtras (ex_entries out) off
      | Some kind => MkExtras (ex_entries out ++ [MkManagedMarketplace name kind ownership]) off
      end
  end.

Definition parse_extra_marketplaces json (ownership : PolicyLayerOwnership) : ExtraMarketplaces :=
  match policy_field json ["extraKnownMarketplaces"; "extra_known_marketplaces"] with
  | Absent => MkExtras [] false
  | Malformed => MkExtras [] true
  | Present value =>
      match as_object value with
      | None => MkExtras [] true
      | Some map => foldl (extra_step ownership) (MkExtras [] false) (map_entries map)
      end
  end.

(** All the strings of an array, or nothing. *)
Definition strings_of (v : Value) : option (list string) := as_array v ≫= mapM as_str.

Definition first_field entry keys : option Value := find_map (get entry) keys.

Definition parse_mcp_entry entry l : option AllowedMcpServer :=
  if existsb (fun keys => is_malformed (policy_field entry keys)) [SERVER_URL; SERVER_COMMAND; SERVER_NAME] then None
  else match first_field entry SERVER_URL ≫= as_str with
  | Some url =>
      let unmatchable := match l with ListDeny => unmatchable_deny_url url | ListAllow => false end in
      then_some (negb unmatchable) (EHttp url)
  | None =>
      match ofilter (fun argv => negb (is_nil argv)) (first_field entry SERVER_COMMAND ≫= strings_of) with
      | Some argv => Some (EStdioArgv argv)
      | None =>
          match get_str entry "command" with
          | Some cmd => Some (EStdio cmd)
          | None => EName <$> (first_field entry SERVER_NAME ≫= as_str)
          end
      end
  end.

(** [None] when an entry of a deny list cannot be used. *)
Definition parse_mcp_entries (arr : list Value) l : option (list AllowedMcpServer) :=
  let entries := filter_map (fun e => parse_mcp_entry e l) arr in
  let enforceable := match l with ListAllow => true | ListDeny => forallb (fun e => is_some (parse_mcp_entry e l)) arr end in
  then_some enforceable entries.

Definition parse_mcp_entry_list json l : PolicyKey (list AllowedMcpServer) :=
  key_and_then (fun arr => match parse_mcp_entries arr l with Some e => Present e | None => Malformed end)
    (policy_array json (list_keys l)).

(** ** [resolution.rs]: the rest of [managed-settings.json] *)

Definition json_env_flag (env : option Value) (key : string) : option bool :=
  env ← env; val ← get env key;
  match view val with
  | JNumber _ i => Some (negb (unwrap_or 0 i =? 0)%Z)
  | JBool b => Some b
  | JString s => Some (negb ((s =s? "0") || (s =s? "") || (s =s? "false")))
  | _ => None
  end.

Definition parse_disable_bypass_permissions json : option bool :=
  p ← get json "permissions"; val ← get p "disableBypassPermissionsMode";
  Some (bool_decide (as_str val = Some "disable")).

(** [from_value::<ParsedPermissions>]: a table, or a sequence of the fields;
    a field may be left out. *)
Definition parsed_permissions_of (v : Value) : option ParsedPermissions :=
  match view v with
  | JObject m =>
      let field k := match map_get k m with Some v => strings_of v | None => Some [] end in
      allow ← field "allow"; deny ← field "deny"; ask ← field "ask"; Some (MkParsedPermissions allow deny ask)
  | JArray l =>
      if (3 <? length l)%nat then None
      else
        fields ← mapM strings_of l;
        Some (MkParsedPermissions (nth 0 fields []) (nth 1 fields []) (nth 2 fields []))
  | _ => None
  end.

Definition parse_managed_settings_permissions json (path : string) : list (Sourced PermissionRule) :=
  match get json "permissions" ≫= parsed_permissions_of with
  | None => []
  | Some permissions => (fun rule => MkSourced rule (SrcManagedSettings path)) <$> rules (into_permission_config permissions).1
  end.

Record SkippedPermission : Type := MkSkipped { sk_rule : string; sk_reason : string }.

(** The mode of a text, and the records of what was not understood. *)
Definition parse_default_mode_claiming_scope (raw : string) : DefaultPermissionMode * list SkippedPermission :=
  match mode_from_str raw with
  | Ok mode => (mode, [])
  | Err invalid => (MDefault, [MkSkipped ("defaultMode=" +:+ invalid) "unrecognized value; treated as default"])
  end.

Definition parse_managed_settings_base json (path : string) : ManagedSettings :=
  let features := MkFeatures (json_env_flag (get json "env") "DISABLE_TELEMETRY") (parse_disable_bypass_permissions json) (Some path) in
  MkManagedSettings features (parse_managed_settings_permissions json path)
    ((fun raw => (parse_default_mode_claiming_scope raw).1) <$> extract_default_mode json) [] [] Unpinned Unpinned [].

(** ** [mod.rs]: folding the layers *)

Implicit Types (ms : ManagedSettings) (tier : PolicyLayerTier) (path : string).

Definition with_mcp ms (p : McpServerPolicy) : ManagedSettings :=
  MkManagedSettings (ms_features ms) (ms_permissions ms) (ms_default_mode ms) p (marketplace_allowlist ms) (project_mcp ms)
    (plugin_auto_update ms) (extra_marketplaces ms).
Definition with_marketplaces ms (p : MarketplacePolicy) : ManagedSettings :=
  MkManagedSettings (ms_features ms) (ms_permissions ms) (ms_default_mode ms) (mcp_allowlist ms) p (project_mcp ms)
    (plugin_auto_update ms) (extra_marketplaces ms).
Definition with_pins ms (project update : PolicyPin) : ManagedSettings :=
  MkManagedSettings (ms_features ms) (ms_permissions ms) (ms_default_mode ms) (mcp_allowlist ms) (marketplace_allowlist ms)
    project update (extra_marketplaces ms).
Definition with_extras ms (e : list ManagedMarketplace) : ManagedSettings :=
  MkManagedSettings (ms_features ms) (ms_permissions ms) (ms_default_mode ms) (mcp_allowlist ms) (marketplace_allowlist ms)
    (project_mcp ms) (plugin_auto_update ms) e.

Definition pin_disabled (pin : PolicyPin) path (ownership : PolicyLayerOwnership) : PolicyPin :=
  let upgrades := bool_decide (ownership = Admin) && match pin with Disabled _ User => true | _ => false end in
  if negb (is_disabled pin) || upgrades then Disabled path ownership else pin.

Definition apply_unreadable_policy_source ms path tier : ManagedSettings :=
  let source := with_lockdown (with_ownership (with_authority (McpServerAllowlist_new [] [] (Some path)) (tier_authority tier))
                  (tier_ownership tier)) in
  let ms := with_mcp ms (mcp_allowlist ms ++ [source]) in
  let ms := with_marketplaces ms (marketplace_allowlist ms ++ [MkMarketplaces [] (Some path) (tier_authority tier)]) in
  with_pins ms (pin_disabled (project_mcp ms) path (tier_ownership tier)) (pin_disabled (plugin_auto_update ms) path (tier_ownership tier)).

(** The MCP source of a layer, if it restricts anything. *)
Definition mcp_source_of json path tier : option McpServerAllowlist :=
  let mcp_allow_entries := parse_mcp_entry_list json ListAllow in
  let mcp_deny_entries := parse_mcp_entry_list json ListDeny in
  let managed_only := bool_decide
    (policy_bool json ["allowManagedMcpServersOnly"; "allow_managed_mcp_servers_only"] true = Some true) in
  let lockdown := locks_down mcp_allow_entries || is_malformed mcp_deny_entries in
  let allow_entries := key_entries mcp_allow_entries in
  let deny_entries := key_entries mcp_deny_entries in
  if lockdown || negb (is_nil allow_entries) || negb (is_nil deny_entries) || managed_only then
    let s := with_ownership (with_authority (McpServerAllowlist_new allow_entries deny_entries (Some path)) (tier_authority tier))
               (tier_ownership tier) in
    let s := if managed_only then with_managed_only s else s in
    Some (if lockdown then with_lockdown s else s)
  else None.

(** A name that is claimed keeps its first entry, but an entry of an
    administrator replaces that of a user. *)
Fixpoint claim_marketplace (extras : list ManagedMarketplace) (extra : ManagedMarketplace) : list ManagedMarketplace :=
  match extras with
  | [] => [extra]
  | m :: extras' =>
      if mm_name m =s? mm_name extra
      then (if bool_decide (mm_ownership m = User) && bool_decide (mm_ownership extra = Admin) then extra else m) :: extras'
      else m :: claim_marketplace extras' extra
  end.

Definition apply_policy_source ms json path tier : ManagedSettings :=
  let ownership := tier_ownership tier in
  let ms := match mcp_source_of json path tier with Some s => with_mcp ms (mcp_allowlist ms ++ [s]) | None => ms end in
  let ms := if bool_decide (policy_bool json ["enableAllProjectMcpServers"; "enable_all_project_mcp_servers"] false = Some false)
            then with_pins ms (pin_disabled (project_mcp ms) path ownership) (plugin_auto_update ms) else ms in
  let ms := if bool_decide (policy_bool json ["pluginAutoUpdate"; "plugin_auto_update"] false = Some false)
            then with_pins ms (project_mcp ms) (pin_disabled (plugin_auto_update ms) path ownership) else ms in
  let strict := parse_strict_marketplaces json in
  let ms := if is_absent strict then ms
            else with_marketplaces ms (marketplace_allowlist ms ++ [MkMarketplaces (key_entries strict) (Some path) (tier_authority tier)]) in
  let extras := parse_extra_marketplaces json ownership in
  let ms := if pin_auto_update_off extras
            then with_pins ms (project_mcp ms) (pin_disabled (plugin_auto_update ms) path ownership) else ms in
  with_extras ms (foldl claim_marketplace (extra_marketplaces ms) (ex_entries extras)).

Context `{Tt : TomlTree}.

Record PolicyLayer : Type := MkLayer { pl_tier : PolicyLayerTier; pl_path : string; pl_value : TValue }.

(** [sort_by_key]: the sort is stable. *)
Fixpoint insert_layer (x : PolicyLayer) (sorted : list PolicyLayer) : list PolicyLayer :=
  match sorted with
  | [] => [x]
  | y :: sorted' => if (tier_rank (pl_tier x) <=? tier_rank (pl_tier y))%nat then x :: sorted else y :: insert_layer x sorted'
  end.
Definition sort_layers (layers : list PolicyLayer) : list PolicyLayer := foldr insert_layer [] layers.

Definition policy_table (v : TValue) : list (string * TValue) :=
  match t_as_table v with
  | Some t => List.filter (fun '(k, _) => is_one_of MANAGED_POLICY_CONFIG_KEYS k) t
  | None => []
  end.

(** [table_to_json] is [serde_json::to_value] of a table. *)
Context (table_to_json : list (string * TValue) -> option Value).

Definition apply_layer ms (layer : PolicyLayer) : ManagedSettings :=
  match policy_table (pl_value layer) with
  | [] => ms
  | table => match table_to_json table with
             | Some json => apply_policy_source ms json (pl_path layer) (pl_tier layer)
             | None => apply_unreadable_policy_source ms (pl_path layer) (pl_tier layer)
             end
  end.

Definition resolve_managed_settings (claude : option (Value * string)) (toml_layers : list PolicyLayer) : ManagedSettings :=
  let ms := match claude with Some (json, path) => parse_managed_settings_base json path | None => ManagedSettings_default end in
  let ms := foldl apply_layer ms (sort_layers toml_layers) in
  match claude with Some (json, path) => apply_policy_source ms json path Vendor | None => ms end.

(** [xai_grok_config]: the layers that are found. *)
Definition MDM_REQUIREMENTS_SOURCE : string := "ai.x.grok:requirements_toml_base64".
Record ManagedConfigLayer : Type := MkManagedConfig { mc_value : TValue; mc_path : string; mc_is_system : bool }.
Inductive RequirementsSource : Type := ReqFile (path : string) | ReqMdm.
Record RequirementsLayer : Type := MkRequirements { rl_value : TValue; rl_source : RequirementsSource; rl_is_system : bool }.
Definition source_label (s : RequirementsSource) : string :=
  match s with ReqFile p => from_utf8_lossy p | ReqMdm => MDM_REQUIREMENTS_SOURCE end.

Definition managed_toml_policy_layers (managed : list ManagedConfigLayer) (requirements : list RequirementsLayer) : list PolicyLayer :=
  ((fun layer => MkLayer (if mc_is_system layer then SystemManaged else UserManaged) (mc_path layer) (mc_value layer)) <$> managed) ++
  ((fun layer => MkLayer (match rl_source layer with
                          | ReqMdm => Mdm
                          | _ => if rl_is_system layer then SystemRequirements else UserRequirements
                          end) (source_label (rl_source layer)) (rl_value layer)) <$> requirements).

Definition read_managed_settings_json `{Fs : Files} (path : string) : option Value := file_contents path ≫= fun c => ok (from_str c).

Definition load_managed_settings `{Fs : Files} (claude_path : option string) (managed : list ManagedConfigLayer)
  (requirements : list RequirementsLayer) : ManagedSettings :=
  let claude := path ← claude_path; json ← read_managed_settings_json path; Some (json, path) in
  resolve_managed_settings claude (managed_toml_policy_layers managed requirements).
End parse.

(** ** What the verdict is *)

Section verdict.
Context `{G : GlobCrate} `{Up : UrlParser} `{L : Unicode}.
Implicit Types (server : McpServer) (subject : McpSubject) (s g : McpServerAllowlist).

(** A grant for the server that a restriction owned by [o] accepts. *)
Definition Granted (policy : McpServerPolicy) server (o : PolicyLayerOwnership) : Prop :=
  exists g, g ∈ policy /\ accepts_grant_from o (al_ownership g) = true /\ matches_allow_entry g server = true.

(** Over sources and the owner of the pin on project servers. *)
Record Permits (policy : McpServerPolicy) (pin : option PolicyLayerOwnership) server subject : Prop := {
  pm_denied : forall s, s ∈ policy -> binds s (sj_origin subject) = true -> is_server_denied_by s server = false;
  pm_managed : forall s, s ∈ policy -> binds s (sj_origin subject) = true -> al_managed_only s = true ->
    Granted policy server (al_ownership s);
  pm_allowed : forall s, s ∈ policy -> binds s (sj_origin subject) = true -> allows_ignoring_managed_only s server = true;
  pm_pin : forall o, pin = Some o -> project_scoped subject = true -> Granted policy server o }.

Definition pin_owner (p : PolicyPin) : option PolicyLayerOwnership := match p with Disabled _ o => Some o | Unpinned => None end.

Lemma grants_exception_iff policy server o : grants_exception policy server o = true <-> Granted policy server o.
Proof.
  unfold grants_exception, Granted. rewrite existsb_exists. setoid_rewrite <- list_elem_of_In. setoid_rewrite andb_true_iff. done.
Qed.

Lemma find_none_iff {A} (f : A -> bool) l : List.find f l = None <-> forall x, x ∈ l -> f x = false.
Proof.
  split; [intros H x Hx%list_elem_of_In; by eapply List.find_none in H|]. intros H.
  destruct (List.find f l) as [x|] eqn:E; [|done]. apply find_some in E as [Hx E]. rewrite H in E; [done|by apply list_elem_of_In].
Qed.

Lemma binding_iff policy origin s : s ∈ binding_sources policy origin <-> s ∈ policy /\ binds s origin = true.
Proof. unfold binding_sources. by rewrite !list_elem_of_In, filter_In. Qed.

Lemma or_else_none {A} (a b : option A) : or_else a b = None <-> a = None /\ b = None.
Proof. destruct a; naive_solver. Qed.

Lemma denying_none P server origin :
  denying_source P server origin = None <-> forall s, s ∈ P -> binds s origin = true -> is_server_denied_by s server = false.
Proof. unfold denying_source. rewrite find_none_iff. setoid_rewrite binding_iff. naive_solver. Qed.

Lemma blocking_none P server origin : blocking_allow_source P server origin = None <->
  (forall s, s ∈ P -> binds s origin = true -> al_managed_only s = true -> Granted P server (al_ownership s)) /\
  (forall s, s ∈ P -> binds s origin = true -> allows_ignoring_managed_only s server = true).
Proof.
  unfold blocking_allow_source. rewrite or_else_none, !find_none_iff. setoid_rewrite binding_iff.
  setoid_rewrite <- grants_exception_iff. split; intros [H1 H2]; split.
  - intros s Hs Hb Hm. specialize (H1 s (conj Hs Hb)). rewrite Hm in H1. by apply negb_false_iff.
  - intros s Hs Hb. apply negb_false_iff, (H2 s (conj Hs Hb)).
  - intros s [Hs Hb]. destruct (al_managed_only s) eqn:Hm; [|done]. apply negb_false_iff. by apply H1.
  - intros s [Hs Hb]. apply negb_false_iff. by apply H2.
Qed.

Lemma pin_block_none ms server subject : mcp_project_pin_block ms server subject = None <->
  forall o, pin_owner (project_mcp ms) = Some o -> project_scoped subject = true -> Granted (mcp_allowlist ms) server o.
Proof.
  unfold mcp_project_pin_block. destruct (project_mcp ms) as [|src o]; cbn [pin_owner]; [naive_solver|].
  setoid_rewrite <- grants_exception_iff.
  destruct (project_scoped subject), (grants_exception (mcp_allowlist ms) server o) eqn:E; cbn; split; intros H; try done; try congruence.
  discriminate (H o eq_refl eq_refl) || (specialize (H o eq_refl eq_refl); congruence).
Qed.

Lemma verdict_permits ms server subject :
  mcp_verdict ms server subject = Allowed <-> Permits (mcp_allowlist ms) (pin_owner (project_mcp ms)) server subject.
Proof.
  unfold mcp_verdict. split.
  - destruct (denying_source _ _ _) eqn:D; [done|]. destruct (blocking_allow_source _ _ _) eqn:B; [done|].
    destruct (mcp_project_pin_block _ _ _) eqn:K; [done|]. intros _. apply blocking_none in B as [B1 B2]. split; try done.
    + by apply denying_none.
    + by apply pin_block_none.
  - intros [H1 H2 H3 H4]. rewrite (proj2 (denying_none _ _ _) H1), (proj2 (blocking_none _ _ _) (conj H2 H3)).
    by rewrite (proj2 (pin_block_none _ _ _) H4).
Qed.

(** The verdict on a server is exact.  A server is allowed exactly when no
    source that binds it denies it, every source that binds it and insists on
    grants has one it accepts, every source that binds it allows it or does not
    speak of its kind, and, for a server of a project while those are switched
    off, there is a grant that the switch accepts. *)
Theorem verdict_exact ms server subject :
  mcp_verdict ms server subject = Allowed <->
  Permits (mcp_allowlist ms) (pin_owner (project_mcp ms)) server subject.
Proof. exact (verdict_permits ms server subject). Qed.
End verdict.

(** ** What the layers add up to *)

Section layers.
Context `{G : GlobCrate} `{Up : UrlParser} `{L : Unicode} `{V : SerdeView} `{Tt : TomlTree}.
Context (table_to_json : list (string * TValue) -> option Value).
Implicit Types (server : McpServer) (subject : McpSubject) (l : PolicyLayer) (ms : ManagedSettings).

(** The source a layer adds, and whether it switches project servers off. *)
Definition json_pins (json : Value) : bool :=
  bool_decide (policy_bool json ["enableAllProjectMcpServers"; "enable_all_project_mcp_servers"] false = Some false).

Definition layer_sources l : list McpServerAllowlist :=
  match policy_table (pl_value l) with
  | [] => []
  | table => match table_to_json table with
             | Some json => match mcp_source_of json (pl_path l) (pl_tier l) with Some s => [s] | None => [] end
             | None => [with_lockdown (with_ownership (with_authority (McpServerAllowlist_new [] [] (Some (pl_path l)))
                          (tier_authority (pl_tier l))) (tier_ownership (pl_tier l)))]
             end
  end.

Definition layer_pins l : bool :=
  match policy_table (pl_value l) with
  | [] => false
  | table => match table_to_json table with Some json => json_pins json | None => true end
  end.

(** The stronger of two owners of a pin. *)
Definition owner_join (a b : option PolicyLayerOwnership) : option PolicyLayerOwnership :=
  match a, b with
  | Some Admin, _ | _, Some Admin => Some Admin
  | Some User, _ | _, Some User => Some User
  | None, None => None
  end.

Lemma pin_owner_disabled pin path o : pin_owner (pin_disabled pin path o) = owner_join (pin_owner pin) (Some o).
Proof. by destruct pin as [|src []], o. Qed.

Lemma apply_source_effect ms json path tier : let ms' := apply_policy_source ms json path tier in
  mcp_allowlist ms' = mcp_allowlist ms ++ match mcp_source_of json path tier with Some s => [s] | None => [] end /\
  pin_owner (project_mcp ms') = owner_join (pin_owner (project_mcp ms)) (then_some (json_pins json) (tier_ownership tier)).
Proof.
  cbv zeta. unfold apply_policy_source. fold (json_pins json).
  generalize (mcp_source_of json path tier) as src, (json_pins json) as pins, (parse_strict_marketplaces json) as strict,
    (parse_extra_marketplaces json (tier_ownership tier)) as extras,
    (bool_decide (policy_bool json ["pluginAutoUpdate"; "plugin_auto_update"] false = Some false)) as update.
  intros src pins strict extras update. clear json. destruct ms as [f perms mode mcp mk proj upd ext]. cbv zeta.
  destruct (is_absent strict), update, (pin_auto_update_off extras), src as [s|], pins;
    cbn [with_mcp with_pins with_marketplaces with_extras mcp_allowlist project_mcp plugin_auto_update marketplace_allowlist
      extra_marketplaces then_some]; rewrite ?pin_owner_disabled, ?app_nil_r; (split; [done|]); by destruct proj as [|? []].
Qed.

Lemma apply_layer_effect ms l : let ms' := apply_layer table_to_json ms l in
  mcp_allowlist ms' = mcp_allowlist ms ++ layer_sources l /\
  pin_owner (project_mcp ms') = owner_join (pin_owner (project_mcp ms)) (then_some (layer_pins l) (tier_ownership (pl_tier l))).
Proof.
  cbv zeta. unfold apply_layer, layer_sources, layer_pins. destruct (policy_table (pl_value l)) as [|t ts].
  { rewrite app_nil_r. split; [done|]. by destruct (project_mcp ms) as [|? []]. }
  destruct (table_to_json (t :: ts)) as [json|]; [apply apply_source_effect|]. split; [done|].
  apply pin_owner_disabled.
Qed.

(** The owners of the pins of some layers. *)
Definition pins_owner (ls : list PolicyLayer) : option PolicyLayerOwnership :=
  foldr (fun l o => owner_join (then_some (layer_pins l) (tier_ownership (pl_tier l))) o) None ls.

Lemma owner_join_assoc a b c : owner_join a (owner_join b c) = owner_join (owner_join a b) c.
Proof. by destruct a as [[]|], b as [[]|], c as [[]|]. Qed.
Lemma owner_join_comm a b : owner_join a b = owner_join b a.
Proof. by destruct a as [[]|], b as [[]|]. Qed.

Lemma fold_layers ms ls : let ms' := foldl (apply_layer table_to_json) ms ls in
  mcp_allowlist ms' = mcp_allowlist ms ++ (ls ≫= layer_sources) /\
  pin_owner (project_mcp ms') = owner_join (pin_owner (project_mcp ms)) (pins_owner ls).
Proof.
  cbv zeta. revert ms. induction ls as [|l ls IH]; intros ms; cbn [foldl pins_owner foldr].
  - cbn [mbind list_bind]. rewrite app_nil_r. split; [done|]. by destruct (project_mcp ms) as [|? []].
  - destruct (apply_layer_effect ms l) as [E1 E2]. destruct (IH (apply_layer table_to_json ms l)) as [I1 I2].
    rewrite I1, I2, E1, E2. cbn [mbind list_bind]. split; [by rewrite <- app_assoc|]. by rewrite owner_join_assoc.
Qed.

(** The vendor file as a source of its own. *)
Definition vendor_sources (claude : option (Value * string)) : list McpServerAllowlist :=
  match claude with
  | Some (json, path) => match mcp_source_of json path Vendor with Some s => [s] | None => [] end
  | None => []
  end.
Definition vendor_pins (claude : option (Value * string)) : option PolicyLayerOwnership :=
  match claude with Some (json, _) => then_some (json_pins json) Admin | None => None end.

Lemma insert_layer_perm x ls : insert_layer x ls ≡ₚ x :: ls.
Proof.
  induction ls as [|y ls IH]; [done|]. cbn. destruct (_ <=? _)%nat; [done|]. rewrite IH. apply Permutation_swap.
Qed.

Lemma sort_layers_perm ls : sort_layers ls ≡ₚ ls.
Proof. induction ls as [|l ls IH]; [done|]. cbn. rewrite insert_layer_perm. by rewrite IH. Qed.

Lemma pins_owner_perm ls ls' : ls ≡ₚ ls' -> pins_owner ls = pins_owner ls'.
Proof.
  induction 1 as [|l ls ls' _ IH|l l' ls|ls1 ls2 ls3 _ IH1 _ IH2]; cbn; [done|by f_equal| |congruence].
  rewrite !owner_join_assoc. f_equal. apply owner_join_comm.
Qed.

Lemma join_none_l o : owner_join (pin_owner Unpinned) o = o.
Proof. by destruct o as [[]|]. Qed.
Lemma join_none_r o : owner_join o None = o.
Proof. by destruct o as [[]|]. Qed.

(** The resolved settings, up to the order of the layers. *)
Lemma resolved_permits claude ls server subject :
  mcp_verdict (resolve_managed_settings table_to_json claude ls) server subject = Allowed <->
  Permits ((sort_layers ls ≫= layer_sources) ++ vendor_sources claude) (owner_join (pins_owner ls) (vendor_pins claude)) server subject.
Proof.
  rewrite verdict_permits. rewrite <- (pins_owner_perm _ _ (sort_layers_perm ls)). unfold resolve_managed_settings, vendor_sources, vendor_pins.
  destruct claude as [[json path]|].
  - destruct (fold_layers (parse_managed_settings_base json path) (sort_layers ls)) as [F1 F2].
    destruct (apply_source_effect (foldl (apply_layer table_to_json) (parse_managed_settings_base json path) (sort_layers ls)) json path Vendor)
      as [E1 E2]. rewrite E1, E2, F1, F2, join_none_l. done.
  - destruct (fold_layers ManagedSettings_default (sort_layers ls)) as [F1 F2]. rewrite F1, F2, join_none_l, join_none_r, app_nil_r. done.
Qed.

(** Only the set of the sources matters. *)
Lemma permits_same P P' pin server subject : (forall s, s ∈ P <-> s ∈ P') -> Permits P pin server subject -> Permits P' pin server subject.
Proof.
  intros E [H1 H2 H3 H4]. assert (Gr : forall o, Granted P server o -> Granted P' server o) by (intros o (g&?%E&?); by exists g).
  split; intros; [eapply H1|eapply Gr, H2|eapply H3|eapply Gr, H4]; try apply E; done.
Qed.

(** The order in which the layers are found does not matter: whether a
    server is allowed is the same for every order of them. *)
Theorem layer_order_irrelevant claude ls ls' server subject : ls ≡ₚ ls' ->
  mcp_verdict (resolve_managed_settings table_to_json claude ls) server subject = Allowed <->
  mcp_verdict (resolve_managed_settings table_to_json claude ls') server subject = Allowed.
Proof.
  intros E. rewrite !resolved_permits, (pins_owner_perm _ _ E). split; apply permits_same; intros s; by rewrite !sort_layers_perm, E.
Qed.

(** *** Owners *)

Lemma layer_source_owner l s : s ∈ layer_sources l -> al_ownership s = tier_ownership (pl_tier l).
Proof.
  unfold layer_sources. destruct (policy_table (pl_value l)) as [|t ts]; [by intros ?%elem_of_nil|].
  destruct (table_to_json (t :: ts)) as [json|]; [|by intros ->%list_elem_of_singleton]. unfold mcp_source_of.
  destruct (_ || bool_decide _); [|by intros ?%elem_of_nil]. intros ->%list_elem_of_singleton.
  by destruct (locks_down _ || _), (bool_decide _).
Qed.

Definition admin_layers (ls : list PolicyLayer) : list PolicyLayer :=
  List.filter (fun l => bool_decide (tier_ownership (pl_tier l) = Admin)) ls.

Lemma admin_sources ls s : s ∈ (admin_layers ls ≫= layer_sources) <-> s ∈ (ls ≫= layer_sources) /\ al_ownership s = Admin.
Proof.
  unfold admin_layers. rewrite !list_elem_of_bind. setoid_rewrite list_elem_of_In at 2. setoid_rewrite filter_In.
  setoid_rewrite <- list_elem_of_In. setoid_rewrite bool_decide_eq_true. split.
  - intros (l&Hs&Hl&O). split; [by exists l|]. by rewrite (layer_source_owner l).
  - intros [(l&Hs&Hl) O]. exists l. split_and!; try done. by rewrite <- (layer_source_owner l s).
Qed.

Lemma admin_pins ls o : pins_owner (admin_layers ls) = Some o -> o = Admin /\ pins_owner ls = Some Admin.
Proof.
  unfold admin_layers. revert o. induction ls as [|l ls IH]; [done|]. intros o. cbn [List.filter].
  destruct (bool_decide_reflect (tier_ownership (pl_tier l) = Admin)) as [E|E]; cbn [pins_owner foldr].
  - rewrite E. destruct (layer_pins l); cbn [then_some]; [intros [= <-]; done|].
    fold (pins_owner (List.filter (fun l => bool_decide (tier_ownership (pl_tier l) = Admin)) ls)).
    intros H. destruct (IH o) as [-> K]; [by destruct (pins_owner _) as [[]|]|]. split; [done|]. fold (pins_owner ls). by rewrite K.
  - intros H. destruct (IH o H) as [-> K]. split; [done|]. fold (pins_owner ls). rewrite K.
    by destruct (then_some _ _) as [[]|].
Qed.

Lemma vendor_source_owner claude s : s ∈ vendor_sources claude -> al_ownership s = Admin.
Proof.
  unfold vendor_sources, mcp_source_of. destruct claude as [[json path]|]; [|by intros ?%elem_of_nil].
  destruct (_ || bool_decide _); [|by intros ?%elem_of_nil]. intros ->%list_elem_of_singleton.
  by destruct (locks_down _ || _), (bool_decide _).
Qed.

(** C12: the layers a user can write never lift a block.  A server that is
    allowed under all layers is allowed under those of the administrators
    alone: an entry in a file of the user is no grant against a restriction of
    an administrator. *)
Theorem user_layers_cannot_loosen claude ls server subject :
  mcp_verdict (resolve_managed_settings table_to_json claude ls) server subject = Allowed ->
  mcp_verdict (resolve_managed_settings table_to_json claude (admin_layers ls)) server subject = Allowed.
Proof.
  rewrite !resolved_permits. set (P := (_ ≫= _) ++ _). set (A := (sort_layers (admin_layers ls) ≫= _) ++ _).
  assert (E : forall s, s ∈ A <-> s ∈ P /\ al_ownership s = Admin).
  { intros s. unfold A, P. rewrite !elem_of_app. rewrite !sort_layers_perm, admin_sources. pose proof (vendor_source_owner claude s). tauto. }
  assert (Gr : Granted P server Admin -> Granted A server Admin).
  { intros (g&Hg&O&M). exists g. split_and!; try done. apply E. split; [done|]. by destruct (al_ownership g). }
  intros [H1 H2 H3 H4]. split.
  - intros s [Hs _]%E. by apply H1.
  - intros s [Hs O]%E Hb Hm. rewrite O. apply Gr. rewrite <- O. by apply H2.
  - intros s [Hs _]%E. by apply H3.
  - intros o Ho Hp. enough (o = Admin /\ owner_join (pins_owner ls) (vendor_pins claude) = Some Admin) as [-> K] by (by apply Gr, H4).
    destruct (pins_owner (admin_layers ls)) as [o'|] eqn:Q.
    + apply admin_pins in Q as [-> ->]. by destruct (vendor_pins claude) as [[]|], o.
    + rewrite (join_none_l (vendor_pins claude) : owner_join None _ = _) in Ho. unfold vendor_pins in *. destruct claude as [[json path]|]; [|done].
      destruct (json_pins json); cbn in *; [|done]. injection Ho as <-. split; [done|]. by destruct (pins_owner ls) as [[]|].
Qed.

(** *** Keys that cannot be read *)

(** The list is under two spellings with different values, or is no array; the
    allow list has no entry that is understood; an entry of the deny list
    cannot be used. *)
Inductive Unusable (json : Value) : Prop :=
| u_conflict which : policy_field json (list_keys which) = Malformed -> Unusable json
| u_shape which v : policy_field json (list_keys which) = Present v -> as_array v = None -> Unusable json
| u_empty v arr : policy_field json (list_keys ListAllow) = Present v -> as_array v = Some arr ->
    (forall e, e ∈ arr -> parse_mcp_entry e ListAllow = None) -> Unusable json
| u_entry v arr e : policy_field json (list_keys ListDeny) = Present v -> as_array v = Some arr -> e ∈ arr ->
    parse_mcp_entry e ListDeny = None -> Unusable json.

Lemma unusable_locks json path tier : Unusable json -> exists s, mcp_source_of json path tier = Some s /\ al_lockdown s = true /\
  al_source_authority s = tier_authority tier.
Proof.
  intros U. enough (Lk : locks_down (parse_mcp_entry_list json ListAllow) || is_malformed (parse_mcp_entry_list json ListDeny) = true).
  { unfold mcp_source_of. rewrite Lk. cbn [orb]. eexists. split; [done|]. by destruct (bool_decide _). }
  unfold parse_mcp_entry_list, policy_array. destruct U as [w E|w v E N|v arr E Ar N|v arr e E Ar He N].
  - destruct w; rewrite E; cbn; [done|]. apply orb_true_r.
  - destruct w; rewrite E; cbn; rewrite N; cbn; [done|]. apply orb_true_r.
  - rewrite E. cbn. rewrite Ar. cbn. rewrite (proj2 (filter_map_nil _ _)); [done|]. exact N.
  - rewrite E. cbn. rewrite Ar. cbn. unfold parse_mcp_entries.
    destruct (forallb _ arr) eqn:F; cbn; [|apply orb_true_r]. rewrite forallb_forall in F.
    apply list_elem_of_In, F in He. by rewrite N in He.
Qed.

(** Policy that cannot be read blocks.  When a layer says something that
    cannot be turned into JSON, or has a list of servers that is spelled twice
    with different values, is no array, allows nothing or denies what cannot be
    matched, every server is blocked, wherever it comes from. *)
Theorem unusable_policy_blocks claude ls l server subject : l ∈ ls -> pl_tier l <> Vendor -> policy_table (pl_value l) <> [] ->
  (forall json, table_to_json (policy_table (pl_value l)) = Some json -> Unusable json) ->
  exists reason, mcp_verdict (resolve_managed_settings table_to_json claude ls) server subject = Blocked reason.
Proof.
  intros Hl Ht N U. destruct (mcp_verdict _ _ _) as [|r] eqn:Vd; [|by exists r]. exfalso. apply resolved_permits in Vd as [_ _ Vd _].
  assert (exists s, s ∈ layer_sources l /\ al_lockdown s = true /\ al_source_authority s = tier_authority (pl_tier l)) as (s&Hs&Lk&A).
  { unfold layer_sources. destruct (policy_table (pl_value l)) as [|t ts]; [done|].
    destruct (table_to_json (t :: ts)) as [json|]; [|eexists; split; [by apply list_elem_of_singleton|done]].
    destruct (unusable_locks json (pl_path l) (pl_tier l) (U json eq_refl)) as (s&->&?). exists s. split; [by apply list_elem_of_singleton|done]. }
  specialize (Vd s). unfold allows_ignoring_managed_only in Vd. rewrite Lk in Vd. discriminate Vd.
  - apply elem_of_app. left. rewrite sort_layers_perm. apply list_elem_of_bind. by exists l.
  - unfold binds. rewrite A. by destruct (pl_tier l).
Qed.
End layers.

(** ** The names of marketplaces *)

(** The entry under a name. *)
Definition named (n : string) (ms : list ManagedMarketplace) : option ManagedMarketplace := List.find (fun m => mm_name m =s? n) ms.

Lemma named_claim n ms m : named n (claim_marketplace ms m) =
  if mm_name m =s? n then Some (match named n ms with
                               | Some x => if bool_decide (mm_ownership x = User) && bool_decide (mm_ownership m = Admin) then m else x
                               | None => m end)
  else named n ms.
Proof.
  unfold named. induction ms as [|x ms IH]; cbn; [by destruct (_ =s? _)|].
  destruct (String.eqb_spec (mm_name x) (mm_name m)) as [E|E]; cbn.
  - rewrite E. destruct (mm_name m =s? n) eqn:N; destruct (bool_decide _ && _) eqn:Q; by rewrite ?E, ?N, ?Q.
  - rewrite IH. destruct (String.eqb_spec (mm_name x) n), (String.eqb_spec (mm_name m) n); congruence || done.
Qed.

Lemma find_app {A} (f : A -> bool) l k : List.find f (l ++ k) = or_else (List.find f l) (List.find f k).
Proof. induction l as [|x l IH]; cbn; [by destruct (List.find f k)|]. by destruct (f x). Qed.

(** The marketplace of a name is the first one an administrator gives it,
    or, when none does, the first one a user gives it: a user cannot take a
    name an administrator uses. *)
Theorem marketplace_claims_exact es n :
  named n (foldl claim_marketplace [] es) =
  or_else (List.find (fun m => (mm_name m =s? n) && bool_decide (mm_ownership m = Admin)) es) (named n es).
Proof.
  unfold named at 2. induction es as [|m es IH] using rev_ind; [done|]. rewrite foldl_app. cbn [foldl]. rewrite named_claim, IH.
  rewrite !find_app. cbn [List.find]. destruct (String.eqb_spec (mm_name m) n) as [E|E]; cbn [andb].
  2:{ by destruct (List.find _ es), (List.find _ es). }
  destruct (List.find (fun m => (mm_name m =s? n) && _) es) as [a|] eqn:Fa; cbn [or_else].
  - apply find_some in Fa as [_ [_ ->%bool_decide_eq_true]%andb_true_iff]. done.
  - destruct (List.find (fun m => mm_name m =s? n) es) as [x|] eqn:Fx; cbn [or_else]; [|by destruct (bool_decide _)].
    apply find_some in Fx as [Hx Nx]. apply (List.find_none _ _ Fa) in Hx. rewrite Nx in Hx. cbn in Hx.
    destruct (mm_ownership x), (mm_ownership m); done.
Qed.

(** ** A concrete policy *)

Module PolicySample.
#[local] Existing Instances Tree.serde SettingsSample.tree_view SettingsSample.tree_toml UrlSample.plain_glob UrlSample.https_urls
  Sample.ascii_lower.

(** A table is turned into an object; [nan] has no JSON. *)
Definition to_json (t : list (string * TValue)) : option Value :=
  if existsb (fun kv => bool_decide (kv.2 = (VString "nan" : Tree.tree))) t then None else Some (VObject t).

Definition name_entry (n : string) : Tree.tree := VObject [("serverName", VString n)].
Definition yes : Tree.tree := GenNode 1 [].
Definition no : Tree.tree := GenNode 2 [].

(** The system insists on grants and gives one; the user adds another. *)
Definition system : PolicyLayer := MkLayer SystemManaged "/etc/managed.toml"
  (VObject [("allowManagedMcpServersOnly", yes); ("allowed_mcp_servers", VArray [name_entry "Team Wiki"])]).
Definition mine : PolicyLayer := MkLayer UserManaged "/home/u/managed.toml"
  (VObject [("allowedMcpServers", VArray [name_entry "team wiki"; name_entry "mine"]); ("enableAllProjectMcpServers", no)]).
(** Two spellings that disagree. *)
Definition torn : PolicyLayer := MkLayer UserRequirements "/home/u/requirements.toml"
  (VObject [("deniedMcpServers", VArray []); ("denied_mcp_servers", VArray [name_entry "x"])]).

Definition wiki : McpServer := SStdio "grok_com_team_wiki" "wiki" [].
Definition own : McpServer := SStdio "mine" "mine" [].
Definition subject : McpSubject := MkSubject GrokNative true.

Example user_grant_is_none :
  mcp_verdict (resolve_managed_settings to_json None [mine; system]) own subject = Blocked (BNotGranted "/etc/managed.toml").
Proof. vm_compute. done. Qed.

Lemma layer_order_irrelevant_witness :
  mcp_verdict (resolve_managed_settings to_json None [mine; system]) wiki subject = Allowed <->
  mcp_verdict (resolve_managed_settings to_json None [system; mine]) wiki subject = Allowed.
Proof. apply (layer_order_irrelevant to_json None [mine; system] [system; mine] wiki subject). constructor. Defined.

Lemma user_layers_cannot_loosen_witness :
  mcp_verdict (resolve_managed_settings to_json None (admin_layers [mine; system])) wiki subject = Allowed.
Proof. apply (user_layers_cannot_loosen to_json None [mine; system] wiki subject). vm_compute. done. Defined.

Lemma unusable_policy_blocks_witness :
  exists reason, mcp_verdict (resolve_managed_settings to_json None [system; torn]) wiki subject = Blocked reason.
Proof.
  apply (unusable_policy_blocks to_json None [system; torn] torn wiki subject).
  - apply list_elem_of_further, list_elem_of_here.
  - done.
  - vm_compute. done.
  - intros json [= <-]. apply (u_conflict _ ListDeny). vm_compute. done.
Defined.
End PolicySample.
