(* ===== verification/Toml.v ===== *)
(** * [toml::Value], and how two of them are merged

    The values of a configuration file, with the operations on tables the
    sources use, [deep_merge_toml] of [xai-grok-config/src/loader.rs], and the
    value at a path.  [merge_at] says what a merge does to the value at a path;
    everything about layers of configuration is derived from it.  The tables of
    a value have no key twice, and every operation keeps that. *)

From stdpp Require Import gmap.
From S2P Require Import Prelude RustStr.

(** The crate is built with [preserve_order]: a table keeps the order in which
    its keys came.  Floats and dates are kept as text. *)
#[warnings="-register-all"]
Inductive TomlValue : Type :=
| TString (s : string) | TInteger (z : Z) | TFloat (text : string) | TBoolean (b : bool) | TDatetime (text : string)
| TArray (l : list TomlValue) | TTable (t : list (string * TomlValue)).

Definition Table : Type := list (string * TomlValue).
Implicit Types (v b : TomlValue) (t o : Table) (k : string) (p q : list string).

Section ind.
Context (P : TomlValue -> Prop).
Hypothesis Hstring : forall s, P (TString s).
Hypothesis Hinteger : forall z, P (TInteger z).
Hypothesis Hfloat : forall s, P (TFloat s).
Hypothesis Hbool : forall b : bool, P (TBoolean b).
Hypothesis Hdate : forall s, P (TDatetime s).
Hypothesis Harray : forall l, List.Forall P l -> P (TArray l).
Hypothesis Htable : forall t, List.Forall (fun kv => P kv.2) t -> P (TTable t).

Fixpoint toml_ind (v : TomlValue) : P v :=
  match v with
  | TString s => Hstring s | TInteger z => Hinteger z | TFloat s => Hfloat s | TBoolean b => Hbool b | TDatetime s => Hdate s
  | TArray l => Harray l ((fix go l : List.Forall P l :=
      match l with [] => List.Forall_nil _ | x :: l' => Forall_cons_2 _ x l' (toml_ind x) (go l') end) l)
  | TTable t => Htable t ((fix go t : List.Forall (fun kv : string * TomlValue => P kv.2) t :=
      match t with [] => List.Forall_nil _ | x :: t' => Forall_cons_2 _ x t' (toml_ind x.2) (go t') end) t)
  end.
End ind.

(** ** The operations of [toml::map::Map] and [toml::Value] *)

Fixpoint tget k t : option TomlValue :=
  match t with [] => None | (k', v) :: t' => if k =s? k' then Some v else tget k t' end.

Definition tremove k t : Table := List.filter (fun kv => negb (k =s? kv.1)) t.

(** [insert] keeps the place of a key that is there. *)
Fixpoint tinsert k v t : Table :=
  match t with
  | [] => [(k, v)]
  | (k', v') :: t' => if k =s? k' then (k', v) :: t' else (k', v') :: tinsert k v t'
  end.

Definition tv_table v : option Table := match v with TTable t => Some t | _ => None end.
Definition tv_array v : option (list TomlValue) := match v with TArray l => Some l | _ => None end.
Definition tv_bool v : option bool := match v with TBoolean b => Some b | _ => None end.
Definition tv_str v : option string := match v with TString s => Some s | _ => None end.
Definition tv_get v k : option TomlValue := tv_table v ≫= tget k.
Definition is_table v : bool := match v with TTable _ => true | _ => false end.

Definition toml_type_name v : string :=
  match v with
  | TString _ => "string" | TInteger _ => "integer" | TFloat _ => "float" | TBoolean _ => "boolean" | TDatetime _ => "datetime"
  | TArray _ => "array" | TTable _ => "table"
  end.

(** One key of the overriding table. *)
Definition merge_entry (merge : TomlValue -> TomlValue -> TomlValue) (base_table : Table) (entry : string * TomlValue) : Table :=
  let '(key, value) := entry in
  match tget key base_table with
  | Some existing => tinsert key (merge existing value) base_table
  | None => tinsert key value base_table
  end.

Fixpoint deep_merge_toml (base overrides : TomlValue) {struct overrides} : TomlValue :=
  match overrides with
  | TTable overrides_table =>
      match base with
      | TTable base_table =>
          TTable ((fix go (base_table overrides_table : Table) : Table :=
            match overrides_table with
            | [] => base_table
            | (key, value) :: rest =>
                go (match tget key base_table with
                    | Some existing => tinsert key (deep_merge_toml existing value) base_table
                    | None => tinsert key value base_table
                    end) rest
            end) base_table overrides_table)
      | _ => overrides
      end
  | _ => overrides
  end.

(** ** Tables *)

Lemma tget_insert k k' v t : tget k (tinsert k' v t) = if k =s? k' then Some v else tget k t.
Proof.
  induction t as [|[k1 v1] t IH]; cbn; [by destruct (_ =s? _)|].
  destruct (String.eqb_spec k' k1) as [->|N]; cbn; [by destruct (k =s? k1)|]. rewrite IH.
  destruct (String.eqb_spec k k1) as [->|]; [|done]. by destruct (String.eqb_spec k1 k').
Qed.

Lemma tget_remove k k' t : tget k (tremove k' t) = if k =s? k' then None else tget k t.
Proof.
  unfold tremove. induction t as [|[k1 v1] t IH]; cbn; [by destruct (_ =s? _)|].
  destruct (String.eqb_spec k' k1) as [->|N]; cbn; rewrite IH; [by destruct (k =s? k1)|].
  destruct (String.eqb_spec k k1) as [->|]; [|done]. by destruct (String.eqb_spec k1 k').
Qed.

Lemma tget_elem k v t : tget k t = Some v -> (k, v) ∈ t.
Proof.
  induction t as [|[k1 v1] t IH]; [done|]. cbn. destruct (String.eqb_spec k k1) as [->|].
  - intros [= ->]. apply list_elem_of_here.
  - intros H. by apply list_elem_of_further, IH.
Qed.

Lemma tget_none k t : tget k t = None <-> k ∉ t.*1.
Proof.
  induction t as [|[k1 v1] t IH]; cbn; [split; [intros _; apply not_elem_of_nil|done]|].
  rewrite list.not_elem_of_cons, <- IH. destruct (String.eqb_spec k k1) as [->|]; split; try done; naive_solver.
Qed.

(** ** Well-formed values *)

(** No table has a key twice. *)
Fixpoint wf (v : TomlValue) : Prop :=
  match v with
  | TArray l => (fix all l := match l with [] => True | x :: l' => wf x /\ all l' end) l
  | TTable t => NoDup t.*1 /\ (fix all (t : Table) := match t with [] => True | (_, x) :: t' => wf x /\ all t' end) t
  | _ => True
  end.

Definition wf_table t : Prop := NoDup t.*1 /\ List.Forall (fun kv => wf kv.2) t.

Lemma wf_TTable t : wf (TTable t) <-> wf_table t.
Proof.
  unfold wf_table. cbn. apply and_iff_compat_l. induction t as [|[k v] t IH]; cbn; [split; auto|].
  rewrite List.Forall_cons_iff, IH. done.
Qed.

Lemma wf_TArray l : wf (TArray l) <-> List.Forall wf l.
Proof. cbn. induction l as [|v l IH]; cbn; [split; auto|]. rewrite List.Forall_cons_iff, IH. done. Qed.

Lemma wf_tget k v t : wf_table t -> tget k t = Some v -> wf v.
Proof. intros [_ H] E%tget_elem%list_elem_of_In. rewrite List.Forall_forall in H. exact (H _ E). Qed.

Lemma keys_insert k v t : (tinsert k v t).*1 = match tget k t with Some _ => t.*1 | None => t.*1 ++ [k] end.
Proof.
  induction t as [|[k1 v1] t IH]; cbn; [done|]. destruct (k =s? k1); cbn; [done|]. rewrite IH. by destruct (tget k t).
Qed.

Lemma insert_values (P : TomlValue -> Prop) k v t :
  P v -> List.Forall (fun kv : string * TomlValue => P kv.2) t -> List.Forall (fun kv : string * TomlValue => P kv.2) (tinsert k v t).
Proof.
  intros Hv H. induction H as [|[k1 v1] t H1 H IH]; cbn; [by repeat constructor|]. destruct (k =s? k1); by constructor.
Qed.

Lemma wf_insert k v t : wf v -> wf_table t -> wf_table (tinsert k v t).
Proof.
  intros Hv [N H]. split; [|by apply insert_values]. rewrite keys_insert. destruct (tget k t) eqn:E; [done|].
  apply list.NoDup_app. split; [done|]. split; [|apply NoDup_singleton]. intros x Hx ->%list_elem_of_singleton. by apply tget_none in E.
Qed.

Lemma wf_filter f t : wf_table t -> wf_table (List.filter f t).
Proof.
  intros [N H]. split.
  - clear H. induction t as [|[k v] t IH]; [done|]. cbn in N |- *. apply list.NoDup_cons in N as [Hk N].
    destruct (f (k, v)); cbn; [|by apply IH]. apply list.NoDup_cons. split; [|by apply IH].
    intros Hin. apply Hk. apply list_elem_of_fmap in Hin as ([k' v']&->&Hin). apply list_elem_of_In, filter_In in Hin as [Hin _].
    apply list_elem_of_fmap. exists (k', v'). split; [done|]. by apply list_elem_of_In.
  - rewrite List.Forall_forall in H |- *. intros x [Hx _]%filter_In. by apply H.
Qed.

Lemma wf_remove k t : wf_table t -> wf_table (tremove k t).
Proof. apply wf_filter. Qed.

(** ** Merging *)

Definition merge_table t o : Table := foldl (merge_entry deep_merge_toml) t o.
Arguments merge_table t o : simpl never.

Lemma deep_merge_tables t o : deep_merge_toml (TTable t) (TTable o) = TTable (merge_table t o).
Proof.
  unfold merge_table. cbn. f_equal. revert t. induction o as [|[k v] o IH]; intros t; cbn; [done|]. by rewrite IH.
Qed.

Lemma deep_merge_other b v : is_table b = false \/ is_table v = false -> deep_merge_toml b v = v.
Proof. by destruct v, b; intros []. Qed.

(** What the merge of one value onto what is there gives. *)
Definition merge_onto (b : option TomlValue) v : TomlValue := match b with Some b => deep_merge_toml b v | None => v end.

Lemma merge_tget k t o : NoDup o.*1 ->
  tget k (merge_table t o) = match tget k o with Some v => Some (merge_onto (tget k t) v) | None => tget k t end.
Proof.
  unfold merge_table. revert t. induction o as [|[k1 v1] o IH]; intros t N; [done|]. cbn [foldl fmap list_fmap fst] in *.
  apply list.NoDup_cons in N as [Hk N]. rewrite IH by done. cbn [tget].
  assert (E : tget k (merge_entry deep_merge_toml t (k1, v1)) = if k =s? k1 then Some (merge_onto (tget k1 t) v1) else tget k t).
  { cbn. destruct (tget k1 t) as [e|]; by rewrite tget_insert. }
  rewrite E. destruct (String.eqb_spec k k1) as [->|]; [|done]. by rewrite (proj2 (tget_none k1 o)).
Qed.

Lemma wf_merge b v : wf b -> wf v -> wf (deep_merge_toml b v).
Proof.
  revert b. induction v as [s|z|s|c|s|l _|o IH] using toml_ind; intros b Wb Wv; try done.
  destruct (is_table b) eqn:B; [|by rewrite deep_merge_other by (by left)]. destruct b as [| | | | | |t]; try done.
  rewrite deep_merge_tables. rewrite wf_TTable in *. destruct Wv as [_ Wv]. clear B. revert t Wb. unfold merge_table.
  induction IH as [|[k v] o IHv _ IHo]; intros t Wb; [done|]. apply List.Forall_cons_iff in Wv as [Wk Wv]. cbn [foldl].
  apply (IHo Wv). cbn. destruct (tget k t) as [e|] eqn:E; apply wf_insert; try done. apply IHv; [|done]. by eapply wf_tget.
Qed.

(** ** The value at a path *)

Fixpoint get_path p v : option TomlValue :=
  match p with [] => Some v | k :: p' => tv_get v k ≫= get_path p' end.

(** What a value says of a path: nothing, that there is nothing there because
    of a value above it that is no table, or a value. *)
Inductive Say : Type := Silent | Cut | Holds (v : TomlValue).

Fixpoint says p v : Say :=
  match p with
  | [] => Holds v
  | k :: p' => match v with TTable t => match tget k t with Some v' => says p' v' | None => Silent end | _ => Cut end
  end.

(** The effect on the value that is there. *)
Definition apply_say (s : Say) (old : option TomlValue) : option TomlValue :=
  match s with Silent => old | Cut => None | Holds v => Some (merge_onto old v) end.

Lemma get_path_not_table p v : is_table v = false -> p <> [] -> get_path p v = None.
Proof. destruct p; [done|]. by destruct v. Qed.

Lemma says_get p v : get_path p v = match says p v with Holds v' => Some v' | _ => None end.
Proof.
  revert v. induction p as [|k p IH]; intros v; [done|]. destruct v as [| | | | | |t]; try done. cbn.
  unfold tv_get. cbn. destruct (tget k t) as [v|]; [apply IH|done].
Qed.

(** A merge, at a path. *)
Lemma merge_at p b v : wf v -> get_path p (deep_merge_toml b v) = apply_say (says p v) (get_path p b).
Proof.
  revert b v. induction p as [|k p IH]; intros b v W; [done|].
  destruct v as [| | | | | |o]; try done.
  destruct (is_table b) eqn:B.
  - destruct b as [| | | | | |t]; try done. rewrite deep_merge_tables. apply wf_TTable in W. cbn. unfold tv_get. cbn.
    rewrite merge_tget by apply W. destruct (tget k o) as [v|] eqn:E; [|done].
    destruct (tget k t) as [e|]; cbn; [by apply IH, (wf_tget k v o)|]. rewrite says_get.
    by destruct (says p v).
  - rewrite deep_merge_other by (by left). rewrite says_get.
    rewrite (get_path_not_table (k :: p) b) by done. by destruct (says (k :: p) (TTable o)).
Qed.

(** Layers, the weaker first. *)
Definition merge_layers (base : TomlValue) (layers : list TomlValue) : TomlValue := foldl deep_merge_toml base layers.

Lemma wf_merge_layers base layers : wf base -> List.Forall wf layers -> wf (merge_layers base layers).
Proof.
  unfold merge_layers. intros W F. revert base W. induction F as [|l ls Wl _ IH]; intros base W; [done|]. by apply IH, wf_merge.
Qed.

Lemma merge_layers_at p base layers : List.Forall wf layers ->
  get_path p (merge_layers base layers) = foldl (fun old l => apply_say (says p l) old) (get_path p base) layers.
Proof.
  unfold merge_layers. intros F. revert base. induction F as [|l ls Wl _ IH]; intros base; [done|]. cbn. rewrite IH.
  by rewrite merge_at.
Qed.

(** The strongest layer that is not silent. *)
Definition strongest p (layers : list TomlValue) : Say :=
  foldl (fun s l => match says p l with Silent => s | s' => s' end) Silent layers.

Definition leaf v : Prop := is_table v = false.

Lemma merge_onto_leaf old v : leaf v -> merge_onto old v = v.
Proof. intros L. destruct old; [|done]. apply deep_merge_other. by right. Qed.

(** A layer that holds a leaf decides, whatever the weaker ones say. *)
Lemma strongest_decides p base layers : List.Forall wf layers -> (forall v, strongest p layers = Holds v -> leaf v) ->
  get_path p (merge_layers base layers) =
  match strongest p layers with Silent => get_path p base | Cut => None | Holds v => Some v end.
Proof.
  intros F. rewrite merge_layers_at by done. unfold strongest. induction layers as [|l ls IH] using rev_ind; [done|].
  rewrite !foldl_app. cbn. apply Forall_app in F as [F _]. destruct (says p l) as [| |v]; cbn; [by apply IH|done|].
  intros L. by rewrite merge_onto_leaf by (by apply L).
Qed.

(** Paths of which one extends the other. *)
Definition comparable p q : Prop := p `prefix_of` q \/ q `prefix_of` p.

Lemma comparable_cons k p q : comparable (k :: p) (k :: q) <-> comparable p q.
Proof.
  unfold comparable. split; intros [H|H]; [left|right|left|right]; try (by apply prefix_cons); by apply prefix_cons_inv_2 in H.
Qed.
Lemma comparable_nil_l q : comparable [] q.
Proof. left. apply prefix_nil. Qed.
Lemma comparable_nil_r p : comparable p [].
Proof. right. apply prefix_nil. Qed.

Lemma silent_extend p q v : says p v = Silent -> says (p ++ q) v = Silent.
Proof.
  revert v. induction p as [|k p IH]; intros v; [done|]. cbn. destruct v as [| | | | | |t]; try done.
  destruct (tget k t); [apply IH|done].
Qed.
