(* ===== verification/ConfigLayers.v ===== *)
(** * [xai-grok-config]: layers of configuration

    The files of an installation (system, managed, user), the overlay of the
    environment, the campaigns and the requirements of administrators, and how
    they add up to the configuration in force.  The file shows which layer
    decides a setting, that requirements always win, what the overlay and the
    patches of campaigns can reach, and that requirements which insist on it are
    either in force or stop the program. *)

From stdpp Require Import gmap.
From S2P Require Import Prelude RustStr Json Paths BashCommand PermPolicy ExecRisk ShellAccess AutoMode PermPrompter ClaudeSettings ManagedPolicy Toml.

(** ** The crates *)

(** [semver] *)
Class Semver := {
  Version : Type;
  version_parse : string -> option Version;
  version_cmp : Version -> Version -> comparison;
  version_zero : Version }.                            (** [Version::new(0, 0, 0)] *)

(** [shellexpand::env_with_context_no_errors] *)
Class ShellExpand := env_with_context : (string -> option string) -> string -> string.

(** The error of the parser, with the offset its span starts at. *)
Record TomlError : Type := MkTomlError { te_span : option Z; te_message : string }.
Class TomlParser := toml_from_str : string -> result TomlError TomlValue.

(** [std::fs::read_to_string] and [Path::is_file] *)
Inductive ReadOutcome : Type := Contents (s : string) | NotFound | ReadError (e : string).
Class ConfigFiles := { read_to_string : string -> ReadOutcome; config_is_file : string -> bool }.

(** What is fixed for a run: variables, the version of the program, directories. *)
Class Installation `{Semver} := {
  env_var : string -> option string;
  installed_semver : option Version;
  user_grok_home : option string;
  system_config_dir : option string;
  (** [managed_preferences_requirements], forced by the system on macOS *)
  managed_preferences_requirements : option TomlValue }.

(** [xai-grok-env]: [registry.rs] *)
Definition parse_env_bool (value : string) : option bool :=
  let v := to_ascii_lowercase (trim value) in
  if is_one_of ["1"; "true"; "yes"; "on"; "enabled"] v then Some true
  else if is_one_of ["0"; "false"; "no"; "off"; "disabled"] v then Some false
  else None.

(** ** [loader.rs]: one file *)

(** A character of the text at an offset: its line and column, from 1. *)
Fixpoint line_col_from (fuel byte : nat) (s : string) (line col : nat) : nat * nat :=
  match fuel, byte, s with
  | S fuel, S _, String c s' =>
      let rest := sdrop (char_offset 1 s) s in
      let byte' := (byte - char_offset 1 s)%nat in
      if byte_eqb c LF then line_col_from fuel byte' rest (S line) 1 else line_col_from fuel byte' rest line (S col)
  | _, _, _ => (line, col)
  end.
Definition line_col (src : string) (byte : nat) : nat * nat := line_col_from (String.length src) byte src 1 1.

Definition toml_error_detail (src : string) (e : TomlError) : string :=
  match te_span e with
  | Some start =>
      let '(line, col) := line_col src (Z.to_nat start) in
      "TOML parse error at line " +:+ dec (Z.of_nat line) +:+ ", column " +:+ dec (Z.of_nat col) +:+ ": " +:+ te_message e
  | None => te_message e
  end.

Section one_file.
Context `{Sv : Semver} `{Ex : ShellExpand} `{Tp : TomlParser} `{Cf : ConfigFiles} `{I : @Installation Sv}.
Implicit Types (value config : TomlValue) (path key : string) (patch table : Table).

Definition env_bool (name : string) : option bool := env_var name ≫= parse_env_bool.

Definition read_toml_file path : result string TomlValue :=
  match read_to_string path with
  | Contents s =>
      if is_empty (trim s) then Ok (TTable [])
      else match toml_from_str s with Ok v => Ok v | Err e => Err (toml_error_detail s e) end
  | NotFound => Ok (TTable [])
  | ReadError e => Err e
  end.

Definition expand_env_vars_in_string (input : string) : string := env_with_context env_var input.

Fixpoint expand_env_vars_in_toml (value : TomlValue) : TomlValue :=
  match value with
  | TString s => TString (expand_env_vars_in_string s)
  | TArray items => TArray (expand_env_vars_in_toml <$> items)
  | TTable table => TTable ((fun '(k, item) => (k, expand_env_vars_in_toml item)) <$> table)
  | _ => value
  end.

Definition load_toml_file path : result string TomlValue :=
  match read_toml_file path with Ok v => Ok (expand_env_vars_in_toml v) | Err e => Err e end.

(** *** [normalize_config_layer] *)

(** A table under a key, changed in place. *)
Definition at_table key (f : Table -> Table) table : Table :=
  match tget key table with Some (TTable child) => tinsert key (TTable (f child)) table | _ => table end.

Definition non_empty_array table key : bool :=
  match tget key table ≫= tv_array with Some (_ :: _) => true | _ => false end.

Definition clear_other_domains web_search : Table :=
  let allowed := non_empty_array web_search "allowed_domains" in
  let excluded := non_empty_array web_search "excluded_domains" in
  if allowed && negb excluded then tinsert "excluded_domains" (TArray []) web_search
  else if excluded && negb allowed then tinsert "allowed_domains" (TArray []) web_search
  else web_search.

Definition normalize_config_layer (layer : TomlValue) : TomlValue :=
  match layer with
  | TTable t => TTable (at_table "toolset" (at_table "web_search" clear_other_domains) t)
  | _ => layer
  end.

(** ** [config_override.rs] *)

(** The known fields of an entry, and the rest as its patch.  A field is an
    optional text; [meta_of] is [None] on an error. *)
Definition string_field table key : option (option string) :=
  match tget key table with None => Some None | Some (TString s) => Some (Some s) | Some _ => None end.

Definition take_entry {M} (fields : list string) (meta_of : Table -> option M) (entry : TomlValue) : option (M * Table) :=
  table ← tv_table entry;
  meta ← meta_of table;
  Some (meta, List.filter (fun kv => negb (is_one_of fields kv.1)) table).

Definition take_patch_array {M} (fields : list string) (meta_of : Table -> option M) config key
  : TomlValue * option (list (M * Table)) :=
  match config with
  | TTable table =>
      match tget key table with
      | None => (config, Some [])
      | Some array_value => (TTable (tremove key table), tv_array array_value ≫= mapM (take_entry fields meta_of))
      end
  | _ => (config, Some [])
  end.

Fixpoint touches_from (cur : TomlValue) (path : list string) : bool :=
  match path with
  | [] => true
  | seg :: path' => match tv_table cur with
                    | Some t => match tget seg t with Some v => touches_from v path' | None => false end
                    | None => true
                    end
  end.
Definition patch_touches_path patch (path : list string) : bool :=
  match path with
  | [] => false
  | first :: rest => match tget first patch with Some cur => touches_from cur rest | None => false end
  end.
Definition patch_touches_any patch (paths : list (list string)) : bool := existsb (patch_touches_path patch) paths.

Definition PATCH_STRIP_KEYS : list string := ["version_overrides"; "campaigns"; "auth_provider"; "model_providers"].
Definition PATCH_STRIP_PATHS : list (list string) := [["ui"; "status_line"]; ["ui"; "notifications"; "hooks"]].
Definition CAMPAIGN_STRIP_KEYS : list string :=
  ["version_overrides"; "campaigns"; "auth_provider"; "model_providers"; "auth"; "grok_com_config"].
Definition OVERLAY_ALLOW_PATHS : list (list string) :=
  [["models"]; ["features"]; ["toolset"; "bash"; "login_shell_capture"]; ["toolset"; "web_search"; "allowed_domains"];
   ["toolset"; "web_search"; "excluded_domains"]; ["shell_environment_policy"; "inherit"];
   ["shell_environment_policy"; "ignore_default_excludes"]; ["shell_environment_policy"; "exclude"];
   ["shell_environment_policy"; "include_only"]].

(** The rest of the paths that begin with a key. *)
Definition nested_paths key (paths : list (list string)) : list (list string) :=
  filter_map (fun p => match p with first :: rest => then_some (first =s? key) rest | [] => None end) paths.

(** On a value that is no table, nothing. *)
Fixpoint retain_allowed_paths (value : TomlValue) (paths : list (list string)) (top_level : bool) : TomlValue :=
  match value with
  | TTable table =>
      TTable (filter_map (fun '(key, value) =>
        let nested := nested_paths key paths in
        match nested with
        | [] => None
        | _ =>
            if existsb is_nil nested then then_some (negb top_level || is_table value) (key, value)
            else match value with
                 | TTable _ => match retain_allowed_paths value nested false with
                               | TTable [] => None
                               | child => Some (key, child)
                               end
                 | _ => None
                 end
        end) table)
  | _ => value
  end.

Definition retain_overlay_allowed (overlay : TomlValue) : TomlValue := retain_allowed_paths overlay OVERLAY_ALLOW_PATHS true.

Fixpoint strip_path (path : list string) patch : Table :=
  match path with
  | [] => patch
  | [key] => tremove key patch
  | key :: rest =>
      match tget key patch with
      | Some (TTable nested) => tinsert key (TTable (strip_path rest nested)) patch
      | Some _ => tremove key patch
      | None => patch
      end
  end.

(** A patch of one model; [bound] tells that the model has an identity. *)
Definition strip_model (bound : bool) (patch_model : TomlValue) : TomlValue :=
  match patch_model with
  | TTable m =>
      let m := tremove "mtls_cert_dir" m in
      TTable (if bound then tremove "api_base_url" (tremove "base_url" m) else m)
  | _ => patch_model
  end.

Definition has_mtls_identity config (id : string) : bool :=
  match (((tv_get config "model" ≫= tv_table) ≫= tget id) ≫= tv_table) ≫= tget "mtls_cert_dir" with Some _ => true | None => false end.

(** A patch, with what it may not set taken out. *)
Definition prepare_patch config patch (strip_keys : list string) : TomlValue :=
  let patch := foldl (fun patch key => tremove key patch) patch strip_keys in
  let patch := at_table "model" (fmap (fun '(id, pm) => (id, strip_model (has_mtls_identity config id) pm))) patch in
  let patch := foldl (fun patch (path : list string) => strip_path path patch) patch PATCH_STRIP_PATHS in
  normalize_config_layer (TTable patch).

Definition apply_patches config (patches : list Table) (strip_keys : list string) : TomlValue :=
  foldl (fun config patch => deep_merge_toml config (prepare_patch config patch strip_keys)) config patches.

(** ** [version_overrides.rs] *)

Definition VERSION_OVERRIDES_KEY : string := "version_overrides".
Record VersionOverrideMeta : Type := MkVersionMeta { minimum_version : option string; maximum_version : option string }.

Definition version_meta table : option VersionOverrideMeta :=
  min ← string_field table "minimum_version"; max ← string_field table "maximum_version"; Some (MkVersionMeta min max).

Inductive VersionOverrideError : Type :=
| VDeserialize | InvalidMinimumVersion (index : nat) (value : string) | InvalidMaximumVersion (index : nat) (value : string).

Definition redacted (e : VersionOverrideError) : string :=
  match e with
  | VDeserialize => "version_overrides: failed to deserialize (details omitted)"
  | InvalidMinimumVersion i _ => "version_overrides[" +:+ dec (Z.of_nat i) +:+ "].minimum_version is not valid semver"
  | InvalidMaximumVersion i _ => "version_overrides[" +:+ dec (Z.of_nat i) +:+ "].maximum_version is not valid semver"
  end.

Definition Bounded : Type := Version * option Version * Table.

Definition parse_bounds (index : nat) (entry : VersionOverrideMeta * Table) : result VersionOverrideError Bounded :=
  let '(meta, patch) := entry in
  match (match minimum_version meta with Some s => version_parse (trim s) | None => Some version_zero end) with
  | None => Err (InvalidMinimumVersion index (unwrap_or "" (minimum_version meta)))
  | Some min_v =>
      match maximum_version meta with
      | None => Ok (min_v, None, patch)
      | Some max_str => match version_parse (trim max_str) with
                        | Some max_v => Ok (min_v, Some max_v, patch)
                        | None => Err (InvalidMaximumVersion index max_str)
                        end
      end
  end.

Fixpoint parse_all_bounds (index : nat) (entries : list (VersionOverrideMeta * Table)) : result VersionOverrideError (list Bounded) :=
  match entries with
  | [] => Ok []
  | e :: entries' =>
      match parse_bounds index e with
      | Err err => Err err
      | Ok b => match parse_all_bounds (S index) entries' with Ok l => Ok (b :: l) | Err err => Err err end
      end
  end.

(** [sort_by] on the lower bound: the sort is stable. *)
Fixpoint insert_bounded (x : Bounded) (sorted : list Bounded) : list Bounded :=
  match sorted with
  | [] => [x]
  | y :: sorted' => match version_cmp x.1.1 y.1.1 with Gt => y :: insert_bounded x sorted' | _ => x :: sorted end
  end.
Definition sort_bounded (l : list Bounded) : list Bounded := foldr insert_bounded [] l.

(** The bounds contain the version. *)
Definition bounds_contain (version : Version) (b : Bounded) : bool :=
  let '(min_v, max_v, _) := b in
  negb (match version_cmp version min_v with Lt => true | _ => false end) &&
  match max_v with Some m => negb (match version_cmp version m with Gt => true | _ => false end) | None => true end.

Definition apply_version_overrides config (version : Version) : TomlValue * result VersionOverrideError unit :=
  let '(config, entries) := take_patch_array ["minimum_version"; "maximum_version"] version_meta config VERSION_OVERRIDES_KEY in
  match entries with
  | None => (config, Err VDeserialize)
  | Some entries =>
      match parse_all_bounds 0 entries with
      | Err e => (config, Err e)
      | Ok parsed =>
          let patches := snd <$> List.filter (bounds_contain version) (sort_bounded parsed) in
          (apply_patches config patches PATCH_STRIP_KEYS, Ok tt)
      end
  end.

Definition apply_version_overrides_with_registered value : TomlValue * result string unit :=
  match installed_semver with
  | Some version => let '(v, r) := apply_version_overrides value version in
                    (v, match r with Ok _ => Ok tt | Err e => Err (redacted e) end)
  | None => (match value with TTable t => TTable (tremove VERSION_OVERRIDES_KEY t) | _ => value end, Ok tt)
  end.

(** ** [loader.rs]: the files of the installation *)

Definition with_overrides (r : result string TomlValue) : result string TomlValue :=
  match r with
  | Err e => Err e
  | Ok v => match apply_version_overrides_with_registered v with (v, Ok _) => Ok v | (_, Err e) => Err e end
  end.

Definition load_config_file path : result string TomlValue := with_overrides (load_toml_file path).


Definition load_user_config_layer (home : option string) (filename : string) : result string TomlValue :=
  match home with Some g => load_config_file (push g filename) | None => Ok (TTable []) end.

Definition load_from_disk : result string TomlValue := load_user_config_layer user_grok_home USER_CONFIG_FILENAME.
Definition load_managed_config : result string TomlValue := load_user_config_layer user_grok_home MANAGED_CONFIG_FILENAME.
Definition load_system_managed_config : result string TomlValue :=
  with_overrides (match system_config_dir with Some dir => load_toml_file (push dir MANAGED_CONFIG_FILENAME) | None => Ok (TTable []) end).

(** ** [campaigns.rs] *)

Definition CAMPAIGNS_KEY : string := "campaigns".
Record CampaignEntry : Type := MkCampaign { cp_id : string; cp_patch : Table }.
Record CampaignOverrides : Type := MkCampaigns {
  cp_requirements : list CampaignEntry; cp_user : list CampaignEntry; cp_managed : list CampaignEntry;
  cp_system_managed : list CampaignEntry }.

(** [campaign_id] is another name of [id]; the two together are an error. *)
Definition campaign_meta table : option (option string) :=
  match tget "id" table, tget "campaign_id" table with
  | Some _, Some _ => None
  | Some _, None => string_field table "id"
  | None, _ => string_field table "campaign_id"
  end.

Definition take_campaigns config : TomlValue * list (option string * Table) :=
  let '(config, entries) := take_patch_array ["id"; "campaign_id"] campaign_meta config CAMPAIGNS_KEY in (config, unwrap_or [] entries).

Definition build_campaign_entries (taken : list (option string * Table)) : list CampaignEntry :=
  filter_map (fun '(meta, patch) =>
    id ← ofilter (fun s => negb (is_empty s)) (trim <$> meta);
    then_some (negb (is_nil patch)) (MkCampaign id patch)) taken.

Definition take_campaign_entries config : TomlValue * list CampaignEntry :=
  let '(config, taken) := take_campaigns config in (config, build_campaign_entries taken).

(** One source after the other; the first entry of an id is kept. *)
Definition merge_campaign_entries (sources : list (list CampaignEntry)) : list CampaignEntry :=
  foldl (fun out e => if existsb (fun x => cp_id x =s? cp_id e) out then out else out ++ [e]) [] (concat sources).

Definition filter_active_campaigns (merged : list CampaignEntry) (dismissed_ids : gset string) : list CampaignEntry :=
  List.filter (fun e => negb (bool_decide (cp_id e ∈ dismissed_ids))) merged.

Definition ids_touching_paths (active : list CampaignEntry) (paths : list (list string)) : list string :=
  cp_id <$> List.filter (fun e => patch_touches_any (cp_patch e) paths) active.

Definition apply_active_campaign_patches (effective : TomlValue) (active : list CampaignEntry) : TomlValue :=
  apply_patches effective (cp_patch <$> rev active) CAMPAIGN_STRIP_KEYS.
End one_file.

(** ** [env_overlay.rs] *)

Section overlay.
Context `{Sv : Semver} `{Ex : ShellExpand} `{Tp : TomlParser} `{Cf : ConfigFiles} `{I : @Installation Sv} `{V : SerdeView}.
(** [toml::Value::try_from] of a JSON value. *)
Context (toml_of_json : Value -> option TomlValue).

Inductive OverlayFormat : Type := FJson | FToml.
Inductive OverlaySource : Type := Inline | OverlayPath (path : string).
Definition MAX_OVERLAY_BYTES : Z := 4 * 1024 * 1024.
Record Overlay : Type := MkOverlay { ov_value : TomlValue; ov_source : OverlaySource; ov_sections : list string }.

(** The parser refuses what is nested deeper than 128, so [fuel] is enough. *)
Fixpoint strip_json_nulls (fuel : nat) (value : Value) : Value :=
  match fuel with
  | O => value
  | S fuel =>
      match view value with
      | JObject m =>
          VObject (foldl (fun out '(k, v) => map_insert k (strip_json_nulls fuel v) out) map_new
            (List.filter (fun '(_, v) => negb (is_null v)) (map_entries m)))
      | JArray items => VArray (strip_json_nulls fuel <$> items)
      | _ => value
      end
  end.

Definition parse_overlay (raw : string) (format : OverlayFormat) : option TomlValue :=
  value ← match format with
          | FJson => json ← ok (from_str raw); toml_of_json (strip_json_nulls 128 json)
          | FToml => ok (toml_from_str raw)
          end;
  then_some (is_table value) value.

(** A regular file that is not too long. *)
Definition read_capped_overlay_file (path : string) : option string :=
  if negb (config_is_file path) then None
  else match read_to_string path with
       | Contents raw => then_some (Z.of_nat (String.length raw) <=? MAX_OVERLAY_BYTES)%Z raw
       | _ => None
       end.

Definition finalize_overlay (overlay : TomlValue) (source : OverlaySource) : option Overlay :=
  let overlay := expand_env_vars_in_toml overlay in
  match apply_version_overrides_with_registered overlay with
  | (_, Err _) => None
  | (overlay, Ok _) =>
      let '(overlay, _) := take_campaign_entries overlay in
      let overlay := retain_overlay_allowed overlay in
      let overlay := normalize_config_layer overlay in
      let sections := match overlay with TTable t => t.*1 | _ => [] end in
      then_some (negb (is_nil sections)) (MkOverlay overlay source sections)
  end.

Definition resolve_inline_overlay (inline : string) : option Overlay :=
  let trimmed := trim inline in
  if is_empty trimmed then None else overlay ← parse_overlay trimmed FJson; finalize_overlay overlay Inline.

(** [Path::extension] *)
Definition path_extension (path : string) : option string :=
  name ← file_name path;
  match rsplit_once "." name with Some (stem, ext) => then_some (negb (is_empty stem)) ext | None => None end.

Definition resolve_path_overlay (path : string) : option Overlay :=
  raw ← read_capped_overlay_file path;
  let format := match path_extension path with Some ext => if eq_ignore_ascii_case ext "json" then FJson else FToml | None => FToml end in
  overlay ← parse_overlay raw format;
  finalize_overlay overlay (OverlayPath path).

Definition resolve_overlay_detailed (inline path : option string) : option Overlay :=
  match inline ≫= resolve_inline_overlay with
  | Some resolved => Some resolved
  | None => path ≫= resolve_path_overlay
  end.

(** The two variables; an empty path is none. *)
Definition env_overlay_inputs : option string * option string :=
  (env_var "GROK_CONFIG", ofilter (fun v => negb (is_empty v)) (env_var "GROK_CONFIG_PATH")).

Definition load_env_overlay : option TomlValue := let '(inline, path) := env_overlay_inputs in ov_value <$> resolve_overlay_detailed inline path.
Definition resolved_env_overlay : option Overlay := let '(inline, path) := env_overlay_inputs in resolve_overlay_detailed inline path.

(** ** [validation.rs] *)

Definition FAIL_CLOSED_KEY : string := "fail_closed".
Definition FAIL_CLOSED_ENV : string := "GROK_MANAGED_CONFIG_FAIL_CLOSED".

Inductive FailClosedFlag : Type := FTrue | FFalse | FInvalid.
Definition fail_closed_flag_status_from_value (requirements : TomlValue) : FailClosedFlag :=
  match tv_get requirements FAIL_CLOSED_KEY with
  | None => FFalse
  | Some val => match tv_bool val with Some true => FTrue | Some false => FFalse | None => FInvalid end
  end.
Definition fail_closed_flag (requirements : TomlValue) : bool :=
  match fail_closed_flag_status_from_value requirements with FTrue => true | _ => false end.

Definition resolve_fail_closed_mode (requirements : TomlValue) : bool :=
  fail_closed_flag requirements || bool_decide (env_bool FAIL_CLOSED_ENV = Some true).

Definition normalize_requirements_value (v : TomlValue) : option TomlValue :=
  let v := match v with TTable t => TTable (tremove FAIL_CLOSED_KEY t) | _ => v end in
  match apply_version_overrides_with_registered v with (v, Ok _) => Some v | (_, Err _) => None end.

(** A table with something in it. *)
Definition non_empty_table (v : TomlValue) : bool := match v with TTable (_ :: _) => true | _ => false end.

Definition load_requirements_layer (path : string) : option TomlValue :=
  match load_toml_file path with
  | Ok v => if non_empty_table v then normalize_requirements_value v else None
  | Err _ => None
  end.

Definition load_user_requirements (home : option string) : option TomlValue :=
  home ← home; load_requirements_layer (push home REQUIREMENTS_FILENAME).
Definition load_requirements : option TomlValue := load_user_requirements user_grok_home.
Definition load_system_requirements : option TomlValue :=
  dir ← system_config_dir; load_requirements_layer (push dir REQUIREMENTS_FILENAME).
Definition mdm_requirements_value : option TomlValue := managed_preferences_requirements ≫= normalize_requirements_value.

Record RequirementsError : Type := MkRequirementsError { re_path : string; re_source : VersionOverrideError }.

Definition validate_requirements_value (v : TomlValue) (source : RequirementsSource) : result RequirementsError unit :=
  if negb (non_empty_table v) then Ok tt
  else
    let fail_closed := resolve_fail_closed_mode v in
    match installed_semver with
    | None => Ok tt
    | Some version =>
        match apply_version_overrides v version with
        | (_, Err e) => if fail_closed then Err (MkRequirementsError (source_label source) e) else Ok tt
        | (_, Ok _) => Ok tt
        end
    end.

Definition validate_requirements_layer (path : string) : result RequirementsError unit :=
  match load_toml_file path with Err _ => Ok tt | Ok v => validate_requirements_value v (ReqFile path) end.

Definition validate_user_requirements (home : option string) : result RequirementsError unit :=
  match home with Some g => validate_requirements_layer (push g REQUIREMENTS_FILENAME) | None => Ok tt end.

Definition validate_requirements : result RequirementsError unit :=
  match validate_user_requirements user_grok_home with
  | Err e => Err e
  | Ok _ =>
      match (match system_config_dir with Some dir => validate_requirements_layer (push dir REQUIREMENTS_FILENAME) | None => Ok tt end) with
      | Err e => Err e
      | Ok _ => match managed_preferences_requirements with Some mdm => validate_requirements_value mdm ReqMdm | None => Ok tt end
      end
  end.

(** ** [config_layers.rs] *)

Record ConfigLayers : Type := MkLayers {
  system_managed : TomlValue; managed : TomlValue; user : TomlValue; env_overlay : option TomlValue;
  user_requirements : option TomlValue; system_requirements : option TomlValue; mdm_requirements : option TomlValue;
  campaigns : CampaignOverrides }.
Implicit Types (layers : ConfigLayers).

(** The campaigns of an optional layer, and the layer without them. *)
Definition take_optional (layer : option TomlValue) : option TomlValue * list CampaignEntry :=
  match layer with Some v => let '(v, entries) := take_campaign_entries v in (Some v, entries) | None => (None, []) end.

Definition ConfigLayers_load : result string ConfigLayers :=
  match load_system_managed_config with
  | Err e => Err e
  | Ok v =>
      let '(system_managed, system_managed_campaigns) := take_campaign_entries v in
      match load_managed_config with
      | Err e => Err e
      | Ok v =>
          let '(managed, managed_campaigns) := take_campaign_entries v in
          match load_from_disk with
          | Err e => Err e
          | Ok v =>
              let '(user, user_campaigns) := take_campaign_entries v in
              let env_overlay := load_env_overlay in
              let '(mdm, mdm_campaigns) := take_optional mdm_requirements_value in
              let '(sys, sys_campaigns) := take_optional load_system_requirements in
              let '(usr, usr_campaigns) := take_optional load_requirements in
              Ok (MkLayers (normalize_config_layer system_managed) (normalize_config_layer managed) (normalize_config_layer user)
                    env_overlay (normalize_config_layer <$> usr) (normalize_config_layer <$> sys) (normalize_config_layer <$> mdm)
                    (MkCampaigns (mdm_campaigns ++ sys_campaigns ++ usr_campaigns) user_campaigns managed_campaigns
                       system_managed_campaigns))
          end
      end
  end.

Definition opt_list {A} (o : option A) : list A := match o with Some a => [a] | None => [] end.

Definition requirements_in_order layers : list TomlValue :=
  opt_list (user_requirements layers) ++ opt_list (system_requirements layers) ++ opt_list (mdm_requirements layers).

Definition merge_with (overlay : list TomlValue) layers : TomlValue :=
  merge_layers (system_managed layers) ([managed layers; user layers] ++ overlay ++ requirements_in_order layers).
Definition effective_config_base layers : TomlValue := merge_with (opt_list (env_overlay layers)) layers.
Definition effective_config_base_without_overlay layers : TomlValue := merge_with [] layers.

Definition campaign_source_slices layers (remote : list CampaignEntry) : list (list CampaignEntry) :=
  [cp_requirements (campaigns layers); remote; cp_user (campaigns layers); cp_managed (campaigns layers); cp_system_managed (campaigns layers)].

Definition campaigns_application_disabled (base : TomlValue) : bool :=
  if bool_decide (env_bool "GROK_CAMPAIGNS" = Some false) then true
  else bool_decide ((tv_get base "features" ≫= fun f => tv_get f "campaigns") ≫= tv_bool = Some false).

Definition resolve_campaigns layers (base : TomlValue) (remote : list CampaignEntry) (dismissed : gset string) : list CampaignEntry :=
  if campaigns_application_disabled base then []
  else filter_active_campaigns (merge_campaign_entries (campaign_source_slices layers remote)) dismissed.

Definition reapply_requirements layers (merged : TomlValue) : TomlValue := merge_layers merged (requirements_in_order layers).

Definition apply_campaign_overrides layers (merged : TomlValue) (active : list CampaignEntry) : TomlValue :=
  let merged := apply_active_campaign_patches merged active in
  let merged := merge_layers merged (opt_list (env_overlay layers)) in
  reapply_requirements layers merged.

Definition effective_config_with_campaigns layers (remote : list CampaignEntry) (dismissed : gset string) : TomlValue :=
  let merged := effective_config_base layers in
  apply_campaign_overrides layers merged (resolve_campaigns layers merged remote dismissed).

(** [campaigns_state.json]: what cannot be read counts as nothing dismissed. *)
Definition dismissed_ids_of (v : Value) : option (gset string) :=
  match view v with
  | JObject m => match map_get "dismissed_ids" m with Some l => list_to_set <$> strings_of l | None => Some ∅ end
  | JArray [] => Some ∅
  | JArray [l] => list_to_set <$> strings_of l
  | _ => None
  end.
Definition load_dismissed_ids_from_home : gset string :=
  unwrap_or ∅ (home ← user_grok_home;
               match read_to_string (push home "campaigns_state.json") with
               | Contents c => json ← ok (from_str c); dismissed_ids_of json
               | _ => None
               end).

Definition effective_config_disk_only layers : TomlValue := effective_config_with_campaigns layers [] load_dismissed_ids_from_home.
Definition load_effective_config_disk_only : result string TomlValue :=
  match ConfigLayers_load with Ok layers => Ok (effective_config_disk_only layers) | Err e => Err e end.

Definition has_system_managed layers : bool := non_empty_table (system_managed layers).
Definition has_managed layers : bool := non_empty_table (managed layers) || has_system_managed layers.
End overlay.

(** ** The layers one by one, with where they come from *)

#[export] Instance toml_values `{TomlParser} : TomlTree := {|
  TValue := TomlValue; toml_parse s := ok (toml_from_str s); t_get := tv_get; t_as_bool := tv_bool; t_as_str := tv_str;
  t_as_array := tv_array; t_as_table := tv_table |}.

Section sources.
Context `{Sv : Semver} `{Ex : ShellExpand} `{Tp : TomlParser} `{Cf : ConfigFiles} `{I : @Installation Sv}.

(** A file of a directory, if it is there. *)
Definition layer_file (dir : option string) (filename : string) : option string :=
  path ← (fun d => push d filename) <$> dir; then_some (config_is_file path) path.

Definition managed_config_layers_at (system_dir user_home : option string) : list ManagedConfigLayer :=
  filter_map (fun '(dir, is_system) =>
    path ← layer_file dir MANAGED_CONFIG_FILENAME;
    value ← ok (load_config_file path);
    Some (MkManagedConfig (Tt := toml_values) value path is_system)) [(system_dir, true); (user_home, false)].
Definition managed_config_layers : list ManagedConfigLayer := managed_config_layers_at system_config_dir user_grok_home.

(** Users first, then the system, then what the system forces. *)
Definition requirements_layers : list RequirementsLayer :=
  (match user_grok_home with
   | Some g => let path := push g REQUIREMENTS_FILENAME in
               match load_requirements_layer path with Some v => [MkRequirements (Tt := toml_values) v (ReqFile path) false] | None => [] end
   | None => []
   end) ++
  (match system_config_dir with
   | Some d => let path := push d REQUIREMENTS_FILENAME in
               match load_requirements_layer path with Some v => [MkRequirements (Tt := toml_values) v (ReqFile path) true] | None => [] end
   | None => []
   end) ++
  (match mdm_requirements_value with Some v => [MkRequirements (Tt := toml_values) v ReqMdm true] | None => [] end).

Definition requirements_value (l : RequirementsLayer) : TomlValue := rl_value l.

Definition load_merged_requirements : option TomlValue :=
  match requirements_layers with
  | [] => None
  | first :: rest => Some (merge_layers (requirements_value first) (requirements_value <$> rest))
  end.

(** *** Hooks *)

Inductive HookProvenance : Type :=
| HSystemManaged | HManaged | HRequirements | HUserRequirements | HUser | HFile | HPlugin | HUnknown.

Definition is_managed_policy (h : HookProvenance) : bool := match h with HSystemManaged | HRequirements => true | _ => false end.
Definition authority_rank (h : HookProvenance) : Z :=
  match h with
  | HSystemManaged => 6 | HRequirements => 5 | HManaged => 4 | HUserRequirements => 3 | HUser => 2 | HFile | HPlugin => 1 | HUnknown => 0
  end.

Definition provenance_str (h : HookProvenance) : string :=
  match h with
  | HSystemManaged => "system_managed" | HManaged => "managed" | HRequirements => "requirements"
  | HUserRequirements => "user_requirements" | HUser => "user" | HFile => "file" | HPlugin => "plugin" | HUnknown => "unknown"
  end.
Definition provenance_of_str (s : string) : HookProvenance :=
  if s =s? "system_managed" then HSystemManaged else if s =s? "managed" then HManaged else if s =s? "requirements" then HRequirements
  else if s =s? "user_requirements" then HUserRequirements else if s =s? "user" then HUser else if s =s? "file" then HFile
  else if s =s? "plugin" then HPlugin else HUnknown.

Record HookConfigLayer : Type := MkHookLayer {
  hl_provenance : HookProvenance; hl_source_name : string; hl_path : string; hl_hooks : TomlValue }.

Definition hook_layer_specs (system_dir user_home : option string) : list (option string * string * HookProvenance * string) :=
  [(system_dir, REQUIREMENTS_FILENAME, HRequirements, "requirements/system");
   (user_home, REQUIREMENTS_FILENAME, HUserRequirements, "requirements/user");
   (user_home, USER_CONFIG_FILENAME, HUser, "user");
   (user_home, MANAGED_CONFIG_FILENAME, HManaged, "managed");
   (system_dir, MANAGED_CONFIG_FILENAME, HSystemManaged, "system_managed")].

(** The hooks of a layer, with their variables not expanded. *)
Definition hook_layer (spec : option string * string * HookProvenance * string) : option HookConfigLayer :=
  let '(dir, filename, provenance, source_name) := spec in
  path ← layer_file dir filename;
  value ← ok (read_toml_file path);
  match apply_version_overrides_with_registered value with
  | (_, Err _) => None
  | (value, Ok _) => hooks ← tv_get value "hooks"; then_some (is_table hooks) (MkHookLayer provenance source_name path hooks)
  end.

Definition hook_config_layers_at (system_dir user_home : option string) : list HookConfigLayer :=
  filter_map hook_layer (hook_layer_specs system_dir user_home).
Definition hook_config_layers : list HookConfigLayer := hook_config_layers_at system_config_dir user_grok_home.

(** Hooks that cannot be switched off come from the directory of the system. *)
Lemma policy_hooks_are_system system_dir user_home l : l ∈ hook_config_layers_at system_dir user_home ->
  is_managed_policy (hl_provenance l) = true ->
  exists dir, system_dir = Some dir /\ (hl_path l = push dir REQUIREMENTS_FILENAME \/ hl_path l = push dir MANAGED_CONFIG_FILENAME).
Proof.
  unfold hook_config_layers_at. rewrite elem_of_filter_map. intros ([[[dir name] h] src]&Hin&E) P.
  assert (hl_provenance l = h /\ exists d, dir = Some d /\ hl_path l = push d name) as (<-&d&->&Ep).
  { unfold hook_layer, layer_file in E. destruct dir as [d|]; [|done]. cbn [fmap option_fmap option_map mbind option_bind] in E.
    destruct (config_is_file _); [|done]. cbn [then_some mbind option_bind] in E. destruct (ok (read_toml_file _)) as [v|]; [|done].
    cbn [mbind option_bind] in E. destruct (apply_version_overrides_with_registered v) as [v' [|]]; [|done].
    destruct (tv_get v' "hooks") as [hooks|]; [|done]. cbn [mbind option_bind] in E. destruct (is_table hooks); [|done].
    injection E as <-. cbn. eauto. }
  rewrite Ep. unfold hook_layer_specs in Hin. repeat (apply elem_of_cons in Hin as [Hin|Hin]); try (by apply elem_of_nil in Hin);
    injection Hin as ? ? Eh ?; rewrite Eh in P; try done; subst; eauto.
Qed.
End sources.

(** ** Well-formed values stay so *)

Section well_formed.
Context `{Sv : Semver} `{Ex : ShellExpand} `{Tp : TomlParser} `{Cf : ConfigFiles} `{I : @Installation Sv} `{V : SerdeView}.
Implicit Types (t patch : Table) (v config : TomlValue) (k : string).

Lemma wf_map_values (f : string -> TomlValue -> TomlValue) t : wf_table t -> (forall k v, (k, v) ∈ t -> wf v -> wf (f k v)) ->
  wf_table ((fun '(k, v) => (k, f k v)) <$> t).
Proof.
  intros [N W] H. split.
  - replace ((_ <$> t).*1) with (t.*1); [done|]. clear. induction t as [|[k v] t IH]; [done|]. cbn. by f_equal.
  - rewrite List.Forall_forall in W |- *. intros kv Hkv%list_elem_of_In. apply list_elem_of_fmap in Hkv as ([k v]&->&Hin). cbn.
    apply H; [done|]. apply (W (k, v)). by apply list_elem_of_In.
Qed.

Lemma wf_expand v : wf v -> wf (expand_env_vars_in_toml v).
Proof.
  induction v as [s|z|s|c|s|l IH|t IH] using toml_ind; intros W; try done; cbn [expand_env_vars_in_toml].
  - rewrite wf_TArray in *. rewrite List.Forall_forall in *. intros x Hx%list_elem_of_In.
    apply list_elem_of_fmap in Hx as (y&->&Hy%list_elem_of_In). by apply IH, W.
  - rewrite wf_TTable in *. apply (wf_map_values (fun _ => expand_env_vars_in_toml)); [done|].
    intros k v Hin Wv. rewrite List.Forall_forall in IH. apply (IH (k, v)); [by apply list_elem_of_In|done].
Qed.

Lemma wf_at_table k (f : Table -> Table) t : (forall c, wf_table c -> wf_table (f c)) -> wf_table t -> wf_table (at_table k f t).
Proof.
  intros Hf W. unfold at_table. destruct (tget k t) as [[]|] eqn:E; try done. apply wf_insert; [|done].
  apply wf_TTable, Hf, wf_TTable. by eapply wf_tget.
Qed.

Lemma wf_clear_other t : wf_table t -> wf_table (clear_other_domains t).
Proof. intros W. unfold clear_other_domains. repeat case_match; try done; by apply wf_insert. Qed.

Lemma wf_normalize v : wf v -> wf (normalize_config_layer v).
Proof.
  destruct v as [| | | | | |t]; try done. cbn [normalize_config_layer]. rewrite !wf_TTable. intros W.
  apply wf_at_table; [|done]. intros c Wc. apply wf_at_table; [|done]. apply wf_clear_other.
Qed.

Lemma wf_strip_path p t : wf_table t -> wf_table (strip_path p t).
Proof.
  revert t. induction p as [|k p IH]; intros t W; [done|]. destruct p as [|k' p]; [by apply wf_remove|].
  cbn [strip_path] in *. destruct (tget k t) as [[]|] eqn:E; try done; try (by apply wf_remove).
  apply wf_insert; [|done]. apply wf_TTable, IH, wf_TTable. by eapply wf_tget.
Qed.

Lemma wf_strip_model bound v : wf v -> wf (strip_model bound v).
Proof.
  destruct v as [| | | | | |m]; try done. cbn [strip_model]. rewrite !wf_TTable. intros W.
  destruct bound; by repeat apply wf_remove.
Qed.

Lemma wf_prepare config patch keys : wf_table patch -> wf (prepare_patch config patch keys).
Proof.
  intros W. unfold prepare_patch. apply wf_normalize. rewrite wf_TTable.
  assert (F : forall ps t, wf_table t -> wf_table (foldl (fun patch (path : list string) => strip_path path patch) t ps)).
  { induction ps as [|p ps IH]; intros t Wt; [done|]. by apply IH, wf_strip_path. }
  apply F. apply wf_at_table.
  { intros c Wc. apply (wf_map_values (fun id => strip_model (has_mtls_identity config id))); [done|]. intros k v _. apply wf_strip_model. }
  revert patch W. induction keys as [|k keys IH]; intros patch W; [done|]. by apply IH, wf_remove.
Qed.

Lemma wf_apply_patches config patches keys : wf config -> List.Forall wf_table patches -> wf (apply_patches config patches keys).
Proof.
  unfold apply_patches. intros W F. revert config W. induction F as [|x ps Wx _ IH]; intros config W; [done|].
  apply IH, wf_merge; [done|]. by apply wf_prepare.
Qed.

Lemma wf_take_patch {M} fields (meta_of : Table -> option M) config k config' entries : wf config ->
  take_patch_array fields meta_of config k = (config', entries) ->
  wf config' /\ List.Forall (fun e => wf_table e.2) (unwrap_or [] entries).
Proof.
  intros W. unfold take_patch_array. destruct config as [| | | | | |t]; try (intros [= <- <-]; split; [done|constructor]).
  pose proof (proj1 (wf_TTable t) W) as Wt. destruct (tget k t) as [arr|] eqn:E; intros [= <- <-]; [|split; [done|constructor]].
  split; [by apply wf_TTable, wf_remove|]. pose proof (wf_tget _ _ _ Wt E) as Wa.
  destruct arr as [| | | | |l|]; try constructor. apply wf_TArray in Wa. cbn [tv_array mbind option_bind].
  destruct (mapM _ l) as [es|] eqn:Q; cbn; [|constructor]. apply mapM_Some in Q. clear W Wt E t. induction Q as [|v e l es He _ IH]; [constructor|].
  apply List.Forall_cons_iff in Wa as [Wv Wa]. constructor; [|by apply IH]. unfold take_entry in He.
  destruct v as [| | | | | |m]; try done. cbn in He. destruct (meta_of m); [|done]. injection He as <-. cbn.
  by apply wf_filter, wf_TTable.
Qed.

Lemma parse_all_patches i entries l : parse_all_bounds i entries = Ok l -> snd <$> l = snd <$> entries.
Proof.
  revert i l. induction entries as [|[meta patch] es IH]; intros i l; [by intros [= <-]|]. cbn [parse_all_bounds].
  destruct (parse_bounds i (meta, patch)) as [b|] eqn:B; [|done]. destruct (parse_all_bounds (S i) es) as [l'|] eqn:E; [|done].
  intros [= <-]. cbn. f_equal; [|by eapply IH]. cbn in B. destruct (match minimum_version meta with Some s => version_parse (trim s) | None => Some version_zero end); [|done].
  destruct (maximum_version meta); [|by injection B as <-]. destruct (version_parse _); [by injection B as <-|done].
Qed.

Lemma insert_bounded_perm x l : insert_bounded x l ≡ₚ x :: l.
Proof. induction l as [|y l IH]; [done|]. cbn. destruct (version_cmp _ _); try done. rewrite IH. constructor. Qed.
Lemma sort_bounded_perm l : sort_bounded l ≡ₚ l.
Proof. induction l as [|x l IH]; [done|]. cbn. by rewrite insert_bounded_perm, IH. Qed.

(** The patches that are applied are those of the entries. *)
Lemma applied_patches version entries l : parse_all_bounds 0 entries = Ok l ->
  forall patch, patch ∈ snd <$> List.filter (bounds_contain version) (sort_bounded l) -> patch ∈ snd <$> entries.
Proof.
  intros E patch. rewrite <- (parse_all_patches _ _ _ E). rewrite !list_elem_of_fmap. intros (b&->&Hb%list_elem_of_In).
  apply filter_In in Hb as [Hb _]. exists b. split; [done|]. apply list_elem_of_In in Hb. by rewrite sort_bounded_perm in Hb.
Qed.

Lemma wf_version_overrides config version : wf config -> wf (apply_version_overrides config version).1.
Proof.
  intros W. unfold apply_version_overrides. destruct (take_patch_array _ _ _ _) as [c es] eqn:E.
  apply wf_take_patch in E as [Wc We]; [|done]. destruct es as [es|]; [|done]. destruct (parse_all_bounds 0 es) as [l|] eqn:P; [|done].
  cbn. apply wf_apply_patches; [done|]. apply List.Forall_forall. intros patch Hp%list_elem_of_In.
  apply (applied_patches _ _ _ P) in Hp. apply list_elem_of_fmap in Hp as (e&->&He%list_elem_of_In). cbn in We.
  rewrite List.Forall_forall in We. by apply We.
Qed.

Lemma wf_registered v : wf v -> wf (apply_version_overrides_with_registered v).1.
Proof.
  intros W. unfold apply_version_overrides_with_registered. destruct installed_semver as [version|].
  - pose proof (wf_version_overrides v version W). by destruct (apply_version_overrides v version).
  - destruct v as [| | | | | |t]; try done. cbn [fst]. rewrite wf_TTable in *. by apply wf_remove.
Qed.

Lemma wf_take_campaigns v : wf v -> wf (take_campaign_entries v).1 /\ List.Forall (fun e => wf_table (cp_patch e)) (take_campaign_entries v).2.
Proof.
  intros W. unfold take_campaign_entries, take_campaigns. destruct (take_patch_array _ _ _ _) as [c es] eqn:E.
  apply wf_take_patch in E as [Wc We]; [|done]. cbn. split; [done|]. unfold build_campaign_entries.
  apply List.Forall_forall. intros x Hx%list_elem_of_In. apply elem_of_filter_map in Hx as ([meta patch]&Hin&Hf).
  destruct (ofilter _ _) as [id|]; [|done]. cbn in Hf. destruct (negb (is_nil patch)); [|done]. injection Hf as <-. cbn.
  rewrite List.Forall_forall in We. apply (We (meta, patch)). by apply list_elem_of_In.
Qed.

Lemma wf_retain v paths top : wf v -> wf (retain_allowed_paths v paths top).
Proof.
  revert paths top. induction v as [s|z|s|c|s|l _|t IH] using toml_ind; intros paths top W; try done.
  cbn [retain_allowed_paths]. rewrite wf_TTable in *. destruct W as [N W]. split.
  - clear IH W. induction t as [|[k v] t IHt]; [done|]. cbn in N. apply list.NoDup_cons in N as [Hk N].
    match type of IHt with _ -> NoDup (filter_map ?F _).*1 => set (f := F) in * end. cbn [filter_map].
    assert (K : forall y, y ∈ (filter_map f t).*1 -> y ∈ t.*1).
    { intros y. rewrite !list_elem_of_fmap. intros ([k' v']&->&H). apply elem_of_filter_map in H as ([k1 v1]&Hin&Hf).
      exists (k1, v1). split; [|done].
      unfold f, then_some in Hf. cbn. repeat case_match; simplify_eq; done. }
    destruct (f (k, v)) as [[k' v']|] eqn:R; [|by apply IHt]. assert (k' = k) as -> by (unfold f, then_some in R; repeat case_match; simplify_eq; done).
    cbn. apply list.NoDup_cons. split; [|by apply IHt]. intros Hin. by apply Hk, K.
  - apply List.Forall_forall. intros x Hx%list_elem_of_In. apply elem_of_filter_map in Hx as ([k v]&Hin%list_elem_of_In&Hf).
    rewrite List.Forall_forall in IH, W. pose proof (IH _ Hin (nested_paths k paths) false (W _ Hin)) as Wr. pose proof (W _ Hin) as Wv.
    cbn in Wr, Wv. unfold then_some in Hf. repeat case_match; simplify_eq; done.
Qed.
End well_formed.

(** ** What a patch reaches *)

Section reach.
Context `{Sv : Semver} `{Ex : ShellExpand} `{Tp : TomlParser} `{Cf : ConfigFiles} `{I : @Installation Sv} `{V : SerdeView}.
Implicit Types (t patch : Table) (v config : TomlValue) (k : string) (p q : list string).

Lemma touches_from_says p v : touches_from v p = true <-> says p v <> Silent.
Proof.
  revert v. induction p as [|k p IH]; intros v; [done|]. cbn. destruct v as [| | | | | |t]; try done. cbn.
  destruct (tget k t) as [v|]; [apply IH|]. split; [done|]. by intros [].
Qed.

Lemma touches_says patch p : p <> [] -> patch_touches_path patch p = true <-> says p (TTable patch) <> Silent.
Proof.
  intros N. destruct p as [|k p]; [done|]. cbn. destruct (tget k patch) as [v|]; [apply touches_from_says|]. split; [done|]. by intros [].
Qed.

(** A value at a path and nothing else. *)
Fixpoint only_at p v : TomlValue := match p with [] => v | k :: p' => TTable [(k, only_at p' v)] end.
Lemma get_only_at p v : get_path p (only_at p v) = Some v.
Proof. induction p as [|k p IH]; [done|]. cbn. unfold tv_get. cbn. by rewrite String.eqb_refl. Qed.

(** [patch_touches_path] is exact: it says that a patch touches a path
    exactly when there is a configuration in which applying the patch changes
    the value at the path. *)
Theorem touches_exact patch p : wf_table patch -> p <> [] ->
  patch_touches_path patch p = true <-> exists config, get_path p (deep_merge_toml config (TTable patch)) <> get_path p config.
Proof.
  intros W N. rewrite touches_says by done. setoid_rewrite merge_at; [|by apply wf_TTable]. split.
  - intros S. destruct (says p (TTable patch)) as [| |v]; [done|exists (only_at p (TBoolean true)); by rewrite get_only_at|].
    exists (TBoolean true). rewrite get_path_not_table by done. done.
  - intros [c H] S. by rewrite S in H.
Qed.

(** *** Keys that are taken out stay out *)

Lemma at_table_none k k' f t : tget k t = None -> tget k (at_table k' f t) = None.
Proof.
  intros E. unfold at_table. destruct (tget k' t) as [[]|] eqn:E'; try done. rewrite tget_insert.
  destruct (String.eqb_spec k k') as [->|]; [by rewrite E in E'|done].
Qed.

Lemma strip_path_none k p t : tget k t = None -> tget k (strip_path p t) = None.
Proof.
  intros E. destruct p as [|k' [|k2 p]]; [done| |]; cbn [strip_path]; [rewrite tget_remove; by destruct (_ =s? _)|].
  destruct (tget k' t) as [[]|] eqn:E'; rewrite ?tget_remove, ?tget_insert; try done; try by destruct (_ =s? _).
  destruct (String.eqb_spec k k') as [->|]; [by rewrite E in E'|done].
Qed.

Lemma strip_path_silent p q t : says q (TTable t) = Silent -> says q (TTable (strip_path p t)) = Silent.
Proof.
  revert q t. induction p as [|k p IH]; intros q t; [done|]. destruct q as [|k' q]; [done|].
  destruct p as [|k2 p]; cbn [strip_path says]; [rewrite tget_remove; by destruct (_ =s? _)|].
  destruct (tget k t) as [v|] eqn:E; [|done].
  destruct v as [| | | | | |c]; rewrite ?tget_remove, ?tget_insert; destruct (String.eqb_spec k' k) as [->|]; try done.
  rewrite E. apply IH.
Qed.

Lemma strip_path_strips p t : p <> [] -> says p (TTable (strip_path p t)) = Silent.
Proof.
  revert t. induction p as [|k p IH]; intros t N; [done|]. destruct p as [|k2 p].
  - cbn [strip_path says]. by rewrite tget_remove, String.eqb_refl.
  - cbn [strip_path says]. destruct (tget k t) as [v|] eqn:E; [|by rewrite E].
    destruct v as [| | | | | |c]; rewrite ?tget_remove, ?tget_insert, String.eqb_refl; try done. by apply (IH c).
Qed.

Lemma strip_fold_silent ps q t :
  says q (TTable t) = Silent \/ q ∈ ps -> [] ∉ ps ->
  says q (TTable (foldl (fun patch (path : list string) => strip_path path patch) t ps)) = Silent.
Proof.
  revert t. induction ps as [|p ps IH]; intros t; cbn [foldl]; [by intros [?|?%elem_of_nil]|].
  rewrite elem_of_cons, list.not_elem_of_cons. intros H [N1 N2]. apply IH; [|done].
  destruct H as [H|[->|H]]; [left; by apply strip_path_silent|left; apply strip_path_strips; congruence|by right].
Qed.

(** Away from the lists of domains a layer is not changed. *)
Definition DOMAIN_PATHS : list (list string) := [["toolset"; "web_search"; "allowed_domains"]; ["toolset"; "web_search"; "excluded_domains"]].

Lemma says_at_table k p k' f t : says (k :: p) (TTable (at_table k' f t)) =
  if k =s? k' then match tget k t with Some (TTable c) => says p (TTable (f c)) | Some v => says p v | None => Silent end
  else says (k :: p) (TTable t).
Proof.
  unfold at_table. cbn [says]. destruct (String.eqb_spec k k') as [->|N].
  - destruct (tget k' t) as [[]|] eqn:E; rewrite ?E; try done. by rewrite tget_insert, String.eqb_refl.
  - destruct (tget k' t) as [[]|] eqn:E; try done. rewrite tget_insert. by rewrite (proj2 (String.eqb_neq _ _)).
Qed.

Lemma says_normalize p v : (forall q, q ∈ DOMAIN_PATHS -> ~ comparable p q) -> says p (normalize_config_layer v) = says p v.
Proof.
  intros N. destruct v as [| | | | | |t]; try done. cbn [normalize_config_layer].
  assert (N1 : ~ comparable p ["toolset"; "web_search"; "allowed_domains"]) by (apply N; apply list_elem_of_here).
  assert (N2 : ~ comparable p ["toolset"; "web_search"; "excluded_domains"]) by (apply N; apply list_elem_of_further, list_elem_of_here).
  clear N. destruct p as [|k p]; [destruct N1; apply comparable_nil_l|]. rewrite says_at_table.
  destruct (String.eqb_spec k "toolset") as [->|]; [|done]. rewrite comparable_cons in N1, N2. cbn [says].
  destruct (tget "toolset" t) as [[| | | | | |c]|]; try done. destruct p as [|k p]; [destruct N1; apply comparable_nil_l|].
  rewrite says_at_table. destruct (String.eqb_spec k "web_search") as [->|]; [|done]. rewrite comparable_cons in N1, N2. cbn [says].
  destruct (tget "web_search" c) as [[| | | | | |d]|]; try done. destruct p as [|k p]; [destruct N1; apply comparable_nil_l|].
  cbn [says]. destruct (String.eqb_spec k "allowed_domains") as [->|M1];
    [destruct N1; apply comparable_cons, comparable_nil_r|].
  destruct (String.eqb_spec k "excluded_domains") as [->|M2]; [destruct N2; apply comparable_cons, comparable_nil_r|].
  unfold clear_other_domains. destruct (_ && _); [|destruct (_ && _)]; rewrite ?tget_insert; try done;
    by rewrite ?(proj2 (String.eqb_neq _ _) M1), ?(proj2 (String.eqb_neq _ _) M2).
Qed.

Lemma remove_fold_none keys k t : tget k t = None \/ k ∈ keys -> tget k (foldl (fun patch key => tremove key patch) t keys) = None.
Proof.
  revert t. induction keys as [|k' keys IH]; intros t; cbn [foldl]; [by intros [?|?%elem_of_nil]|]. rewrite elem_of_cons.
  intros H. apply IH. rewrite tget_remove. destruct (String.eqb_spec k k') as [->|]; [by left|]. naive_solver.
Qed.

Lemma strip_fold_none ps k t : tget k t = None ->
  tget k (foldl (fun patch (path : list string) => strip_path path patch) t ps) = None.
Proof. revert t. induction ps as [|p ps IH]; intros t E; [done|]. by apply IH, strip_path_none. Qed.

Definition stripped_paths (keys : list string) : list (list string) := ((fun k => [k]) <$> keys) ++ PATCH_STRIP_PATHS.

Lemma not_comparable_head k k' p q : k <> k' -> ~ comparable (k :: p) (k' :: q).
Proof. intros N [H|H]; apply prefix_cons_inv_1 in H; congruence. Qed.

Lemma prepare_silent config patch keys q : q ∈ stripped_paths keys -> says q (prepare_patch config patch keys) = Silent.
Proof.
  unfold stripped_paths. rewrite elem_of_app, list_elem_of_fmap. unfold prepare_patch. intros [(k&->&Hk)|Hq].
  - cbn [normalize_config_layer says]. rewrite at_table_none; [done|]. apply strip_fold_none, at_table_none, remove_fold_none. by right.
  - rewrite says_normalize.
    + apply strip_fold_silent; [by right|]. by apply (bool_decide_unpack _).
    + intros r Hr. assert (exists q', q = "ui" :: q') as [q' ->].
      { apply elem_of_cons in Hq as [->|Hq]; [by eexists|]. apply list_elem_of_singleton in Hq as ->. by eexists. }
      assert (exists r', r = "toolset" :: r') as [r' ->].
      { apply elem_of_cons in Hr as [->|Hr]; [by eexists|]. apply list_elem_of_singleton in Hr as ->. by eexists. }
      by apply not_comparable_head.
Qed.

Lemma patches_keep config patches keys q p : List.Forall wf_table patches -> q ∈ stripped_paths keys -> q `prefix_of` p ->
  get_path p (apply_patches config patches keys) = get_path p config.
Proof.
  intros F Hq [r ->]. unfold apply_patches. revert config. induction F as [|x ps Wx _ IH]; intros config; [done|]. cbn [foldl]. rewrite IH.
  rewrite merge_at by (by apply wf_prepare). by rewrite (silent_extend q r _ (prepare_silent config x keys q Hq)).
Qed.

(** What is taken out of patches cannot be reached by them.  Whatever the
    campaigns say, the settings for logging in and for providers, the command
    of the status line and the hooks of notifications are left as they were. *)
Theorem campaigns_cannot_reach config active q p :
  List.Forall (fun e => wf_table (cp_patch e)) active -> q ∈ stripped_paths CAMPAIGN_STRIP_KEYS -> q `prefix_of` p ->
  get_path p (apply_active_campaign_patches config active) = get_path p config.
Proof.
  intros F. apply patches_keep. apply List.Forall_forall. intros x Hx%list_elem_of_In.
  apply list_elem_of_fmap in Hx as (e&->&He%list_elem_of_In). rewrite List.Forall_forall in F. by apply F, in_rev.
Qed.
(** *** The identity of a model *)

Lemma strip_other_head k k' p t : k <> k' -> tget k (strip_path (k' :: p) t) = tget k t.
Proof.
  intros N. destruct p as [|k2 p]; cbn [strip_path]; [|destruct (tget k' t) as [[]|]]; rewrite ?tget_remove, ?tget_insert; try done;
    by rewrite (proj2 (String.eqb_neq _ _) N).
Qed.

Lemma says_ext k p t t' : tget k t = tget k t' -> says (k :: p) (TTable t) = says (k :: p) (TTable t').
Proof. intros E. cbn. by rewrite E. Qed.

Lemma tget_map_values (f : string -> TomlValue -> TomlValue) k t : tget k ((fun '(id, pm) => (id, f id pm)) <$> t) = f k <$> tget k t.
Proof. induction t as [|[k' v] t IH]; [done|]. cbn. destruct (String.eqb_spec k k') as [->|]; [done|exact IH]. Qed.

(** What a prepared patch says of a field of a model. *)
Definition model_say config (patch : Table) (id f : string) : Say :=
  match tget "model" patch with
  | None => Silent
  | Some (TTable c) => match strip_model (has_mtls_identity config id) <$> tget id c with Some v => says [f] v | None => Silent end
  | Some _ => Cut
  end.

Lemma prepare_model config patch keys id f :
  says ["model"; id; f] (prepare_patch config patch keys) =
  model_say config (foldl (fun patch key => tremove key patch) patch keys) id f.
Proof.
  unfold prepare_patch. rewrite says_normalize.
  2:{ intros q [->|[->|[]%elem_of_nil]%elem_of_cons]%elem_of_cons; by apply not_comparable_head. }
  generalize (foldl (fun patch key => tremove key patch) patch keys) as t. intros t. unfold PATCH_STRIP_PATHS. cbn [foldl].
  erewrite says_ext; [|rewrite !strip_other_head by done; reflexivity].
  rewrite says_at_table. cbn [String.eqb]. unfold model_say. destruct (tget "model" t) as [[| | | | | |c]|]; try done.
  cbn [says]. rewrite (tget_map_values (fun id => strip_model (has_mtls_identity config id))). by destruct (tget id c).
Qed.

Lemma has_identity config id d : get_path ["model"; id; "mtls_cert_dir"] config = Some d -> has_mtls_identity config id = true.
Proof.
  unfold has_mtls_identity. cbn. destruct (tv_get config "model") as [m|]; [|done]. cbn. unfold tv_get.
  destruct (tv_table m) as [c|]; [|done]. cbn. destruct (tget id c) as [v|]; [|done]. cbn. destruct (tv_table v) as [f|]; [|done]. cbn.
  by destruct (tget "mtls_cert_dir" f).
Qed.

Lemma patch_keeps_identity config patch keys id d : wf_table patch ->
  let config' := deep_merge_toml config (prepare_patch config patch keys) in
  get_path ["model"; id; "mtls_cert_dir"] config' = Some d ->
  get_path ["model"; id; "mtls_cert_dir"] config = Some d /\
  forall f, f ∈ ["base_url"; "api_base_url"] -> get_path ["model"; id; f] config' = get_path ["model"; id; f] config.
Proof.
  cbv zeta. intros W. setoid_rewrite (merge_at _ config (prepare_patch config patch keys) (wf_prepare _ _ _ W)).
  rewrite prepare_model. setoid_rewrite prepare_model. set (t := foldl _ _ _). unfold model_say.
  destruct (tget "model" t) as [[| | | | | |c]|]; try done. destruct (tget id c) as [[| | | | | |m]|]; try done. cbn [fmap option_fmap option_map].
  assert (R : forall bound, says ["mtls_cert_dir"] (strip_model bound (TTable m)) = Silent).
  { intros []; cbn [says strip_model]; rewrite !tget_remove; done. }
  rewrite R. intros H. cbn [apply_say] in H. split; [done|]. rewrite (has_identity _ _ _ H).
  intros f [->|[->|[]%elem_of_nil]%elem_of_cons]%elem_of_cons; cbn [says strip_model]; by rewrite !tget_remove.
Qed.

(** A patch can take the client certificate of a model away but cannot
    redirect it.  A model that has one after the patches had the same one
    before, and the addresses it is used for are those of before. *)
Theorem patches_keep_identity config patches keys id d : List.Forall wf_table patches ->
  get_path ["model"; id; "mtls_cert_dir"] (apply_patches config patches keys) = Some d ->
  get_path ["model"; id; "mtls_cert_dir"] config = Some d /\
  forall f, f ∈ ["base_url"; "api_base_url"] ->
    get_path ["model"; id; f] (apply_patches config patches keys) = get_path ["model"; id; f] config.
Proof.
  unfold apply_patches. intros F. revert config. induction F as [|x ps Wx _ IH]; intros config; [done|]. cbn [foldl]. intros H.
  apply IH in H as [H1 H2]. apply patch_keeps_identity in H1 as [K1 K2]; [|done]. split; [done|].
  intros f Hf. by rewrite H2, K2.
Qed.

(** *** Versions *)

Lemma take_removes {M} fields (meta_of : Table -> option M) config k : get_path [k] (take_patch_array fields meta_of config k).1 = None.
Proof.
  unfold take_patch_array. destruct config as [| | | | | |t]; try done. destruct (tget k t) as [v|] eqn:E; cbn; unfold tv_get; cbn.
  - by rewrite tget_remove, String.eqb_refl.
  - by rewrite E.
Qed.

(** Every entry is a table, its bounds are texts, and both are versions. *)
Definition good_bound (b : option string) : Prop := forall s, b = Some s -> is_Some (version_parse (trim s)).
Definition GoodOverrides config : Prop :=
  forall t arr, config = TTable t -> tget VERSION_OVERRIDES_KEY t = Some arr ->
  exists l entries, arr = TArray l /\ mapM (take_entry ["minimum_version"; "maximum_version"] version_meta) l = Some entries /\
    forall meta patch, (meta, patch) ∈ entries -> good_bound (minimum_version meta) /\ good_bound (maximum_version meta).

Lemma parse_bounds_ok i meta patch : is_Some (ok (parse_bounds i (meta, patch))) <-> good_bound (minimum_version meta) /\ good_bound (maximum_version meta).
Proof.
  unfold good_bound. cbn. destruct (minimum_version meta) as [mi|]; [destruct (version_parse (trim mi)) as [mv|] eqn:E1|];
    (destruct (maximum_version meta) as [ma|]; [destruct (version_parse (trim ma)) as [xv|] eqn:E2|]); cbn; split; intros H;
    try (by destruct H); try (split; intros s [= <-]; rewrite ?E1, ?E2; eauto); try eauto;
    destruct H as [H1 H2]; first [specialize (H1 _ eq_refl); rewrite E1 in H1; by destruct H1|specialize (H2 _ eq_refl); rewrite E2 in H2; by destruct H2].
Qed.

Lemma parse_all_ok i entries : is_Some (ok (parse_all_bounds i entries)) <->
  forall meta patch, (meta, patch) ∈ entries -> good_bound (minimum_version meta) /\ good_bound (maximum_version meta).
Proof.
  revert i. induction entries as [|[m x] es IH]; intros i; [split; [by intros _ ? ? ?%elem_of_nil|by eexists]|].
  cbn [parse_all_bounds]. setoid_rewrite elem_of_cons. pose proof (parse_bounds_ok i m x) as B. specialize (IH (S i)).
  destruct (parse_bounds i (m, x)) as [b|]; cbn in B |- *.
  - destruct (parse_all_bounds (S i) es) as [l|]; cbn in IH |- *; split.
    + intros _ meta patch [[= -> ->]|H]; [apply B; eauto|]. eapply (proj1 IH); eauto.
    + eauto.
    + by intros [].
    + intros H. apply (proj2 IH). eauto.
  - split; [by intros []|]. intros H. destruct (proj2 B (H m x (or_introl eq_refl))). done.
Qed.

(** Overrides by version are all or nothing.  They are applied exactly when
    every entry is well formed and every bound is a version; otherwise there is
    an error and nothing of them is applied.  Either way none are left in the
    configuration, also when a patch tries to put them there. *)
Theorem overrides_all_or_nothing config version : wf config ->
  let r := apply_version_overrides config version in
  (r.2 = Ok tt <-> GoodOverrides config) /\
  (r.2 <> Ok tt -> r.1 = (take_patch_array ["minimum_version"; "maximum_version"] version_meta config VERSION_OVERRIDES_KEY).1) /\
  get_path [VERSION_OVERRIDES_KEY] r.1 = None.
Proof.
  cbv zeta. intros W. unfold apply_version_overrides.
  pose proof (take_removes ["minimum_version"; "maximum_version"] version_meta config VERSION_OVERRIDES_KEY) as R.
  destruct (take_patch_array _ _ _ _) as [c es] eqn:E. pose proof (wf_take_patch _ _ _ _ _ _ W E) as [_ We]. cbn [fst] in R |- *.
  assert (Gd : GoodOverrides config <-> exists entries, es = Some entries /\ is_Some (ok (parse_all_bounds 0 entries))).
  { setoid_rewrite parse_all_ok. unfold GoodOverrides. unfold take_patch_array in E.
    destruct config as [| | | | | |t]; try (injection E as <- <-; split; [intros _; exists []; split; [done|by intros ? ? ?%elem_of_nil]|done]).
    destruct (tget VERSION_OVERRIDES_KEY t) as [arr|] eqn:T; injection E as <- <-.
    - split.
      + intros H. destruct (H t arr eq_refl T) as (l&entries&->&M&G). exists entries. by rewrite <- M.
      + intros (entries&M&G) t' arr' [= <-] T'. rewrite T in T'. injection T' as <-. destruct arr as [| | | | |l|]; try done.
        exists l, entries. done.
    - split; [intros _; exists []; split; [done|by intros ? ? ?%elem_of_nil]|]. intros _ t' arr' [= <-] T'. by rewrite T in T'. }
  rewrite Gd. destruct es as [es|]; cbn [unwrap_or] in We.
  - destruct (parse_all_bounds 0 es) as [l|] eqn:P; cbn.
    + split_and!; [split; [intros _; exists es; by rewrite P|done]|done|].
      change (get_path [VERSION_OVERRIDES_KEY] (apply_patches c (snd <$> List.filter (bounds_contain version) (sort_bounded l)) PATCH_STRIP_KEYS) = None).
      rewrite (patches_keep _ _ _ [VERSION_OVERRIDES_KEY]); [done| |by apply list_elem_of_here|done].
      apply List.Forall_forall. intros patch Hp%list_elem_of_In. apply (applied_patches _ _ _ P) in Hp.
      apply list_elem_of_fmap in Hp as (e&->&He%list_elem_of_In). rewrite List.Forall_forall in We. by apply We.
    + split_and!; [split; [done|intros (?&[= <-]&H); rewrite P in H; by destruct H]|done|done].
  - cbn. split_and!; [split; [done|intros (?&[=]&_)]|done|done].
Qed.
End reach.

(** ** The configuration in force *)

Section in_force.
Context `{Sv : Semver} `{Ex : ShellExpand} `{Tp : TomlParser} `{Cf : ConfigFiles} `{I : @Installation Sv} `{V : SerdeView}.
Context (toml_of_json : Value -> option TomlValue).
Implicit Types (layers : ConfigLayers) (v : TomlValue) (p q : list string).

(** The crates give values without a key twice. *)
Class TomlLaws : Prop := {
  parse_wf : forall s v, toml_from_str s = Ok v -> wf v;
  json_wf : forall j v, toml_of_json j = Some v -> wf v;
  preferences_wf : forall v, managed_preferences_requirements = Some v -> wf v }.
Context {Laws : TomlLaws}.

Record WfLayers layers : Prop := {
  wl_system : wf (system_managed layers);
  wl_managed : wf (managed layers);
  wl_user : wf (user layers);
  wl_overlay : forall v, env_overlay layers = Some v -> wf v;
  wl_requirements : List.Forall wf (requirements_in_order layers) }.

Lemma wf_load_toml path v : load_toml_file path = Ok v -> wf v.
Proof.
  unfold load_toml_file, read_toml_file. destruct (read_to_string path) as [s| |e].
  - destruct (is_empty _); [intros [= <-]; cbn; split; [constructor|done]|]. destruct (toml_from_str s) eqn:E; [|done].
    intros [= <-]. by eapply wf_expand, parse_wf.
  - intros [= <-]. cbn. split; [constructor|done].
  - done.
Qed.

Lemma wf_with_overrides r v : (forall v, r = Ok v -> wf v) -> with_overrides r = Ok v -> wf v.
Proof.
  intros H. destruct r as [v0|]; [|done]. cbn. pose proof (wf_registered v0 (H _ eq_refl)) as W.
  destruct (apply_version_overrides_with_registered v0) as [v1 [|]]; [|done]. by intros [= <-].
Qed.

Lemma wf_empty : wf (TTable []).
Proof. split; [constructor|done]. Qed.

Lemma wf_user_layer home name v : load_user_config_layer home name = Ok v -> wf v.
Proof.
  destruct home as [g|]; cbn; [|intros [= <-]; apply wf_empty]. apply wf_with_overrides. intros v'. apply wf_load_toml.
Qed.

Lemma wf_normalize_requirements v v' : wf v -> normalize_requirements_value v = Some v' -> wf v'.
Proof.
  intros W. unfold normalize_requirements_value. set (v1 := match v with TTable t => _ | _ => _ end).
  assert (W1 : wf v1) by (destruct v as [| | | | | |t]; try done; by apply wf_TTable, wf_remove, wf_TTable).
  pose proof (wf_registered v1 W1). destruct (apply_version_overrides_with_registered v1) as [v2 [|]]; [|done]. by intros [= <-].
Qed.

Lemma wf_requirements path v : load_requirements_layer path = Some v -> wf v.
Proof.
  unfold load_requirements_layer. destruct (load_toml_file path) as [v0|] eqn:E; [|done]. destruct (non_empty_table v0); [|done].
  apply wf_normalize_requirements. by eapply wf_load_toml.
Qed.

Lemma wf_overlay raw source o : wf raw -> finalize_overlay raw source = Some o -> wf (ov_value o).
Proof.
  intros W. unfold finalize_overlay. pose proof (wf_registered _ (wf_expand raw W)) as W1.
  destruct (apply_version_overrides_with_registered _) as [v1 [|]]; [|done]. cbn in W1.
  pose proof (proj1 (wf_take_campaigns v1 W1)) as W2. destruct (take_campaign_entries v1) as [v2 es]. cbn in W2.
  destruct (negb _); [|done]. intros [= <-]. by apply wf_normalize, wf_retain.
Qed.

(** Every overlay comes out of [finalize_overlay]. *)
Lemma overlay_finalized v : load_env_overlay toml_of_json = Some v ->
  exists raw source o, wf raw /\ finalize_overlay raw source = Some o /\ v = ov_value o.
Proof.
  unfold load_env_overlay. destruct env_overlay_inputs as [inline path].
  destruct (resolve_overlay_detailed toml_of_json inline path) as [o|] eqn:E; [|done]. intros [= <-]. unfold resolve_overlay_detailed in E.
  assert (P : forall raw f x, parse_overlay toml_of_json raw f = Some x -> wf x).
  { intros raw f x. unfold parse_overlay.
    assert (T : forall y, then_some (is_table y) y = Some x -> y = x) by (intros y; destruct (is_table y); by intros [= ->]).
    destruct f.
    - destruct (ok (from_str raw)) as [j|]; [|done]. cbn [mbind option_bind].
      destruct (toml_of_json _) as [y|] eqn:Y; [|done]. intros <-%T. by eapply json_wf.
    - destruct (toml_from_str raw) as [y|] eqn:Y; [|done]. cbn [ok mbind option_bind]. intros <-%T. by eapply parse_wf. }
  destruct (inline ≫= resolve_inline_overlay toml_of_json) as [o'|] eqn:Q.
  - injection E as <-. destruct inline as [s|]; [|done]. cbn [mbind option_bind] in Q. unfold resolve_inline_overlay in Q. destruct (is_empty _); [done|].
    destruct (parse_overlay _ _ _) as [x|] eqn:X; [|done]. exists x, Inline, o'. eauto.
  - destruct path as [s|]; [|done]. cbn [mbind option_bind] in E. unfold resolve_path_overlay in E.
    destruct (read_capped_overlay_file s); [|done]. cbn [mbind option_bind] in E.
    destruct (parse_overlay _ _ _) as [x|] eqn:X; [|done]. exists x, (OverlayPath s), o. eauto.
Qed.

Lemma wf_optional o : (forall v, o = Some v -> wf v) -> List.Forall wf (opt_list (normalize_config_layer <$> (take_optional o).1)).
Proof.
  intros H. destruct o as [v|]; [|constructor]. cbn. pose proof (proj1 (wf_take_campaigns v (H v eq_refl))) as W.
  destruct (take_campaign_entries v). cbn in W |- *. constructor; [by apply wf_normalize|constructor].
Qed.

Lemma load_shape layers : ConfigLayers_load toml_of_json = Ok layers ->
  exists vs vm vu, load_system_managed_config = Ok vs /\ load_managed_config = Ok vm /\ load_from_disk = Ok vu /\
    system_managed layers = normalize_config_layer (take_campaign_entries vs).1 /\
    managed layers = normalize_config_layer (take_campaign_entries vm).1 /\
    user layers = normalize_config_layer (take_campaign_entries vu).1 /\
    env_overlay layers = load_env_overlay toml_of_json /\
    requirements_in_order layers = opt_list (normalize_config_layer <$> (take_optional load_requirements).1) ++
      opt_list (normalize_config_layer <$> (take_optional load_system_requirements).1) ++
      opt_list (normalize_config_layer <$> (take_optional mdm_requirements_value).1).
Proof.
  unfold ConfigLayers_load. destruct load_system_managed_config as [vs|]; [|done]. destruct (take_campaign_entries vs) as [a1 a2] eqn:A.
  destruct load_managed_config as [vm|]; [|done]. destruct (take_campaign_entries vm) as [b1 b2] eqn:B.
  destruct load_from_disk as [vu|]; [|done]. destruct (take_campaign_entries vu) as [c1 c2] eqn:C.
  destruct (take_optional mdm_requirements_value) as [m1 m2], (take_optional load_system_requirements) as [s1 s2],
    (take_optional load_requirements) as [u1 u2]. intros [= <-]. exists vs, vm, vu. by rewrite A, B, C.
Qed.

Lemma loaded_wf layers : ConfigLayers_load toml_of_json = Ok layers -> WfLayers layers.
Proof.
  intros (vs&vm&vu&Ls&Lm&Lu&Es&Em&Eu&Eo&Er)%load_shape. split.
  - rewrite Es. apply wf_normalize, wf_take_campaigns. revert Ls. unfold load_system_managed_config. apply wf_with_overrides.
    intros v. destruct system_config_dir; [apply wf_load_toml|intros [= <-]; apply wf_empty].
  - rewrite Em. by eapply wf_normalize, wf_take_campaigns, wf_user_layer.
  - rewrite Eu. by eapply wf_normalize, wf_take_campaigns, wf_user_layer.
  - rewrite Eo. intros v (raw&source&o&W&F&->)%overlay_finalized. by eapply wf_overlay.
  - rewrite Er. rewrite !Forall_app. split_and!; apply wf_optional; intros v.
    + unfold load_requirements, load_user_requirements. destruct user_grok_home; cbn; [|done]. apply wf_requirements.
    + unfold load_system_requirements. destruct system_config_dir; cbn; [|done]. apply wf_requirements.
    + unfold mdm_requirements_value. destruct managed_preferences_requirements as [m|] eqn:M; cbn; [|done].
      by apply wf_normalize_requirements, preferences_wf.
Qed.

Lemma stack_wf layers : WfLayers layers -> forall overlay, (forall v, v ∈ overlay -> wf v) ->
  List.Forall wf ([managed layers; user layers] ++ overlay ++ requirements_in_order layers).
Proof.
  intros W overlay H. repeat constructor; [apply W..|]. apply Forall_app. split; [|apply W]. apply List.Forall_forall.
  intros v Hv%list_elem_of_In. by apply H.
Qed.

Lemma campaigns_of_wf layers : ConfigLayers_load toml_of_json = Ok layers ->
  List.Forall (List.Forall (fun e => wf_table (cp_patch e))) (campaign_source_slices layers []).
Proof.
  intros L. pose proof L as (vs&vm&vu&Ls&Lm&Lu&_)%load_shape. revert L. unfold ConfigLayers_load. rewrite Ls, Lm, Lu.
  assert (Ws : wf vs).
  { revert Ls. unfold load_system_managed_config. apply wf_with_overrides.
    intros v. destruct system_config_dir; [apply wf_load_toml|intros [= <-]; apply wf_empty]. }
  pose proof (proj2 (wf_take_campaigns vs Ws)). pose proof (proj2 (wf_take_campaigns vm (wf_user_layer _ _ _ Lm))).
  pose proof (proj2 (wf_take_campaigns vu (wf_user_layer _ _ _ Lu))).
  assert (O : forall o, (forall v, o = Some v -> wf v) -> List.Forall (fun e => wf_table (cp_patch e)) (take_optional o).2).
  { intros [v|] Hv; [|constructor]. cbn. pose proof (proj2 (wf_take_campaigns v (Hv v eq_refl))). by destruct (take_campaign_entries v). }
  assert (O1 := O load_requirements). assert (O2 := O load_system_requirements). assert (O3 := O mdm_requirements_value). clear O.
  destruct (take_campaign_entries vs), (take_campaign_entries vm), (take_campaign_entries vu).
  destruct (take_optional mdm_requirements_value), (take_optional load_system_requirements), (take_optional load_requirements).
  intros [= <-]. cbn [snd] in *.
  unfold campaign_source_slices. cbn [campaigns cp_requirements cp_user cp_managed cp_system_managed].
  apply List.Forall_cons_iff. split; [|by repeat constructor].
  rewrite !Forall_app. split_and!; [apply O3|apply O2|apply O1]; intros v.
  - unfold mdm_requirements_value. destruct managed_preferences_requirements as [m|] eqn:M; cbn; [|done].
    by apply wf_normalize_requirements, preferences_wf.
  - unfold load_system_requirements. destruct system_config_dir; cbn; [|done]. apply wf_requirements.
  - unfold load_requirements, load_user_requirements. destruct user_grok_home; cbn; [|done]. apply wf_requirements.
Qed.

Lemma merged_campaigns sources e : e ∈ merge_campaign_entries sources -> e ∈ concat sources.
Proof.
  unfold merge_campaign_entries. generalize (concat sources) as l. intros l.
  assert (G : forall l out, e ∈ foldl (fun out e => if existsb (fun x => cp_id x =s? cp_id e) out then out else out ++ [e]) out l -> e ∈ out \/ e ∈ l).
  { clear. induction l as [|x l IH]; intros out H; cbn in H; [by left|]. apply IH in H as [H|H]; [|right; by apply list_elem_of_further].
    destruct (existsb _ out); [by left|]. apply elem_of_app in H as [H|H%list_elem_of_singleton]; [by left|right; subst; apply list_elem_of_here]. }
  intros H. apply G in H as [H|H]; [by apply elem_of_nil in H|done].
Qed.



(** *** The overlay *)

Lemma retain_silent v paths top p : p <> [] -> (forall q, q ∈ paths -> ~ comparable p q) ->
  is_table v = true -> wf v -> says p (retain_allowed_paths v paths top) = Silent.
Proof.
  revert v paths top. induction p as [|k p IH]; intros v paths top N C T W; [done|]. destruct v as [| | | | | |t]; try done. clear N T.
  cbn [retain_allowed_paths says]. apply wf_TTable in W. match goal with |- context [filter_map ?F t] => set (f := F) end.
  destruct (tget k (filter_map f t)) as [v|] eqn:E; [|done]. apply tget_elem, elem_of_filter_map in E as ([k' v']&Hin&F).
  assert (Wv : wf v') by (destruct W as [_ W]; rewrite List.Forall_forall in W; by apply (W (k', v')), list_elem_of_In).
  assert (K : forall q, q ∈ nested_paths k paths -> ~ comparable p q).
  { intros q Hq. apply elem_of_filter_map in Hq as ([|k1 q1]&Hq&E1); [done|]. cbn in E1.
    destruct (String.eqb_spec k1 k) as [->|]; [|done]. injection E1 as <-. intros Cq. by apply (C _ Hq), comparable_cons. }
  unfold f in F. destruct (nested_paths k' paths) as [|n ns] eqn:Nk; [done|]. rewrite <- Nk in F.
  destruct (existsb is_nil (nested_paths k' paths)) eqn:X.
  - exfalso. assert (k' = k) as -> by (destruct (negb top || is_table v'); cbn in F; congruence).
    apply existsb_exists in X as (q&Hq%list_elem_of_In&Hn). destruct q; [|done]. apply (K _ Hq), comparable_nil_r.
  - destruct v' as [| | | | | |c]; try done. assert (k' = k /\ v = retain_allowed_paths (TTable c) (nested_paths k' paths) false) as [-> ->].
    { cbn [retain_allowed_paths] in F |- *. destruct (filter_map _ c); simplify_eq; done. }
    apply IH; try done. intros ->. apply (K n); [rewrite Nk; apply list_elem_of_here|apply comparable_nil_l].
Qed.

Lemma overlay_silent raw source o p : wf raw -> finalize_overlay raw source = Some o ->
  (forall q, q ∈ OVERLAY_ALLOW_PATHS -> ~ comparable p q) -> says p (ov_value o) = Silent.
Proof.
  intros W F N. assert (Np : p <> []) by (intros ->; apply (N ["models"]); [apply list_elem_of_here|apply comparable_nil_l]).
  revert F. unfold finalize_overlay. pose proof (wf_registered _ (wf_expand raw W)) as W1.
  destruct (apply_version_overrides_with_registered _) as [v1 [|]]; [|done]. cbn in W1.
  pose proof (proj1 (wf_take_campaigns v1 W1)) as W2. destruct (take_campaign_entries v1) as [v2 es]. cbn in W2.
  destruct (negb _) eqn:Z; [|done]. intros [= <-]. cbn. rewrite says_normalize.
  - destruct (is_table v2) eqn:T; [by apply retain_silent|]. exfalso. by destruct v2.
  - intros q Hq. apply N. apply elem_of_cons in Hq as [H|H%list_elem_of_singleton]; subst; by apply (bool_decide_unpack _).
Qed.

(** The overlay of the environment reaches only the settings on its list.
    At every other path the configuration is the one without the overlay: the
    hooks, servers, credentials and commands of the files cannot be changed by
    a variable. *)
Theorem overlay_confined layers p : ConfigLayers_load toml_of_json = Ok layers ->
  (forall q, q ∈ OVERLAY_ALLOW_PATHS -> ~ comparable p q) ->
  get_path p (effective_config_base layers) = get_path p (effective_config_base_without_overlay layers).
Proof.
  intros L N. pose proof (loaded_wf _ L) as W. unfold effective_config_base, effective_config_base_without_overlay, merge_with.
  rewrite !merge_layers_at; [|apply stack_wf; [done|]..].
  - destruct (env_overlay layers) as [v|] eqn:E; [|done]. cbn [opt_list app foldl].
    pose proof L as (?&?&?&_&_&_&_&_&_&Eo&_)%load_shape. rewrite Eo in E. apply overlay_finalized in E as (raw&source&o&Wr&F&->).
    by rewrite (overlay_silent raw source o p).
  - intros v ?%elem_of_nil. done.
  - intros v. destruct (env_overlay layers) as [o|] eqn:E; [intros ->%list_elem_of_singleton; by apply (wl_overlay _ W)|by intros ?%elem_of_nil].
Qed.

(** *** Requirements that insist *)

Lemma overrides_ignore_flag t version :
  (apply_version_overrides (TTable (tremove FAIL_CLOSED_KEY t)) version).2 = (apply_version_overrides (TTable t) version).2.
Proof.
  unfold apply_version_overrides, take_patch_array. rewrite tget_remove. change (VERSION_OVERRIDES_KEY =s? FAIL_CLOSED_KEY) with false. cbv iota.
  destruct (tget VERSION_OVERRIDES_KEY t) as [arr|]; [|done]. destruct (tv_array arr ≫= _) as [es|]; [|done].
  by destruct (parse_all_bounds 0 es).
Qed.

Lemma validated_normalizes v source : non_empty_table v = true -> resolve_fail_closed_mode v = true ->
  validate_requirements_value v source = Ok tt -> is_Some (normalize_requirements_value v).
Proof.
  unfold validate_requirements_value. intros N M. rewrite N, M. cbn [negb]. destruct v as [| | | | | |t]; try done.
  unfold normalize_requirements_value, apply_version_overrides_with_registered. destruct installed_semver as [version|]; [|by eexists].
  pose proof (overrides_ignore_flag t version) as E. destruct (apply_version_overrides (TTable t) version) as [c [|e]]; [|done].
  destruct (apply_version_overrides (TTable (tremove FAIL_CLOSED_KEY t)) version) as [c' r]. cbn in E. subst r. by eexists.
Qed.

(** Requirements that say something and insist on being in force. *)
Definition insists v : Prop := non_empty_table v = true /\ resolve_fail_closed_mode v = true.

Lemma validated_layer path v : load_toml_file path = Ok v -> insists v -> validate_requirements_layer path = Ok tt ->
  is_Some (load_requirements_layer path).
Proof.
  intros L [N M]. unfold validate_requirements_layer, load_requirements_layer. rewrite L, N. by apply validated_normalizes.
Qed.

(** Requirements that insist are in force or stop the program.  When the
    check at the start passes, each of the three sources that can be read, is
    not empty and insists is loaded as a layer: none is dropped without a
    word. *)
Theorem insisting_requirements_load : validate_requirements = Ok tt ->
  (forall home v, user_grok_home = Some home -> load_toml_file (push home REQUIREMENTS_FILENAME) = Ok v -> insists v ->
     is_Some load_requirements) /\
  (forall dir v, system_config_dir = Some dir -> load_toml_file (push dir REQUIREMENTS_FILENAME) = Ok v -> insists v ->
     is_Some load_system_requirements) /\
  (forall v, managed_preferences_requirements = Some v -> insists v -> is_Some mdm_requirements_value).
Proof.
  unfold validate_requirements, validate_user_requirements, load_requirements, load_user_requirements, load_system_requirements,
    mdm_requirements_value.
  destruct (match user_grok_home with Some g => _ | None => _ end) as [[]|] eqn:U; [|done].
  destruct (match system_config_dir with Some d => _ | None => _ end) as [[]|] eqn:S; [|done]. intros P. split_and!.
  - intros home v E Lv Iv. rewrite E in U |- *. by eapply validated_layer.
  - intros dir v E Lv Iv. rewrite E in S |- *. by eapply validated_layer.
  - intros v E [N M]. rewrite E in P |- *. by eapply validated_normalizes.
Qed.
End in_force.

(** ** A concrete installation *)

Module ConfigSample.
#[local] Existing Instances Tree.serde SettingsSample.tree_view.

#[local] Instance two_versions : Semver := {|
  Version := nat; version_parse s := if s =s? "1.0.0" then Some 1%nat else if s =s? "2.0.0" then Some 2%nat else None;
  version_cmp := Nat.compare; version_zero := 0%nat |}.
#[local] Instance no_expansion : ShellExpand := fun _ s => s.

Definition campaign : TomlValue :=
  TTable [("id", TString "c1"); ("auth", TTable [("preferred_method", TString "evil")]); ("models", TTable [("default", TString "new")])].
Definition user_file : TomlValue :=
  TTable [("models", TTable [("default", TString "mine")]); ("campaigns", TArray [campaign]);
          ("toolset", TTable [("bash", TTable [("cmd_prefix", TString "nice")])]);
          ("version_overrides", TArray [TTable [("minimum_version", TString "2.0.0"); ("features", TTable [("x", TBoolean true)])]])].
Definition required : TomlValue :=
  TTable [("fail_closed", TBoolean true); ("ui", TTable [("disable_bypass_permissions_mode", TBoolean true)]);
          ("models", TTable [("default", TString "approved")])].
Definition overlay_file : TomlValue :=
  TTable [("features", TTable [("x", TBoolean false)]); ("toolset", TTable [("bash", TTable [("cmd_prefix", TString "evil")])])].

#[local] Instance four_texts : TomlParser := fun s =>
  if s =s? "user" then Ok user_file else if s =s? "required" then Ok required else if s =s? "overlay" then Ok overlay_file
  else Err (MkTomlError (Some 2%Z) "expected a key").
#[local] Instance disk : ConfigFiles := {|
  read_to_string p := if p =s? "/home/u/config.toml" then Contents "user"
                      else if p =s? "/etc/grok/requirements.toml" then Contents "required"
                      else if p =s? "/o.toml" then Contents "overlay" else NotFound;
  config_is_file p := is_one_of ["/home/u/config.toml"; "/etc/grok/requirements.toml"; "/o.toml"] p |}.
#[local] Instance here : Installation := {|
  env_var n := if n =s? "GROK_CONFIG_PATH" then Some "/o.toml" else None; installed_semver := Some 1%nat;
  user_grok_home := Some "/home/u"; system_config_dir := Some "/etc/grok"; managed_preferences_requirements := None |}.
Definition no_json (j : Value) : option TomlValue := None.

Ltac wf_concrete := vm_compute; split_and!; try done; by apply (bool_decide_unpack _).

#[local] Instance laws : TomlLaws no_json.
Proof.
  split; [|done|done]. intros s v. unfold toml_from_str, four_texts.
  destruct (s =s? "user"); [intros [= <-]; wf_concrete|]. destruct (s =s? "required"); [intros [= <-]; wf_concrete|].
  destruct (s =s? "overlay"); [intros [= <-]; wf_concrete|done].
Qed.

Example parse_error : toml_error_detail ("a" +:+ String LF "b") (MkTomlError (Some 2%Z) "x") = "TOML parse error at line 2, column 1: x".
Proof. vm_compute. done. Qed.

Definition layers : ConfigLayers := Eval vm_compute in
  match ConfigLayers_load no_json with Ok l => l | Err _ => MkLayers (TTable []) (TTable []) (TTable []) None None None None (MkCampaigns [] [] [] []) end.

Lemma loaded : ConfigLayers_load no_json = Ok layers.
Proof. vm_compute. done. Qed.

Lemma touches_exact_witness :
  patch_touches_path [("models", TString "oops")] ["models"; "default"] = true <->
  exists config, get_path ["models"; "default"] (deep_merge_toml config (TTable [("models", TString "oops")])) <> get_path ["models"; "default"] config.
Proof. apply (touches_exact [("models", TString "oops")] ["models"; "default"]); [|done]. split; [by apply (bool_decide_unpack _)|by repeat constructor]. Defined.

Definition patch : Table := [("auth", TTable [("preferred_method", TString "evil")]); ("models", TTable [])].
Lemma wf_patch : wf_table patch.
Proof. apply wf_TTable. wf_concrete. Qed.

Lemma campaigns_cannot_reach_witness :
  get_path ["auth"; "preferred_method"] (apply_active_campaign_patches (TTable []) [MkCampaign "c1" patch]) = None.
Proof.
  apply (campaigns_cannot_reach (TTable []) [MkCampaign "c1" patch] ["auth"] ["auth"; "preferred_method"]).
  - constructor; [exact wf_patch|constructor].
  - by apply (bool_decide_unpack _).
  - by exists ["preferred_method"].
Defined.

Definition bound_model : TomlValue :=
  TTable [("model", TTable [("m", TTable [("mtls_cert_dir", TString "/certs"); ("base_url", TString "https://a")])])].
Definition redirect : Table := [("model", TTable [("m", TTable [("base_url", TString "https://evil"); ("temperature", TInteger 1)])])].

Lemma patches_keep_identity_witness :
  get_path ["model"; "m"; "base_url"] (apply_patches bound_model [redirect] []) = Some (TString "https://a").
Proof.
  apply (patches_keep_identity bound_model [redirect] [] "m" (TString "/certs")).
  - constructor; [|constructor]. apply wf_TTable. wf_concrete.
  - vm_compute. done.
  - apply list_elem_of_here.
Defined.

Definition two : @Version two_versions := 2%nat.
Lemma overrides_all_or_nothing_witness : get_path [VERSION_OVERRIDES_KEY] (apply_version_overrides user_file two).1 = None.
Proof. apply (overrides_all_or_nothing user_file two). wf_concrete. Defined.



Lemma overlay_confined_witness :
  get_path ["toolset"; "bash"; "cmd_prefix"] (effective_config_base layers) =
  get_path ["toolset"; "bash"; "cmd_prefix"] (effective_config_base_without_overlay layers).
Proof.
  apply (overlay_confined no_json layers ["toolset"; "bash"; "cmd_prefix"] loaded). apply list.Forall_forall.
  unfold OVERLAY_ALLOW_PATHS. repeat (constructor; [intros [[r H]|[r H]]; done|]). constructor.
Defined.

(** The overlay did reach what it may. *)
Example overlay_reaches : get_path ["features"; "x"] (effective_config_base layers) = Some (TBoolean false).
Proof. vm_compute. done. Qed.

Lemma insisting_requirements_load_witness : is_Some load_system_requirements.
Proof.
  assert (P : validate_requirements = Ok tt) by (vm_compute; done).
  apply (proj1 (proj2 (insisting_requirements_load P)) "/etc/grok" required); [done|vm_compute; done|].
  split; vm_compute; done.
Defined.
End ConfigSample.
