(* ===== verification/PermResolution.v ===== *)
(** * [xai-grok-workspace], [permission/resolution.rs]

    The permission rules in force: those of the requirements and of the managed
    settings, of the configuration files of the system, the user and the
    project, and of the settings of another assistant; the default mode; the pin
    that switches "always approve" off; the hint of a client.  The file shows
    which rules come out, that the pin leaves no rule that stands for "always
    approve", that a folder without trust adds nothing, and that the mode of the
    administrators cannot be replaced. *)

From stdpp Require Import gmap.
From S2P Require Import Prelude RustStr Json Paths PermRules BashCommand PermPolicy ExecRisk ShellAccess AutoMode PermPrompter PolicyUrl ClaudeSettings ManagedPolicy Toml ConfigLayers.

(** ** The default mode *)

Inductive UserDefaultModeLoad : Type := Apply | SkipManagedOwns.

(** The rules and records of a mode, and whether the pin stopped it. *)
Definition synthetic_rules_for_default_mode (mode : DefaultPermissionMode) (policy_block : option string)
  : list PermissionRule * list SkippedPermission * bool :=
  let e := effects mode in
  if eff_bypass_permissions e then
    match policy_block with
    | Some reason => ([], [MkSkipped "defaultMode=bypassPermissions" reason], true)
    | None => ([MkRule RAllow FAny None Glob], [], false)
    end
  else if eff_accept_edits e then ([MkRule RAllow FEdit None Glob], [], false)
  else ([], [], false).

(** ** The pin *)

Inductive YoloPinReason : Type := DisableBypassPermissionsMode | LegacyYoloFalse.
Definition pin_message (r : YoloPinReason) : string :=
  match r with
  | DisableBypassPermissionsMode =>
      "always-approve disabled by managed policy ([ui] disable_bypass_permissions_mode = true in requirements.toml)"
  | LegacyYoloFalse => "always-approve disabled by managed policy ([ui] yolo = false in requirements.toml)"
  end.
Record YoloPolicyLock : Type := MkLock { lock_source_label : string; lock_reason : YoloPinReason }.

Definition requirements_lock_bool (ui : option TomlValue) (key : string) : option bool := v ← ui; v ← tv_get v key; tv_bool v.

Fixpoint resolve_yolo_policy_block (layers : list (string * TomlValue)) : option YoloPolicyLock :=
  match layers with
  | [] => None
  | (path, layer) :: layers' =>
      let ui := tv_get layer "ui" in
      if bool_decide (requirements_lock_bool ui "disable_bypass_permissions_mode" = Some true)
      then Some (MkLock (from_utf8_lossy path) DisableBypassPermissionsMode)
      else if bool_decide (requirements_lock_bool ui "yolo" = Some false) then Some (MkLock (from_utf8_lossy path) LegacyYoloFalse)
      else resolve_yolo_policy_block layers'
  end.

(** The request of the vendor's file is only shown. *)
Definition claude_bypass_lock_request (features : ManagedSettingsFeatures) : bool :=
  is_some (ft_source_path features) && bool_decide (disable_yolo features = Some true).

(** ** Hints and excludes *)

Definition PERMISSION_MODE_ALWAYS_ALLOW : string := "alwaysAllow".

Definition apply_permission_mode_hint (config : option PermissionConfig) (requested policy_block : option string)
  : option PermissionConfig * bool :=
  match requested with
  | None => (config, false)
  | Some mode =>
      if negb (mode =s? PERMISSION_MODE_ALWAYS_ALLOW) then (config, false)
      else match policy_block with
      | Some _ => (config, false)
      | None =>
          let c := unwrap_or (PermissionConfig_new []) config in
          if default_mode_configured c then (Some c, false)
          else (Some (MkPermissionConfig (rules c) PromptAllow false), true)
      end
  end.

Definition deny_read_globs_from_config (config : PermissionConfig) : list string :=
  filter_map rule_pattern
    (List.filter (fun r => match rule_action r, rule_tool r with RDeny, (FRead | FGrep | FAny) => true | _, _ => false end) (rules config)).

Section resolution.
Context `{T : TreeSitter} `{G : GlobCrate} `{UC : UrlCrate} `{UP : UrlParser} `{L : Unicode} `{F : FileSystem}.
Context `{Sv : Semver} `{Ex : ShellExpand} `{Tp : TomlParser} `{I : @Installation Sv} `{V : SerdeView}.
(** [toml::Value::try_into::<PermissionConfig>], the rules of it *)
Context (permission_config_of_toml : TomlValue -> option (list PermissionRule)).
(** [git2::Repository::discover] and [workdir] *)
Context (worktree_of : string -> option string).

(** ** Rules of a configuration file *)

(** One list of the short form; a list that is no array is not there. *)
Definition compact_rules (permission : TomlValue) (action : RuleAction) (key : string) : option (list PermissionRule) :=
  arr ← tv_get permission key ≫= tv_array;
  Some (filter_map (fun item => s ← tv_str item; ok (parse_permission_rule s action)) arr).

Definition parse_toml_permission_section (permission : TomlValue) : option (list PermissionRule) :=
  let lists := [compact_rules permission RDeny "deny"; compact_rules permission RAllow "allow"; compact_rules permission RAsk "ask"] in
  if existsb is_some lists then Some (concat (unwrap_or [] <$> lists))
  else permission_config_of_toml permission.

Definition extract_toml_permissions (config : TomlValue) (source : RequirementSource) : list (Sourced PermissionRule) :=
  match tv_get config "permission" with
  | None => []
  | Some permission => (fun rule => MkSourced rule source) <$> unwrap_or [] (parse_toml_permission_section permission)
  end.

Definition requirements_source (layer : RequirementsLayer) : RequirementSource :=
  if rl_is_system layer then SrcSystemRequirements (source_label (rl_source layer)) else SrcRequirements (source_label (rl_source layer)).

Definition load_requirements_permissions `{Cf : ConfigFiles} : list (Sourced PermissionRule) :=
  requirements_layers ≫= fun layer => extract_toml_permissions (requirements_value layer) (requirements_source layer).

Definition yolo_policy_lock `{Cf : ConfigFiles} : option YoloPolicyLock :=
  resolve_yolo_policy_block ((fun l => (source_label (rl_source l), requirements_value l)) <$> requirements_layers).

Definition managed_value (l : ManagedConfigLayer) : TomlValue := mc_value l.
Definition managed_config_permissions (layers : list ManagedConfigLayer) : list (Sourced PermissionRule) :=
  layers ≫= fun layer => extract_toml_permissions (managed_value layer) (SrcManagedConfig (mc_path layer)).

(** *** [repo.rs] and [project_config.rs] *)

(** [fuel]: each parent is shorter. *)
Fixpoint chain_to `{Fs : Files} (fuel : nat) (root_canonical dir : string) : list string :=
  dir :: if path_same (canonicalize_or_owned dir) root_canonical then []
         else match fuel, parent dir with S fuel, Some p => chain_to fuel root_canonical p | _, _ => [] end.

Definition repo_dir_chain `{Fs : Files} (cwd : string) : list string :=
  match ofilter (fun root => negb (is_home_dir root)) (worktree_of cwd) with
  | Some root => chain_to (String.length cwd) (canonicalize_or_owned root) cwd
  | None => [cwd]
  end.

Definition is_user_grok_config_file (config_path : string) : bool :=
  match user_grok_home with
  | None => false
  | Some home =>
      let user_config := push home "config.toml" in
      if path_same config_path user_config then true
      else match canonicalize config_path with
           | None => false
           | Some c => path_same c (unwrap_or user_config (canonicalize user_config))
           end
  end.

Definition find_project_configs `{Cf : ConfigFiles} `{Fs : Files} (cwd : string) : list string :=
  List.filter (fun p => config_is_file p && negb (is_user_grok_config_file p))
    ((fun dir => push (push dir ".grok") "config.toml") <$> rev (repo_dir_chain cwd)).

Definition config_file_permissions `{Cf : ConfigFiles} (path : string) : list (Sourced PermissionRule) :=
  match load_config_file path with Ok value => extract_toml_permissions value (SrcConfig path) | Err _ => [] end.

Definition load_config_toml_permissions `{Cf : ConfigFiles} `{Fs : Files} (cwd : string) (project_trusted : bool)
  : list (Sourced PermissionRule) :=
  match layer_file user_grok_home "config.toml" with Some path => config_file_permissions path | None => [] end ++
  if project_trusted then find_project_configs cwd ≫= config_file_permissions else [].

(** ** Settings of the other assistant *)

Definition EM_DASH : string := String (ascii_of_N 226) (String (ascii_of_N 128) (String (ascii_of_N 148) "")).
Definition skip_of_warning (w : string) : SkippedPermission :=
  match or_else (split_once (" " +:+ EM_DASH +:+ " ") w) (split_once " -- " w) with
  | Some (rule, reason) => MkSkipped rule reason
  | None => MkSkipped w ""
  end.

(** The state of the loop over the files, the most specific first. *)
Record ClaudeScan : Type := MkClaudeScan {
  sc_rules : list PermissionRule; sc_skipped : list SkippedPermission; sc_primary : option string;
  sc_mode : option (string * DefaultPermissionMode) }.

Definition claude_step (load : UserDefaultModeLoad) (st : ClaudeScan) (file : string * ClaudeSettings) : ClaudeScan :=
  let '(path, settings) := file in
  let '(mode, mode_skipped) :=
    match load, sc_mode st, cs_default_mode settings with
    | Apply, None, Some raw => let '(m, sk) := parse_default_mode_claiming_scope raw in (Some (path, m), sk)
    | _, m, _ => (m, [])
    end in
  let skipped := sc_skipped st ++ mode_skipped in
  match cs_permissions settings with
  | None => MkClaudeScan (sc_rules st) skipped (sc_primary st) mode
  | Some perms =>
      let '(cfg, warnings) := into_permission_config perms in
      let primary := match sc_primary st with
                     | Some p => Some p
                     | None => then_some (negb (is_nil (rules cfg)) || negb (is_nil warnings)) path
                     end in
      MkClaudeScan (sc_rules st ++ rules cfg) (skipped ++ (skip_of_warning <$> warnings)) primary mode
  end.

Definition claude_files_loaded `{Fs : Files} (cwd : string) (project_trusted : bool) : list (string * ClaudeSettings) :=
  filter_map (fun path => settings ← load_claude_settings path; Some (path, settings)) (claude_settings_paths_for_trust cwd project_trusted).

Definition claude_result (cwd : string) (policy_block : option string) (st : ClaudeScan)
  : option (PermissionConfig * list SkippedPermission * string) :=
  let '(syn_rules, syn_skipped, bypass_blocked) :=
    match sc_mode st with Some (_, mode) => synthetic_rules_for_default_mode mode policy_block | None => ([], [], false) end in
  let policy := match sc_mode st with Some (_, mode) => eff_prompt_policy (effects mode) | None => PromptAsk end in
  let all_rules := sc_rules st ++ syn_rules in
  let all_skipped := sc_skipped st ++ syn_skipped in
  match all_rules, policy, bypass_blocked, sc_mode st, all_skipped with
  | [], PromptAsk, false, None, [] => None
  | _, _, _, _, _ =>
      Some (MkPermissionConfig all_rules policy (is_some (sc_mode st)), all_skipped, unwrap_or cwd (or_else (sc_primary st) (fst <$> sc_mode st)))
  end.

Definition resolve_claude_settings_inner `{Fs : Files} (cwd : string) (project_trusted : bool) (policy_block : option string)
  (load : UserDefaultModeLoad) : option (PermissionConfig * list SkippedPermission * string) :=
  claude_result cwd policy_block (foldl (claude_step load) (MkClaudeScan [] [] None None) (claude_files_loaded cwd project_trusted)).

(** ** All sources together *)

Definition is_catchall_allow (rule : PermissionRule) : bool :=
  match rule_action rule, rule_tool rule with
  | RAllow, (FRead | FEdit | FGrep) => false
  | RAllow, _ => rule_is_catchall rule
  | _, _ => false
  end.

Definition is_admin_source (source : RequirementSource) : bool :=
  match source with SrcSystemRequirements _ | SrcManagedSettings _ => true | _ => false end.

(** Stands for "always approve" and is not from an administrator. *)
Definition untrusted_catchall (s : Sourced PermissionRule) : bool := is_catchall_allow (sv_value s) && negb (is_admin_source (sv_source s)).

Definition drop_untrusted_catchall_allows (rs : list (Sourced PermissionRule)) (policy_block : option string)
  : list (Sourced PermissionRule) * list SkippedPermission :=
  match policy_block with
  | None => (rs, [])
  | Some reason =>
      (List.filter (fun s => negb (untrusted_catchall s)) rs,
       (fun s => MkSkipped ("allow " +:+ unwrap_or "*" (rule_pattern (sv_value s)) +:+ " (catch-all)") reason) <$> List.filter untrusted_catchall rs)
  end.

Record ResolvedPermissions : Type := MkResolved {
  rp_config : PermissionConfig; rp_sources : list RequirementSource; rp_skipped : list SkippedPermission;
  rp_yolo_lock : option YoloPolicyLock }.

(** The rules and records of the mode of the managed settings. *)
Definition managed_mode_rules (managed : ManagedSettings) (policy_block : option string)
  : list (Sourced PermissionRule) * list SkippedPermission :=
  match ms_default_mode managed with
  | None => ([], [])
  | Some mode =>
      let source := SrcManagedSettings (unwrap_or "managed-settings.json" (ft_source_path (ms_features managed))) in
      let '(syn_rules, syn_skipped, _) := synthetic_rules_for_default_mode mode policy_block in
      ((fun r => MkSourced r source) <$> syn_rules, syn_skipped)
  end.

Record ResolveInputs : Type := MkInputs {
  in_yolo_lock : option YoloPolicyLock; in_managed : ManagedSettings; in_managed_config_rules : list (Sourced PermissionRule);
  in_project_trusted : bool }.

Definition block_of (inputs : ResolveInputs) : option string := (fun l => pin_message (lock_reason l)) <$> in_yolo_lock inputs.

Definition settings_of `{Fs : Files} (cwd : string) (inputs : ResolveInputs) : option (PermissionConfig * list SkippedPermission * string) :=
  if is_claude_import_marked (env_var "_GROK_CLAUDE_MARKER_OVERRIDE") user_grok_home then None
  else resolve_claude_settings_inner cwd (in_project_trusted inputs) (block_of inputs)
         (if is_some (ms_default_mode (in_managed inputs)) then SkipManagedOwns else Apply).

(** Every rule that is loaded, in order. *)
Definition loaded_rules `{Cf : ConfigFiles} `{Fs : Files} (cwd : string) (inputs : ResolveInputs) : list (Sourced PermissionRule) :=
  load_requirements_permissions ++ ms_permissions (in_managed inputs) ++
  (managed_mode_rules (in_managed inputs) (block_of inputs)).1 ++
  in_managed_config_rules inputs ++ load_config_toml_permissions cwd (in_project_trusted inputs) ++
  match settings_of cwd inputs with
  | Some (config, _, path) => (fun r => MkSourced r (SrcSettings path)) <$> rules config
  | None => []
  end.

Definition mode_in_force `{Fs : Files} (cwd : string) (inputs : ResolveInputs) : PromptPolicy * bool :=
  match ms_default_mode (in_managed inputs) with
  | Some mode => (eff_prompt_policy (effects mode), true)
  | None => match settings_of cwd inputs with
            | Some (config, _, _) => (prompt_policy config, default_mode_configured config)
            | None => (PromptAsk, false)
            end
  end.

Definition resolve_permissions_with_provenance_inner `{Cf : ConfigFiles} `{Fs : Files} (cwd : string) (inputs : ResolveInputs)
  : option ResolvedPermissions :=
  let '(policy, configured) := mode_in_force cwd inputs in
  let '(kept, dropped) := drop_untrusted_catchall_allows (loaded_rules cwd inputs) (block_of inputs) in
  let skipped := (managed_mode_rules (in_managed inputs) (block_of inputs)).2 ++
                 match settings_of cwd inputs with Some (_, sk, _) => sk | None => [] end ++ dropped in
  match kept, policy, skipped, configured with
  | [], PromptAsk, [], false => None
  | _, _, _, _ => Some (MkResolved (MkPermissionConfig (sv_value <$> kept) policy configured) (sv_source <$> kept) skipped (in_yolo_lock inputs))
  end.

(** [ResolveInputs::live], with the settings that were read at the start. *)
Definition live_inputs `{Cf : ConfigFiles} (managed : ManagedSettings) (project_trusted : bool) (yolo_lock : option YoloPolicyLock)
  : ResolveInputs := MkInputs yolo_lock managed (managed_config_permissions managed_config_layers) project_trusted.

Definition resolve_permissions_with_provenance `{Cf : ConfigFiles} `{Fs : Files} (managed : ManagedSettings) (cwd : string)
  (project_trusted : bool) : option YoloPolicyLock * option ResolvedPermissions :=
  let lock := yolo_policy_lock in
  (lock, resolve_permissions_with_provenance_inner cwd (live_inputs managed project_trusted lock)).

Definition resolve_permission_config_with_fallback_pinned `{Cf : ConfigFiles} `{Fs : Files} (managed : ManagedSettings) (cwd : string)
  (project_trusted : bool) (yolo_lock : option YoloPolicyLock) : option PermissionConfig :=
  rp_config <$> resolve_permissions_with_provenance_inner cwd (live_inputs managed project_trusted yolo_lock).
Definition resolve_permission_config_with_fallback `{Cf : ConfigFiles} `{Fs : Files} (managed : ManagedSettings) (cwd : string)
  (project_trusted : bool) : option PermissionConfig :=
  rp_config <$> (resolve_permissions_with_provenance managed cwd project_trusted).2.

(** ** What comes out *)

Section outcome.
Context `{Cf : ConfigFiles} `{Fs : Files}.
Implicit Types (inputs : ResolveInputs) (cwd : string) (rule : PermissionRule) (src : RequirementSource) (r : ResolvedPermissions).

(** A rule, with its source, is in force. *)
Definition InForce cwd inputs rule src : Prop := exists r i, resolve_permissions_with_provenance_inner cwd inputs = Some r /\
  rules (rp_config r) !! i = Some rule /\ rp_sources r !! i = Some src.

Lemma kept_rules cwd inputs s : s ∈ (drop_untrusted_catchall_allows (loaded_rules cwd inputs) (block_of inputs)).1 <->
  s ∈ loaded_rules cwd inputs /\ (is_some (in_yolo_lock inputs) = true -> untrusted_catchall s = false).
Proof.
  unfold block_of. destruct (in_yolo_lock inputs) as [lock|]; cbn; [|naive_solver].
  rewrite list_elem_of_In, filter_In, <- list_elem_of_In, negb_true_iff. naive_solver.
Qed.

Lemma in_force_kept cwd inputs rule src :
  InForce cwd inputs rule src <-> MkSourced rule src ∈ (drop_untrusted_catchall_allows (loaded_rules cwd inputs) (block_of inputs)).1.
Proof.
  unfold InForce, resolve_permissions_with_provenance_inner. destruct (mode_in_force cwd inputs) as [policy configured].
  destruct (drop_untrusted_catchall_allows _ _) as [kept dropped]. cbn [fst]. set (skipped := _ ++ _ ++ dropped).
  assert (E : forall r i, match kept, policy, skipped, configured with
    | [], PromptAsk, [], false => None
    | _, _, _, _ => Some (MkResolved (MkPermissionConfig (sv_value <$> kept) policy configured) (sv_source <$> kept) skipped (in_yolo_lock inputs))
    end = Some r -> rules (rp_config r) !! i = sv_value <$> kept !! i /\ rp_sources r !! i = sv_source <$> kept !! i).
  { intros r i H. rewrite <- !list_lookup_fmap. destruct kept, policy, skipped, configured; try done; by injection H as <-. }
  split.
  - intros (r&i&Hr&H1&H2). destruct (E r i Hr) as [E1 E2]. rewrite E1 in H1. rewrite E2 in H2. destruct (kept !! i) as [[v s]|] eqn:K; [|done].
    cbn in H1, H2. simplify_eq. by eapply list_elem_of_lookup_2.
  - intros [i K]%list_elem_of_lookup. destruct kept as [|k0 kept]; [done|].
    eexists _, i. split; [done|]. cbn [rp_config rules rp_sources]. by rewrite !list_lookup_fmap, K.
Qed.


(** *** The pin of the requirements *)

Definition locks (v : TomlValue) : Prop :=
  get_path ["ui"; "disable_bypass_permissions_mode"] v = Some (TBoolean true) \/ get_path ["ui"; "yolo"] v = Some (TBoolean false).

Lemma lock_bool v key b : requirements_lock_bool (tv_get v "ui") key = Some b <-> get_path ["ui"; key] v = Some (TBoolean b).
Proof.
  unfold requirements_lock_bool. cbn. destruct (tv_get v "ui") as [u|]; [|done]. cbn. destruct (tv_get u key) as [w|]; [|done]. cbn.
  destruct w; cbn; split; intros H; try done; by injection H as ->.
Qed.

Lemma lock_iff layers : is_Some (resolve_yolo_policy_block layers) <-> exists l, l ∈ layers /\ locks l.2.
Proof.
  unfold locks. induction layers as [|[path v] layers IH]; cbn [resolve_yolo_policy_block].
  - split; [by intros []|]. by intros (l&?%elem_of_nil&_).
  - setoid_rewrite elem_of_cons. setoid_rewrite <- lock_bool.
    destruct (bool_decide_reflect (requirements_lock_bool (tv_get v "ui") "disable_bypass_permissions_mode" = Some true)) as [E1|E1];
      [split; [intros _; exists (path, v); naive_solver|by eexists]|].
    destruct (bool_decide_reflect (requirements_lock_bool (tv_get v "ui") "yolo" = Some false)) as [E2|E2];
      [split; [intros _; exists (path, v); naive_solver|by eexists]|].
    rewrite IH. setoid_rewrite <- lock_bool. split; intros (l&H&K); [exists l; naive_solver|].
    destruct H as [->|H]; [cbn in K; naive_solver|by exists l].
Qed.

Lemma system_layer v : load_system_requirements = Some v ->
  exists label, (label, v) ∈ (fun l => (source_label (rl_source l), requirements_value l)) <$> requirements_layers.
Proof.
  unfold load_system_requirements, requirements_layers. destruct system_config_dir as [dir|]; [|done]. cbn [mbind option_bind].
  intros E. rewrite E. eexists. apply list_elem_of_fmap. eexists. split; [|apply elem_of_app; right; apply elem_of_app; left; by apply list_elem_of_singleton].
  done.
Qed.

(** The pin of the system holds from end to end.  When the system's
    requirements switch "always approve" off, no file of a user or project can
    take that back: the pin is reported, and in what is resolved every rule
    that stands for "always approve" comes from the system's requirements or
    the managed settings. *)
Theorem system_pin_holds v managed cwd trusted : load_system_requirements = Some v -> locks v ->
  let '(lock, resolved) := resolve_permissions_with_provenance managed cwd trusted in
  is_Some lock /\
  forall r i rule src, resolved = Some r -> rules (rp_config r) !! i = Some rule -> rp_sources r !! i = Some src ->
    is_catchall_allow rule = true -> is_admin_source src = true.
Proof.
  intros S K. unfold resolve_permissions_with_provenance.
  assert (P : is_Some yolo_policy_lock) by (apply lock_iff; destruct (system_layer v S) as [label H]; by exists (label, v)).
  split; [done|]. intros r i rule src Hr H1 H2 C.
  assert (In : InForce cwd (live_inputs managed trusted yolo_policy_lock) rule src) by (by exists r, i).
  apply in_force_kept, kept_rules in In as [_ In]. destruct P as [lock P]. cbn in In. rewrite P in In. specialize (In eq_refl).
  unfold untrusted_catchall in In. cbn in In. rewrite C in In. by apply negb_false_iff.
Qed.

(** *** The mode of the managed settings *)

Lemma configured_hint c requested block : default_mode_configured c = true -> apply_permission_mode_hint (Some c) requested block = (Some c, false).
Proof. intros H. unfold apply_permission_mode_hint. cbn. rewrite H. repeat case_match; done. Qed.

(** The default mode of the managed settings is final.  It decides what
    happens to requests no rule covers, whatever mode a user or project asks
    for, and the hint of a client changes nothing. *)
Theorem managed_mode_wins cwd inputs mode : ms_default_mode (in_managed inputs) = Some mode ->
  exists r, resolve_permissions_with_provenance_inner cwd inputs = Some r /\
    prompt_policy (rp_config r) = eff_prompt_policy (effects mode) /\
    forall requested block, apply_permission_mode_hint (Some (rp_config r)) requested block = (Some (rp_config r), false).
Proof.
  intros M. unfold resolve_permissions_with_provenance_inner, mode_in_force. rewrite M.
  destruct (drop_untrusted_catchall_allows _ _) as [kept dropped]. set (skipped := _ ++ _ ++ dropped).
  exists (MkResolved (MkPermissionConfig (sv_value <$> kept) (eff_prompt_policy (effects mode)) true) (sv_source <$> kept) skipped (in_yolo_lock inputs)).
  split; [by destruct kept, (eff_prompt_policy (effects mode)), skipped|]. split; [done|]. intros. by apply configured_hint.
Qed.
End outcome.

(** *** Folders without trust *)

(** Two disks that agree on the files of the installation and of the user. *)
Definition same_installation (C1 C2 : ConfigFiles) (F1 F2 : Files) : Prop :=
  same_user_files F1 F2 /\
  forall dir name, dir = user_grok_home \/ dir = system_config_dir -> name ∈ [USER_CONFIG_FILENAME; MANAGED_CONFIG_FILENAME; REQUIREMENTS_FILENAME] ->
  forall d, dir = Some d -> @read_to_string C1 (push d name) = @read_to_string C2 (push d name) /\
    @config_is_file C1 (push d name) = @config_is_file C2 (push d name) /\ @file_contents F1 (push d name) = @file_contents F2 (push d name).

Section silent.
Context (C1 C2 : ConfigFiles) (F1 F2 : Files) (Same : same_installation C1 C2 F1 F2).

Lemma same_toml path : @read_to_string C1 path = @read_to_string C2 path -> load_toml_file (Cf := C1) path = load_toml_file (Cf := C2) path.
Proof. intros E. unfold load_toml_file, read_toml_file. by rewrite E. Qed.

Lemma same_requirements dir : dir = user_grok_home \/ dir = system_config_dir -> forall d, dir = Some d ->
  load_requirements_layer (Cf := C1) (push d REQUIREMENTS_FILENAME) = load_requirements_layer (Cf := C2) (push d REQUIREMENTS_FILENAME).
Proof.
  intros H d E. destruct Same as [_ S]. destruct (S dir REQUIREMENTS_FILENAME H ltac:(by apply (bool_decide_unpack _)) d E) as (R&_).
  unfold load_requirements_layer. by rewrite (same_toml _ R).
Qed.

Lemma same_requirements_layers : requirements_layers (Cf := C1) = requirements_layers (Cf := C2).
Proof.
  unfold requirements_layers. destruct user_grok_home as [g|] eqn:U, system_config_dir as [d|] eqn:D; try done;
    rewrite ?(same_requirements user_grok_home (or_introl eq_refl) g U), ?(same_requirements system_config_dir (or_intror eq_refl) d D); done.
Qed.

Lemma same_layer_file dir name : dir = user_grok_home \/ dir = system_config_dir ->
  name ∈ [USER_CONFIG_FILENAME; MANAGED_CONFIG_FILENAME; REQUIREMENTS_FILENAME] ->
  layer_file (Cf := C1) dir name = layer_file (Cf := C2) dir name /\
  forall path, layer_file (Cf := C1) dir name = Some path -> load_config_file (Cf := C1) path = load_config_file (Cf := C2) path.
Proof.
  intros H N. destruct Same as [_ S]. specialize (S dir name H N). unfold layer_file, then_some. destruct dir as [d|]; [|done].
  destruct (S d eq_refl) as (R&Fi&_). cbn. rewrite Fi. split; [done|]. intros path. destruct (@config_is_file C2 _); [|done]. intros [= <-].
  unfold load_config_file. by rewrite (same_toml _ R).
Qed.

Lemma same_managed_layers : managed_config_layers (Cf := C1) = managed_config_layers (Cf := C2).
Proof.
  unfold managed_config_layers, managed_config_layers_at. cbn [filter_map].
  destruct (same_layer_file system_config_dir MANAGED_CONFIG_FILENAME (or_intror eq_refl) ltac:(by apply (bool_decide_unpack _))) as [E1 L1].
  destruct (same_layer_file user_grok_home MANAGED_CONFIG_FILENAME (or_introl eq_refl) ltac:(by apply (bool_decide_unpack _))) as [E2 L2].
  rewrite <- E1, <- E2. destruct (layer_file (Cf := C1) system_config_dir _) as [p1|]; cbn [mbind option_bind]; rewrite ?(L1 _ eq_refl);
    (destruct (layer_file (Cf := C1) user_grok_home _) as [p2|]; cbn [mbind option_bind]; rewrite ?(L2 _ eq_refl)); done.
Qed.

Lemma same_config_permissions cwd : load_config_toml_permissions (Cf := C1) (Fs := F1) cwd false = load_config_toml_permissions (Cf := C2) (Fs := F2) cwd false.
Proof.
  unfold load_config_toml_permissions, config_file_permissions. f_equal.
  destruct (same_layer_file user_grok_home USER_CONFIG_FILENAME (or_introl eq_refl) ltac:(by apply (bool_decide_unpack _))) as [E1 L1].
  change (layer_file user_grok_home "config.toml") with (layer_file (Cf := C1) user_grok_home USER_CONFIG_FILENAME) at 1.
  change (layer_file (Cf := C2) user_grok_home "config.toml") with (layer_file (Cf := C2) user_grok_home USER_CONFIG_FILENAME).
  rewrite <- E1. destruct (layer_file (Cf := C1) _ _) as [p|]; [|done]. by rewrite (L1 _ eq_refl).
Qed.

Lemma same_settings cwd inputs : in_project_trusted inputs = false -> settings_of (Fs := F1) cwd inputs = settings_of (Fs := F2) cwd inputs.
Proof.
  intros T0. unfold settings_of, resolve_claude_settings_inner, claude_files_loaded, claude_settings_paths_for_trust. rewrite T0.
  destruct Same as [U S].
  assert (M : is_claude_import_marked (H0 := F1) (env_var "_GROK_CLAUDE_MARKER_OVERRIDE") user_grok_home =
              is_claude_import_marked (H0 := F2) (env_var "_GROK_CLAUDE_MARKER_OVERRIDE") user_grok_home).
  { unfold is_claude_import_marked. destruct user_grok_home as [g|] eqn:E; [|done].
    destruct (S (Some g) USER_CONFIG_FILENAME (or_introl eq_refl) ltac:(by apply (bool_decide_unpack _)) g eq_refl) as (_&_&R).
    cbn [mbind option_bind]. by change (push g "config.toml") with (push g USER_CONFIG_FILENAME); rewrite R. }
  rewrite M, <- (same_user_paths _ _ U). clear M. destruct (is_claude_import_marked (H0 := F2) _ _); [done|]. do 2 f_equal.
  assert (K : forall ps, (forall p, p ∈ ps -> p ∈ @global_claude_settings_paths F1) ->
    filter_map (fun path => settings ← load_claude_settings (Fs := F1) path; Some (path, settings)) ps =
    filter_map (fun path => settings ← load_claude_settings (Fs := F2) path; Some (path, settings)) ps).
  { induction ps as [|p ps IH]; intros H; [done|]. cbn [filter_map]. rewrite (same_user_load F1 F2 p U) by (apply H, list_elem_of_here).
    rewrite IH; [done|]. intros q Hq. by apply H, list_elem_of_further. }
  by apply K.
Qed.

(** A folder that is not trusted adds nothing.  On two disks that differ
    anywhere but in the files of the installation and of the user, the same
    rules, mode and records are resolved for it. *)
Theorem untrusted_folder_silent managed cwd :
  resolve_permissions_with_provenance (Cf := C1) (Fs := F1) managed cwd false =
  resolve_permissions_with_provenance (Cf := C2) (Fs := F2) managed cwd false.
Proof.
  unfold resolve_permissions_with_provenance, yolo_policy_lock, live_inputs. rewrite same_requirements_layers, same_managed_layers.
  f_equal. unfold resolve_permissions_with_provenance_inner, mode_in_force, loaded_rules, load_requirements_permissions.
  rewrite same_requirements_layers. cbn [in_project_trusted]. rewrite same_config_permissions. by rewrite !(same_settings cwd) by done.
Qed.
End silent.
End resolution.

(** ** A concrete installation *)

Module ResolutionSample.
#[local] Existing Instances Tree.serde SettingsSample.tree_view Sample.one_command Sample.no_urls Sample.ascii_lower FileSample.plain_files
  UrlSample.plain_glob UrlSample.https_urls ConfigSample.two_versions ConfigSample.no_expansion ConfigSample.four_texts ConfigSample.here.

Definition no_verbose (v : TomlValue) : option (list PermissionRule) := None.
Definition worktree (cwd : string) : option string := Some "/w".

Definition text (v : Tree.tree) : string := match to_string v with Ok s => s | Err _ => "" end.
Definition settings (key rule : string) : string := text (VObject [("permissions", VObject [(key, VArray [VString rule])])]).

(** The files of a project: two files of settings. *)
Definition own : Files := {|
  is_file p := is_one_of ["/w/.claude/settings.local.json"; "/w/.claude/settings.json"] p; path_exists p := p =s? "/w/.git";
  file_contents p := if p =s? "/w/.claude/settings.local.json" then Some (settings "allow" "Bash")
                     else if p =s? "/w/.claude/settings.json" then Some (settings "deny" "Bash(rm)") else None;
  home_dir := Some "/home/u" |}.
Definition bare : Files := {| is_file _ := false; path_exists p := p =s? "/w/.git"; file_contents _ := None; home_dir := Some "/home/u" |}.

Definition unmanaged : ManagedSettings := ManagedSettings_default.
Definition strict : ManagedSettings := MkManagedSettings (MkFeatures None None None) [] (Some MDontAsk) [] [] Unpinned Unpinned [].
Definition plain_inputs (m : ManagedSettings) : ResolveInputs := MkInputs None m [] true.

Definition outcome := resolve_permissions_with_provenance_inner no_verbose worktree (Cf := ConfigSample.disk) (Fs := own) "/w" (plain_inputs unmanaged).

(** The rule of the second file has the path of the first. *)
Theorem sources_of_settings_shared : rules ∘ rp_config <$> outcome = Some [MkRule RAllow FBash None Glob; MkRule RDeny FBash (Some "rm") Glob] /\
  rp_sources <$> outcome = Some [SrcSettings "/w/.claude/settings.local.json"; SrcSettings "/w/.claude/settings.local.json"].
Proof. vm_compute. done. Qed.

Lemma required_locks : locks ConfigSample.required.
Proof. by left. Qed.

Definition required_loaded : TomlValue := TTable [("ui", TTable [("disable_bypass_permissions_mode", TBoolean true)]);
  ("models", TTable [("default", TString "approved")])].

Lemma system_pin_holds_witness :
  is_Some (resolve_permissions_with_provenance no_verbose worktree (Cf := ConfigSample.disk) (Fs := own) unmanaged "/w" true).1.
Proof.
  apply (system_pin_holds no_verbose worktree (Cf := ConfigSample.disk) (Fs := own) required_loaded unmanaged "/w" true).
  - vm_compute. done.
  - by left.
Defined.

Lemma managed_mode_wins_witness :
  exists r, resolve_permissions_with_provenance_inner no_verbose worktree (Cf := ConfigSample.disk) (Fs := own) "/w" (plain_inputs strict) = Some r /\
    prompt_policy (rp_config r) = PromptDeny /\
    forall requested block, apply_permission_mode_hint (Some (rp_config r)) requested block = (Some (rp_config r), false).
Proof. apply (managed_mode_wins no_verbose worktree (Cf := ConfigSample.disk) (Fs := own) "/w" (plain_inputs strict) MDontAsk). done. Defined.

(** A disk on which the project has a configuration file, too. *)
Definition disk_with_project : ConfigFiles := {|
  read_to_string p := if p =s? "/w/.grok/config.toml" then Contents "user" else @read_to_string ConfigSample.disk p;
  config_is_file p := (p =s? "/w/.grok/config.toml") || @config_is_file ConfigSample.disk p |}.

Lemma untrusted_folder_silent_witness :
  resolve_permissions_with_provenance no_verbose worktree (Cf := ConfigSample.disk) (Fs := bare) unmanaged "/w" false =
  resolve_permissions_with_provenance no_verbose worktree (Cf := disk_with_project) (Fs := own) unmanaged "/w" false.
Proof.
  apply (untrusted_folder_silent no_verbose worktree ConfigSample.disk disk_with_project bare own).
  split.
  - split; [done|]. apply list.Forall_forall. by repeat constructor.
  - intros dir name [->| ->] Hn d [= <-]; revert name Hn; apply list.Forall_forall; by repeat constructor.
Defined.
End ResolutionSample.
