(* ===== verification/TrustStore.v ===== *)
(** * [xai-grok-workspace], [trust.rs]

    The store of trust decisions about folders, [trusted_folders.toml]: reading
    it, the lookup of the nearest record that covers a workspace, the locked
    read-modify-write of a decision, and the migration of the file that came
    before it.  A disk is a map from paths to what a read of them gives; each
    write takes the outcomes of the system calls it makes, and what other
    processes write while it waits for the lock.  The file shows that a lookup
    answers as the nearest records do, that a decision that is reported as
    recorded reads back with nothing else lost, that any other outcome leaves
    the disk alone, and that writers under the lock lose no update. *)

From stdpp Require Import gmap.
From S2P Require Import Prelude RustStr Json Paths PermRules BashCommand PermPolicy ShellAccess ClaudeSettings Toml ConfigLayers.

(** ** Errors and files *)

Inductive ErrorKind : Type := KNotFound | KNotADirectory | KInvalidInput | KInvalidData | KOther.
Record IoErr : Type := MkIoErr { io_kind : ErrorKind; io_text : string }.

(** [NotFound | NotADirectory] *)
Definition is_absence (e : IoErr) : bool :=
  match io_kind e with KNotFound | KNotADirectory => true | _ => false end.

(** What the calls on a path give: [symlink_metadata] (is it a link?), [exists],
    [read_to_string]. *)
Record FileNode : Type := MkFileNode { node_probe : result IoErr bool; node_exists : bool; node_read : result IoErr string }.
Notation Disk := (gmap string FileNode).

Definition no_entry : IoErr := MkIoErr KNotFound "No such file or directory".
Definition absent_node : FileNode := MkFileNode (Err no_entry) false (Err no_entry).
Definition node_at (d : Disk) (path : string) : FileNode := default absent_node (d !! path).
Definition plain_file (body : string) : FileNode := MkFileNode (Ok false) true (Ok body).

(** The outcomes of the system calls of one write, by their argument, the clock
    in seconds since the epoch, and what other processes write to the disk
    before the lock is obtained. *)
Record Io : Type := MkIo {
  io_create_dir_all : string -> result IoErr unit;
  io_lock : string -> result IoErr unit;
  io_tempfile : string -> result IoErr unit;
  io_write_all : string -> result IoErr unit;
  io_sync_all : result IoErr unit;
  io_persist : string -> result IoErr unit;
  io_rename : string -> string -> result IoErr unit;
  io_clock : option Z;
  io_peers : Disk -> Disk }.

(** ** Records *)

Record FolderTrust : Type := MkFolderTrust { trusted : bool; decided_at : option Z }.
#[export] Instance FolderTrust_eq_dec : EqDecision FolderTrust.
Proof. solve_decision. Defined.

Notation TrustDocument := (gmap string FolderTrust).

(** [toml::from_str::<TrustDocument>] and [toml::to_string_pretty] *)
Class TrustCodec := {
  doc_from_str : string -> result string TrustDocument;
  doc_to_string : TrustDocument -> result string string }.

(** What is documented of them: a printed document reads back, and a text of
    spaces is an empty document. *)
Class TrustCodecLaws `{TrustCodec} := {
  doc_reads_back doc s : doc_to_string doc = Ok s -> doc_from_str s = Ok doc;
  doc_blank s : is_empty (trim s) = true -> doc_from_str s = Ok ∅ }.

Inductive StoreRead : Type := Missing | Document (doc : TrustDocument).
Definition into_document (r : StoreRead) : TrustDocument := match r with Missing => ∅ | Document doc => doc end.

Inductive TrustPersistError : Type := Unreadable (e : IoErr) | Publish (e : IoErr).
Definition as_io (e : TrustPersistError) : IoErr := match e with Unreadable e | Publish e => e end.

Inductive Recorded : Type := Durable | Skipped.

Record TrustStore : Type := MkStore { st_doc : TrustDocument; st_path : option string; st_disk_readable : bool }.

(** [d.as_secs() as i64] *)
Definition now_unix (clock : option Z) : option Z :=
  (fun secs => if (secs <=? i64_max)%Z then secs else (secs - 2 ^ 64)%Z) <$> clock.

(** ** Git and the registry of worktrees *)

Record Repository : Type := MkRepository { repo_workdir : option string; repo_is_worktree : bool; repo_commondir : string }.

(** [git2::Repository::discover] and [open] *)
Class Git := { git_discover : string -> option Repository; git_open : string -> option Repository }.

(** The tables of [worktrees.db] under a home, when the file opens; [None] is an
    error of the query.  A record is its source repository. *)
Record WorktreeTables : Type := MkTables {
  get_by_path : string -> option (option string); get_by_id : string -> option (option string);
  get_by_label : string -> option (option string) }.
Class WorktreeRegistry := { grok_home : string; worktree_db : string -> option WorktreeTables }.

Section keys.
Context `{F : FileSystem} `{Fs : Files} `{Gt : Git} `{W : WorktreeRegistry}.

(** [WorktreeDb::get] *)
Definition WorktreeDb_get (db : WorktreeTables) (id_or_path : string) : option (option string) :=
  if contains_byte "/" id_or_path then get_by_path db (canonicalize_or_owned id_or_path)
  else by_id ← get_by_id db id_or_path;
       match by_id with Some r => Some (Some r) | None => get_by_label db id_or_path end.

(** [fuel]: each parent is shorter. *)
Fixpoint record_above (fuel : nat) (db : WorktreeTables) (worktrees_dir path : string) : option string :=
  if path_starts_with path worktrees_dir && negb (path_same path worktrees_dir) then
    match WorktreeDb_get db (from_utf8_lossy path) with
    | Some (Some record) => Some record
    | _ => match fuel, parent path with S fuel, Some p => record_above fuel db worktrees_dir p | _, _ => None end
    end
  else None.

Definition source_repo_for_cwd (cwd : string) : option string :=
  let worktrees_dir := push grok_home "worktrees" in
  if negb (path_starts_with cwd worktrees_dir) then None
  else db ← worktree_db grok_home; record_above (String.length cwd) db worktrees_dir cwd.

(** ** Workspace keys *)

Definition is_unsafe_trust_root (key : string) : bool :=
  negb (is_absolute key) || negb (is_some (parent key)) || is_home_dir key.

(** The key of the main worktree, when [repo] is a linked one. *)
Definition main_worktree_key (repo : Repository) : option string :=
  if repo_is_worktree repo then
    main ← git_open (repo_commondir repo);
    main_workdir ← repo_workdir main;
    if path_same (canonicalize_or_owned (push main_workdir ".git")) (canonicalize_or_owned (repo_commondir repo))
    then Some (canonicalize_or_owned main_workdir) else None
  else None.

Definition git_derived_workspace_key (cwd : string) : string :=
  match source_repo_for_cwd (from_utf8_lossy cwd) with
  | Some source_repo =>
      unwrap_or (canonicalize_or_owned source_repo)
        (r ← git_discover source_repo; canonicalize_or_owned <$> repo_workdir r)
  | None =>
      unwrap_or (canonicalize_or_owned cwd)
        (repo ← git_discover cwd;
         or_else (main_worktree_key repo) (canonicalize_or_owned <$> repo_workdir repo))
  end.

Definition workspace_key (cwd : string) : string :=
  let key := git_derived_workspace_key cwd in
  if is_unsafe_trust_root key then canonicalize_or_owned cwd else key.

(** [Path::ancestors]; each parent is shorter. *)
Fixpoint ancestors_from (fuel : nat) (path : string) : list string :=
  path :: match fuel, parent path with S fuel, Some p => ancestors_from fuel p | _, _ => [] end.
Definition ancestors (path : string) : list string := ancestors_from (String.length path) path.

Definition workspace_id (path : string) : string := workspace_key (unwrap_or path (List.find path_exists (ancestors path))).

(** ** Lookup *)

(** The guards of the loop of [is_trusted]. *)
Definition covers (query folder : string) : bool :=
  negb (is_unsafe_trust_root folder) && path_starts_with query folder && path_same (workspace_id folder) (workspace_id query).

Definition depth (folder : string) : nat := length (components folder).

Definition nearest_step (query : string) (st : option nat * bool) (entry : string * FolderTrust) : option nat * bool :=
  let '(folder, record) := entry in
  if negb (covers query folder) then st
  else match st with
       | (Some d, acc) =>
           if (depth folder <? d)%nat then st
           else if (depth folder =? d)%nat then (Some d, acc && trusted record)
           else (Some (depth folder), trusted record)
       | (None, _) => (Some (depth folder), trusted record)
       end.

Definition is_trusted (store : TrustStore) (key : string) : bool :=
  if negb (st_disk_readable store) then false
  else (foldl (nearest_step (canonicalize_or_owned key)) (None, false) (map_to_list (st_doc store))).2.

Definition has_decision (store : TrustStore) (key : string) : bool :=
  is_some (st_doc store !! from_utf8_lossy (canonicalize_or_owned key)).
End keys.

(** ** Loading *)

Definition TRUST_FILE_NAME : string := "trusted_folders.toml".
Definition TRUSTED_HOOK_PROJECTS_FILENAME : string := "trusted-hook-projects".

Section store.
Context `{F : FileSystem} `{Fs : Files} `{Gt : Git} `{W : WorktreeRegistry} `{Cd : TrustCodec}.

Definition read_doc_strict (d : Disk) (path : string) : result IoErr StoreRead :=
  match node_probe (node_at d path) with
  | Err e => if is_absence e then Ok Missing else Err e
  | Ok is_symlink =>
      match node_read (node_at d path) with
      | Ok contents =>
          if is_empty (trim contents) then Ok (Document ∅)
          else match doc_from_str contents with
               | Ok doc => Ok (Document doc)
               | Err text => Err (MkIoErr KInvalidData text)
               end
      | Err e => if negb is_symlink && is_absence e then Ok Missing else Err e
      end
  end.

Definition load_from (d : Disk) (path : string) : TrustStore :=
  match read_doc_strict d path with
  | Ok read => MkStore (into_document read) (Some path) true
  | Err _ => MkStore ∅ (Some path) false
  end.

Definition empty_store : TrustStore := MkStore ∅ None true.

(** [xai-dirs]: [resolve_grok_home] *)
Definition grok_home_in (home : string) : string := push (canonicalize_or_owned home) ".grok".
Definition resolve_grok_home (grok_home_env : option string) : option string :=
  match ofilter (fun env => negb (is_empty env)) grok_home_env with
  | Some env => Some env
  | None => grok_home_in <$> home_dir
  end.

Definition default_path_in (user_grok_home : option string) : option string :=
  home ← user_grok_home; if negb (is_absolute home) then None else Some (push home TRUST_FILE_NAME).

Definition load (grok_home_env : option string) (d : Disk) : TrustStore :=
  match default_path_in (resolve_grok_home grok_home_env) with Some path => load_from d path | None => empty_store end.

(** ** Writing *)

(** [Path::with_extension], for a path with a name *)
Definition file_stem (name : string) : string :=
  match rev (split_char "." name) with
  | _ :: (_ :: _) as stem => let s := join "." (rev stem) in if is_empty s then name else s
  | _ => name
  end.
Definition with_extension (path ext : string) : string :=
  match file_name path, parent path with
  | Some name, Some dir => push dir (file_stem name +:+ "." +:+ ext)
  | _, _ => path
  end.

Definition no_parent : IoErr := MkIoErr KInvalidInput "trust store path has no parent".

Definition persist_doc (io : Io) (d : Disk) (path : string) (doc : TrustDocument) : result IoErr Disk :=
  parent ← ok_or no_parent (parent path);
  _ ← io_create_dir_all io parent;
  body ← map_err (MkIoErr KInvalidData) (doc_to_string doc);
  _ ← io_tempfile io parent;
  _ ← io_write_all io body;
  _ ← io_sync_all io;
  _ ← io_persist io path;
  Ok (<[path := plain_file body]> d).

(** The insertion and the write of [record_decision_strict]. *)
Definition record_commit (io : Io) (d : Disk) (path folder : string) (b : bool) (read : StoreRead) : result TrustPersistError (Disk * TrustDocument) :=
  let doc := <[folder := MkFolderTrust b (now_unix (io_clock io))]> (into_document read) in
  match persist_doc io d path doc with Err e => Err (Publish e) | Ok d' => Ok (d', doc) end.

(** The part of it that runs with the lock held. *)
Definition record_locked (io : Io) (d : Disk) (path folder : string) (b : bool) : result TrustPersistError (Disk * TrustDocument) :=
  match read_doc_strict d path with
  | Err e => Err (Unreadable e)
  | Ok read => record_commit io d path folder b read
  end.

(** What comes before the lock is held: [Ok None] is [Skipped]. *)
Definition record_prepare (io : Io) (d : Disk) (store : TrustStore) (key : string) : result TrustPersistError (option string) :=
  let canonical := canonicalize_or_owned key in
  if is_unsafe_trust_root canonical then Ok None
  else match st_path store with
  | None => Ok None
  | Some path =>
      match (if st_disk_readable store then Ok () else match read_doc_strict d path with Ok _ => Ok () | Err e => Err (Unreadable e) end) with
      | Err e => Err e
      | Ok _ =>
          match parent path with
          | None => Err (Publish no_parent)
          | Some dir =>
              match io_create_dir_all io dir with
              | Err e => Err (Publish e)
              | Ok _ => match io_lock io (with_extension path "toml.lock") with
                        | Err e => Err (Publish e)
                        | Ok _ => Ok (Some path)
                        end
              end
          end
      end
  end.

Definition record_decision_strict (io : Io) (d : Disk) (store : TrustStore) (key : string) (b : bool)
  : Disk * TrustStore * result TrustPersistError Recorded :=
  match record_prepare io d store key with
  | Err e => (d, store, Err e)
  | Ok None => (d, store, Ok Skipped)
  | Ok (Some path) =>
      let d := io_peers io d in
      match record_locked io d path (from_utf8_lossy (canonicalize_or_owned key)) b with
      | Err e => (d, store, Err e)
      | Ok (d', doc) => (d', MkStore doc (st_path store) true, Ok Durable)
      end
  end.

(** [set_trusted] and [set_untrusted] *)
Definition set_decision (io : Io) (d : Disk) (store : TrustStore) (key : string) (b : bool) : Disk * TrustStore * result IoErr unit :=
  let '(d, store, r) := record_decision_strict io d store key b in
  (d, store, match r with Ok _ => Ok () | Err e => Err (as_io e) end).

(** ** The store that came before *)

(** [xai-grok-hooks]: [list_trusted_projects_with_file] *)
Definition list_trusted_projects_with_file (d : Disk) (trust_file : string) : result IoErr (list string) :=
  match node_read (node_at d trust_file) with
  | Ok content => Ok (List.filter (fun l => negb (is_empty l) && negb (starts_with "#" l)) (trim <$> lines content))
  | Err e => match io_kind e with KNotFound => Ok [] | _ => Err e end
  end.

Record Migration : Type := MkMigration { mg_disk : Disk; mg_store : TrustStore; mg_migrated : nat; mg_seed_error : bool }.

Definition migrate_one (io : Io) (m : Migration) (project : string) : Migration :=
  if has_decision (mg_store m) project then m
  else
    let '(d, store, r) := record_decision_strict io (mg_disk m) (mg_store m) project true in
    match r with
    | Ok Durable => MkMigration d store (S (mg_migrated m)) (mg_seed_error m)
    | Ok Skipped | Err _ => MkMigration d store (mg_migrated m) true
    end.

(** Each project has its own outcomes of the system calls. *)
Fixpoint migrate_all (ios : nat -> Io) (i : nat) (m : Migration) (projects : list string) : Migration :=
  match projects with
  | [] => m
  | project :: projects' => migrate_all ios (S i) (migrate_one (ios i) m project) projects'
  end.

Definition rename_legacy (io : Io) (d : Disk) (legacy_file : string) : Disk :=
  if node_exists (node_at d legacy_file) then
    let migrated_file := with_extension legacy_file "migrated" in
    match io_rename io legacy_file migrated_file with
    | Ok _ => <[migrated_file := node_at d legacy_file]> (delete legacy_file d)
    | Err _ => d
    end
  else d.

Definition migrate_legacy_hook_trust_in (ios : nat -> Io) (d : Disk) (legacy_file : string) (store : TrustStore) : Disk * TrustStore * nat :=
  match list_trusted_projects_with_file d legacy_file with
  | Err _ => (d, store, 0%nat)
  | Ok projects =>
      if negb (is_some (st_path store)) || negb (st_disk_readable store) then (d, store, 0%nat)
      else
        let m := migrate_all ios 0 (MkMigration d store 0 false) projects in
        (if mg_seed_error m then mg_disk m else rename_legacy (ios (length projects)) (mg_disk m) legacy_file, mg_store m, mg_migrated m)
  end.
End store.

(** ** Lookup answers as the nearest records *)

Section lookup.
Context `{F : FileSystem} `{Fs : Files} `{Gt : Git} `{W : WorktreeRegistry}.
Implicit Types (q f : string) (r : FolderTrust) (l : list (string * FolderTrust)).

(** [f] covers the query and no record that covers it is deeper. *)
Definition nearest q l f : Prop :=
  covers q f = true /\ forall f' r', (f', r') ∈ l -> covers q f' = true -> (depth f' <= depth f)%nat.

Definition nearest_state q l (st : option nat * bool) : Prop :=
  match st with
  | (None, acc) => acc = false /\ forall f r, (f, r) ∈ l -> covers q f = false
  | (Some d, acc) =>
      (exists f r, (f, r) ∈ l /\ nearest q l f /\ depth f = d) /\
      (acc = true <-> forall f r, (f, r) ∈ l -> covers q f = true -> depth f = d -> trusted r = true)
  end.

Lemma nearest_step_state q l st e : nearest_state q l st -> nearest_state q (l ++ [e]) (nearest_step q st e).
Proof.
  destruct e as [f r], st as [[d|] acc]; cbn [nearest_step nearest_state].
  - intros ((f0&r0&In0&[C0 M0]&D0)&A). destruct (covers q f) eqn:C; cbn [negb].
    + destruct (Nat.ltb_spec (depth f) d) as [L|L]; [|destruct (Nat.eqb_spec (depth f) d) as [E|E]].
      * split.
        -- exists f0, r0. split_and!; [set_solver|split; [done|]|done]. intros f' r' [?|[= -> ->]%list_elem_of_singleton]%elem_of_app ?; [eauto|lia].
        -- rewrite A. setoid_rewrite elem_of_app. setoid_rewrite list_elem_of_singleton. split; [|naive_solver].
           intros H f' r' [?|[= -> ->]] ? ?; [eauto|lia].
      * split.
        -- exists f0, r0. split_and!; [set_solver|split; [done|]|done]. intros f' r' [?|[= -> ->]%list_elem_of_singleton]%elem_of_app ?; [eauto|lia].
        -- rewrite andb_true_iff, A. setoid_rewrite elem_of_app. setoid_rewrite list_elem_of_singleton. naive_solver.
      * split.
        -- exists f, r. split_and!; [set_solver|split; [done|]|done]. intros f' r' [I|[= -> ->]%list_elem_of_singleton]%elem_of_app C'; [|lia].
           specialize (M0 f' r' I C'). lia.
        -- setoid_rewrite elem_of_app. setoid_rewrite list_elem_of_singleton. split; [|naive_solver].
           intros H f' r' [I|[= -> ->]] C' D'; [|done]. specialize (M0 f' r' I C'). lia.
    + split.
      * exists f0, r0. split_and!; [set_solver|split; [done|]|done]. intros f' r' [?|[= -> ->]%list_elem_of_singleton]%elem_of_app ?; [eauto|congruence].
      * rewrite A. setoid_rewrite elem_of_app. setoid_rewrite list_elem_of_singleton. naive_solver congruence.
  - intros [-> N]. destruct (covers q f) eqn:C; cbn [negb nearest_state].
    + split.
      * exists f, r. split_and!; [set_solver|split; [done|]|done]. intros f' r' [I|[= -> ->]%list_elem_of_singleton]%elem_of_app C'; [|lia].
        by rewrite (N _ _ I) in C'.
      * setoid_rewrite elem_of_app. setoid_rewrite list_elem_of_singleton. split; [|naive_solver].
        intros H f' r' [I|[= -> ->]] C' D'; [|done]. by rewrite (N _ _ I) in C'.
    + split; [done|]. intros f' r' [I|[= -> ->]%list_elem_of_singleton]%elem_of_app; eauto.
Qed.

Lemma nearest_fold q l : nearest_state q l (foldl (nearest_step q) (None, false) l).
Proof.
  induction l as [|e l IH] using rev_ind; [split; [done|]; by intros ? ? ?%elem_of_nil|].
  rewrite foldl_snoc. by apply nearest_step_state.
Qed.

(** A record that covers the workspace of [key], and none that does is deeper. *)
Definition Nearest (doc : TrustDocument) (key f : string) : Prop :=
  is_Some (doc !! f) /\ covers (canonicalize_or_owned key) f = true /\
  forall f' r', doc !! f' = Some r' -> covers (canonicalize_or_owned key) f' = true -> (depth f' <= depth f)%nat.

Lemma is_trusted_nearest store key : is_trusted store key = true <->
  st_disk_readable store = true /\ exists f, Nearest (st_doc store) key f /\
  forall f' r', Nearest (st_doc store) key f' -> st_doc store !! f' = Some r' -> trusted r' = true.
Proof.
  unfold is_trusted, Nearest. destruct (st_disk_readable store); cbn [negb]; [|naive_solver].
  set (q := canonicalize_or_owned key). pose proof (nearest_fold q (map_to_list (st_doc store))) as H.
  destruct (foldl _ _ _) as [[d|] acc]; cbn [snd nearest_state] in *.
  - destruct H as ((f&r&In&[C M]&<-)&A). setoid_rewrite elem_of_map_to_list in A. setoid_rewrite elem_of_map_to_list in M.
    apply elem_of_map_to_list in In. rewrite A. split.
    + intros H. split; [done|]. exists f. split; [by split_and!|]. intros f' r' (_&C'&M') L'.
      apply (H f' r' L' C'). apply Nat.le_antisymm; eauto.
    + intros (_&_&_&H) f' r' L' C' D'. apply (H f' r'); [|done]. split_and!; [done|done|]. intros f'' r'' L'' C''. rewrite D'. eauto.
  - destruct H as [-> N]. setoid_rewrite elem_of_map_to_list in N. split; [done|]. intros (_&f&([r L]&C&_)&_).
    by rewrite (N f r L) in C.
Qed.

(** The records at [f] and under other spellings of it agree on [b]. *)
Definition agreed (doc : TrustDocument) (f : string) (b : bool) : Prop :=
  forall f' r', doc !! f' = Some r' -> path_same f' f = true -> trusted r' = b.

Lemma covers_self q : is_unsafe_trust_root q = false -> covers q q = true.
Proof.
  intros U. unfold covers, path_starts_with, path_same. rewrite U, bool_decide_true by done. cbn [negb andb].
  rewrite andb_true_r. apply is_prefix_app. exists []. by rewrite app_nil_r.
Qed.

Lemma covers_depth q f : covers q f = true -> (depth f <= depth q)%nat /\ (depth f = depth q -> path_same f q = true).
Proof.
  unfold covers, path_starts_with, depth. intros [[_ [r E]%is_prefix_app]%andb_true_iff _]%andb_true_iff.
  rewrite E, length_app. split; [lia|]. intros L. destruct r; [|cbn in L; lia]. rewrite app_nil_r in E.
  unfold path_same. by apply bool_decide_eq_true_2.
Qed.

(** A decision on the folder itself is the nearest one. *)
Lemma own_record_decides store key q b : canonicalize_or_owned key = q -> st_disk_readable store = true -> is_unsafe_trust_root q = false ->
  (exists t, st_doc store !! q = Some (MkFolderTrust b t)) -> (b = true -> agreed (st_doc store) q true) -> is_trusted store key = b.
Proof.
  intros Q R U [t L] A.
  assert (Nq : Nearest (st_doc store) key q).
  { split_and!; [by eexists|rewrite Q; by apply covers_self|]. intros f r _ C. rewrite Q in C. by apply covers_depth in C as [? _]. }
  destruct b.
  - apply is_trusted_nearest. split; [done|]. exists q. split; [done|]. intros f r (_&C&M) Lf. rewrite Q in C, M.
    apply (A eq_refl f r Lf). apply covers_depth in C as [D1 D2]. apply D2, Nat.le_antisymm; [done|]. apply (M q _ L), covers_self, U.
  - apply not_true_iff_false. rewrite is_trusted_nearest. intros (_&_&_&H). by specialize (H q _ Nq L).
Qed.
End lookup.

(** ** Records survive *)

Section recorded.
Context `{F : FileSystem} `{Fs : Files} `{Gt : Git} `{W : WorktreeRegistry} `{Cd : TrustCodec} `{Cl : !TrustCodecLaws}.
Implicit Types (d : Disk) (store : TrustStore) (key path folder : string) (doc : TrustDocument) (read : StoreRead).

Lemma persist_doc_ok io d path doc d' : persist_doc io d path doc = Ok d' ->
  exists body, doc_to_string doc = Ok body /\ d' = <[path := plain_file body]> d.
Proof.
  unfold persist_doc. rewrite !result_bind_ok. intros (?&_&H). repeat (rewrite result_bind_ok in H; destruct H as (?&?&H)).
  simplify_eq/=. destruct (doc_to_string doc) as [body|] eqn:E; [|done]. simplify_eq/=. by exists x1.
Qed.

Lemma reads_back d path doc body : doc_to_string doc = Ok body -> read_doc_strict (<[path := plain_file body]> d) path = Ok (Document doc).
Proof.
  intros P. apply doc_reads_back in P. unfold read_doc_strict, node_at. rewrite lookup_insert_eq. cbn.
  destruct (is_empty (trim body)) eqn:E; [|by rewrite P]. apply doc_blank in E. congruence.
Qed.

Lemma record_commit_ok io d path folder b read d' doc : record_commit io d path folder b read = Ok (d', doc) ->
  doc = <[folder := MkFolderTrust b (now_unix (io_clock io))]> (into_document read) /\
  read_doc_strict d' path = Ok (Document doc) /\ forall p, p <> path -> d' !! p = d !! p.
Proof.
  unfold record_commit. destruct (persist_doc _ _ _ _) as [d1|] eqn:E; [|done]. intros [= <- <-].
  apply persist_doc_ok in E as (body&P&->). split_and!; [done|by apply reads_back|]. intros p N. by apply lookup_insert_ne.
Qed.

Lemma record_prepare_some io d store key path : record_prepare io d store key = Ok (Some path) ->
  st_path store = Some path /\ is_unsafe_trust_root (canonicalize_or_owned key) = false.
Proof. unfold record_prepare. intros H. by split_matches. Qed.

Lemma record_strict_durable io d store key b d' store' : record_decision_strict io d store key b = (d', store', Ok Durable) ->
  is_unsafe_trust_root (canonicalize_or_owned key) = false /\
  exists path read, st_path store = Some path /\ read_doc_strict (io_peers io d) path = Ok read /\
  store' = MkStore (<[from_utf8_lossy (canonicalize_or_owned key) := MkFolderTrust b (now_unix (io_clock io))]> (into_document read)) (Some path) true /\
  read_doc_strict d' path = Ok (Document (st_doc store')) /\ forall p, p <> path -> d' !! p = io_peers io d !! p.
Proof.
  unfold record_decision_strict, record_locked. destruct (record_prepare _ _ _ _) as [[path|]|] eqn:P; [|done..].
  apply record_prepare_some in P as [-> U]. destruct (read_doc_strict _ _) as [read|] eqn:R; [|done].
  destruct (record_commit _ _ _ _ _ _) as [[d1 doc]|] eqn:K; [|done]. intros [= <- <-].
  apply record_commit_ok in K as (->&B&O). split; [done|]. by exists path, read.
Qed.


Lemma record_strict_failed io d store key b d' store' r : record_decision_strict io d store key b = (d', store', r) ->
  r <> Ok Durable -> store' = store /\ (d' = d \/ d' = io_peers io d).
Proof.
  unfold record_decision_strict. destruct (record_prepare io d store key) as [[path|]|]; [|intros [= <- <- <-]; by auto..].
  destruct (record_locked _ _ _ _ _) as [[]|]; intros [= <- <- <-]; by auto.
Qed.

(** Whatever goes wrong, nothing is written: without a report of success
    the disk is as this process found it or as its peers left it and the store
    in memory is unchanged.  A file that cannot be read or parsed is never
    replaced, and it trusts no folder. *)
Theorem failed_record_writes_nothing io d store key b :
  let '(d', store', r) := record_decision_strict io d store key b in
  (r <> Ok Durable -> store' = store /\ (d' = d \/ d' = io_peers io d)) /\
  forall path e, st_path store = Some path -> read_doc_strict (io_peers io d) path = Err e ->
    r <> Ok Durable /\ forall k, is_trusted (load_from (io_peers io d) path) k = false.
Proof.
  destruct (record_decision_strict io d store key b) as [[d' store'] r] eqn:E. split; [by apply (record_strict_failed _ _ _ _ _ _ _ _ E)|].
  intros path e P R. split; [|intros k; unfold load_from; by rewrite R]. intros ->.
  apply record_strict_durable in E as (_&path'&read&P'&R'&_). congruence.
Qed.
End recorded.

(** ** Writers under the lock *)

Section writers.
Context `{F : FileSystem} `{Fs : Files} `{Gt : Git} `{W : WorktreeRegistry} `{Cd : TrustCodec} `{Cl : !TrustCodecLaws}.
(** The processes that record, one decision each; all use the store at [path]. *)
Record Writer : Type := MkWriter { wr_folder : string; wr_verdict : bool; wr_io : Io }.
Context (writers : nat -> Writer) (path : string).

Inductive WriterPhase : Type := Waiting | Locked | HasRead (read : StoreRead) | Done.

(** [sys_log]: the records written, in their order. *)
Record WriterSys : Type := MkWriterSys { sys_disk : Disk; sys_holder : option nat; sys_phase : nat -> WriterPhase; sys_log : list (string * FolderTrust) }.

Definition set_phase (ph : nat -> WriterPhase) (i : nat) (p : WriterPhase) : nat -> WriterPhase := fun j => if (j =? i)%nat then p else ph j.
Definition wr_record (w : Writer) : FolderTrust := MkFolderTrust (wr_verdict w) (now_unix (io_clock (wr_io w))).

(** One call of the system at a time; [flock] is given to one process, and is
    given back when the process is done. *)
Inductive writer_step : WriterSys -> WriterSys -> Prop :=
| StepLock i d ph log : ph i = Waiting -> writer_step (MkWriterSys d None ph log) (MkWriterSys d (Some i) (set_phase ph i Locked) log)
| StepRead i d ph log read : ph i = Locked -> read_doc_strict d path = Ok read ->
    writer_step (MkWriterSys d (Some i) ph log) (MkWriterSys d (Some i) (set_phase ph i (HasRead read)) log)
| StepReadFails i d ph log e : ph i = Locked -> read_doc_strict d path = Err e ->
    writer_step (MkWriterSys d (Some i) ph log) (MkWriterSys d None (set_phase ph i Done) log)
| StepCommit i d ph log read d' doc : ph i = HasRead read ->
    record_commit (wr_io (writers i)) d path (wr_folder (writers i)) (wr_verdict (writers i)) read = Ok (d', doc) ->
    writer_step (MkWriterSys d (Some i) ph log) (MkWriterSys d' None (set_phase ph i Done) (log ++ [(wr_folder (writers i), wr_record (writers i))]))
| StepCommitFails i d ph log read e : ph i = HasRead read ->
    record_commit (wr_io (writers i)) d path (wr_folder (writers i)) (wr_verdict (writers i)) read = Err e ->
    writer_step (MkWriterSys d (Some i) ph log) (MkWriterSys d None (set_phase ph i Done) log).

(** The document the records make, one after the other. *)
Definition replay (doc : TrustDocument) (log : list (string * FolderTrust)) : TrustDocument :=
  foldl (fun doc '(folder, record) => <[folder := record]> doc) doc log.

Definition on_disk (d : Disk) : option TrustDocument := into_document <$> ok (read_doc_strict d path).

(** Who is past the lock holds it, and what was read is still there. *)
Definition writers_inv (doc0 : TrustDocument) (s : WriterSys) : Prop :=
  on_disk (sys_disk s) = Some (replay doc0 (sys_log s)) /\
  (forall i, sys_phase s i = Locked -> sys_holder s = Some i) /\
  (forall i read, sys_phase s i = HasRead read -> sys_holder s = Some i /\ read_doc_strict (sys_disk s) path = Ok read).

Lemma set_phase_cases ph i p j q : set_phase ph i p j = q -> (j = i /\ p = q) \/ (j <> i /\ ph j = q).
Proof. unfold set_phase. destruct (Nat.eqb_spec j i); intros <-; [by left|by right]. Qed.

Lemma writers_inv_step doc0 s s' : writers_inv doc0 s -> writer_step s s' -> writers_inv doc0 s'.
Proof.
  intros (D&L&R) St. destruct St; unfold writers_inv in *; cbn [sys_disk sys_holder sys_phase sys_log] in *;
    split_and!; try done; try (intros j [[-> ?]|[? ?]]%set_phase_cases; [by simplify_eq|naive_solver congruence]).
  - intros j read [[_ ?]|[_ Hj]]%set_phase_cases; [done|]. by destruct (R _ _ Hj).
  - intros j read' [[-> [= ->]]|[N Hj]]%set_phase_cases; [done|]. destruct (R _ _ Hj). congruence.
  - intros j read' [[_ ?]|[N Hj]]%set_phase_cases; [done|]. destruct (R _ _ Hj). congruence.
  - destruct (R _ _ H) as [_ Rd]. apply record_commit_ok in H0 as (->&B&_). unfold on_disk in *. rewrite Rd in D. rewrite B.
    cbn in *. unfold replay in *. rewrite foldl_snoc. by injection D as ->.
  - intros j read' [[_ ?]|[N Hj]]%set_phase_cases; [done|]. destruct (R _ _ Hj). congruence.
  - intros j read' [[_ ?]|[N Hj]]%set_phase_cases; [done|]. destruct (R _ _ Hj). congruence.
Qed.

End writers.

(** ** Migration *)

Section migration.
Context `{F : FileSystem} `{Fs : Files} `{Gt : Git} `{W : WorktreeRegistry} `{Cd : TrustCodec} `{Cl : !TrustCodecLaws}.
Implicit Types (d : Disk) (store : TrustStore) (m : Migration) (project path f : string) (doc : TrustDocument).

Definition folder_of project : string := from_utf8_lossy (canonicalize_or_owned project).

(** The store has what the file has. *)
Definition in_sync d path store : Prop := load_from d path = store /\ st_disk_readable store = true.

Lemma in_sync_read d path store : in_sync d path store -> st_path store = Some path /\ on_disk path d = Some (st_doc store).
Proof. intros [<- R]. unfold load_from, on_disk in *. by destruct (read_doc_strict d path). Qed.

Lemma has_decision_mono store store' project : st_doc store ⊆ st_doc store' ->
  has_decision store project = true -> has_decision store' project = true.
Proof.
  unfold has_decision. intros S. destruct (st_doc store !! _) as [r|] eqn:E; [|done]. by rewrite (lookup_weaken _ _ _ _ E S).
Qed.

(** What holds after the grants [seen] of the list. *)
Definition migrating d0 doc0 path (seen : list string) m : Prop :=
  in_sync (mg_disk m) path (mg_store m) /\ doc0 ⊆ st_doc (mg_store m) /\
  (forall f r, st_doc (mg_store m) !! f = Some r -> doc0 !! f = Some r \/ exists project, project ∈ seen /\ f = folder_of project /\ trusted r = true) /\
  (mg_seed_error m = false -> forall project, project ∈ seen -> has_decision (mg_store m) project = true) /\
  forall p, p <> path -> mg_disk m !! p = d0 !! p.

Lemma migrate_one_ok io d0 doc0 path seen m project : (forall d, io_peers io d = d) -> migrating d0 doc0 path seen m ->
  migrating d0 doc0 path (seen ++ [project]) (migrate_one io m project).
Proof.
  intros NP (Sy&Sub&New0&All&Oth).
  assert (New : forall f r, st_doc (mg_store m) !! f = Some r -> doc0 !! f = Some r \/ exists p, p ∈ seen ++ [project] /\ f = folder_of p /\ trusted r = true).
  { intros f r L. destruct (New0 f r L) as [?|(p&I&?)]; [by left|right; exists p]. by rewrite elem_of_app; auto. }
  clear New0. unfold migrate_one. destruct (has_decision (mg_store m) project) eqn:H.
  { split_and!; try done. intros E p [?| ->%list_elem_of_singleton]%elem_of_app; auto. }
  destruct (record_decision_strict io (mg_disk m) (mg_store m) project true) as [[d1 st1] r] eqn:R.
  assert (K : r <> Ok Durable -> migrating d0 doc0 path (seen ++ [project]) (MkMigration d1 st1 (mg_migrated m) true)).
  { intros N. destruct (record_strict_failed _ _ _ _ _ _ _ _ R N) as [-> D1]. rewrite NP in D1.
    assert (d1 = mg_disk m) as -> by (by destruct D1). by split_and!. }
  destruct r as [[|]|]; [|by apply K..].
  apply record_strict_durable in R as (_&path'&read&P&Rd&->&B&O). rewrite NP in Rd, O.
  destruct (in_sync_read _ _ _ Sy) as [P' D]. rewrite P' in P. injection P as <-. unfold on_disk in D. rewrite Rd in D. cbn in D.
  injection D as D. rewrite D in *. assert (Nw : st_doc (mg_store m) !! folder_of project = None).
  { unfold has_decision in H. unfold folder_of. by destruct (st_doc (mg_store m) !! _). }
  split_and!; cbn [mg_disk mg_store mg_seed_error st_doc].
  - split; [|done]. unfold load_from. by rewrite B.
  - etrans; [exact Sub|]. by apply insert_subseteq.
  - intros f r. rewrite lookup_insert_Some. intros [[<- <-]|[_ L]]; [right; exists project; set_solver|].
    by apply New.
  - intros E p [I| ->%list_elem_of_singleton]%elem_of_app.
    + apply (has_decision_mono (mg_store m)); [by apply insert_subseteq|by apply All].
    + unfold has_decision. cbn [st_doc]. by rewrite lookup_insert_eq.
  - intros p N. rewrite O by done. by apply Oth.
Qed.

Lemma migrate_all_ok ios d0 doc0 path : (forall i d, io_peers (ios i) d = d) -> forall projects seen i m,
  migrating d0 doc0 path seen m -> migrating d0 doc0 path (seen ++ projects) (migrate_all ios i m projects).
Proof.
  intros NP. induction projects as [|p projects IH]; intros seen i m H; [by rewrite app_nil_r|].
  cbn [migrate_all]. rewrite cons_middle, app_assoc. by apply IH, migrate_one_ok.
Qed.

Lemma read_doc_other d d' path : d' !! path = d !! path -> read_doc_strict d' path = read_doc_strict d path.
Proof. unfold read_doc_strict, node_at. by intros ->. Qed.

Lemma rename_legacy_other io d legacy path : legacy <> path -> with_extension legacy "migrated" <> path ->
  rename_legacy io d legacy !! path = d !! path.
Proof.
  intros N1 N2. unfold rename_legacy. destruct (node_exists _); [|done]. destruct (io_rename _ _ _); [|done].
  by rewrite lookup_insert_ne, lookup_delete_ne.
Qed.

(** The migration of the older grants, when no other process writes:
    every decision the user has made is kept, what is added are grants of the
    older file for folders without one, and the older file is only put away
    once each of its folders has a decision. *)
Theorem migration_keeps_decisions ios d legacy path store :
  in_sync d path store -> legacy <> path -> with_extension legacy "migrated" <> path -> (forall i d, io_peers (ios i) d = d) ->
  let '(d', store', _) := migrate_legacy_hook_trust_in ios d legacy store in
  on_disk path d' = Some (st_doc store') /\ st_doc store ⊆ st_doc store' /\
  (forall f r, st_doc store' !! f = Some r -> st_doc store !! f = Some r \/
     exists projects project, list_trusted_projects_with_file d legacy = Ok projects /\ project ∈ projects /\ f = folder_of project /\ trusted r = true) /\
  (d' !! legacy <> d !! legacy -> forall projects project, list_trusted_projects_with_file d legacy = Ok projects ->
     project ∈ projects -> has_decision store' project = true).
Proof.
  intros Sy N1 N2 NP. unfold migrate_legacy_hook_trust_in. destruct (in_sync_read _ _ _ Sy) as [P D].
  destruct (list_trusted_projects_with_file d legacy) as [projects|] eqn:L; [|by split_and!; auto].
  rewrite P, (proj2 Sy). cbn [is_some negb orb].
  assert (M : migrating d (st_doc store) path ([] ++ projects) (migrate_all ios 0 (MkMigration d store 0 false) projects)).
  { apply migrate_all_ok; [done|]. split_and!; [done..|by auto| |done]. by intros _ ? ?%elem_of_nil. }
  cbn [app] in M. set (m := migrate_all _ _ _ _) in *. destruct M as (Sy'&Sub&New&All&Oth).
  destruct (in_sync_read _ _ _ Sy') as [_ D']. split_and!; [|done| |].
  - destruct (mg_seed_error m); [done|]. unfold on_disk in *. by rewrite (read_doc_other (mg_disk m)) by (by apply rename_legacy_other).
  - intros f r Lf. destruct (New f r Lf) as [?|(p&?&?&?)]; [by left|right; by exists projects, p].
  - destruct (mg_seed_error m) eqn:E; [by rewrite Oth|]. intros _ ? project [= <-]. by apply All.
Qed.
End migration.

(** ** A concrete store *)

Module TrustSample.
#[local] Existing Instances FileSample.plain_files.

#[local] Instance files : Files := {| is_file _ := false; path_exists _ := true; file_contents _ := None; home_dir := Some "/home/u" |}.
#[local] Instance no_git : Git := {| git_discover _ := None; git_open _ := None |}.
#[local] Instance no_worktrees : WorktreeRegistry := {| grok_home := "/home/u/.grok"; worktree_db _ := None |}.

Definition yes : FolderTrust := MkFolderTrust true (Some 5%Z).
Definition no : FolderTrust := MkFolderTrust false (Some 5%Z).
Definition texts : list (string * TrustDocument) :=
  [("w-yes", {["/w" := yes]}); ("w-no", {["/w" := no]}); ("v-no", {["/v" := no]}); ("both", {["/w" := yes; "/v" := no]})].

#[local] Instance codec : TrustCodec := {|
  doc_from_str s := if is_empty (trim s) then Ok ∅ else ok_or "bad" (snd <$> List.find (fun e => s =s? e.1) texts);
  doc_to_string doc := ok_or "bad" (fst <$> List.find (fun e => bool_decide (doc = e.2)) texts) |}.

#[local] Instance codec_laws : TrustCodecLaws.
Proof.
  split; [|intros s E; unfold doc_from_str, codec; by rewrite E].
  intros doc s. unfold doc_to_string, doc_from_str, codec, texts. cbn [List.find snd fst].
  repeat (case_bool_decide as E; [intros [= <-]; by rewrite E|clear E]). done.
Qed.

Definition calm : Io := MkIo (fun _ => Ok ()) (fun _ => Ok ()) (fun _ => Ok ()) (fun _ => Ok ()) (Ok ()) (fun _ => Ok ()) (fun _ _ => Ok ()) (Some 5%Z) id.
Definition path : string := "/h/t".
Definition legacy : string := "/h/l".
Definition disk0 : Disk := {[path := plain_file "v-no"; legacy := plain_file "/w"]}.
Definition store0 : TrustStore := load_from disk0 path.

Definition recorded := record_decision_strict calm disk0 store0 "/w/sub/.." true.


Lemma failed_record_writes_nothing_witness :
  let '(d', _, r) := record_decision_strict calm {[path := plain_file "?"]} (MkStore ∅ (Some path) true) "/w" true in
  r <> Ok Durable /\ d' = {[path := plain_file "?"]}.
Proof.
  pose proof (failed_record_writes_nothing calm {[path := plain_file "?"]} (MkStore ∅ (Some path) true) "/w" true) as H.
  destruct (record_decision_strict _ _ _ _ _) as [[d' store'] r]. destruct H as [H1 H2].
  destruct (H2 path (MkIoErr KInvalidData "bad") eq_refl ltac:(by vm_compute)) as [N _]. split; [done|]. by destruct (H1 N) as [_ [|]].
Defined.

Definition writer (i : nat) : Writer := match i with 0%nat => MkWriter "/w" true calm | _ => MkWriter "/v" false calm end.

Definition writers_start : WriterSys := MkWriterSys ∅ None (fun _ => Waiting) [].


Lemma migration_keeps_decisions_witness :
  let '(d', store', _) := migrate_legacy_hook_trust_in (fun _ => calm) disk0 legacy store0 in
  on_disk path d' = Some (st_doc store') /\ st_doc store' !! "/v" = Some no /\ has_decision store' "/w" = true.
Proof.
  pose proof (migration_keeps_decisions (fun _ => calm) disk0 legacy path store0 ltac:(vm_compute; done) ltac:(done) ltac:(vm_compute; done) ltac:(done)) as H.
  assert (W : has_decision (migrate_legacy_hook_trust_in (fun _ => calm) disk0 legacy store0).1.2 "/w" = true) by (vm_compute; reflexivity).
  destruct (migrate_legacy_hook_trust_in _ _ _ _) as [[d' store'] n]. destruct H as (D&S&_). split_and!; [done| |done].
  assert (V : st_doc store0 !! "/v" = Some no) by (vm_compute; reflexivity). exact (lookup_weaken _ _ _ _ V S).
Defined.

(** Another process declines the folder while the migration waits for the lock:
    the check was made on the store in memory, and the grant replaces the answer. *)
Definition contended : Io := MkIo (fun _ => Ok ()) (fun _ => Ok ()) (fun _ => Ok ()) (fun _ => Ok ()) (Ok ()) (fun _ => Ok ()) (fun _ _ => Ok ())
  (Some 5%Z) (fun d => <[path := plain_file "w-no"]> d).

Theorem migration_overrides_concurrent_no :
  let '(d', _, n) := migrate_legacy_hook_trust_in (fun _ => contended) {[legacy := plain_file "/w"]} legacy (load_from {[legacy := plain_file "/w"]} path) in
  n = 1%nat /\ on_disk path (io_peers contended {[legacy := plain_file "/w"]}) = Some {["/w" := no]} /\ on_disk path d' = Some {["/w" := yes]}.
Proof. vm_compute. done. Qed.
End TrustSample.
