(* ===== verification/FolderTrust.v ===== *)
(** * [xai-grok-workspace], [folder_trust.rs]

    Whether a folder is trusted: the scan for what a repository may bring along
    (servers, hooks, plugins, permission rules, instructions), the order in
    which the reasons for trust are asked, and granting and revoking.  The
    world is the disk with the store and the decisions of this process.  The
    file shows that the scan sees every permission rule the loader would load,
    that a grant is honoured as far as it reports, and that a revoked folder is
    untrusted at once. *)

From stdpp Require Import gmap.
From S2P Require Import Prelude RustStr Json Paths PermRules BashCommand PermPolicy ShellAccess PolicyUrl ClaudeSettings ManagedPolicy Toml ConfigLayers PermResolution TrustStore.

(** ** [xai-grok-config-types]: [flags.rs] *)

Inductive ConfigSource : Type :=
| Requirement | Cli | Env | SystemManagedConfig | ManagedConfig | UserConfig | EnvOverlay | Config | Remote | Default.
Record Resolved (A : Type) : Type := MkResolvedValue { res_value : A; res_source : ConfigSource }.
Arguments MkResolvedValue {A}.
Arguments res_value {A}.
Arguments res_source {A}.

Record BoolFlag : Type := MkBoolFlag {
  bf_requirement : option bool; bf_cli : option bool; bf_env : option bool; bf_config : option bool; bf_managed : option bool;
  bf_feature_flag : option bool; bf_default : bool }.

Definition resolve_bool_flag (f : BoolFlag) : Resolved bool :=
  match bf_requirement f with Some v => MkResolvedValue v Requirement | None =>
  match bf_cli f with Some v => MkResolvedValue v Cli | None =>
  match bf_env f with Some v => MkResolvedValue v Env | None =>
  match bf_config f with Some v => MkResolvedValue v Config | None =>
  match bf_managed f with Some v => MkResolvedValue v ManagedConfig | None =>
  match bf_feature_flag f with Some v => MkResolvedValue v Remote | None => MkResolvedValue (bf_default f) Default
  end end end end end end.

(** ** The decision *)

Inductive TrustOutcome : Type := Trusted | Untrusted | Prompt.

Record DecideInputs : Type := MkDecideInputs {
  store_trusted : bool; repo_configs : bool; interactive : bool; key_recordable : bool }.

Definition decide_trust (feature_enabled : bool) (i : DecideInputs) : TrustOutcome :=
  if negb feature_enabled then Trusted
  else if store_trusted i then Trusted
  else if negb (key_recordable i) then Trusted
  else if negb (repo_configs i) then Trusted
  else if interactive i then Prompt
  else Untrusted.

(** ** Vendor directories: [xai-grok-tools], [compat.rs] *)

Record VendorCompat : Type := MkVendor { vc_skills : bool; vc_rules : bool; vc_agents : bool; vc_mcps : bool; vc_hooks : bool; vc_sessions : bool }.
Definition VendorCompat_default : VendorCompat := MkVendor true true true true true true.
Record CompatConfig : Type := MkCompat { cc_cursor : VendorCompat; cc_claude : VendorCompat; cc_codex : VendorCompat }.
Definition CompatConfig_default : CompatConfig := MkCompat VendorCompat_default VendorCompat_default VendorCompat_default.

Definition skill_config_dirs (c : CompatConfig) : list string :=
  [".grok"; ".agents"] ++ (if vc_skills (cc_claude c) then [".claude"] else []) ++ (if vc_skills (cc_cursor c) then [".cursor"] else []).
Definition rules_dirs (c : CompatConfig) : list string :=
  [".grok/rules"] ++ (if vc_rules (cc_claude c) then [".claude/rules"] else []) ++ (if vc_rules (cc_cursor c) then [".cursor/rules"] else []).
Definition agent_filenames (c : CompatConfig) : list string :=
  ["Agents.md"; "Claude.md"; "CLAUDE.md"; "CLAUDE.local.md"; "AGENT.md"; "AGENTS.md"] ++
  (if vc_agents (cc_claude c) then [".claude/CLAUDE.md"; ".claude/CLAUDE.local.md"] else []).

(** [std::fs::metadata]: is it a directory? *)
Class Directories := dir_metadata : string -> result ErrorKind bool.
Definition is_dir `{Directories} (p : string) : bool := match dir_metadata p with Ok b => b | Err _ => false end.

Definition directory_present_or_uncertain `{Directories} (p : string) : bool :=
  match dir_metadata p with Ok b => b | Err KNotFound => false | Err _ => true end.

(** [Value::as_table] and [as_array], not empty *)
Definition nonempty_table (v : TomlValue) : bool := match tv_table v with Some (_ :: _) => true | _ => false end.
Definition nonempty_array (v : TomlValue) : bool := match tv_array v with Some (_ :: _) => true | _ => false end.
Definition holds (p : TomlValue -> bool) (v : option TomlValue) : bool := match v with Some v => p v | None => false end.

Definition config_toml_permission_contributes (permission_value : TomlValue) : bool :=
  match tv_table permission_value with
  | None => true
  | Some table =>
      existsb (fun key => holds nonempty_array (tget key table)) ["deny"; "allow"; "ask"] || holds nonempty_array (tget "rules" table)
  end.

(** One pass over the markers, in order; with [first_only] it returns at the
    first that is there. *)
Fixpoint collect_kinds (first_only : bool) (kinds : list string) (markers : list (string * bool)) : list string :=
  match markers with
  | [] => kinds
  | (k, found) :: markers' =>
      if found then
        let kinds := if is_one_of kinds k then kinds else kinds ++ [k] in
        if first_only then kinds else collect_kinds first_only kinds markers'
      else collect_kinds first_only kinds markers'
  end.

Section scan.
Context `{Ex : ShellExpand} `{Tp : TomlParser} `{Sv : Semver} `{I : @Installation Sv} `{V : SerdeView}.
Context `{F : FileSystem} `{Fs : Files} `{Cf : ConfigFiles} `{Gt : Git} `{D : Directories}.

Definition worktree_of (cwd : string) : option string := git_discover cwd ≫= repo_workdir.

(** *** [xai-grok-agent]: [repo.rs] and the markers of its loaders *)

Definition chain_git_root (cwd : string) : option string := ofilter (fun root => negb (is_home_dir root)) (worktree_of cwd).
Definition chain_dirs (cwd : string) : list string := repo_dir_chain worktree_of cwd.

Definition workspace_user_relpath (user : string) : string :=
  if contains_byte "/" user || contains_byte "\" user then user else "x/" +:+ user.
Definition resolve_workspace_user_dir (root user : string) : option string :=
  if is_empty root || is_empty user then None else let path := push root user in then_some (is_dir path) path.
Definition optional_workspace_user_dir : option string :=
  root ← env_var "XAI_ROOT"; user ← env_var "XAI_USER"; resolve_workspace_user_dir root (workspace_user_relpath user).

(** [StartupProjectSources]: the user's directory, when it is not of the chain. *)
Definition sources_user_dir (cwd : string) : option string :=
  ofilter (fun user_dir => forallb (fun dir => negb (path_same (canonicalize_or_owned dir) (canonicalize_or_owned user_dir))) (chain_dirs cwd))
    optional_workspace_user_dir.
Definition skill_dirs (cwd : string) : list string :=
  chain_dirs cwd ++ match sources_user_dir cwd with Some u => [u] | None => [] end.
Definition instruction_dirs (cwd : string) : list string :=
  let dirs := rev (chain_dirs cwd) in
  match chain_git_root cwd, sources_user_dir cwd with
  | Some _, Some user_dir => take 1 dirs ++ user_dir :: drop 1 dirs
  | _, _ => dirs
  end.

Definition existing_subdirs_along (dirs subdirs : list string) : list string :=
  dirs ≫= fun dir => List.filter is_dir (push dir <$> subdirs).
Definition project_plugin_dirs_in (dirs : list string) : list string := existing_subdirs_along dirs [".grok/plugins"; ".claude/plugins"].
Definition PROJECT_AGENT_SUBDIRS : list string := [".grok/agents"; ".claude/agents"].
Definition project_agent_dirs_in (dirs : list string) : list string := existing_subdirs_along dirs PROJECT_AGENT_SUBDIRS.

Definition has_project_instruction_markers_in (dirs : list string) : bool :=
  existsb (fun dir => existsb (fun name => path_exists (push dir name)) (agent_filenames CompatConfig_default) ||
                      existsb (fun subdir => is_dir (push dir subdir)) (rules_dirs CompatConfig_default)) dirs.

Definition SKILL_SUBDIRS : list string := ["skills"].
Definition COMMAND_SUBDIR : string := "commands".
Definition has_project_skill_dirs_in (dirs : list string) : bool :=
  existsb (fun dir => existsb (fun config_dir =>
    existsb (fun subdir => is_dir (push (push dir config_dir) subdir)) (SKILL_SUBDIRS ++ [COMMAND_SUBDIR]))
    (skill_config_dirs CompatConfig_default)) dirs.

Definition find_mcp_json_files_in (dirs : list string) : list string := List.filter is_file ((fun dir => push dir ".mcp.json") <$> rev dirs).

Definition claude_project_mcp_names (cwd : string) : option (list string) :=
  home ← home_dir;
  content ← file_contents (push home ".claude.json");
  value ← ok (from_str content);
  let names := unwrap_or [] (p ← get value "projects"; proj ← get p (from_utf8_lossy cwd); m ← get proj "mcpServers";
                             match view m with JObject o => Some ((map_entries o).*1) | _ => None end) in
  match names with [] => None | _ => Some names end.

(** *** The markers *)

Definition project_config_markers (path : string) : list (string * bool) :=
  match load_config_file path with
  | Err _ => []
  | Ok root =>
      [("mcp", holds nonempty_table (tv_get root "mcp_servers"));
       ("plugins", holds nonempty_array (v ← tv_get root "plugins"; tv_get v "paths"));
       ("permission", holds config_toml_permission_contributes (tv_get root "permission"))]
  end.

Definition found_any {A} (l : list A) : bool := match l with [] => false | _ => true end.

Definition repo_markers (cwd : string) : list (string * bool) :=
  let dirs := chain_dirs cwd in
  let hook_root := unwrap_or cwd (chain_git_root cwd) in
  let grok := push cwd ".grok" in
  [("mcp", found_any (find_mcp_json_files_in dirs))] ++
  (find_project_configs worktree_of cwd ≫= project_config_markers) ++
  [("lsp", is_file (push grok "lsp.json"));
   ("mcp", is_file (push (push cwd ".cursor") "mcp.json"));
   ("envrc", is_file (push cwd ".envrc"));
   ("claude", project_claude_settings_present cwd);
   ("hooks", path_present_or_uncertain (push (push hook_root ".grok") "hooks") ||
             path_present_or_uncertain (push (push hook_root ".cursor") "hooks.json"));
   ("plugins", found_any (project_plugin_dirs_in dirs));
   ("agents", found_any (project_agent_dirs_in dirs));
   ("roles", directory_present_or_uncertain (push grok "roles"));
   ("personas", directory_present_or_uncertain (push grok "personas"));
   ("workflows", directory_present_or_uncertain (push (push hook_root ".grok") "workflows"));
   ("instructions", has_project_instruction_markers_in (instruction_dirs cwd));
   ("skills", has_project_skill_dirs_in (skill_dirs cwd));
   ("mcp", is_some (claude_project_mcp_names cwd))].

Definition collect_repo_config_kinds (cwd : string) (first_only : bool) : list string := collect_kinds first_only [] (repo_markers cwd).
Definition repo_configs_present (cwd : string) : bool := found_any (collect_repo_config_kinds cwd true).
Definition repo_config_kinds (cwd : string) : list string := collect_repo_config_kinds cwd false.

(** *** The feature *)

(** [stamped]: [option_env!("GROK_VERSION")] of the build. *)
Definition is_local_build (stamped : bool) : bool := if is_some (env_var "GROK_TEST_VERSION") then false else negb stamped.
Definition folder_trust_inert (stamped : bool) : bool := is_local_build stamped.

Definition folder_trust_of_toml (v : option TomlValue) : option bool := v ← v; t ← tv_get v "folder_trust"; e ← tv_get t "enabled"; tv_bool e.

(** [remote]: [folder_trust_enabled] of the remote settings *)
Definition feature_enabled_for_build (remote : option bool) (local : bool) : bool :=
  if local then false
  else
    let user := ok load_from_disk in
    let managed := ok load_managed_config in
    res_value (resolve_bool_flag (MkBoolFlag None None (env_bool "GROK_FOLDER_TRUST") (folder_trust_of_toml user)
      (folder_trust_of_toml managed) remote true)).
Definition feature_enabled (stamped : bool) (remote : option bool) : bool := feature_enabled_for_build remote (is_local_build stamped).
End scan.

(** ** Grants *)

Inductive GrantRefuse : Type := InertBuild | UnsafeRoot | NoHome | UnreadableStore | KeyMoved.
Inductive PersistStatus : Type := PersistDurable | ProcessLocalOnly (error : IoErr).
Inductive GrantOutcome : Type :=
| Granted (key : string) (persist : PersistStatus) | AlreadyDurable (key : string) | Refused (reason : GrantRefuse).

Definition dismisses_gate (o : GrantOutcome) : bool :=
  match o with
  | Granted _ PersistDurable | AlreadyDurable _ => true
  | Granted _ (ProcessLocalOnly _) => false
  | Refused InertBuild | Refused UnsafeRoot => true
  | Refused _ => false
  end.

Definition GrantRefuse_display (r : GrantRefuse) : string :=
  match r with
  | InertBuild => "folder trust is off in this build"
  | UnsafeRoot => "folder trust is not recorded for this path"
  | NoHome => "error: folder trust was not saved (no home directory for the trust store). Set GROK_HOME to an absolute directory, or unset it, then start Grok again."
  | UnreadableStore => "error: folder trust was not saved (trust store could not be read). Fix or delete ~/.grok/trusted_folders.toml, then start Grok again and press y."
  | KeyMoved => "error: folder trust was not saved (folder path changed). Start Grok again from the folder you want to trust."
  end.

Definition GrantOutcome_display (o : GrantOutcome) : string :=
  match o with
  | Granted _ (ProcessLocalOnly error) =>
      "error: folder trust was not saved (" +:+ io_text error +:+ "). Check that ~/.grok is writable and that trusted_folders.toml.lock is a file, then run `grok --trust` in this folder."
  | Refused reason => GrantRefuse_display reason
  | Granted _ _ | AlreadyDurable _ => "folder trust was saved"
  end.

(** A map with paths as keys, which are compared by their components. *)
Definition PathMap : Type := string -> option bool.
Definition path_insert (m : PathMap) (key : string) (b : bool) : PathMap := fun k => if path_same k key then Some b else m k.

(** The disk, and [PROCESS_DECISIONS]. *)
Record TrustWorld : Type := MkTrustWorld { w_disk : Disk; w_process : PathMap }.

(** What a call sees of the terminal: whether standard input and error are
    terminals, and the line that is read, if any. *)
Record Terminal : Type := MkTerminal { stdin_tty : bool; stderr_tty : bool; answer : option string }.

(** [prompt_for_trust] *)
Definition prompt_accepts (t : Terminal) : bool :=
  match answer t with
  | None => false
  | Some line => if is_empty line then false else is_one_of ["y"; "yes"] (to_ascii_lowercase (trim line))
  end.

Definition is_interactive (t : Terminal) : bool := stdin_tty t && stderr_tty t.

Section grants.
Context `{Ex : ShellExpand} `{Tp : TomlParser} `{Sv : Semver} `{I : @Installation Sv} `{V : SerdeView}.
Context `{F : FileSystem} `{Fs : Files} `{Cf : ConfigFiles} `{Gt : Git} `{D : Directories} `{W : WorktreeRegistry} `{Cd : TrustCodec}.
(** whether the build has a release version *)
Context (stamped : bool).

Definition trust_store_home : option string := resolve_grok_home (env_var "GROK_HOME").
Definition load_store (w : TrustWorld) : TrustStore := load (env_var "GROK_HOME") (w_disk w).

Definition record_process_decision (w : TrustWorld) (key : string) (b : bool) : TrustWorld := MkTrustWorld (w_disk w) (path_insert (w_process w) key b).

Definition is_trusted_this_process (w : TrustWorld) (key : string) : bool :=
  match w_process w key with Some b => b | None => is_trusted (load_store w) key end.

Definition decide_inputs_with_interactive (w : TrustWorld) (cwd key : string) (is_interactive : bool) : DecideInputs :=
  MkDecideInputs (is_trusted_this_process w key) (repo_configs_present cwd) is_interactive (negb (is_unsafe_trust_root key)).
Definition decide_inputs (t : Terminal) (w : TrustWorld) (cwd key : string) : DecideInputs :=
  decide_inputs_with_interactive w cwd key (is_interactive t).

Definition precheck_grant (key : string) : option GrantOutcome :=
  if folder_trust_inert stamped then Some (Refused InertBuild)
  else match canonicalize key with
  | None => Some (Refused KeyMoved)
  | Some canonical =>
      if negb (path_same canonical key) then Some (Refused KeyMoved)
      else if is_unsafe_trust_root key then Some (Refused UnsafeRoot)
      else None
  end.

Definition apply_grant_to_store (io : Io) (w : TrustWorld) (store : TrustStore) (key : string) : TrustWorld * TrustStore * GrantOutcome :=
  if negb (st_disk_readable store) then (w, store, Refused UnreadableStore)
  else if negb (is_some (st_path store)) then (w, store, Refused NoHome)
  else if has_decision store key && is_trusted store key then (record_process_decision w key true, store, AlreadyDurable key)
  else
    let '(d, store, r) := record_decision_strict io (w_disk w) store key true in
    let w := MkTrustWorld d (w_process w) in
    match r with
    | Ok Durable => (record_process_decision w key true, store, Granted key PersistDurable)
    | Ok Skipped => (w, store, Refused UnsafeRoot)
    | Err (Unreadable _) => (w, store, Refused UnreadableStore)
    | Err (Publish error) => (record_process_decision w key true, store, Granted key (ProcessLocalOnly error))
    end.

(** The store is a local of the call. *)
Definition checked_grant (io : Io) (w : TrustWorld) (store_home : option string) (key : string) : TrustWorld * GrantOutcome :=
  match precheck_grant key with
  | Some refused => (w, refused)
  | None =>
      match ofilter is_absolute store_home with
      | None => (w, Refused NoHome)
      | Some home =>
          let '(w, _, outcome) := apply_grant_to_store io w (load_from (w_disk w) (push home TRUST_FILE_NAME)) key in (w, outcome)
      end
  end.

Definition grant_folder_trust_key (io : Io) (w : TrustWorld) (key : string) : TrustWorld * GrantOutcome := checked_grant io w trust_store_home key.
Definition grant_folder_trust_key_in (io : Io) (w : TrustWorld) (store_home key : string) : TrustWorld * GrantOutcome := checked_grant io w (Some store_home) key.
Definition grant_folder_trust (io : Io) (w : TrustWorld) (cwd : string) : TrustWorld * GrantOutcome :=
  if folder_trust_inert stamped then (w, Refused InertBuild) else grant_folder_trust_key io w (workspace_key cwd).

Definition persist_trust (io : Io) (w : TrustWorld) (store : TrustStore) (key : string) : TrustWorld * TrustStore :=
  (apply_grant_to_store io w store key).1.

Definition revoke_folder_trust_store (io : Io) (w : TrustWorld) (cwd : string) : TrustWorld * bool :=
  if folder_trust_inert stamped then (w, false)
  else
    let key := workspace_key cwd in
    let store := load_store w in
    let was_trusted := is_trusted store key || bool_decide (w_process w key = Some true) in
    if was_trusted then
      let '(d, _, _) := set_decision io (w_disk w) store key false in
      (record_process_decision (MkTrustWorld d (w_process w)) key false, true)
    else (w, false).

(** [once]: whether the migration has run in this process. *)
Definition migrate_legacy_hook_trust (ios : nat -> Io) (once : bool) (w : TrustWorld) : bool * TrustWorld :=
  if folder_trust_inert stamped then (once, w)
  else if once then (true, w)
  else (true, match trust_store_home with
              | None => w
              | Some home =>
                  let '(d, _, _) := migrate_legacy_hook_trust_in ios (w_disk w) (push home TRUSTED_HOOK_PROJECTS_FILENAME) (load_store w) in
                  MkTrustWorld d (w_process w)
              end).
End grants.

(** ** The scan *)

Lemma collect_kinds_keeps first kinds markers : found_any kinds = true -> found_any (collect_kinds first kinds markers) = true.
Proof.
  revert kinds. induction markers as [|[k []] ms IH]; intros kinds N; cbn [collect_kinds]; [done| |by apply IH].
  assert (found_any (if is_one_of kinds k then kinds else kinds ++ [k]) = true) by (by destruct (is_one_of kinds k), kinds).
  destruct first; [done|by apply IH].
Qed.

(** Both forms of the scan find something exactly when a marker is there. *)
Lemma collect_kinds_found first markers : found_any (collect_kinds first [] markers) = existsb snd markers.
Proof.
  induction markers as [|[k []] ms IH]; cbn [collect_kinds existsb snd orb]; [done| |done].
  destruct first; [done|]. by apply collect_kinds_keeps.
Qed.

Lemma bind_all_nil {A B} (f : A -> list B) l : (forall x, x ∈ l -> f x = []) -> l ≫= f = [].
Proof.
  induction l as [|x l IH]; intros H; [done|]. cbn. rewrite (H x) by apply list_elem_of_here. apply IH. intros y Hy.
  by apply H, list_elem_of_further.
Qed.

Section ungated.
Context `{T : TreeSitter} `{G : GlobCrate} `{UC : UrlCrate} `{UP : UrlParser} `{L : Unicode} `{F : FileSystem}.
Context `{Sv : Semver} `{Ex : ShellExpand} `{Tp : TomlParser} `{I : @Installation Sv} `{V : SerdeView}.
Context `{Fs : Files} `{Cf : ConfigFiles} `{Gt : Git} `{D : Directories}.
Context (permission_config_of_toml : TomlValue -> option (list PermissionRule)).
(** The rules of the long form come from the entries of the array [rules]. *)
Context (Verbose : forall t rs, permission_config_of_toml (TTable t) = Some rs -> rs <> [] -> exists v l, tget "rules" t = Some (TArray (v :: l))).
(** A file that can be read is an entry of its directory. *)
Context (Entry : forall p, is_file p = true -> symlink_metadata p <> Err PermPolicy.NotFound).

Lemma present_marks cwd k : repo_configs_present cwd = false -> (k, true) ∈ repo_markers cwd -> False.
Proof.
  unfold repo_configs_present, collect_repo_config_kinds. rewrite collect_kinds_found. intros N E.
  apply not_true_iff_false in N. apply N, existsb_exists. exists (k, true). split; [by apply list_elem_of_In|done].
Qed.

Lemma compact_rules_silent permission action key : holds nonempty_array (tv_get permission key) = false ->
  unwrap_or [] (compact_rules permission action key) = [].
Proof. unfold compact_rules, holds, nonempty_array. destruct (tv_get permission key) as [v|]; [|done]. cbn. by destruct (tv_array v) as [[|]|]. Qed.

(** A section that does not count as a marker has no rules. *)
Lemma silent_section permission : config_toml_permission_contributes permission = false ->
  unwrap_or [] (parse_toml_permission_section permission_config_of_toml permission) = [].
Proof.
  intros H. unfold config_toml_permission_contributes in H. destruct (tv_table permission) as [t|] eqn:Tb; [|done].
  destruct permission; try done. injection Tb as ->.
  apply orb_false_iff in H as [C R]. cbn [existsb] in C. rewrite !orb_false_iff in C. destruct C as (Cd&Ca&Ck&_).
  unfold parse_toml_permission_section. destruct (existsb is_some _).
  - cbn [unwrap_or concat fmap list_fmap]. by rewrite !compact_rules_silent.
  - destruct (permission_config_of_toml (TTable t)) as [[|r rs]|] eqn:E; [done| |done].
    destruct (Verbose _ _ E ltac:(done)) as (v&l&K). by rewrite K in R.
Qed.

Lemma silent_config cwd path : repo_configs_present cwd = false -> path ∈ find_project_configs worktree_of cwd ->
  config_file_permissions permission_config_of_toml path = [].
Proof.
  intros N P. unfold config_file_permissions. destruct (load_config_file path) as [root|] eqn:Lo; [|done].
  unfold extract_toml_permissions. destruct (tv_get root "permission") as [permission|] eqn:Pe; [|done].
  destruct (config_toml_permission_contributes permission) eqn:C; [|by rewrite silent_section].
  exfalso. apply (present_marks cwd "permission" N). unfold repo_markers. cbv zeta. rewrite !elem_of_app. right; left.
  apply list_elem_of_bind. exists path. split; [|done]. unfold project_config_markers. rewrite Lo, Pe. cbn [holds]. rewrite C.
  apply list_elem_of_In. cbn. auto.
Qed.

Lemma silent_settings cwd path : repo_configs_present cwd = false -> path ∈ collect_project_claude_paths cwd -> load_claude_settings path = None.
Proof.
  intros N P. unfold load_claude_settings. destruct (is_file path) eqn:Fi; [|done]. exfalso.
  apply (present_marks cwd "claude" N). unfold repo_markers. cbv zeta. rewrite !elem_of_app. right; right.
  assert (C : project_claude_settings_present cwd = true).
  { apply existsb_exists. exists path. split; [by apply list_elem_of_In|]. unfold path_present_or_uncertain.
    apply Entry in Fi. by destruct (symlink_metadata path) as [|[|]]. }
  rewrite C. apply list_elem_of_In. cbn. auto 10.
Qed.

Lemma silent_files cwd : repo_configs_present cwd = false -> claude_files_loaded cwd true = claude_files_loaded cwd false.
Proof.
  intros N. unfold claude_files_loaded, claude_settings_paths_for_trust, find_claude_settings_paths. rewrite filter_map_app.
  rewrite (proj2 (filter_map_nil _ (collect_project_claude_paths cwd))); [done|]. intros p P. by rewrite (silent_settings cwd p N P).
Qed.

(** Nothing slips past the scan.  A folder in which it finds nothing is let
    through without a question; the permission rules, the mode and the records
    resolved for it are those of a folder that is not trusted at all. *)
Theorem ungated_folder_adds_nothing managed cwd : repo_configs_present cwd = false ->
  resolve_permissions_with_provenance permission_config_of_toml worktree_of managed cwd true =
  resolve_permissions_with_provenance permission_config_of_toml worktree_of managed cwd false.
Proof.
  intros N. unfold resolve_permissions_with_provenance, live_inputs. f_equal.
  unfold resolve_permissions_with_provenance_inner, mode_in_force, loaded_rules, settings_of, resolve_claude_settings_inner.
  cbn [in_project_trusted in_yolo_lock in_managed in_managed_config_rules block_of]. rewrite (silent_files cwd N).
  assert (K : load_config_toml_permissions permission_config_of_toml worktree_of cwd true =
              load_config_toml_permissions permission_config_of_toml worktree_of cwd false).
  { unfold load_config_toml_permissions. f_equal. apply bind_all_nil. intros p P. by apply (silent_config cwd). }
  by rewrite K.
Qed.
End ungated.

(** ** Grants and revocations *)

Section granted.
Context `{Ex : ShellExpand} `{Tp : TomlParser} `{Sv : Semver} `{I : @Installation Sv} `{V : SerdeView}.
Context `{F : FileSystem} `{Fs : Files} `{Cf : ConfigFiles} `{Gt : Git} `{D : Directories} `{W : WorktreeRegistry} `{Cd : TrustCodec} `{Cl : !TrustCodecLaws}.
Context (stamped : bool).
Implicit Types (w : TrustWorld) (key path home : string) (o : GrantOutcome).

Lemma path_insert_eq m key b : path_insert m key b key = Some b.
Proof. unfold path_insert, path_same. by rewrite bool_decide_true. Qed.

Lemma decided_here w key b : is_trusted_this_process (record_process_decision w key b) key = b.
Proof. unfold is_trusted_this_process, record_process_decision. cbn [w_process]. by rewrite path_insert_eq. Qed.

(** The disk is as it was, but for what other processes wrote. *)
Definition disk_kept (io : Io) w w' : Prop := w_disk w' = w_disk w \/ w_disk w' = io_peers io (w_disk w).

(** What an outcome says of the world after a call with the store at [path]. *)
Definition outcome_true (io : Io) w path key w' o : Prop :=
  match o with
  | Refused _ => w_process w' = w_process w /\ disk_kept io w w'
  | AlreadyDurable k => k = key /\ is_trusted_this_process w' key = true /\ w_disk w' = w_disk w /\ is_trusted (load_from (w_disk w') path) key = true
  | Granted k (ProcessLocalOnly _) => k = key /\ is_trusted_this_process w' key = true /\ disk_kept io w w'
  | Granted k PersistDurable => k = key /\ is_trusted_this_process w' key = true /\
      exists doc, on_disk path (io_peers io (w_disk w)) = Some doc /\
        on_disk path (w_disk w') = Some (<[folder_of key := MkFolderTrust true (now_unix (io_clock io))]> doc)
  end.

Lemma apply_grant_true io w path key w' store' o :
  apply_grant_to_store io w (load_from (w_disk w) path) key = (w', store', o) -> outcome_true io w path key w' o.
Proof.
  unfold apply_grant_to_store. set (store := load_from (w_disk w) path).
  destruct (st_disk_readable store); cbn [negb]; [|intros [= <- _ <-]; by split; [|left]].
  destruct (is_some (st_path store)); cbn [negb]; [|intros [= <- _ <-]; by split; [|left]].
  destruct (has_decision store key && is_trusted store key) eqn:H.
  { intros [= <- _ <-]. apply andb_true_iff in H as [_ H]. cbn [outcome_true]. by rewrite decided_here. }
  destruct (record_decision_strict io (w_disk w) store key true) as [[d st] r] eqn:R.
  assert (K : r <> Ok Durable -> disk_kept io w (MkTrustWorld d (w_process w))) by (intros N; by destruct (record_strict_failed _ _ _ _ _ _ _ _ R N)).
  destruct r as [[|]|[e|e]]; intros [= <- _ <-]; cbn [outcome_true].
  - split_and!; [done|by apply decided_here|]. apply record_strict_durable in R as (_&p&read&P&Rd&->&B&_).
    assert (p = path) as ->. { subst store. unfold load_from in P. destruct (read_doc_strict _ _); by injection P. }
    exists (into_document read). unfold on_disk. cbn [w_disk record_process_decision]. by rewrite Rd, B.
  - split; [done|by apply K].
  - split; [done|by apply K].
  - split_and!; [done|by apply decided_here|by apply K].
Qed.

(** What a grant reports is so.  A durable grant is in the file, with every
    other record kept, and one reported as already there is; each grant holds
    for the rest of the process; one that could not be saved, and a refusal,
    leave the file alone, and a refusal records nothing for the process either. *)
Theorem grant_tells_the_truth io w home key w' o : checked_grant stamped io w (Some home) key = (w', o) ->
  outcome_true io w (push home TRUST_FILE_NAME) key w' o.
Proof.
  unfold checked_grant. destruct (precheck_grant stamped key) as [r|] eqn:P.
  { intros [= <- <-]. unfold precheck_grant in P. assert (exists reason, r = Refused reason) as [reason ->] by (split_matches; eauto).
    by split; [|left]. }
  cbn [ofilter]. destruct (is_absolute home); [|intros [= <- <-]; by split; [|left]].
  destruct (apply_grant_to_store _ _ _ _) as [[w1 st] o1] eqn:E. intros [= <- <-]. exact (apply_grant_true _ _ _ _ _ _ _ E).
Qed.

Lemma revoke_store_spec io w cwd w' was : folder_trust_inert stamped = false -> revoke_folder_trust_store stamped io w cwd = (w', was) ->
  is_trusted_this_process w' (workspace_key cwd) = false /\ (was = false -> w' = w).
Proof.
  intros N. unfold revoke_folder_trust_store. rewrite N. cbv zeta.
  destruct (is_trusted (load_store w) (workspace_key cwd) || _) eqn:E.
  - destruct (set_decision _ _ _ _ _) as [[d st] r]. intros [= <- <-]. split; [by apply decided_here|done].
  - intros [= <- <-]. split; [|done]. apply orb_false_iff in E as [E1 E2]. apply bool_decide_eq_false_1 in E2.
    unfold is_trusted_this_process. by destruct (w_process w _) as [[]|].
Qed.
End granted.

(** ** A concrete folder *)

Module FolderSample.
#[local] Existing Instances Tree.serde SettingsSample.tree_view Sample.one_command Sample.no_urls Sample.ascii_lower FileSample.plain_files
  UrlSample.plain_glob UrlSample.https_urls ConfigSample.two_versions ConfigSample.no_expansion ConfigSample.four_texts ConfigSample.here
  ConfigSample.disk TrustSample.no_git TrustSample.no_worktrees TrustSample.codec TrustSample.codec_laws.
#[local] Instance files : Files := ResolutionSample.own.
#[local] Instance no_dirs : Directories := fun _ => Err KNotFound.

(** [/w] has files of settings; in [/v] nothing is found when links are not. *)
#[local] Instance bare_files : FileSystem := {| canonicalize p := Some (normalize_lexically p); read_link _ := None;
  symlink_metadata p := if starts_with "/w/.claude" p then Ok false else Err PermPolicy.NotFound |}.

Definition no_verbose : TomlValue -> option (list PermissionRule) := ResolutionSample.no_verbose.
Lemma verbose_law t rs : no_verbose (TTable t) = Some rs -> rs <> [] -> exists v l, tget "rules" t = Some (TArray (v :: l)).
Proof. done. Qed.
Lemma entry_law p : is_file p = true -> symlink_metadata p <> Err PermPolicy.NotFound.
Proof.
  unfold is_file, files, ResolutionSample.own. intros H. unfold is_one_of in H. cbn [existsb] in H.
  apply orb_true_iff in H as [E|E]; [|apply orb_true_iff in E as [E|?]; [|done]]; apply String.eqb_eq in E; by rewrite E.
Qed.

Example kinds_of_w : repo_config_kinds "/w" = ["claude"].
Proof. vm_compute. done. Qed.
Example nothing_in_v : repo_configs_present "/v" = false.
Proof. vm_compute. done. Qed.

Lemma ungated_folder_adds_nothing_witness :
  resolve_permissions_with_provenance no_verbose worktree_of ResolutionSample.unmanaged "/v" true =
  resolve_permissions_with_provenance no_verbose worktree_of ResolutionSample.unmanaged "/v" false.
Proof. apply (ungated_folder_adds_nothing no_verbose verbose_law entry_law). vm_compute. reflexivity. Defined.

Definition world0 : TrustWorld := MkTrustWorld ∅ (fun _ => None).
Definition grant_w := checked_grant true TrustSample.calm world0 (Some "/h") "/w".

Lemma grant_tells_the_truth_witness : exists w', grant_w = (w', Granted "/w" PersistDurable) /\
  on_disk "/h/trusted_folders.toml" (w_disk w') = Some {["/w" := TrustSample.yes]}.
Proof.
  assert (K : grant_w.2 = Granted "/w" PersistDurable) by (vm_compute; reflexivity).
  destruct grant_w as [w' o] eqn:E. cbn in K. subst o. exists w'. split; [done|].
  destruct (grant_tells_the_truth true TrustSample.calm world0 "/h" "/w" w' _ E) as (_&_&doc&D0&D1).
  assert (Z : on_disk "/h/trusted_folders.toml" (io_peers TrustSample.calm (w_disk world0)) = Some ∅) by (vm_compute; reflexivity).
  change (push "/h" TRUST_FILE_NAME) with "/h/trusted_folders.toml" in *. rewrite Z in D0. injection D0 as <-. exact D1.
Defined.
End FolderSample.
