(* ===== verification/TrustGate.v ===== *)
(** * [xai-grok-shell]: [agent/folder_trust.rs], [agent/mvp_agent/folder_trust_prompt.rs]

    The gate in front of what a repository brings along: the cache of verdicts
    the loaders ask, its refreshes, the revocation, the filters of servers, and
    the prompt a graphical client answers.  The file shows that a verdict that
    lets a folder through has a reason that no revocation has taken back, that
    a revocation takes effect at once, and that the permission rules of a folder
    apply only for such a reason. *)

From stdpp Require Import gmap.
From S2P Require Import Prelude RustStr Json Paths PermRules BashCommand PermPolicy ShellAccess PolicyUrl ClaudeSettings ManagedPolicy Toml ConfigLayers PermResolution TrustStore FolderTrust.

(** ** The cache *)

(** [g_decisions]: [DECISIONS] *)
Record Gate : Type := MkGate { g_world : TrustWorld; g_decisions : PathMap }.

Definition record_verdict (g : Gate) (key : string) (allowed : bool) : Gate := MkGate (g_world g) (path_insert (g_decisions g) key allowed).

Inductive AgentScope : Type := ScopeProject | ScopeUser | ScopeBundled | ScopeBuiltIn.
Definition agent_inline_hooks_allowed (scope : AgentScope) (trusted : bool) : bool :=
  match scope with ScopeProject => trusted | _ => true end.

(** [xai-grok-tools], [config_source.rs]: where a server was configured *)
Inductive ServerSource : Type :=
| SBuiltin | SBundled (path : string) | SServer (path : string) | SProject (path : string) | SUser (path : string)
| SPlugin (plugin_name path : string) | SConfigToml (path : string) | SClaudeJson (path : string) | SMcpJson (path : string)
| SCli (path : string) | SManaged (path : option string).

Definition filter_project_lsp_when_untrusted {A} (sourced : list (string * (A * ServerSource))) (project_trusted : bool) : list (string * A) :=
  filter_map (fun '(name, (cfg, source)) =>
    if negb project_trusted && match source with SProject _ => true | _ => false end then None else Some (name, cfg)) sourced.

Section gate.
Context `{Ex : ShellExpand} `{Tp : TomlParser} `{Sv : Semver} `{I : @Installation Sv} `{V : SerdeView}.
Context `{F : FileSystem} `{Fs : Files} `{Cf : ConfigFiles} `{Gt : Git} `{D : Directories} `{W : WorktreeRegistry} `{Cd : TrustCodec}.
(** whether the build has a release version *)
Context (stamped : bool).

(** A verdict, and whether it may be kept. *)
Definition compute_from_inputs (io : Io) (t : Terminal) (w : TrustWorld) (inputs : DecideInputs) (feature : bool) (key : string) (allow_prompt : bool)
  : TrustWorld * (bool * bool) :=
  match decide_trust feature inputs with
  | Trusted => (w, (true, negb feature || store_trusted inputs))
  | Prompt =>
      if negb allow_prompt then (w, (false, true))
      else if negb (prompt_accepts t) then (w, (false, true))
      else
        let '(w, outcome) := grant_folder_trust_key stamped io w key in
        (w, if dismisses_gate outcome then (true, true)
            else match outcome with Granted _ (ProcessLocalOnly _) => (false, false) | _ => (false, true) end)
  | Untrusted => (w, (false, true))
  end.

Definition compute (io : Io) (t : Terminal) (w : TrustWorld) (cwd key : string) (remote : option bool) (allow_prompt : bool) : TrustWorld * (bool * bool) :=
  compute_from_inputs io t w (decide_inputs t w cwd key) (feature_enabled stamped remote) key allow_prompt.

Definition resolve_and_record_inner (g : Gate) (key : string) (recompute : TrustWorld -> TrustWorld * (bool * bool)) : Gate * bool :=
  match g_decisions g key with
  | Some true => (g, true)
  | Some false => if is_trusted_this_process (g_world g) key then (record_verdict g key true, true) else (g, false)
  | None =>
      let '(w, (allowed, durable)) := recompute (g_world g) in
      let g := MkGate w (g_decisions g) in
      (if durable then record_verdict g key allowed else g, allowed)
  end.

Definition resolve_and_record (io : Io) (t : Terminal) (g : Gate) (cwd : string) (remote : option bool) (allow_prompt : bool) : Gate * bool :=
  if folder_trust_inert stamped then (g, true)
  else let key := workspace_key cwd in resolve_and_record_inner g key (fun w => compute io t w cwd key remote allow_prompt).

(** [TrustScan]: the inputs, when they were gathered *)
Definition gather_and_record (io : Io) (t : Terminal) (g : Gate) (cwd : string) (remote : option bool) (allow_prompt : bool)
  : Gate * (bool * option DecideInputs) :=
  if folder_trust_inert stamped then (g, (true, None))
  else
    let key := workspace_key cwd in
    let inputs := decide_inputs t (g_world g) cwd key in
    let '(g, allowed) := resolve_and_record_inner g key
      (fun w => compute_from_inputs io t w inputs (feature_enabled stamped remote) key allow_prompt) in
    (g, (allowed, Some inputs)).

Definition resolve_and_record_from_scan (io : Io) (t : Terminal) (g : Gate) (cwd : string) (remote : option bool) (allow_prompt : bool)
  (scan : option DecideInputs) : Gate * bool :=
  if folder_trust_inert stamped then (g, true)
  else match ofilter repo_configs scan with
  | None => resolve_and_record io t g cwd remote allow_prompt
  | Some i =>
      let key := workspace_key cwd in
      let inputs := MkDecideInputs (is_trusted_this_process (g_world g) key) (repo_configs i) (interactive i) (key_recordable i) in
      resolve_and_record_inner g key (fun w => compute_from_inputs io t w inputs (feature_enabled stamped remote) key allow_prompt)
  end.

Definition resolve_launch_dir_trust (io : Io) (t : Terminal) (g : Gate) (cwd : string) (remote : option bool) : Gate * bool :=
  if folder_trust_inert stamped then (g, true)
  else
    let key := workspace_key cwd in
    let inputs := decide_inputs t (g_world g) cwd key in
    resolve_and_record_inner g key (fun w => compute_from_inputs io t w inputs (feature_enabled stamped remote) key false).

Definition project_scope_allowed (io : Io) (t : Terminal) (g : Gate) (cwd : string) : Gate * bool :=
  let key := workspace_key cwd in
  match g_decisions g key with
  | Some true => (g, true)
  | Some false => if is_trusted_this_process (g_world g) key then (record_verdict g key true, true) else (g, false)
  | None => resolve_and_record io t g cwd None false
  end.

Definition revoke_folder_trust (io : Io) (g : Gate) (cwd : string) : Gate * bool :=
  if folder_trust_inert stamped then (g, false)
  else
    let key := workspace_key cwd in
    if is_unsafe_trust_root key then (g, false)
    else
      let '(w, was_trusted) := revoke_folder_trust_store stamped io (g_world g) cwd in
      (record_verdict (MkGate w (g_decisions g)) key false, was_trusted).

Definition prompt_warranted (w : TrustWorld) (cwd : string) (remote : option bool) : bool :=
  match decide_trust (feature_enabled stamped remote) (decide_inputs_with_interactive w cwd (workspace_key cwd) true) with
  | Prompt => true | _ => false
  end.

Definition filter_untrusted_project_mcp_with {A} (io : Io) (t : Terminal) (g : Gate) (cwd : string) (merged : list A)
  (project : gset string) (name_of : A -> string) : Gate * list A :=
  let '(g, allowed) := project_scope_allowed io t g cwd in
  (g, if allowed then merged else List.filter (fun item => negb (bool_decide (name_of item ∈ project))) merged).

Definition filter_untrusted_project_lsp {A} (io : Io) (t : Terminal) (g : Gate) (cwd : string) (sourced : list (string * (A * ServerSource)))
  : Gate * list (string * A) :=
  let '(g, allowed) := project_scope_allowed io t g cwd in (g, filter_project_lsp_when_untrusted sourced allowed).

(** ** The prompt of a graphical client *)

Inductive FolderTrustOutcome : Type := OutcomeTrust | OutcomeReject.

(** the word of the answer; any other is a rejection *)
Definition FolderTrustOutcome_of_str (s : string) : FolderTrustOutcome := if s =s? "trust" then OutcomeTrust else OutcomeReject.

(** How the request ends. *)
Inductive Reply : Type := ReplyOutcome (o : FolderTrustOutcome) | ReplyUndecodable | ReplyFailed | ReplyTimeout.

(** An open prompt: its key and the directory of its session. *)
Record OpenPrompt : Type := MkPrompt { op_key : string; op_cwd : string; op_remote : option bool }.

(** [prompted]: [interactive_trust_prompted] *)
Record Agent : Type := MkAgent { ag_gate : Gate; ag_prompted : string -> bool }.
Definition prompted_insert (s : string -> bool) (key : string) : string -> bool := fun k => path_same k key || s k.
Definition prompted_remove (s : string -> bool) (key : string) : string -> bool := fun k => negb (path_same k key) && s k.

(** [client]: whether the client can prompt; [targets]: whether a session of the
    workspace is there. *)
Definition maybe_spawn_interactive_trust_prompt (a : Agent) (client : bool) (targets : string -> bool) (cwd : string) (remote : option bool)
  : Agent * option OpenPrompt :=
  if negb client then (a, None)
  else if negb (prompt_warranted (g_world (ag_gate a)) cwd remote) then (a, None)
  else
    let key := workspace_key cwd in
    if ag_prompted a key then (a, None)
    else if negb (targets key) then (MkAgent (ag_gate a) (prompted_remove (prompted_insert (ag_prompted a) key) key), None)
    else (MkAgent (ag_gate a) (prompted_insert (ag_prompted a) key), Some (MkPrompt key cwd remote)).

(** The rest of the task, when the reply is there; the flag says whether the
    sessions are reloaded. *)
Definition finish_prompt (io : Io) (t : Terminal) (a : Agent) (p : OpenPrompt) (reply : Reply) : Agent * bool :=
  let key := op_key p in
  let released g := MkAgent g (prompted_remove (ag_prompted a) key) in
  match reply with
  | ReplyUndecodable | ReplyFailed | ReplyTimeout => (released (ag_gate a), false)
  | ReplyOutcome OutcomeReject => (a, false)
  | ReplyOutcome OutcomeTrust =>
      if negb (ag_prompted a key) then (a, false)
      else
        let '(w, outcome) := grant_folder_trust_key stamped io (g_world (ag_gate a)) key in
        let g := MkGate w (g_decisions (ag_gate a)) in
        if negb (dismisses_gate outcome) then (released g, false)
        else if negb (path_same (workspace_key (op_cwd p)) key) then (MkAgent g (ag_prompted a), false)
        else (MkAgent (resolve_and_record io t g (op_cwd p) (op_remote p) false).1 (ag_prompted a), true)
  end.

(** [execute_hooks_action] with [Untrust]: the part of the agent; the session
    then calls [revoke_folder_trust]. *)
Definition untrust_action (a : Agent) (cwd : string) : Agent := MkAgent (ag_gate a) (prompted_remove (ag_prompted a) (workspace_key cwd)).
End gate.

(** ** Reasons *)

Section reasons.
Context `{Ex : ShellExpand} `{Tp : TomlParser} `{Sv : Semver} `{I : @Installation Sv} `{V : SerdeView}.
Context `{F : FileSystem} `{Fs : Files} `{Cf : ConfigFiles} `{Gt : Git} `{D : Directories} `{W : WorktreeRegistry} `{Cd : TrustCodec}.
Context (stamped : bool).
Implicit Types (g : Gate) (w : TrustWorld) (key : string).

(** What a run leaves in the history: a reason to let a folder through, or its
    revocation. *)
Inductive Mark : Type := Reason (key : string) | Revoked (key : string).

(** A reason for [key] that no later mark takes back. *)
Definition stands (log : list Mark) key : Prop :=
  exists l1 k l2, log = l1 ++ Reason k :: l2 /\ path_same key k = true /\ forall k', Revoked k' ∈ l2 -> path_same key k' = false.

(** The reasons one resolution has: the gate is off, the folder is trusted, or the
    user says yes to the question. *)
Definition reason_now io t w inputs feature key allow_prompt : bool :=
  negb feature || is_trusted_this_process w key ||
  match decide_trust feature inputs with
  | Prompt => allow_prompt && prompt_accepts t && dismisses_gate (grant_folder_trust_key stamped io w key).2
  | _ => false
  end.

(** The passing reasons: the folder has nothing to gate, or cannot be recorded. *)
Definition provisional (inputs : DecideInputs) : bool := negb (repo_configs inputs) || negb (key_recordable inputs).

(** Calls on the gate, of any number of sessions.  The files, the terminal, the
    flags and the disk are those of the moment of each call: [GateWorld] is
    whatever other calls and processes do to the store, and a resolution may find
    any configuration.  The last argument of a resolution is its answer. *)
Inductive gate_step : Gate * list Mark -> option (string * DecideInputs * bool) -> Gate * list Mark -> Prop :=
| GateWorld g log w : gate_step (g, log) None (MkGate w (g_decisions g), log)
| GateResolve g log io t inputs feature key allow_prompt g' b :
    store_trusted inputs = is_trusted_this_process (g_world g) key ->
    resolve_and_record_inner g key (fun w => compute_from_inputs stamped io t w inputs feature key allow_prompt) = (g', b) ->
    gate_step (g, log) (Some (key, inputs, b))
      (g', if reason_now io t (g_world g) inputs feature key allow_prompt then log ++ [Reason key] else log)
| GateRevoke g log io cwd : folder_trust_inert stamped = false -> is_unsafe_trust_root (workspace_key cwd) = false ->
    gate_step (g, log) None ((revoke_folder_trust stamped io g cwd).1, log ++ [Revoked (workspace_key cwd)]).

Inductive gate_reachable : Gate * list Mark -> Prop :=
| ReachStart w : gate_reachable (MkGate w (fun _ => None), [])
| ReachStep s answer s' : gate_reachable s -> gate_step s answer s' -> gate_reachable s'.

Definition gate_inv (s : Gate * list Mark) : Prop := forall key, g_decisions s.1 key = Some true -> stands s.2 key.

Lemma stands_reason log key k : path_same key k = true -> stands (log ++ [Reason k]) key.
Proof. intros S. exists log, k, []. split_and!; [done..|]. by intros ? ?%elem_of_nil. Qed.

Lemma stands_app log m key : stands log key -> (forall k, m = Revoked k -> path_same key k = false) -> stands (log ++ [m]) key.
Proof.
  intros (l1&k&l2&->&S&N) M. exists l1, k, (l2 ++ [m]). rewrite <- app_assoc. split_and!; [done..|].
  intros k' [?|E%list_elem_of_singleton]%elem_of_app; [by apply N|by apply M].
Qed.

Lemma path_insert_true m key b k : path_insert m key b k = Some true -> (path_same k key = true /\ b = true) \/ (path_same k key = false /\ m k = Some true).
Proof. unfold path_insert. destruct (path_same k key); [intros [= ->]; by left|by right]. Qed.

(** A fresh verdict that allows has a reason, or is not kept. *)
Lemma compute_reason io t w0 inputs feature key allow_prompt w durable : store_trusted inputs = is_trusted_this_process w0 key ->
  compute_from_inputs stamped io t w0 inputs feature key allow_prompt = (w, (true, durable)) ->
  reason_now io t w0 inputs feature key allow_prompt = true \/ (durable = false /\ provisional inputs = true).
Proof.
  intros St. unfold compute_from_inputs, reason_now, provisional, decide_trust. rewrite St.
  destruct feature; cbn [negb orb]; [|by left]. destruct (is_trusted_this_process w0 key); [by left|].
  destruct (key_recordable inputs); cbn [negb orb]; [|intros [= <- <-]; rewrite orb_true_r; by auto].
  destruct (repo_configs inputs); cbn [negb orb]; [|intros [= <- <-]; by auto].
  destruct (interactive inputs); [|done]. destruct allow_prompt; cbn [negb andb]; [|done].
  destruct (prompt_accepts t); cbn [negb andb]; [|done].
  destruct (grant_folder_trust_key stamped io w0 key) as [w1 o]. cbn [snd]. destruct (dismisses_gate o); [by left|].
  intros [= <- E]. by destruct o as [? []| |].
Qed.

(** One resolution: what is let through has a reason, and so has what is kept. *)
Lemma resolve_reason g log io t inputs feature key allow_prompt g' b :
  gate_inv (g, log) -> store_trusted inputs = is_trusted_this_process (g_world g) key ->
  resolve_and_record_inner g key (fun w => compute_from_inputs stamped io t w inputs feature key allow_prompt) = (g', b) ->
  let log' := if reason_now io t (g_world g) inputs feature key allow_prompt then log ++ [Reason key] else log in
  gate_inv (g', log') /\ (b = true -> stands log' key \/ provisional inputs = true).
Proof.
  intros Inv St R log'.
  assert (K : forall k, stands log k -> stands log' k) by (intros k H; unfold log'; destruct (reason_now _ _ _ _ _ _ _); [by apply stands_app|done]).
  assert (Inv' : forall k, g_decisions g k = Some true -> stands log' k) by (intros k H; apply K; by apply (Inv k)).
  assert (Now : reason_now io t (g_world g) inputs feature key allow_prompt = true -> forall k, path_same k key = true -> stands log' k)
    by (intros H k S; unfold log'; rewrite H; by apply stands_reason).
  assert (Rf : path_same key key = true) by (unfold path_same; by rewrite bool_decide_true).
  assert (Set_ : forall w a, (a = true -> reason_now io t (g_world g) inputs feature key allow_prompt = true) ->
    gate_inv (record_verdict (MkGate w (g_decisions g)) key a, log')).
  { intros w a H k [[S ->]|[_ S]]%path_insert_true; [by apply Now; [apply H|]|by apply Inv']. }
  unfold resolve_and_record_inner in R. destruct (g_decisions g key) as [[|]|] eqn:C.
  - injection R as <- <-. split; [exact Inv'|]. intros _. left. by apply Inv'.
  - destruct (is_trusted_this_process (g_world g) key) eqn:E; injection R as <- <-; [|by split; [exact Inv'|]].
    assert (Y : reason_now io t (g_world g) inputs feature key allow_prompt = true) by (unfold reason_now; rewrite E; by destruct feature).
    split; [by destruct g; apply Set_|]. intros _. left. by apply Now.
  - destruct (compute_from_inputs _ _ _ _ _ _ _ _) as [w [a durable]] eqn:E. injection R as <- <-. split.
    + destruct durable; [|exact Inv']. apply Set_. intros ->. by destruct (compute_reason io t (g_world g) inputs feature key allow_prompt w true St E) as [|[? _]].
    + intros ->. destruct (compute_reason io t (g_world g) inputs feature key allow_prompt w durable St E) as [H|[_ H]]; [left; by apply Now|by right].
Qed.

Lemma revoke_shape io g cwd : folder_trust_inert stamped = false -> is_unsafe_trust_root (workspace_key cwd) = false ->
  exists w was, revoke_folder_trust_store stamped io (g_world g) cwd = (w, was) /\
    revoke_folder_trust stamped io g cwd = (record_verdict (MkGate w (g_decisions g)) (workspace_key cwd) false, was).
Proof. intros N U. unfold revoke_folder_trust. rewrite N, U. destruct (revoke_folder_trust_store _ _ _ _) as [w was]. by exists w, was. Qed.

Lemma gate_reachable_inv s : gate_reachable s -> gate_inv s.
Proof.
  induction 1 as [w|s answer s' _ IH St]; [by intros key|]. destruct St as [g log w|g log io t inputs feature key ap g' b Tr R|g log io cwd N U].
  - exact IH.
  - by apply (resolve_reason _ _ _ _ _ _ _ _ _ _ IH Tr R).
  - destruct (revoke_shape io g cwd N U) as (w&was&_&->). intros k [[_ ?]|[S H]]%path_insert_true; [done|].
    cbn [snd]. apply stands_app; [by apply IH|]. by intros k' [= <-].
Qed.

(** The calls of the loaders are resolutions. *)
Lemma resolve_is_step io t g log cwd remote allow_prompt g' b : folder_trust_inert stamped = false ->
  resolve_and_record stamped io t g cwd remote allow_prompt = (g', b) ->
  exists log', gate_step (g, log) (Some (workspace_key cwd, decide_inputs t (g_world g) cwd (workspace_key cwd), b)) (g', log').
Proof.
  intros N. unfold resolve_and_record. rewrite N. intros R. eexists. eapply GateResolve; [done|]. rewrite <- R.
  unfold resolve_and_record_inner. destruct (g_decisions g _) as [[]|]; [done..|]. reflexivity.
Qed.

Lemma scope_is_step io t g log cwd g' b : folder_trust_inert stamped = false -> project_scope_allowed stamped io t g cwd = (g', b) ->
  exists log', gate_step (g, log) (Some (workspace_key cwd, decide_inputs t (g_world g) cwd (workspace_key cwd), b)) (g', log').
Proof.
  intros N R. apply (resolve_is_step io t g log cwd None false g' b N). rewrite <- R. unfold project_scope_allowed, resolve_and_record.
  rewrite N. unfold resolve_and_record_inner. by destruct (g_decisions g _) as [[]|].
Qed.

(** In any run of the gate, over any changes of files, flags and stores, a
    resolution that lets a folder through has a reason: for this folder, the
    feature was found off, the folder trusted, or the question answered with
    yes and the answer saved, and it was not revoked since; or the folder has
    right now nothing to gate, or is one that cannot be recorded. *)
Theorem allow_needs_reason s key inputs s' : gate_reachable s -> gate_step s (Some (key, inputs, true)) s' ->
  stands s'.2 key \/ provisional inputs = true.
Proof.
  intros Re St. inversion St as [|g log io t i f k ap g' b Tr R|]; subst.
  by apply (resolve_reason g log io t inputs f key ap g' true (gate_reachable_inv _ Re) Tr R).
Qed.

(** C15: revoking takes effect at once.  Whether or not the store could be
    written, and whatever was cached, the next question of any loader about the
    folder is answered with no. *)
Theorem revoke_is_immediate io g cwd : folder_trust_inert stamped = false -> is_unsafe_trust_root (workspace_key cwd) = false ->
  let g' := (revoke_folder_trust stamped io g cwd).1 in
  forall io' t remote allow_prompt, project_scope_allowed stamped io' t g' cwd = (g', false) /\
    resolve_and_record stamped io' t g' cwd remote allow_prompt = (g', false).
Proof.
  intros N U g' io' t remote ap. destruct (revoke_shape io g cwd N U) as (w&was&Rs&E).
  apply revoke_store_spec in Rs as [T _]; [|done].
  assert (C : g_decisions g' (workspace_key cwd) = Some false) by (subst g'; rewrite E; apply path_insert_eq).
  assert (T' : is_trusted_this_process (g_world g') (workspace_key cwd) = false) by (subst g'; by rewrite E).
  unfold project_scope_allowed, resolve_and_record, resolve_and_record_inner. by rewrite N, C, T'.
Qed.
End reasons.

(** ** Answers of the client *)

Section answers.
Context `{Ex : ShellExpand} `{Tp : TomlParser} `{Sv : Semver} `{I : @Installation Sv} `{V : SerdeView}.
Context `{F : FileSystem} `{Fs : Files} `{Cf : ConfigFiles} `{Gt : Git} `{D : Directories} `{W : WorktreeRegistry} `{Cd : TrustCodec}.
Context (stamped : bool).

(** Only the word of trust, for a key that is still prompted for, opens anything;
    what ends a prompt without an answer makes room for another. *)
Theorem client_answer_exact io t a p reply :
  let '(a', reloaded) := finish_prompt stamped io t a p reply in
  (ag_gate a' <> ag_gate a \/ reloaded = true -> reply = ReplyOutcome OutcomeTrust /\ ag_prompted a (op_key p) = true) /\
  (reply = ReplyFailed \/ reply = ReplyTimeout \/ reply = ReplyUndecodable -> ag_prompted a' (op_key p) = false) /\
  (reply = ReplyOutcome OutcomeReject -> a' = a).
Proof.
  assert (R : forall s k, prompted_remove s k k = false) by (intros s k; unfold prompted_remove, path_same; by rewrite bool_decide_true).
  unfold finish_prompt. destruct reply as [[]| | |]; [|by split_and!; [intros [?|?]|intros [?|[?|?]]|]|
    (split_and!; [by intros [?|?]|intros _; apply R|done])..].
  destruct (ag_prompted a (op_key p)); cbn [negb]; [|by split_and!; [intros [?|?]|intros [?|[?|?]]|]].
  destruct (grant_folder_trust_key _ _ _ _) as [w o]. destruct (dismisses_gate o); cbn [negb];
    [destruct (path_same (workspace_key (op_cwd p)) (op_key p))|]; cbn [negb]; split_and!; try done; by intros [?|[?|?]].
Qed.

(** An answer to a prompt that was open when the user untrusted the folder is
    dropped, as long as no other prompt is opened for it. *)
Theorem stale_answer_dropped io t a p cwd reply : op_key p = workspace_key cwd ->
  ag_gate (finish_prompt stamped io t (untrust_action a cwd) p reply).1 = ag_gate a.
Proof.
  intros K. assert (P : ag_prompted (untrust_action a cwd) (op_key p) = false).
  { cbn. unfold prompted_remove, path_same. rewrite K. by rewrite bool_decide_true. }
  unfold finish_prompt. rewrite P. by destruct reply as [[]| | |].
Qed.
End answers.

(** ** Rules apply only for a reason *)

Section rules.
Context `{T : TreeSitter} `{G : GlobCrate} `{UC : UrlCrate} `{UP : UrlParser} `{L : Unicode} `{F : FileSystem}.
Context `{Sv : Semver} `{Ex : ShellExpand} `{Tp : TomlParser} `{I : @Installation Sv} `{V : SerdeView}.
Context `{Fs : Files} `{Cf : ConfigFiles} `{Gt : Git} `{D : Directories} `{W : WorktreeRegistry} `{Cd : TrustCodec}.
Context (permission_config_of_toml : TomlValue -> option (list PermissionRule)).
Context (Verbose : forall t rs, permission_config_of_toml (TTable t) = Some rs -> rs <> [] -> exists v l, tget "rules" t = Some (TArray (v :: l))).
Context (Entry : forall p, is_file p = true -> symlink_metadata p <> Err PermPolicy.NotFound).
Context (stamped : bool).

(** The permission rules of a folder need a reason.  What is resolved with
    the verdict the gate gives is what is resolved for an untrusted folder,
    unless a reason stands that was not revoked, or the folder is one that
    cannot be recorded (the home directory or the root). *)
Theorem rules_need_reason managed io t g log cwd g' b : gate_reachable stamped (g, log) -> folder_trust_inert stamped = false ->
  project_scope_allowed stamped io t g cwd = (g', b) ->
  resolve_permissions_with_provenance permission_config_of_toml worktree_of managed cwd b =
    resolve_permissions_with_provenance permission_config_of_toml worktree_of managed cwd false \/
  is_unsafe_trust_root (workspace_key cwd) = true \/
  exists log', gate_step stamped (g, log) (Some (workspace_key cwd, decide_inputs t (g_world g) cwd (workspace_key cwd), b)) (g', log') /\
    stands log' (workspace_key cwd).
Proof.
  intros Re N P. destruct b; [|by left]. destruct (scope_is_step _ io t g log cwd g' true N P) as [log' St].
  pose proof St as St'. inversion St as [|g0 l0 io0 t0 i f k ap g1 b Tr R|]; subst.
  destruct (resolve_reason _ g log io0 t0 _ f _ ap g' true (gate_reachable_inv _ _ Re) Tr R) as [_ H].
  destruct (H eq_refl) as [S|Pr]; [right; right; by eexists|].
  unfold provisional in Pr. cbn [repo_configs key_recordable decide_inputs decide_inputs_with_interactive] in Pr.
  apply orb_true_iff in Pr as [Pr|Pr]; [left|right; left; by rewrite negb_involutive in Pr].
  apply (ungated_folder_adds_nothing permission_config_of_toml Verbose Entry). by apply negb_true_iff.
Qed.
End rules.

(** ** A concrete session *)

Module GateSample.
#[local] Existing Instances Tree.serde SettingsSample.tree_view Sample.one_command Sample.no_urls Sample.ascii_lower
  UrlSample.plain_glob UrlSample.https_urls ConfigSample.two_versions ConfigSample.no_expansion ConfigSample.four_texts ConfigSample.here
  ConfigSample.disk TrustSample.no_git TrustSample.no_worktrees TrustSample.codec TrustSample.codec_laws
  FolderSample.files FolderSample.no_dirs FolderSample.bare_files.

Definition gate0 : Gate := MkGate FolderSample.world0 (fun _ => None).
Definition answers (line : string) : Terminal := MkTerminal true true (Some line).
Definition calm : Io := TrustSample.calm.
(** The lock file cannot be opened. *)
Definition sandboxed : Io := MkIo (fun _ => Ok ()) (fun _ => Err (MkIoErr KOther "denied")) (fun _ => Ok ()) (fun _ => Ok ()) (Ok ())
  (fun _ => Ok ()) (fun _ _ => Ok ()) None id.

Example declined : (resolve_and_record true calm (answers "no") gate0 "/w" None true).2 = false.
Proof. vm_compute. done. Qed.

Definition accepted := resolve_and_record true calm (answers "yes") gate0 "/w" None true.
Definition revoked := revoke_folder_trust true sandboxed accepted.1 "/w".

Lemma accepted_step : exists log, gate_step true (gate0, [])
  (Some (workspace_key "/w", decide_inputs (answers "yes") (g_world gate0) "/w" (workspace_key "/w"), true)) (accepted.1, log).
Proof. apply (resolve_is_step true calm (answers "yes") gate0 [] "/w" None true accepted.1 true); vm_compute; reflexivity. Qed.

Lemma allow_needs_reason_witness : exists log, stands log (workspace_key "/w") /\ gate_reachable true (accepted.1, log).
Proof.
  destruct accepted_step as [log St]. exists log. split; [|exact (ReachStep _ _ _ _ (ReachStart _ _) St)].
  destruct (allow_needs_reason true _ _ _ _ (ReachStart true (g_world gate0)) St) as [S|P]; [exact S|vm_compute in P; discriminate].
Defined.

Lemma revoke_is_immediate_witness : (project_scope_allowed true calm (answers "yes") accepted.1 "/w").2 = true /\
  (project_scope_allowed true calm (answers "yes") revoked.1 "/w").2 = false.
Proof.
  split; [vm_compute; reflexivity|]. assert (N : folder_trust_inert true = false) by (vm_compute; reflexivity).
  assert (U : is_unsafe_trust_root (workspace_key "/w") = false) by (vm_compute; reflexivity).
  destruct (revoke_is_immediate true sandboxed accepted.1 "/w" N U calm (answers "yes") None false) as [H _]. unfold revoked. by rewrite H.
Defined.

Lemma rules_need_reason_witness : exists log, gate_reachable true (accepted.1, log) /\
  (resolve_permissions_with_provenance FolderSample.no_verbose worktree_of ResolutionSample.unmanaged "/w" true =
     resolve_permissions_with_provenance FolderSample.no_verbose worktree_of ResolutionSample.unmanaged "/w" false \/
   is_unsafe_trust_root (workspace_key "/w") = true \/ exists log',
    gate_step true (accepted.1, log) (Some (workspace_key "/w", decide_inputs (answers "no") (g_world accepted.1) "/w" (workspace_key "/w"), true))
      (accepted.1, log') /\ stands log' (workspace_key "/w")).
Proof.
  destruct accepted_step as [log St]. exists log. assert (Re : gate_reachable true (accepted.1, log)) by exact (ReachStep _ _ _ _ (ReachStart _ _) St).
  split; [exact Re|]. assert (N : folder_trust_inert true = false) by (vm_compute; reflexivity).
  apply (rules_need_reason FolderSample.no_verbose FolderSample.verbose_law FolderSample.entry_law true ResolutionSample.unmanaged calm (answers "no")
    accepted.1 log "/w" accepted.1 true Re N).
  assert (C : g_decisions accepted.1 (workspace_key "/w") = Some true) by (vm_compute; reflexivity).
  unfold project_scope_allowed. by rewrite C.
Defined.

(** A grant that could not be saved is not honoured by the resolution that
    asked for it, but by the next one. *)
Definition asked := resolve_and_record true sandboxed (answers "yes") gate0 "/w" None true.
Theorem unsaved_grant_counts_later : asked.2 = false /\ (resolve_and_record true sandboxed (answers "") asked.1 "/w" None false).2 = true.
Proof. vm_compute. done. Qed.

(** The prompt is open, the user untrusts the folder, and a session opens the
    prompt again: the answer to the first prompt is taken. *)
Definition here_is (k : string) : bool := true.
Definition open1 := maybe_spawn_interactive_trust_prompt true (MkAgent gate0 (fun _ => false)) true here_is "/w" None.
Definition untrusted : Agent := untrust_action (MkAgent (revoke_folder_trust true calm gate0 "/w").1 (ag_prompted open1.1)) "/w".
Definition open2 := maybe_spawn_interactive_trust_prompt true untrusted true here_is "/w" None.
Definition first_prompt : OpenPrompt := MkPrompt "/w" "/w" None.

Theorem stale_answer_after_reprompt :
  open1.2 = Some first_prompt /\ open2.2 = Some first_prompt /\
  is_trusted_this_process (g_world (ag_gate (finish_prompt true calm (answers "") untrusted first_prompt (ReplyOutcome OutcomeTrust)).1)) "/w" = false /\
  is_trusted_this_process (g_world (ag_gate (finish_prompt true calm (answers "") open2.1 first_prompt (ReplyOutcome OutcomeTrust)).1)) "/w" = true.
Proof. vm_compute. done. Qed.
End GateSample.
