(* ===== verification/BotCore.v ===== *)
(** * [bot-core]: the provider-neutral types of Bot

    Identifiers ([id.rs]), agent events ([event.rs]), provider profiles
    ([profile.rs]), session state ([session.rs]) and usage limits
    ([usage.rs]). *)

From S2P Require Import Prelude RustStr Float64.

(** ** [id.rs] *)

Record IdError : Type := MkIdError { id_error_kind : string }.

Record AccountProfileId : Type := MkAccountProfileId { account_profile_id_str : string }.
Record EventId : Type := MkEventId { event_id_str : string }.
Record SessionId : Type := MkSessionId { session_id_str : string }.
Record TurnId : Type := MkTurnId { turn_id_str : string }.

#[export] Instance AccountProfileId_eq_dec : EqDecision AccountProfileId.
Proof. solve_decision. Defined.
#[export] Instance EventId_eq_dec : EqDecision EventId.
Proof. solve_decision. Defined.
#[export] Instance SessionId_eq_dec : EqDecision SessionId.
Proof. solve_decision. Defined.
#[export] Instance TurnId_eq_dec : EqDecision TurnId.
Proof. solve_decision. Defined.

(** [new] of the [string_id!] macro. *)
Definition string_id_new {T} (kind : string) (mk : string -> T) (value : string)
  : result IdError T :=
  if is_empty (trim value) then Err (MkIdError kind) else Ok (mk value).

Definition AccountProfileId_new := string_id_new "account profile" MkAccountProfileId.
Definition EventId_new := string_id_new "event" MkEventId.
Definition SessionId_new := string_id_new "session" MkSessionId.
Definition TurnId_new := string_id_new "turn" MkTurnId.

(** ** [event.rs] *)

Inductive ToolCallState : Type :=
| TPending | TRunning | TCompleted | TCancelled | TFailed.

Inductive ToolCallKind : Type :=
| TCommand | TFileChange | TMcp | TWebSearch | TImage | TCollaboration | TWait | TOther.

Record ToolCall : Type := MkToolCall {
  call_kind : ToolCallKind;
  call_title : string;
  call_detail : option string;
  call_output : option string;
  call_state : ToolCallState;
  call_duration_ms : option Z }.

Inductive ApprovalKind : Type :=
| ACommand | AFileChange | APermission | ATool | AQuestion.

Inductive ApprovalDecision : Type := Approve | Deny.

Inductive ApprovalState : Type := SPending | SSending | SApproved | SDenied.

Inductive ProviderEventKind : Type := PNotification | PRequest.

Inductive TurnOutcome : Type :=
| OCompleted | OFailed | OInterrupted | OUnknown (status : string).

Record Usage : Type := MkUsage {
  input_tokens : Z;
  cached_input_tokens : Z;
  output_tokens : Z;
  reasoning_output_tokens : Z;
  total_tokens : Z;
  context_tokens : Z;
  context_window : option Z }.

Inductive AgentEvent : Type :=
| TurnStarted (session_id : SessionId) (turn_id : TurnId)
| TurnCompleted (session_id : SessionId) (turn_id : TurnId) (outcome : TurnOutcome)
| UserMessage (id : EventId) (session_id : SessionId) (turn_id : TurnId) (text : string)
| AgentTextDelta (id : EventId) (session_id : SessionId) (turn_id : TurnId) (text : string)
| ReasoningSummaryDelta (id : EventId) (session_id : SessionId) (turn_id : TurnId) (text : string)
| ToolCallChanged (id : EventId) (session_id : SessionId) (turn_id : TurnId) (call : ToolCall)
| ApprovalRequested (id : EventId) (session_id : SessionId) (turn_id : TurnId) (title : string)
    (kind : ApprovalKind)
| ApprovalResolved (id : EventId) (session_id : SessionId) (decision : ApprovalDecision)
| UsageChanged (session_id : SessionId) (usage : Usage)
| ProviderEvent (session_id : SessionId) (kind : ProviderEventKind) (name payload : string)
| Warning (session_id : SessionId) (message : string)
| Error (session_id : SessionId) (message : string).

(** ** [profile.rs] *)

Inductive ProviderId : Type := Codex | Grok | Gemini | Claude | Custom (name : string).

#[export] Instance ProviderId_eq_dec : EqDecision ProviderId.
Proof. solve_decision. Defined.

Definition ProviderId_label (p : ProviderId) : string :=
  match p with
  | Codex => "Codex" | Grok => "Grok" | Gemini => "Gemini" | Claude => "Claude"
  | Custom label => label
  end.

Definition ProviderId_key (p : ProviderId) : string :=
  match p with
  | Codex => "codex" | Grok => "grok" | Gemini => "gemini" | Claude => "claude"
  | Custom key => key
  end.

Definition ProviderId_parse (value : string) : option ProviderId :=
  let v := to_ascii_lowercase (trim value) in
  if (v =s? "grok") || (v =s? "xai") then Some Grok
  else if (v =s? "codex") || (v =s? "openai") || (v =s? "chatgpt") then Some Codex
  else if (v =s? "gemini") || (v =s? "google") then Some Gemini
  else if (v =s? "claude") || (v =s? "anthropic") || (v =s? "claude-code") then Some Claude
  else None.

Inductive InputModality : Type := MText | MImage | MAudio | MSkill | MMention.

#[export] Instance InputModality_eq_dec : EqDecision InputModality.
Proof. solve_decision. Defined.

Record ImageAttachment : Type := MkImageAttachment {
  image_path : string; image_width : Z; image_height : Z }.

Inductive ProviderCapability : Type :=
| Input (m : InputModality) | ModelSelection | EffortSelection | SessionResume
| SessionFork | Tools | FileChanges | Approvals.

(** A [BTreeSet] of modalities is the list of its members in order. *)
Record ModelInfo : Type := MkModelInfo {
  model_id : string; model_display_name : string;
  supported_efforts : list string; input_modalities : list InputModality }.

Inductive LoginStatus : Type := LUnknown | LSignedOut | LSigningIn | LSignedIn.

Record AccountProfile : Type := MkAccountProfile {
  profile_id : AccountProfileId; profile_provider : ProviderId; profile_label : string;
  account_name : option string; login_status : LoginStatus;
  default_model : option string; default_effort : option string }.

(** ** [session.rs] *)

Inductive SessionStatus : Type :=
| Starting | Ready | Running | AwaitingApproval | SFailed (reason : string) | Stopped.

Record SessionState : Type := MkSessionState {
  ss_id : SessionId; ss_provider : ProviderId; ss_account_profile_id : AccountProfileId;
  ss_workspace : string; ss_model : option string; ss_effort : option string;
  ss_status : SessionStatus }.

Definition SessionState_new (id : SessionId) (provider : ProviderId)
    (account_profile_id : AccountProfileId) (workspace : string) : SessionState :=
  MkSessionState id provider account_profile_id workspace None None Starting.

Definition mark_ready (s : SessionState) : SessionState :=
  MkSessionState (ss_id s) (ss_provider s) (ss_account_profile_id s) (ss_workspace s)
    (ss_model s) (ss_effort s) Ready.

(** ** [usage.rs] *)

Record UsageLimitWindow : Type := MkUsageLimitWindow {
  win_label : string; used_percent : f64; duration_minutes : option Z; resets_at : option Z }.

Record UsageLimit : Type := MkUsageLimit {
  limit_id : option string; limit_name : string; limit_model : option string;
  windows : list UsageLimitWindow }.

(** [Value] stands for the JSON values kept in [extensions]. *)
Record ProviderUsage (Value : Type) : Type := MkProviderUsage {
  usage_provider : ProviderId; lifetime_tokens : option Z; limits : list UsageLimit;
  extensions : gmap string Value }.
Arguments MkProviderUsage {Value}.
Arguments usage_provider {Value}.
Arguments lifetime_tokens {Value}.
Arguments limits {Value}.
Arguments extensions {Value}.

Definition unavailable {Value} (provider : ProviderId) : ProviderUsage Value :=
  MkProviderUsage provider None [] ∅.

(** The comparison closure of [longest_window]: [cmp] of the durations, then
    [total_cmp] of the percentages. *)
Definition window_cmp (left right : UsageLimitWindow) : comparison :=
  match Z.compare (unwrap_or 0%Z (duration_minutes left)) (unwrap_or 0%Z (duration_minutes right)) with
  | Eq => total_cmp (used_percent left) (used_percent right)
  | c => c
  end.

(** [Iterator::max_by]: of two equal elements the later one is kept. *)
Definition max_by {A} (cmp : A -> A -> comparison) (l : list A) : option A :=
  foldl (fun acc x =>
           match acc with
           | None => Some x
           | Some m => match cmp m x with Gt => Some m | _ => Some x end
           end) None l.

Definition limit_windows (l : UsageLimit) : list (UsageLimit * UsageLimitWindow) :=
  (fun w => (l, w)) <$> windows l.

Definition longest_window {Value} (u : ProviderUsage Value) : option (UsageLimit * UsageLimitWindow) :=
  max_by (fun a b => window_cmp a.2 b.2) (limits u ≫= limit_windows).

Definition remaining_percent (w : UsageLimitWindow) : f64 :=
  f64_clamp (f64_sub f64_100 (used_percent w)) f64_0 f64_100.

Definition plural (value : Z) (unit : string) : string :=
  pretty value +:+ " " +:+ unit +:+ (if (value =? 1)%Z then "" else "s").

Definition format_countdown_parts (primary : Z) (primary_unit : string)
    (secondary : Z) (secondary_unit : string) : string :=
  let primary := plural primary primary_unit in
  if (secondary >? 0)%Z then "in " +:+ primary +:+ " and " +:+ plural secondary secondary_unit
  else "in " +:+ primary.

Definition format_reset_countdown (resets_at now : Z) : string :=
  let reset_seconds :=
    if (Z.abs resets_at >=? 10000000000)%Z then Z.quot resets_at 1000 else resets_at in
  let remaining := i64_sat_sub reset_seconds now in
  if (remaining <=? 0)%Z then "due now"
  else
    let days := Z.quot remaining 86400 in
    let hours := Z.quot (Z.rem remaining 86400) 3600 in
    let minutes := Z.quot (Z.rem remaining 3600) 60 in
    if (days >? 0)%Z then format_countdown_parts days "day" hours "hour"
    else if (hours >? 0)%Z then format_countdown_parts hours "hour" minutes "minute"
    else if (minutes >? 0)%Z then "in " +:+ plural minutes "minute"
    else "in less than 1 minute".

(** ** Lemmas *)

Lemma string_id_new_ok {T} kind (mk : string -> T) v i :
  string_id_new kind mk v = Ok i <-> trim v <> "" /\ i = mk v.
Proof.
  unfold string_id_new, is_empty. destruct (String.eqb_spec (trim v) "") as [->|Hne].
  - by split; [|intros [? _]].
  - split; [by intros [= <-]|by intros [_ ->]].
Qed.

Lemma string_id_new_err {T} kind (mk : string -> T) v e :
  string_id_new kind mk v = Err e <-> trim v = "" /\ e = MkIdError kind.
Proof.
  unfold string_id_new, is_empty. destruct (String.eqb_spec (trim v) "") as [->|Hne].
  - split; [by intros [= <-]|by intros [_ ->]].
  - by split; [|intros [? _]].
Qed.

(** The strings an identifier may hold. *)
Definition id_wf (s : string) : Prop := trim s <> "".

Section max_by.
Context {A : Type} (cmp : A -> A -> comparison) (key : A -> Z * Z).
(** The comparison is the lexicographic one of a key. *)
Hypothesis cmp_key : forall a b, cmp a b =
  match Z.compare (key a).1 (key b).1 with Eq => Z.compare (key a).2 (key b).2 | c => c end.

Definition key_le (a b : A) : Prop := ((key a).1 < (key b).1 \/
  ((key a).1 = (key b).1 /\ (key a).2 <= (key b).2))%Z.

Lemma cmp_gt a b : cmp a b = Gt <-> ~ key_le a b.
Proof.
  rewrite cmp_key. unfold key_le.
  destruct (Z.compare_spec (key a).1 (key b).1); [|split; (done || lia)..].
  destruct (Z.compare_spec (key a).2 (key b).2); split; (done || lia).
Qed.

(** The result is the last of the greatest elements. *)
Definition is_last_max (l : list A) (m : A) : Prop :=
  exists l1 l2, l = l1 ++ m :: l2 /\ (forall x, x ∈ l1 -> key_le x m) /\
                (forall x, x ∈ l2 -> ~ key_le m x).

Lemma is_last_max_snoc l m x :
  is_last_max l m -> key_le m x -> is_last_max (l ++ [x]) x.
Proof.
  intros (l1&l2&->&H1&H2) Hm. exists (l1 ++ m :: l2), [].
  split_and!; [done| |by intros ? ?%elem_of_nil].
  intros y [Hy|[->|Hy]%elem_of_cons]%elem_of_app; [|done|].
  - specialize (H1 _ Hy). unfold key_le in *. lia.
  - specialize (H2 _ Hy). unfold key_le in *. lia.
Qed.

Lemma max_by_spec l :
  match max_by cmp l with
  | None => l = []
  | Some m => is_last_max l m
  end.
Proof.
  induction l as [|x l IH] using rev_ind; [done|].
  unfold max_by in *. rewrite foldl_app. cbn.
  destruct (foldl _ None l) as [m|].
  - assert (K : ~ cmp m x = Gt -> is_last_max (l ++ [x]) x).
    { rewrite cmp_gt. intros H. apply (is_last_max_snoc _ m); [done|].
      unfold key_le in *. lia. }
    destruct (cmp m x) eqn:E; [by apply K..|]. clear K.
    apply cmp_gt in E. destruct IH as (l1&l2&->&H1&H2).
    exists l1, (l2 ++ [x]). split_and!; [by rewrite <- app_assoc|done|].
    intros y [Hy|Hy]%elem_of_app; [by apply H2|].
    apply list_elem_of_singleton in Hy as ->. done.
  - subst l. exists [], []. split_and!; [done|by intros ? ?%elem_of_nil..].
Qed.
End max_by.

(** The key [longest_window] maximises. *)
Definition window_key (w : UsageLimitWindow) : Z * Z :=
  (unwrap_or 0%Z (duration_minutes w), total_key (used_percent w)).

(** [v] is shown before [w] by neither duration nor, at the same duration, by use. *)
Definition window_le (v w : UsageLimitWindow) : Prop := key_le window_key v w.

(** What a countdown of [r] seconds says. *)
Definition countdown_text (r : Z) : string :=
  if (r <=? 0)%Z then "due now"
  else
    let days := (r / 86400)%Z in
    let hours := (r / 3600 mod 24)%Z in
    let minutes := (r / 60 mod 60)%Z in
    if (days >? 0)%Z then format_countdown_parts days "day" hours "hour"
    else if (hours >? 0)%Z then format_countdown_parts hours "hour" minutes "minute"
    else if (minutes >? 0)%Z then "in " +:+ plural minutes "minute"
    else "in less than 1 minute".

Lemma countdown_fields r : (0 < r)%Z ->
  Z.quot r 86400 = (r / 86400)%Z /\
  Z.quot (Z.rem r 86400) 3600 = (r / 3600 mod 24)%Z /\
  Z.quot (Z.rem r 3600) 60 = (r / 60 mod 60)%Z.
Proof.
  intros H. rewrite !Z.rem_mod_nonneg by lia.
  rewrite !Z.quot_div_nonneg; [|pose proof (Z.mod_pos_bound r 3600); pose proof (Z.mod_pos_bound r 86400); lia..].
  split_and!; Z.to_euclidean_division_equations; lia.
Qed.

Lemma format_reset_countdown_text t n :
  format_reset_countdown t n =
  countdown_text (i64_sat_sub (if (Z.abs t >=? 10000000000)%Z then Z.quot t 1000 else t) n).
Proof.
  unfold format_reset_countdown, countdown_text. cbn zeta.
  destruct (Z.leb_spec (i64_sat_sub (if (Z.abs t >=? 10000000000)%Z then Z.quot t 1000 else t) n) 0); [done|].
  destruct (countdown_fields (i64_sat_sub (if (Z.abs t >=? 10000000000)%Z then Z.quot t 1000 else t) n))
    as (->&->&->); done.
Qed.

(** ** Properties *)

(** [longest_window] returns nothing only when no limit has a window;
    otherwise it returns a window of one of the limits, with that limit, no
    other window lasts longer or, at the same duration, is used more, and of
    equal windows it is the last. *)
Theorem longest_window_last_greatest {Value} (u : ProviderUsage Value) :
  match longest_window u with
  | None => forall l w, l ∈ limits u -> w ∈ windows l -> False
  | Some (l, w) =>
      (l ∈ limits u /\ w ∈ windows l) /\
      exists before after, limits u ≫= limit_windows = before ++ (l, w) :: after /\
        (forall l' v, (l', v) ∈ before -> window_le v w) /\
        (forall l' v, (l', v) ∈ after -> ~ window_le w v)
  end.
Proof.
  unfold longest_window.
  pose proof (max_by_spec (fun a b => window_cmp a.2 b.2)
    (fun a : UsageLimit * UsageLimitWindow => window_key a.2) ltac:(done)
    (limits u ≫= limit_windows)) as H.
  assert (mem : forall l w, (l, w) ∈ limits u ≫= limit_windows <-> l ∈ limits u /\ w ∈ windows l).
  { intros l w. rewrite list_elem_of_bind. unfold limit_windows.
    setoid_rewrite list_elem_of_fmap. split.
    - intros (l'&(w'&[= <- <-]&?)&?). done.
    - intros [??]. exists l. split; [by exists w|done]. }
  destruct (max_by _ _) as [[l w]|].
  - destruct H as (l1&l2&E&H1&H2). split.
    { apply mem. rewrite E. apply elem_of_app. right. apply list_elem_of_here. }
    exists l1, l2. split_and!; [done| |].
    + intros l' v Hv. apply (H1 _ Hv).
    + intros l' v Hv. apply (H2 _ Hv).
  - intros l w Hl Hw. assert (E : (l, w) ∈ limits u ≫= limit_windows) by (by apply mem).
    rewrite H in E. by apply elem_of_nil in E.
Qed.

(** A reset time gives the same countdown in seconds and in milliseconds:
    the days, hours and minutes left of [t - now] seconds, when [t] and [t]
    in milliseconds are on their sides of the [10^10] threshold. *)
Theorem countdown_same_in_milliseconds (t now ms : Z) :
  (10000000 <= t < 10000000000)%Z -> (0 <= ms < 1000)%Z -> (0 <= now <= i64_max)%Z ->
  format_reset_countdown (t * 1000 + ms) now = countdown_text (t - now) /\
  format_reset_countdown t now = countdown_text (t - now).
Proof.
  intros Ht Hms Hn. unfold i64_max in *.
  rewrite !format_reset_countdown_text.
  replace (Z.abs (t * 1000 + ms) >=? 10000000000)%Z with true by (symmetry; apply Z.geb_le; lia).
  replace (Z.abs t >=? 10000000000)%Z with false by (symmetry; rewrite Z.geb_leb; apply Z.leb_gt; lia).
  replace (Z.quot (t * 1000 + ms) 1000) with t by (Z.to_euclidean_division_equations; lia).
  replace (i64_sat_sub t now) with (t - now)%Z; [done|].
  unfold i64_sat_sub, i64_min, i64_max. lia.
Qed.

Lemma countdown_same_in_milliseconds_witness :
  format_reset_countdown (1700090061 * 1000 + 500) 1700000000 = "in 1 day and 1 hour" /\
  format_reset_countdown 1700090061 1700000000 = "in 1 day and 1 hour".
Proof.
  destruct (countdown_same_in_milliseconds 1700090061 1700000000 500) as [H1 H2];
    [lia|lia|unfold i64_max; lia|].
  rewrite H1, H2. vm_compute. done.
Defined.

(** Every name a provider is parsed from leads to a built-in provider
    whose key and whose label parse back to it. *)
Theorem provider_parse_canonical (v : string) (p : ProviderId) :
  ProviderId_parse v = Some p ->
  ProviderId_parse (ProviderId_key p) = Some p /\
  ProviderId_parse (ProviderId_label p) = Some p /\
  forall name, p <> Custom name.
Proof.
  unfold ProviderId_parse at 1. cbn zeta. intros H.
  repeat (split_match; [injection H as <-; split_and!; [done..|by intros ?]|]). done.
Qed.

Lemma provider_parse_canonical_witness :
  ProviderId_parse " OpenAI " = Some Codex /\ ProviderId_parse (ProviderId_key Codex) = Some Codex.
Proof.
  assert (E : ProviderId_parse " OpenAI " = Some Codex) by (vm_compute; reflexivity).
  split; [exact E|]. exact (proj1 (provider_parse_canonical _ _ E)).
Defined.

(** The percentage left of a window is between 0 and 100 whatever the
    provider reports as used (negative values, values over 100 and infinities
    included), unless it is a NaN. *)
Theorem remaining_percent_bounded (w : UsageLimitWindow) :
  is_nan (remaining_percent w) = true \/
  (f64_ge (remaining_percent w) f64_0 = true /\ f64_ge f64_100 (remaining_percent w) = true).
Proof. by apply f64_clamp_bounds. Qed.
