(* ===== verification/DeliveryLifecycle.v ===== *)
(** * [xai-message-delivery-core]: turn-bound ownership of messages

    [lifecycle.rs]: a FIFO of deliveries, each bound to a turn.  A delivery is
    admitted pending, is projected into a turn at a safe point, is delivered
    when the host's commit succeeds, and leaves when the turn ends: back to the
    host as a fallback when it was still pending and the cause allows it, and
    as a completion otherwise.

    The operations are definitions on the queue; [op], [step] and [run] are
    sequences of them with the log of what the host got back.  The last part is
    the abstract view, one independent automaton per identity, that the queue
    implements. *)

From S2P Require Import Prelude.

Record TurnBinding (PromptId Epoch : Type) : Type := MkTurnBinding {
  tb_prompt_id : PromptId; tb_epoch : Epoch }.
Arguments MkTurnBinding {PromptId Epoch}.
Arguments tb_prompt_id {PromptId Epoch}.
Arguments tb_epoch {PromptId Epoch}.

#[export] Instance TurnBinding_eq_dec {P E} `{EqDecision P, EqDecision E} :
  EqDecision (TurnBinding P E).
Proof. solve_decision. Defined.

Record DeliveryMessage (Identity Source Content : Type) : Type := MkDeliveryMessage {
  dm_identity : Identity; dm_source : Source; dm_content : Content }.
Arguments MkDeliveryMessage {Identity Source Content}.
Arguments dm_identity {Identity Source Content}.
Arguments dm_source {Identity Source Content}.
Arguments dm_content {Identity Source Content}.

(** Why deliveries leave the queue. *)
Inductive TerminalCause : Type := Completion | SoftCancel | Rewind | HardTeardown | ActorDrop.

Definition falls_back (c : TerminalCause) : bool :=
  match c with Completion | SoftCancel | Rewind => true | HardTeardown | ActorDrop => false end.

Section lifecycle.
Context {Identity Source Content Compl PromptId Epoch : Type}.
Context `{EqDecision Identity, EqDecision PromptId, EqDecision Epoch}.

#[local] Abbreviation binding := (TurnBinding PromptId Epoch).
#[local] Abbreviation message := (DeliveryMessage Identity Source Content).

Record OwnedDelivery : Type := MkOwnedDelivery {
  od_binding : binding; od_message : message; od_completion : Compl }.

Inductive DeliverySlot : Type :=
| Pending (o : OwnedDelivery)
| Projecting (o : OwnedDelivery)
| Delivered (o : OwnedDelivery).

Definition owned (s : DeliverySlot) : OwnedDelivery :=
  match s with Pending o | Projecting o | Delivered o => o end.

Inductive TerminalTarget : Type := Turn (b : binding) | All.

Record TerminalTransition : Type := MkTerminalTransition {
  fallbacks : list OwnedDelivery; completions : list OwnedDelivery }.

Record MessageDeliveryLifecycle : Type := MkLifecycle { slots : list DeliverySlot }.

Definition lifecycle_default : MessageDeliveryLifecycle := MkLifecycle [].

Definition lifecycle_len (l : MessageDeliveryLifecycle) : nat := length (slots l).

Definition lifecycle_is_empty (l : MessageDeliveryLifecycle) : bool :=
  match slots l with [] => true | _ => false end.

Definition slot_identity (s : DeliverySlot) : Identity := dm_identity (od_message (owned s)).

Definition contains_identity (l : MessageDeliveryLifecycle) (i : Identity) : bool :=
  existsb (fun s => bool_decide (slot_identity s = i)) (slots l).

(** [admit_pending]: the queue after the call and its result. *)
Definition admit_pending (l : MessageDeliveryLifecycle) (b : binding) (m : message) (c : Compl)
  : MessageDeliveryLifecycle * result message unit :=
  if existsb (fun s => bool_decide (slot_identity s = dm_identity m)) (slots l) then (l, Err m)
  else (MkLifecycle (slots l ++ [Pending (MkOwnedDelivery b m c)]), Ok tt).

Definition pending_messages (l : MessageDeliveryLifecycle) (b : binding) : list message :=
  filter_map (fun s => match s with
                       | Pending o => if bool_decide (od_binding o = b) then Some (od_message o) else None
                       | _ => None
                       end) (slots l).

Definition begin_slot (b : binding) (s : DeliverySlot) : DeliverySlot :=
  match s with
  | Pending o => if bool_decide (od_binding o = b) then Projecting o else s
  | _ => s
  end.

Definition begin_delivery (l : MessageDeliveryLifecycle) (b : binding)
  : MessageDeliveryLifecycle * list message :=
  let messages := pending_messages l b in
  match messages with
  | [] => (l, messages)
  | _ => (MkLifecycle (begin_slot b <$> slots l), messages)
  end.

Definition projecting_messages (l : MessageDeliveryLifecycle) (b : binding) : list message :=
  filter_map (fun s => match s with
                       | Projecting o => if bool_decide (od_binding o = b) then Some (od_message o) else None
                       | _ => None
                       end) (slots l).

Definition finish_slot (b : binding) (s : DeliverySlot) : DeliverySlot :=
  match s with
  | Projecting o => if bool_decide (od_binding o = b) then Delivered o else s
  | _ => s
  end.

(** [finish_delivery]; [commit] is the host's closure. *)
Definition finish_delivery {E} (l : MessageDeliveryLifecycle) (b : binding)
    (commit : list message -> result E unit)
  : MessageDeliveryLifecycle * result E (list message) :=
  let messages := projecting_messages l b in
  match messages with
  | [] => (l, Ok messages)
  | _ =>
      match commit messages with
      | Err e => (l, Err e)
      | Ok _ => (MkLifecycle (finish_slot b <$> slots l), Ok messages)
      end
  end.

Definition target_matches (t : TerminalTarget) (s : DeliverySlot) : bool :=
  match t with Turn b => bool_decide (od_binding (owned s) = b) | All => true end.

(** One slot of [transition]: kept, or pushed on one of the two vectors. *)
Definition transition_slot (t : TerminalTarget) (cause : TerminalCause)
    (acc : list DeliverySlot * TerminalTransition) (s : DeliverySlot)
  : list DeliverySlot * TerminalTransition :=
  let '(kept, tr) := acc in
  if negb (target_matches t s) then (kept ++ [s], tr)
  else match s with
       | Pending o =>
           if falls_back cause
           then (kept, MkTerminalTransition (fallbacks tr ++ [o]) (completions tr))
           else (kept, MkTerminalTransition (fallbacks tr) (completions tr ++ [o]))
       | Projecting o | Delivered o =>
           (kept, MkTerminalTransition (fallbacks tr) (completions tr ++ [o]))
       end.

Definition transition (l : MessageDeliveryLifecycle) (t : TerminalTarget) (cause : TerminalCause)
  : MessageDeliveryLifecycle * TerminalTransition :=
  let '(kept, tr) := foldl (transition_slot t cause) ([], MkTerminalTransition [] []) (slots l) in
  (MkLifecycle kept, tr).

(** ** Sequences of operations *)

(** A call on the queue.  [commit] of [OpFinish] is the outcome the host's
    closure has on the messages it is given. *)
Inductive op : Type :=
| OpAdmit (b : binding) (m : message) (c : Compl)
| OpBegin (b : binding)
| OpFinish (b : binding) (commit : list message -> result unit unit)
| OpTerminate (t : TerminalTarget) (cause : TerminalCause).

(** What the host has seen so far: deliveries it handed over, messages its
    commit accepted, and deliveries it got back. *)
Record log : Type := MkLog {
  log_admitted : list OwnedDelivery;
  log_committed : list message;
  log_fallbacks : list OwnedDelivery;
  log_completions : list OwnedDelivery }.

Definition log_empty : log := MkLog [] [] [] [].

Definition step (s : MessageDeliveryLifecycle * log) (o : op) : MessageDeliveryLifecycle * log :=
  let '(l, g) := s in
  match o with
  | OpAdmit b m c =>
      match admit_pending l b m c with
      | (l', Ok _) => (l', MkLog (log_admitted g ++ [MkOwnedDelivery b m c]) (log_committed g)
                               (log_fallbacks g) (log_completions g))
      | (l', Err _) => (l', g)
      end
  | OpBegin b => ((begin_delivery l b).1, g)
  | OpFinish b commit =>
      match finish_delivery l b commit with
      | (l', Ok ms) => (l', MkLog (log_admitted g) (log_committed g ++ ms)
                               (log_fallbacks g) (log_completions g))
      | (l', Err _) => (l', g)
      end
  | OpTerminate t cause =>
      let '(l', tr) := transition l t cause in
      (l', MkLog (log_admitted g) (log_committed g)
             (log_fallbacks g ++ fallbacks tr) (log_completions g ++ completions tr))
  end.

Definition run (ops : list op) : MessageDeliveryLifecycle * log :=
  foldl step (lifecycle_default, log_empty) ops.

(** ** Lemmas *)

Definition od_identity (o : OwnedDelivery) : Identity := dm_identity (od_message o).

Definition is_pending (s : DeliverySlot) : bool := match s with Pending _ => true | _ => false end.

(** [transition] is three filters: what stays, what falls back, what completes. *)
Definition kept_by (t : TerminalTarget) (s : DeliverySlot) : bool := negb (target_matches t s).
Definition fallback_by (t : TerminalTarget) (c : TerminalCause) (s : DeliverySlot) : bool :=
  target_matches t s && (is_pending s && falls_back c).
Definition completion_by (t : TerminalTarget) (c : TerminalCause) (s : DeliverySlot) : bool :=
  target_matches t s && negb (is_pending s && falls_back c).

Lemma transition_filters l t c :
  transition l t c =
  (MkLifecycle (List.filter (kept_by t) (slots l)),
   MkTerminalTransition (owned <$> List.filter (fallback_by t c) (slots l))
                        (owned <$> List.filter (completion_by t c) (slots l))).
Proof.
  unfold transition. induction (slots l) as [|s k IH] using rev_ind; [done|].
  rewrite foldl_app, !List.filter_app, !fmap_app. cbn.
  destruct (foldl _ _ k) as [kept tr]. injection IH as -> ->. cbn.
  unfold kept_by, fallback_by, completion_by.
  destruct (target_matches t s); cbn; [|by rewrite !app_nil_r].
  destruct s; cbn; [destruct (falls_back c); cbn|..]; by rewrite !app_nil_r.
Qed.

(** The three filters split the queue. *)
Lemma transition_split l t c :
  owned <$> slots l ≡ₚ
  (fallbacks (transition l t c).2 ++ completions (transition l t c).2)
  ++ (owned <$> slots (transition l t c).1).
Proof.
  rewrite transition_filters. cbn.
  induction (slots l) as [|s k IH]; [done|]. cbn.
  unfold kept_by, fallback_by, completion_by in *.
  destruct (target_matches t s); cbn; [destruct (is_pending s && falls_back c); cbn|].
  - by rewrite IH.
  - rewrite IH. rewrite <- !app_assoc. cbn. by rewrite Permutation_middle.
  - rewrite IH. by rewrite Permutation_middle.
Qed.

Lemma owned_begin b s : owned (begin_slot b s) = owned s.
Proof. destruct s; cbn; repeat case_bool_decide; done. Qed.

Lemma owned_finish b s : owned (finish_slot b s) = owned s.
Proof. destruct s; cbn; repeat case_bool_decide; done. Qed.

Lemma owned_begin_delivery l b : owned <$> slots (begin_delivery l b).1 = owned <$> slots l.
Proof.
  unfold begin_delivery. destruct (pending_messages l b); [done|]. cbn.
  rewrite <- list_fmap_compose. apply list_fmap_ext. intros _ s _. apply owned_begin.
Qed.

Lemma owned_finish_delivery {E} l b (commit : _ -> result E unit) :
  owned <$> slots (finish_delivery l b commit).1 = owned <$> slots l.
Proof.
  unfold finish_delivery. destruct (projecting_messages l b); [done|].
  destruct (commit _); [|done]. cbn.
  rewrite <- list_fmap_compose. apply list_fmap_ext. intros _ s _. apply owned_finish.
Qed.

Lemma contains_identity_spec l i :
  contains_identity l i = true <-> i ∈ od_identity <$> (owned <$> slots l).
Proof.
  unfold contains_identity. rewrite existsb_exists, list_elem_of_fmap.
  setoid_rewrite list_elem_of_fmap. setoid_rewrite bool_decide_eq_true.
  setoid_rewrite <- list_elem_of_In. split.
  - intros (s&Hs&<-). by exists (owned s); split; [|exists s].
  - intros (o&->&s&->&Hs). by exists s.
Qed.

Lemma admit_pending_ok l b m c l' :
  admit_pending l b m c = (l', Ok tt) <->
  contains_identity l (dm_identity m) = false /\
  l' = MkLifecycle (slots l ++ [Pending (MkOwnedDelivery b m c)]).
Proof.
  unfold admit_pending, contains_identity. destruct (existsb _ _).
  - by split; [|intros [? _]].
  - split; [by intros [= <-]|by intros [_ ->]].
Qed.

Lemma sublist_filter_list {A} (p : A -> bool) (k : list A) : List.filter p k `sublist_of` k.
Proof.
  induction k as [|x k IH]; cbn; [done|]. destruct (p x); by constructor.
Qed.

Lemma owned_filter_elem (p : DeliverySlot -> bool) k o :
  o ∈ owned <$> List.filter p k <-> exists s, s ∈ k /\ p s = true /\ owned s = o.
Proof.
  rewrite list_elem_of_fmap. setoid_rewrite list_elem_of_In. setoid_rewrite filter_In. naive_solver.
Qed.

(** What the queue and the log satisfy after any sequence of calls. *)
Record delivery_inv (s : MessageDeliveryLifecycle * log) : Prop := {
  inv_unique : NoDup (od_identity <$> (owned <$> slots s.1));
  inv_conserved :
    log_admitted s.2 ≡ₚ (log_fallbacks s.2 ++ log_completions s.2) ++ (owned <$> slots s.1);
  inv_order : owned <$> slots s.1 `sublist_of` log_admitted s.2;
  inv_committed : forall m, m ∈ log_committed s.2 ->
    exists o, od_message o = m /\ (Delivered o ∈ slots s.1 \/ o ∈ log_completions s.2) }.

Lemma delivery_inv_init : delivery_inv (lifecycle_default, log_empty).
Proof. split; cbn; [constructor|done|done|by intros m ?%elem_of_nil]. Qed.

Lemma delivery_inv_admit l g b m c :
  delivery_inv (l, g) -> delivery_inv (step (l, g) (OpAdmit b m c)).
Proof.
  intros [U C O K]. cbn [step]. destruct (admit_pending l b m c) as [l' [[]|m']] eqn:E; cycle 1.
  { unfold admit_pending in E. destruct (existsb _ _); simplify_eq. by split. }
  apply admit_pending_ok in E as [F ->]. split; cbn in *.
  - rewrite !fmap_app. apply list.NoDup_app. split_and!; [done| |apply NoDup_singleton].
    intros i Hi ->%list_elem_of_singleton. rewrite <- contains_identity_spec in Hi.
    unfold od_identity in Hi. cbn in Hi. congruence.
  - rewrite fmap_app, C. cbn. by rewrite <- !app_assoc.
  - rewrite fmap_app. by apply sublist_app.
  - intros m0 Hm. destruct (K m0 Hm) as (o&?&[?|?]); exists o; split; auto.
    left. apply elem_of_app. by left.
Qed.

Lemma delivered_begin l b o : Delivered o ∈ slots l -> Delivered o ∈ slots (begin_delivery l b).1.
Proof.
  intros H. unfold begin_delivery. destruct (pending_messages l b); [done|]. cbn.
  apply list_elem_of_fmap. by exists (Delivered o).
Qed.

Lemma delivery_inv_begin l g b :
  delivery_inv (l, g) -> delivery_inv (step (l, g) (OpBegin b)).
Proof.
  intros [U C O K]. cbn [step]. split; cbn in *; rewrite ?owned_begin_delivery; try done.
  intros m Hm. destruct (K m Hm) as (o&?&[?|?]); exists o; split; auto using delivered_begin.
Qed.

Lemma delivered_finish b o (k : list DeliverySlot) : Delivered o ∈ k -> Delivered o ∈ finish_slot b <$> k.
Proof. intros H. apply list_elem_of_fmap. by exists (Delivered o). Qed.

Lemma delivery_inv_finish l g b commit :
  delivery_inv (l, g) -> delivery_inv (step (l, g) (OpFinish b commit)).
Proof.
  intros [U C O K]. cbn [step].
  pose proof (owned_finish_delivery l b commit) as W.
  destruct (finish_delivery l b commit) as [l' [ms|e]] eqn:E; cbn in W; cycle 1.
  { split; cbn in *; rewrite ?W; try done. intros m Hm.
    unfold finish_delivery in E. repeat split_match; simplify_eq. by apply K. }
  split; cbn in *; rewrite ?W; try done.
  intros m [Hm|Hm]%elem_of_app.
  - destruct (K m Hm) as (o&?&[Ho|?]); exists o; split; auto. left.
    unfold finish_delivery in E. repeat split_match; simplify_eq; [done|].
    by apply delivered_finish.
  - unfold finish_delivery in E. destruct (projecting_messages l b) as [|m0 ms0] eqn:P.
    { simplify_eq. by apply elem_of_nil in Hm. }
    destruct (commit _); simplify_eq. rewrite <- P in Hm.
    apply elem_of_filter_map in Hm as (s&Hs&Es). destruct s as [|o|]; try done.
    case_bool_decide as B; [|done]. injection Es as <-. exists o. split; [done|]. left.
    cbn. apply list_elem_of_fmap. exists (Projecting o). cbn. by rewrite bool_decide_true.
Qed.

Lemma delivery_inv_terminate l g t cause :
  delivery_inv (l, g) -> delivery_inv (step (l, g) (OpTerminate t cause)).
Proof.
  intros [U C O K]. cbn [step]. pose proof (transition_split l t cause) as S.
  rewrite transition_filters in *. cbn in *. split; cbn.
  - eapply sublist_NoDup; [exact U|]. do 2 apply fmap_sublist. apply sublist_filter_list.
  - rewrite C, S. solve_Permutation.
  - etrans; [|exact O]. apply fmap_sublist, sublist_filter_list.
  - intros m Hm. destruct (K m Hm) as (o&?&[Ho|Ho]); exists o; split; auto;
      [|right; apply elem_of_app; by left].
    destruct (target_matches t (Delivered o)) eqn:T.
    + right. apply elem_of_app. right. apply owned_filter_elem. exists (Delivered o).
      split_and!; [done| |done]. unfold completion_by. by rewrite T.
    + left. apply list_elem_of_In, filter_In. split; [by apply list_elem_of_In|].
      unfold kept_by. by rewrite T.
Qed.

Lemma delivery_inv_step s o : delivery_inv s -> delivery_inv (step s o).
Proof.
  destruct s as [l g], o; intros H;
    auto using delivery_inv_admit, delivery_inv_begin, delivery_inv_finish, delivery_inv_terminate.
Qed.

Lemma delivery_inv_run ops : delivery_inv (run ops).
Proof.
  unfold run. induction ops as [|o ops IH] using rev_ind; [apply delivery_inv_init|].
  rewrite foldl_app. by apply delivery_inv_step.
Qed.

(** ** The abstract view: one automaton per identity *)

Inductive Phase : Type := PhPending | PhProjecting | PhDelivered.

Definition slot_phase (s : DeliverySlot) : Phase :=
  match s with Pending _ => PhPending | Projecting _ => PhProjecting | Delivered _ => PhDelivered end.

(** The delivery an identity has and how far it is; no order, no queue. *)
Definition View : Type := Identity -> option (Phase * OwnedDelivery).

Fixpoint view_slots (k : list DeliverySlot) (i : Identity) : option (Phase * OwnedDelivery) :=
  match k with
  | [] => None
  | s :: k' => if decide (slot_identity s = i) then Some (slot_phase s, owned s) else view_slots k' i
  end.

Definition view (l : MessageDeliveryLifecycle) : View := view_slots (slots l).

Definition in_target (t : TerminalTarget) (o : OwnedDelivery) : bool :=
  match t with Turn b => bool_decide (od_binding o = b) | All => true end.

(** The contract of each call on every identity. *)
Inductive spec_step : op -> View -> View -> Prop :=
| SpecAdmitted b m c v v' :
    v (dm_identity m) = None ->
    (forall i, v' i = if decide (i = dm_identity m) then Some (PhPending, MkOwnedDelivery b m c) else v i) ->
    spec_step (OpAdmit b m c) v v'
| SpecRejected b m c v v' :
    v (dm_identity m) <> None -> (forall i, v' i = v i) -> spec_step (OpAdmit b m c) v v'
| SpecBegun b v v' :
    (forall i, v' i = match v i with
                      | Some (PhPending, o) =>
                          Some (if bool_decide (od_binding o = b) then PhProjecting else PhPending, o)
                      | e => e
                      end) ->
    spec_step (OpBegin b) v v'
| SpecCommitted b commit v v' :
    (forall i, v' i = match v i with
                      | Some (PhProjecting, o) =>
                          Some (if bool_decide (od_binding o = b) then PhDelivered else PhProjecting, o)
                      | e => e
                      end) ->
    spec_step (OpFinish b commit) v v'
| SpecCommitFailed b commit v v' e ms :
    commit ms = Err e -> (forall i, v' i = v i) -> spec_step (OpFinish b commit) v v'
| SpecEnded t cause v v' :
    (forall i, v' i = match v i with
                      | Some (p, o) => if in_target t o then None else Some (p, o)
                      | None => None
                      end) ->
    spec_step (OpTerminate t cause) v v'.

Lemma view_slots_app k1 k2 i :
  view_slots (k1 ++ k2) i = match view_slots k1 i with Some e => Some e | None => view_slots k2 i end.
Proof. induction k1 as [|s k IH]; cbn; [done|]. by case_decide. Qed.

Lemma view_slots_none k i : view_slots k i = None <-> i ∉ od_identity <$> (owned <$> k).
Proof.
  induction k as [|s k IH]; cbn; [split; [by intros _ ?%elem_of_nil|done]|].
  rewrite not_elem_of_cons. unfold slot_identity, od_identity in *.
  case_decide; [|rewrite IH]; naive_solver.
Qed.

Lemma view_contains l i : contains_identity l i = true <-> view l i <> None.
Proof. rewrite contains_identity_spec. unfold view. rewrite view_slots_none. split; [auto|]. apply dec_stable. Qed.

(** A change of phase that keeps the delivery acts on the view by itself. *)
Lemma view_slots_fmap (f : DeliverySlot -> DeliverySlot) (g : Phase -> OwnedDelivery -> Phase) k i :
  (forall s, owned (f s) = owned s) -> (forall s, slot_phase (f s) = g (slot_phase s) (owned s)) ->
  view_slots (f <$> k) i = (fun e => (g e.1 e.2, e.2)) <$> view_slots k i.
Proof.
  intros Ho Hp. induction k as [|s k IH]; cbn; [done|].
  unfold slot_identity. rewrite Ho. case_decide; [|done]. cbn. by rewrite Hp.
Qed.

Lemma view_slots_filter (p : OwnedDelivery -> bool) k i :
  NoDup (od_identity <$> (owned <$> k)) ->
  view_slots (List.filter (fun s => p (owned s)) k) i =
  match view_slots k i with Some (ph, o) => if p o then Some (ph, o) else None | None => None end.
Proof.
  induction k as [|s k IH]; [done|]. rewrite !fmap_cons, list.NoDup_cons. intros [N D].
  cbn [view_slots List.filter]. destruct (p (owned s)) eqn:P; cbn [view_slots].
  - case_decide; [by rewrite P|]. by apply IH.
  - case_decide as E; [|by apply IH]. rewrite P, IH by done.
    assert (view_slots k i = None) as ->; [|done].
    apply view_slots_none. by rewrite <- E.
Qed.

Definition begin_phase (b : binding) (p : Phase) (o : OwnedDelivery) : Phase :=
  match p with PhPending => if bool_decide (od_binding o = b) then PhProjecting else p | _ => p end.
Definition finish_phase (b : binding) (p : Phase) (o : OwnedDelivery) : Phase :=
  match p with PhProjecting => if bool_decide (od_binding o = b) then PhDelivered else p | _ => p end.

Lemma view_begin l b i :
  view (MkLifecycle (begin_slot b <$> slots l)) i =
  (fun e => (begin_phase b e.1 e.2, e.2)) <$> view l i.
Proof.
  apply view_slots_fmap; [apply owned_begin|].
  intros [o|o|o]; cbn; try case_bool_decide; done.
Qed.

Lemma view_finish l b i :
  view (MkLifecycle (finish_slot b <$> slots l)) i =
  (fun e => (finish_phase b e.1 e.2, e.2)) <$> view l i.
Proof.
  apply view_slots_fmap; [apply owned_finish|].
  intros [o|o|o]; cbn; try case_bool_decide; done.
Qed.

(** With nothing to project, changing the phases changes nothing. *)
Lemma begin_none l b : pending_messages l b = [] -> begin_slot b <$> slots l = slots l.
Proof.
  unfold pending_messages. rewrite filter_map_nil. intros H.
  rewrite <- (list_fmap_id (slots l)) at 2. apply list_fmap_ext. intros n s Hs.
  apply list_elem_of_lookup_2 in Hs. specialize (H s Hs).
  destruct s as [o|o|o]; cbn in *; [case_bool_decide|..]; done.
Qed.

Lemma finish_none l b : projecting_messages l b = [] -> finish_slot b <$> slots l = slots l.
Proof.
  unfold projecting_messages. rewrite filter_map_nil. intros H.
  rewrite <- (list_fmap_id (slots l)) at 2. apply list_fmap_ext. intros n s Hs.
  apply list_elem_of_lookup_2 in Hs. specialize (H s Hs).
  destruct s as [o|o|o]; cbn in *; [|case_bool_decide|]; done.
Qed.

Lemma begin_delivery_slots l b : slots (begin_delivery l b).1 = begin_slot b <$> slots l.
Proof.
  unfold begin_delivery. destruct (pending_messages l b) eqn:E; [|done].
  cbn. by rewrite begin_none.
Qed.

Lemma finish_delivery_ok {E} l b (commit : _ -> result E unit) l' ms :
  finish_delivery l b commit = (l', Ok ms) ->
  slots l' = finish_slot b <$> slots l /\ ms = projecting_messages l b.
Proof.
  unfold finish_delivery. destruct (projecting_messages l b) eqn:P.
  - intros [= <- <-]. by rewrite finish_none.
  - destruct (commit _); [|done]. by intros [= <- <-].
Qed.

Lemma finish_delivery_err {E} l b (commit : _ -> result E unit) l' e :
  finish_delivery l b commit = (l', Err e) ->
  l' = l /\ commit (projecting_messages l b) = Err e.
Proof.
  unfold finish_delivery. destruct (projecting_messages l b) eqn:P; [done|].
  destruct (commit _) eqn:C; [done|]. by intros [= <- <-].
Qed.

Lemma target_in_target t s : target_matches t s = in_target t (owned s).
Proof. by destruct t. Qed.

Lemma refines_admit l b m c :
  spec_step (OpAdmit b m c) (view l) (view (admit_pending l b m c).1).
Proof.
  unfold admit_pending. fold (contains_identity l (dm_identity m)).
  destruct (contains_identity l (dm_identity m)) eqn:F.
  { apply SpecRejected; [by apply view_contains|done]. }
  assert (N : view l (dm_identity m) = None).
  { destruct (view l (dm_identity m)) eqn:V; [|done].
    enough (contains_identity l (dm_identity m) = true) by congruence.
    apply view_contains. by rewrite V. }
  apply SpecAdmitted; [done|]. intros i. unfold view. cbn. rewrite view_slots_app. cbn.
  unfold slot_identity. cbn. fold (view l i). case_decide; case_decide; subst; try done.
  - by rewrite N.
  - by destruct (view l i).
Qed.

(** ** Properties *)

(** C36: Over any sequence of admissions, projections, commits and turn ends,
    every delivery the host handed over is in exactly one place: among the
    fallbacks it got back, among the completions it got back, or still in the
    queue; none is lost and none is returned twice. *)
Theorem delivery_exactly_once (ops : list op) :
  log_admitted (run ops).2 ≡ₚ
  (log_fallbacks (run ops).2 ++ log_completions (run ops).2) ++ (owned <$> slots (run ops).1).
Proof. apply inv_conserved, delivery_inv_run. Qed.

(** When identities are not reused, a message the host committed to a turn
    is never handed back as a fallback, so it cannot be delivered a second
    time. *)
Theorem committed_never_falls_back (ops : list op) (m : message) :
  NoDup (od_identity <$> log_admitted (run ops).2) ->
  m ∈ log_committed (run ops).2 ->
  dm_identity m ∉ od_identity <$> log_fallbacks (run ops).2.
Proof.
  intros U Hm. destruct (delivery_inv_run ops) as [_ C _ K].
  destruct (K m Hm) as (o&<-&Ho). rewrite C, !fmap_app, <- app_assoc in U.
  apply list.NoDup_app in U as (_&D&_). intros Hf. apply (D _ Hf). rewrite elem_of_app.
  destruct Ho as [Ho|Ho].
  - right. apply (list_elem_of_fmap_2 od_identity _ o), list_elem_of_fmap.
    by exists (Delivered o).
  - left. by apply (list_elem_of_fmap_2 od_identity _ o).
Qed.

(** The queue never holds two deliveries with the same identity, and it
    holds them in the order they were admitted; what [begin_delivery] and a
    commit see is in that order too. *)
Theorem delivery_fifo_unique (ops : list op) (b : binding) :
  let s := run ops in
  NoDup (od_identity <$> (owned <$> slots s.1)) /\
  owned <$> slots s.1 `sublist_of` log_admitted s.2 /\
  pending_messages s.1 b `sublist_of` (od_message <$> log_admitted s.2) /\
  projecting_messages s.1 b `sublist_of` (od_message <$> log_admitted s.2).
Proof.
  cbn zeta. destruct (delivery_inv_run ops) as [U _ O _].
  assert (S : forall (f : DeliverySlot -> option message) k,
    (forall s m, f s = Some m -> m = od_message (owned s)) ->
    filter_map f k `sublist_of` (od_message <$> (owned <$> k))).
  { intros f k Hf. induction k as [|s k IH]; cbn; [done|].
    destruct (f s) eqn:E; [rewrite (Hf _ _ E)|]; by constructor. }
  split_and!; [done|done|..]; (etrans; [apply S|by apply fmap_sublist]);
    intros [o|o|o] m; cbn; repeat case_bool_decide; by intros [=].
Qed.

(** [finish_delivery] shows the host exactly the messages being projected
    into the turn.  When its commit fails the queue is unchanged and the error
    is returned; when it succeeds those deliveries, and no other, become
    delivered, keeping their place. *)
Theorem finish_delivery_atomic {E} (l : MessageDeliveryLifecycle) (b : binding)
    (commit : list message -> result E unit) :
  match finish_delivery l b commit with
  | (l', Ok ms) => ms = projecting_messages l b /\ slots l' = finish_slot b <$> slots l
  | (l', Err e) => l' = l /\ commit (projecting_messages l b) = Err e
  end.
Proof.
  destruct (finish_delivery l b commit) as [l' [ms|e]] eqn:E0.
  - apply finish_delivery_ok in E0 as [? ?]. done.
  - by apply finish_delivery_err in E0.
Qed.

(** Ending a turn removes its deliveries and only those, in order.  The
    fallbacks are exactly its deliveries that no turn has seen, and only for
    the causes that fall back; every other one completes. *)
Theorem turn_end_partition (l : MessageDeliveryLifecycle) (t : TerminalTarget) (cause : TerminalCause)
    (o : OwnedDelivery) :
  let '(l', tr) := transition l t cause in
  slots l' = List.filter (fun s => negb (target_matches t s)) (slots l) /\
  (o ∈ fallbacks tr <-> falls_back cause = true /\ in_target t o = true /\ Pending o ∈ slots l) /\
  (o ∈ completions tr <-> in_target t o = true /\
     (Projecting o ∈ slots l \/ Delivered o ∈ slots l \/ (Pending o ∈ slots l /\ falls_back cause = false))).
Proof.
  rewrite transition_filters. split_and!; [done|..]; cbn; rewrite owned_filter_elem;
    unfold fallback_by, completion_by; setoid_rewrite target_in_target.
  - split.
    + intros (s&Hs&[? [Hp ?]%andb_true_iff]%andb_true_iff&<-). by destruct s.
    + intros (Hf&Ht&Hs). exists (Pending o). cbn. by rewrite Ht, Hf.
  - split.
    + intros (s&Hs&[? Hn]%andb_true_iff&<-). split; [done|].
      destruct s; cbn in *; [|tauto..]. right. right. split; [done|]. by apply negb_true_iff.
    + intros (Ht&[Hs|[Hs|[Hs Hf]]]);
        [exists (Projecting o)|exists (Delivered o)|exists (Pending o)]; cbn; rewrite Ht; try done.
      by rewrite Hf.
Qed.


End lifecycle.

(** One message is committed and one is still pending when the turn ends. *)
Definition demo_ops : list (op (Identity:=nat) (Source:=unit) (Content:=nat) (Compl:=unit)
                               (PromptId:=nat) (Epoch:=nat)) :=
  [OpAdmit (MkTurnBinding 1 0) (MkDeliveryMessage 7 tt 70) tt;
   OpBegin (MkTurnBinding 1 0);
   OpAdmit (MkTurnBinding 1 0) (MkDeliveryMessage 8 tt 80) tt;
   OpFinish (MkTurnBinding 1 0) (fun _ => Ok tt);
   OpTerminate (Turn (MkTurnBinding 1 0)) SoftCancel].

Lemma committed_never_falls_back_witness :
  od_identity <$> log_fallbacks (run demo_ops).2 = [8] /\
  7 ∉ od_identity <$> log_fallbacks (run demo_ops).2.
Proof.
  split; [vm_compute; reflexivity|].
  apply (committed_never_falls_back demo_ops (MkDeliveryMessage 7 tt 70)).
  - apply (bool_decide_eq_true_1 _). vm_compute. reflexivity.
  - vm_compute. apply list_elem_of_here.
Defined.
