(* ===== verification/Delivery.v ===== *)
(** * [xai-message-delivery-core]: addresses, identities, envelopes

    Opaque child addresses ([address.rs]), restart-stable agent identities
    ([identity.rs]) and source-typed envelopes with operation authorization
    ([envelope.rs]). *)

From S2P Require Import Prelude RustStr.

(** ** [address.rs] *)

Definition ADDRESS_PREFIX : string := "aa1.".

Record AgentAddress : Type := MkAgentAddress { address_str : string }.

(** [entropy] is a [u128]. *)
Definition AgentAddress_mint (entropy : N) : AgentAddress :=
  MkAgentAddress (ADDRESS_PREFIX +:+ hex entropy).

Definition is_presentable (token : string) : bool :=
  negb (is_empty token)
  && negb (eq_ignore_ascii_case token "null")
  && negb (eq_ignore_ascii_case token "none")
  && negb (eq_ignore_ascii_case token "undefined").

Definition AgentAddress_parse (token : string) : option AgentAddress :=
  let token := trim token in
  if negb (is_presentable token) then None else Some (MkAgentAddress token).

Definition mint_child_address (workflow : bool) (entropy : N) : option AgentAddress :=
  if workflow then None else Some (AgentAddress_mint entropy).

Definition advertised_address (stored : option string) (workflow : bool) : option string :=
  if workflow then None
  else ofilter (fun token => match AgentAddress_parse token with Some _ => true | None => false end) stored.

Inductive AddressPresence : Type := Active | PendingAddr | Gone.

Record AddressCandidate : Type := MkAddressCandidate {
  stored_address : option string;
  cand_session_id : string;
  owner_match : bool;
  generation_current : bool;
  cand_workflow : bool;
  presence : AddressPresence }.

Inductive AddressDecision : Type :=
| Owned (p : AddressPresence) | RawSessionId | Foreign | Stale | WorkflowNotAddressable | Unresolved.

Definition is_gone (p : AddressPresence) : bool := match p with Gone => true | _ => false end.

Definition resolve_address (presented : string) (candidate : option AddressCandidate)
  : AddressDecision :=
  match candidate with
  | None => Unresolved
  | Some c =>
      let presented := trim presented in
      let address_match :=
        match stored_address c with Some stored => stored =s? presented | None => false end in
      if (cand_session_id c =s? presented) && negb address_match then RawSessionId
      else if negb address_match then Unresolved
      else if cand_workflow c then WorkflowNotAddressable
      else if negb (owner_match c) then Foreign
      else if negb (generation_current c) || is_gone (presence c) then Stale
      else Owned (presence c)
  end.

(** ** [identity.rs] *)

Definition AGENT_PREFIX : string := "ag1.".
Definition ATTEMPT_PREFIX : string := "at1.".
Definition UUID_TOKEN_LEN : nat := 36.
Definition UUID_HYPHENS : list nat := [8; 13; 18; 23].
Definition UUID_V7_INDEX : nat := 14.
Definition UUID_VARIANT_INDEX : nat := 19.

Record AgentId : Type := MkAgentId { agent_id_str : string }.
Record AttemptId : Type := MkAttemptId { attempt_id_str : string }.

Definition AgentId_mint (entropy : N) : AgentId := MkAgentId (AGENT_PREFIX +:+ hex entropy).
Definition AttemptId_mint (entropy : N) : AttemptId := MkAttemptId (ATTEMPT_PREFIX +:+ hex entropy).

(** [bytes().enumerate().all(..)] of [is_uuid_v7], from position [index] on. *)
Fixpoint uuid_bytes_ok (index : nat) (s : string) : bool :=
  match s with
  | EmptyString => true
  | String byte s' =>
      (if bool_decide (index ∈ UUID_HYPHENS) then byte_eqb byte "-" else is_hex_digit byte)
      && uuid_bytes_ok (S index) s'
  end.

Definition byte_at (s : string) (n : nat) (p : ascii -> bool) : bool :=
  match String.get n s with Some c => p c | None => false end.

Definition is_uuid_v7 (token : string) : bool :=
  (String.length token =? UUID_TOKEN_LEN)%nat
  && uuid_bytes_ok 0 token
  && byte_at token UUID_V7_INDEX (fun c => byte_eqb c "7")
  && byte_at token UUID_VARIANT_INDEX
       (fun c => byte_eqb c "8" || byte_eqb c "9" || byte_eqb c "a" || byte_eqb c "b").

Definition parse_prefixed (token prefix : string) : option string :=
  let token := trim token in
  rest ← strip_prefix prefix token;
  if is_empty rest || negb (sall is_hex_digit rest) then None else Some token.

Definition AgentId_parse (token : string) : option AgentId :=
  let token := trim token in
  if is_uuid_v7 token then Some (MkAgentId token)
  else MkAgentId <$> parse_prefixed token AGENT_PREFIX.

Definition from_uuid_v7 (token : string) : option AgentId :=
  then_some (is_uuid_v7 token) (MkAgentId token).

Definition AttemptId_parse (token : string) : option AttemptId :=
  MkAttemptId <$> parse_prefixed token ATTEMPT_PREFIX.

Inductive IdentityAction : Type :=
| Start (agent : AgentId) (attempt : AttemptId)
| Resume (agent : AgentId) (attempt : AttemptId)
| Fork (agent : AgentId) (attempt : AttemptId).

Definition next_identity (previous : option AgentId) (fork : bool)
    (agent_entropy attempt_entropy : N) : IdentityAction :=
  let attempt := AttemptId_mint attempt_entropy in
  match previous with
  | None => Start (AgentId_mint agent_entropy) attempt
  | Some agent => if fork then Fork (AgentId_mint agent_entropy) attempt else Resume agent attempt
  end.

(** ** [envelope.rs] *)

Inductive Principal : Type := Human | Agent | Runtime.

Inductive Operation : Type := Queue | Steer | Interject | InterruptAndSend.

(** The phantom source type of an envelope. *)
Inductive EnvelopeSource : Type := HumanSource | AgentSource.

Record DeliveryEnvelope (S : EnvelopeSource) (Grant Content Identity : Type) : Type := MkEnvelope {
  env_principal : Principal; env_operation : Operation; env_content : Content;
  env_identity : Identity; env_grant : Grant }.
Arguments MkEnvelope {S Grant Content Identity}.
Arguments env_principal {S Grant Content Identity}.
Arguments env_operation {S Grant Content Identity}.
Arguments env_content {S Grant Content Identity}.
Arguments env_identity {S Grant Content Identity}.
Arguments env_grant {S Grant Content Identity}.

Definition from_human {G C I} (operation : Operation) (content : C) (identity : I) (grant : G)
  : DeliveryEnvelope HumanSource G C I := MkEnvelope Human operation content identity grant.

Definition from_agent {G C I} (operation : Operation) (content : C) (identity : I) (grant : G)
  : DeliveryEnvelope AgentSource G C I := MkEnvelope Agent operation content identity grant.

Definition envelope_into_parts {S G C I} (e : DeliveryEnvelope S G C I) : Operation * C * I * G :=
  (env_operation e, env_content e, env_identity e, env_grant e).

(** A [u8] of flags. *)
Record OperationSet : Type := MkOperationSet { op_bits : Z }.

Definition QUEUE : OperationSet := MkOperationSet (Z.shiftl 1 0).
Definition QUEUE_AND_STEER : OperationSet := MkOperationSet (Z.lor (Z.shiftl 1 0) (Z.shiftl 1 1)).

Definition op_flag (o : Operation) : Z :=
  match o with
  | Queue => Z.shiftl 1 0 | Steer => Z.shiftl 1 1
  | Interject => Z.shiftl 1 2 | InterruptAndSend => Z.shiftl 1 3
  end.

Definition op_contains (s : OperationSet) (o : Operation) : bool :=
  negb (Z.land (op_bits s) (op_flag o) =? 0)%Z.

Record AuthorizedOperation : Type := MkAuthorized { authorized_op : Operation }.
Record UnsupportedOperation : Type := MkUnsupported { unsupported_op : Operation }.

Definition authorize_operation (allowed : OperationSet) (requested : Operation)
  : result UnsupportedOperation AuthorizedOperation :=
  if op_contains allowed requested then Ok (MkAuthorized requested) else Err (MkUnsupported requested).

(** ** Lemmas *)

Lemma prefixed_hex_plain p e :
  sall plain_byte p = true -> sall plain_byte (p +:+ hex e) = true.
Proof.
  intros H. rewrite sall_app, H. apply (sall_impl is_hex_digit); [apply hex_digit_plain|apply hex_digits].
Qed.

Lemma prefixed_hex_trim p e : sall plain_byte p = true -> trim (p +:+ hex e) = p +:+ hex e.
Proof. intros H. by apply trim_plain, prefixed_hex_plain. Qed.

Lemma parse_prefixed_mint p e :
  sall plain_byte p = true -> parse_prefixed (p +:+ hex e) p = Some (p +:+ hex e).
Proof.
  intros H. unfold parse_prefixed. rewrite prefixed_hex_trim by done.
  rewrite strip_prefix_app. cbn. rewrite hex_digits. unfold is_empty.
  destruct (String.eqb_spec (hex e) ""); [by apply hex_nonempty in e0|done].
Qed.

(** A prefix of the same length that differs is not stripped. *)
Lemma strip_prefix_other p q s :
  String.length p = String.length q -> p <> q -> strip_prefix p (q +:+ s) = None.
Proof.
  revert q. induction p as [|a p IH]; intros [|b q] L N; try done.
  rewrite sapp_cons. cbn. destruct (byte_eqb_spec a b) as [->|]; [|done].
  apply IH; [by injection L|]. congruence.
Qed.

(** A UUID has a hexadecimal digit at position 3, where a minted token has a dot. *)
Lemma minted_not_uuid c1 c2 c3 s :
  is_uuid_v7 (String c1 (String c2 (String c3 (String "." s)))) = false.
Proof.
  unfold is_uuid_v7. cbn [uuid_bytes_ok].
  assert (H : is_hex_digit "." = false) by done. cbn -[is_hex_digit uuid_bytes_ok String.length].
  rewrite H. rewrite !andb_false_r. by rewrite ?andb_false_l, ?andb_false_r.
Qed.

Lemma is_presentable_address e : is_presentable (ADDRESS_PREFIX +:+ hex e) = true.
Proof. done. Qed.

Lemma op_contains_testbit s o :
  op_contains s o =
  Z.testbit (op_bits s) (match o with Queue => 0 | Steer => 1 | Interject => 2 | InterruptAndSend => 3 end).
Proof.
  unfold op_contains.
  assert (K : forall n, (0 <= n)%Z ->
    negb (Z.land (op_bits s) (Z.shiftl 1 n) =? 0)%Z = Z.testbit (op_bits s) n).
  { intros n Hn. rewrite Z.shiftl_1_l. destruct (Z.testbit (op_bits s) n) eqn:T.
    - apply negb_true_iff, Z.eqb_neq. intros E.
      apply (f_equal (fun z => Z.testbit z n)) in E.
      rewrite Z.land_spec, T, Z.pow2_bits_true, Z.bits_0 in E by done. done.
    - apply negb_false_iff, Z.eqb_eq. apply Z.bits_inj'. intros m Hm.
      rewrite Z.land_spec, Z.bits_0. destruct (decide (n = m)) as [->|Hne]; [by rewrite T|].
      rewrite Z.pow2_bits_false by done. apply andb_false_r. }
  destruct o; cbn [op_flag]; apply K; lia.
Qed.

(** ** Properties *)

(** A presented token reaches a child exactly when the host's candidate
    stores that token as its address and the child is not a workflow child, is
    owned by the sender, is the current generation and is not gone; a session
    id that is not the address never does. *)
Theorem resolve_address_owned (presented : string) (cand : option AddressCandidate)
    (p : AddressPresence) :
  resolve_address presented cand = Owned p <->
  exists c, cand = Some c /\ stored_address c = Some (trim presented) /\
    cand_workflow c = false /\ owner_match c = true /\ generation_current c = true /\
    presence c = p /\ p <> Gone.
Proof.
  unfold resolve_address. destruct cand as [c|]; [|split; [done|by intros (?&?&_)]].
  cbn zeta. split.
  - intros H. exists c. destruct (stored_address c) as [st|] eqn:S; cycle 1.
    { destruct (cand_session_id c =s? trim presented); done. }
    destruct (String.eqb_spec st (trim presented)) as [->|]; cycle 1.
    { destruct (cand_session_id c =s? trim presented); done. }
    rewrite andb_false_r in H. cbn in H.
    destruct (cand_workflow c), (owner_match c), (generation_current c), (presence c);
      cbn in H; simplify_eq; split_and!; done.
  - intros (c'&[= <-]&->&->&->&->&<-&Hg). rewrite String.eqb_refl, andb_false_r. cbn.
    destruct (presence c); done.
Qed.

(** A minted address, agent id or attempt id is adopted unchanged by its
    own parser; distinct entropy
    gives distinct tokens; and no parser adopts a token of another kind. *)
Theorem minted_tokens_roundtrip (e f : N) :
  (AgentAddress_parse (address_str (AgentAddress_mint e)) = Some (AgentAddress_mint e) /\
   AgentId_parse (agent_id_str (AgentId_mint e)) = Some (AgentId_mint e) /\
   AttemptId_parse (attempt_id_str (AttemptId_mint e)) = Some (AttemptId_mint e)) /\
  (AgentAddress_mint e = AgentAddress_mint f -> e = f) /\
  (AgentId_mint e = AgentId_mint f -> e = f) /\
  (AttemptId_mint e = AttemptId_mint f -> e = f) /\
  (AgentId_parse (attempt_id_str (AttemptId_mint e)) = None /\
   AgentId_parse (address_str (AgentAddress_mint e)) = None /\
   AttemptId_parse (agent_id_str (AgentId_mint e)) = None /\
   AttemptId_parse (address_str (AgentAddress_mint e)) = None).
Proof.
  assert (T : forall p, sall plain_byte p = true -> trim (p +:+ hex e) = p +:+ hex e)
    by (intros; by apply prefixed_hex_trim).
  assert (U : forall p, p = AGENT_PREFIX \/ p = ATTEMPT_PREFIX \/ p = ADDRESS_PREFIX ->
                        is_uuid_v7 (p +:+ hex e) = false).
  { intros p [ -> | [ -> | -> ] ]; by apply minted_not_uuid. }
  split_and!; cbn [address_str agent_id_str attempt_id_str AgentAddress_mint AgentId_mint AttemptId_mint];
    unfold AgentAddress_parse, AgentId_parse, AttemptId_parse; cbn zeta.
  - rewrite T by done. by rewrite is_presentable_address.
  - rewrite T, U by auto. by rewrite parse_prefixed_mint.
  - by rewrite parse_prefixed_mint.
  - intros [= H]. by apply hex_inj.
  - intros [= H]. by apply hex_inj.
  - intros [= H]. by apply hex_inj.
  - rewrite T, U by auto. unfold parse_prefixed. rewrite T by done.
    by rewrite strip_prefix_other.
  - rewrite T, U by auto. unfold parse_prefixed. rewrite T by done.
    by rewrite strip_prefix_other.
  - unfold parse_prefixed. rewrite T by done. by rewrite strip_prefix_other.
  - unfold parse_prefixed. rewrite T by done. by rewrite strip_prefix_other.
Qed.

(** Adopting the string of an adopted agent id gives the same id: the
    stored form is canonical, for prefixed tokens and for UUIDs. *)
Theorem agent_id_adoption_stable (token : string) (a : AgentId) :
  AgentId_parse token = Some a ->
  agent_id_str a = trim token /\ AgentId_parse (agent_id_str a) = Some a.
Proof.
  unfold AgentId_parse at 1. cbn zeta. intros H.
  assert (E : a = MkAgentId (trim token)).
  { destruct (is_uuid_v7 (trim token)); [by injection H as <-|].
    unfold parse_prefixed in H. rewrite trim_idemp in H.
    destruct (strip_prefix AGENT_PREFIX (trim token)) as [r|]; [|done]. cbn in H.
    destruct (is_empty r || negb (sall is_hex_digit r)); [done|]. by injection H as <-. }
  subst a. cbn. split; [done|]. unfold AgentId_parse. cbn zeta. by rewrite trim_idemp.
Qed.

Lemma agent_id_adoption_stable_witness :
  AgentId_parse " 019f972a-7c1b-7d92-a896-4f08f91b6864 " =
    Some (MkAgentId "019f972a-7c1b-7d92-a896-4f08f91b6864") /\
  AgentId_parse "019f972a-7c1b-7d92-a896-4f08f91b6864" =
    Some (MkAgentId "019f972a-7c1b-7d92-a896-4f08f91b6864").
Proof.
  assert (E : AgentId_parse " 019f972a-7c1b-7d92-a896-4f08f91b6864 " =
    Some (MkAgentId "019f972a-7c1b-7d92-a896-4f08f91b6864")) by (vm_compute; reflexivity).
  split; [exact E|]. exact (proj2 (agent_id_adoption_stable _ _ E)).
Defined.
