(* ===== verification/PromptQueue.v ===== *)
(** * [xai-prompt-queue]: rows of the prompt queue and how they combine

    The wire rows ([types.rs]) and the merge rules for queued follow-ups
    ([combine.rs]). *)

From S2P Require Import Prelude RustStr.

(** ** [types.rs] *)

Definition COMBINED_DISPLAY_TEXTS_META : string := "combinedDisplayTexts".

Record QueueEntryMeta : Type := MkQueueEntryMeta {
  qm_id : string; qm_version : Z; qm_owner : option string; qm_last_editor : option string;
  qm_kind : string; qm_text : string; qm_combined_texts : option (list string) }.

Record QueueEntryWire : Type := MkQueueEntryWire {
  qw_id : string; qw_version : Z; qw_owner : option string; qw_last_editor : option string;
  qw_kind : string; qw_text : string; qw_combined_texts : option (list string);
  qw_position : Z }.

Record QueueChanged : Type := MkQueueChanged {
  qc_session_id : string; qc_entries : list QueueEntryWire;
  qc_running_prompt_id : option string; qc_running_text : option string;
  qc_running_kind : option string; qc_running_combined_texts : option (list string) }.

(** ** [combine.rs] *)

Definition TEXT_SEPARATOR : string := String LF (String LF "").

Record CombineGate : Type := MkCombineGate {
  g_id : string; is_plain_prompt : bool; is_synthetic : bool; is_expanded_skill : bool;
  is_bash : bool; has_images : bool; g_text : string }.

Definition can_merge_front (g : CombineGate) : bool :=
  is_plain_prompt g && negb (is_synthetic g) && negb (is_expanded_skill g) && negb (is_bash g)
  && negb (is_empty (g_text g)).

Definition can_merge_follower (g : CombineGate) (skip_ids : list string) : bool :=
  can_merge_front g && negb (has_images g) && negb (bool_decide (g_id g ∈ skip_ids)).

(** The loop of [combine_prefix_len] over the followers, counting from [n]. *)
Fixpoint combine_followers (n : nat) (items : list CombineGate) (skip_ids : list string) : nat :=
  match items with
  | [] => n
  | next :: rest =>
      if negb (can_merge_follower next skip_ids) then n
      else combine_followers (S n) rest skip_ids
  end.

Definition combine_prefix_len (items : list CombineGate) (skip_ids : list string) : nat :=
  match items with
  | [] => 0
  | front :: rest => if negb (can_merge_front front) then 1 else combine_followers 1 rest skip_ids
  end.

Definition join_texts (texts : list string) : string :=
  join TEXT_SEPARATOR (List.filter (fun t => negb (is_empty t)) texts).

Definition is_combined (segs : list string) : bool := (2 <=? length segs)%nat.

(** [meta] is the JSON object; [VString] and [VArray] build JSON values. *)
Definition stamp_combined_display_texts {Value} (VString : string -> Value) (VArray : list Value -> Value)
    (meta : gmap string Value) (segs : list string) : gmap string Value :=
  if negb (is_combined segs) then meta
  else <[COMBINED_DISPLAY_TEXTS_META := VArray (VString <$> segs)]> meta.

(** ** Lemmas *)

Lemma combine_followers_spec n items skip :
  exists k, combine_followers n items skip = (n + k)%nat /\ (k <= length items)%nat /\
    Forall (fun g => can_merge_follower g skip = true) (take k items) /\
    (forall g, items !! k = Some g -> can_merge_follower g skip = false).
Proof.
  revert n. induction items as [|g items IH]; intros n; cbn.
  - exists 0%nat. split_and!; [lia|lia|constructor|done].
  - destruct (can_merge_follower g skip) eqn:E; cbn.
    + destruct (IH (S n)) as (k&->&?&?&?). exists (S k). split_and!; [lia|lia|by constructor|done].
    + exists 0%nat. split_and!; [lia|lia|constructor|]. cbn. by intros ? [= <-].
Qed.

Lemma can_merge_follower_front g skip : can_merge_follower g skip = true -> can_merge_front g = true.
Proof. unfold can_merge_follower. intros H. by reflect_bools. Qed.

(** Every row of a run of two or more satisfies the front condition. *)
Lemma combine_prefix_fronts items skip :
  (2 <= combine_prefix_len items skip)%nat ->
  Forall (fun g => can_merge_front g = true) (take (combine_prefix_len items skip) items).
Proof.
  destruct items as [|front rest]; [constructor|]. cbn [combine_prefix_len].
  destruct (can_merge_front front) eqn:E; cbn [negb]; [|cbn; lia].
  destruct (combine_followers_spec 1 rest skip) as (k&->&_&F&_). intros _. cbn.
  constructor; [done|]. eapply List.Forall_impl; [|exact F]. intros g.
  apply can_merge_follower_front.
Qed.

(** ** Properties *)

(** A combine run takes the front and then the longest unbroken stretch of
    followers that may merge.  A front that may not merge is taken alone, an
    empty queue gives nothing, and the run stops at the first row that is not
    a plain prompt, carries images, is empty or is being edited. *)
Theorem combine_prefix_maximal (items : list CombineGate) (skip : list string) :
  let n := combine_prefix_len items skip in
  (n <= length items)%nat /\
  (n = 0 <-> items = []) /\
  match items with
  | [] => True
  | front :: rest =>
      Forall (fun g => can_merge_follower g skip = true) (take (n - 1) rest) /\
      (can_merge_front front = false -> n = 1) /\
      (can_merge_front front = true -> forall g, rest !! (n - 1)%nat = Some g ->
         can_merge_follower g skip = false)
  end.
Proof.
  destruct items as [|front rest]; cbn; [done|].
  destruct (can_merge_front front) eqn:E; cbn.
  - destruct (combine_followers_spec 1 rest skip) as (k&->&?&?&?). cbn.
    rewrite Nat.sub_0_r. split_and!; [lia|by split; [lia|]|done|done|done].
  - split_and!; [lia|by split|constructor|done|done].
Qed.

(** Every text of a run of two or more rows is in the joined body, in
    order, with one blank line between neighbours: none is dropped, because a
    row that merges has a text. *)
Theorem combined_body_keeps_every_text (items : list CombineGate) (skip : list string) :
  let n := combine_prefix_len items skip in
  (2 <= n)%nat ->
  join_texts (g_text <$> take n items) = join TEXT_SEPARATOR (g_text <$> take n items).
Proof.
  cbn zeta. intros Hn. unfold join_texts. f_equal.
  induction (combine_prefix_fronts _ _ Hn) as [|g l Hg _ IH]; [done|]. cbn. rewrite IH.
  unfold can_merge_front in Hg. by apply andb_true_iff in Hg as [_ ->].
Qed.

Lemma combined_body_keeps_every_text_witness :
  let row i t := MkCombineGate i true false false false false t in
  join_texts (g_text <$> take 2 [row "a" "one"; row "b" "two"; row "edit" "draft"]) =
  join TEXT_SEPARATOR ["one"; "two"].
Proof.
  cbn zeta.
  refine (combined_body_keeps_every_text
    [MkCombineGate "a" true false false false false "one";
     MkCombineGate "b" true false false false false "two";
     MkCombineGate "edit" true false false false false "draft"] ["edit"] _).
  vm_compute. apply le_n.
Defined.
