(* ===== verification/Interjection.v ===== *)
(** * [xai-interjection-core]: messages sent while the agent works

    The shared event queue ([events.rs]), the interjection buffer
    ([buffer.rs]) and the framing of a steered message ([format.rs]).  An
    [EventQueue] is an [Arc] of a mutex-protected vector: every clone sees the
    one vector, and each call holds the lock from its first to its last access,
    so a call is one step on that vector. *)

From S2P Require Import Prelude RustStr.

(** ** [events.rs] *)

Section events.
Context {Ev : Type}.

(** The vector behind the mutex; [lock] recovers it from a poisoned mutex. *)
Record EventQueue : Type := MkEventQueue { events : list Ev }.

Definition eq_new : EventQueue := MkEventQueue [].

Definition eq_push (q : EventQueue) (e : Ev) : EventQueue := MkEventQueue (events q ++ [e]).

Definition eq_push_capped (q : EventQueue) (e : Ev) (max : nat) : EventQueue :=
  let q' := events q ++ [e] in
  if (max <? length q')%nat then
    let excess := (length q' - max)%nat in
    MkEventQueue (drop excess q')
  else MkEventQueue q'.

Definition eq_len (q : EventQueue) : nat := length (events q).
Definition eq_is_empty (q : EventQueue) : bool := match events q with [] => true | _ => false end.

Definition drain_matching (q : EventQueue) (take : Ev -> bool) : EventQueue * list Ev :=
  let '(matched, kept) := partition take (events q) in (MkEventQueue kept, matched).

Definition drain_all (q : EventQueue) : EventQueue * list Ev := (MkEventQueue [], events q).

Definition restore_front (q : EventQueue) (evs : list Ev) : EventQueue :=
  match evs with
  | [] => q
  | _ => let tail := events q in MkEventQueue (evs ++ tail)
  end.

Definition eq_clear (q : EventQueue) : EventQueue := MkEventQueue [].

Definition eq_snapshot (q : EventQueue) : list Ev := events q.

End events.
Arguments EventQueue : clear implicits.

(** ** [format.rs] *)

Definition LARGE_PROMPT_THRESHOLD : Z := 25000.
Definition INTERJECTION_NOTE : string := "The user sent a message while you were working:".
Definition INTERRUPT_NOTE : string := "The user interrupted the previous turn:".
Definition UNFINISHED_TASKS_REMINDER : string :=
  "Make sure to complete any unfinished tasks from previous turns.".

Definition nl : string := String LF "".

Definition user_query (user_message : string) : string :=
  "<user_query>" +:+ nl +:+ user_message +:+ nl +:+ "</user_query>".

Definition frame_user_turn (note assembled : string) : string :=
  note +:+ nl +:+ assembled +:+ nl +:+ UNFINISHED_TASKS_REMINDER.

(** [char_indices], each character as its byte index and [len_utf8]; the lead
    byte of well-formed UTF-8 gives the length. *)
Fixpoint char_indices (i : Z) (s : string) : list (Z * Z) :=
  match s with
  | EmptyString => []
  | String a s1 =>
      if in_range 0 127 a then (i, 1)%Z :: char_indices (i + 1) s1
      else match s1 with
      | EmptyString => []
      | String _ s2 =>
          if in_range 194 223 a then (i, 2)%Z :: char_indices (i + 2) s2
          else match s2 with
          | EmptyString => []
          | String _ s3 =>
              if in_range 224 239 a then (i, 3)%Z :: char_indices (i + 3) s3
              else match s3 with
              | EmptyString => []
              | String _ s4 => (i, 4)%Z :: char_indices (i + 4) s4
              end
          end
      end
  end.

(** [take_while] *)
Fixpoint take_while {A} (p : A -> bool) (l : list A) : list A :=
  match l with [] => [] | x :: l' => if p x then x :: take_while p l' else [] end.

(** The [end] of [format_steered_query]. *)
Definition truncate_end (text : string) : Z :=
  match list.last (take_while (fun ic => ic.1 <? LARGE_PROMPT_THRESHOLD)%Z (char_indices 0 text)) with
  | Some (i, w) => (i + w)%Z
  | None => len text
  end.

Definition truncate_text (text : string) : string :=
  if (len text <=? LARGE_PROMPT_THRESHOLD)%Z then text
  else stake (Z.to_nat (truncate_end text)) text +:+ "... [truncated]".

Definition format_steered_query (note text : string) : string :=
  let truncated := truncate_text text in
  frame_user_turn note (user_query truncated).

Definition format_interjection (text : string) : string := format_steered_query INTERJECTION_NOTE text.
Definition format_interrupt (text : string) : string := format_steered_query INTERRUPT_NOTE text.

(** ** [buffer.rs] *)

Record PendingInterjection (Att : Type) : Type := MkPendingInterjection {
  pi_text : string; pi_attachments : list Att }.
Arguments MkPendingInterjection {Att}.
Arguments pi_text {Att}.
Arguments pi_attachments {Att}.

Record FormattedInterjection (Att : Type) : Type := MkFormattedInterjection {
  fi_text : string; fi_attachments : list Att }.
Arguments MkFormattedInterjection {Att}.
Arguments fi_text {Att}.
Arguments fi_attachments {Att}.

(** [sanitize_text] is the host's closure. *)
Definition drain_formatted {Att} (buffer : EventQueue (PendingInterjection Att))
    (sanitize_text : string -> string)
  : EventQueue (PendingInterjection Att) * list (FormattedInterjection Att) :=
  let '(q, entries) := drain_all buffer in
  (q, (fun entry => MkFormattedInterjection (format_interjection (sanitize_text (pi_text entry)))
                      (pi_attachments entry)) <$> entries).

(** ** Queue laws *)

Section queue_laws.
Context {Ev : Type}.
Implicit Types (q : EventQueue Ev) (e : Ev).

Lemma eq_push_capped_events q e max :
  events (eq_push_capped q e max) = drop (S (length (events q)) - max) (events q ++ [e]).
Proof.
  unfold eq_push_capped. rewrite length_app; cbn [length]. rewrite Nat.add_1_r.
  destruct (Nat.ltb_spec max (S (length (events q)))); [done|].
  replace (S (length (events q)) - max)%nat with 0%nat by lia. done.
Qed.

(** A sequence of capped pushes. *)
Definition push_all_capped (q : EventQueue Ev) (max : nat) (es : list Ev) : EventQueue Ev :=
  fold_left (fun q e => eq_push_capped q e max) es q.

(** Pushing any events through [push_capped] keeps exactly the newest [max]
    of everything that was in the queue and was pushed, oldest first, when the
    queue was within the cap. *)
Theorem push_capped_keeps_newest q max es :
  (length (events q) <= max)%nat ->
  events (push_all_capped q max es)
  = drop (length (events q) + length es - max) (events q ++ es).
Proof.
  unfold push_all_capped. revert q. induction es as [|e es IH]; intros q Hq; cbn.
  - rewrite app_nil_r, Nat.add_0_r. by replace (length (events q) - max)%nat with 0%nat by lia.
  - pose proof (eq_push_capped_events q e max) as E.
    assert (L : (length (events (eq_push_capped q e max)) = length (events q) + 1 - (S (length (events q)) - max))%nat).
    { rewrite E, length_drop, length_app. done. }
    rewrite IH by lia. rewrite E, length_drop, length_app. cbn [length].
    assert (length (events q) < max \/ length (events q) = max)%nat as [ | ] by lia.
    + replace (S (length (events q)) - max)%nat with 0%nat by lia. rewrite drop_0, <- app_assoc. cbn.
      f_equal. lia.
    + replace (events q ++ e :: es) with ((events q ++ [e]) ++ es) by by rewrite <- app_assoc.
      rewrite <- (drop_app_le (events q ++ [e])) by (rewrite length_app; cbn; lia).
      rewrite drop_drop. f_equal. lia.
Qed.

(** [drain_matching] loses nothing and reorders nothing: the returned
    events and the kept ones are the two order-preserving selections of the
    queue, none of the kept events matches, and draining again returns none. *)
Theorem drain_matching_splits q take :
  let '(q', matched) := drain_matching q take in
  matched = List.filter take (events q) /\
  events q' = List.filter (fun e => negb (take e)) (events q) /\
  events q ≡ₚ matched ++ events q' /\
  (drain_matching q' take).2 = [].
Proof.
  unfold drain_matching. rewrite partition_filter. cbn. split_and!; [done|done|apply filter_permutation|].
  rewrite partition_filter. cbn.
  induction (events q) as [|e l IH]; cbn; [done|].
  destruct (take e) eqn:E; cbn; [done|]. by rewrite E.
Qed.

(** A drain that is undone by [restore_front] puts the drained events
    before whatever was pushed in between, as if they had never left. *)
Theorem restore_front_undoes_drain q late :
  let '(q', drained) := drain_all q in
  events (restore_front (fold_left eq_push late q') drained) = events q ++ late.
Proof.
  cbn. assert (P : forall q0, events (fold_left eq_push late q0) = events q0 ++ late).
  { induction late as [|e l IH]; intros q0; cbn; [by rewrite app_nil_r|].
    rewrite IH. cbn. by rewrite <- app_assoc. }
  unfold restore_front. destruct (events q) eqn:E; rewrite P; done.
Qed.
End queue_laws.

Lemma push_capped_keeps_newest_witness :
  (length (events (@MkEventQueue nat [1; 2])) <= 2)%nat /\
  events (push_all_capped (MkEventQueue [1; 2]) 2 [3; 4; 5]) = [4; 5].
Proof. split; [cbn; lia|]. apply (push_capped_keeps_newest (MkEventQueue [1; 2]) 2 [3; 4; 5]). cbn; lia. Defined.

(** ** Truncation *)

(** The first character of a well-formed string, as [char_indices] sees it. *)
Lemma char_indices_head i s : utf8 s = true -> s <> "" ->
  exists w : nat, (1 <= w <= 4)%nat /\ (w <= String.length s)%nat /\
    char_indices i s = (i, Z.of_nat w) :: char_indices (i + Z.of_nat w) (sdrop w s) /\
    utf8 (stake w s) = true /\ utf8 (sdrop w s) = true.
Proof.
  intros H NE. destruct s as [|a s1]; [done|]. clear NE. cbn [utf8 char_indices] in *.
  destruct (in_range 0 127 a) eqn:E0.
  { exists 1%nat. cbn. rewrite E0. split_and!; [lia..|by destruct s1|done|by destruct s1]. }
  destruct s1 as [|b s2]; [done|].
  destruct (in_range 194 223 a) eqn:E1.
  { reflect_bools. exists 2%nat. cbn. rewrite E0, E1. split_and!; [lia..|by destruct s2| |by destruct s2].
    by rewrite andb_true_r. }
  destruct s2 as [|c s3]; [done|].
  destruct (in_range 224 239 a) eqn:E2.
  { reflect_bools. exists 3%nat. cbn. rewrite E0, E1, E2. split_and!; [lia..|by destruct s3| |by destruct s3].
    rewrite !andb_true_iff. done. }
  destruct s3 as [|d s4]; [done|]. reflect_bools.
  exists 4%nat. cbn. rewrite E0, E1, E2. split_and!; [lia..|by destruct s4| |by destruct s4].
  rewrite !andb_true_iff. done.
Qed.

Lemma length_stake e s : (e <= String.length s)%nat -> String.length (stake e s) = e.
Proof. revert e. induction s as [|a s IH]; intros [|e]; cbn; [lia..|]. intros H. rewrite IH; lia. Qed.

Lemma stake_sdrop_app w e s : stake (w + e) s = stake w s +:+ stake e (sdrop w s).
Proof.
  revert s. induction w as [|w IH]; intros s; [by rewrite sapp_nil_l|].
  destruct s as [|a s]; cbn; [by destruct e|]. by rewrite IH, sapp_cons.
Qed.

(** The last character that starts before [lim] ends at a boundary within three
    bytes of [lim]. *)
Lemma cut_before lim i s :
  utf8 s = true -> (i < lim)%Z -> (lim <= i + len s)%Z ->
  exists j w (e : nat),
    list.last (take_while (fun ic => ic.1 <? lim)%Z (char_indices i s)) = Some (j, w) /\
    (j + w = i + Z.of_nat e)%Z /\ (e <= String.length s)%nat /\
    (lim <= i + Z.of_nat e < lim + 4)%Z /\ utf8 (stake e s) = true.
Proof.
  revert i. induction s as [s IH] using (induction_ltof1 _ String.length); unfold ltof in IH.
  intros i H Hi Hl. unfold len in Hl. destruct (decide (s = "")) as [->|NE]; [cbn in Hl; lia|].
  destruct (char_indices_head i s H NE) as (w&Hw&Hws&->&Ut&Ud).
  cbn [take_while fst]. rewrite (proj2 (Z.ltb_lt i lim)) by done.
  destruct (Z.lt_ge_cases (i + Z.of_nat w) lim) as [Hlt|Hge].
  - pose proof (length_sdrop w s) as Ls.
    destruct (IH (sdrop w s) ltac:(lia) (i + Z.of_nat w)%Z Ud Hlt) as (j&v&e&E&?&?&?&?).
    { unfold len. lia. }
    exists j, v, (w + e)%nat. split_and!; [|lia..|].
    + by destruct (take_while _ (char_indices (i + Z.of_nat w) (sdrop w s))).
    + rewrite stake_sdrop_app. by apply utf8_app.
  - exists i, (Z.of_nat w), w. split_and!; [|lia..|done].
    destruct (decide (sdrop w s = "")) as [->|NE2]; [done|].
    destruct (char_indices_head (i + Z.of_nat w) _ Ud NE2) as (v&_&_&->&_).
    cbn [take_while fst]. by rewrite (proj2 (Z.ltb_ge _ _)).
Qed.

(** A steered message within the limit is framed unchanged; a longer one is
    cut between 25000 and 25003 bytes, at the end of a character, so that the
    slice is valid UTF-8 and the marker follows it. *)
Theorem steered_text_truncated note text :
  utf8 text = true ->
  exists shown, format_steered_query note text = frame_user_turn note (user_query shown) /\
    (((len text <= LARGE_PROMPT_THRESHOLD)%Z /\ shown = text) \/
     exists cut rest, text = cut +:+ rest /\ utf8 cut = true /\
       (LARGE_PROMPT_THRESHOLD <= len cut < LARGE_PROMPT_THRESHOLD + 4)%Z /\
       shown = cut +:+ "... [truncated]").
Proof.
  intros H. exists (truncate_text text). split; [done|]. unfold truncate_text.
  destruct (Z.leb_spec (len text) LARGE_PROMPT_THRESHOLD) as [|Hl]; [by left|right].
  destruct (cut_before LARGE_PROMPT_THRESHOLD 0 text H) as (j&w&e&E&E1&E2&E3&E4);
    [unfold LARGE_PROMPT_THRESHOLD; lia|lia|].
  assert (Ee : truncate_end text = Z.of_nat e) by (unfold truncate_end; rewrite E; lia).
  exists (stake e text), (sdrop e text). rewrite stake_sdrop. split_and!; [done|done|..].
  - unfold len. rewrite length_stake; lia.
  - unfold len. rewrite length_stake; lia.
  - by rewrite Ee, Nat2Z.id.
Qed.

Lemma steered_text_truncated_witness :
  exists shown, format_interjection "stop" = frame_user_turn INTERJECTION_NOTE (user_query shown) /\
    (((len "stop" <= LARGE_PROMPT_THRESHOLD)%Z /\ shown = "stop") \/
     exists cut rest, "stop" = cut +:+ rest /\ utf8 cut = true /\
       (LARGE_PROMPT_THRESHOLD <= len cut < LARGE_PROMPT_THRESHOLD + 4)%Z /\
       shown = cut +:+ "... [truncated]").
Proof. exact (steered_text_truncated INTERJECTION_NOTE "stop" eq_refl). Defined.

(** Draining the interjection buffer empties it and yields one message per
    entry, in the order they were sent, each with its own attachments and its
    own sanitised text in the frame. *)
Theorem drain_formatted_one_each {Att} (buffer : EventQueue (PendingInterjection Att)) sanitize :
  let '(q, out) := drain_formatted buffer sanitize in
  events q = [] /\ length out = length (events buffer) /\
  forall i entry, events buffer !! i = Some entry ->
    exists m, out !! i = Some m /\ fi_attachments m = pi_attachments entry /\
      fi_text m = frame_user_turn INTERJECTION_NOTE (user_query (truncate_text (sanitize (pi_text entry)))).
Proof.
  cbn. split_and!; [done|by rewrite length_fmap|].
  intros i entry E. rewrite list_lookup_fmap, E. cbn. by eexists.
Qed.
