(* ===== verification/Compaction.v ===== *)
(** * [xai-token-estimation] and [xai-grok-compaction]: budgets and selection

    What fits into a model's context: the estimates and thresholds of
    [xai-token-estimation], the trigger of a compaction ([trigger.rs]), the
    split into what is summarized and what is kept ([select.rs]), and the ladder
    that fits a conversation into the input of the summarizer ([fit.rs]).  Token
    counts are [u32] with saturating sums.  The file shows that a split keeps
    the longest end of the conversation that fits without separating a tool's
    result from its request, and that the ladder stays within the budget, keeps
    the order and never returns nothing. *)

From S2P Require Import Prelude RustStr TextSearch Float64.
From Stdlib Require Import Floats.SpecFloat.

Open Scope Z_scope.

(** ** [f64] casts *)

Definition u32_max : Z := 2 ^ 32 - 1.
Definition f64_mul (x y : f64) : f64 := of_sf (SFmul 53 1024 (to_sf x) (to_sf y)).

(** The integer below, and above, a value without its sign: m * 2^e. *)
Definition floor_abs (m e : Z) : Z := if 0 <=? e then m * 2 ^ e else m / 2 ^ (- e).
Definition half_up_abs (m e : Z) : Z := if 0 <=? e then m * 2 ^ e else (m + 2 ^ (- e - 1)) / 2 ^ (- e).
Definition ceil_abs (m e : Z) : Z := if 0 <=? e then m * 2 ^ e else (m + 2 ^ (- e) - 1) / 2 ^ (- e).

(** [as] to an unsigned type: truncated, saturated, NaN is 0; the rounding is
    done before, on values that are not negative. *)
Definition f64_to_unsigned (round : Z -> Z -> Z) (max : Z) (x : f64) : Z :=
  match to_sf x with
  | S754_zero _ | S754_nan => 0
  | S754_infinity s => if s then 0 else max
  | S754_finite s m e => if s then 0 else Z.min (round (Zpos m) e) max
  end.

(** ** [xai-token-estimation] *)

Definition BYTES_PER_TOKEN : Z := 4.
Definition IMAGE_TOKEN_ESTIMATE : Z := 765.

Definition estimate_tokens (s : string) : Z := len s / BYTES_PER_TOKEN.
Definition estimate_chars (tokens : Z) : Z := sat_mul u64_max tokens BYTES_PER_TOKEN.
Definition estimate_image_tokens (image_count : Z) : Z := sat_mul u64_max image_count IMAGE_TOKEN_ESTIMATE.

Definition f64_min (x y : f64) : f64 := if is_nan x then y else if is_nan y then x else if f64_lt y x then y else x.
Definition usage_percentage (used total : Z) : f64 :=
  if total =? 0 then f64_0 else f64_min (f64_mul (f64_div (f64_of_Z used) (f64_of_Z total)) f64_100) f64_100.
Definition usage_percentage_u8 (used total : Z) : Z := f64_to_unsigned half_up_abs 255 (usage_percentage used total).
Definition usage_percentage_truncated_u8 (used total : Z) : Z :=
  if total =? 0 then 0 else Z.min (sat_mul u64_max used 100 / total) 100.
Definition free_tokens (total used : Z) : Z := sat_sub total used.
Definition exceeds_threshold (used context_window threshold_percent : Z) : bool :=
  if context_window =? 0 then false
  else sat_mul u64_max context_window threshold_percent <=? sat_mul u64_max used 100.
Definition exceeds_threshold_with_headroom (used context_window threshold_percent headroom : Z) : bool :=
  if context_window =? 0 then false
  else sat_sub (sat_mul u64_max context_window threshold_percent) (sat_mul u64_max headroom 100) <=? sat_mul u64_max used 100.

(** ** Items *)

Inductive CompactionRole : Type := RoleSystem | RoleDeveloper | RoleUser | RoleAssistant | RoleTool.
Record CompactionFileRef : Type := MkFileRef { fr_id : string; fr_name : string }.

Class CompactionItem (T : Type) := {
  item_role : T -> CompactionRole;
  item_text : T -> option string;
  has_tool_requests : T -> bool;
  is_compaction_summary : T -> bool;
  attachment_refs : T -> list CompactionFileRef }.

Definition is_tool_result `{CompactionItem T} (t : T) : bool := match item_role t with RoleTool => true | _ => false end.

Class CompactionItemBuilder (T : Type) := {
  compaction_summary_item : string -> T;
  strip_tool_content : T -> option T;
  truncate_payload_for_compaction : T -> Z -> T }.

(** [ItemTokenCounter] *)
Class ItemTokenCounter (T : Type) := count_item_tokens : T -> Z.
Class CounterLaw (T : Type) `{ItemTokenCounter T} := count_u32 t : 0 <= count_item_tokens t <= u32_max.

Definition sum_counts (counts : list Z) : Z := foldl (sat_add u32_max) 0 counts.

Section compaction.
Context {T : Type} `{It : CompactionItem T} `{Bd : CompactionItemBuilder T} `{Ct : ItemTokenCounter T}.
Implicit Types (items turns history steps : list T) (counts : list Z) (budget : Z).

(** ** [select.rs] *)

Record SplitPlan : Type := MkSplit { split_idx : nat; tokens_to_compact : Z }.

(** The walk backward: [counts_rev] are the counts before index [i], newest first. *)
Fixpoint walk_back (target_tokens kept : Z) (i : nat) (counts_rev : list Z) : nat :=
  match counts_rev with
  | [] => i
  | count :: rest =>
      if target_tokens <? sat_add u32_max kept count then i
      else walk_back target_tokens (sat_add u32_max kept count) (i - 1) rest
  end.

Fixpoint leading_results items : nat :=
  match items with t :: items' => if is_tool_result t then S (leading_results items') else 0 | [] => 0 end.

Definition snap_to_safe_boundary items (candidate : nat) : nat :=
  if (length items <=? candidate)%nat then length items else (candidate + leading_results (drop candidate items))%nat.

Definition select_turns_to_compact counts items (target_tokens min_compactable : Z) : option SplitPlan :=
  match items with
  | [] => None
  | _ =>
      let split := walk_back target_tokens 0 (length items) (rev counts) in
      if (split =? 0)%nat then None
      else
        let safe := snap_to_safe_boundary items split in
        if (length items <=? safe)%nat then None
        else
          let tokens := sum_counts (take safe counts) in
          if tokens <? min_compactable then None else Some (MkSplit safe tokens)
  end.

(** ** [fit.rs] *)

Inductive FitRung : Type := Verbatim | HistoryTurnSelected | ToolTruncated | StepTurnsSelected | Emergency.
Record FitPlan : Type := MkFit {
  llm_turns : list T; tokens_raw : Z; tokens_fit : Z; rung : FitRung;
  items_truncated : Z; history_turns_omitted : Z; step_turns_omitted : Z }.

Definition token_counts turns : list Z := count_item_tokens <$> turns.
Definition sum_tokens turns : Z := sum_counts (token_counts turns).

(** [as u32] of a length *)
Definition as_u32 (n : nat) : Z := Z.of_nat n mod 2 ^ 32.

Definition oversized (max_tokens : Z) (t : T) : bool := is_tool_result t && (max_tokens <? count_item_tokens t).
Definition shrink_oversized_tool_results turns (max_tokens : Z) : list T * Z :=
  ((fun t => if oversized max_tokens t then truncate_payload_for_compaction t max_tokens else t) <$> turns,
   as_u32 (length (List.filter (oversized max_tokens) turns))).

Definition keep_recent_under_budget turns counts budget : option (list T * nat) :=
  match turns with
  | [] => Some ([], 0%nat)
  | _ =>
      if budget =? 0 then Some ([], length turns)
      else if sum_counts counts <=? budget then Some (turns, 0%nat)
      else plan ← select_turns_to_compact counts turns budget 0; Some (drop (split_idx plan) turns, split_idx plan)
  end.

(** One side of the ladder: what is kept of it beside [other] tokens, and how
    many turns are left out. *)
Definition select_beside turns (other budget : Z) : list T * nat :=
  if other <? budget then
    if budget - other <? sum_counts (token_counts turns) then
      match keep_recent_under_budget turns (token_counts turns) (budget - other) with
      | Some (keep, omitted) => (keep, omitted)
      | None => ([], length turns)
      end
    else (turns, 0%nat)
  else ([], length turns).

Definition plan_ok history steps (raw : Z) (r : FitRung) (truncated : Z) (history_omitted step_omitted : nat) : FitPlan :=
  MkFit (history ++ steps) raw (sum_tokens (history ++ steps)) r truncated (as_u32 history_omitted) (as_u32 step_omitted).

Definition fits history steps budget : bool := sat_add u32_max (sum_tokens history) (sum_tokens steps) <=? budget.

(** The last rung: the newest item alone. *)
Definition emergency_plan history steps (hist step : list T) (raw : Z) budget (truncated : Z) (hist_omitted step_omitted : nat) : FitPlan :=
  let combined := hist ++ step in
  let '(source, ho, so) :=
    match combined, step with
    | [], _ => (history ++ steps, match steps with [] => as_u32 (length history - 1) | _ => as_u32 (length history) end,
                match steps with [] => 0 | _ => as_u32 (length steps - 1) end)
    | _, [] => (combined, sat_add u32_max (as_u32 hist_omitted) (as_u32 (length hist - 1)), as_u32 step_omitted)
    | _, _ => (combined, sat_add u32_max (as_u32 hist_omitted) (as_u32 (length hist)),
               sat_add u32_max (as_u32 step_omitted) (as_u32 (length step - 1)))
    end in
  match list.last source with
  | None => MkFit [] raw 0 Emergency truncated ho so
  | Some newest =>
      let last := [truncate_payload_for_compaction newest budget] in
      MkFit last raw (sum_tokens last) Emergency (sat_add u32_max truncated 1) ho so
  end.

(** The rungs after the selection of history. *)
Definition fit_steps_for_summarizer history steps (hist : list T) (hist_omitted : nat) (raw : Z) budget : FitPlan :=
  let '(hist, n1) := shrink_oversized_tool_results hist budget in
  let '(step, n2) := shrink_oversized_tool_results steps budget in
  let truncated := sat_add u32_max n1 n2 in
  if fits hist step budget then plan_ok hist step raw ToolTruncated truncated hist_omitted 0
  else
    let '(step, step_omitted) := select_beside step (sum_tokens hist) budget in
    if fits hist step budget && negb (match hist ++ step with [] => true | _ => false end)
    then plan_ok hist step raw StepTurnsSelected truncated hist_omitted step_omitted
    else emergency_plan history steps hist step raw budget truncated hist_omitted step_omitted.

Definition fit_turns_for_summarizer history steps budget : FitPlan :=
  let raw := sat_add u32_max (sum_tokens history) (sum_tokens steps) in
  if budget =? 0 then MkFit [] raw 0 Emergency 0 (as_u32 (length history)) (as_u32 (length steps))
  else if raw <=? budget then plan_ok history steps raw Verbatim 0 0 0
  else
    let '(hist, hist_omitted) := select_beside history (sum_tokens steps) budget in
    if fits hist steps budget then plan_ok hist steps raw HistoryTurnSelected 0 hist_omitted 0
    else fit_steps_for_summarizer history steps hist hist_omitted raw budget.
End compaction.
Arguments FitPlan : clear implicits.

Fixpoint boundary_below (text : string) (end_ : nat) : nat :=
  match end_ with
  | 0%nat => 0%nat
  | S e => if is_char_boundary text end_ then end_ else boundary_below text e
  end.

Definition MARKER_RESERVE : Z := 64.
Definition truncation_marker (dropped : Z) : string :=
  String LF ("[... truncated " +:+ dec dropped +:+ " bytes to fit the compaction window ...]").
Definition truncate_text_to_token_budget (text : string) (max_tokens : Z) : string :=
  let max_bytes := sat_mul usize_max max_tokens 4 in
  if len text <=? max_bytes then text
  else
    let keep := sat_sub max_bytes MARKER_RESERVE in
    let end_ := boundary_below text (Z.to_nat (Z.min keep (len text))) in
    stake end_ text +:+ truncation_marker (len text - Z.of_nat end_).

(** ** [config.rs] and [trigger.rs] *)

Inductive IntraCompactionMode : Type := ModeFullReplace | ModeStepsOnly | ModeHistoryOnly | ModeHistoryThenSteps.
Inductive IntraSummarizer : Type := SummarizerShared | SummarizerLegacy.

Record IntraCompactionConfig : Type := MkCompactionConfig {
  ic_enabled : bool; ic_mode : IntraCompactionMode; ic_trigger_threshold_percent : Z; ic_min_steps_before_compact : Z;
  ic_min_compactable_tokens : Z; ic_max_reduction_ratio : f64; ic_compaction_model_name : option string;
  ic_sampling_timeout_secs : Z; ic_max_attempts : Z; ic_retry_delay_secs : Z; ic_compaction_version : string; ic_summarizer : IntraSummarizer; ic_target_threshold_percent : Z; ic_steps_trigger_ratio : f64; ic_user_message_truncate_chars : Z }.

Definition DEFAULT_COMPACTION_MODEL_NAME : string := "grok-4.20".
Definition effective_compaction_model_name (c : IntraCompactionConfig) : string :=
  unwrap_or DEFAULT_COMPACTION_MODEL_NAME (ofilter (fun s => negb (is_empty s)) (trim <$> ic_compaction_model_name c)).

Record IntraCompactionTrigger : Type := MkTrigger { tr_last_prompt_tokens : Z; tr_context_window : Z; tr_percent : Z; tr_step : Z }.

(** [(a as u64 * percent as u64 / 100) as u32] *)
Definition percent_of_u32 (a percent : Z) : Z := (a * percent / 100) mod 2 ^ 32.

Definition should_compact (policy : IntraCompactionConfig) (last_prompt_tokens context_window current_step : Z) : option IntraCompactionTrigger :=
  if negb (ic_enabled policy) then None
  else if context_window =? 0 then None
  else if negb (match ic_mode policy with ModeFullReplace => true | _ => false end) && (current_step <? ic_min_steps_before_compact policy) then None
  else if last_prompt_tokens <=? percent_of_u32 context_window (ic_trigger_threshold_percent policy) then None
  else Some (MkTrigger last_prompt_tokens context_window (Z.min (last_prompt_tokens * 100 / context_window) 100) current_step).

(** * Theorems *)

Definition zsum (counts : list Z) : Z := foldr Z.add 0 counts.
Definition u32s (counts : list Z) : Prop := Forall (fun c => 0 <= c <= u32_max) counts.

Lemma zsum_nonneg counts : u32s counts -> 0 <= zsum counts.
Proof. unfold zsum. induction 1; cbn; lia. Qed.

(** Saturation does not depend on the order of the sums. *)
Lemma sum_counts_zsum counts : u32s counts -> sum_counts counts = Z.min (zsum counts) u32_max.
Proof.
  unfold sum_counts. intros H.
  cut (forall acc, 0 <= acc <= u32_max -> foldl (sat_add u32_max) acc counts = Z.min (acc + zsum counts) u32_max).
  { intros Hc. rewrite Hc; [f_equal; lia|]. unfold u32_max. lia. }
  induction H as [|c counts Hc H IH]; intros acc Ha; cbn [foldl]; [cbn; lia|].
  rewrite IH by (unfold sat_add; cbn beta in Hc; lia). pose proof (zsum_nonneg _ H). unfold sat_add. cbn beta in Hc.
  change (zsum (c :: counts)) with (c + zsum counts). lia.
Qed.

Lemma zsum_app c1 c2 : zsum (c1 ++ c2) = zsum c1 + zsum c2.
Proof. unfold zsum. induction c1; cbn; lia. Qed.

Lemma u32s_drop j counts : u32s counts -> u32s (drop j counts).
Proof. apply Forall_drop. Qed.

#[export] Hint Resolve u32s_drop : core.

Lemma sum_counts_app c1 c2 : u32s c1 -> u32s c2 -> sum_counts (c1 ++ c2) = sat_add u32_max (sum_counts c1) (sum_counts c2).
Proof.
  intros H1 H2. rewrite !sum_counts_zsum by (done || by apply Forall_app). rewrite zsum_app.
  pose proof (zsum_nonneg _ H1). pose proof (zsum_nonneg _ H2). unfold sat_add, u32_max. lia.
Qed.

Lemma sum_counts_range counts : u32s counts -> 0 <= sum_counts counts <= u32_max.
Proof. intros H. rewrite sum_counts_zsum by done. pose proof (zsum_nonneg _ H). unfold u32_max in *. lia. Qed.

Lemma sum_counts_drop_mono j k counts : u32s counts -> (j <= k)%nat -> sum_counts (drop k counts) <= sum_counts (drop j counts).
Proof.
  intros H Hjk. rewrite !sum_counts_zsum by auto.
  rewrite <- (take_drop (k - j) (drop j counts)), zsum_app, drop_drop.
  replace (j + (k - j))%nat with k by lia.
  assert (0 <= zsum (take (k - j) (drop j counts))) by (apply zsum_nonneg, Forall_take; by apply u32s_drop). lia.
Qed.

(** The walk stops at the first index whose end fits. *)
Lemma walk_back_spec target kept counts_rev suffix :
  u32s (rev counts_rev ++ suffix) -> kept = sum_counts suffix -> kept <= target ->
  let counts := rev counts_rev ++ suffix in
  let s := walk_back target kept (length counts_rev) counts_rev in
  (s <= length counts_rev)%nat /\ sum_counts (drop s counts) <= target /\
  (forall j, (j < s)%nat -> target < sum_counts (drop j counts)).
Proof.
  revert kept suffix. induction counts_rev as [|c counts_rev IH]; intros kept suffix Hu -> Hk; cbn [rev length walk_back]; cbn zeta.
  { rewrite app_nil_l, drop_0. split_and!; [lia|done|lia]. }
  assert (Hc : sat_add u32_max (sum_counts suffix) c = sum_counts (c :: suffix)).
  { change (c :: suffix) with ([c] ++ suffix). cbn [rev] in Hu. apply Forall_app in Hu as [Hu1 Hu2]. apply Forall_app in Hu1 as [_ Hu1].
    rewrite sum_counts_app by done. rewrite Forall_singleton in Hu1. unfold sum_counts at 2. cbn. unfold sat_add. lia. }
  cbn [rev] in Hu. rewrite <- app_assoc in Hu |- *. cbn [app] in Hu |- *.
  destruct (target <? _) eqn:Et.
  - apply Z.ltb_lt in Et. rewrite Hc in Et.
    assert (Hd : forall l, drop (S (length counts_rev)) (rev counts_rev ++ c :: l) = l).
    { intros l. rewrite drop_app_ge by (rewrite length_rev; lia). rewrite length_rev, Nat.sub_succ_l, Nat.sub_diag; done. }
    split_and!; [lia|by rewrite Hd|]. intros j Hj.
    eapply Z.lt_le_trans; [exact Et|].
    etransitivity; [|apply (sum_counts_drop_mono j (length counts_rev)); [done|lia]].
    rewrite drop_app_ge by (rewrite length_rev; lia). by rewrite length_rev, Nat.sub_diag, drop_0.
  - apply Z.ltb_ge in Et. rewrite Nat.sub_succ, Nat.sub_0_r.
    destruct (IH (sat_add u32_max (sum_counts suffix) c) (c :: suffix)) as (H1 & H2 & H3); [done|done|done|].
    split_and!; [lia|done|done].
Qed.

Section properties.
Context {T : Type} `{It : CompactionItem T} `{Bd : CompactionItemBuilder T} `{Ct : ItemTokenCounter T}.
Implicit Types (items turns history steps : list T) (counts : list Z) (budget : Z).

(** A cut that separates no result from its request. *)
Definition safe_cut items (j : nat) : bool := match items !! j with Some t => negb (is_tool_result t) | None => false end.

Lemma leading_results_spec items :
  (leading_results items <= length items)%nat /\
  (forall j, (j < leading_results items)%nat -> safe_cut items j = false) /\
  (leading_results items = length items \/ safe_cut items (leading_results items) = true).
Proof.
  induction items as [|t items (H1 & H2 & H3)]; cbn; [split_and!; [lia|lia|by left]|].
  destruct (is_tool_result t) eqn:E; cbn.
  - split_and!; [lia| |destruct H3; [left; lia|by right]].
    intros [|j] Hj; unfold safe_cut; cbn; [by rewrite E|]. apply H2. lia.
  - split_and!; [lia|lia|right]. unfold safe_cut. cbn. by rewrite E.
Qed.

Lemma safe_cut_drop items k j : safe_cut (drop k items) j = safe_cut items (k + j).
Proof. unfold safe_cut. by rewrite lookup_drop. Qed.

Lemma snap_spec items k : (k <= length items)%nat ->
  let s := snap_to_safe_boundary items k in
  (k <= s <= length items)%nat /\ (forall j, (k <= j < s)%nat -> safe_cut items j = false) /\
  (s = length items \/ safe_cut items s = true).
Proof.
  intros Hk. unfold snap_to_safe_boundary. cbn zeta. destruct (Nat.leb_spec (length items) k) as [Hl|Hl].
  { split_and!; [lia|lia|lia|by left]. }
  destruct (leading_results_spec (drop k items)) as (H1 & H2 & H3). rewrite length_drop in H1, H3.
  split_and!; [lia|lia| |].
  - intros j Hj. specialize (H2 (j - k)%nat). rewrite safe_cut_drop in H2.
    replace (k + (j - k))%nat with j in H2 by lia. apply H2. lia.
  - rewrite safe_cut_drop in H3. destruct H3; [left; lia|by right].
Qed.

(** The first safe cut whose end fits into [room]; the length if there is none. *)
Definition least_cut items counts (room : Z) (k : nat) : Prop :=
  (k <= length items)%nat /\ (k = length items \/ safe_cut items k = true /\ sum_counts (drop k counts) <= room) /\
  (forall j, (j < k)%nat -> safe_cut items j = true -> room < sum_counts (drop j counts)).

Lemma safe_cut_lt items k : safe_cut items k = true -> (k < length items)%nat.
Proof. unfold safe_cut. destruct (items !! k) eqn:E; [|done]. intros _. by eapply lookup_lt_Some. Qed.

Lemma least_cut_unique items counts room k1 k2 : least_cut items counts room k1 -> least_cut items counts room k2 -> k1 = k2.
Proof.
  intros (L1 & H1 & M1) (L2 & H2 & M2).
  destruct (Nat.lt_trichotomy k1 k2) as [Hlt|[->|Hlt]]; [|done|].
  - destruct H1 as [->|[Hs Hf]]; [lia|]. specialize (M2 k1 Hlt Hs). lia.
  - destruct H2 as [->|[Hs Hf]]; [lia|]. specialize (M1 k2 Hlt Hs). lia.
Qed.

Lemma walk_snap_least items counts room : length counts = length items -> u32s counts -> 0 <= room ->
  least_cut items counts room (snap_to_safe_boundary items (walk_back room 0 (length items) (rev counts))).
Proof.
  intros Hl Hu Hr.
  destruct (walk_back_spec room 0 (rev counts) []) as (W1 & W2 & W3); [by rewrite rev_involutive, app_nil_r|done|done|].
  rewrite rev_involutive, app_nil_r, length_rev, Hl in *.
  destruct (snap_spec items _ W1) as ([S1 S2] & S3 & S4). split_and!; [done| |].
  - destruct S4 as [->|S4]; [by left|right]. split; [done|]. etransitivity; [|exact W2]. by apply sum_counts_drop_mono.
  - intros j Hj Hsafe. apply W3. destruct (Nat.lt_ge_cases j (walk_back room 0 (length items) (rev counts))); [done|].
    rewrite S3 in Hsafe; [done|lia].
Qed.

Lemma walk_back_0 items counts room : length counts = length items -> u32s counts -> 0 <= room ->
  walk_back room 0 (length items) (rev counts) = 0%nat <-> sum_counts counts <= room.
Proof.
  intros Hl Hu Hr.
  destruct (walk_back_spec room 0 (rev counts) []) as (W1 & W2 & W3); [by rewrite rev_involutive, app_nil_r|done|done|].
  rewrite rev_involutive, app_nil_r, length_rev, Hl in *. split.
  - intros E. by rewrite E, drop_0 in W2.
  - intros Hs. destruct (walk_back _ _ _ _) as [|s]; [done|]. specialize (W3 0%nat). rewrite drop_0 in W3. lia.
Qed.

(** [select_turns_to_compact] as a search. *)
Lemma select_spec counts items target min : length counts = length items -> u32s counts -> 0 <= target ->
  exists k, least_cut items counts target k /\
  select_turns_to_compact counts items target min =
    if (target <? sum_counts counts) && (k <? length items)%nat && (min <=? sum_counts (take k counts))
    then Some (MkSplit k (sum_counts (take k counts))) else None.
Proof.
  intros Hl Hu Ht. exists (snap_to_safe_boundary items (walk_back target 0 (length items) (rev counts))).
  split; [by apply walk_snap_least|]. unfold select_turns_to_compact.
  destruct items as [|t0 items0] eqn:Ei.
  { destruct counts; [|done]. cbn. by rewrite andb_false_r. }
  rewrite <- Ei in *. clear t0 items0 Ei. pose proof (walk_back_0 items counts target Hl Hu Ht) as W.
  destruct (Nat.eqb_spec (walk_back target 0 (length items) (rev counts)) 0) as [E|E].
  { apply W in E. replace (target <? sum_counts counts) with false by (symmetry; apply Z.ltb_ge; lia). done. }
  replace (target <? sum_counts counts) with true
    by (symmetry; apply Z.ltb_lt; destruct (Z.lt_ge_cases target (sum_counts counts)) as [|Hge]; [done|]; by apply W in Hge).
  cbn [andb]. set (k := snap_to_safe_boundary _ _). rewrite Nat.ltb_antisym. destruct (length items <=? k)%nat; cbn [negb andb]; [done|].
  cbn zeta. rewrite Z.ltb_antisym. by destruct (min <=? _).
Qed.

(** No result without a request: [open] says whether results may follow. *)
Fixpoint orphan_free (open : bool) items : bool :=
  match items with
  | [] => true
  | t :: items' => if is_tool_result t then open && orphan_free open items' else orphan_free (has_tool_requests t) items'
  end.

Lemma orphan_free_app open items k : orphan_free open items = true -> safe_cut items k = true ->
  orphan_free open (take k items) = true /\ orphan_free false (drop k items) = true.
Proof.
  revert open k. induction items as [|t items IH]; intros open k Ho Hk; [done|].
  destruct k as [|k]; cbn [take drop] in *.
  { split; [done|]. unfold safe_cut in Hk. cbn in Hk |- *. cbn in Ho.
    destruct (is_tool_result t); [done|]. done. }
  unfold safe_cut in Hk. cbn in Hk, Ho |- *. destruct (is_tool_result t).
  - apply andb_true_iff in Ho as [-> Ho]. by apply IH.
  - by apply IH.
Qed.

(** When there is a split, and which one. *)
Lemma select_some_iff counts items target min k tokens :
  length counts = length items -> u32s counts -> 0 <= target ->
  select_turns_to_compact counts items target min = Some (MkSplit k tokens) <->
  target < sum_counts counts /\ safe_cut items k = true /\ sum_counts (drop k counts) <= target /\
  (forall j, (j < k)%nat -> safe_cut items j = true -> target < sum_counts (drop j counts)) /\
  tokens = sum_counts (take k counts) /\ min <= tokens.
Proof.
  intros Hl Hu Ht. destruct (select_spec counts items target min Hl Hu Ht) as (k0 & Hk0 & ->). split.
  - destruct (_ && _) eqn:Eb; [|done]. intros [= -> <-]. apply andb_true_iff in Eb as [Eb E3].
    apply andb_true_iff in Eb as [E1 E2]. apply Nat.ltb_lt in E2. destruct Hk0 as (_ & [->|[]] & Hm); [lia|].
    split_and!; try done; lia.
  - intros (H1 & H2 & H3 & H4 & -> & H6). pose proof (safe_cut_lt _ _ H2).
    assert (k = k0) as -> by (apply (least_cut_unique items counts target); [split_and!; [lia|by right|done]|done]).
    replace (target <? sum_counts counts) with true by (symmetry; lia).
    replace (k0 <? length items)%nat with true by (symmetry; by apply Nat.ltb_lt).
    replace (min <=? sum_counts (take k0 counts)) with true by (symmetry; lia). done.
Qed.

Lemma split_inside counts items target k :
  target < sum_counts counts -> safe_cut items k = true -> sum_counts (drop k counts) <= target -> (0 < k < length items)%nat.
Proof. intros H1 H2 H3. split; [|by apply safe_cut_lt]. destruct k; [rewrite drop_0 in H3|]; lia. Qed.

(** Where a conversation is split.  [select_turns_to_compact] returns a
    split exactly when the conversation does not fit into the target, at the
    first index that is not a tool result and from which the rest fits, if
    there is one and what lies before it is worth the minimum.  So the longest
    end that may be kept is kept, and a conversation in which every tool result
    follows a request is cut into two such conversations. *)
Theorem split_keeps_pairs counts items target min k tokens :
  length counts = length items -> u32s counts -> 0 <= target ->
  (select_turns_to_compact counts items target min = Some (MkSplit k tokens) <->
   target < sum_counts counts /\ safe_cut items k = true /\ sum_counts (drop k counts) <= target /\
   (forall j, (j < k)%nat -> safe_cut items j = true -> target < sum_counts (drop j counts)) /\
   tokens = sum_counts (take k counts) /\ min <= tokens) /\
  (select_turns_to_compact counts items target min = Some (MkSplit k tokens) -> orphan_free false items = true ->
   orphan_free false (take k items) = true /\ orphan_free false (drop k items) = true /\ (0 < k < length items)%nat).
Proof.
  intros Hl Hu Ht. pose proof (select_some_iff counts items target min k tokens Hl Hu Ht) as Hiff.
  split; [done|]. intros (H1 & H2 & H3 & _)%Hiff Ho.
  destruct (orphan_free_app _ _ _ Ho H2). split_and!; [done|done|..]; by eapply split_inside.
Qed.

Context `{Law : !CounterLaw T}.

Lemma token_counts_u32s turns : u32s (token_counts turns).
Proof. unfold token_counts. apply Forall_fmap, List.Forall_forall. intros t _. apply count_u32. Qed.

Lemma length_token_counts turns : length (token_counts turns) = length turns.
Proof. apply length_fmap. Qed.

Lemma sum_tokens_range turns : 0 <= sum_tokens turns <= u32_max.
Proof. apply sum_counts_range, token_counts_u32s. Qed.

Lemma sum_tokens_app l1 l2 : sum_tokens (l1 ++ l2) = sat_add u32_max (sum_tokens l1) (sum_tokens l2).
Proof. unfold sum_tokens, token_counts. rewrite fmap_app. apply sum_counts_app; apply token_counts_u32s. Qed.

Lemma sum_tokens_drop k turns : sum_tokens (drop k turns) = sum_counts (drop k (token_counts turns)).
Proof. unfold sum_tokens, token_counts. by rewrite fmap_drop. Qed.

Lemma sum_tokens_take k turns : sum_tokens (take k turns) = sum_counts (take k (token_counts turns)).
Proof. unfold sum_tokens, token_counts. by rewrite fmap_take. Qed.

(** What is kept of one side in [room] tokens: all of it when it fits, and its
    longest safe end otherwise. *)
Definition kept_from turns (room : Z) (k : nat) : Prop :=
  if sum_tokens turns <=? room then k = 0%nat else least_cut turns (token_counts turns) room k.

Lemma kept_from_fits turns room k : 0 <= room -> kept_from turns room k -> sum_tokens (drop k turns) <= room.
Proof.
  intros Hr. unfold kept_from. destruct (Z.leb_spec (sum_tokens turns) room) as [H|H].
  - intros ->. by rewrite drop_0.
  - intros (_ & [->|[_ Hf]] & _); [rewrite drop_all; cbn; lia|]. by rewrite sum_tokens_drop.
Qed.

Lemma select_beside_spec turns other budget :
  exists k, select_beside turns other budget = (drop k turns, k) /\ (k <= length turns)%nat /\
  (other < budget -> kept_from turns (budget - other) k) /\ (budget <= other -> k = length turns).
Proof.
  unfold select_beside, kept_from. destruct (Z.ltb_spec other budget) as [Hb|Hb].
  2: { exists (length turns). rewrite drop_all. split_and!; [done|lia|lia|done]. }
  rewrite (Z.ltb_antisym (sum_counts _) (budget - other)). fold (sum_tokens turns).
  destruct (Z.leb_spec (sum_tokens turns) (budget - other)) as [Hs|Hs]; cbn [negb].
  { exists 0%nat. rewrite drop_0. split_and!; [done|lia|done|lia]. }
  destruct (select_spec (token_counts turns) turns (budget - other) 0 (length_token_counts _) (token_counts_u32s _)) as (k & Hk & E); [lia|].
  exists k. split_and!; [|apply Hk|done|lia]. unfold keep_recent_under_budget. destruct turns as [|t0 turns0] eqn:Et.
  { cbn in Hs. lia. }
  rewrite <- Et in *. replace (budget - other =? 0) with false by (symmetry; lia).
  fold (sum_tokens turns). replace (sum_tokens turns <=? budget - other) with false by (symmetry; lia).
  rewrite E. fold (sum_tokens turns). replace (budget - other <? sum_tokens turns) with true by (symmetry; lia). cbn [andb].
  pose proof (sum_counts_range (take k (token_counts turns))) as Hr. destruct Hr as [Hr _]; [by apply Forall_take, token_counts_u32s|].
  replace (0 <=? sum_counts (take k (token_counts turns))) with true by (symmetry; lia). rewrite andb_true_r.
  destruct (Nat.ltb_spec k (length turns)) as [Hlt|Hge]; cbn; [done|].
  destruct Hk as (Hle & _). replace k with (length turns) by lia. by rewrite drop_all.
Qed.

(** What the ladder does, rung by rung. *)
Definition ladder history steps budget (p : FitPlan T) : Prop :=
  let shrunk := (shrink_oversized_tool_results steps budget).1 in
  let n := (shrink_oversized_tool_results steps budget).2 in
  match rung p with
  | Verbatim => llm_turns p = history ++ steps /\ tokens_raw p <= budget /\
      (items_truncated p, history_turns_omitted p, step_turns_omitted p) = (0, 0, 0)
  | HistoryTurnSelected => sum_tokens steps <= budget < tokens_raw p /\ exists k,
      (sum_tokens steps < budget -> kept_from history (budget - sum_tokens steps) k) /\
      (sum_tokens steps = budget -> k = length history) /\
      llm_turns p = drop k history ++ steps /\
      (items_truncated p, history_turns_omitted p, step_turns_omitted p) = (0, as_u32 k, 0)
  | ToolTruncated => budget < sum_tokens steps /\ llm_turns p = shrunk /\
      (items_truncated p, history_turns_omitted p, step_turns_omitted p) = (n, as_u32 (length history), 0)
  | StepTurnsSelected => budget < sum_tokens steps /\ budget < sum_tokens shrunk /\ exists k, (k < length steps)%nat /\
      least_cut shrunk (token_counts shrunk) budget k /\ llm_turns p = drop k shrunk /\
      (items_truncated p, history_turns_omitted p, step_turns_omitted p) = (n, as_u32 (length history), as_u32 k)
  | Emergency => budget < sum_tokens steps /\ budget < sum_tokens shrunk /\
      (forall j, safe_cut shrunk j = true -> budget < sum_tokens (drop j shrunk)) /\
      exists older newest, steps = older ++ [newest] /\ llm_turns p = [truncate_payload_for_compaction newest budget] /\
      (items_truncated p, history_turns_omitted p, step_turns_omitted p) =
        (sat_add u32_max n 1, as_u32 (length history), as_u32 (length older))
  end.

Lemma fits_app h s budget : fits h s budget = (sum_tokens (h ++ s) <=? budget).
Proof. unfold fits. by rewrite sum_tokens_app. Qed.

(** History goes whole before a step is touched. *)
Lemma select_history history steps budget k :
  budget <= u32_max -> budget < sat_add u32_max (sum_tokens history) (sum_tokens steps) ->
  (sum_tokens steps < budget -> kept_from history (budget - sum_tokens steps) k) ->
  (budget <= sum_tokens steps -> k = length history) ->
  fits (drop k history) steps budget = (sum_tokens steps <=? budget) /\ (budget < sum_tokens steps -> drop k history = []).
Proof.
  intros Hb Hraw H1 H2. pose proof (sum_tokens_range steps). unfold fits.
  destruct (Z.lt_ge_cases (sum_tokens steps) budget) as [Hlt|Hge].
  - assert (sum_tokens (drop k history) <= budget - sum_tokens steps) by (apply kept_from_fits; [lia|by apply H1]).
    split; [|lia]. unfold sat_add. lia.
  - rewrite H2, drop_all by done. split; [|done]. unfold sat_add. cbn. lia.
Qed.

Lemma fits_nil steps budget : fits [] steps budget = (sum_tokens steps <=? budget).
Proof. by rewrite fits_app. Qed.

Lemma shrink_length turns max_tokens : length (shrink_oversized_tool_results turns max_tokens).1 = length turns.
Proof. apply length_fmap. Qed.

(** What a plan promises, whatever its rung. *)
Definition plan_sound budget (raw : Z) (p : FitPlan T) : Prop :=
  tokens_raw p = raw /\ tokens_fit p = sum_tokens (llm_turns p) /\ (rung p <> Emergency -> tokens_fit p <= budget).

(** The ladder once history is gone. *)
Lemma fit_steps history steps budget raw :
  0 < budget -> budget < sum_tokens steps ->
  let p := fit_steps_for_summarizer history steps [] (length history) raw budget in
  ladder history steps budget p /\ plan_sound budget raw p /\ llm_turns p <> [].
Proof.
  intros Hb Hs. unfold fit_steps_for_summarizer, plan_sound. change (shrink_oversized_tool_results ([] : list T) budget) with (([] : list T), 0). cbn iota beta. set (sh := shrink_oversized_tool_results steps budget).
  destruct sh as [step n2] eqn:Esh.
  assert (Hn : sat_add u32_max 0 n2 = n2).
  { subst sh. apply (f_equal snd) in Esh. cbn in Esh. subst n2. unfold sat_add, as_u32, u32_max.
    match goal with |- context [Z.of_nat ?x mod _] => pose proof (Z.mod_pos_bound (Z.of_nat x) (2 ^ 32)) end. lia. }
  assert (Hlen : length step = length steps) by (replace step with sh.1 by (by rewrite Esh); apply shrink_length).
  cbn zeta. rewrite Hn. rewrite !fits_nil. unfold ladder. fold sh. rewrite Esh. cbn [fst snd].
  destruct (Z.leb_spec (sum_tokens step) budget) as [Hf|Hf].
  { cbn. split_and!; try done. intros ->. destruct steps; cbn in *; lia. }
  destruct (select_beside_spec step 0 budget) as (k & Ek & Hk & Hsel & _). change (sum_tokens ([] : list T)) with 0. rewrite Ek, fits_nil.
  specialize (Hsel Hb). rewrite Z.sub_0_r in Hsel.
  pose proof (kept_from_fits _ _ _ (Z.lt_le_incl _ _ Hb) Hsel) as Hfit. unfold kept_from in Hsel.
  replace (sum_tokens step <=? budget) with false in Hsel by (symmetry; lia).
  replace (sum_tokens (drop k step) <=? budget) with true by (symmetry; lia). cbn [app].
  destruct (Nat.eq_dec k (length step)) as [->|Hne].
  - rewrite drop_all. cbn [andb negb]. unfold emergency_plan. cbn [app].
    destruct steps as [|s0 steps0] using rev_ind; [cbn in Hs; lia|]. clear IHsteps0.
    rewrite app_assoc, last_snoc. cbn. destruct (steps0 ++ [s0]) eqn:Esn; [by destruct steps0|]. rewrite <- Esn. cbn.
    split_and!; [by rewrite Esn|done| | |done|done|done|done].
    + intros j Hj. rewrite sum_tokens_drop. apply Hsel; [by apply safe_cut_lt in Hj|done].
    + exists steps0, s0. split_and!; [done|done|]. do 2 f_equal. rewrite length_app. cbn. lia.
  - destruct (drop k step) eqn:Ed.
    { apply (f_equal length) in Ed. rewrite length_drop in Ed. cbn in Ed. lia. }
    rewrite <- Ed. cbn. split_and!; [done|done| |done|done|by intros _; rewrite Ed|by rewrite Ed]. exists k. split_and!; [lia|done|done|done].
Qed.

Lemma fit_spec history steps budget :
  0 < budget <= u32_max ->
  let p := fit_turns_for_summarizer history steps budget in
  ladder history steps budget p /\ plan_sound budget (sum_tokens (history ++ steps)) p /\ (llm_turns p = [] -> steps = []).
Proof.
  intros [Hb Hmax]. cbn zeta. unfold fit_turns_for_summarizer. cbn zeta. rewrite <- sum_tokens_app.
  replace (budget =? 0) with false by (symmetry; lia).
  destruct (Z.leb_spec (sum_tokens (history ++ steps)) budget) as [Hraw|Hraw].
  { cbn. split_and!; try done. by intros [-> ->]%app_nil. }
  destruct (select_beside_spec history (sum_tokens steps) budget) as (k & -> & Hk & Hlt & Hge).
  rewrite sum_tokens_app in Hraw. destruct (select_history history steps budget k Hmax Hraw Hlt Hge) as [-> Hnil].
  destruct (Z.leb_spec (sum_tokens steps) budget) as [Hs|Hs].
  { cbn. rewrite sum_tokens_app. split_and!; [done|done| |split_and!; [done|done|]|by intros [_ ->]%app_nil].
    - exists k. split_and!; [done| |done|done]. intros E. apply Hge. lia.
    - intros _. cbn. destruct (select_history history steps budget k Hmax Hraw Hlt Hge) as [Hf _].
      rewrite fits_app in Hf. lia. }
  rewrite (Hnil Hs), (Hge (Z.lt_le_incl _ _ Hs)).
  destruct (fit_steps history steps budget (sum_tokens (history ++ steps)) Hb Hs) as (HL & HS & Hne). by split_and!.
Qed.

(** C22: The ladder that fits a conversation into the input of the summarizer.
    Whatever the counter and the builder are, and for any positive budget, the
    plan is made by the first rung that suffices: everything; else all steps
    with the longest safe end of the history that leaves room for them; else
    the steps with the results clipped that exceed the budget alone; else the
    longest safe end of those; and the newest step alone, clipped, only when
    no safe end fits.  On every rung but the last the tokens are within the
    budget, the order is kept, and the numbers of omitted turns are exact. *)
Theorem fit_within_budget history steps budget :
  0 < budget <= u32_max ->
  let p := fit_turns_for_summarizer history steps budget in
  ladder history steps budget p /\ plan_sound budget (sum_tokens (history ++ steps)) p /\ (llm_turns p = [] -> steps = []).
Proof. apply fit_spec. Qed.

(** Without steps the ladder can end before its last rung with nothing: when
    the newest turn of the history alone exceeds the budget. *)
Lemma no_steps_empty_plan history newest budget :
  0 < budget <= u32_max -> budget < count_item_tokens newest ->
  let p := fit_turns_for_summarizer (history ++ [newest]) [] budget in
  llm_turns p = [] /\ rung p = HistoryTurnSelected.
Proof.
  intros Hb Hn. cbn zeta. unfold fit_turns_for_summarizer. cbn zeta.
  assert (Hcut : forall j, (j <= length history)%nat -> budget < sum_tokens (drop j (history ++ [newest]))).
  { intros j Hj. rewrite drop_app_le, sum_tokens_app by done. pose proof (sum_tokens_range (drop j history)).
    pose proof (count_u32 newest). unfold sum_tokens at 2. cbn. unfold sat_add. lia. }
  change (sum_tokens ([] : list T)) with 0. pose proof (Hcut 0%nat ltac:(lia)) as H0. rewrite drop_0 in H0.
  pose proof (sum_tokens_range (history ++ [newest])).
  replace (budget =? 0) with false by (symmetry; lia).
  replace (sat_add u32_max (sum_tokens (history ++ [newest])) 0 <=? budget) with false by (symmetry; unfold sat_add; lia).
  destruct (select_beside_spec (history ++ [newest]) 0 budget) as (k & -> & Hk & Hlt & _).
  specialize (Hlt ltac:(lia)). apply kept_from_fits in Hlt; [|lia].
  assert (k = length (history ++ [newest])) as ->.
  { rewrite length_app in Hk |- *. cbn in *. destruct (Nat.le_gt_cases k (length history)) as [Hle|]; [|lia]. specialize (Hcut k Hle). lia. }
  rewrite drop_all, fits_nil. change (sum_tokens ([] : list T)) with 0. replace (0 <=? budget) with true by (symmetry; lia). done.
Qed.
End properties.

(** ** Clipping *)

Lemma boundary_below_spec text n :
  let e := boundary_below text n in
  (e <= n)%nat /\ is_char_boundary text e = true /\ (forall j, (e < j <= n)%nat -> is_char_boundary text j = false).
Proof.
  induction n as [|n IH]; cbn [boundary_below]; cbn zeta; [split_and!; [lia|done|lia]|].
  destruct (is_char_boundary text (S n)) eqn:E; [split_and!; [lia|done|lia]|].
  destruct IH as (H1 & H2 & H3). split_and!; [lia|done|]. intros j Hj.
  destruct (decide (j = S n)) as [->|]; [done|]. apply H3. lia.
Qed.

Lemma boundary_below_near text n : utf8 text = true -> (n <= String.length text)%nat -> (n - 3 <= boundary_below text n)%nat.
Proof.
  intros Hu Hn. destruct (boundary_below_spec text n) as (H1 & _ & H3).
  destruct (Nat.le_gt_cases (n - 3) (boundary_below text n)) as [|Hlt]; [done|exfalso].
  destruct (utf8_boundary_near text (n - 3) Hu ltac:(lia)) as (k & Hk & E). rewrite H3 in E; [done|lia].
Qed.

Lemma utf8_marker n : utf8 (truncation_marker n) = true.
Proof.
  unfold truncation_marker. change (utf8 ("[... truncated " +:+ dec n +:+ " bytes to fit the compaction window ...]") = true).
  apply utf8_app; [done|]. apply utf8_app; [apply utf8_digits, dec_digits|done].
Qed.

Lemma len_marker n : len (truncation_marker n) = 56 + len (dec n).
Proof.
  unfold truncation_marker. change (String LF ("[... truncated " +:+ ?x)) with (String LF "[... truncated " +:+ x).
  rewrite !len_sapp. unfold len at 1 3. cbn [String.length]. lia.
Qed.

(** A clipped payload.  A text that fits into four bytes per token is left
    alone.  Any other is cut at a character boundary at most three bytes below
    the room that the marker leaves, is still well-formed UTF-8, and says how
    many bytes are gone; from 16 tokens on, and up to 100 MB, the result with
    its marker is within the budget. *)
Theorem clip_within_budget text max_tokens :
  utf8 text = true -> len text <= usize_max -> 0 <= max_tokens <= u32_max ->
  let out := truncate_text_to_token_budget text max_tokens in
  utf8 out = true /\
  (len text <= 4 * max_tokens -> out = text) /\
  (4 * max_tokens < len text -> exists kept rest, text = kept +:+ rest /\ out = kept +:+ truncation_marker (len rest) /\ utf8 kept = true /\
     Z.max 0 (4 * max_tokens - 64) - 3 <= len kept <= Z.max 0 (4 * max_tokens - 64) /\
     (16 <= max_tokens -> len text < 10 ^ 8 -> len out <= 4 * max_tokens)).
Proof.
  intros Hu Hlen Hm. cbn zeta. unfold truncate_text_to_token_budget.
  assert (Hmul : sat_mul usize_max max_tokens 4 = 4 * max_tokens) by (unfold sat_mul, usize_max, u64_max, u32_max in *; lia). rewrite Hmul. cbn zeta.
  destruct (Z.leb_spec (len text) (4 * max_tokens)) as [Hl|Hl]; [split_and!; [done|done|lia]|].
  set (keep := sat_sub (4 * max_tokens) MARKER_RESERVE). replace (Z.min keep (len text)) with keep by (unfold keep, sat_sub, MARKER_RESERVE; lia).
  assert (Hkeep : keep = Z.max 0 (4 * max_tokens - 64)) by (unfold keep, sat_sub, MARKER_RESERVE; lia).
  destruct (boundary_below_spec text (Z.to_nat keep)) as (H1 & H2 & _).
  pose proof (boundary_below_near text (Z.to_nat keep) Hu) as H3. set (e := boundary_below text (Z.to_nat keep)) in *.
  assert (Hrest : len text - Z.of_nat e = len (sdrop e text)) by (unfold len in *; rewrite length_sdrop; lia).
  assert (Hk : len (stake e text) = Z.of_nat e).
  { pose proof (f_equal len (stake_sdrop e text)) as E. rewrite len_sapp in E. lia. }
  split_and!; [apply utf8_app; [by apply utf8_stake|apply utf8_marker]|lia|]. intros _.
  exists (stake e text), (sdrop e text). rewrite stake_sdrop, Hrest. split_and!; [done|done|by apply utf8_stake| |lia|].
  - unfold len in *. lia.
  - intros Hbig Hsmall. rewrite len_sapp, len_marker, Hk. pose proof (len_nonneg (sdrop e text)).
    pose proof (dec_length 8 (len (sdrop e text)) ltac:(lia)) as Hd. lia.
Qed.

(** ** Thresholds *)

(** The gate of compaction and the gauge shown to the user agree: as long as
    the products fit into 64 bits, a threshold of at most 100 percent is
    exceeded exactly when the truncated percentage has reached it, and without
    headroom the second gate is the first. *)
Theorem gate_agrees_with_gauge used window percent :
  is_u64 used -> 0 < window -> 0 <= percent <= 100 -> used * 100 <= u64_max -> window * percent <= u64_max ->
  exceeds_threshold used window percent = (percent <=? usage_percentage_truncated_u8 used window) /\
  exceeds_threshold_with_headroom used window percent 0 = exceeds_threshold used window percent.
Proof.
  intros [Hu _] Hw Hp H1 H2. unfold exceeds_threshold, exceeds_threshold_with_headroom, usage_percentage_truncated_u8.
  replace (window =? 0) with false by (symmetry; lia). unfold sat_mul, sat_sub. rewrite !Z.min_l by lia. split.
  - apply eq_iff_eq_true. rewrite !Z.leb_le. rewrite Z.min_glb_iff. split.
    + intros H. split; [|lia]. apply Z.div_le_lower_bound; lia.
    + intros [H _]. pose proof (Z.mul_div_le (used * 100) window Hw). nia.
  - f_equal. rewrite Z.min_l by (unfold u64_max; lia). lia.
Qed.

(** When a compaction starts.  With a threshold of at most 100 percent no
    cast loses anything, and [should_compact] answers exactly when compaction
    is on, the window is known, the mode needs no more steps and the prompt is
    above the threshold as a fraction; the percentage it reports is that of the
    prompt, at most 100. *)
Theorem trigger_exact policy last window step t :
  0 <= ic_trigger_threshold_percent policy <= 100 -> 0 <= last <= u32_max -> 0 <= window <= u32_max ->
  should_compact policy last window step = Some t <->
  ic_enabled policy = true /\ 0 < window /\
  (ic_mode policy = ModeFullReplace \/ ic_min_steps_before_compact policy <= step) /\
  window * ic_trigger_threshold_percent policy < last * 100 /\
  t = MkTrigger last window (Z.min (last * 100 / window) 100) step.
Proof.
  intros Hp Hl Hw. unfold should_compact, percent_of_u32. set (p := ic_trigger_threshold_percent policy) in *.
  assert (Hq : 0 <= window * p / 100 <= u32_max).
  { split; [apply Z.div_pos; nia|]. apply Z.div_le_upper_bound; nia. }
  rewrite Z.mod_small by (unfold u32_max in *; lia).
  assert (Hcmp : last <= window * p / 100 <-> last * 100 <= window * p).
  { split; [intros H; pose proof (Z.mul_div_le (window * p) 100); lia|intros H; apply Z.div_le_lower_bound; lia]. }
  destruct (ic_enabled policy); cbn [negb]; [|by split; [|intros [? _]]].
  destruct (Z.eqb_spec window 0) as [->|Hw0]; [split; [done|intros (_ & ? & _); lia]|].
  assert (Hgate : negb (match ic_mode policy with ModeFullReplace => true | _ => false end) && (step <? ic_min_steps_before_compact policy) = false
            <-> ic_mode policy = ModeFullReplace \/ ic_min_steps_before_compact policy <= step).
  { destruct (ic_mode policy); cbn; rewrite ?Z.ltb_ge; (split; [auto|intros [?|?]; done]). }
  destruct (_ && _); [split; [done|]; intros (_ & _ & H%Hgate & _); done|].
  destruct (Z.leb_spec last (window * p / 100)) as [H|H].
  - split; [done|]. intros (_ & _ & _ & H' & _). apply Hcmp in H. lia.
  - split; [intros [= <-]; split_and!; [done|lia|by apply Hgate|lia|done]|]. by intros (_ & _ & _ & _ & ->).
Qed.

(** * Examples *)

Module CompactionSample.
Record Item : Type := MkItem { i_role : CompactionRole; i_text : string; i_requests : bool }.

#[export] Instance item_item : CompactionItem Item :=
  {| item_role := i_role; item_text t := Some (i_text t); has_tool_requests := i_requests;
     is_compaction_summary _ := false; attachment_refs _ := [] |}.
#[export] Instance item_builder : CompactionItemBuilder Item :=
  {| compaction_summary_item text := MkItem RoleDeveloper text false; strip_tool_content t := Some t;
     truncate_payload_for_compaction t n := MkItem (i_role t) (truncate_text_to_token_budget (i_text t) n) (i_requests t) |}.
#[export] Instance item_counter : ItemTokenCounter Item := fun t => Z.min (len (i_text t) / 4) u32_max.
#[export] Instance item_counter_law : CounterLaw Item.
Proof.
  intros t. unfold count_item_tokens, item_counter. pose proof (Z.div_pos (len (i_text t)) 4 (len_nonneg _) ltac:(lia)).
  unfold u32_max. lia.
Qed.

Definition user_turn : Item := MkItem RoleUser "what does the build do" false.
Definition call : Item := MkItem RoleAssistant "reading" true.
Definition result (n : nat) : Item := MkItem RoleTool (String.concat "" (repeat "xxxx" n)) false.
Definition answer : Item := MkItem RoleAssistant "it compiles" false.
Definition talk : list Item := [user_turn; call; result 40; result 3; answer].

(** A cut on the second result moves behind it. *)
Example split_of_talk : select_turns_to_compact (token_counts talk) talk 6 1 = Some (MkSplit 4 49).
Proof. vm_compute. reflexivity. Qed.

Lemma split_keeps_pairs_witness :
  select_turns_to_compact (token_counts talk) talk 6 1 = Some (MkSplit 4 49) /\ orphan_free false (drop 4 talk) = true.
Proof.
  assert (E : select_turns_to_compact (token_counts talk) talk 6 1 = Some (MkSplit 4 49)) by (vm_compute; reflexivity).
  split; [exact E|].
  refine (proj1 (proj2 (proj2 (split_keeps_pairs (token_counts talk) talk 6 1 4 49 _ _ _) E _))); [reflexivity| |lia|reflexivity].
  apply token_counts_u32s.
Defined.

Lemma fit_within_budget_witness :
  rung (fit_turns_for_summarizer [user_turn; answer] [call; result 40; answer] 20) = StepTurnsSelected /\
  tokens_fit (fit_turns_for_summarizer [user_turn; answer] [call; result 40; answer] 20) <= 20.
Proof.
  assert (E : rung (fit_turns_for_summarizer [user_turn; answer] [call; result 40; answer] 20) = StepTurnsSelected) by (vm_compute; reflexivity).
  split; [exact E|].
  destruct (fit_within_budget [user_turn; answer] [call; result 40; answer] 20) as (_ & (_ & _ & H) & _); [unfold u32_max; lia|].
  apply H. rewrite E. discriminate.
Defined.

(** The rungs on one conversation, for smaller and smaller budgets. *)
Example rungs :
  (fun b => rung (fit_turns_for_summarizer [user_turn; answer] [call; result 40; answer] b)) <$> [60; 48; 43; 42; 20; 1] =
  [Verbatim; HistoryTurnSelected; HistoryTurnSelected; StepTurnsSelected; StepTurnsSelected; Emergency].
Proof. vm_compute. reflexivity. Qed.

Example tool_rung : rung (fit_turns_for_summarizer [] [call; result 40] 30) = ToolTruncated.
Proof. vm_compute. reflexivity. Qed.

(** The newest turn of a history without steps exceeds the budget: the plan is
    empty, although the same turn as a step is clipped. *)
Example empty_plan_for_history :
  llm_turns (fit_turns_for_summarizer [user_turn; result 40] [] 30) = [] /\
  rung (fit_turns_for_summarizer [user_turn; result 40] [] 30) = HistoryTurnSelected /\
  length (llm_turns (fit_turns_for_summarizer [user_turn] [result 40] 30)) = 1%nat.
Proof. vm_compute. done. Qed.

Lemma clip_within_budget_witness : len (truncate_text_to_token_budget (i_text (result 40)) 20) <= 4 * 20.
Proof.
  destruct (clip_within_budget (i_text (result 40)) 20) as (_ & _ & H); [reflexivity|vm_compute; discriminate|unfold u32_max; lia|].
  destruct H as (kept & rest & _ & _ & _ & _ & H); [vm_compute; reflexivity|]. apply H; [lia|vm_compute; reflexivity].
Defined.

(** Below 16 tokens the marker alone exceeds the budget. *)
Example marker_exceeds_small_budget : len (truncate_text_to_token_budget (i_text (result 40)) 2) = 59.
Proof. vm_compute. reflexivity. Qed.

Lemma gate_agrees_with_gauge_witness :
  exceeds_threshold 85 100 85 = (85 <=? usage_percentage_truncated_u8 85 100).
Proof. apply gate_agrees_with_gauge; [split; [lia|]|..]; unfold u64_max; lia. Defined.

(** Where the product saturates, a window used up by the last token shows as 1 percent. *)
Example gauge_saturates : usage_percentage_truncated_u8 u64_max u64_max = 1 /\ exceeds_threshold u64_max u64_max 100 = true.
Proof. vm_compute. done. Qed.

Example rounded_gauge : usage_percentage_u8 85 200 = 43 /\ usage_percentage_truncated_u8 85 200 = 42 /\ usage_percentage_u8 12700 256000 = 5.
Proof. vm_compute. done. Qed.

Definition policy : IntraCompactionConfig :=
  MkCompactionConfig true ModeStepsOnly 85 3 100 (f64_of_Z 1) None 120 3 3 "intra-v1" SummarizerShared 50 (f64_of_Z 1) 300.

Lemma trigger_exact_witness : should_compact policy 900 1000 3 = Some (MkTrigger 900 1000 90 3).
Proof.
  apply trigger_exact; [cbn; lia|unfold u32_max; lia|unfold u32_max; lia|].
  split; [reflexivity|]. split; [lia|]. split; [right; cbn; lia|]. split; [cbn; lia|reflexivity].
Defined.
End CompactionSample.
