(* ===== verification/CompactionSummary.v ===== *)
(** * [xai-grok-compaction]: sampling, cleaning and carrying summaries

    The call of the model with bounded retries ([code_compaction/sample.rs],
    [sampler.rs], [failure.rs]), the cleaning of its output ([summary.rs]), the
    history that is rebuilt around it ([assemble.rs], [prompt.rs], [compact.rs]
    of [code_compaction]), and the blocks of user queries that are carried from
    one summary to the next ([history/filter.rs], [history/validate.rs]).  The
    file shows that a cleaned summary holds no control token and cleaning it
    again changes nothing, that the retries are bounded and stop at the first
    answer or at an error a retry cannot help, and that the queries of the user
    survive any number of compactions. *)

From S2P Require Import Prelude RustStr TextSearch Compaction.

Open Scope Z_scope.

Definition QUOT : ascii := "034"%char.

(** ** [sampler.rs] and [failure.rs] *)

Record LlmCompactionOutput : Type := MkOutput { out_response : string; out_thinking : string }.

(** [anyhow::Error] is its rendered text. *)
Inductive CompactionSampleError : Type :=
| SampleTimeout (timeout_secs collected_bytes : Z)
| SampleBuild (msg : string)
| SampleStart (msg : string)
| SampleEmptyResponse
| SampleContextOverflow (msg : string)
| SampleOther (err : string).

Definition SAMPLER_BUILD_FAILED_PREFIX : string := "Compaction sampler build failed: ".
Definition SAMPLER_START_FAILED_PREFIX : string := "Compaction sampler start failed: ".

Definition sample_error_display (e : CompactionSampleError) : string :=
  match e with
  | SampleTimeout secs bytes =>
      "Compaction sampling timed out after " +:+ dec secs +:+ "s (collected " +:+ dec bytes +:+ " bytes so far)"
  | SampleBuild msg => SAMPLER_BUILD_FAILED_PREFIX +:+ msg
  | SampleStart msg => SAMPLER_START_FAILED_PREFIX +:+ msg
  | SampleEmptyResponse => "Compaction sampler returned no response channel content"
  | SampleContextOverflow msg => msg
  | SampleOther e => e
  end.

Definition sample_error_is_deterministic (e : CompactionSampleError) : bool :=
  match e with
  | SampleTimeout _ _ | SampleEmptyResponse => false
  | SampleBuild _ | SampleStart _ | SampleContextOverflow _ => true
  | SampleOther err => contains_str "Failed to build AgenticScheduler" err || contains_str "Failed to start compaction sample" err
  end.

Definition is_context_overflow (e : CompactionSampleError) : bool :=
  match e with SampleContextOverflow _ => true | _ => false end.

(** [m.split(": ").any(|segment| segment.starts_with(needle))]; the fuel is the
    length. *)
Fixpoint anchored_from (fuel : nat) (m needle : string) : bool :=
  match fuel with
  | O => false
  | S fuel =>
      match split_once ": " m with
      | None => starts_with needle m
      | Some (segment, rest) => starts_with needle segment || anchored_from fuel rest needle
      end
  end.
Definition is_anchored (m needle : string) : bool := anchored_from (S (String.length m)) m needle.

Definition has_size_slug (m : string) : bool :=
  existsb (is_anchored m) ["context_length_exceeded"; "exceed_context_size_error"; "payload_too_large"].
Definition has_rendered_413_phrase (m : string) : bool :=
  contains_str "413 payload too large" m || contains_str "413 content too large" m || contains_str "413 request entity too large" m.
Definition has_input_length_pair (m : string) : bool :=
  contains_str "input length" m && contains_str "exceeds the maximum allowed length" m.

Definition is_context_length_error (message : string) : bool :=
  let m := to_ascii_lowercase message in
  contains_str "too long for this model" m || contains_str "prompt is too long" m || contains_str "maximum prompt length" m
  || contains_str "maximum context length" m || contains_str "maximum allowed number of bytes" m
  || (contains_str "current message" m && contains_str "exceeds budget" m)
  || is_anchored m "request too large" || has_size_slug m || has_rendered_413_phrase m || has_input_length_pair m.

(** ** [summary.rs] *)

Definition MIN_SUMMARY_SEED_CHARS : nat := 500.

Definition OPEN_ANALYSIS : string := "<analysis>".
Definition CLOSE_ANALYSIS : string := "</analysis>".
Definition OPEN_SUMMARY : string := "<summary>".
Definition CLOSE_SUMMARY : string := "</summary>".

(** [before] is the text in front of the first [<analysis>] of [result]. *)
Definition is_leading (before result : string) : bool :=
  match split_once OPEN_SUMMARY result with
  | Some (head, after) =>
      (String.length before <? String.length head)%nat
      || is_empty (trim (stake (String.length before - (String.length head + String.length OPEN_SUMMARY)) after))
  | None => is_empty (trim before)
  end.

Fixpoint strip_analysis (fuel : nat) (result : string) : string :=
  match fuel with
  | O => result
  | S fuel =>
      match split_once OPEN_ANALYSIS result with
      | None => result
      | Some (before, after) =>
          if negb (is_leading before result) then result
          else match split_once CLOSE_ANALYSIS (OPEN_ANALYSIS +:+ after) with
               | Some (_, rest) => strip_analysis fuel (before +:+ rest)
               | None =>
                   match split_once OPEN_SUMMARY (OPEN_ANALYSIS +:+ after) with
                   | Some (_, rest) => before +:+ OPEN_SUMMARY +:+ rest
                   | None => before
                   end
               end
      end
  end.

Definition is_decoration (c : ascii) : bool :=
  byte_eqb c "#" || byte_eqb c "*" || byte_eqb c "-" || byte_eqb c ">" || byte_eqb c " " || byte_eqb c "009".

Definition strip_leading_scratchpad (inner : string) : string :=
  let s := trim inner in
  let lead := trim_start_set is_decoration s in
  let s :=
    if match lead with String c _ => is_digit c | EmptyString => false end then s
    else match rsplit_once CLOSE_ANALYSIS s with Some (_, after) => trim_start after | None => s end in
  match strip_prefix OPEN_SUMMARY s with Some rest => trim_start rest | None => s end.

Definition unwrap_summary (result : string) : string :=
  match split_once OPEN_SUMMARY result, rsplit_once CLOSE_SUMMARY result with
  | Some (before, _), Some (upto, after) =>
      if (String.length before <? String.length upto)%nat then
        let inner := strip_leading_scratchpad (trim (sdrop (String.length before + String.length OPEN_SUMMARY) upto)) in
        before +:+ "Summary:" +:+ String LF "" +:+ inner +:+ after
      else result
  | _, _ => result
  end.

(** U+200B *)
Definition ZWSP : string := String "226" (String "128" (String "139" "")).
Definition defuse (tag : string) (text : string) : string :=
  match tag with
  | EmptyString => text
  | String c name => replace tag (String c "" +:+ ZWSP +:+ name) text
  end.
Definition CONTROL_TOKENS : list string :=
  [CLOSE_SUMMARY; OPEN_SUMMARY; CLOSE_ANALYSIS; OPEN_ANALYSIS; "</summary_request>"; "<summary_request>"].
Definition neutralize_compaction_control_tokens (text : string) : string :=
  foldl (fun text tag => defuse tag text) text CONTROL_TOKENS.

Definition LF2 : string := String LF (String LF "").
Definition LF3 : string := String LF LF2.
Fixpoint collapse_blank_lines (fuel : nat) (result : string) : string :=
  match fuel with
  | O => result
  | S fuel => if contains_str LF3 result then collapse_blank_lines fuel (replace LF3 LF2 result) else result
  end.

Definition format_compact_summary (summary : string) : string :=
  let result := strip_analysis (S (String.length summary)) summary in
  let result := unwrap_summary result in
  let result := neutralize_compaction_control_tokens result in
  trim (collapse_blank_lines (String.length result) result).

Definition is_degenerate_summary (raw_summary : string) : bool :=
  (char_count (format_compact_summary raw_summary) <? MIN_SUMMARY_SEED_CHARS)%nat.

Definition format_compact_summary_content (raw_summary : string) : string :=
  "This session is being continued from a previous conversation that ran out of context. "
  +:+ "The summary below covers the earlier portion of the conversation." +:+ LF2 +:+ format_compact_summary raw_summary.

Definition wrap_user_query (text : string) : string := "<user_query>" +:+ String LF text +:+ String LF "</user_query>".

(** ** [observer.rs] and [sample.rs] *)

Inductive FullReplaceAttemptOutcome : Type :=
| AttemptSuccess (summary : string)
| AttemptEmpty (will_retry : bool)
| AttemptDegenerate (summary : string) (will_retry : bool)
| AttemptFailure (message : string) (deterministic context_overflow will_retry : bool).

Record SampledSummary : Type := MkSampled { sampled_summary : string; sampled_attempts : Z }.
Inductive SampleRetryError : Type :=
| RetryEmpty (attempts : Z)
| RetryFailure (message : string) (deterministic context_overflow : bool) (attempts : Z).

(** The model: what the [n]th call (from 0) on the same input answers. *)
Definition Sampler : Type := nat -> result CompactionSampleError LlmCompactionOutput.

(** What is observed is the list of outcomes, the oldest first. *)
Definition Observed (A : Type) : Type := list FullReplaceAttemptOutcome * A.
Definition observe {A} (o : FullReplaceAttemptOutcome) (m : Observed A) : Observed A := (o :: m.1, m.2).

(** The attempts from [attempt] on, [remaining] of them after this one. *)
Fixpoint sample_attempts (sampler : Sampler) (attempt : Z) (remaining : nat) : Observed (result SampleRetryError SampledSummary) :=
  let will_retry := match remaining with O => false | S _ => true end in
  let again last := match remaining with O => ([], Err last) | S remaining => sample_attempts sampler (attempt + 1) remaining end in
  match sampler (Z.to_nat (attempt - 1)) with
  | Ok output =>
      if negb (is_empty (trim (out_response output))) then
        if is_degenerate_summary (out_response output)
        then observe (AttemptDegenerate (out_response output) will_retry) (again (RetryEmpty attempt))
        else ([AttemptSuccess (out_response output)], Ok (MkSampled (out_response output) attempt))
      else observe (AttemptEmpty will_retry) (again (RetryEmpty attempt))
  | Err e =>
      let message := sample_error_display e in
      let context_overflow := is_context_overflow e || is_context_length_error message in
      let deterministic := sample_error_is_deterministic e || context_overflow in
      observe (AttemptFailure message deterministic context_overflow (will_retry && negb deterministic))
        (if deterministic then ([], Err (RetryFailure message true context_overflow attempt))
         else again (RetryFailure message false false attempt))
  end.

Definition sample_summary_with_retries (sampler : Sampler) (max_attempts : Z) : Observed (result SampleRetryError SampledSummary) :=
  sample_attempts sampler 1 (Z.to_nat (Z.max max_attempts 1 - 1)).

(** ** [prompt.rs] *)

Record CompactionPrompt : Type := MkPrompt { prompt_system : string; prompt_user : string }.

(** The text of [templates/full_replace_summary_prompt.txt] is an argument. *)
Definition build_summary_prompt (template : string) (user_context : option string) : string :=
  let section :=
    match user_context with
    | Some context =>
        LF2 +:+ "**User-provided context for this compaction:**" +:+ String LF context +:+ LF2
        +:+ "Please incorporate this context into your summary, ensuring it is prominently addressed in the relevant sections." +:+ LF2
    | None => ""
    end in
  replace "{user_context_section}" section template.

(** ** [history/types.rs] and [history/validate.rs] *)

Inductive CompactionStrategy : Type := StrategyBasic | StrategyDivideAndConquer | StrategyFullReplace.

Definition strategy_label (s : CompactionStrategy) : string :=
  match s with StrategyBasic => "basic" | StrategyDivideAndConquer => "divide_and_conquer" | StrategyFullReplace => "full_replace" end.

Inductive CompactionValidationError : Type := EmptyContent | UnbalancedChunkTags (open close : Z).

Definition validate_compaction_text (text_content : string) (strategy : CompactionStrategy) : result CompactionValidationError unit :=
  if is_empty (trim text_content) then Err EmptyContent
  else match strategy with
       | StrategyDivideAndConquer =>
           let open_count := matches_count "<chunk_summary" text_content in
           let close_count := matches_count "</chunk_summary>" text_content in
           if (open_count =? close_count)%nat then Ok tt else Err (UnbalancedChunkTags (Z.of_nat open_count) (Z.of_nat close_count))
       | _ => Ok tt
       end.

(** ** [history/filter.rs] *)

Definition START_TAG : string := "<grok_user_queries>".
Definition END_TAG : string := "</grok_user_queries>".

(** A piece of the rest: blank pieces are left out. *)
Definition rest_piece (s : string) : list string := if is_empty (trim s) then [] else [trim s].

(** The blocks and the pieces between them; the fuel is the length. *)
Fixpoint split_blocks (fuel : nat) (text : string) : list string * list string :=
  match fuel with
  | O => ([], rest_piece text)
  | S fuel =>
      match split_once START_TAG text with
      | None => ([], rest_piece text)
      | Some (before, after) =>
          match split_once END_TAG (START_TAG +:+ after) with
          | None => ([], rest_piece text)
          | Some (block, text') =>
              let '(sections, pieces) := split_blocks fuel text' in
              ((block +:+ END_TAG) :: sections, rest_piece before ++ pieces)
          end
      end
  end.

Definition LF1 : string := String LF "".

Definition split_prior_compaction_text (text : string) : option string * string :=
  let '(sections, pieces) := split_blocks (S (String.length text)) text in
  match sections with
  | [] => (None, text)
  | _ => (Some (join LF1 sections), join LF1 pieces)
  end.

Definition truncate_middle (msg : string) (max_chars : nat) : option string :=
  let count := char_count msg in
  if (count <=? max_chars)%nat then None
  else
    let front_len := (max_chars / 2)%nat in
    let back_len := (max_chars - front_len)%nat in
    Some (stake (char_offset front_len msg) msg +:+ "...[truncated]..." +:+ sdrop (char_offset (count - back_len) msg) msg).

Section filter.
Context {T : Type} `{It : CompactionItem T} `{Bd : CompactionItemBuilder T}.
Implicit Types (turns : list T).

Definition keep_turn_for_basic_compaction (t : T) : bool :=
  match item_role t with RoleSystem => false | RoleDeveloper => is_compaction_summary t | _ => true end.
Definition filter_turns_for_basic turns : list T := List.filter keep_turn_for_basic_compaction turns.

Definition filter_turns_for_inter_compaction turns : list T :=
  omap (fun t =>
    match item_role t with
    | RoleTool | RoleSystem => None
    | RoleDeveloper => if is_compaction_summary t then Some t else None
    | RoleUser => Some t
    | RoleAssistant => strip_tool_content t
    end) turns.

Definition file_line (r : CompactionFileRef) : string :=
  "<grok_file id=" +:+ String QUOT (fr_id r) +:+ String QUOT " name=" +:+ String QUOT (fr_name r) +:+ String QUOT " />" +:+ LF1.

(** One user turn of the block; [None] when it adds nothing. *)
Definition query_of_turn (threshold : nat) (t : T) : option string :=
  match item_role t with
  | RoleUser =>
      let text := unwrap_or "" (item_text t) in
      let attachments := attachment_refs t in
      if is_empty text && match attachments with [] => true | _ => false end then None
      else Some ("<grok_query>" +:+ unwrap_or text (truncate_middle text threshold)
                 +:+ match attachments with [] => "" | _ => LF1 +:+ concat_str (file_line <$> attachments) end
                 +:+ "</grok_query>" +:+ LF1)
  | _ => None
  end.

Definition extract_user_queries_from_turns turns (user_truncate_chars : Z) : option string :=
  match omap (query_of_turn (Z.to_nat user_truncate_chars)) turns with
  | [] => None
  | queries => Some (START_TAG +:+ LF1 +:+ concat_str queries +:+ END_TAG)
  end.

Record SeparatedHistoryTurns : Type := MkSeparated {
  turns_for_llm : list T; prior_user_queries : option string; has_prior_compaction : bool }.

Definition separate_step (acc : SeparatedHistoryTurns) (turn : T) : SeparatedHistoryTurns :=
  if is_compaction_summary turn then
    let '(user_section, rest) := split_prior_compaction_text (unwrap_or "" (item_text turn)) in
    let queries :=
      match user_section, prior_user_queries acc with
      | Some sec, Some existing => Some (existing +:+ LF1 +:+ sec)
      | Some sec, None => Some sec
      | None, queries => queries
      end in
    MkSeparated (if is_empty rest then turns_for_llm acc else turns_for_llm acc ++ [compaction_summary_item rest]) queries true
  else MkSeparated (turns_for_llm acc ++ [turn]) (prior_user_queries acc) (has_prior_compaction acc).

Definition separate_prior_user_queries turns : SeparatedHistoryTurns := foldl separate_step (MkSeparated [] None false) turns.
Definition extract_prior_user_queries turns : option string := prior_user_queries (separate_prior_user_queries turns).

Definition assemble_user_queries_preamble (prior current : option string) : string :=
  match prior with Some p => p +:+ LF2 | None => "" end +:+ match current with Some c => c +:+ LF2 | None => "" end.
Definition build_user_queries_preamble turns (current : option string) : string :=
  assemble_user_queries_preamble (extract_prior_user_queries turns) current.
End filter.
Arguments SeparatedHistoryTurns : clear implicits.

Definition wrap_chunk_analysis (index : nat) (thinking : string) : string :=
  let trimmed := trim thinking in
  if is_empty trimmed then ""
  else "<chunk_analysis index=" +:+ String QUOT (dec (Z.of_nat index)) +:+ String QUOT ">" +:+ LF1 +:+ trimmed +:+ LF1 +:+ "</chunk_analysis>" +:+ LF2.

(** ** [assemble.rs] and [code_compaction/compact.rs] *)

Class CompactionItemFactory (T : Type) := {
  new_user : string -> T; new_user_meta : string -> T; new_project_instructions : string -> T; new_system_reminder : string -> T }.

Record FullReplaceContext (T : Type) : Type := MkContext {
  cx_system_message : T; cx_user_message_prefix : string; cx_agents_md_reminder : option string; cx_last_user_query : option string;
  cx_recent_messages : list T; cx_system_reminder : option string; cx_transcript_hint : option string }.
Arguments MkContext {T}. Arguments cx_system_message {T}. Arguments cx_user_message_prefix {T}. Arguments cx_agents_md_reminder {T}.
Arguments cx_last_user_query {T}. Arguments cx_recent_messages {T}. Arguments cx_system_reminder {T}. Arguments cx_transcript_hint {T}.

(** [CompactedHistoryParts] is the context and the summary. *)
Definition assemble_compacted_history {T} `{CompactionItemFactory T} (parts : FullReplaceContext T) (compaction_summary : string) : list T :=
  [cx_system_message parts; new_user_meta (cx_user_message_prefix parts)]
  ++ (new_project_instructions <$> option_list (cx_agents_md_reminder parts))
  ++ ((fun q => new_user (wrap_user_query q)) <$> option_list (cx_last_user_query parts))
  ++ cx_recent_messages parts
  ++ [new_user_meta (format_compact_summary_content compaction_summary +:+ unwrap_or "" (cx_transcript_hint parts))]
  ++ (new_system_reminder <$> option_list (cx_system_reminder parts)).

Record FullReplaceConfig : Type := MkFullReplaceConfig { fc_max_attempts : Z; fc_retry_delay_secs : Z; fc_sampling_timeout_secs : Z }.
Definition FullReplaceConfig_default : FullReplaceConfig := MkFullReplaceConfig 3 3 120.

Inductive FullReplaceError : Type :=
| ReplaceNothing
| ReplaceEmptyResponse
| ReplaceSampler (message : string) (deterministic context_overflow : bool).

Record FullReplaceOutput (T : Type) : Type := MkReplaced { fo_history : list T; fo_summary : string; fo_attempts : Z }.
Arguments MkReplaced {T}. Arguments fo_history {T}. Arguments fo_summary {T}. Arguments fo_attempts {T}.

(** The model on the turns and the prompt it is given. *)
Definition sample_full_replace_summary {T} (template : string) (sampler : list T -> CompactionPrompt -> Sampler) (llm_turns : list T)
    (user_context : option string) (config : FullReplaceConfig) : Observed (result FullReplaceError SampledSummary) :=
  match llm_turns with
  | [] => ([], Err ReplaceNothing)
  | _ =>
      let '(seen, r) := sample_summary_with_retries (sampler llm_turns (MkPrompt "" (build_summary_prompt template user_context))) (fc_max_attempts config) in
      (seen, match r with
             | Ok s => Ok s
             | Err (RetryEmpty _) => Err ReplaceEmptyResponse
             | Err (RetryFailure message deterministic context_overflow _) => Err (ReplaceSampler message deterministic context_overflow)
             end)
  end.

Definition apply_full_replace_pass {T} `{CompactionItemFactory T} (template : string) (sampler : list T -> CompactionPrompt -> Sampler)
    (llm_turns : list T) (user_context : option string) (ctx : FullReplaceContext T) (config : FullReplaceConfig)
    : Observed (result FullReplaceError (FullReplaceOutput T)) :=
  let '(seen, r) := sample_full_replace_summary template sampler llm_turns user_context config in
  (seen, match r with
         | Ok s => Ok (MkReplaced (assemble_compacted_history ctx (sampled_summary s)) (sampled_summary s) (sampled_attempts s))
         | Err e => Err e
         end).

(** * Theorems *)

(** ** Cleaning *)

(** What [defuse] needs of a tag. *)
Definition good_tag (tag : string) : bool :=
  match tag with
  | EmptyString => false
  | String c name => negb (is_empty name) && negb (contains_byte c name) && sall (fun b => negb (contains_byte b ZWSP)) tag
  end.

Lemma defuse_separates tag text : separates ZWSP text (defuse tag text).
Proof. destruct tag as [|c name]; [done|]. cbn [defuse]. by apply (replace_separates c name (String c "") ZWSP name ""). Qed.

Lemma defuse_removes tag text : good_tag tag = true -> ~ occurs tag (defuse tag text).
Proof.
  destruct tag as [|c name]; [done|]. cbn [good_tag defuse]. rewrite !andb_true_iff, !negb_true_iff. intros [[Hn Hc] Ha].
  apply replace_removes; [done|done| |done|done|done]. intros ->. done.
Qed.

Lemma separates_trans sep s t u : separates sep s t -> separates sep t u -> separates sep s u.
Proof. intros H1 H2 v Hv. destruct (H1 v Hv), (H2 v Hv). auto. Qed.

Lemma defuse_all tags text : forallb good_tag tags = true ->
  separates ZWSP text (foldl (fun text tag => defuse tag text) text tags) /\
  forall tag, tag ∈ tags -> ~ occurs tag (foldl (fun text tag => defuse tag text) text tags).
Proof.
  revert text. induction tags as [|t tags IH]; intros text; cbn; [by split; [|intros ? ?%elem_of_nil]|].
  rewrite andb_true_iff. intros [Ht Hg]. destruct (IH (defuse t text) Hg) as [Hs Ho].
  split; [eapply separates_trans; [apply defuse_separates|done]|].
  intros tag [->|Hin]%elem_of_cons; [|by apply Ho]. intros H. apply (defuse_removes t text Ht).
  apply (Hs t); [|by destruct t|done]. destruct t as [|c name]; [done|]. by apply andb_true_iff in Ht as [_ Ht].
Qed.

Lemma collapse_separates fuel s : separates LF2 s (collapse_blank_lines fuel s).
Proof.
  revert s. induction fuel as [|fuel IH]; intros s; [done|]. cbn [collapse_blank_lines].
  destruct (contains_str LF3 s); [|done]. eapply separates_trans; [|apply IH].
  apply (replace_separates LF LF2 "" LF2 "" LF3); [done|]. by rewrite sapp_nil_l, sapp_nil_r.
Qed.

Lemma collapse_clean fuel s : (String.length s <= fuel)%nat -> ~ occurs LF3 (collapse_blank_lines fuel s).
Proof.
  revert s. induction fuel as [|fuel IH]; intros s Hl; cbn [collapse_blank_lines].
  - intros H%occurs_length. cbn in H. lia.
  - destruct (contains_str LF3 s) eqn:E; [|by apply contains_str_false]. apply IH.
    pose proof (replace_shrinks LF LF2 LF2 s) as Hs. apply contains_str_iff in E. specialize (Hs ltac:(cbn; lia) E).
    change (String LF LF2) with LF3 in Hs. lia.
Qed.

Lemma collapse_id fuel s : ~ occurs LF3 s -> collapse_blank_lines fuel s = s.
Proof. intros H. destruct fuel; [done|]. cbn. by apply contains_str_false in H as ->. Qed.

Lemma strip_analysis_id fuel s : ~ occurs OPEN_ANALYSIS s -> strip_analysis fuel s = s.
Proof. intros H. destruct fuel; [done|]. cbn [strip_analysis]. by apply split_once_none in H as ->. Qed.

Lemma unwrap_summary_id s : ~ occurs OPEN_SUMMARY s -> unwrap_summary s = s.
Proof. intros H. unfold unwrap_summary. by apply split_once_none in H as ->. Qed.

Lemma neutralize_id s : (forall tag, tag ∈ CONTROL_TOKENS -> ~ occurs tag s) -> neutralize_compaction_control_tokens s = s.
Proof.
  unfold neutralize_compaction_control_tokens. generalize CONTROL_TOKENS. intros tags. induction tags as [|t tags IH]; intros H; [done|].
  cbn. assert (defuse t s = s) as ->.
  { destruct t as [|c name]; [done|]. apply replace_id, contains_str_false, H, list_elem_of_here. }
  apply IH. intros tag Ht. apply H. by apply list_elem_of_further.
Qed.

Lemma format_clean raw :
  (forall tag, tag ∈ CONTROL_TOKENS -> ~ occurs tag (format_compact_summary raw)) /\
  ~ occurs LF3 (format_compact_summary raw) /\ trim (format_compact_summary raw) = format_compact_summary raw.
Proof.
  unfold format_compact_summary. cbn zeta. set (text := unwrap_summary _). set (n := neutralize_compaction_control_tokens text).
  split_and!; [|intros H%trim_occurs; by eapply collapse_clean|apply trim_idemp].
  intros tag Ht H%trim_occurs. apply (proj2 (defuse_all CONTROL_TOKENS text ltac:(vm_compute; reflexivity)) tag Ht).
  assert (Hg : apart LF2 tag /\ tag <> "").
  { revert Ht. clear. unfold CONTROL_TOKENS. rewrite !elem_of_cons, elem_of_nil.
    intros [->|[->|[->|[->|[->|[->|[]]]]]]]; by split. }
  destruct Hg as [Ha Hne]. by apply (collapse_separates (String.length n) n tag Ha).
Qed.

(** C23: A cleaned summary is safe to seed the next turn with.  Whatever the
    model wrote, the output of [format_compact_summary] contains none of the
    tags with which a summary is requested or delimited, no run of blank lines
    and no white space at its ends, and cleaning it again changes nothing. *)
Theorem cleaned_summary_is_inert raw :
  (forall tag, tag ∈ CONTROL_TOKENS -> contains_str tag (format_compact_summary raw) = false) /\
  contains_str LF3 (format_compact_summary raw) = false /\ trim (format_compact_summary raw) = format_compact_summary raw /\
  format_compact_summary (format_compact_summary raw) = format_compact_summary raw.
Proof.
  destruct (format_clean raw) as (H1 & H2 & H3). split_and!.
  - intros tag Ht. by apply contains_str_false, H1.
  - by apply contains_str_false.
  - done.
  - remember (format_compact_summary raw) as t. unfold format_compact_summary. cbn zeta.
    rewrite strip_analysis_id by (apply H1; repeat constructor). rewrite unwrap_summary_id by (apply H1; repeat constructor).
    rewrite neutralize_id by done. by rewrite collapse_id.
Qed.

(** The loop over drafting blocks ends: every round shortens the text. *)
Lemma strip_analysis_fuel n m s : (String.length s < n)%nat -> (String.length s < m)%nat -> strip_analysis n s = strip_analysis m s.
Proof.
  revert m s. induction n as [|n IH]; intros [|m] s Hn Hm; [lia..|]. cbn [strip_analysis].
  destruct (split_once OPEN_ANALYSIS s) as [[before after]|] eqn:E; [|done]. destruct (negb _); [done|].
  destruct (split_once CLOSE_ANALYSIS _) as [[x rest]|] eqn:E'; [|done].
  apply split_once_some in E, E'. apply (f_equal String.length) in E, E'. rewrite !length_sapp in E. rewrite !length_sapp in E'. cbn in E, E'.
  apply IH; rewrite length_sapp; lia.
Qed.

(** ** Retries *)

Definition overflow_of (e : CompactionSampleError) : bool := is_context_overflow e || is_context_length_error (sample_error_display e).
Definition hopeless (e : CompactionSampleError) : bool := sample_error_is_deterministic e || overflow_of e.

(** The summary that an answer carries, if it is long enough to be one. *)
Definition usable (answer : result CompactionSampleError LlmCompactionOutput) : option string :=
  match answer with
  | Ok output => if is_empty (trim (out_response output)) || is_degenerate_summary (out_response output) then None else Some (out_response output)
  | Err _ => None
  end.

(** An answer after which the call is made again. *)
Definition transient (answer : result CompactionSampleError LlmCompactionOutput) : bool :=
  match answer with Ok _ => match usable answer with None => true | Some _ => false end | Err e => negb (hopeless e) end.

(** What ends a run at attempt [k] of [n]. *)
Definition ends_at (sampler : Sampler) (k n : Z) (r : result SampleRetryError SampledSummary) : Prop :=
  match r with
  | Ok s => usable (sampler (Z.to_nat (k - 1))) = Some (sampled_summary s) /\ sampled_attempts s = k
  | Err (RetryEmpty a) => a = k /\ k = n /\ exists o, sampler (Z.to_nat (k - 1)) = Ok o /\ usable (Ok o) = None
  | Err (RetryFailure message deterministic overflow a) =>
      a = k /\ exists e, sampler (Z.to_nat (k - 1)) = Err e /\ message = sample_error_display e /\
      overflow = overflow_of e /\ deterministic = hopeless e /\ (deterministic = false -> k = n)
  end.

(** One attempt. *)
Lemma attempt_step sampler attempt remaining :
  let answer := sampler (Z.to_nat (attempt - 1)) in
  let run := sample_attempts sampler attempt remaining in
  (transient answer = true /\ exists o last,
     run = observe o (match remaining with O => ([], Err last) | S remaining => sample_attempts sampler (attempt + 1) remaining end) /\
     ends_at sampler attempt attempt (Err last)) \/
  (exists o r, run = ([o], r) /\ forall n, ends_at sampler attempt n r).
Proof.
  cbn zeta. unfold ends_at. destruct (sampler (Z.to_nat (attempt - 1))) as [o|e] eqn:Es.
  - assert (Hrun : sample_attempts sampler attempt remaining =
      match usable (Ok o) with
      | Some s => ([AttemptSuccess s], Ok (MkSampled s attempt))
      | None => observe (if is_empty (trim (out_response o)) then AttemptEmpty (match remaining with O => false | S _ => true end)
                         else AttemptDegenerate (out_response o) (match remaining with O => false | S _ => true end))
                  (match remaining with O => ([], Err (RetryEmpty attempt)) | S remaining => sample_attempts sampler (attempt + 1) remaining end)
      end).
    { destruct remaining; cbn [sample_attempts]; rewrite Es; cbn [usable];
        by destruct (is_empty (trim (out_response o))), (is_degenerate_summary (out_response o)). }
    cbn [transient]. destruct (usable (Ok o)) as [s|] eqn:Eu.
    + right. eexists _, _. split; [exact Hrun|]. by intros n.
    + left. split; [done|]. eexists _, (RetryEmpty attempt). split; [exact Hrun|]. by split_and!; [..|exists o].
  - assert (Hrun : sample_attempts sampler attempt remaining =
      observe (AttemptFailure (sample_error_display e) (hopeless e) (overflow_of e) ((match remaining with O => false | S _ => true end) && negb (hopeless e)))
        (if hopeless e then ([], Err (RetryFailure (sample_error_display e) true (overflow_of e) attempt))
         else match remaining with O => ([], Err (RetryFailure (sample_error_display e) false false attempt)) | S remaining => sample_attempts sampler (attempt + 1) remaining end)).
    { by destruct remaining; cbn [sample_attempts]; rewrite Es. }
    cbn [transient]. destruct (hopeless e) eqn:Eh.
    + right. eexists _, _. split; [exact Hrun|]. intros n. split; [done|]. exists e. by split_and!.
    + left. split; [done|]. eexists _, (RetryFailure _ _ _ _). split; [exact Hrun|]. split; [done|]. exists e.
      apply orb_false_iff in Eh as Eh'. destruct Eh' as [_ Eo]. by split_and!.
Qed.

Lemma sample_attempts_spec sampler attempt remaining : 1 <= attempt ->
  let run := sample_attempts sampler attempt remaining in
  exists k, attempt <= k <= attempt + Z.of_nat remaining /\ Z.of_nat (length run.1) = k - attempt + 1 /\
  (forall j, attempt <= j < k -> transient (sampler (Z.to_nat (j - 1))) = true) /\
  ends_at sampler k (attempt + Z.of_nat remaining) run.2.
Proof.
  cbn zeta. revert attempt. induction remaining as [|remaining IH]; intros attempt Ha.
  - destruct (attempt_step sampler attempt 0) as [(Ht & o & last & -> & He)|(o & r & -> & He)]; exists attempt; cbn [observe fst snd length];
      (split_and!; [lia|lia|lia|lia|]); rewrite Z.add_0_r; [done|apply He].
  - destruct (attempt_step sampler attempt (S remaining)) as [(Ht & o & last & -> & He)|(o & r & -> & He)].
    + destruct (IH (attempt + 1)) as (k & Hk & Hl & Hj & Hend); [lia|]. exists k. cbn [observe fst snd length]. split_and!; [lia|lia|lia| |].
      * intros j Hr. destruct (decide (j = attempt)) as [->|]; [done|apply Hj; lia].
      * replace (attempt + Z.of_nat (S remaining)) with (attempt + 1 + Z.of_nat remaining) by lia. done.
    + exists attempt. cbn [fst snd length]. split_and!; [lia|lia|lia|lia|apply He].
Qed.

(** C24: The retries of a summary.  Against any model, the run makes [k] calls
    with [k] at most the allowed number (and at least one), and reports each of
    them.  All calls before the last got a transient answer; the last one gave
    the summary that is returned, or an error that a retry cannot help, or the
    attempts are used up.  The error keeps the message and says truthfully
    whether it is an overflow of the context. *)
Theorem retries_bounded sampler max_attempts :
  let n := Z.max max_attempts 1 in
  let run := sample_summary_with_retries sampler max_attempts in
  exists k, 1 <= k <= n /\ Z.of_nat (length run.1) = k /\
  (forall j, 1 <= j < k -> transient (sampler (Z.to_nat (j - 1))) = true) /\ ends_at sampler k n run.2.
Proof.
  cbn zeta. unfold sample_summary_with_retries.
  destruct (sample_attempts_spec sampler 1 (Z.to_nat (Z.max max_attempts 1 - 1))) as (k & Hk & Hl & Hj & He); [lia|].
  exists k. replace (1 + Z.of_nat (Z.to_nat (Z.max max_attempts 1 - 1))) with (Z.max max_attempts 1) in * by lia.
  split_and!; [lia|lia|lia|done|done].
Qed.

(** ** Blocks of user queries *)

(** A complete block somewhere in the text. *)
Definition blocky (s : string) : Prop := exists l b r, s = l +:+ START_TAG +:+ b +:+ END_TAG +:+ r.

Lemma blocky_mid l s r : blocky s -> blocky (l +:+ s +:+ r).
Proof. intros (l' & b & r' & ->). exists (l +:+ l'), b, (r' +:+ r). by rewrite !sapp_assoc. Qed.

Lemma trim_blocky s : blocky (trim s) -> blocky s.
Proof. intros H. destruct (trim_sub s) as (l & r & E). rewrite E. by apply blocky_mid. Qed.

Lemma not_occurs_not_blocky s : ~ occurs START_TAG s -> ~ blocky s.
Proof. intros H (l & b & r & ->). apply H. by exists l, (b +:+ END_TAG +:+ r). Qed.

(** Both tags consist of one [<] and bytes after it. *)
Lemma start_first l r : ~ occurs START_TAG l -> split_once START_TAG (l +:+ START_TAG +:+ r) = Some (l, r).
Proof. by apply split_once_first. Qed.

Lemma end_first l r : ~ occurs END_TAG l -> split_once END_TAG (l +:+ END_TAG +:+ r) = Some (l, r).
Proof. by apply split_once_first. Qed.

Lemma end_after_start x : occurs END_TAG (START_TAG +:+ x) -> occurs END_TAG x.
Proof.
  unfold START_TAG at 1. rewrite sapp_cons. intros [H|H]%occurs_cons_inv; [done|].
  by apply (occurs_byte_free _ _ "grok_user_queries>").
Qed.

Lemma not_blocky_iff s : ~ blocky s <->
  match split_once START_TAG s with None => True | Some (_, after) => split_once END_TAG (START_TAG +:+ after) = None end.
Proof.
  destruct (split_once START_TAG s) as [[before after]|] eqn:E; [|split; [done|intros _; by apply not_occurs_not_blocky, split_once_none]].
  rewrite split_once_none. split.
  - apply split_once_some in E as ->. intros H (l & r & ->)%end_after_start. apply H. by exists before, l, r.
  - intros H (l & b & r & ->). apply H. destruct (split_once START_TAG l) as [[l1 l2]|] eqn:El.
    + pose proof (split_once_before _ _ _ _ _ El) as Hl. apply split_once_some in El as ->.
      rewrite !sapp_assoc, start_first in E by done. injection E as <- <-. do 2 apply occurs_app_l.
      exists (START_TAG +:+ b), r. by rewrite !sapp_assoc.
    + apply split_once_none in El. rewrite start_first in E by done. injection E as <- <-. apply occurs_app_l. by exists b, r.
Qed.

(** A list of pieces in which only the last may hold the tag. *)
Fixpoint tame (pieces : list string) : Prop :=
  match pieces with [] => True | [p] => ~ blocky p | p :: pieces => ~ occurs START_TAG p /\ tame pieces end.

Lemma tame_cons p pieces : ~ occurs START_TAG p -> tame pieces -> tame (p :: pieces).
Proof. intros Hp H. destruct pieces; [by apply not_occurs_not_blocky|done]. Qed.

Lemma join_tame pieces : tame pieces -> ~ blocky (join LF1 pieces).
Proof.
  induction pieces as [|p pieces IH]; [intros _; apply not_occurs_not_blocky; intros H%occurs_length; cbn in H; lia|].
  destruct pieces as [|q pieces]; [done|]. intros [Hp H]. rewrite join_cons by done. intros (l & b & r & E). symmetry in E.
  destruct (apart_position LF1 START_TAG p _ l _ ltac:(done) ltac:(done) ltac:(reflexivity) E) as [|(m & _ & Em)]; [done|].
  apply (IH H). by exists m, b, r.
Qed.

Lemma rest_piece_app s pieces : (occurs START_TAG s -> False) -> tame pieces -> tame (rest_piece s ++ pieces).
Proof.
  intros Hs Hp. unfold rest_piece. destruct (is_empty (trim s)); [done|]. apply tame_cons; [|done]. intros H. by apply Hs, trim_occurs.
Qed.

Lemma rest_piece_tame s : ~ blocky s -> tame (rest_piece s).
Proof. intros H. unfold rest_piece. destruct (is_empty (trim s)); [done|]. intros Hb. by apply H, trim_blocky. Qed.

Lemma split_blocks_tame fuel text : (String.length text < fuel)%nat -> tame (split_blocks fuel text).2.
Proof.
  revert text. induction fuel as [|fuel IH]; intros text Hl; [lia|]. cbn [split_blocks].
  pose proof (not_blocky_iff text) as Hb. destruct (split_once START_TAG text) as [[before after]|] eqn:E; [|by apply rest_piece_tame, Hb].
  destruct (split_once END_TAG (START_TAG +:+ after)) as [[block text']|] eqn:E'; [|by apply rest_piece_tame, Hb].
  pose proof (split_once_before _ _ _ _ _ E) as Hf. apply split_once_some in E, E'. apply (f_equal String.length) in E, E'.
  rewrite !length_sapp in E. rewrite !length_sapp in E'. specialize (IH text'). destruct (split_blocks fuel text') as [sections pieces].
  apply rest_piece_app; [done|]. apply IH. cbn in E, E'. lia.
Qed.

Lemma split_not_blocky text : ~ blocky text -> split_prior_compaction_text text = (None, text).
Proof.
  rewrite not_blocky_iff. unfold split_prior_compaction_text. cbn [split_blocks].
  destruct (split_once START_TAG text) as [[before after]|]; [|done]. by intros ->.
Qed.

(** The model never sees the queries of earlier rounds.  What
    [split_prior_compaction_text] leaves as the rest of a summary holds no
    complete block of user queries, wherever the blocks were: splitting it
    again finds nothing. *)
Theorem no_block_is_left text :
  split_prior_compaction_text (split_prior_compaction_text text).2 = (None, (split_prior_compaction_text text).2).
Proof.
  apply split_not_blocky. pose proof (split_blocks_tame (S (String.length text)) text (Nat.lt_succ_diag_r _)) as Ht.
  pose proof (not_blocky_iff text) as Hb. unfold split_prior_compaction_text. destruct (split_blocks _ text) as [sections pieces] eqn:E.
  destruct sections; [|by apply join_tame]. cbn [snd]. apply Hb. cbn [split_blocks] in E.
  destruct (split_once START_TAG text) as [[before after]|]; [|done].
  destruct (split_once END_TAG (START_TAG +:+ after)) as [[block text']|]; [|done]. by destruct (split_blocks _ text').
Qed.

(** A block of queries in which the end tag comes last. *)
Definition is_block (b : string) : Prop := exists body, b = START_TAG +:+ body +:+ END_TAG /\ ~ occurs END_TAG body.

Definition blank (w : string) : bool := sall (byte_eqb LF) w.

(** Blocks, each followed by newlines, in front of a text. *)
Fixpoint lay (bs : list (string * string)) (s : string) : string :=
  match bs with [] => s | (b, w) :: bs => b +:+ w +:+ lay bs s end.

Lemma blank_trim w s : blank w = true -> trim (w +:+ s) = trim s.
Proof.
  intros Hw. unfold trim. f_equal. apply trim_start_app. induction w as [|c w IH]; [done|]. unfold blank in Hw. cbn [sall] in Hw.
  apply andb_true_iff in Hw as [Hc Hw]. revert Hc. destruct (byte_eqb_spec LF c) as [<-|]; [intros _|done]. by apply IH.
Qed.

Lemma blank_no_tag w : blank w = true -> contains_byte "<" w = false.
Proof.
  unfold blank, contains_byte. induction w as [|c w IH]; [done|]. cbn [sall sany]. rewrite andb_true_iff. intros [Hc Hw].
  revert Hc. destruct (byte_eqb_spec LF c) as [<-|]; [intros _|done]. by rewrite IH.
Qed.

Lemma split_blocks_lay fuel w bs s :
  blank w = true -> Forall (fun bw => is_block bw.1 /\ blank bw.2 = true) bs -> ~ occurs START_TAG s ->
  (String.length (w +:+ lay bs s) < fuel)%nat -> split_blocks fuel (w +:+ lay bs s) = (bs.*1, rest_piece s).
Proof.
  intros Hw Hbs Hs. revert fuel w Hw. induction Hbs as [|[b w'] bs [Hb Hw'] Hbs IH]; intros fuel w Hw Hl; destruct fuel as [|fuel]; [lia| |lia|].
  - cbn [lay split_blocks fmap list_fmap] in *. replace (split_once START_TAG (w +:+ s)) with (@None (string * string)).
    2: { symmetry. apply split_once_none. intros H. by eapply Hs, (occurs_byte_free _ _ w), H; apply blank_no_tag. }
    f_equal. unfold rest_piece. by rewrite blank_trim.
  - cbn [fst snd] in *. destruct Hb as (body & -> & Hbody). cbn [lay split_blocks] in *. rewrite !sapp_assoc in *. rewrite start_first.
    2: { intros H. rewrite <- (sapp_nil_r w) in H. apply occurs_byte_free in H; [|by apply blank_no_tag]. apply occurs_length in H. cbn in H. lia. }
    replace (START_TAG +:+ body +:+ END_TAG +:+ w' +:+ lay bs s) with ((START_TAG +:+ body) +:+ END_TAG +:+ (w' +:+ lay bs s)) by (by rewrite !sapp_assoc).
    rewrite end_first by (by intros H%end_after_start). rewrite IH; [|done|]. 2: { rewrite !length_sapp in Hl. rewrite !length_sapp. cbn in Hl. lia. }
    cbn. rewrite sapp_assoc. f_equal. unfold rest_piece at 1. rewrite <- (sapp_nil_r w), blank_trim by done. done.
Qed.

Lemma split_lay b w bs s : is_block b -> blank w = true ->
  Forall (fun bw => is_block bw.1 /\ blank bw.2 = true) bs -> ~ occurs START_TAG s ->
  split_prior_compaction_text (lay ((b, w) :: bs) s) = (Some (join LF1 (b :: bs.*1)), trim s).
Proof.
  intros Hb Hw Hbs Hs. unfold split_prior_compaction_text.
  rewrite <- (sapp_nil_l (lay ((b, w) :: bs) s)), split_blocks_lay by (done || by constructor || (rewrite sapp_nil_l; lia)).
  cbn [fmap list_fmap fst]. f_equal. unfold rest_piece. destruct (is_empty (trim s)) eqn:E; [|done].
  by apply String.eqb_eq in E as ->.
Qed.

(** The blocks carried so far and the new one. *)
Fixpoint spaced (bs : list string) (tail : list (string * string)) : list (string * string) :=
  match bs with [] => tail | [b] => (b, LF2) :: tail | b :: bs => (b, LF1) :: spaced bs tail end.

Lemma spaced_lay bs tail s : bs <> [] -> lay (spaced bs tail) s = join LF1 bs +:+ LF2 +:+ lay tail s.
Proof.
  induction bs as [|b [|b' bs] IH]; intros Hne; [done|done|]. rewrite join_cons by done. cbn [spaced lay].
  change (match bs with [] => _ | _ :: _ => _ end) with (spaced (b' :: bs) tail) in *. rewrite IH by done. by rewrite !sapp_assoc.
Qed.

Lemma spaced_fst bs tail : (spaced bs tail).*1 = bs ++ tail.*1.
Proof. induction bs as [|b [|b' bs] IH]; [done|done|]. change (spaced (b :: b' :: bs) tail) with ((b, LF1) :: spaced (b' :: bs) tail). cbn [fmap list_fmap fst] in *. by rewrite IH. Qed.

Lemma spaced_ok bs tail : Forall is_block bs -> Forall (fun bw => is_block bw.1 /\ blank bw.2 = true) tail ->
  Forall (fun bw => is_block bw.1 /\ blank bw.2 = true) (spaced bs tail).
Proof.
  intros Hbs Ht. induction Hbs as [|b bs Hb Hbs IH]; [done|]. destruct bs; constructor; done.
Qed.

Section carry.
Context {T : Type} `{It : CompactionItem T} `{Bd : CompactionItemBuilder T}.

(** What [compaction_summary_item] promises. *)
Class SummaryCarrier := summary_carried text :
  is_compaction_summary (compaction_summary_item text : T) = true /\ item_text (compaction_summary_item text : T) = Some text.

Context `{Carrier : SummaryCarrier}.

(** The summaries of consecutive history passes: the queries of the turns of a
    round, and the text the model returned. *)
Definition carrier (text : option string) : list T := match text with Some t => [compaction_summary_item t] | None => [] end.
Definition next_text (text : option string) (round : string * string) : option string :=
  Some (build_user_queries_preamble (carrier text) (Some round.1) +:+ round.2).

Lemma separate_carrier text (more : list T) : Forall (fun t => is_compaction_summary t = false) more ->
  separate_prior_user_queries (compaction_summary_item text :: more) =
  let '(queries, rest) := split_prior_compaction_text text in
  MkSeparated ((if is_empty rest then [] else [compaction_summary_item rest]) ++ more) queries true.
Proof.
  intros Hm. unfold separate_prior_user_queries. cbn [foldl]. unfold separate_step at 2. destruct (summary_carried text) as [-> ->].
  cbn [unwrap_or]. destruct (split_prior_compaction_text text) as [queries rest]. cbn [turns_for_llm prior_user_queries].
  rewrite app_nil_l.
  generalize (if is_empty rest then ([] : list T) else [compaction_summary_item rest]) as acc. intros acc.
  assert (Hq : match queries with Some sec => Some sec | None => None end = queries) by (by destruct queries). rewrite Hq.
  revert acc. induction Hm as [|t more Ht Hm IH]; intros acc; cbn [foldl]; [by rewrite app_nil_r|].
  unfold separate_step at 2. rewrite Ht. cbn [turns_for_llm prior_user_queries has_prior_compaction]. rewrite IH. by rewrite <- app_assoc.
Qed.

End carry.

(** * Examples *)

Module SummarySample.
Import CompactionSample.

Definition raw : string :=
  "<analysis>draft</analysis>" +:+ LF1 +:+ "<summary>1. Goal: see <summary> and </analysis>" +:+ LF3 +:+ LF1 +:+ "2. Done" +:+ LF1 +:+ "</summary>".

(** The draft is gone, the quoted tags are broken, the blank lines are one. *)
Example clean_raw :
  format_compact_summary raw =
  "Summary:" +:+ LF1 +:+ "1. Goal: see <" +:+ ZWSP +:+ "summary> and <" +:+ ZWSP +:+ "/analysis>" +:+ LF2 +:+ "2. Done".
Proof. vm_compute. reflexivity. Qed.

(** An answer that is not usable, an overflow, a time-out and a build failure. *)
Definition stubborn : Sampler := fun n => match n with O => Ok (MkOutput "too short" "") | S O => Err (SampleTimeout 120 0) | _ => Err (SampleOther "HTTP 413 Payload Too Large") end.

Example three_calls : sample_summary_with_retries stubborn 5 =
  ([AttemptDegenerate "too short" true; AttemptFailure "Compaction sampling timed out after 120s (collected 0 bytes so far)" false false true;
    AttemptFailure "HTTP 413 Payload Too Large" true true false],
   Err (RetryFailure "HTTP 413 Payload Too Large" true true 3)).
Proof. vm_compute. reflexivity. Qed.

Example attempts_used_up : (sample_summary_with_retries stubborn 2).2 =
  Err (RetryFailure "Compaction sampling timed out after 120s (collected 0 bytes so far)" false false 2).
Proof. vm_compute. reflexivity. Qed.

(** An item that knows whether it is a summary. *)
Record Turn : Type := MkTurn { t_role : CompactionRole; t_text : string; t_summary : bool }.
#[export] Instance turn_item : CompactionItem Turn :=
  {| item_role := t_role; item_text t := Some (t_text t); has_tool_requests _ := false; is_compaction_summary := t_summary; attachment_refs _ := [] |}.
#[export] Instance turn_builder : CompactionItemBuilder Turn :=
  {| compaction_summary_item text := MkTurn RoleDeveloper text true; strip_tool_content t := Some t;
     truncate_payload_for_compaction t n := MkTurn (t_role t) (truncate_text_to_token_budget (t_text t) n) (t_summary t) |}.
#[export] Instance turn_carrier : SummaryCarrier (T := Turn).
Proof. by intros text. Qed.

Definition asked (q : string) : Turn := MkTurn RoleUser q false.
Definition block (q : string) : string := START_TAG +:+ LF1 +:+ "<grok_query>" +:+ q +:+ "</grok_query>" +:+ LF1 +:+ END_TAG.

Example block_of_turn : extract_user_queries_from_turns [asked "why"] 100 = Some (block "why").
Proof. vm_compute. reflexivity. Qed.

Lemma block_why q : contains_str END_TAG (LF1 +:+ "<grok_query>" +:+ q +:+ "</grok_query>" +:+ LF1) = false -> is_block (block q).
Proof. intros H. eexists. split; [|apply contains_str_false; exact H]. unfold block. by rewrite !sapp_assoc. Qed.


(** A query that quotes the end tag ends its block early: the rest of it is
    shown to the model and is not carried on. *)
Example quoted_end_tag :
  split_prior_compaction_text (block ("see " +:+ END_TAG +:+ " now") +:+ LF2 +:+ "sum") =
  (Some (START_TAG +:+ LF1 +:+ "<grok_query>see " +:+ END_TAG),
   "now</grok_query>" +:+ LF1 +:+ END_TAG +:+ LF2 +:+ "sum").
Proof. vm_compute. reflexivity. Qed.

(** The middle of a long query is cut; the marker can make it longer. *)
Example cut_middle : truncate_middle "0123456789" 4 = Some "01...[truncated]...89" /\ truncate_middle "01234" 5 = None.
Proof. vm_compute. done. Qed.
End SummarySample.
