(* ===== verification/Reminder.v ===== *)
(** * [xai-grok-compaction/src/reminder.rs]

    The reminder of what is still running that is appended to a summary: the
    sections for background tasks, workflows, todos and subagents.  The file
    shows when there is a reminder, and that the identifier of everything that
    runs is in it word for word. *)

From S2P Require Import Prelude RustStr TextSearch CompactionSummary.

Open Scope Z_scope.

Record SubagentToolNames : Type := MkToolNames { tn_poll : string; tn_cancel : string }.

Inductive TodoStatus : Type := TodoPending | TodoInProgress | TodoCompleted | TodoCancelled.
Definition is_actionable (s : TodoStatus) : bool := match s with TodoPending | TodoInProgress => true | _ => false end.
Definition todo_tag (s : TodoStatus) : string :=
  match s with TodoPending => "[pending]" | TodoInProgress => "[in_progress]" | TodoCompleted => "[completed]" | TodoCancelled => "[cancelled]" end.
Record TodoItem : Type := MkTodo { td_id : string; td_content : string; td_status : TodoStatus }.

Record BackgroundTask : Type := MkTask { bt_task_id : string; bt_command : string; bt_status : string; bt_tool_name : option string }.
Record RunningSubagent : Type := MkSubagent {
  sa_subagent_id : string; sa_subagent_type : option string; sa_description : option string; sa_elapsed_secs : Z }.
Record ScheduledLoop : Type := MkLoop {
  sl_task_id : string; sl_interval : string; sl_next_fire_at : string; sl_prompt : string; sl_recurring : bool; sl_durable : bool }.
Record WorkflowRun : Type := MkRun {
  wr_name : string; wr_run_id : string; wr_status : string; wr_objective : option string; wr_current_phase : option string;
  wr_agents_used : Z; wr_agent_budget : option Z; wr_elapsed_secs : Z }.

Record ActiveAgentReminderState : Type := MkActive {
  running_commands : list BackgroundTask; todos : list TodoItem; running_subagents : list RunningSubagent;
  scheduled_loops : list ScheduledLoop; workflows : list WorkflowRun; workflow_tool : option string }.

Definition no_items {A} (l : list A) : bool := match l with [] => true | _ => false end.
Definition has_actionable_todos (s : ActiveAgentReminderState) : bool := existsb (fun t => is_actionable (td_status t)) (todos s).
Definition reminder_state_is_empty (s : ActiveAgentReminderState) : bool :=
  no_items (running_commands s) && no_items (running_subagents s) && no_items (scheduled_loops s) && no_items (workflows s)
  && negb (has_actionable_todos s).

Definition collapsed_ws (s : string) : string := join " " (split_whitespace s).

(** [- "id": `text` (] *)
Definition line_head (id text : string) : string := "- " +:+ String QUOT id +:+ String QUOT ": `" +:+ text +:+ "` (".

Definition format_background_task_line (t : BackgroundTask) : string :=
  line_head (bt_task_id t) (bt_command t) +:+ bt_status t +:+ match bt_tool_name t with Some tool => ", " +:+ tool | None => "" end +:+ ")".

Definition format_scheduled_loop_line (l : ScheduledLoop) : string :=
  line_head (sl_task_id l) (collapsed_ws (sl_prompt l))
  +:+ (if sl_recurring l then "scheduler runs " +:+ sl_interval l else "scheduler one-shot") +:+ ", next " +:+ sl_next_fire_at l +:+ ")".

Definition format_subagent_line (s : RunningSubagent) : string :=
  line_head (sa_subagent_id s) (collapsed_ws (unwrap_or (unwrap_or "subagent" (sa_subagent_type s)) (sa_description s)))
  +:+ "running for " +:+ dec (sa_elapsed_secs s) +:+ "s, " +:+ unwrap_or "subagent" (sa_subagent_type s) +:+ ")".

Definition section_running_background (s : ActiveAgentReminderState) : option string :=
  match (format_background_task_line <$> running_commands s) ++ (format_scheduled_loop_line <$> scheduled_loops s) with
  | [] => None
  | lines => Some ("## Running Background Tasks" +:+ LF1 +:+ "These tasks are still running:" +:+ LF1 +:+ join LF1 lines)
  end.

Definition section_todo_list (l : list TodoItem) : option string :=
  match (fun t => "- " +:+ todo_tag (td_status t) +:+ " " +:+ td_id t +:+ ": " +:+ td_content t) <$> List.filter (fun t => is_actionable (td_status t)) l with
  | [] => None
  | active =>
      let completed := length (List.filter (fun t => match td_status t with TodoCompleted => true | _ => false end) l) in
      let cancelled := length (List.filter (fun t => match td_status t with TodoCancelled => true | _ => false end) l) in
      let trailer :=
        match completed, cancelled with
        | O, O => ""
        | c, O => LF1 +:+ "(" +:+ dec (Z.of_nat c) +:+ " completed)"
        | O, k => LF1 +:+ "(" +:+ dec (Z.of_nat k) +:+ " cancelled)"
        | c, k => LF1 +:+ "(" +:+ dec (Z.of_nat c) +:+ " completed, " +:+ dec (Z.of_nat k) +:+ " cancelled)"
        end in
      Some ("## TODO List" +:+ LF1
            +:+ "This is your task list from before the conversation was compacted — it is still active. "
            +:+ "Keep working through the items below and update their status as you make progress:" +:+ LF1
            +:+ join LF1 active +:+ trailer)
  end.

Definition section_running_subagents (l : list RunningSubagent) (tools : SubagentToolNames) : option string :=
  match l with
  | [] => None
  | _ => Some ("## Running Subagents" +:+ LF1
               +:+ "These subagents were launched before this compaction and are still running. "
               +:+ "Use `" +:+ tn_poll tools +:+ "` with the subagent_id to check their status or retrieve results. "
               +:+ "Use `" +:+ tn_cancel tools +:+ "` with the subagent_id to cancel a subagent." +:+ LF1
               +:+ join LF1 (format_subagent_line <$> l))
  end.

Definition format_workflow_line (run : WorkflowRun) : string :=
  let head :=
    "- Workflow '" +:+ wr_name run +:+ "' (run id `" +:+ wr_run_id run +:+ "`) — status: " +:+ wr_status run
    +:+ match wr_current_phase run with Some phase => ", phase: " +:+ phase | None => "" end
    +:+ " (running for " +:+ dec (wr_elapsed_secs run) +:+ "s)" in
  let objective := match wr_objective run with Some o => if is_empty o then [] else ["  Objective: " +:+ collapsed_ws o] | None => [] end in
  let agents :=
    match wr_agent_budget run with
    | Some budget => ["  Agents: " +:+ dec (wr_agents_used run) +:+ " of " +:+ dec budget +:+ " budget"]
    | None => if 0 <? wr_agents_used run then ["  Agents: " +:+ dec (wr_agents_used run)] else []
    end in
  join LF1 (head :: objective ++ agents).

Definition section_workflows (l : list WorkflowRun) (tool : option string) : option string :=
  match l with
  | [] => None
  | _ =>
      let hint :=
        match tool with
        | Some tool => "  Use `" +:+ tool +:+ "` to inspect or resume a paused run. Keep run ids internal."
        | None => "  Keep workflow run ids internal — the user knows runs by display name."
        end in
      Some ("## Running Workflows" +:+ LF1 +:+ "These workflows are currently running:" +:+ LF1
            +:+ join LF1 ((format_workflow_line <$> l) ++ [hint]))
  end.

Definition format_active_agent_sections (s : ActiveAgentReminderState) (tools : option SubagentToolNames) : list string :=
  option_list (section_running_background s) ++ option_list (section_workflows (workflows s) (workflow_tool s))
  ++ option_list (section_todo_list (todos s))
  ++ match tools with Some tools => option_list (section_running_subagents (running_subagents s) tools) | None => [] end.

Definition wrap_system_reminder (sections : list string) : option string :=
  match List.filter (fun s => negb (is_empty (trim s))) sections with
  | [] => None
  | body => Some ("<system-reminder>" +:+ LF1 +:+ join LF2 body +:+ LF1 +:+ "</system-reminder>")
  end.

Definition format_active_agent_reminder (s : ActiveAgentReminderState) (tools : option SubagentToolNames) : option string :=
  wrap_system_reminder (format_active_agent_sections s tools).

(** * Theorems *)

Lemma join_occurs sep x l : x ∈ l -> occurs x (join sep l).
Proof.
  induction l as [|y l IH]; [by intros ?%elem_of_nil|]. intros [->|H]%elem_of_cons.
  - destruct l; [by exists "", ""; rewrite sapp_nil_r|]. rewrite join_cons by done. by exists "", (sep +:+ join sep (s :: l)).
  - destruct l as [|z l]; [by apply elem_of_nil in H|]. rewrite join_cons by done. by apply occurs_app_l, occurs_app_l, IH.
Qed.

Lemma occurs_refl x : occurs x x.
Proof. exists "", "". by rewrite sapp_nil_r. Qed.

Lemma occurs_trans x y z : occurs x y -> occurs y z -> occurs x z.
Proof. intros (l & r & ->) (l' & r' & ->). apply occurs_mid. by exists l, r. Qed.

Lemma line_head_id id text : occurs id (line_head id text).
Proof. unfold line_head. apply occurs_app_l. rewrite sapp_cons. apply occurs_cons, occurs_app_r, occurs_refl. Qed.

Lemma line_head_occurs id text rest : occurs id (line_head id text +:+ rest).
Proof. apply occurs_app_r, line_head_id. Qed.

(** Every section starts with a heading, so none is blank. *)
Lemma heading_not_blank s : trim (String "#" s) <> "".
Proof. by apply trim_plain_head. Qed.

Lemma wrap_names x sec sections : occurs x sec -> trim sec <> "" -> sec ∈ sections ->
  exists r, wrap_system_reminder sections = Some r /\ occurs x r.
Proof.
  intros Hx Hne Hin. unfold wrap_system_reminder.
  assert (Hf : sec ∈ List.filter (fun s => negb (is_empty (trim s))) sections).
  { apply list_elem_of_In, filter_In. split; [by apply list_elem_of_In|]. apply negb_true_iff, String.eqb_neq. done. }
  destruct (List.filter _ sections) as [|y body] eqn:E; [by apply elem_of_nil in Hf|]. eexists. split; [reflexivity|].
  do 2 apply occurs_app_l. apply occurs_app_r. eapply occurs_trans; [exact Hx|by apply join_occurs].
Qed.

Lemma background_named x (s : ActiveAgentReminderState) line :
  line ∈ (format_background_task_line <$> running_commands s) ++ (format_scheduled_loop_line <$> scheduled_loops s) -> occurs x line ->
  exists sec, section_running_background s = Some sec /\ occurs x sec /\ trim sec <> "".
Proof.
  intros Hl Hx. unfold section_running_background. destruct (_ ++ _) as [|y lines]; [by apply elem_of_nil in Hl|].
  eexists. split_and!; [reflexivity| |by apply heading_not_blank]. do 4 apply occurs_app_l.
  eapply occurs_trans; [exact Hx|by apply join_occurs].
Qed.

Lemma workflow_named run l tool : run ∈ l -> exists sec, section_workflows l tool = Some sec /\ occurs (wr_run_id run) sec /\ trim sec <> "".
Proof.
  intros Hr. unfold section_workflows. destruct l as [|r0 l]; [by apply elem_of_nil in Hr|]. eexists.
  split_and!; [reflexivity| |by apply heading_not_blank]. do 4 apply occurs_app_l.
  eapply occurs_trans; [|apply join_occurs, elem_of_app; left; apply list_elem_of_fmap; by exists run].
  unfold format_workflow_line. eapply occurs_trans; [|apply join_occurs, list_elem_of_here]. do 3 apply occurs_app_l. apply occurs_app_r, occurs_refl.
Qed.

Lemma todo_named t l : t ∈ l -> is_actionable (td_status t) = true ->
  exists sec, section_todo_list l = Some sec /\ occurs (td_id t +:+ ": " +:+ td_content t) sec /\ trim sec <> "".
Proof.
  intros Ht Ha. unfold section_todo_list. set (line := fun t : TodoItem => _).
  assert (Hin : line t ∈ line <$> List.filter (fun t => is_actionable (td_status t)) l).
  { apply list_elem_of_fmap. exists t. split; [done|]. apply list_elem_of_In, filter_In. by rewrite <- list_elem_of_In. }
  destruct (line <$> _) as [|y active]; [by apply elem_of_nil in Hin|]. eexists. split_and!; [reflexivity| |by apply heading_not_blank].
  do 5 apply occurs_app_l. apply occurs_app_r. eapply occurs_trans; [|by apply join_occurs]. unfold line. do 3 apply occurs_app_l. apply occurs_refl.
Qed.

Lemma subagent_named a l tools : a ∈ l ->
  exists sec, section_running_subagents l tools = Some sec /\ occurs (sa_subagent_id a) sec /\ trim sec <> "".
Proof.
  intros Ha. unfold section_running_subagents. destruct l as [|a0 l]; [by apply elem_of_nil in Ha|]. eexists.
  split_and!; [reflexivity| |by apply heading_not_blank]. do 10 apply occurs_app_l.
  eapply occurs_trans; [apply line_head_occurs|]. apply join_occurs, list_elem_of_fmap. by exists a.
Qed.

(** ** What the reminder names *)

(** Something that the reminder has to name. *)
Definition names (s : ActiveAgentReminderState) (x : string) : Prop :=
  (exists t, t ∈ running_commands s /\ x = bt_task_id t) \/ (exists l, l ∈ scheduled_loops s /\ x = sl_task_id l) \/
  (exists r, r ∈ workflows s /\ x = wr_run_id r) \/
  (exists t, t ∈ todos s /\ is_actionable (td_status t) = true /\ x = td_id t +:+ ": " +:+ td_content t) \/
  (exists a, a ∈ running_subagents s /\ x = sa_subagent_id a).

Lemma reminder_names s tools x : names s x -> exists r, format_active_agent_reminder s (Some tools) = Some r /\ occurs x r.
Proof.
  intros H. unfold format_active_agent_reminder, format_active_agent_sections.
  assert (Hsec : exists sec, occurs x sec /\ trim sec <> "" /\
    (section_running_background s = Some sec \/ section_workflows (workflows s) (workflow_tool s) = Some sec \/
     section_todo_list (todos s) = Some sec \/ section_running_subagents (running_subagents s) tools = Some sec)).
  { destruct H as [(t & Ht & ->)|[(l & Hl & ->)|[(r & Hr & ->)|[(t & Ht & Ha & ->)|(a & Ha & ->)]]]].
    - edestruct (background_named (bt_task_id t) s) as (sec & E & Ho & Hn);
        [apply elem_of_app; left; apply list_elem_of_fmap; by exists t|apply line_head_occurs|]. exists sec. split_and!; auto.
    - edestruct (background_named (sl_task_id l) s) as (sec & E & Ho & Hn);
        [apply elem_of_app; right; apply list_elem_of_fmap; by exists l|apply line_head_occurs|]. exists sec. split_and!; auto.
    - destruct (workflow_named r (workflows s) (workflow_tool s) Hr) as (sec & E & Ho & Hn). exists sec. split_and!; auto.
    - destruct (todo_named t (todos s) Ht Ha) as (sec & E & Ho & Hn). exists sec. split_and!; auto.
    - destruct (subagent_named a (running_subagents s) tools Ha) as (sec & E & Ho & Hn). exists sec. split_and!; auto 10. }
  destruct Hsec as (sec & Ho & Hn & E). apply (wrap_names x sec); [done|done|]. rewrite !elem_of_app.
  destruct E as [->|[->|[->| ->]]]; cbn; rewrite list_elem_of_singleton; auto 10.
Qed.

Lemma no_items_in {A} (l : list A) : no_items l = false -> exists a, a ∈ l.
Proof. destruct l as [|a l]; [done|]. intros _. exists a. apply list_elem_of_here. Qed.

(** The reminder of a compaction is complete.  When the names of the tools
    are known there is a reminder exactly when something runs or is to be done,
    and the identifier of every running command, loop, workflow and subagent,
    and every open todo, is in it word for word. *)
Theorem reminder_complete s tools :
  (format_active_agent_reminder s (Some tools) = None <-> reminder_state_is_empty s = true) /\
  (forall x r, format_active_agent_reminder s (Some tools) = Some r -> names s x -> occurs x r).
Proof.
  split; [split|].
  - intros Hnone. destruct (reminder_state_is_empty s) eqn:E; [done|exfalso]. unfold reminder_state_is_empty in E.
    assert (Hx : exists x, names s x).
    { rewrite !andb_false_iff, negb_false_iff in E. unfold names. destruct E as [[[[E|E]|E]|E]|E].
      - destruct (no_items_in _ E) as (a & Ha). eauto 10.
      - destruct (no_items_in _ E) as (a & Ha). exists (sa_subagent_id a). do 4 right. eauto.
      - destruct (no_items_in _ E) as (a & Ha). eauto 10.
      - destruct (no_items_in _ E) as (a & Ha). eauto 10.
      - apply existsb_exists in E as (t & Ht%list_elem_of_In & Ha). exists (td_id t +:+ ": " +:+ td_content t). do 3 right. left. eauto. }
    destruct Hx as (x & Hx). destruct (reminder_names s tools x Hx) as (r & Er & _). by rewrite Er in Hnone.
  - unfold reminder_state_is_empty. rewrite !andb_true_iff, negb_true_iff. intros [[[[H1 H2] H3] H4] H5].
    unfold format_active_agent_reminder, format_active_agent_sections, section_running_background, section_todo_list.
    destruct (running_commands s), (running_subagents s), (scheduled_loops s), (workflows s); try done. cbn.
    unfold has_actionable_todos in H5. replace (List.filter (fun t => is_actionable (td_status t)) (todos s)) with (@nil TodoItem); [done|].
    symmetry. induction (todos s) as [|t l IH]; [done|]. cbn in H5 |- *. apply orb_false_iff in H5 as [-> H5]. by apply IH.
  - intros x r Er Hx. destruct (reminder_names s tools x Hx) as (r' & Er' & Ho). rewrite Er in Er'. by injection Er' as ->.
Qed.

Module ReminderSample.
Definition agent : RunningSubagent := MkSubagent "sub-1" (Some "explore") None 12.
Definition busy : ActiveAgentReminderState :=
  MkActive [MkTask "t-1" "cargo test" "running" (Some "bash")] [MkTodo "1" "fix it" TodoInProgress; MkTodo "2" "done" TodoCompleted] [agent] [] [] None.

(** Without the names of the tools a running subagent alone leaves no reminder. *)
Example subagent_needs_tools : format_active_agent_reminder (MkActive [] [] [agent] [] [] None) None = None.
Proof. vm_compute. reflexivity. Qed.

Lemma reminder_complete_witness : exists r, format_active_agent_reminder busy (Some (MkToolNames "poll" "kill")) = Some r /\ occurs "sub-1" r.
Proof.
  eexists. split; [vm_compute; reflexivity|].
  apply (proj2 (reminder_complete busy (MkToolNames "poll" "kill"))); [vm_compute; reflexivity|].
  do 4 right. exists agent. split; [apply list_elem_of_here|reflexivity].
Defined.
End ReminderSample.
