(* ===== verification/CompactionRun.v ===== *)
(** * [xai-grok-compaction]: running a compaction

    The orchestration of [intra_compaction/compact.rs]: the passes over steps
    and history, the replacement of the whole conversation, and the mode that
    runs both passes; and the pipeline of [inter_compaction/compact.rs] that
    summarizes a history chunk by chunk.  The stream processor of the host is an
    interface with the laws its trait documents, the model is a function from
    its input to the answer of each attempt.  The file shows what a pass that
    succeeds leaves, that one that fails leaves everything as it was (and where
    the mode with two passes does not), and that the chunks are the turns in
    order, each within its budget. *)

From S2P Require Import Prelude RustStr TextSearch Float64 Compaction CompactionSummary.

Open Scope Z_scope.

(** ** [trigger.rs]: results and errors *)

(** Without the elapsed time. *)
Record IntraCompactionResult : Type := MkResult { tokens_before : Z; tokens_after : Z; turns_compacted : Z; summary_text : string }.

Inductive IntraCompactionError : Type :=
| NothingToCompact
| IntraTimeout
| IntraEmptyResponse
| InsufficientReduction (tokens_before tokens_after : Z)
| InvalidSplit (requested available : Z)
| Unsupported
| SamplerBuild (msg : string)
| SamplerStart (msg : string)
| SamplerStream (msg : string)
| IntraContextOverflow (msg : string)
| Apply (msg : string).

Definition error_status_label (err : IntraCompactionError) : string :=
  match err with
  | NothingToCompact => "nothing_to_compact"
  | IntraTimeout => "timeout"
  | IntraEmptyResponse => "empty_response"
  | InsufficientReduction _ _ => "insufficient_reduction"
  | InvalidSplit _ _ => "invalid_split"
  | Unsupported => "unsupported"
  | SamplerBuild _ => "sampler_build"
  | SamplerStart _ => "sampler_start"
  | SamplerStream _ => "sampler_stream"
  | IntraContextOverflow _ => "context_overflow"
  | Apply _ => "apply"
  end.

(** ** [traits.rs] *)

Inductive CompactionTarget : Type := TargetSteps | TargetHistory | TargetFullReplace.

Class CompactionStreamProc (St T : Type) := {
  get_accumulated_turns_for_compaction : St -> list T;
  get_history_turns_for_compaction : St -> list T;
  replace_with_compaction : St -> CompactionTarget -> nat -> T -> St * result IntraCompactionError unit }.

Definition get_all_turns_for_compaction {St T} `{CompactionStreamProc St T} (st : St) : list T :=
  get_history_turns_for_compaction st ++ get_accumulated_turns_for_compaction st.

(** What the trait documents: the first [n] turns of the view are replaced, and
    a commit that fails leaves the state untouched. *)
Class StreamProcLaws (St T : Type) `{CompactionStreamProc St T} := {
  replace_failed st target n turn st' e : replace_with_compaction st target n turn = (st', Err e) -> st' = st;
  replace_steps st n turn st' : replace_with_compaction st TargetSteps n turn = (st', Ok tt) ->
    (n <= length (get_accumulated_turns_for_compaction st))%nat /\
    get_accumulated_turns_for_compaction st' = turn :: drop n (get_accumulated_turns_for_compaction st) /\
    get_history_turns_for_compaction st' = get_history_turns_for_compaction st;
  replace_history st n turn st' : replace_with_compaction st TargetHistory n turn = (st', Ok tt) ->
    (n <= length (get_history_turns_for_compaction st))%nat /\
    get_history_turns_for_compaction st' = turn :: drop n (get_history_turns_for_compaction st) /\
    get_accumulated_turns_for_compaction st' = get_accumulated_turns_for_compaction st;
  replace_all st n turn st' : replace_with_compaction st TargetFullReplace n turn = (st', Ok tt) ->
    (n <= length (get_all_turns_for_compaction st))%nat /\
    get_all_turns_for_compaction st' = turn :: drop n (get_all_turns_for_compaction st) }.

(** [IntraCompactionObserver] *)
Inductive IntraEvent : Type :=
| OnSuccess (target : CompactionTarget) (tokens_before tokens_after turns_compacted : Z)
| OnError (status : string).

(** ** Sampling *)

Definition compaction_sample_error_to_intra (err : CompactionSampleError) : IntraCompactionError :=
  match err with
  | SampleTimeout _ _ => IntraTimeout
  | SampleBuild msg => SamplerBuild msg
  | SampleStart msg => SamplerStart msg
  | SampleContextOverflow msg => IntraContextOverflow msg
  | SampleEmptyResponse => IntraEmptyResponse
  | SampleOther msg =>
      if contains_str "Failed to build" msg then SamplerBuild msg
      else if contains_str "Failed to start" msg then SamplerStart msg
      else if contains_str "no response channel content" msg then IntraEmptyResponse
      else SamplerStream msg
  end.

Definition is_transient (err : IntraCompactionError) : bool :=
  match err with IntraTimeout | IntraEmptyResponse | SamplerStream _ | SamplerStart _ => true | _ => false end.

(** The attempts from [attempt] on, [remaining] of them after this one. *)
Fixpoint legacy_attempts (sampler : Sampler) (attempt remaining : nat) : result IntraCompactionError string :=
  match sampler (attempt - 1)%nat with
  | Ok output => Ok (out_response output)
  | Err e =>
      let intra_err := compaction_sample_error_to_intra e in
      match remaining with
      | S remaining => if is_transient intra_err then legacy_attempts sampler (S attempt) remaining else Err intra_err
      | O => Err intra_err
      end
  end.
Definition sample_compaction_with_retries (sampler : Sampler) (policy : IntraCompactionConfig) : result IntraCompactionError string :=
  legacy_attempts sampler 1 (Z.to_nat (Z.max (ic_max_attempts policy) 1 - 1)).

(** The texts of [templates/]. *)
Record Templates : Type := MkTemplates { tpl_full_replace : string; tpl_steps : CompactionPrompt; tpl_history_developer : string; tpl_history_user : string }.

Definition build_prompt_for_target (tpl : Templates) (target : CompactionTarget) : result IntraCompactionError CompactionPrompt :=
  match target with
  | TargetSteps => Ok (tpl_steps tpl)
  | _ => Ok (MkPrompt (tpl_history_developer tpl) (tpl_history_user tpl))
  end.

Section run.
Context {St T : Type} `{It : CompactionItem T} `{Bd : CompactionItemBuilder T} `{Ct : ItemTokenCounter T} `{Sp : CompactionStreamProc St T}.
Context (tpl : Templates) (sampler : list T -> CompactionPrompt -> Sampler).
Implicit Types (st : St) (policy : IntraCompactionConfig) (trigger : IntraCompactionTrigger).

Definition sample_shared_summary_with_retries (turns : list T) policy : result IntraCompactionError string :=
  match (sample_summary_with_retries (sampler turns (MkPrompt "" (build_summary_prompt (tpl_full_replace tpl) None))) (ic_max_attempts policy)).2 with
  | Ok s => Ok (format_compact_summary (sampled_summary s))
  | Err (RetryEmpty _) => Err IntraEmptyResponse
  | Err (RetryFailure message deterministic context_overflow _) =>
      Err (if context_overflow then IntraContextOverflow message
           else if deterministic then SamplerBuild message else SamplerStream message)
  end.

(** [tokens_after > (tokens_before as f64 * ratio) as u32] *)
Definition insufficient (before after : Z) policy : bool :=
  (0 <? before) && (f64_to_unsigned floor_abs u32_max (f64_mul (f64_of_Z before) (ic_max_reduction_ratio policy)) <? after).

(** [append_reminder_block] *)
Definition append_reminder_block (summary : string) (reminder : option string) : string :=
  match reminder with
  | Some r => if is_empty (trim r) then summary else summary +:+ LF2 +:+ r
  | None => summary
  end.

(** What a pass returns: the state, what was observed, and the outcome. *)
Definition Pass : Type := St * list IntraEvent * result IntraCompactionError IntraCompactionResult.
Definition failed st (e : IntraCompactionError) : Pass := (st, [], Err e).

(** The guard, the commit and the report of a pass. *)
Definition commit st policy (target : CompactionTarget) (before : Z) (n : nat) (text : string) : Pass :=
  let turn := compaction_summary_item text in
  let after := count_item_tokens turn in
  if insufficient before after policy then failed st (InsufficientReduction before after)
  else match replace_with_compaction st target n turn with
       | (st', Err e) => failed st' e
       | (st', Ok _) => (st', [OnSuccess target before after (as_u32 n)], Ok (MkResult before after (as_u32 n) text))
       end.

Definition source_turns st (target : CompactionTarget) : list T :=
  match target with
  | TargetSteps => get_accumulated_turns_for_compaction st
  | TargetHistory => get_history_turns_for_compaction st
  | TargetFullReplace => []
  end.

(** The summary of the turns before the split. *)
Definition pass_summary policy (target : CompactionTarget) (turns_to_compact : list T) : result IntraCompactionError string :=
  let '(turns_for_llm, prior) :=
    match target with
    | TargetHistory => let s := separate_prior_user_queries turns_to_compact in (turns_for_llm s, prior_user_queries s)
    | _ => (turns_to_compact, None)
    end in
  let sampled :=
    match ic_summarizer policy with
    | SummarizerLegacy =>
        match build_prompt_for_target tpl target with
        | Ok prompt => sample_compaction_with_retries (sampler turns_for_llm prompt) policy
        | Err e => Err e
        end
    | SummarizerShared => sample_shared_summary_with_retries turns_for_llm policy
    end in
  match sampled with
  | Err e => Err e
  | Ok text =>
      Ok (match target with
          | TargetHistory =>
              assemble_user_queries_preamble prior
                (extract_user_queries_from_turns turns_to_compact (ic_user_message_truncate_chars policy)) +:+ text
          | _ => text
          end)
  end.

Definition compact_one_pass st policy trigger (target : CompactionTarget) : Pass :=
  let source := source_turns st target in
  match source with
  | [] => failed st NothingToCompact
  | _ =>
      let target_tokens := percent_of_u32 (tr_context_window trigger) (ic_target_threshold_percent policy) in
      match select_turns_to_compact (token_counts source) source target_tokens (ic_min_compactable_tokens policy) with
      | None => failed st NothingToCompact
      | Some plan =>
          match pass_summary policy target (take (split_idx plan) source) with
          | Err e => failed st e
          | Ok text => commit st policy target (tokens_to_compact plan) (split_idx plan) text
          end
      end
  end.

Definition apply_steps_compaction st policy trigger : Pass := compact_one_pass st policy trigger TargetSteps.
Definition apply_history_compaction st policy trigger : Pass := compact_one_pass st policy trigger TargetHistory.

(** [.sum()] of [u32]s in a release build *)
Definition wrapping_sum (counts : list Z) : Z := zsum counts mod 2 ^ 32.

Definition apply_full_replace_compaction st policy trigger (active_reminder : option string) (summarizer_input_budget : option Z) : Pass :=
  let history_turns := get_history_turns_for_compaction st in
  let step_turns := get_accumulated_turns_for_compaction st in
  let total_turns := (length history_turns + length step_turns)%nat in
  if (total_turns =? 0)%nat then failed st NothingToCompact
  else
    let before := wrapping_sum (token_counts (history_turns ++ step_turns)) in
    if before <? ic_min_compactable_tokens policy then failed st NothingToCompact
    else
      let llm_turns :=
        match summarizer_input_budget with
        | Some budget =>
            let plan := fit_turns_for_summarizer history_turns step_turns budget in
            if match llm_turns plan with [] => true | _ => false end || (tokens_fit plan =? 0) then None else Some (llm_turns plan)
        | None => Some (history_turns ++ step_turns)
        end in
      match llm_turns with
      | None => failed st NothingToCompact
      | Some turns =>
          match sample_shared_summary_with_retries turns policy with
          | Err e => failed st e
          | Ok text => commit st policy TargetFullReplace before total_turns (append_reminder_block text active_reminder)
          end
      end.

(** Token counts of the second decision, as [u64]. *)
Definition u64_tokens (turns : list T) : Z := zsum (token_counts turns) mod 2 ^ 64.
Definition should_compact_steps st policy : bool :=
  f64_to_unsigned ceil_abs u64_max (f64_mul (f64_of_Z (u64_tokens (get_history_turns_for_compaction st))) (ic_steps_trigger_ratio policy))
  <? u64_tokens (get_accumulated_turns_for_compaction st).

Definition joined_summary (h s : string) : string :=
  match is_empty h, is_empty s with false, false => h +:+ LF2 +:+ s | false, true => h | true, _ => s end.
Definition both_passes (h s : IntraCompactionResult) : IntraCompactionResult :=
  MkResult (sat_add u32_max (tokens_before h) (tokens_before s)) (sat_add u32_max (tokens_after h) (tokens_after s))
    (sat_add u32_max (turns_compacted h) (turns_compacted s)) (joined_summary (summary_text h) (summary_text s)).

Definition apply_history_then_steps st policy trigger : Pass :=
  let '(st, seen, history_result) := apply_history_compaction st policy trigger in
  match history_result with
  | Err NothingToCompact | Ok _ =>
      let h := match history_result with Ok r => Some r | Err _ => None end in
      if negb (should_compact_steps st policy) then (st, seen, match h with Some r => Ok r | None => Err NothingToCompact end)
      else
        let '(st, seen', steps_result) := apply_steps_compaction st policy trigger in
        (st, seen ++ seen',
         match h, steps_result with
         | Some h, Ok s => Ok (both_passes h s)
         | Some h, Err NothingToCompact => Ok h
         | None, Ok s => Ok s
         | _, Err e => Err e
         end)
  | Err e => (st, seen, Err e)
  end.

Definition apply_intra_compaction st policy trigger (active_reminder : option string) (summarizer_input_budget : option Z) : Pass :=
  let '(st, seen, r) :=
    match ic_mode policy with
    | ModeFullReplace => apply_full_replace_compaction st policy trigger active_reminder summarizer_input_budget
    | ModeStepsOnly => apply_steps_compaction st policy trigger
    | ModeHistoryOnly => apply_history_compaction st policy trigger
    | ModeHistoryThenSteps => apply_history_then_steps st policy trigger
    end in
  (st, match r with Err e => seen ++ [OnError (error_status_label e)] | Ok _ => seen end, r).
End run.

(** ** [inter_compaction] *)

Record InterCompactionConfig : Type := MkInterConfig {
  nc_compaction_model_name : string; nc_sampling_timeout_secs : Z; nc_compaction_strategy : CompactionStrategy;
  nc_dnc_chunk_token_limit : Z; nc_user_message_compact_threshold : Z }.

Definition UNBOUNDED_CHUNK_LIMIT : Z := u32_max.
Record ChunkedCompactionOutput : Type := MkChunked { combined_text : string; analysis_text : string }.

Inductive InterEvent : Type := OnChunkSampled (ok : bool) | OnRecompaction (strategy : string) | OnChunkCount (n : nat).

Section inter.
Context {T : Type} `{It : CompactionItem T} `{Bd : CompactionItemBuilder T} `{Ct : ItemTokenCounter T}.
Context (tpl : Templates) (sampler : list T -> CompactionPrompt -> Sampler).

Definition flush_chunk (turns : list T) : result CompactionSampleError LlmCompactionOutput :=
  sampler turns (MkPrompt (tpl_history_developer tpl) (tpl_history_user tpl)) 0%nat.

(** The loop over the turns: the open chunk, its tokens ([+=] of [u32] in a
    release build) and the outputs so far. *)
Fixpoint chunk_loop (limit : Z) (turns compactable : list T) (chunk_tokens : Z) (outputs : list LlmCompactionOutput)
    : list InterEvent * result CompactionSampleError (list LlmCompactionOutput) :=
  match turns with
  | [] =>
      match compactable with
      | [] => ([], Ok outputs)
      | _ => match flush_chunk compactable with
             | Ok output => ([OnChunkSampled true], Ok (outputs ++ [output]))
             | Err e => ([OnChunkSampled false], Err e)
             end
      end
  | turn :: turns' =>
      let turn_tokens := count_item_tokens turn in
      let full := match compactable with [] => false | _ => true end && negb (limit =? UNBOUNDED_CHUNK_LIMIT)
                  && (limit <? sat_add u32_max chunk_tokens turn_tokens) in
      if full then
        match flush_chunk compactable with
        | Ok output =>
            let '(seen, r) := chunk_loop limit turns' [turn] (turn_tokens mod 2 ^ 32) (outputs ++ [output]) in (OnChunkSampled true :: seen, r)
        | Err e => ([OnChunkSampled false], Err e)
        end
      else chunk_loop limit turns' (compactable ++ [turn]) ((chunk_tokens + turn_tokens) mod 2 ^ 32) outputs
  end.

Definition chunk_summary (i : nat) (output : LlmCompactionOutput) : string :=
  "<chunk_summary index=" +:+ String QUOT (dec (Z.of_nat i)) +:+ String QUOT ">" +:+ LF1 +:+ out_response output +:+ LF1 +:+ "</chunk_summary>" +:+ LF2.

Definition sample_compaction_chunked (turns : list T) (current_user_queries : option string) (config : InterCompactionConfig)
    : list InterEvent * result CompactionSampleError ChunkedCompactionOutput :=
  match nc_compaction_strategy config with
  | StrategyFullReplace => ([], Err (SampleBuild "full_replace must be routed through the event-proc compact_conversation helper"))
  | strategy =>
      let limit := match strategy with StrategyBasic => UNBOUNDED_CHUNK_LIMIT | _ => nc_dnc_chunk_token_limit config end in
      match filter_turns_for_inter_compaction turns with
      | [] => ([], Err (SampleOther "No turns remaining after filtering"))
      | filtered =>
          let separated := separate_prior_user_queries filtered in
          match chunk_loop limit (turns_for_llm separated) [] 0 [] with
          | (seen, Err e) => (seen, Err e)
          | (seen, Ok outputs) =>
              (seen ++ (if has_prior_compaction separated then [OnRecompaction (strategy_label (nc_compaction_strategy config))] else []) ++ [OnChunkCount (length outputs)],
               Ok (MkChunked
                 (assemble_user_queries_preamble (prior_user_queries separated) current_user_queries +:+ concat_str (imap chunk_summary outputs))
                 (concat_str (imap (fun i o => wrap_chunk_analysis i (out_thinking o)) outputs))))
          end
      end
  end.
End inter.

(** * Theorems *)

Section proofs.
Context {St T : Type} `{It : CompactionItem T} `{Bd : CompactionItemBuilder T} `{Ct : ItemTokenCounter T} `{Sp : CompactionStreamProc St T}.
Context (tpl : Templates) (sampler : list T -> CompactionPrompt -> Sampler).
Context `{Law : !CounterLaw T} `{Spl : !StreamProcLaws St T}.
Implicit Types (st : St) (policy : IntraCompactionConfig) (trigger : IntraCompactionTrigger).

(** What a finished commit says. *)
Lemma commit_spec st policy target before n text :
  (exists e, commit st policy target before n text = failed st e) \/
  (exists st', replace_with_compaction st target n (compaction_summary_item text) = (st', Ok tt) /\
   let after := count_item_tokens (compaction_summary_item text : T) in
   insufficient before after policy = false /\
   commit st policy target before n text = (st', [OnSuccess target before after (as_u32 n)], Ok (MkResult before after (as_u32 n) text))).
Proof.
  unfold commit. destruct (insufficient _ _ _) eqn:Ei; [left; by eexists|].
  destruct (replace_with_compaction _ _ _ _) as [st' [[]|e]] eqn:Er; [right; by exists st'|].
  left. apply replace_failed in Er as ->. by eexists.
Qed.

(** What a finished pass says. *)
Lemma one_pass_spec st policy trigger target :
  (exists e, compact_one_pass tpl sampler st policy trigger target = failed st e) \/
  (exists plan text st', select_turns_to_compact (token_counts (source_turns st target)) (source_turns st target)
     (percent_of_u32 (tr_context_window trigger) (ic_target_threshold_percent policy)) (ic_min_compactable_tokens policy) = Some plan /\
   pass_summary tpl sampler policy target (take (split_idx plan) (source_turns st target)) = Ok text /\
   replace_with_compaction st target (split_idx plan) (compaction_summary_item text) = (st', Ok tt) /\
   let after := count_item_tokens (compaction_summary_item text : T) in
   insufficient (tokens_to_compact plan) after policy = false /\
   compact_one_pass tpl sampler st policy trigger target =
     (st', [OnSuccess target (tokens_to_compact plan) after (as_u32 (split_idx plan))],
      Ok (MkResult (tokens_to_compact plan) after (as_u32 (split_idx plan)) text))).
Proof.
  unfold compact_one_pass. cbn zeta. set (source := source_turns st target). destruct source as [|t0 source0] eqn:Es; [left; by eexists|].
  rewrite <- Es. destruct (select_turns_to_compact _ _ _ _) as [plan|]; [|left; by eexists].
  destruct (pass_summary _ _ _ _ _) as [text|e] eqn:Ep; [|left; by eexists].
  destruct (commit_spec st policy target (tokens_to_compact plan) (split_idx plan) text) as [(e & ->)|(st' & Hr & Hi & ->)]; [left; by eexists|].
  right. exists plan, text, st'. by split_and!.
Qed.

Lemma full_replace_spec st policy trigger reminder budget :
  let run := apply_full_replace_compaction tpl sampler st policy trigger reminder budget in
  (exists e, run = failed st e) \/
  (exists text st', replace_with_compaction st TargetFullReplace (length (get_all_turns_for_compaction st)) (compaction_summary_item (append_reminder_block text reminder)) = (st', Ok tt) /\
   let before := wrapping_sum (token_counts (get_all_turns_for_compaction st)) in
   let after := count_item_tokens (compaction_summary_item (append_reminder_block text reminder) : T) in
   let n := as_u32 (length (get_all_turns_for_compaction st)) in
   ic_min_compactable_tokens policy <= before /\ insufficient before after policy = false /\
   run = (st', [OnSuccess TargetFullReplace before after n], Ok (MkResult before after n (append_reminder_block text reminder)))).
Proof.
  cbn zeta. unfold apply_full_replace_compaction. cbn zeta.
  rewrite <- length_app. fold (get_all_turns_for_compaction st). destruct (_ =? 0)%nat; [left; by eexists|].
  destruct (Z.ltb_spec (wrapping_sum (token_counts (get_all_turns_for_compaction st))) (ic_min_compactable_tokens policy)) as [|Hm]; [left; by eexists|].
  destruct (match budget with Some _ => _ | None => _ end) as [turns|]; [|left; by eexists].
  destruct (sample_shared_summary_with_retries _ _ _ _) as [text|e]; [|left; by eexists].
  destruct (commit_spec st policy TargetFullReplace (wrapping_sum (token_counts (get_all_turns_for_compaction st)))
              (length (get_all_turns_for_compaction st)) (append_reminder_block text reminder)) as [(e & ->)|(st' & Hr & Hi & ->)]; [left; by eexists|].
  right. exists text, st'. by split_and!.
Qed.

Lemma one_pass_failed st policy trigger target st' seen e :
  compact_one_pass tpl sampler st policy trigger target = (st', seen, Err e) -> st' = st /\ seen = [].
Proof.
  intros E. destruct (one_pass_spec st policy trigger target) as [(e' & E')|(plan & text & st1 & _ & _ & _ & _ & E')]; rewrite E in E'; [|done].
  by injection E' as -> -> _.
Qed.

(** The mode with two passes. *)
Lemma then_steps_failed st policy trigger st' seen e :
  apply_history_then_steps tpl sampler st policy trigger = (st', seen, Err e) ->
  (st' = st /\ seen = []) \/
  (exists r, apply_history_compaction tpl sampler st policy trigger = (st', seen, Ok r) /\
   apply_steps_compaction tpl sampler st' policy trigger = (st', [], Err e)).
Proof.
  unfold apply_history_then_steps. destruct (apply_history_compaction tpl sampler st policy trigger) as [[st1 seen1] hr] eqn:Eh.
  assert (Hsteps : forall st2 seen2 e2, apply_steps_compaction tpl sampler st1 policy trigger = (st2, seen2, Err e2) -> st2 = st1 /\ seen2 = [])
    by (intros; by eapply one_pass_failed).
  destruct hr as [r|e1].
  - destruct (should_compact_steps st1 policy); cbn [negb]; [|done].
    destruct (apply_steps_compaction tpl sampler st1 policy trigger) as [[st2 seen2] [s|e2]] eqn:Es; [done|].
    destruct (Hsteps _ _ _ eq_refl) as [-> ->]. rewrite app_nil_r. intros E. right. exists r.
    assert (e2 = e /\ st1 = st' /\ seen1 = seen) as (-> & -> & ->) by (by destruct e2; simplify_eq). done.
  - apply one_pass_failed in Eh as [-> ->]. intros E. left.
    assert (Hn : (e1 = NothingToCompact /\ should_compact_steps st policy = true) \/ (st' = st /\ seen = [])).
    { destruct e1; try (injection E as <- <- <-; by right). destruct (should_compact_steps st policy); [by left|]. injection E as <- <- <-. by right. }
    destruct Hn as [[-> Hs]|]; [|done]. rewrite Hs in E. cbn [negb] in E.
    destruct (apply_steps_compaction tpl sampler st policy trigger) as [[st2 seen2] [s|e2]] eqn:Es; [done|].
    destruct (Hsteps _ _ _ eq_refl) as [-> ->]. by injection E as <- <- _.
Qed.


(** The view that a pass works on, and the other one. *)
Definition other_turns st (target : CompactionTarget) : list T :=
  match target with TargetSteps => get_history_turns_for_compaction st | _ => get_accumulated_turns_for_compaction st end.

(** C21: A pass that succeeds.  It replaces the turns before a split by one
    summary turn and touches nothing else: what is kept is an end of the view
    that fits into the target, separates no tool result from its request, and
    is as long as that allows.  The turns it replaced were worth the minimum,
    the summary is within the allowed share of them, and the summary of a
    history pass starts with the queries the user asked. *)
Theorem pass_replaces_prefix st policy trigger target st' seen r :
  target <> TargetFullReplace -> 0 <= tr_context_window trigger -> 0 <= ic_target_threshold_percent policy ->
  compact_one_pass tpl sampler st policy trigger target = (st', seen, Ok r) ->
  let source := source_turns st target in
  let room := percent_of_u32 (tr_context_window trigger) (ic_target_threshold_percent policy) in
  exists k, (0 < k < length source)%nat /\
  source_turns st' target = compaction_summary_item (summary_text r) :: drop k source /\ other_turns st' target = other_turns st target /\
  sum_tokens (drop k source) <= room /\ safe_cut source k = true /\
  (forall j, (j < k)%nat -> safe_cut source j = true -> room < sum_tokens (drop j source)) /\
  tokens_before r = sum_tokens (take k source) /\ ic_min_compactable_tokens policy <= tokens_before r /\
  insufficient (tokens_before r) (tokens_after r) policy = false /\
  (target = TargetHistory -> exists text, summary_text r =
     build_user_queries_preamble (take k source) (extract_user_queries_from_turns (take k source) (ic_user_message_truncate_chars policy)) +:+ text) /\
  seen = [OnSuccess target (tokens_before r) (tokens_after r) (turns_compacted r)].
Proof.
  intros Ht Hw Hp E. cbn zeta. destruct (one_pass_spec st policy trigger target) as [(e & E')|(plan & text & st1 & Hsel & Hsum & Hrep & Hi & E')]; rewrite E' in E; [done|].
  injection E as <- <- <-. destruct plan as [k tokens]. cbn [split_idx tokens_to_compact tokens_before tokens_after turns_compacted summary_text] in *.
  set (source := source_turns st target) in *.
  assert (Hroom : 0 <= percent_of_u32 (tr_context_window trigger) (ic_target_threshold_percent policy)) by (apply Z.mod_pos_bound; lia).
  apply select_some_iff in Hsel as (S1 & S2 & S3 & S4 & -> & S6); [|apply length_token_counts|apply token_counts_u32s|done].
  exists k. rewrite sum_tokens_drop, sum_tokens_take.
  split_and!; [by eapply split_inside|by eapply split_inside|..]; try done.
  - destruct target; [|..]; [apply replace_steps in Hrep|apply replace_history in Hrep|done]; by destruct Hrep as (_ & ? & _).
  - destruct target; [|..]; [apply replace_steps in Hrep|apply replace_history in Hrep|done]; by destruct Hrep as (_ & _ & ?).
  - intros j Hj Hs. rewrite sum_tokens_drop. by apply S4.
  - intros ->. unfold pass_summary in Hsum. cbn zeta in Hsum. destruct (match ic_summarizer policy with SummarizerShared => _ | _ => _ end) as [t|]; [|done].
    injection Hsum as <-. by exists t.
Qed.

(** A replacement of the whole conversation that succeeds leaves the summary
    turn and nothing else; the reminder of what is still running is at its end,
    word for word; and the conversation it replaced was worth the minimum. *)
Theorem replaced_by_one_summary st policy trigger reminder budget st' seen r :
  apply_full_replace_compaction tpl sampler st policy trigger reminder budget = (st', seen, Ok r) ->
  get_all_turns_for_compaction st' = [compaction_summary_item (summary_text r)] /\
  ic_min_compactable_tokens policy <= tokens_before r /\ insufficient (tokens_before r) (tokens_after r) policy = false /\
  (forall block, reminder = Some block -> trim block <> "" -> exists text, summary_text r = text +:+ LF2 +:+ block) /\
  seen = [OnSuccess TargetFullReplace (tokens_before r) (tokens_after r) (turns_compacted r)].
Proof.
  intros E. destruct (full_replace_spec st policy trigger reminder budget) as [(e & E')|(text & st1 & Hrep & Hm & Hi & E')]; rewrite E' in E; [done|].
  injection E as <- <- <-. cbn [tokens_before tokens_after turns_compacted summary_text]. apply replace_all in Hrep as (_ & Hall). rewrite drop_all in Hall.
  split_and!; [done|done|done| |done]. intros block -> Hb. exists text. unfold append_reminder_block.
  destruct (is_empty (trim block)) eqn:Eb; [|done]. by apply String.eqb_eq in Eb.
Qed.
End proofs.

(** ** What the model is shown *)

Lemma sample_attempts_ext s1 s2 attempt remaining : (forall n, s1 n = s2 n) -> sample_attempts s1 attempt remaining = sample_attempts s2 attempt remaining.
Proof.
  intros H. revert attempt. induction remaining as [|remaining IH]; intros attempt; cbn [sample_attempts]; rewrite H; [done|]. by rewrite IH.
Qed.

Section shown.
Context {St T : Type} `{It : CompactionItem T} `{Bd : CompactionItemBuilder T} `{Ct : ItemTokenCounter T} `{Sp : CompactionStreamProc St T}.
Context (tpl : Templates) `{Law : !CounterLaw T}.

(** What may be handed to the model: turns within the budget, or one clipped turn. *)
Definition shown budget (turns : list T) : Prop :=
  turns <> [] /\ (sum_tokens turns <= budget \/ exists t, turns = [truncate_payload_for_compaction t budget]).

Lemma shared_summary_ext s1 s2 turns policy : (forall prompt n, s1 turns prompt n = s2 turns prompt n) ->
  sample_shared_summary_with_retries tpl s1 turns policy = sample_shared_summary_with_retries (T := T) tpl s2 turns policy.
Proof. intros H. unfold sample_shared_summary_with_retries, sample_summary_with_retries. by erewrite sample_attempts_ext. Qed.

Lemma fit_shown (history steps : list T) budget : 0 < budget <= u32_max ->
  llm_turns (fit_turns_for_summarizer history steps budget) <> [] -> shown budget (llm_turns (fit_turns_for_summarizer history steps budget)).
Proof.
  intros Hb Hne. destruct (fit_spec history steps budget Hb) as (Hl & (_ & Hf & Hfit) & _). split; [done|].
  unfold ladder in Hl. destruct (rung _); try (left; rewrite <- Hf; by apply Hfit).
  right. destruct Hl as (_ & _ & _ & older & newest & _ & -> & _). by exists newest.
Qed.

(** The budget of the summarizer holds.  With an input budget, the outcome
    of replacing a conversation depends on the model only through its answers
    to inputs that are not empty and within the budget, or that are a single
    turn clipped to it: no other input is ever sent. *)
Theorem model_sees_budget s1 s2 (st : St) policy trigger reminder budget :
  0 <= budget <= u32_max -> (forall turns prompt n, shown budget turns -> s1 turns prompt n = s2 turns prompt n) ->
  apply_full_replace_compaction tpl s1 st policy trigger reminder (Some budget) =
  apply_full_replace_compaction tpl s2 st policy trigger reminder (Some budget).
Proof.
  intros Hb Hs. unfold apply_full_replace_compaction. cbn zeta.
  set (p := fit_turns_for_summarizer _ _ _). destruct (_ =? 0)%nat; [done|]. destruct (_ <? _); [done|].
  destruct (match llm_turns p with [] => true | _ => false end || (tokens_fit p =? 0)) eqn:Ep; [done|]. apply orb_false_iff in Ep as [Ep _].
  rewrite (shared_summary_ext s1 s2); [done|]. intros prompt n. apply Hs. subst p. apply fit_shown.
  - split; [|lia]. destruct (decide (budget = 0)) as [->|]; [done|lia].
  - intros E. by rewrite E in Ep.
Qed.

(** Without steps, a newest turn above the budget ends the replacement before
    the model is asked. *)
Lemma no_steps_aborts s (st : St) policy trigger reminder budget history newest :
  0 < budget <= u32_max -> get_accumulated_turns_for_compaction st = [] -> get_history_turns_for_compaction st = history ++ [newest] ->
  budget < count_item_tokens newest ->
  apply_full_replace_compaction tpl s st policy trigger reminder (Some budget) = failed st NothingToCompact.
Proof.
  intros Hb Ha Hh Hn. unfold apply_full_replace_compaction. cbn zeta. rewrite Ha, Hh.
  destruct (no_steps_empty_plan history newest budget Hb Hn) as [-> _]. cbn [orb].
  destruct (_ =? 0)%nat; [done|]. by destruct (_ <? _).
Qed.
End shown.

(** ** Chunks *)

Section chunks.
Context {T : Type} `{It : CompactionItem T} `{Bd : CompactionItemBuilder T} `{Ct : ItemTokenCounter T}.
Context (tpl : Templates) (sampler : list T -> CompactionPrompt -> Sampler) `{Law : !CounterLaw T}.

(** The chunks as data: the open chunk is [cur], of [tokens] tokens. *)
Definition chunk_full (limit : Z) (cur : list T) (tokens : Z) (turn : T) : bool :=
  match cur with [] => false | _ => true end && negb (limit =? UNBOUNDED_CHUNK_LIMIT) && (limit <? sat_add u32_max tokens (count_item_tokens turn)).
Fixpoint chunks_of (limit : Z) (turns cur : list T) (tokens : Z) : list (list T) :=
  match turns with
  | [] => match cur with [] => [] | _ => [cur] end
  | turn :: turns' =>
      if chunk_full limit cur tokens turn then cur :: chunks_of limit turns' [turn] (count_item_tokens turn mod 2 ^ 32)
      else chunks_of limit turns' (cur ++ [turn]) ((tokens + count_item_tokens turn) mod 2 ^ 32)
  end.

(** Summarizing chunk after chunk, up to the first failure. *)
Fixpoint sample_all (chunks : list (list T)) (outputs : list LlmCompactionOutput) : list InterEvent * result CompactionSampleError (list LlmCompactionOutput) :=
  match chunks with
  | [] => ([], Ok outputs)
  | chunk :: chunks =>
      match flush_chunk tpl sampler chunk with
      | Ok output => let '(seen, r) := sample_all chunks (outputs ++ [output]) in (OnChunkSampled true :: seen, r)
      | Err e => ([OnChunkSampled false], Err e)
      end
  end.

Lemma chunk_loop_chunks limit turns cur tokens outputs :
  chunk_loop tpl sampler limit turns cur tokens outputs = sample_all (chunks_of limit turns cur tokens) outputs.
Proof.
  revert cur tokens outputs. induction turns as [|turn turns IH]; intros cur tokens outputs; cbn [chunk_loop chunks_of].
  { destruct cur; [done|]. cbn [sample_all]. by destruct (flush_chunk _ _ _). }
  fold (chunk_full limit cur tokens turn). destruct (chunk_full limit cur tokens turn); cbn [sample_all]; [|apply IH].
  destruct (flush_chunk _ _ _); [|done]. by rewrite IH.
Qed.

(** A run over chunks: all of them, or up to the first that fails. *)
Lemma sample_all_spec chunks outputs :
  match sample_all chunks outputs with
  | (seen, Ok all) => exists new, all = outputs ++ new /\ Forall2 (fun chunk o => flush_chunk tpl sampler chunk = Ok o) chunks new /\ length seen = length chunks
  | (seen, Err e) => exists pre chunk post, chunks = pre ++ chunk :: post /\ flush_chunk tpl sampler chunk = Err e /\
      Forall (fun c => exists o, flush_chunk tpl sampler c = Ok o) pre /\ length seen = S (length pre)
  end.
Proof.
  revert outputs. induction chunks as [|chunk chunks IH]; intros outputs; cbn [sample_all].
  { exists []. by rewrite app_nil_r. }
  destruct (flush_chunk tpl sampler chunk) as [o|e] eqn:Ef.
  - specialize (IH (outputs ++ [o])). destruct (sample_all chunks (outputs ++ [o])) as [seen [all|e]].
    + destruct IH as (new & -> & Hn & Hl). exists (o :: new). split_and!; [by rewrite <- app_assoc|by constructor|cbn; lia].
    + destruct IH as (pre & c & post & -> & He & Hp & Hl). exists (chunk :: pre), c, post. split_and!; [done|done| |cbn; lia].
      constructor; [by exists o|done].
  - exists [], chunk, chunks. by split_and!.
Qed.

Lemma chunks_concat limit turns cur tokens : concat (chunks_of limit turns cur tokens) = cur ++ turns.
Proof.
  revert cur tokens. induction turns as [|turn turns IH]; intros cur tokens; cbn [chunks_of].
  { destruct cur; [done|]. cbn. by rewrite !app_nil_r. }
  destruct (chunk_full _ _ _ _); cbn; rewrite IH; [done|by rewrite <- app_assoc].
Qed.

(** What a chunk is: not empty, and one turn or within the limit. *)
Definition chunk_ok (limit : Z) (chunk : list T) : Prop := chunk <> [] /\ (sum_tokens chunk <= limit \/ length chunk = 1%nat).

Lemma chunks_bounded limit turns cur tokens : 0 <= limit < u32_max ->
  (cur <> [] -> tokens = sum_tokens cur /\ chunk_ok limit cur) -> (cur = [] -> tokens = 0) ->
  Forall (chunk_ok limit) (chunks_of limit turns cur tokens).
Proof.
  intros Hl. revert cur tokens. induction turns as [|turn turns IH]; intros cur tokens Hne He; cbn [chunks_of].
  { destruct cur as [|t cur]; [constructor|]. apply Forall_singleton. by apply Hne. }
  pose proof (count_u32 turn) as Hc.
  assert (Hone : sum_tokens [turn] = count_item_tokens turn) by (unfold sum_tokens, sum_counts; cbn; unfold sat_add; lia).
  assert (Hnext : chunk_ok limit [turn]) by (split; [done|by right]).
  destruct (chunk_full limit cur tokens turn) eqn:Ef.
  - unfold chunk_full in Ef. destruct cur as [|t cur]; [done|]. constructor; [by apply Hne|]. apply IH; [|done]. intros _.
    split; [|done]. rewrite Hone, Z.mod_small by (unfold u32_max in *; lia). done.
  - apply IH; [|by destruct cur]. intros _. destruct cur as [|t cur].
    + rewrite He by done. rewrite app_nil_l. split; [|done]. rewrite Hone, Z.mod_small by (unfold u32_max in *; lia). lia.
    + destruct (Hne ltac:(done)) as [-> [_ Hs]]. unfold chunk_full in Ef. cbn [andb] in Ef.
      replace (limit =? UNBOUNDED_CHUNK_LIMIT) with false in Ef by (symmetry; unfold UNBOUNDED_CHUNK_LIMIT; lia). cbn [negb andb] in Ef.
      apply Z.ltb_ge in Ef. rewrite sum_tokens_app, Hone. split; [|split; [by destruct cur|left; by rewrite sum_tokens_app, Hone]].
      pose proof (sum_tokens_range (t :: cur)). unfold sat_add in *. rewrite Z.mod_small by (unfold u32_max in *; lia). lia.
Qed.

Lemma chunks_unbounded turns cur tokens : cur ++ turns <> [] -> chunks_of UNBOUNDED_CHUNK_LIMIT turns cur tokens = [cur ++ turns].
Proof.
  revert cur tokens. induction turns as [|turn turns IH]; intros cur tokens Hne; cbn [chunks_of].
  { rewrite app_nil_r in *. by destruct cur. }
  unfold chunk_full. rewrite Z.eqb_refl. cbn [negb]. rewrite andb_false_r, andb_false_l. rewrite IH; [by rewrite <- app_assoc|by destruct cur].
Qed.

(** A history is summarized completely and in order.  The turns that are
    left after filtering, without the queries of earlier rounds, are cut into
    chunks that together are these turns; a chunk is within the limit or is a
    single turn, and the basic strategy makes one chunk.  The model is asked
    once for each chunk, in order.  If all answers are there, the text is the
    carried queries and one summary for each chunk, in order; if one fails, its
    error is returned and no chunk after it is sent. *)
Theorem chunked_summary_complete turns queries config seen r :
  nc_compaction_strategy config <> StrategyFullReplace -> 0 <= nc_dnc_chunk_token_limit config < u32_max ->
  filter_turns_for_inter_compaction turns <> [] ->
  sample_compaction_chunked tpl sampler turns queries config = (seen, r) ->
  let separated := separate_prior_user_queries (filter_turns_for_inter_compaction turns) in
  exists chunks, concat chunks = turns_for_llm separated /\
  match nc_compaction_strategy config with
  | StrategyBasic => (length chunks <= 1)%nat
  | _ => Forall (chunk_ok (nc_dnc_chunk_token_limit config)) chunks
  end /\
  match r with
  | Ok out => exists outputs, Forall2 (fun chunk o => flush_chunk tpl sampler chunk = Ok o) chunks outputs /\
      combined_text out = assemble_user_queries_preamble (prior_user_queries separated) queries +:+ concat_str (imap chunk_summary outputs)
  | Err e => exists pre chunk post, chunks = pre ++ chunk :: post /\ flush_chunk tpl sampler chunk = Err e /\
      Forall (fun c => exists o, flush_chunk tpl sampler c = Ok o) pre /\ length seen = S (length pre)
  end.
Proof.
  intros Hst Hlim Hf E. cbn zeta. unfold sample_compaction_chunked in E. set (filtered := filter_turns_for_inter_compaction turns) in *.
  set (sep := separate_prior_user_queries filtered) in *.
  set (limit := match nc_compaction_strategy config with StrategyBasic => UNBOUNDED_CHUNK_LIMIT | _ => nc_dnc_chunk_token_limit config end).
  assert (E' : match chunk_loop tpl sampler limit (turns_for_llm sep) [] 0 [] with
    | (seen, Err e) => (seen, Err e)
    | (seen, Ok outputs) =>
        (seen ++ (if has_prior_compaction sep then [OnRecompaction (strategy_label (nc_compaction_strategy config))] else []) ++ [OnChunkCount (length outputs)],
         Ok (MkChunked (assemble_user_queries_preamble (prior_user_queries sep) queries +:+ concat_str (imap chunk_summary outputs))
               (concat_str (imap (fun i o => wrap_chunk_analysis i (out_thinking o)) outputs))))
    end = (seen, r)).
  { rewrite <- E. unfold limit, sep. destruct (nc_compaction_strategy config); [|..|done]; by destruct filtered. }
  rewrite chunk_loop_chunks in E'. set (chunks := chunks_of limit (turns_for_llm sep) [] 0) in *. exists chunks.
  split_and!; [by unfold chunks; rewrite chunks_concat| |].
  - unfold chunks, limit. destruct (nc_compaction_strategy config); [|by apply chunks_bounded|done].
    destruct (turns_for_llm sep); [cbn; lia|]. rewrite chunks_unbounded by done. cbn. lia.
  - pose proof (sample_all_spec chunks []) as Hs. destruct (sample_all chunks []) as [seen0 [all|e]]; injection E' as <- <-.
    + destruct Hs as (new & -> & Hn & _). by exists new.
    + done.
Qed.
End chunks.

(** * Examples *)

Module RunSample.
Import SummarySample.

Definition words (n : nat) : string := String.concat "" (repeat "word" n).

#[export] Instance turn_counter : ItemTokenCounter Turn := fun t => Z.min (len (t_text t) / 4) u32_max.
#[export] Instance turn_counter_law : CounterLaw Turn.
Proof.
  intros t. unfold count_item_tokens, turn_counter. pose proof (Z.div_pos (len (t_text t)) 4 (len_nonneg _) ltac:(lia)). unfold u32_max. lia.
Qed.

(** A processor with two lists. *)
Record Proc : Type := MkProc { pr_history : list Turn; pr_steps : list Turn }.
#[export] Instance proc_stream : CompactionStreamProc Proc Turn :=
  {| get_accumulated_turns_for_compaction := pr_steps; get_history_turns_for_compaction := pr_history;
     replace_with_compaction st target n turn :=
       let view := match target with TargetSteps => pr_steps st | TargetHistory => pr_history st | TargetFullReplace => pr_history st ++ pr_steps st end in
       if (n <=? length view)%nat then
         (match target with
          | TargetSteps => MkProc (pr_history st) (turn :: drop n (pr_steps st))
          | TargetHistory => MkProc (turn :: drop n (pr_history st)) (pr_steps st)
          | TargetFullReplace => MkProc (turn :: drop n view) []
          end, Ok tt)
       else (st, Err (InvalidSplit (Z.of_nat n) (Z.of_nat (length view)))) |}.

#[export] Instance proc_laws : StreamProcLaws Proc Turn.
Proof.
  split; cbn; unfold get_all_turns_for_compaction; cbn; intros st.
  - intros target n turn st' e. by destruct (_ <=? _)%nat; intros [= -> _].
  - intros n turn st'. destruct (Nat.leb_spec n (length (pr_steps st))); [|done]. by intros [= <-].
  - intros n turn st'. destruct (Nat.leb_spec n (length (pr_history st))); [|done]. by intros [= <-].
  - intros n turn st'. destruct (Nat.leb_spec n (length (pr_history st ++ pr_steps st))); [|done]. intros [= <-]. cbn. by rewrite app_nil_r.
Qed.

Definition tpl : Templates := MkTemplates "summarize {user_context_section}" (MkPrompt "steps" "go") "history" "go".
Definition policy_of (mode : IntraCompactionMode) (summarizer : IntraSummarizer) : IntraCompactionConfig :=
  MkCompactionConfig true mode 85 3 10 (f64_of_Z 1) None 120 2 3 "intra-v1" summarizer 50 (f64_of_Z 0) 300.
Definition trigger : IntraCompactionTrigger := MkTrigger 900 100 90 3.

Definition said (n : nat) : Turn := MkTurn RoleAssistant (words n) false.
Definition st : Proc := MkProc [asked "why"; said 60; said 20] [said 30; said 40; said 10].

(** A model that answers history, and fails on steps. *)
Definition half_down : list Turn -> CompactionPrompt -> Sampler :=
  fun _ prompt _ => if prompt_system prompt =s? "history" then Ok (MkOutput "the history" "") else Err (SampleBuild "no model").
Definition always : list Turn -> CompactionPrompt -> Sampler := fun _ _ _ => Ok (MkOutput (words 130) "").

(** The pass over history has been committed when the error is returned. *)
Example history_committed_then_error :
  let '(st', seen, r) := apply_intra_compaction tpl half_down st (policy_of ModeHistoryThenSteps SummarizerLegacy) trigger None None in
  r = Err (SamplerBuild "no model") /\ length (pr_history st') = 2%nat /\ length (pr_history st) = 3%nat /\ length seen = 2%nat.
Proof. vm_compute. done. Qed.


Lemma pass_replaces_prefix_witness :
  exists st' seen r, compact_one_pass tpl half_down st (policy_of ModeHistoryOnly SummarizerLegacy) trigger TargetHistory = (st', seen, Ok r) /\
  exists k, source_turns st' TargetHistory = compaction_summary_item (summary_text r) :: drop k (source_turns st TargetHistory).
Proof.
  eexists _, _, _. split; [vm_compute; reflexivity|].
  edestruct (pass_replaces_prefix tpl half_down st (policy_of ModeHistoryOnly SummarizerLegacy) trigger TargetHistory) as (k & _ & H & _);
    [discriminate|cbn; lia|cbn; lia|vm_compute; reflexivity|]. exists k. exact H.
Defined.

Lemma replaced_by_one_summary_witness :
  exists st' seen r, apply_full_replace_compaction tpl always st (policy_of ModeFullReplace SummarizerShared) trigger (Some "still running") (Some 200) = (st', seen, Ok r) /\
  get_all_turns_for_compaction st' = [compaction_summary_item (summary_text r)].
Proof.
  eexists _, _, _. split; [vm_compute; reflexivity|].
  eapply (replaced_by_one_summary tpl always st (policy_of ModeFullReplace SummarizerShared) trigger (Some "still running") (Some 200)).
  vm_compute. reflexivity.
Defined.

(** Two models that differ on large inputs only. *)
Definition only_small : list Turn -> CompactionPrompt -> Sampler :=
  fun turns prompt n => if (sum_tokens turns <=? 90) || (length turns =? 1)%nat then always turns prompt n else Err (SampleContextOverflow "too large").

Lemma model_sees_budget_witness :
  apply_full_replace_compaction tpl always st (policy_of ModeFullReplace SummarizerShared) trigger None (Some 90) =
  apply_full_replace_compaction tpl only_small st (policy_of ModeFullReplace SummarizerShared) trigger None (Some 90).
Proof.
  apply (model_sees_budget tpl always only_small st (policy_of ModeFullReplace SummarizerShared) trigger None 90); [unfold u32_max; lia|]. intros turns prompt n [_ [H|[t ->]]]; unfold only_small.
  - apply Z.leb_le in H. rewrite H. reflexivity.
  - rewrite orb_true_r. reflexivity.
Defined.

(** A conversation without steps whose newest turn is above the budget is not
    compacted; as a step the same turn is clipped and summarized. *)
Example no_steps_not_compacted :
  (apply_full_replace_compaction tpl always (MkProc [said 20; said 200] []) (policy_of ModeFullReplace SummarizerShared) trigger None (Some 90)).2 = Err NothingToCompact /\
  match (apply_full_replace_compaction tpl always (MkProc [said 20] [said 200]) (policy_of ModeFullReplace SummarizerShared) trigger None (Some 90)).2 with Ok _ => True | Err _ => False end.
Proof. vm_compute. done. Qed.

Definition config : InterCompactionConfig := MkInterConfig "m" 120 StrategyDivideAndConquer 50 300.
Example three_chunks : length (chunks_of 50 (turns_for_llm (separate_prior_user_queries [asked "why"; said 30; said 40; said 60])) [] 0) = 3%nat.
Proof. vm_compute. reflexivity. Qed.

Lemma chunked_summary_complete_witness :
  exists chunks, concat chunks = [asked "why"; said 30; said 40; said 60] /\ Forall (chunk_ok 50) chunks.
Proof.
  edestruct (chunked_summary_complete tpl always [asked "why"; said 30; said 40; said 60] None config) as (chunks & H1 & H2 & _);
    [discriminate|cbn; unfold u32_max; lia|vm_compute; discriminate|vm_compute; reflexivity|]. exists chunks. split; [exact H1|exact H2].
Defined.
End RunSample.
