(* ===== verification/HunkDiff.v ===== *)
(** * [xai-hunk-tracker]: hunks and the diff

    The data of [types.rs] and the pure functions of [diff.rs]: hunks from a line
    diff, the patch that replaces lines of a text, matching of old and new hunks,
    and the patch fragments a client renders.  The line diff itself is the
    [similar] crate: an interface with the law its documentation states, that the
    changes spell both texts line by line.  The file shows that the hunks locate
    every change exactly, and that accepting some of them in the baseline and
    rejecting the others in the current text meet in one text, so that accepting
    all gives the current text and rejecting all the baseline; and the texts for
    which the patch does not do so. *)

From Stdlib Require Import Sorting.Sorted.
From S2P Require Import Prelude RustStr Paths.

Open Scope Z_scope.

(** ** [types.rs] *)

(** [HunkId] is its string. *)
Abbreviation HunkId := string (only parsing).

Record HunkLineInfo : Type := MkLines { old_start : Z; old_count : Z; new_start : Z; new_count : Z }.

#[export] Instance HunkLineInfo_eq_dec : EqDecision HunkLineInfo.
Proof. solve_decision. Defined.

(** [Display for HunkLineInfo] *)
Definition line_info_display (i : HunkLineInfo) : string :=
  "@@ -" +:+ dec (old_start i) +:+ "," +:+ dec (old_count i) +:+ " +" +:+ dec (new_start i) +:+ "," +:+ dec (new_count i) +:+ " @@".

Inductive HunkSource : Type := AgentEdit (prompt_index : Z) | ExternalEditOnAgentFile | External.

#[export] Instance HunkSource_eq_dec : EqDecision HunkSource.
Proof. solve_decision. Defined.

Definition is_agent_edit (s : HunkSource) : bool := match s with AgentEdit _ => true | _ => false end.

Definition is_agent_tracked (s : HunkSource) : bool :=
  match s with AgentEdit _ | ExternalEditOnAgentFile => true | External => false end.

Definition is_external (s : HunkSource) : bool :=
  match s with External | ExternalEditOnAgentFile => true | AgentEdit _ => false end.

Definition source_prompt_index (s : HunkSource) : option Z :=
  match s with AgentEdit p => Some p | _ => None end.

Record Hunk : Type := MkHunk {
  h_id : HunkId;
  h_path : string;
  line_info : HunkLineInfo;
  h_source : HunkSource;
  old_text : option string;
  new_text : string;
  h_patch : option string;
  created_at : Z;
  selected : bool;
}.

#[export] Instance Hunk_eq_dec : EqDecision Hunk.
Proof. solve_decision. Defined.

Definition line_count (s : string) : Z := Z.of_nat (length (lines s)).

(** [Hunk::file_created] and [Hunk::file_deleted]; the identifier and the time
    are drawn by the caller. *)
Definition file_created (hid : HunkId) (now : Z) (p content : string) (source : HunkSource) : Hunk :=
  MkHunk hid p (MkLines 0 0 1 (Z.max (line_count content) 1)) source None content None now false.

Definition file_deleted (hid : HunkId) (now : Z) (p content : string) (source : HunkSource) : Hunk :=
  MkHunk hid p (MkLines 1 (Z.max (line_count content) 1) 0 0) source (Some content) "" None now false.

(** [Hunk::summary] and [Hunk::display_path] *)
Definition hunk_summary (h : Hunk) : string :=
  "+" +:+ dec (line_count (new_text h)) +:+ "/-" +:+
  dec (unwrap_or 0 (line_count <$> old_text h)).

Definition display_path (h : Hunk) : string := h_path h +:+ ":" +:+ dec (new_start (line_info h)).

(** ** [diff.rs]: the line diff *)

Inductive ChangeTag : Type := Equal | Delete | Insert.

#[export] Instance ChangeTag_eq_dec : EqDecision ChangeTag.
Proof. solve_decision. Defined.

Abbreviation Change := (ChangeTag * string)%type.

(** [TextDiff::diff_lines] of [similar], its changes in order, and its rendering
    as a unified diff with three lines of context. *)
Class LineDiff : Type := {
  diff_lines : string -> string -> list Change;
  unified_diff : string -> string -> string -> string -> string;
}.

Definition on_old (c : Change) : bool := bool_decide (c.1 <> Insert).
Definition on_new (c : Change) : bool := bool_decide (c.1 <> Delete).
Definition is_equal (c : Change) : bool := bool_decide (c.1 = Equal).

(** The lines of one side, each with its end. *)
Definition old_side (cs : list Change) : list string := snd <$> List.filter on_old cs.
Definition new_side (cs : list Change) : list string := snd <$> List.filter on_new cs.
Definition kept_side (cs : list Change) : list string := snd <$> List.filter is_equal cs.

Definition no_cr (s : string) : bool := sall (fun a => negb (byte_eqb a CR)) s.

(** What the documentation of [similar] promises for texts in which [\n] alone
    ends a line: the changes go through the lines of both texts in order. *)
Class LineDiffLaws `{LineDiff} : Prop := {
  diff_old : forall a b, no_cr a = true -> no_cr b = true -> old_side (diff_lines a b) = split_inclusive LF a;
  diff_new : forall a b, no_cr a = true -> no_cr b = true -> new_side (diff_lines a b) = split_inclusive LF b;
}.

(** The constants of [diff.rs], the time in milliseconds. *)
Definition CONTEXT_LINES : Z := 3.
Definition DIFF_TIMEOUT : Z := 10 * 1000.
Definition MAX_DIFF_FILE_SIZE : Z := 1024 * 1024.

(** [elapsed] is what the clock says the diff took. *)
Definition generate_unified_patch `{LineDiff} (elapsed : Z) (p baseline current : string) : option string :=
  if baseline =s? current then None
  else if (MAX_DIFF_FILE_SIZE <? len baseline) || (MAX_DIFF_FILE_SIZE <? len current) then None
  else if DIFF_TIMEOUT <=? elapsed then None
  else let unified := unified_diff baseline current ("a/" +:+ p) ("b/" +:+ p) in
       if is_empty unified then None else Some unified.

(** ** Hunks from changes *)

Record HunkBuilder : Type := MkBuilder {
  hb_old_start : Z; hb_new_start : Z; hb_old_lines : list string; hb_new_lines : list string }.

Definition builder_new (o n : Z) : HunkBuilder := MkBuilder o n [] [].
Definition add_old_line (b : HunkBuilder) (l : string) : HunkBuilder :=
  MkBuilder (hb_old_start b) (hb_new_start b) (hb_old_lines b ++ [l]) (hb_new_lines b).
Definition add_new_line (b : HunkBuilder) (l : string) : HunkBuilder :=
  MkBuilder (hb_old_start b) (hb_new_start b) (hb_old_lines b) (hb_new_lines b ++ [l]).

(** Identifiers and times come from a supply: the [n]-th identifier drawn and
    what the clock says then. *)
Record Supply : Type := MkSupply { uuid : nat -> HunkId; now : nat -> Z }.

Definition builder_build (s : Supply) (k : nat) (p : string) (source : HunkSource) (b : HunkBuilder) : Hunk :=
  MkHunk (uuid s k) p
    (MkLines (hb_old_start b) (Z.of_nat (length (hb_old_lines b))) (hb_new_start b) (Z.of_nat (length (hb_new_lines b))))
    source (match hb_old_lines b with [] => None | ls => Some (concat_str ls) end) (concat_str (hb_new_lines b))
    None (now s k) false.

(** The state of the loop over the changes. *)
Record Scan : Type := MkScan {
  sc_hunks : list Hunk; sc_old_line : Z; sc_new_line : Z; sc_current : option HunkBuilder; sc_issued : nat }.

(** [current_hunk.take()], built and pushed. *)
Definition finalize (s : Supply) (p : string) (source : HunkSource) (z : Scan) : Scan :=
  match sc_current z with
  | Some b => MkScan (sc_hunks z ++ [builder_build s (sc_issued z) p source b]) (sc_old_line z) (sc_new_line z) None (S (sc_issued z))
  | None => z
  end.

Definition open_builder (z : Scan) : HunkBuilder :=
  match sc_current z with Some b => b | None => builder_new (sc_old_line z) (sc_new_line z) end.

Definition scan_change (s : Supply) (p : string) (source : HunkSource) (z : Scan) (c : Change) : Scan :=
  match c.1 with
  | Equal => let z' := finalize s p source z in
             MkScan (sc_hunks z') (sc_old_line z' + 1) (sc_new_line z' + 1) (sc_current z') (sc_issued z')
  | Delete => MkScan (sc_hunks z) (sc_old_line z + 1) (sc_new_line z) (Some (add_old_line (open_builder z) c.2)) (sc_issued z)
  | Insert => MkScan (sc_hunks z) (sc_old_line z) (sc_new_line z + 1) (Some (add_new_line (open_builder z) c.2)) (sc_issued z)
  end.

Definition scan_changes (s : Supply) (k : nat) (p : string) (source : HunkSource) (cs : list Change) : Scan :=
  finalize s p source (foldl (scan_change s p source) (MkScan [] 1 1 None k) cs).

(** The hunks and the number of identifiers drawn afterwards. *)
Definition compute_hunks `{LineDiff} (s : Supply) (k : nat) (elapsed : Z) (p baseline current : string) (source : HunkSource)
  : list Hunk * nat :=
  if baseline =s? current then ([], k)
  else if (MAX_DIFF_FILE_SIZE <? len baseline) || (MAX_DIFF_FILE_SIZE <? len current) then ([], k)
  else if DIFF_TIMEOUT <=? elapsed then ([], k)
  else let z := scan_changes s k p source (diff_lines baseline current) in (sc_hunks z, sc_issued z).

(** ** [patch_lines] *)

Definition patch_lines (content : string) (start_line remove_count : Z) (insert_text : string) : string :=
  let ls := lines content in
  let start_idx := sat_sub start_line 1 in
  let end_idx := Z.min (start_idx + remove_count) (Z.of_nat (length ls)) in
  let result := take (Z.to_nat start_idx) ls ++
                (if is_empty insert_text then [] else lines insert_text) ++
                drop (Z.to_nat end_idx) ls in
  let output := join (String LF "") result in
  if ends_with (String LF "") content && negb (is_empty output) then output +:+ String LF "" else output.

(** ** Matching hunks *)

Definition hunks_match_content (a b : Hunk) : bool :=
  (h_path a =s? h_path b) && bool_decide (old_text a = old_text b) && (new_text a =s? new_text b).

Definition hunk_moved (old new : Hunk) : bool :=
  hunks_match_content old new && negb (bool_decide (line_info old = line_info new)).

Definition hunks_overlap (a b : Hunk) : bool :=
  let la := line_info a in let lb := line_info b in
  let a_start := old_start la in let a_end := sat_add usize_max (old_start la) (old_count la) in
  let b_start := old_start lb in let b_end := sat_add usize_max (old_start lb) (old_count lb) in
  if negb (h_path a =s? h_path b) then false
  else if (old_count la =? 0) && (old_count lb =? 0) then a_start =? b_start
  else if old_count la =? 0 then (b_start <=? a_start) && (a_start <=? b_end)
  else if old_count lb =? 0 then (a_start <=? b_start) && (b_start <=? a_end)
  else negb ((a_end <? b_start) || (b_end <? a_start)).

Definition calculate_overlap_size (a b : HunkLineInfo) : Z :=
  sat_sub (Z.min (old_start a + old_count a) (old_start b + old_count b)) (Z.max (old_start a) (old_start b)).

(** [Iterator::min_by_key] keeps the first of several least elements,
    [Iterator::max_by_key] the last of several greatest. *)
Fixpoint min_by_key {A} (key : A -> Z) (l : list A) : option A :=
  match l with
  | [] => None
  | x :: l' => match min_by_key key l' with Some y => if key x <=? key y then Some x else Some y | None => Some x end
  end.

Fixpoint max_by_key {A} (key : A -> Z) (l : list A) : option A :=
  match l with
  | [] => None
  | x :: l' => match max_by_key key l' with Some y => if key x <=? key y then Some y else Some x | None => Some x end
  end.

Definition find_matching_old_hunk (new_hunk : Hunk) (old_hunks : list Hunk) : option Hunk :=
  match List.filter (fun o => hunks_match_content o new_hunk) old_hunks with
  | [] => max_by_key (fun o => calculate_overlap_size (line_info o) (line_info new_hunk))
            (List.filter (fun o => hunks_overlap o new_hunk) old_hunks)
  | matches => min_by_key (fun o => Z.abs (new_start (line_info o) - new_start (line_info new_hunk))) matches
  end.

Definition find_overlapping_hunks (new_hunk : Hunk) (old_hunks : list Hunk) : list Hunk :=
  List.filter (fun o => hunks_overlap o new_hunk) old_hunks.

(** ** Patch fragments *)

(** Subtraction of [usize] in code that panics when it is negative. *)
Definition usize_sub (a b : Z) : option Z := if b <=? a then Some (a - b) else None.

Definition marked (mark : string) (ls : list string) : string :=
  concat_str ((fun l => mark +:+ l +:+ String LF "") <$> ls).

(** The lines with index in the range that exist. *)
Definition line_slice (from to : Z) (ls : list string) : list string :=
  take (Z.to_nat (to - from)) (drop (Z.to_nat from) ls).

Definition generate_hunk_patch (baseline current : string) (hunk : Hunk) : option string :=
  let old_lines := lines baseline in
  let new_lines := lines current in
  let i := line_info hunk in
  let old_start_idx := sat_sub (old_start i) 1 in
  let new_start_idx := sat_sub (new_start i) 1 in
  let context_before_start := sat_sub old_start_idx CONTEXT_LINES in
  let context_before_end := old_start_idx in
  let changes_end_new := new_start_idx + new_count i in
  let context_after_end := Z.min (changes_end_new + CONTEXT_LINES) (Z.of_nat (length new_lines)) in
  let changes_end_old := old_start_idx + old_count i in
  let context_after_end_old := Z.min (changes_end_old + CONTEXT_LINES) (Z.of_nat (length old_lines)) in
  before ← usize_sub context_before_end context_before_start;
  after_old ← usize_sub context_after_end_old changes_end_old;
  after_new ← usize_sub context_after_end changes_end_new;
  Some (line_info_display (MkLines (context_before_start + 1) (before + old_count i + after_old)
                                   (context_before_start + 1) (before + new_count i + after_new)) +:+ String LF "" +:+
        marked " " (line_slice context_before_start context_before_end old_lines) +:+
        marked "-" (match old_text hunk with Some t => lines t | None => [] end) +:+
        marked "+" (lines (new_text hunk)) +:+
        marked " " (line_slice changes_end_new context_after_end new_lines)).

Definition format_unified_diff (hunk : Hunk) : string :=
  "--- a/" +:+ h_path hunk +:+ String LF "" +:+
  "+++ b/" +:+ h_path hunk +:+ String LF "" +:+
  line_info_display (line_info hunk) +:+ String LF "" +:+
  marked "-" (match old_text hunk with Some t => lines t | None => [] end) +:+
  marked "+" (lines (new_text hunk)).

(** ** Texts whose every line ends in a newline *)

Definition line_ok (l : string) : bool := sall (fun a => negb (byte_eqb a LF) && negb (byte_eqb a CR)) l.
Abbreviation lines_ok ls := (Forall (fun l => line_ok l = true) ls).

(** The text of the lines. *)
Definition text (ls : list string) : string := concat_str ((fun l => l +:+ String LF "") <$> ls).

Lemma text_app ls ms : text (ls ++ ms) = text ls +:+ text ms.
Proof. unfold text. by rewrite fmap_app, concat_str_app. Qed.

Lemma text_cons l ls : text (l :: ls) = l +:+ String LF (text ls).
Proof. unfold text. cbn [fmap list_fmap concat_str]. by rewrite sapp_assoc. Qed.

Lemma text_nil_iff ls : text ls = "" <-> ls = [].
Proof. split; [|by intros ->]. destruct ls as [|l ls]; [done|]. rewrite text_cons. by intros [_ ?]%sapp_empty. Qed.

Lemma line_ok_no_lf l : line_ok l = true -> sall (fun a => negb (byte_eqb a LF)) l = true.
Proof. apply sall_impl. intros a [H _]%andb_true_iff. exact H. Qed.

Lemma line_ok_no_cr l : line_ok l = true -> no_cr l = true.
Proof. apply sall_impl. intros a [_ H]%andb_true_iff. exact H. Qed.

Lemma text_no_cr ls : lines_ok ls -> no_cr (text ls) = true.
Proof.
  induction 1 as [|l ls Hl _ IH]; [done|]. rewrite text_cons. unfold no_cr. rewrite sall_app. apply andb_true_iff.
  split; [by apply line_ok_no_cr|]. exact IH.
Qed.

Lemma split_text ls : lines_ok ls -> split_inclusive LF (text ls) = (fun l => l +:+ String LF "") <$> ls.
Proof.
  induction 1 as [|l ls Hl _ IH]; [done|]. rewrite text_cons, split_inclusive_piece by (by apply line_ok_no_lf).
  cbn [fmap list_fmap]. by rewrite IH.
Qed.

Lemma strip_final_char c l : strip_suffix_char c (l +:+ String c "") = Some l.
Proof.
  induction l as [|a l IH]; [rewrite sapp_nil_l; cbn [strip_suffix_char]; by rewrite byte_eqb_refl|].
  rewrite sapp_cons. cbn [strip_suffix_char].
  destruct (l +:+ String c "") eqn:E; [by apply sapp_empty in E as [_ ?]|]. by rewrite IH.
Qed.

Lemma strip_suffix_char_free c l : sall (fun a => negb (byte_eqb a c)) l = true -> strip_suffix_char c l = None.
Proof.
  induction l as [|a l IH]; intros H; [done|]. cbn [sall] in H. apply andb_true_iff in H as [Ha Hl].
  apply negb_true_iff in Ha. cbn [strip_suffix_char]. destruct l; [by rewrite Ha|]. by rewrite (IH Hl).
Qed.

Lemma lines_text ls : lines_ok ls -> lines (text ls) = ls.
Proof.
  intros H. unfold lines. rewrite split_text by done. rewrite <- list_fmap_compose. clear -H.
  induction H as [|l ls Hl _ IH]; [done|]. rewrite fmap_cons, IH. f_equal. unfold compose, line_of_piece.
  by rewrite strip_final_char, strip_suffix_char_free by (by apply line_ok_no_cr).
Qed.

Lemma join_text ls : ls <> [] -> join (String LF "") ls +:+ String LF "" = text ls.
Proof.
  induction ls as [|l ls IH]; [done|]. intros _. rewrite text_cons. destruct ls as [|m ls]; [done|].
  rewrite join_cons by done. rewrite !sapp_assoc, IH by done. done.
Qed.

Lemma join_empty ls : join (String LF "") ls = "" -> ls = [] \/ ls = [""].
Proof.
  destruct ls as [|l [|m ls]]; [by left|cbn; intros ->; by right|].
  rewrite join_cons by done. by intros [_ [? _]%sapp_empty]%sapp_empty.
Qed.

Lemma text_ends ls : ls <> [] -> ends_with (String LF "") (text ls) = true.
Proof. intros H. rewrite <- join_text by done. apply ends_with_app. Qed.

(** What [patch_lines] does to such texts. *)
Lemma patch_text ls start count ins : ls <> [] -> lines_ok ls -> lines_ok ins -> 1 <= start -> 0 <= count ->
  let res := take (Z.to_nat (start - 1)) ls ++ ins ++ drop (Z.to_nat (start - 1 + count)) ls in
  res <> [""] -> patch_lines (text ls) start count (text ins) = text res.
Proof.
  intros Hne Hls Hins H1 H0 res Hres. unfold patch_lines. rewrite text_ends by done. rewrite !lines_text by done.
  assert (E : take (Z.to_nat (sat_sub start 1)) ls ++ (if is_empty (text ins) then [] else ins) ++
    drop (Z.to_nat (Z.min (sat_sub start 1 + count) (Z.of_nat (length ls)))) ls = res).
  { subst res. f_equal; [f_equal; unfold sat_sub; lia|]. f_equal.
    - destruct (is_empty (text ins)) eqn:E; [|done]. apply String.eqb_eq in E. by apply text_nil_iff in E as ->.
    - unfold sat_sub. destruct (Z.leb_spec (start - 1 + count) (Z.of_nat (length ls))); [f_equal; lia|].
      rewrite !drop_ge by lia. done. }
  rewrite E. cbn [andb]. destruct (is_empty (join _ res)) eqn:J; cbn [negb].
  - apply String.eqb_eq in J. apply join_empty in J as J'. destruct J' as [->|?]; done.
  - apply join_text. intros ->. done.
Qed.

(** ** The hunks of a diff *)

(** What a hunk says of the texts, without its identity and attribution. *)
Definition body (h : Hunk) : HunkLineInfo * option string * string := (line_info h, old_text h, new_text h).

Definition scan_like (z z' : Scan) : Prop :=
  body <$> sc_hunks z = body <$> sc_hunks z' /\ sc_old_line z = sc_old_line z' /\
  sc_new_line z = sc_new_line z' /\ sc_current z = sc_current z'.

Lemma finalize_like s s' p p' src src' z z' : scan_like z z' -> scan_like (finalize s p src z) (finalize s' p' src' z').
Proof.
  intros (H1&H2&H3&H4). unfold finalize. rewrite H4. destruct (sc_current z') as [b|] eqn:E; [|split_and!; congruence].
  split_and!; cbn; [|done..]. rewrite !fmap_app, H1. done.
Qed.

Lemma scan_change_like s s' p p' src src' c z z' :
  scan_like z z' -> scan_like (scan_change s p src z c) (scan_change s' p' src' z' c).
Proof.
  intros H. pose proof (finalize_like s s' p p' src src' z z' H) as (F1&F2&F3&F4). destruct H as (H1&H2&H3&H4).
  unfold scan_change, open_builder. destruct c.1; split_and!; cbn; rewrite ?H4, ?H2, ?H3; congruence.
Qed.

Lemma scan_changes_like s s' k k' p p' src src' cs :
  body <$> sc_hunks (scan_changes s k p src cs) = body <$> sc_hunks (scan_changes s' k' p' src' cs).
Proof.
  unfold scan_changes. apply finalize_like. assert (H : scan_like (MkScan [] 1 1 None k) (MkScan [] 1 1 None k')) by (by split_and!).
  revert H. generalize (MkScan [] 1 1 None k) (MkScan [] 1 1 None k').
  induction cs as [|c cs IH]; intros z z' H; [done|]. cbn [foldl]. apply IH. by apply scan_change_like.
Qed.

(** The identifiers come from the supply in order, the rest from the arguments. *)
Definition scan_issued (s : Supply) (k : nat) (p : string) (src : HunkSource) (z : Scan) : Prop :=
  sc_issued z = (k + length (sc_hunks z))%nat /\
  h_id <$> sc_hunks z = uuid s <$> seq k (length (sc_hunks z)) /\
  Forall (fun h => h_path h = p /\ h_source h = src /\ h_patch h = None /\ selected h = false) (sc_hunks z).

Lemma finalize_issued s k p src z : scan_issued s k p src z -> scan_issued s k p src (finalize s p src z).
Proof.
  intros (H1&H2&H3). unfold finalize. destruct (sc_current z) as [b|]; [|done]. split_and!; cbn.
  - rewrite length_app. cbn. lia.
  - rewrite fmap_app, H2, length_app. cbn. rewrite seq_app, fmap_app. cbn. by rewrite H1.
  - apply Forall_app_2; [done|]. by repeat constructor.
Qed.

Lemma scan_changes_issued s k p src cs : scan_issued s k p src (scan_changes s k p src cs).
Proof.
  unfold scan_changes. apply finalize_issued.
  assert (H : scan_issued s k p src (MkScan [] 1 1 None k)) by (split_and!; cbn; [lia|done..]).
  revert H. generalize (MkScan [] 1 1 None k). induction cs as [|c cs IH]; intros z H; [done|]. cbn [foldl]. apply IH.
  unfold scan_change. pose proof (finalize_issued s k p src z H) as F.
  destruct c.1; [destruct F as (F1&F2&F3)|destruct H as (F1&F2&F3)..]; by split_and!.
Qed.

Lemma compute_hunks_issued `{LineDiff} s k el p b c src hs k' : compute_hunks s k el p b c src = (hs, k') ->
  k' = (k + length hs)%nat /\ h_id <$> hs = uuid s <$> seq k (length hs) /\
  Forall (fun h => h_path h = p /\ h_source h = src /\ h_patch h = None /\ selected h = false) hs.
Proof.
  unfold compute_hunks. intros E. repeat case_match; simplify_eq; try (split_and!; cbn; [lia|done..]).
  apply scan_changes_issued.
Qed.

(** The texts of the hunks depend on the texts only. *)
Lemma compute_hunks_body `{LineDiff} s s' k k' el p p' b c src src' :
  (compute_hunks s k el p b c src).1 = [] \/
  body <$> (compute_hunks s k el p b c src).1 = body <$> (compute_hunks s' k' 0 p' b c src').1.
Proof. unfold compute_hunks. repeat (case_match; [by left|]). right. apply scan_changes_like. Qed.

(** [h] stands for the lines [dels] at line [o] of the old text and the lines
    [inss] at line [n] of the new one. *)
Definition hunk_at (h : Hunk) (o n : Z) (dels inss : list string) : Prop :=
  line_info h = MkLines o (Z.of_nat (length dels)) n (Z.of_nat (length inss)) /\
  old_text h = match dels with [] => None | _ => Some (text dels) end /\
  new_text h = text inss /\ (dels <> [] \/ inss <> []).

(** The hunks go through both texts from the lines [o] and [n]: every line
    outside a hunk is in both, and a kept line separates two hunks.  [kept] are
    those lines, [merged] the text with the picked hunks in their new form and
    the others in their old. *)
Inductive aligned (pick : Hunk -> bool) : Z -> Z -> list string -> list string -> list string -> list string -> list Hunk -> Prop :=
| al_nil o n : aligned pick o n [] [] [] [] []
| al_keep o n l olds news kept merged hs :
    aligned pick (o + 1) (n + 1) olds news kept merged hs ->
    aligned pick o n (l :: olds) (l :: news) (l :: kept) (l :: merged) hs
| al_last o n h dels inss :
    hunk_at h o n dels inss -> aligned pick o n dels inss [] (if pick h then inss else dels) [h]
| al_hunk o n h dels inss l olds news kept merged hs :
    hunk_at h o n dels inss ->
    aligned pick (o + Z.of_nat (length dels) + 1) (n + Z.of_nat (length inss) + 1) olds news kept merged hs ->
    aligned pick o n (dels ++ l :: olds) (inss ++ l :: news) (l :: kept) ((if pick h then inss else dels) ++ l :: merged) (h :: hs).

Abbreviation ended := (fun l : string => l +:+ String LF "").

(** A change of a line, without its end. *)
Definition raw_olds (rs : list Change) : list string := snd <$> List.filter on_old rs.
Definition raw_news (rs : list Change) : list string := snd <$> List.filter on_new rs.
Definition raw_kept (rs : list Change) : list string := snd <$> List.filter is_equal rs.

Lemma ended_inj l m : ended l = ended m -> l = m.
Proof. apply sapp_inj_l. Qed.

Lemma fmap_ended_inj (ls ms : list string) : ended <$> ls = ended <$> ms -> ls = ms.
Proof.
  revert ms. induction ls as [|l ls IH]; intros [|m ms] E; try done.
  rewrite !fmap_cons in E. injection E as E1 E2. apply sapp_inj_l in E1 as ->. by rewrite (IH _ E2).
Qed.

Lemma side_ended (f : Change -> bool) rs : (forall t l l', f (t, l) = f (t, l')) ->
  snd <$> List.filter f (prod_map id ended <$> rs) = ended <$> (snd <$> List.filter f rs).
Proof.
  intros Hf. induction rs as [|[t l] rs IH]; [done|]. rewrite fmap_cons.
  change (prod_map id ended (t, l)) with (t, ended l). cbn [List.filter]. rewrite (Hf t (ended l) l). destruct (f (t, l)); [|exact IH]. rewrite !fmap_cons. cbn [snd]. by rewrite IH.
Qed.

Lemma elem_of_side (f : Change -> bool) c cs : c ∈ cs -> f c = true -> c.2 ∈ (snd <$> List.filter f cs : list string).
Proof. intros Hc Hf. apply list_elem_of_fmap_2, list_elem_of_In, List.filter_In. by rewrite <- list_elem_of_In. Qed.

(** A diff of two texts in lines is a list of changes of lines. *)
Lemma diff_raw `{LineDiffLaws} olds news : lines_ok olds -> lines_ok news ->
  exists rs, diff_lines (text olds) (text news) = prod_map id ended <$> rs /\
             raw_olds rs = olds /\ raw_news rs = news /\ kept_side (diff_lines (text olds) (text news)) = ended <$> raw_kept rs.
Proof.
  intros Ho Hn. pose proof (diff_old _ _ (text_no_cr _ Ho) (text_no_cr _ Hn)) as D1.
  pose proof (diff_new _ _ (text_no_cr _ Ho) (text_no_cr _ Hn)) as D2. rewrite split_text in D1, D2 by done.
  set (cs := diff_lines (text olds) (text news)) in *.
  assert (R : exists rs, cs = prod_map id ended <$> rs).
  { assert (F : Forall (fun c => exists l, c.2 = ended l) cs).
    { apply Forall_forall. intros c Hc%list_elem_of_In. destruct (on_old c) eqn:E.
      - pose proof (elem_of_side _ _ _ Hc E) as I. fold (old_side cs) in I.
        rewrite D1 in I. apply list_elem_of_fmap in I as (l&->&_). by exists l.
      - assert (N : on_new c = true).
        { unfold on_old, on_new in *. apply bool_decide_eq_false, dec_stable in E. by rewrite E. }
        pose proof (elem_of_side _ _ _ Hc N) as I. fold (new_side cs) in I.
        rewrite D2 in I. apply list_elem_of_fmap in I as (l&->&_). by exists l. }
    clear -F. induction F as [|[t v] cs [l Hl] _ [rs ->]]; [by exists []|]. cbn in Hl. subst v. by exists ((t, l) :: rs). }
  destruct R as [rs E]. exists rs. rewrite E in D1, D2 |- *.
  unfold old_side, new_side, kept_side in *. rewrite side_ended in D1 by done. rewrite side_ended in D2 by done.
  rewrite side_ended by done. apply fmap_ended_inj in D1, D2. done.
Qed.

Section scan.
Context (s : Supply) (p : string) (src : HunkSource) (pick : Hunk -> bool).

Let run (z : Scan) (rs : list Change) : list Hunk :=
  sc_hunks (finalize s p src (foldl (scan_change s p src) z (prod_map id ended <$> rs))).

(** A builder that has collected these lines and stands before the lines [o] and [n]. *)
Definition holds (b : HunkBuilder) (o n : Z) (dels inss : list string) : Prop :=
  hb_old_lines b = ended <$> dels /\ hb_new_lines b = ended <$> inss /\ (dels <> [] \/ inss <> []) /\
  o = hb_old_start b + Z.of_nat (length dels) /\ n = hb_new_start b + Z.of_nat (length inss).

Lemma build_at k b o n dels inss : holds b o n dels inss ->
  hunk_at (builder_build s k p src b) (hb_old_start b) (hb_new_start b) dels inss.
Proof.
  intros (H1&H2&H3&_). unfold hunk_at, builder_build. cbn. rewrite H1, H2. split_and!; [|by destruct dels|done|done].
  by rewrite !length_fmap.
Qed.

(** The rest of the changes, with no hunk open and with one open. *)
Let good_closed (rs : list Change) : Prop := forall z, sc_current z = None ->
  exists merged hs, run z rs = sc_hunks z ++ hs /\
    aligned pick (sc_old_line z) (sc_new_line z) (raw_olds rs) (raw_news rs) (raw_kept rs) merged hs.
Let good_open (rs : list Change) : Prop := forall z b dels inss, sc_current z = Some b ->
  holds b (sc_old_line z) (sc_new_line z) dels inss ->
  exists merged hs, run z rs = sc_hunks z ++ hs /\
    aligned pick (hb_old_start b) (hb_new_start b) (dels ++ raw_olds rs) (inss ++ raw_news rs) (raw_kept rs) merged hs.

Lemma run_split z t l rs : run z ((t, l) :: rs) = run (scan_change s p src z (t, ended l)) rs.
Proof. done. Qed.

Lemma scan_equal l rs : good_closed rs -> good_closed ((Equal, l) :: rs) /\ good_open ((Equal, l) :: rs).
Proof.
  intros C. split.
  - intros z Hz. rewrite run_split. destruct (C (scan_change s p src z (Equal, ended l))) as (m&hs&R&A).
    { cbn. unfold finalize. by rewrite Hz. }
    exists (l :: m), hs. rewrite R. unfold scan_change, finalize in *. cbn in *. rewrite Hz in *. split; [done|].
    by apply al_keep.
  - intros z b dels inss Hz Hb. rewrite run_split. destruct (C (scan_change s p src z (Equal, ended l))) as (m&hs&R&A).
    { cbn. unfold finalize. by rewrite Hz. }
    pose proof (build_at (sc_issued z) b _ _ _ _ Hb) as B. destruct Hb as (_&_&_&Ho&Hn).
    exists ((if pick (builder_build s (sc_issued z) p src b) then inss else dels) ++ l :: m), (builder_build s (sc_issued z) p src b :: hs).
    rewrite R. unfold scan_change, finalize in *. cbn in *. rewrite Hz in *. cbn in *. split; [by rewrite <- app_assoc|].
    apply al_hunk; [done|]. by rewrite <- Ho, <- Hn.
Qed.

Lemma scan_delete l rs : good_open rs -> good_closed ((Delete, l) :: rs) /\ good_open ((Delete, l) :: rs).
Proof.
  intros O. split.
  - intros z Hz. rewrite run_split.
    destruct (O (scan_change s p src z (Delete, ended l)) (add_old_line (open_builder z) (ended l)) [l] []) as (m&hs&R&A).
    { done. }
    { unfold open_builder. rewrite Hz. split_and!; cbn; [done|done|by left|done|lia]. }
    exists m, hs. rewrite R. unfold open_builder in A. rewrite Hz in A. done.
  - intros z b dels inss Hz (H1&H2&H3&H4&H5). rewrite run_split.
    destruct (O (scan_change s p src z (Delete, ended l)) (add_old_line b (ended l)) (dels ++ [l]) inss) as (m&hs&R&A).
    { cbn. unfold open_builder. by rewrite Hz. }
    { split_and!; cbn; [by rewrite H1, fmap_app|done| |rewrite length_app; cbn; lia|done].
      left. by destruct dels. }
    exists m, hs. rewrite R. split; [done|]. rewrite <- app_assoc in A. done.
Qed.

Lemma scan_insert l rs : good_open rs -> good_closed ((Insert, l) :: rs) /\ good_open ((Insert, l) :: rs).
Proof.
  intros O. split.
  - intros z Hz. rewrite run_split.
    destruct (O (scan_change s p src z (Insert, ended l)) (add_new_line (open_builder z) (ended l)) [] [l]) as (m&hs&R&A).
    { done. }
    { unfold open_builder. rewrite Hz. split_and!; cbn; [done|done|by right|lia|done]. }
    exists m, hs. rewrite R. unfold open_builder in A. rewrite Hz in A. done.
  - intros z b dels inss Hz (H1&H2&H3&H4&H5). rewrite run_split.
    destruct (O (scan_change s p src z (Insert, ended l)) (add_new_line b (ended l)) dels (inss ++ [l])) as (m&hs&R&A).
    { cbn. unfold open_builder. by rewrite Hz. }
    { split_and!; cbn; [done|by rewrite H2, fmap_app| |done|rewrite length_app; cbn; lia].
      right. by destruct inss. }
    exists m, hs. rewrite R. split; [done|]. rewrite <- app_assoc in A. done.
Qed.

Lemma scan_good rs : good_closed rs /\ good_open rs.
Proof.
  induction rs as [|[t l] rs [C O]]; [split|destruct t].
  - intros z Hz. exists [], []. unfold run. cbn. unfold finalize. rewrite Hz. split; [by rewrite app_nil_r|constructor].
  - intros z b dels inss Hz Hb. pose proof (build_at (sc_issued z) b _ _ _ _ Hb) as B.
    exists (if pick (builder_build s (sc_issued z) p src b) then inss else dels), [builder_build s (sc_issued z) p src b].
    unfold run. cbn. unfold finalize. rewrite Hz. split; [done|]. rewrite !app_nil_r. by constructor.
  - by apply scan_equal.
  - by apply scan_delete.
  - by apply scan_insert.
Qed.

Lemma scan_aligned k rs : exists merged,
  aligned pick 1 1 (raw_olds rs) (raw_news rs) (raw_kept rs) merged (sc_hunks (scan_changes s k p src (prod_map id ended <$> rs))).
Proof.
  destruct (proj1 (scan_good rs) (MkScan [] 1 1 None k) eq_refl) as (m&hs&R&A). exists m.
  unfold scan_changes. unfold run in R. rewrite R. exact A.
Qed.
End scan.

(** ** Patching several hunks *)

(** [sort_by_key] with [Reverse]: a stable sort by descending key. *)
Section sort_desc.
Context {A} (key : A -> Z).
Fixpoint insert_desc (x : A) (l : list A) : list A :=
  match l with
  | [] => [x]
  | y :: l' => if key y <=? key x then x :: l else y :: insert_desc x l'
  end.
Definition sort_desc (l : list A) : list A := foldr insert_desc [] l.

Lemma insert_desc_last x l : Forall (fun y => key x < key y) l -> insert_desc x l = l ++ [x].
Proof.
  induction 1 as [|y l H _ IH]; [done|]. cbn [insert_desc]. rewrite (proj2 (Z.leb_gt _ _)) by lia. by rewrite IH.
Qed.

Lemma sort_desc_rev l : StronglySorted (fun x y => key x < key y) l -> sort_desc l = rev l.
Proof.
  induction 1 as [|x l _ IH F]; [done|]. change (sort_desc (x :: l)) with (insert_desc x (sort_desc l)). rewrite IH.
  apply insert_desc_last. apply Forall_rev. exact F.
Qed.
End sort_desc.

(** The loops of [accept_hunks_batch] over the baseline and of
    [reject_hunks_batch] over the current text, from the end of the file. *)
Definition accept_patch (baseline : string) (hunk : Hunk) : string :=
  patch_lines baseline (old_start (line_info hunk)) (old_count (line_info hunk)) (new_text hunk).
Definition reject_patch (current : string) (hunk : Hunk) : string :=
  patch_lines current (new_start (line_info hunk)) (new_count (line_info hunk)) (unwrap_or "" (old_text hunk)).

Definition accept_patches (hunks : list Hunk) (baseline : string) : string :=
  foldl accept_patch baseline (sort_desc (fun h => old_start (line_info h)) hunks).
Definition reject_patches (hunks : list Hunk) (current : string) : string :=
  foldl reject_patch current (sort_desc (fun h => new_start (line_info h)) hunks).

Lemma aligned_starts pick o n olds news kept merged hs : aligned pick o n olds news kept merged hs ->
  Forall (fun h => o <= old_start (line_info h) /\ n <= new_start (line_info h)) hs /\
  StronglySorted (fun a b => old_start (line_info a) < old_start (line_info b)) hs /\
  StronglySorted (fun a b => new_start (line_info a) < new_start (line_info b)) hs.
Proof.
  induction 1 as [|o n l olds news kept merged hs _ (F&S1&S2)|o n h dels inss (E&_)|o n h dels inss l olds news kept merged hs (E&_) _ (F&S1&S2)].
  - split_and!; constructor.
  - split_and!; [|done..]. eapply Forall_impl; [|exact F]. cbn. lia.
  - split_and!; repeat constructor; rewrite E; cbn; lia.
  - assert (G : Forall (fun h' => old_start (line_info h) < old_start (line_info h') /\ new_start (line_info h) < new_start (line_info h')) hs).
    { rewrite E. cbn. eapply Forall_impl; [|exact F]. cbn. lia. }
    split_and!.
    + constructor; [rewrite E; cbn; lia|]. eapply Forall_impl; [|exact F]. cbn. lia.
    + constructor; [done|]. eapply Forall_impl; [|exact G]. cbn. tauto.
    + constructor; [done|]. eapply Forall_impl; [|exact G]. cbn. tauto.
Qed.

Lemma StronglySorted_filter {A} (R : A -> A -> Prop) f l : StronglySorted R l -> StronglySorted R (List.filter f l).
Proof.
  induction 1 as [|x l _ IH F]; [constructor|]. cbn [List.filter]. destruct (f x); [|done]. constructor; [done|].
  apply List.Forall_forall. intros y [Hy _]%List.filter_In. eapply List.Forall_forall in F; eauto.
Qed.

(** Where no patch leaves exactly one empty line: [before] are the lines before
    the hunks and [seen] the kept lines among them. *)
Definition guarded (before seen : list string) : Prop :=
  (before = [] /\ seen = []) \/ (exists b k l, before = b ++ [l] /\ seen = k ++ [l] /\ (length k <= length b)%nat).

Lemma guarded_snoc before seen mid l : guarded before seen -> guarded (before ++ mid ++ [l]) (seen ++ [l]).
Proof.
  intros G. right. exists (before ++ mid), seen, l. split_and!; [by rewrite <- app_assoc|done|].
  rewrite length_app. destruct G as [[-> ->]|(b&k&l'&->&->&?)]; rewrite ?length_app; cbn in *; lia.
Qed.

Lemma aligned_kept pick o n olds news kept merged hs : aligned pick o n olds news kept merged hs ->
  (length kept <= length merged)%nat.
Proof. induction 1; rewrite ?length_app; cbn in *; lia. Qed.

(** Lines that are one empty line with a kept line among them. *)
Lemma guarded_blank before seen mid l rest kept : guarded before seen -> (length kept <= length rest)%nat ->
  seen ++ l :: kept <> [""] -> before ++ mid ++ l :: rest <> [""].
Proof.
  intros G K N E. apply (f_equal length) in E as L. rewrite !length_app in L. cbn in L.
  assert (before = []) as -> by (destruct before; [done|cbn in L; lia]).
  assert (mid = []) as -> by (destruct mid; [done|cbn in L; lia]).
  assert (rest = []) as -> by (destruct rest; [done|cbn in L; lia]).
  assert (kept = []) as -> by (destruct kept; [done|cbn in K; lia]).
  destruct G as [[_ ->]|(b&k&l'&B&_&_)]; [|by destruct b]. by cbn in *.
Qed.

(** One side of [aligned]: the lines of a text, the lines kept in it, the lines
    after the edits and the edits, with the line they start at. *)
Definition Edit : Type := Z * Z * string.

Inductive edits : Z -> list string -> list string -> list string -> list Edit -> Prop :=
| ed_nil o : edits o [] [] [] []
| ed_keep o l ls kept res es : edits (o + 1) ls kept res es -> edits o (l :: ls) (l :: kept) (l :: res) es
| ed_last (chosen : bool) o dels inss : lines_ok inss ->
    edits o dels [] (if chosen then inss else dels) (if chosen then [(o, Z.of_nat (length dels), text inss)] else [])
| ed_hunk (chosen : bool) o dels inss l ls kept res es : lines_ok inss ->
    edits (o + Z.of_nat (length dels) + 1) ls kept res es ->
    edits o (dels ++ l :: ls) (l :: kept) ((if chosen then inss else dels) ++ l :: res)
      (if chosen then (o, Z.of_nat (length dels), text inss) :: es else es).

Definition accept_edit (h : Hunk) : Edit := (old_start (line_info h), old_count (line_info h), new_text h).
Definition reject_edit (h : Hunk) : Edit := (new_start (line_info h), new_count (line_info h), unwrap_or "" (old_text h)).

Lemma accept_edit_at h o n dels inss : hunk_at h o n dels inss -> accept_edit h = (o, Z.of_nat (length dels), text inss).
Proof. intros (E1&_&E3&_). unfold accept_edit. by rewrite E1, E3. Qed.

Lemma reject_edit_at h o n dels inss : hunk_at h o n dels inss -> reject_edit h = (n, Z.of_nat (length inss), text dels).
Proof. intros (E1&E2&_). unfold reject_edit. rewrite E1, E2. by destruct dels. Qed.

Lemma lines_ok_mid ls (l : string) ms : lines_ok (ls ++ l :: ms) -> lines_ok ls /\ line_ok l = true /\ lines_ok ms.
Proof. intros [H1 H2]%Forall_app. inversion H2; subst. done. Qed.

Lemma aligned_accept pick o n olds news kept merged hs : aligned pick o n olds news kept merged hs -> lines_ok news ->
  edits o olds kept merged (accept_edit <$> List.filter pick hs).
Proof.
  induction 1 as [|o n l olds news kept merged hs _ IH|o n h dels inss H|o n h dels inss l olds news kept merged hs H _ IH]; intros L.
  - constructor.
  - inversion L; subst. constructor. by apply IH.
  - pose proof (ed_last (pick h) o dels inss L) as E. cbn. destruct (pick h); [|done].
    cbn. by rewrite (accept_edit_at _ _ _ _ _ H).
  - apply lines_ok_mid in L as (L1&_&L2). pose proof (ed_hunk (pick h) o dels inss l _ _ _ _ L1 (IH L2)) as E.
    cbn. destruct (pick h); [|done]. cbn. by rewrite (accept_edit_at _ _ _ _ _ H).
Qed.

Lemma aligned_reject pick o n olds news kept merged hs : aligned pick o n olds news kept merged hs -> lines_ok olds ->
  edits n news kept merged (reject_edit <$> List.filter (fun h => negb (pick h)) hs).
Proof.
  induction 1 as [|o n l olds news kept merged hs _ IH|o n h dels inss H|o n h dels inss l olds news kept merged hs H _ IH]; intros L.
  - constructor.
  - inversion L; subst. constructor. by apply IH.
  - pose proof (ed_last (negb (pick h)) n inss dels L) as E. cbn. destruct (pick h); [done|].
    cbn. by rewrite (reject_edit_at _ _ _ _ _ H).
  - apply lines_ok_mid in L as (L1&_&L2). pose proof (ed_hunk (negb (pick h)) n inss dels l _ _ _ _ L1 (IH L2)) as E.
    cbn. destruct (pick h); [done|]. cbn. by rewrite (reject_edit_at _ _ _ _ _ H).
Qed.

Definition apply_edit (t : string) (e : Edit) : string := patch_lines t e.1.1 e.1.2 e.2.

Lemma edits_kept o ls kept res es : edits o ls kept res es -> (length kept <= length res)%nat.
Proof. induction 1; rewrite ?length_app; cbn in *; lia. Qed.

Lemma edits_ok o ls kept res es : edits o ls kept res es -> lines_ok ls -> lines_ok res.
Proof.
  induction 1 as [|o l ls kept res es _ IH|chosen o dels inss I|chosen o dels inss l ls kept res es I _ IH]; intros L; [done| | |].
  - inversion L; subst. constructor; [done|by apply IH].
  - by destruct chosen.
  - apply lines_ok_mid in L as (L1&L2&L3). apply Forall_app_2; [by destruct chosen|]. constructor; [done|by apply IH].
Qed.

(** The patch of one edit after the lines [before]. *)
Lemma apply_edit_text before dels inss rest : before ++ dels ++ rest <> [] ->
  lines_ok before -> lines_ok (dels ++ rest) -> lines_ok inss -> before ++ inss ++ rest <> [""] ->
  apply_edit (text (before ++ dels ++ rest)) (Z.of_nat (length before) + 1, Z.of_nat (length dels), text inss) =
  text (before ++ inss ++ rest).
Proof.
  intros N B D I R. unfold apply_edit. cbn [fst snd].
  assert (E1 : take (Z.to_nat (Z.of_nat (length before) + 1 - 1)) (before ++ dels ++ rest) = before).
  { replace (Z.to_nat _) with (length before) by lia. apply take_app_length. }
  assert (E2 : drop (Z.to_nat (Z.of_nat (length before) + 1 - 1 + Z.of_nat (length dels))) (before ++ dels ++ rest) = rest).
  { rewrite app_assoc. replace (Z.to_nat _) with (length (before ++ dels)) by (rewrite length_app; lia). apply drop_app_length. }
  rewrite patch_text; [by rewrite E1, E2|done|by apply Forall_app_2|done|lia|lia|by rewrite E1, E2].
Qed.

Lemma edits_applied o ls kept res es : edits o ls kept res es -> forall before seen,
  lines_ok before -> lines_ok ls -> guarded before seen -> o = Z.of_nat (length before) + 1 ->
  (before = [] -> ls <> []) -> (before = [] -> res <> [""]) -> seen ++ kept <> [""] ->
  foldl apply_edit (text (before ++ ls)) (rev es) = text (before ++ res).
Proof.
  induction 1 as [o|o l ls kept res es E IH|chosen o dels inss I|chosen o dels inss l ls kept res es I E IH];
    intros before seen B L G -> N R K.
  - done.
  - inversion L as [|? ? Hl Hls]; subst. 
    replace (before ++ l :: ls) with ((before ++ [l]) ++ ls) by (by rewrite <- app_assoc).
    replace (before ++ l :: res) with ((before ++ [l]) ++ res) by (by rewrite <- app_assoc).
    apply (IH _ (seen ++ [l])); [by apply Forall_app_2; [|constructor]|done|by apply (guarded_snoc before seen [] l)| | | |].
    + rewrite length_app. cbn. lia.
    + by destruct before.
    + by destruct before.
    + by rewrite <- app_assoc.
  - destruct chosen; [|done]. cbn [rev app foldl].
    pose proof (apply_edit_text before dels inss []) as P. rewrite !app_nil_r in P. apply P; [|done..|].
    + destruct before; [by apply N|done].
    + intros X. destruct before as [|b before]; [by apply R|]. rewrite app_nil_r in K.
      destruct G as [[? _]|(b'&k&l&Eb&->&Lk)]; [done|]. apply (f_equal length) in X as X'. rewrite length_app in X'. cbn in X'.
      destruct before; [|cbn in X'; lia]. destruct inss; [|cbn in X'; lia]. injection X as ->.
      destruct b' as [|? [|]]; [|done..]. injection Eb as <-. destruct k; [|cbn in Lk; lia]. done.
  - apply lines_ok_mid in L as (L1&L2&L3). pose proof (edits_kept _ _ _ _ _ E) as EK.
    assert (T : foldl apply_edit (text (before ++ dels ++ l :: ls)) (rev es) = text (before ++ dels ++ l :: res)).
    { replace (before ++ dels ++ l :: ls) with ((before ++ dels ++ [l]) ++ ls) by (by rewrite <- !app_assoc).
      replace (before ++ dels ++ l :: res) with ((before ++ dels ++ [l]) ++ res) by (by rewrite <- !app_assoc).
      apply (IH _ (seen ++ [l])); [|done|by apply guarded_snoc| | | |].
      - apply Forall_app_2; [done|]. apply Forall_app_2; [done|by constructor].
      - rewrite !length_app. cbn. lia.
      - by destruct before, dels.
      - by destruct before, dels.
      - by rewrite <- app_assoc. }
    destruct chosen; [|exact T]. cbn [rev]. rewrite foldl_app, T. cbn [foldl].
    apply apply_edit_text; [by destruct before, dels|done| |done|by apply (guarded_blank before seen inss l res kept)].
    apply Forall_app_2; [done|]. constructor; [done|]. by apply (edits_ok _ _ _ _ _ E).
Qed.

Lemma edits_blank o ls kept res es : edits o ls kept res es -> res = [""] -> kept = [""] \/ kept = [].
Proof.
  intros E R. destruct E as [o|o l ls kept res es E|chosen o dels inss I|chosen o dels inss l ls kept res es I E]; [by right| |by right|].
  - injection R as -> ->. left. f_equal. pose proof (edits_kept _ _ _ _ _ E) as K. by destruct kept; cbn in K; [|lia].
  - left. pose proof (edits_kept _ _ _ _ _ E) as K. destruct (if chosen then inss else dels) as [|x m].
    + injection R as -> ->. f_equal. by destruct kept; cbn in K; [|lia].
    + injection R as _ R. by destruct m.
Qed.

Lemma aligned_no_kept pick o n olds news merged hs : aligned pick o n olds news [] merged hs -> merged = olds \/ merged = news.
Proof. inversion 1; subst; [by left|]. destruct (pick h); auto. Qed.

Lemma foldl_fmap {A B C} (f : A -> B -> A) (g : C -> B) x l : foldl f x (g <$> l) = foldl (fun a c => f a (g c)) x l.
Proof. revert x. induction l as [|c l IH]; intros x; [done|]. rewrite fmap_cons. cbn. apply IH. Qed.

Lemma rev_fmap {A B} (f : A -> B) l : rev (f <$> l) = f <$> rev l.
Proof. by rewrite <- fmap_rev. Qed.

(** The loops of the batches are the edits from the last to the first. *)
Lemma accept_patches_edits hs t : StronglySorted (fun a b => old_start (line_info a) < old_start (line_info b)) hs ->
  accept_patches hs t = foldl apply_edit t (rev (accept_edit <$> hs)).
Proof. intros S. unfold accept_patches. rewrite sort_desc_rev by done. by rewrite rev_fmap, foldl_fmap. Qed.

Lemma reject_patches_edits hs t : StronglySorted (fun a b => new_start (line_info a) < new_start (line_info b)) hs ->
  reject_patches hs t = foldl apply_edit t (rev (reject_edit <$> hs)).
Proof. intros S. unfold reject_patches. rewrite sort_desc_rev by done. by rewrite rev_fmap, foldl_fmap. Qed.

(** A text with a line, and not only one that is empty. *)
Definition solid (ls : list string) : Prop := lines_ok ls /\ ls <> [] /\ ls <> [""].

Lemma aligned_meet pick olds news kept merged hs : solid olds -> solid news -> kept <> [""] ->
  aligned pick 1 1 olds news kept merged hs ->
  accept_patches (List.filter pick hs) (text olds) = text merged /\
  reject_patches (List.filter (fun h => negb (pick h)) hs) (text news) = text merged.
Proof.
  intros (O1&O2&O3) (N1&N2&N3) K A. destruct (aligned_starts _ _ _ _ _ _ _ _ A) as (_&S1&S2).
  pose proof (aligned_accept _ _ _ _ _ _ _ _ A N1) as EA. pose proof (aligned_reject _ _ _ _ _ _ _ _ A O1) as ER.
  assert (M : merged <> [""]).
  { intros E. destruct (edits_blank _ _ _ _ _ EA E) as [->| ->]; [done|].
    by destruct (aligned_no_kept _ _ _ _ _ _ _ A) as [<-|<-]. }
  rewrite accept_patches_edits, reject_patches_edits by (by apply StronglySorted_filter).
  split; [apply (edits_applied _ _ _ _ _ EA [] [])|apply (edits_applied _ _ _ _ _ ER [] [])];
    try done; by left.
Qed.

Lemma aligned_all_picked o n olds news kept merged hs : aligned (fun _ => true) o n olds news kept merged hs -> merged = news.
Proof. induction 1; [done|by f_equal|done|by rewrite IHaligned]. Qed.

Lemma aligned_no_hunks pick o n olds news kept merged : aligned pick o n olds news kept merged [] -> olds = news.
Proof. remember [] as hs. induction 1; simplify_eq; [done|by rewrite IHaligned]. Qed.

Lemma aligned_bounds pick o n olds news kept merged hs : aligned pick o n olds news kept merged hs ->
  Forall (fun h => let i := line_info h in 0 <= old_count i /\ 0 <= new_count i /\ o <= old_start i /\ n <= new_start i /\
    old_start i + old_count i <= o + Z.of_nat (length olds) /\ new_start i + new_count i <= n + Z.of_nat (length news)) hs.
Proof.
  induction 1 as [|o n l olds news kept merged hs _ IH|o n h dels inss (E&_)|o n h dels inss l olds news kept merged hs (E&_) _ IH].
  - constructor.
  - eapply Forall_impl; [|exact IH]. cbn. lia.
  - constructor; [|constructor]. rewrite E. cbn. lia.
  - constructor; [rewrite E; cbn; rewrite !length_app; cbn; lia|]. eapply Forall_impl; [|exact IH].
    cbn. rewrite !length_app. cbn. lia.
Qed.

Lemma usize_sub_some a b : b <= a -> usize_sub a b = Some (a - b).
Proof. intros H. unfold usize_sub. by rewrite (proj2 (Z.leb_le _ _) H). Qed.

(** The line numbers of the fragment never underflow. *)
Lemma fragment_total pick olds news kept merged hs h : lines_ok olds -> lines_ok news ->
  aligned pick 1 1 olds news kept merged hs -> h ∈ hs -> exists t, generate_hunk_patch (text olds) (text news) h = Some t.
Proof.
  intros O N A Hh. pose proof (aligned_bounds _ _ _ _ _ _ _ _ A) as B. eapply Forall_forall in B; [|by apply list_elem_of_In].
  cbn in B. unfold generate_hunk_patch. rewrite !lines_text by done. unfold CONTEXT_LINES, sat_sub in *.
  rewrite !usize_sub_some by lia. cbn. eauto.
Qed.

Section laws.
Context `{LineDiffLaws}.

(** The hunks of two texts in lines, computed within the limits. *)
Lemma compute_hunks_scan s k el p b c src hs k' : compute_hunks s k el p b c src = (hs, k') -> hs <> [] ->
  hs = sc_hunks (scan_changes s k p src (diff_lines b c)).
Proof. unfold compute_hunks. intros E N. repeat case_match; by simplify_eq. Qed.

Lemma compute_hunks_aligned s k el p olds news src hs k' pick : lines_ok olds -> lines_ok news ->
  compute_hunks s k el p (text olds) (text news) src = (hs, k') -> hs <> [] ->
  exists kept merged, aligned pick 1 1 olds news kept merged hs /\
    kept_side (diff_lines (text olds) (text news)) = ended <$> kept.
Proof.
  intros O N E Ne. rewrite (compute_hunks_scan _ _ _ _ _ _ _ _ _ E Ne).
  destruct (diff_raw olds news O N) as (rs&D&R1&R2&R3). rewrite R3, D.
  destruct (scan_aligned s p src pick k rs) as [m A]. exists (raw_kept rs), m. by rewrite <- R1, <- R2.
Qed.


(** C30: The hunks of two different texts in lines (within the size limit and the
    time limit) locate the change exactly: there is at least one, they go through
    both texts in order, the line numbers and texts of each are the lines it
    replaces and those it puts there, every line outside them is in both texts
    and one such line separates any two; and the fragment of each for a client
    can be rendered without its line arithmetic failing. *)
Theorem hunks_locate_changes s k el p olds news src : lines_ok olds -> lines_ok news -> olds <> news ->
  len (text olds) <= MAX_DIFF_FILE_SIZE -> len (text news) <= MAX_DIFF_FILE_SIZE -> el < DIFF_TIMEOUT ->
  let hs := (compute_hunks s k el p (text olds) (text news) src).1 in
  hs <> [] /\ (exists kept, aligned (fun _ => true) 1 1 olds news kept news hs) /\
  (forall h, h ∈ hs -> exists t, generate_hunk_patch (text olds) (text news) h = Some t).
Proof.
  intros O N D L1 L2 T hs. destruct (diff_raw olds news O N) as (rs&Ed&R1&R2&_).
  destruct (scan_aligned s p src (fun _ => true) k rs) as [m A]. rewrite R1, R2, <- Ed in A.
  assert (E : hs = sc_hunks (scan_changes s k p src (diff_lines (text olds) (text news)))).
  { subst hs. unfold compute_hunks. destruct (String.eqb_spec (text olds) (text news)) as [X|_].
    - destruct D. by rewrite <- (lines_text olds), X, lines_text by done.
    - rewrite !(proj2 (Z.ltb_ge _ _)) by done. by rewrite (proj2 (Z.leb_gt _ _)) by done. }
  rewrite <- E in A. split_and!.
  - intros X. rewrite X in A. by apply aligned_no_hunks in A.
  - exists (raw_kept rs). rewrite (aligned_all_picked _ _ _ _ _ _ _ A) in A. exact A.
  - intros h. by eapply fragment_total.
Qed.
End laws.

(** ** A diff that keeps the laws *)

(** Insert up to the next line of the old text when the new text still has it,
    delete it otherwise. *)
Fixpoint greedy (old : list string) : list string -> list Change :=
  fix inserting (new : list string) : list Change :=
    match old, new with
    | [], _ => (fun l => (Insert, l)) <$> new
    | _, [] => (fun l => (Delete, l)) <$> old
    | o :: old', n :: new' =>
        if o =s? n then (Equal, o) :: greedy old' new'
        else if bool_decide (o ∈ new') then (Insert, n) :: inserting new'
        else (Delete, o) :: greedy old' new
    end.

Lemma greedy_cons o old n new : greedy (o :: old) (n :: new) =
  if o =s? n then (Equal, o) :: greedy old new
  else if bool_decide (o ∈ new) then (Insert, n) :: greedy (o :: old) new else (Delete, o) :: greedy old (n :: new).
Proof. done. Qed.

(** How one more change extends the two sides. *)
Lemma sides_cons c cs : old_side (c :: cs) = (if on_old c then [c.2] else []) ++ old_side cs /\
  new_side (c :: cs) = (if on_new c then [c.2] else []) ++ new_side cs.
Proof. unfold old_side, new_side. cbn [List.filter]. by destruct (on_old c), (on_new c). Qed.

Lemma insert_sides ls : old_side ((fun l => (Insert, l)) <$> ls) = [] /\ new_side ((fun l => (Insert, l)) <$> ls) = ls.
Proof. induction ls as [|l ls [I1 I2]]; [done|]. rewrite fmap_cons. destruct (sides_cons (Insert, l) ((fun l => (Insert, l)) <$> ls)) as [-> ->]. by rewrite I1, I2. Qed.

Lemma delete_sides ls : old_side ((fun l => (Delete, l)) <$> ls) = ls /\ new_side ((fun l => (Delete, l)) <$> ls) = [].
Proof. induction ls as [|l ls [I1 I2]]; [done|]. rewrite fmap_cons. destruct (sides_cons (Delete, l) ((fun l => (Delete, l)) <$> ls)) as [-> ->]. by rewrite I1, I2. Qed.

Lemma greedy_sides old new : old_side (greedy old new) = old /\ new_side (greedy old new) = new.
Proof.
  revert new. induction old as [|o old IH]; intros new.
  - replace (greedy [] new) with ((fun l => (Insert, l)) <$> new) by (by destruct new). apply insert_sides.
  - induction new as [|n new [I1 I2]]; [apply (delete_sides (o :: old))|].
    rewrite greedy_cons. destruct (String.eqb_spec o n) as [->|_]; [|case_bool_decide].
    + destruct (sides_cons (Equal, n) (greedy old new)) as [-> ->], (IH new) as [-> ->]. done.
    + destruct (sides_cons (Insert, n) (greedy (o :: old) new)) as [-> ->]. by rewrite I1, I2.
    + destruct (sides_cons (Delete, o) (greedy old (n :: new))) as [-> ->], (IH (n :: new)) as [-> ->]. done.
Qed.

#[export] Instance greedy_diff : LineDiff :=
  {| diff_lines a b := greedy (split_inclusive LF a) (split_inclusive LF b);
     unified_diff a b ha hb := "--- " +:+ ha +:+ " +++ " +:+ hb +:+ " -" +:+ a +:+ " +" +:+ b |}.

#[export] Instance greedy_laws : LineDiffLaws.
Proof. split; intros a b _ _; apply greedy_sides. Qed.

Definition sample_supply : Supply := MkSupply (fun n => "id-" +:+ dec (Z.of_nat n)) Z.of_nat.


Lemma hunks_locate_changes_witness :
  let olds := ["one"; "two"; "three"] in let news := ["one"; "2"; "three"; "four"] in
  let hs := (compute_hunks sample_supply 0 0 "/f" (text olds) (text news) External).1 in
  line_info <$> hs = [MkLines 2 1 2 1; MkLines 4 0 4 1] /\
  exists kept, aligned (fun _ => true) 1 1 olds news kept news hs.
Proof.
  intros olds news hs. split; [reflexivity|].
  assert (O : lines_ok olds) by (repeat constructor). assert (N : lines_ok news) by (repeat constructor).
  assert (D : olds <> news) by discriminate.
  exact (proj1 (proj2 (hunks_locate_changes sample_supply 0 0 "/f" olds news External O N D
    ltac:(vm_compute; discriminate) ltac:(vm_compute; discriminate) ltac:(reflexivity)))).
Defined.

(** ** Where a patch does not meet the other text *)

Lemma one_line_changes (cs : list Change) l m : old_side cs = [l] -> new_side cs = [m] -> l <> m ->
  cs = [(Delete, l); (Insert, m)] \/ cs = [(Insert, m); (Delete, l)].
Proof.
  destruct cs as [|[t v] cs]; [done|]. destruct (sides_cons (t, v) cs) as [-> ->]. intros E1 E2 N.
  assert (Z : forall cs' : list Change, old_side cs' = [] -> new_side cs' = [] -> cs' = []).
  { intros [|[t' v'] cs']; [done|]. destruct (sides_cons (t', v') cs') as [-> ->]. by destruct t'. }
  destruct t; cbn in E1, E2.
  - injection E1 as -> _. by injection E2 as -> _.
  - injection E1 as -> E1. destruct cs as [|[t' v'] cs]; [done|]. destruct (sides_cons (t', v') cs) as [S1 S2].
    rewrite S1 in E1. rewrite S2 in E2. destruct t'; cbn in E1, E2; [done|done|]. injection E2 as -> E2.
    left. by rewrite (Z cs).
  - injection E2 as -> E2. destruct cs as [|[t' v'] cs]; [done|]. destruct (sides_cons (t', v') cs) as [S1 S2].
    rewrite S1 in E1. rewrite S2 in E2. destruct t'; cbn in E1, E2; [done| |done]. injection E1 as -> E1.
    right. by rewrite (Z cs).
Qed.

Lemma split_unended l : line_ok l = true -> l <> "" -> split_inclusive LF l = [l].
Proof.
  intros L%line_ok_no_lf. induction l as [|a l IH]; [done|]. cbn [sall] in L. apply andb_true_iff in L as [La Ll].
  apply negb_true_iff in La. intros _. cbn [split_inclusive]. rewrite La. destruct l as [|b l]; [done|]. by rewrite IH.
Qed.

Lemma ends_unended l : line_ok l = true -> ends_with (String LF "") l = false.
Proof.
  intros L%line_ok_no_lf. unfold ends_with. destruct (strip_suffix (String LF "") l) as [r|] eqn:Er; [|done].
  apply strip_suffix_some in Er. subst l. rewrite sall_app in L. by apply andb_true_iff in L as [_ ?].
Qed.

Lemma patch_final_newline l : line_ok l = true -> l <> "" -> patch_lines l 1 1 (l +:+ String LF "") = l.
Proof.
  intros L N. assert (Ll : lines l = [l]).
  { unfold lines. rewrite split_unended by done. cbn [fmap list_fmap]. unfold line_of_piece.
    by rewrite strip_suffix_char_free by (by apply line_ok_no_lf). }
  assert (Lp : lines (l +:+ String LF "") = [l]).
  { pose proof (lines_text [l]) as X. rewrite text_cons in X. apply X. by constructor. }
  unfold patch_lines. rewrite Ll, Lp, ends_unended by done. assert (is_empty (l +:+ String LF "") = false) as ->; [|done].
  apply String.eqb_neq. by intros [_ ?]%sapp_empty.
Qed.

(** A change that only ends the single line of a file is one hunk, and accepting
    it leaves the baseline as it is: the hunk is computed again. *)
Theorem final_newline_not_accepted `{LineDiffLaws} s k el p l src hs k' : line_ok l = true -> l <> "" ->
  compute_hunks s k el p l (l +:+ String LF "") src = (hs, k') -> hs <> [] ->
  exists h, hs = [h] /\ accept_patches hs l = l.
Proof.
  intros L Ne E Hn. rewrite (compute_hunks_scan _ _ _ _ _ _ _ _ _ E Hn).
  assert (C1 : no_cr l = true) by (by apply line_ok_no_cr).
  assert (C2 : no_cr (l +:+ String LF "") = true) by (unfold no_cr; rewrite sall_app; apply andb_true_iff; by split).
  pose proof (diff_old _ _ C1 C2) as D1. pose proof (diff_new _ _ C1 C2) as D2. rewrite split_unended in D1 by done.
  rewrite split_inclusive_piece in D2 by (by apply line_ok_no_lf).
  pose proof (patch_final_newline l L Ne) as P.
  destruct (one_line_changes _ _ _ D1 D2) as [-> | ->].
  { intros X. apply (f_equal String.length) in X. rewrite length_sapp in X. cbn in X. lia. }
  all: eexists; split; [reflexivity|]; unfold accept_patches, accept_patch; cbn; rewrite ?sapp_nil_r; exact P.
Qed.

(** Rejecting the change that emptied a file restores its lines without the
    newline that ended the last. *)
Theorem emptied_file_restored_unended ls : lines_ok ls -> ls <> [] -> ls <> [""] ->
  patch_lines "" 1 0 (text ls) = join (String LF "") ls /\ join (String LF "") ls <> text ls.
Proof.
  intros L N B. split.
  - unfold patch_lines. rewrite lines_text by done. assert (is_empty (text ls) = false) as ->.
    { apply String.eqb_neq. by rewrite text_nil_iff. }
    cbn. by rewrite app_nil_r.
  - rewrite <- join_text by done. intros X. apply (f_equal String.length) in X. rewrite length_sapp in X. cbn in X. lia.
Qed.

(** Two hunks around one blank line: rejecting both loses the blank line. *)
Example blank_line_lost : let baseline := text ["x"; ""] in let current := text [""; "y"] in
  let hs := (compute_hunks sample_supply 0 0 "/f" baseline current External).1 in
  length hs = 2%nat /\ reject_patches hs current = "x".
Proof. vm_compute. done. Qed.

(** A hunk after one that inserts a line: its fragment announces the line of the
    old text for both. *)
Example fragment_header : let baseline := text ["a"; "b"; "c"; "d"; "e"; "f"] in
  let current := text ["new"; "a"; "b"; "c"; "d"; "e"; "F"] in
  match (compute_hunks sample_supply 0 0 "/f" baseline current External).1 with
  | [_; h] => new_start (line_info h) = 7 /\
      generate_hunk_patch baseline current h = Some ("@@ -3,4 +3,4 @@" +:+ text [""; " c"; " d"; " e"; "-f"; "+F"])
  | _ => False
  end.
Proof. vm_compute. done. Qed.
