(* ===== verification/HunkTracker.v ===== *)
(** * [xai-hunk-tracker]: the tracker

    The actor of [actor/]: the state it keeps for each file, the classification
    of contents ([file_utils.rs]), the baselines it reads from git ([git.rs]),
    the recomputation of hunks with the events it sends ([hunks.rs]), accepting
    and rejecting ([actions.rs]), the handlers of writes and notifications
    ([mutations.rs]), the queries ([queries.rs]) and the loop with its coalescing
    and snapshots ([mod.rs]).  The file system, git and the clock answer through
    a [World]; what the actor does to the outside (events, writes, removals) is
    recorded in order.  Maps are iterated in an order of which only that it
    covers the map is known. *)

From S2P Require Import Prelude RustStr Paths HunkDiff.

Open Scope Z_scope.

(** ** [state.rs] *)

Definition MAX_TRACKED_TEXT_BYTES : Z := 1024 * 1024.

Inductive FileContentState : Type :=
| Missing
| Binary (byte_len : option Z)
| TooLarge (byte_len : Z)
| LfsPointer (byte_len : Z)
| Symlink
| Full (content : string).

#[export] Instance FileContentState_eq_dec : EqDecision FileContentState.
Proof. solve_decision. Defined.

Definition as_str (c : FileContentState) : option string := match c with Full s => Some s | _ => None end.

Definition is_diffable (c : FileContentState) : bool := match c with Full _ => true | _ => false end.

Definition content_byte_len (c : FileContentState) : option Z :=
  match c with
  | Missing => Some 0
  | Binary n => n
  | TooLarge n | LfsPointer n => Some n
  | Symlink => None
  | Full s => Some (len s)
  end.

Definition is_missing (c : FileContentState) : bool := match c with Missing => true | _ => false end.

(** The repository handle is its root. *)
Inductive GitRepoState : Type := Unknown | NotARepo | Discovered (repo prefix : string).

Record RepoSyncState : Type := MkSync { head_oid : option string; index_mtime : option Z }.

#[export] Instance RepoSyncState_eq_dec : EqDecision RepoSyncState.
Proof. solve_decision. Defined.

Record FileHunkState : Type := MkFile {
  baseline : FileContentState;
  current_content : FileContentState;
  hunks : list Hunk;
  is_agent_file : bool;
  baseline_accepted : bool;
}.

Definition set_hunks (hs : list Hunk) (f : FileHunkState) : FileHunkState :=
  MkFile (baseline f) (current_content f) hs (is_agent_file f) (baseline_accepted f).
Definition set_current (c : FileContentState) (f : FileHunkState) : FileHunkState :=
  MkFile (baseline f) c (hunks f) (is_agent_file f) (baseline_accepted f).
Definition set_baseline (b : FileContentState) (f : FileHunkState) : FileHunkState :=
  MkFile b (current_content f) (hunks f) (is_agent_file f) (baseline_accepted f).
Definition set_agent (f : FileHunkState) : FileHunkState :=
  MkFile (baseline f) (current_content f) (hunks f) true (baseline_accepted f).
Definition set_accepted (b : bool) (f : FileHunkState) : FileHunkState :=
  MkFile (baseline f) (current_content f) (hunks f) (is_agent_file f) b.

(** ** [file_utils.rs] *)

Definition LFS_POINTER_PREFIX : string := "version https://git-lfs.github.com/spec/v1" +:+ String LF "".

Definition is_lfs_pointer (bytes : string) : bool := (len bytes <? 1024) && starts_with LFS_POINTER_PREFIX bytes.

Definition is_binary (content : string) : bool := contains_byte "000" (stake (Z.to_nat 8000) content).

Definition from_utf8 (byte_len : Z) (bytes : string) : FileContentState :=
  if utf8 bytes then Full bytes else Binary (Some byte_len).

Definition classify_bytes (bytes : string) : FileContentState :=
  let byte_len := len bytes in
  if MAX_TRACKED_TEXT_BYTES <? byte_len then TooLarge byte_len
  else if is_lfs_pointer bytes then LfsPointer byte_len
  else if is_binary bytes then Binary (Some byte_len)
  else from_utf8 byte_len bytes.

Definition classify_string (s : string) : FileContentState :=
  let byte_len := len s in
  if MAX_TRACKED_TEXT_BYTES <? byte_len then TooLarge byte_len
  else if is_lfs_pointer s then LfsPointer byte_len
  else if is_binary s then Binary (Some byte_len)
  else Full s.

Definition missing_content : FileContentState := Missing.

(** The answers of the file system about one file: [lstat] (whether it is a link
    and its length), whether it opens, the bytes a read into a buffer of a given
    size gives, and those that follow. *)
Record FileRead : Type := MkRead {
  lstat : option (bool * Z); opens : bool; first_read : Z -> option string; read_to_end : option string }.

Definition read_file_bounded (f : FileRead) : FileContentState :=
  match lstat f with
  | None => missing_content
  | Some (is_symlink, byte_len) =>
      if is_symlink then Symlink
      else if MAX_TRACKED_TEXT_BYTES <? byte_len then TooLarge byte_len
      else if negb (opens f) then missing_content
      else let prefix_size := Z.min 8000 byte_len in
           match first_read f prefix_size with
           | None => missing_content
           | Some prefix_buf =>
               if is_lfs_pointer prefix_buf then LfsPointer byte_len
               else if is_binary prefix_buf then Binary (Some byte_len)
               else if prefix_size <? byte_len
                    then match read_to_end f with
                         | None => missing_content
                         | Some rest => from_utf8 byte_len (prefix_buf +:+ rest)
                         end
                    else from_utf8 byte_len prefix_buf
           end
  end.

(** ** [events.rs] *)

Inductive HunkRemovalReason : Type := Accepted | Rejected | Superseded.

#[export] Instance HunkRemovalReason_eq_dec : EqDecision HunkRemovalReason.
Proof. solve_decision. Defined.

Inductive HunkEvent : Type :=
| HunkAdded (path : string) (hunk : Hunk)
| HunkRemoved (path : string) (hunk_id : HunkId) (reason : HunkRemovalReason)
| HunkMoved (path : string) (hunk_id : HunkId) (new_line_info : HunkLineInfo)
| HunkContentChanged (path : string) (hunk : Hunk) (trigger_source : HunkSource) (prev_lines_added prev_lines_removed : Z)
| FileAdded (path : string) (is_agent_file : bool)
| FileRemoved (path : string)
| BaselineUpdated (path : string).

(** What the actor does to the outside, in order. *)
Inductive Effect : Type := Sent (e : HunkEvent) | Wrote (path content : string) | Deleted (path : string).

(** ** The actor's state *)

Inductive TrackingMode : Type := AgentOnly | AllDirty.

#[export] Instance TrackingMode_eq_dec : EqDecision TrackingMode.
Proof. solve_decision. Defined.

Record SessionStats : Type := MkStats {
  accepted_hunks : Z; rejected_hunks : Z;
  accepted_lines_added : Z; accepted_lines_removed : Z;
  rejected_lines_added : Z; rejected_lines_removed : Z }.

Definition stats_default : SessionStats := MkStats 0 0 0 0 0 0.

(** The channels and the session id are left out; [issued] counts the
    identifiers drawn and [effects] is what was done so far. *)
Record Tracker : Type := MkTracker {
  working_dir : string;
  file_states : gmap string FileHunkState;
  turn_index : gmap Z (gset HunkId);
  git_dirty_cache : gset string;
  git_staged_cache : gset string;
  git_repo_state : GitRepoState;
  repo_sync_state : RepoSyncState;
  mode : TrackingMode;
  session_stats : SessionStats;
  issued : nat;
  effects : list Effect;
}.

Definition tracker_new (wd : string) (m : TrackingMode) : Tracker :=
  MkTracker wd ∅ ∅ ∅ ∅ Unknown (MkSync None None) m stats_default 0 [].

Definition set_files (fs : gmap string FileHunkState) (t : Tracker) : Tracker :=
  MkTracker (working_dir t) fs (turn_index t) (git_dirty_cache t) (git_staged_cache t) (git_repo_state t) (repo_sync_state t)
    (mode t) (session_stats t) (issued t) (effects t).
Definition set_index (i : gmap Z (gset HunkId)) (t : Tracker) : Tracker :=
  MkTracker (working_dir t) (file_states t) i (git_dirty_cache t) (git_staged_cache t) (git_repo_state t) (repo_sync_state t)
    (mode t) (session_stats t) (issued t) (effects t).
Definition set_caches (dirty staged : gset string) (t : Tracker) : Tracker :=
  MkTracker (working_dir t) (file_states t) (turn_index t) dirty staged (git_repo_state t) (repo_sync_state t)
    (mode t) (session_stats t) (issued t) (effects t).
Definition set_repo (r : GitRepoState) (t : Tracker) : Tracker :=
  MkTracker (working_dir t) (file_states t) (turn_index t) (git_dirty_cache t) (git_staged_cache t) r (repo_sync_state t)
    (mode t) (session_stats t) (issued t) (effects t).
Definition set_sync (r : RepoSyncState) (t : Tracker) : Tracker :=
  MkTracker (working_dir t) (file_states t) (turn_index t) (git_dirty_cache t) (git_staged_cache t) (git_repo_state t) r
    (mode t) (session_stats t) (issued t) (effects t).
Definition set_tracking (m : TrackingMode) (t : Tracker) : Tracker :=
  MkTracker (working_dir t) (file_states t) (turn_index t) (git_dirty_cache t) (git_staged_cache t) (git_repo_state t) (repo_sync_state t)
    m (session_stats t) (issued t) (effects t).
Definition set_stats (s : SessionStats) (t : Tracker) : Tracker :=
  MkTracker (working_dir t) (file_states t) (turn_index t) (git_dirty_cache t) (git_staged_cache t) (git_repo_state t) (repo_sync_state t)
    (mode t) s (issued t) (effects t).
Definition set_issued (k : nat) (t : Tracker) : Tracker :=
  MkTracker (working_dir t) (file_states t) (turn_index t) (git_dirty_cache t) (git_staged_cache t) (git_repo_state t) (repo_sync_state t)
    (mode t) (session_stats t) k (effects t).
Definition set_dir (wd : string) (t : Tracker) : Tracker :=
  MkTracker wd (file_states t) (turn_index t) (git_dirty_cache t) (git_staged_cache t) (git_repo_state t) (repo_sync_state t)
    (mode t) (session_stats t) (issued t) (effects t).
Definition emit (es : list Effect) (t : Tracker) : Tracker :=
  MkTracker (working_dir t) (file_states t) (turn_index t) (git_dirty_cache t) (git_staged_cache t) (git_repo_state t) (repo_sync_state t)
    (mode t) (session_stats t) (issued t) (effects t ++ es).

Definition send_event (e : HunkEvent) (t : Tracker) : Tracker := emit [Sent e] t.
Definition send_events (es : list HunkEvent) (t : Tracker) : Tracker := emit (Sent <$> es) t.

(** [file_states.get_mut(path)] and a change of what is there. *)
Definition update_file (p : string) (f : FileHunkState -> FileHunkState) (t : Tracker) : Tracker :=
  set_files (alter f p (file_states t)) t.
Definition insert_file (p : string) (f : FileHunkState) (t : Tracker) : Tracker :=
  set_files (<[p := f]> (file_states t)) t.
Definition tracked (p : string) (t : Tracker) : bool := bool_decide (is_Some (file_states t !! p)).

(** ** The world *)

Inductive TreeEntry : Type := LinkEntry | BlobEntry (data : string) | OtherEntry.

(** What git answers during one command: whether a blocking task finishes, the
    work tree found from a directory, the entry of the tree of [HEAD], whether the
    index is there, the changed paths (with whether the change is staged), and the
    identity of [HEAD] and index. *)
Record Git : Type := MkGit {
  task_finishes : bool;
  discover : string -> option string;
  canonicalize : string -> option string;
  head_entry : string -> string -> option TreeEntry;
  index_present : string -> bool;
  status : string -> list string -> option (list (string * bool));
  sync_of : string -> RepoSyncState;
}.

Record World : Type := MkWorld {
  diff_elapsed : string -> string -> Z;
  fs_write : string -> string -> option string;
  fs_remove : string -> option string;
  fs_read : string -> FileRead;
  fs_exists : string -> bool;
  fs_is_dir : string -> bool;
  git : Git;
}.

(** The order in which a hash map and a hash set are iterated. *)
Class HashOrder : Type := {
  order : forall {A}, gmap string A -> list (string * A);
  order_perm : forall A (m : gmap string A), order m ≡ₚ map_to_list m;
  set_order : gset string -> list string;
  set_order_perm : forall s, set_order s ≡ₚ elements s;
}.

#[export] Instance map_order : HashOrder :=
  {| order := fun A m => map_to_list m; order_perm := fun A m => Permutation_refl _;
     set_order := fun s => elements s; set_order_perm := fun s => Permutation_refl _ |}.

Section tracker.
Context (supply : Supply) `{LineDiff} `{HashOrder}.
Implicit Types (w : World) (t : Tracker).

(** ** [git.rs] *)

(** The repository, the prefix, and what a first discovery found. *)
Definition open_or_discover (g : Git) (cached_state : GitRepoState) (wd : string)
  : option (string * string * option (string * string)) :=
  match cached_state with
  | Discovered repo prefix => Some (repo, prefix, None)
  | Unknown =>
      repo ← discover g wd;
      let canonical_working_dir := unwrap_or wd (canonicalize g wd) in
      let canonical_repo_root := unwrap_or repo (canonicalize g repo) in
      prefix ← strip_path_prefix canonical_working_dir canonical_repo_root;
      Some (repo, prefix, Some (repo, prefix))
  | NotARepo => None
  end.

Definition canonicalize_or_parent (g : Git) (p : string) : string :=
  match canonicalize g p with
  | Some c => c
  | None => unwrap_or p (cp ← (d ← parent p; canonicalize g d); f ← file_name p; Some (push cp f))
  end.

(** A blocking task over the repository: its result, [absent] without one, and
    what the actor caches of the discovery; nothing when the task does not
    finish. *)
Definition git_task {A} w t (absent : A) (body : string -> string -> A) : option A * Tracker :=
  if negb (task_finishes (git w)) then (None, t)
  else match open_or_discover (git w) (git_repo_state t) (working_dir t) with
       | None => (Some absent, match git_repo_state t with Unknown => set_repo NotARepo t | _ => t end)
       | Some (repo, prefix, discovered) =>
           (Some (body repo prefix), match discovered with Some (r, p) => set_repo (Discovered r p) t | None => t end)
       end.

(** The content of one path in the tree of [HEAD]. *)
Definition head_content (g : Git) (repo prefix canonical_wd p : string) : option FileContentState :=
  rel ← strip_path_prefix (canonicalize_or_parent g p) canonical_wd;
  entry ← head_entry g repo (push prefix rel);
  match entry with
  | LinkEntry => Some Symlink
  | BlobEntry data => Some (classify_bytes data)
  | OtherEntry => None
  end.

Definition not_a_repo t : bool := match git_repo_state t with NotARepo => true | _ => false end.

Definition read_baseline w t (p : string) : FileContentState * Tracker :=
  if not_a_repo t then (missing_content, t)
  else let '(r, t') := git_task w t missing_content (fun repo prefix =>
         unwrap_or missing_content
           (head_content (git w) repo prefix (unwrap_or (working_dir t) (canonicalize (git w) (working_dir t))) p)) in
       (unwrap_or missing_content r, t').

Definition read_baselines_batch w t (paths : list string) : gmap string FileContentState * Tracker :=
  if bool_decide (paths = []) || not_a_repo t then (∅, t)
  else let '(r, t') := git_task w t (list_to_map ((fun p => (p, missing_content)) <$> paths)) (fun repo prefix =>
         list_to_map ((fun p => (p, unwrap_or missing_content
           (head_content (git w) repo prefix (unwrap_or (working_dir t) (canonicalize (git w) (working_dir t))) p))) <$> paths)) in
       (unwrap_or ∅ r, t').

Definition read_repo_sync_state w t : option RepoSyncState * Tracker :=
  if not_a_repo t then (None, t)
  else let '(r, t') := git_task w t None (fun repo _ => Some (sync_of (git w) repo)) in (unwrap_or None r, t').

(** ** [hunks.rs] *)

(** The hunks of the two contents; only texts are compared. *)
Definition content_hunks w (k : nat) (p : string) (b c : FileContentState) (source : HunkSource) : list Hunk * nat :=
  match b, c with
  | Full b, Full c => compute_hunks supply k (diff_elapsed w b c) p b c source
  | Full b, Missing => if is_empty b then ([], k) else ([file_deleted (uuid supply k) (now supply k) p b source], S k)
  | Missing, Full c => if is_empty c then ([], k) else ([file_created (uuid supply k) (now supply k) p c source], S k)
  | _, _ => ([], k)
  end.

(** The identity an old hunk passes on, and its attribution to the agent when
    the new edit is external. *)
Definition inherit (new_hunk best_match : Hunk) : Hunk :=
  MkHunk (h_id best_match) (h_path new_hunk) (line_info new_hunk)
    (if is_external (h_source new_hunk) && is_agent_edit (h_source best_match) then h_source best_match else h_source new_hunk)
    (old_text new_hunk) (new_text new_hunk) (h_patch new_hunk) (created_at new_hunk) (selected new_hunk).

(** The loop over the new hunks, with the identities already claimed. *)
Fixpoint preserve_ids (old_hunks : list Hunk) (claimed : gset HunkId) (new_hunks : list Hunk) : list Hunk :=
  match new_hunks with
  | [] => []
  | h :: rest =>
      match find_matching_old_hunk h old_hunks with
      | Some best_match =>
          if bool_decide (h_id best_match ∈ claimed) then h :: preserve_ids old_hunks claimed rest
          else inherit h best_match :: preserve_ids old_hunks ({[h_id best_match]} ∪ claimed) rest
      | None => h :: preserve_ids old_hunks claimed rest
      end
  end.

Definition index_remove (i : gmap Z (gset HunkId)) (h : Hunk) : gmap Z (gset HunkId) :=
  match source_prompt_index (h_source h) with Some p => alter (fun s => s ∖ {[h_id h]}) p i | None => i end.

Definition index_add (i : gmap Z (gset HunkId)) (h : Hunk) : gmap Z (gset HunkId) :=
  match source_prompt_index (h_source h) with Some p => <[p := {[h_id h]} ∪ unwrap_or ∅ (i !! p)]> i | None => i end.

(** [emit_hunk_diff_events] *)
Definition removed_events (p : string) (old_hunks new_hunks : list Hunk) : list HunkEvent :=
  filter_map (fun o => if existsb (fun n => hunks_overlap o n || hunks_match_content o n) new_hunks then None
                       else Some (HunkRemoved p (h_id o) Superseded)) old_hunks.

Definition changed_event (p : string) (old_hunks : list Hunk) (trigger_source : HunkSource) (n : Hunk) : option HunkEvent :=
  match List.find (fun o => hunks_match_content o n) old_hunks with
  | Some o => if hunk_moved o n then Some (HunkMoved p (h_id o) (line_info n)) else None
  | None =>
      if negb (existsb (fun o => hunks_overlap o n) old_hunks) then Some (HunkAdded p n)
      else let prev := or_else (List.find (fun o => h_id o =s? h_id n) old_hunks) (List.find (fun o => hunks_overlap o n) old_hunks) in
           let '(a, r) := match prev with Some h => (new_count (line_info h), old_count (line_info h)) | None => (0, 0) end in
           Some (HunkContentChanged p n trigger_source a r)
  end.

Definition hunk_diff_events (p : string) (old_hunks new_hunks : list Hunk) (trigger_source : HunkSource) : list HunkEvent :=
  removed_events p old_hunks new_hunks ++ filter_map (changed_event p old_hunks trigger_source) new_hunks.

Definition recompute_hunks w t (p : string) (new_current : option FileContentState) (source : HunkSource) : Tracker :=
  match file_states t !! p with
  | None => t
  | Some f =>
      let old_hunks := hunks f in
      let c := unwrap_or missing_content new_current in
      let '(computed, k) := content_hunks w (issued t) p (baseline f) c source in
      let new_hunks := preserve_ids old_hunks ∅ computed in
      let t1 := insert_file p (set_hunks new_hunks (set_current c f)) (set_issued k t) in
      let t2 := set_index (foldl index_add (foldl index_remove (turn_index t) old_hunks) new_hunks) t1 in
      send_events (hunk_diff_events p old_hunks new_hunks source) t2
  end.

(** The source of the first hunk that remains. *)
Definition remaining_source t (p : string) : HunkSource :=
  unwrap_or External (h_source <$> (f ← file_states t !! p; head (hunks f))).

(** ** [actions.rs] *)

Inductive HunkAction : Type := Accept | Reject.

Inductive HunkActionError : Type :=
| HunkNotFound (id : HunkId)
| WriteError (path source : string)
| DeleteError (path source : string)
| ReadError (path source : string).

Definition update_session_stats (i : HunkLineInfo) (action : HunkAction) (s : SessionStats) : SessionStats :=
  let add := sat_add usize_max in
  match action with
  | Accept => MkStats (add (accepted_hunks s) 1) (rejected_hunks s)
                (add (accepted_lines_added s) (new_count i)) (add (accepted_lines_removed s) (old_count i))
                (rejected_lines_added s) (rejected_lines_removed s)
  | Reject => MkStats (accepted_hunks s) (add (rejected_hunks s) 1)
                (accepted_lines_added s) (accepted_lines_removed s)
                (add (rejected_lines_added s) (new_count i)) (add (rejected_lines_removed s) (old_count i))
  end.

(** The statistics and the index, before a hunk is acted on. *)
Definition count_action (action : HunkAction) t (h : Hunk) : Tracker :=
  set_index (index_remove (turn_index t) h) (set_stats (update_session_stats (line_info h) action (session_stats t)) t).

Definition without_ids (ids : list HunkId) (hs : list Hunk) : list Hunk :=
  List.filter (fun h => negb (bool_decide (h_id h ∈ ids))) hs.

Definition removal_events (p : string) (reason : HunkRemovalReason) (hs : list Hunk) : list HunkEvent :=
  (fun h => HunkRemoved p (h_id h) reason) <$> hs.

(** [accept_hunks_batch]; [accept_hunk] does the same for one hunk. *)
Definition patch_baseline (hs : list Hunk) (b : FileContentState) : FileContentState :=
  match b with Full s => Full (accept_patches hs s) | _ => b end.

Definition accept_hunks_batch w t (p : string) (hs : list Hunk) : Tracker :=
  match hs, file_states t !! p with
  | [], _ | _, None => t
  | _, Some f =>
      let created := is_missing (baseline f) in
      let f' := set_hunks (without_ids (h_id <$> hs) (hunks f)) (set_accepted true
                  (set_baseline (if created then current_content f else patch_baseline hs (baseline f)) f)) in
      let t1 := send_events (removal_events p Accepted hs ++ [BaselineUpdated p]) (insert_file p f' t) in
      if created then t1 else recompute_hunks w t1 p (Some (current_content f)) (remaining_source t1 p)
  end.

Definition accept_hunk w t (p : string) (h : Hunk) : Tracker :=
  match file_states t !! p with
  | None => t
  | Some f =>
      let created := is_missing (baseline f) in
      let patched := match baseline f with Full s => Full (accept_patch s h) | b => b end in
      let f' := set_hunks (List.filter (fun x => negb (h_id x =s? h_id h)) (hunks f)) (set_accepted true
                  (set_baseline (if created then current_content f else patched) f)) in
      let t1 := send_events [HunkRemoved p (h_id h) Accepted; BaselineUpdated p] (insert_file p f' t) in
      if created then t1 else recompute_hunks w t1 p (Some (current_content f)) (remaining_source t1 p)
  end.

Inductive RejectAction : Type := RestoreDeleted (baseline : string) | DeleteCreated | RevertChange (patched : string) | NoOp.

Definition reject_action (f : FileHunkState) (revert : string -> string) : RejectAction :=
  match current_content f, baseline f with
  | Missing, Full b => RestoreDeleted b
  | Full _, Missing => DeleteCreated
  | Full c, _ => RevertChange (revert c)
  | _, _ => NoOp
  end.

Definition write_content w t (p content : string) : result HunkActionError Tracker :=
  match fs_write w p content with Some e => Err (WriteError p e) | None => Ok (emit [Wrote p content] t) end.

Definition remove_file w t (p : string) : result HunkActionError Tracker :=
  match fs_remove w p with Some e => Err (DeleteError p e) | None => Ok (emit [Deleted p] t) end.

(** The file is written or removed, then the state is brought in line with it;
    an error of the file system returns before that. *)
Definition perform_reject w t (p : string) (f : FileHunkState) (hs remaining : list Hunk) (action : RejectAction)
  : result HunkActionError unit * Tracker :=
  let events := removal_events p Rejected hs in
  let settle c t := send_events events (insert_file p (set_hunks remaining (set_current c f)) t) in
  match action with
  | RestoreDeleted b =>
      match write_content w t p b with
      | Err e => (Err e, t)
      | Ok t1 => (Ok tt, settle (Full b) t1)
      end
  | DeleteCreated =>
      match remove_file w t p with
      | Err e => (Err e, t)
      | Ok t1 => (Ok tt, settle Missing t1)
      end
  | RevertChange patched =>
      match write_content w t p patched with
      | Err e => (Err e, t)
      | Ok t1 => let t2 := settle (Full patched) t1 in
                 (Ok tt, recompute_hunks w t2 p (Some (Full patched)) (remaining_source t2 p))
      end
  | NoOp => (Ok tt, t)
  end.

Definition reject_hunk w t (p : string) (h : Hunk) : result HunkActionError unit * Tracker :=
  match file_states t !! p with
  | None => (Ok tt, t)
  | Some f => perform_reject w t p f [h] (List.filter (fun x => negb (h_id x =s? h_id h)) (hunks f))
                (reject_action f (fun c => reject_patch c h))
  end.

Definition reject_hunks_batch w t (p : string) (hs : list Hunk) : result HunkActionError unit * Tracker :=
  match hs, file_states t !! p with
  | [], _ | _, None => (Ok tt, t)
  | _, Some f => perform_reject w t p f hs (without_ids (h_id <$> hs) (hunks f)) (reject_action f (reject_patches hs))
  end.

Definition apply_hunk_action w t (hunk_id : HunkId) (action : HunkAction) : result HunkActionError unit * Tracker :=
  match find_map (fun '(p, f) => (fun h => (p, h)) <$> List.find (fun h => h_id h =s? hunk_id) (hunks f)) (order (file_states t)) with
  | None => (Err (HunkNotFound hunk_id), t)
  | Some (p, h) =>
      let t1 := count_action action t h in
      match action with
      | Accept => (Ok tt, accept_hunk w t1 p h)
      | Reject => reject_hunk w t1 p h
      end
  end.

Fixpoint apply_action_batch w t (files : list (string * list Hunk)) (action : HunkAction) (affected : list HunkId)
  : result HunkActionError (list HunkId) * Tracker :=
  match files with
  | [] => (Ok affected, t)
  | (p, hs) :: rest =>
      let t1 := foldl (count_action action) t hs in
      let affected' := affected ++ (h_id <$> hs) in
      match action with
      | Accept => apply_action_batch w (accept_hunks_batch w t1 p hs) rest action affected'
      | Reject => match reject_hunks_batch w t1 p hs with
                  | (Err e, t2) => (Err e, t2)
                  | (Ok _, t2) => apply_action_batch w t2 rest action affected'
                  end
      end
  end.

Definition apply_file_action w t (p : string) (action : HunkAction) : result HunkActionError (list HunkId) * Tracker :=
  match file_states t !! p with
  | None => (Ok [], t)
  | Some f => match hunks f with [] => (Ok [], t) | hs => apply_action_batch w t [(p, hs)] action [] end
  end.

Definition apply_all_action w t (action : HunkAction) : result HunkActionError (list HunkId) * Tracker :=
  let files := (fun '(p, f) => (p, hunks f)) <$> List.filter (fun '(_, f) => negb (bool_decide (hunks f = []))) (order (file_states t)) in
  match files with [] => (Ok [], t) | _ => apply_action_batch w t files action [] end.

(** The hunks of one turn, for the files that have any. *)
Definition turn_hunks (prompt_index : Z) (f : FileHunkState) : list Hunk :=
  List.filter (fun h => bool_decide (source_prompt_index (h_source h) = Some prompt_index)) (hunks f).

Definition files_of_turn t (prompt_index : Z) : gmap string (list Hunk) :=
  omap (fun f => match turn_hunks prompt_index f with [] => None | hs => Some hs end) (file_states t).

Definition apply_turn_action w t (prompt_index : Z) (action : HunkAction) : result HunkActionError (list HunkId) * Tracker :=
  match order (files_of_turn t prompt_index) with
  | [] => (Ok [], t)
  | files => apply_action_batch w t files action []
  end.

(** ** [mutations.rs] *)

Definition strip_single_trailing_newline (content : string) : string :=
  unwrap_or content (or_else (strip_suffix (String CR (String LF "")) content) (strip_suffix (String LF "") content)).

Definition new_file (b c : FileContentState) (agent : bool) : FileHunkState := MkFile b c [] agent false.

Definition record_agent_write w t (p content : string) (prompt_index : Z) (previous_content : option string) : Tracker :=
  let source := AgentEdit prompt_index in
  let current_state := classify_string content in
  if negb (is_diffable current_state) then
    if negb (tracked p t) then
      let '(b, t1) := match previous_content with
                      | Some prev => (classify_string prev, t)
                      | None => read_baseline w t p
                      end in
      send_event (FileAdded p true) (insert_file p (new_file b current_state true) t1)
    else update_file p (fun f => set_hunks [] (set_current current_state (set_agent f))) t
  else
    let t1 :=
      if negb (tracked p t) then
        let '(b, t1) := read_baseline w t p in
        let b' := match b with
                  | Missing => unwrap_or missing_content (classify_string <$> previous_content)
                  | other => other
                  end in
        send_event (FileAdded p true) (insert_file p (new_file b' current_state true) t1)
      else update_file p set_agent t in
    recompute_hunks w t1 p (Some current_state) source.

(** The path as the caches of git have it. *)
Definition cache_path t (p : string) : string := unwrap_or p (strip_path_prefix p (working_dir t)).
Definition git_dirty t (p : string) : bool := bool_decide (cache_path t p ∈ git_dirty_cache t).

(** Neither in [HEAD] nor dirty, and not a directory: ignored by git. *)
Definition git_ignored w t (p : string) (b : FileContentState) : bool :=
  bool_decide (mode t = AllDirty) && is_missing b && negb (fs_is_dir w p) && negb (git_dirty t p).

Definition content_matches_head t (p : string) (current head : FileContentState) : bool :=
  match current, head with
  | Full c, Full h => strip_single_trailing_newline c =s? strip_single_trailing_newline h
  | Missing, Missing | Binary _, Binary _ | TooLarge _, TooLarge _ | LfsPointer _, LfsPointer _ | Symlink, Symlink => true
  | Symlink, Full _ | Full _, Symlink => negb (git_dirty t p)
  | _, _ => false
  end.

(** The baseline that was read before, or a read of it now. *)
Definition baseline_or_read w t (preloaded : option FileContentState) (p : string) : FileContentState * Tracker :=
  match preloaded with Some b => (b, t) | None => read_baseline w t p end.

Definition external_source t (p : string) : HunkSource :=
  if unwrap_or false (is_agent_file <$> file_states t !! p) then ExternalEditOnAgentFile else External.

Definition process_file_change w t (p : string) (preloaded : option FileContentState) : Tracker :=
  if bool_decide (mode t = AgentOnly) && negb (tracked p t) then t
  else
    let current_state := read_file_bounded (fs_read w p) in
    if negb (is_diffable current_state) && negb (tracked p t) then
      let '(b, t1) := if bool_decide (mode t = AllDirty) then baseline_or_read w t preloaded p else (missing_content, t) in
      if git_ignored w t1 p b then t1
      else
        let t2 := send_event (FileAdded p false) (insert_file p (new_file b current_state false) t1) in
        if is_diffable b then recompute_hunks w t2 p None External else t2
    else if negb (tracked p t) then
      let '(b, t1) := baseline_or_read w t preloaded p in
      if git_ignored w t1 p b then t1
      else
        let t2 := send_event (FileAdded p false) (insert_file p (new_file b missing_content false) t1) in
        recompute_hunks w t2 p (Some current_state) (external_source t2 p)
    else if unwrap_or false (baseline_accepted <$> file_states t !! p) then
      let '(h, t1) := baseline_or_read w t preloaded p in
      if content_matches_head t1 p current_state h
      then update_file p (fun f => set_hunks [] (set_accepted false (set_current h (set_baseline h f)))) t1
      else recompute_hunks w t1 p (Some current_state) (external_source t1 p)
    else recompute_hunks w t p (Some current_state) (external_source t p).

Definition handle_file_change w t (p : string) : Tracker := process_file_change w t p None.

Definition handle_file_changes_batch w t (paths : list string) : Tracker :=
  match paths with
  | [] => t
  | _ =>
      let baseline_paths := List.filter (fun p =>
        if bool_decide (mode t = AgentOnly) && negb (tracked p t) then false
        else negb (tracked p t) || unwrap_or false (baseline_accepted <$> file_states t !! p)) paths in
      let '(baselines, t1) := match baseline_paths with [] => (∅, t) | _ => read_baselines_batch w t baseline_paths end in
      (foldl (fun '(bs, t) p => (delete p bs, process_file_change w t p (bs !! p))) (baselines, t1) paths).2
  end.

Definition handle_file_deleted w t (p : string) : Tracker :=
  if negb (tracked p t) then
    if bool_decide (mode t = AgentOnly) then t
    else if fs_exists w p then t
    else
      let '(b, t1) := read_baseline w t p in
      if is_missing b then t1
      else recompute_hunks w (send_event (FileAdded p false) (insert_file p (new_file b missing_content false) t1)) p None External
  else if fs_exists w p then handle_file_change w t p
  else recompute_hunks w t p None (external_source t p).

(** All hunks of a file leave the index. *)
Definition unindex (hs : list Hunk) t : Tracker := set_index (foldl index_remove (turn_index t) hs) t.

Definition reset_baseline t (p : string) : Tracker :=
  match file_states t !! p with
  | None => t
  | Some f =>
      let t1 := insert_file p (set_hunks [] (set_accepted false (set_baseline (current_content f) f))) t in
      send_events (removal_events p Superseded (hunks f) ++ [BaselineUpdated p]) (unindex (hunks f) t1)
  end.

(** [refresh_git_dirty_cache] *)
Definition status_paths (g : Git) (repo prefix : string) (scope : option (list string)) : list (string * bool) :=
  if negb (index_present g repo) then []
  else let pathspecs := (fun rel => ":(top,literal)" +:+ push prefix rel) <$> unwrap_or [] scope in
       match status g repo pathspecs with
       | None => []
       | Some items => filter_map (fun '(location, staged) => (fun rel => (rel, staged)) <$> strip_path_prefix location prefix) items
       end.

Definition refresh_git_dirty_cache w t (scope : option (list string)) : Tracker :=
  if not_a_repo t then t
  else match git_task w t [] (fun repo prefix => status_paths (git w) repo prefix scope) with
       | (None, t1) => t1
       | (Some items, t1) =>
           let dirty : gset string := list_to_set items.*1 in
           let staged : gset string := list_to_set (List.filter snd items).*1 in
           let to_track := List.filter (fun rel => negb (tracked (push (working_dir t1) rel) t1)) (set_order dirty) in
           let t2 := set_caches dirty staged t1 in
           if bool_decide (mode t2 = AllDirty)
           then foldl (fun t rel => handle_file_change w t (push (working_dir t) rel)) t2 to_track
           else t2
       end.

(** A file that is now clean: its hunks go, and its entry unless the agent wrote it. *)
Definition drop_hunks (p : string) (f : FileHunkState) (last : HunkEvent) t : Tracker :=
  send_events (removal_events p Superseded (hunks f) ++ [last]) (unindex (hunks f) t).

Definition is_clean w t (p : string) (b c : FileContentState) : bool :=
  match b, c with
  | Full b, Full c => strip_single_trailing_newline b =s? strip_single_trailing_newline c
  | Binary _, Binary _ | TooLarge _, TooLarge _ | LfsPointer _, LfsPointer _ | Symlink, Symlink => negb (git_dirty t p)
  | LfsPointer _, _ | _, LfsPointer _ => negb (git_dirty t p)
  | Symlink, Full _ | Full _, Symlink => negb (git_dirty t p)
  | Missing, Missing => negb (fs_exists w p)
  | Missing, _ => negb (git_dirty t p)
  | _, _ => false
  end.

Definition refresh_file w (baselines : gmap string FileContentState) t (p : string) : Tracker :=
  let new_baseline := unwrap_or missing_content (baselines !! p) in
  let new_current := read_file_bounded (fs_read w p) in
  match file_states t !! p with
  | None => t
  | Some f =>
      let f' := set_accepted false (set_current new_current (set_baseline new_baseline f)) in
      let t1 := insert_file p f' t in
      if is_clean w t1 p new_baseline new_current then
        if is_agent_file f
        then drop_hunks p f (BaselineUpdated p) (insert_file p (set_hunks [] f') t1)
        else drop_hunks p f (FileRemoved p) (set_files (delete p (file_states t1)) t1)
      else send_event (BaselineUpdated p)
             (recompute_hunks w t1 p (Some new_current) (if is_agent_file f then ExternalEditOnAgentFile else External))
  end.

Definition keys t : list string := (order (file_states t)).*1.

Definition refresh_all_baselines_except w t (skip : gset string) : Tracker :=
  if bool_decide (mode t = AgentOnly) && bool_decide (file_states t = ∅) then t
  else
    let '(sync, t1) := read_repo_sync_state w t in
    if bool_decide (sync = Some (repo_sync_state t1)) then t1
    else
      let t2 := match sync with Some s => set_sync s t1 | None => t1 end in
      let scope := match mode t2 with
                   | AllDirty => None
                   | AgentOnly => Some (filter_map (fun p => strip_path_prefix p (working_dir t2)) (keys t2))
                   end in
      let t3 := match scope with Some [] => set_caches ∅ ∅ t2 | _ => refresh_git_dirty_cache w t2 scope end in
      let paths := List.filter (fun p => negb (bool_decide (p ∈ skip))) (keys t3) in
      let '(baselines, t4) := match paths with [] => (∅, t3) | _ => read_baselines_batch w t3 paths end in
      foldl (refresh_file w baselines) t4 paths.

Definition refresh_all_baselines w t : Tracker := refresh_all_baselines_except w t ∅.

(** A file that is no longer tracked. *)
Definition untrack t (p : string) : Tracker :=
  match file_states t !! p with
  | None => t
  | Some f => drop_hunks p f (FileRemoved p) (set_files (delete p (file_states t)) t)
  end.

Definition set_mode w t (m : TrackingMode) : Tracker :=
  let t1 := set_tracking m t in
  match mode t, m with
  | AgentOnly, AllDirty => refresh_git_dirty_cache w t1 None
  | AllDirty, AgentOnly =>
      foldl untrack t1 (List.filter (fun '(_, f) => negb (is_agent_file f)) (order (file_states t1))).*1
  | _, _ => t1
  end.

(** ** [queries.rs] *)

Definition all_hunks t : list Hunk := concat ((fun pf => hunks pf.2) <$> order (file_states t)).
Definition get_all_hunks t : list Hunk := all_hunks t.

Definition get_hunks_for_path t (p : string) : list Hunk := unwrap_or [] (hunks <$> file_states t !! p).

Inductive HunkSourceFilter : Type := FilterAgent | FilterExternal.

Definition get_hunks_by_source t (f : HunkSourceFilter) : list Hunk :=
  List.filter (fun h => match f with FilterAgent => is_agent_edit (h_source h) | FilterExternal => is_external (h_source h) end) (all_hunks t).

Definition get_hunk t (hid : HunkId) : option Hunk := List.find (fun h => h_id h =s? hid) (all_hunks t).

Definition get_hunks_for_turn t (prompt_index : Z) : list Hunk :=
  match turn_index t !! prompt_index with
  | None => []
  | Some ids => filter_map (get_hunk t) (set_order ids)
  end.

Inductive FileContentStatus : Type := StMissing | StBinary | StTooLarge | StLfsPointer | StSymlink | StFull.

Record FileContentView : Type := MkView { view_status : FileContentStatus; view_byte_len : option Z; view_content : option string }.

Definition from_content_state (c : FileContentState) : FileContentView :=
  match c with
  | Missing => MkView StMissing None None
  | Binary n => MkView StBinary n None
  | TooLarge n => MkView StTooLarge (Some n) None
  | LfsPointer n => MkView StLfsPointer (Some n) None
  | Symlink => MkView StSymlink None None
  | Full s => MkView StFull (Some (len s)) (Some s)
  end.

Record FileHunkData : Type := MkData {
  data_hunks : list Hunk; data_baseline : FileContentView; data_current : FileContentView;
  baseline_content : option string; data_current_content : option string }.

Definition with_patch (patch : option string) (h : Hunk) : Hunk :=
  MkHunk (h_id h) (h_path h) (line_info h) (h_source h) (old_text h) (new_text h) patch (created_at h) (selected h).

(** [None]: the line arithmetic of a fragment failed. *)
Definition hunk_patch (b c : option string) (h : Hunk) : option (option string) :=
  match b, c with
  | Some b, Some c => Some <$> generate_hunk_patch b c h
  | None, Some c => Some <$> generate_hunk_patch "" c h
  | Some b, None => Some <$> generate_hunk_patch b "" h
  | None, None => Some None
  end.

Definition get_file_hunk_data t (p : string) : option FileHunkData :=
  match file_states t !! p with
  | None => Some (MkData [] (from_content_state Missing) (from_content_state Missing) None None)
  | Some f =>
      hs ← mapM (fun h => (fun patch => with_patch patch h) <$> hunk_patch (as_str (baseline f)) (as_str (current_content f)) h) (hunks f);
      let b := from_content_state (baseline f) in let c := from_content_state (current_content f) in
      Some (MkData hs b c (view_content b) (view_content c))
  end.

Definition get_all_tracked_paths t : list string := keys t.

Record TurnData : Type := MkTurn { td_files : gset string; td_pending : list Hunk; td_added : Z; td_removed : Z }.

Record TurnSummary : Type := MkTurnSummary {
  ts_prompt_index : Z; ts_files : list string; ts_pending : list Hunk; ts_added : Z; ts_removed : Z }.

Record SessionSummary : Type := MkSummary {
  sm_stats : SessionStats; sm_turns : list TurnSummary; files_modified : Z; files_with_pending : Z;
  pending_hunks : Z; pending_lines_added : Z; pending_lines_removed : Z; unattributed_pending : Z }.

(** What the loop over the files collects. *)
Record Collected : Type := MkCollected { cl_turns : gmap Z TurnData; cl_unattributed : Z; cl_files : gset string }.

Definition collect_hunk (p : string) (z : Collected) (h : Hunk) : Collected :=
  match source_prompt_index (h_source h) with
  | Some i =>
      let d := unwrap_or (MkTurn ∅ [] 0 0) (cl_turns z !! i) in
      let d' := MkTurn ({[p]} ∪ td_files d) (td_pending d ++ [h]) (td_added d + new_count (line_info h))
                  (td_removed d + old_count (line_info h)) in
      MkCollected (<[i := d']> (cl_turns z)) (cl_unattributed z) (cl_files z)
  | None => MkCollected (cl_turns z) (cl_unattributed z + 1) (cl_files z)
  end.

Definition collect_file (z : Collected) (pf : string * FileHunkState) : Collected :=
  let z' := foldl (collect_hunk pf.1) z (hunks pf.2) in
  if existsb (fun h => is_agent_edit (h_source h)) (hunks pf.2)
  then MkCollected (cl_turns z') (cl_unattributed z') ({[pf.1]} ∪ cl_files z') else z'.

(** [turns.sort_by_key(|t| t.prompt_index)] *)
Fixpoint insert_turn (x : TurnSummary) (l : list TurnSummary) : list TurnSummary :=
  match l with
  | [] => [x]
  | y :: l' => if ts_prompt_index x <=? ts_prompt_index y then x :: l else y :: insert_turn x l'
  end.
Definition sort_turns (l : list TurnSummary) : list TurnSummary := foldr insert_turn [] l.

Definition sum_of {A} (f : A -> Z) (l : list A) : Z := foldr (fun x n => f x + n) 0 l.

Definition compute_session_summary t : SessionSummary :=
  let z := foldl collect_file (MkCollected ∅ 0 ∅) (order (file_states t)) in
  let turns := sort_turns ((fun '(i, d) => MkTurnSummary i (set_order (td_files d)) (td_pending d) (td_added d) (td_removed d))
                           <$> map_to_list (cl_turns z)) in
  MkSummary (session_stats t) turns (Z.of_nat (size (cl_files z))) (Z.of_nat (size (cl_files z)))
    (sum_of (fun s => Z.of_nat (length (ts_pending s))) turns) (sum_of ts_added turns) (sum_of ts_removed turns)
    (cl_unattributed z).

(** ** Snapshots *)

(** [FileHunkStateSnapshot] has the fields of the state it is taken of. *)
Record HunkTrackerSnapshot : Type := MkSnapshot {
  snap_files : gmap string FileHunkState; snap_index : gmap Z (gset HunkId); snap_stats : SessionStats }.

Record HunkTurnDelta : Type := MkDelta {
  delta_prompt_index : Z; delta_files : gmap string FileHunkState; delta_ids : gset HunkId }.

Definition snapshot_file_state (f : FileHunkState) : FileHunkState :=
  MkFile (baseline f) (current_content f) (hunks f) (is_agent_file f) (baseline_accepted f).

Definition take_snapshot t : HunkTrackerSnapshot :=
  MkSnapshot (snapshot_file_state <$> file_states t) (turn_index t) (session_stats t).

Definition take_turn_delta t (prompt_index : Z) : HunkTurnDelta :=
  let hunk_ids := unwrap_or ∅ (turn_index t !! prompt_index) in
  MkDelta prompt_index
    (omap (fun f => if existsb (fun h => bool_decide (h_id h ∈ hunk_ids)) (hunks f) then Some (snapshot_file_state f) else None) (file_states t))
    hunk_ids.

Definition restore_snapshot t (s : HunkTrackerSnapshot) : Tracker :=
  set_stats (snap_stats s) (set_index (snap_index s) (set_files (snapshot_file_state <$> snap_files s) t)).

(** [rewrite_single_path] of [types.rs] *)
Definition rewrite_single_path (p old_cwd canonical_old new_cwd : string) : option string :=
  push new_cwd <$> or_else (strip_path_prefix p canonical_old) (strip_path_prefix p old_cwd).

Definition rekey_state (p : string) (f : FileHunkState) : FileHunkState :=
  set_hunks ((fun h => MkHunk (h_id h) p (line_info h) (h_source h) (old_text h) (new_text h) (h_patch h) (created_at h) (selected h)) <$> hunks f) f.

(** [HunkTrackerSnapshot::rewrite_paths]; of two files that get one path, the
    later of the iteration stays. *)
Definition rewrite_paths (s : HunkTrackerSnapshot) (old_cwd canonical_old_cwd new_cwd : string) : HunkTrackerSnapshot :=
  let rewritten := (fun '(p, f) => let target := unwrap_or p (rewrite_single_path p old_cwd canonical_old_cwd new_cwd) in
                                   (target, rekey_state target f)) <$> order (snap_files s) in
  MkSnapshot (foldl (fun m pf => <[pf.1 := pf.2]> m) ∅ rewritten) (snap_index s) (snap_stats s).

(** ** [rekey_paths_for_working_dir] *)

Definition rekey_path (old_cwd new_cwd p : string) : string :=
  if path_starts_with p new_cwd then p else unwrap_or p (rewrite_single_path p old_cwd old_cwd new_cwd).

Definition merge_file (dest state : FileHunkState) : FileHunkState :=
  MkFile (baseline dest) (current_content dest) (hunks dest ++ hunks state)
    (is_agent_file dest || is_agent_file state) (baseline_accepted dest || baseline_accepted state).

Definition rekey_insert (old_cwd new_cwd : string) (next : gmap string FileHunkState) (pf : string * FileHunkState)
  : gmap string FileHunkState :=
  let new_path := rekey_path old_cwd new_cwd pf.1 in
  let state := rekey_state new_path pf.2 in
  match next !! new_path with
  | None => <[new_path := state]> next
  | Some dest => <[new_path := merge_file dest state]> next
  end.

Definition rekey_paths_for_working_dir t (new_cwd : string) : Tracker :=
  if path_same new_cwd (working_dir t) then t
  else
    let old := working_dir t in
    let pairs := order (file_states t) in
    let '(already, rewritten) := partition (fun pf => path_starts_with pf.1 new_cwd) pairs in
    let next0 := foldl (fun m pf => let new_path := rekey_path old new_cwd pf.1 in <[new_path := rekey_state new_path pf.2]> m) ∅ already in
    let next := foldl (rekey_insert old new_cwd) next0 rewritten in
    set_caches (set_map (rekey_path old new_cwd) (git_dirty_cache t)) (set_map (rekey_path old new_cwd) (git_staged_cache t))
      (set_files next t).

(** ** Commands *)

Inductive HunkTrackerCommand : Type :=
| RecordAgentWrite (path content : string) (prompt_index : Z) (previous_content : option string)
| HandleFileChange (path : string)
| HandleFileDeleted (path : string)
| RefreshGitDirtyCache
| ResetBaseline (path : string)
| SetMode (m : TrackingMode)
| SetWorkingDir (working_dir : string)
| CmdHunkAction (hunk_id : HunkId) (action : HunkAction)
| CmdFileAction (path : string) (action : HunkAction)
| CmdAllAction (action : HunkAction)
| CmdTurnAction (prompt_index : Z) (action : HunkAction)
| GetAllHunks
| GetHunksForPath (path : string)
| GetFileHunkData (path : string)
| GetHunksBySource (source : HunkSourceFilter)
| GetHunk (hunk_id : HunkId)
| IsAgentFile (path : string)
| GetAllTrackedPaths
| GetStagedFiles
| GetAllFileContents
| GetSessionSummary
| GetTurnHunks (prompt_index : Z)
| ResetStats
| RefreshAllBaselines
| SnapshotState
| SnapshotTurnDelta (prompt_index : Z)
| RestoreState (snapshot : HunkTrackerSnapshot).

Record FileContentEntry : Type := MkEntry {
  en_path : string; en_baseline : FileContentView; en_current : FileContentView; en_agent : bool; en_staged : bool }.

(** What is sent on the reply channel. *)
Inductive TrackerReply : Type :=
| NoReply
| RDone
| RAction (r : result HunkActionError unit)
| RActions (r : result HunkActionError (list HunkId))
| RHunks (hs : list Hunk)
| RData (d : option FileHunkData)
| RHunk (h : option Hunk)
| RBool (b : bool)
| RPaths (ps : list string)
| RPathSet (ps : gset string)
| RContents (es : list FileContentEntry)
| RSummary (s : SessionSummary)
| RSnapshot (s : HunkTrackerSnapshot)
| RDelta (d : HunkTurnDelta).

Definition set_working_dir t (wd : string) : Tracker :=
  set_sync (MkSync None None) (set_repo Unknown (set_dir wd (rekey_paths_for_working_dir t wd))).

Definition content_entry t (pf : string * FileHunkState) : FileContentEntry :=
  MkEntry pf.1 (from_content_state (baseline pf.2)) (from_content_state (current_content pf.2)) (is_agent_file pf.2)
    (bool_decide (cache_path t pf.1 ∈ git_staged_cache t)).

Definition handle_command w t (cmd : HunkTrackerCommand) : TrackerReply * Tracker :=
  match cmd with
  | RecordAgentWrite p content i prev => (NoReply, record_agent_write w t p content i prev)
  | HandleFileChange p => (NoReply, handle_file_change w t p)
  | HandleFileDeleted p => (NoReply, handle_file_deleted w t p)
  | RefreshGitDirtyCache => (NoReply, refresh_git_dirty_cache w t None)
  | ResetBaseline p => (NoReply, reset_baseline t p)
  | SetMode m => (NoReply, set_mode w t m)
  | SetWorkingDir wd => (RDone, set_working_dir t wd)
  | CmdHunkAction i a => let '(r, t') := apply_hunk_action w t i a in (RAction r, t')
  | CmdFileAction p a => let '(r, t') := apply_file_action w t p a in (RActions r, t')
  | CmdAllAction a => let '(r, t') := apply_all_action w t a in (RActions r, t')
  | CmdTurnAction i a => let '(r, t') := apply_turn_action w t i a in (RActions r, t')
  | GetAllHunks => (RHunks (get_all_hunks t), t)
  | GetHunksForPath p => (RHunks (get_hunks_for_path t p), t)
  | GetFileHunkData p => (RData (get_file_hunk_data t p), t)
  | GetHunksBySource f => (RHunks (get_hunks_by_source t f), t)
  | GetHunk i => (RHunk (get_hunk t i), t)
  | IsAgentFile p => (RBool (unwrap_or false (is_agent_file <$> file_states t !! p)), t)
  | GetAllTrackedPaths => (RPaths (get_all_tracked_paths t), t)
  | GetStagedFiles => (RPathSet (set_map (push (working_dir t)) (git_staged_cache t)), t)
  | GetAllFileContents => (RContents (content_entry t <$> order (file_states t)), t)
  | GetSessionSummary => (RSummary (compute_session_summary t), t)
  | GetTurnHunks i => (RHunks (get_hunks_for_turn t i), t)
  | ResetStats => (NoReply, set_stats stats_default t)
  | RefreshAllBaselines => (NoReply, refresh_all_baselines w t)
  | SnapshotState => (RSnapshot (take_snapshot t), t)
  | SnapshotTurnDelta i => (RDelta (take_turn_delta t i), t)
  | RestoreState s => (NoReply, restore_snapshot t s)
  end.

(** ** Coalescing *)

Inductive CoalescedPathAction : Type := Changed | PathDeleted | DeletedThenChanged.

#[export] Instance CoalescedPathAction_eq_dec : EqDecision CoalescedPathAction.
Proof. solve_decision. Defined.

Record CoalescedBatch : Type := MkBatch {
  file_actions : gmap string CoalescedPathAction; refresh_all : bool; refresh_dirty : bool;
  other_commands : list HunkTrackerCommand; command_count : Z }.

Definition batch_new : CoalescedBatch := MkBatch ∅ false false [] 0.

Definition is_coalescable (cmd : HunkTrackerCommand) : bool :=
  match cmd with
  | HandleFileChange _ | HandleFileDeleted _ | RefreshAllBaselines | RefreshGitDirtyCache => true
  | _ => false
  end.

Definition batch_add (b : CoalescedBatch) (cmd : HunkTrackerCommand) : CoalescedBatch :=
  let n := command_count b + 1 in
  match cmd with
  | HandleFileChange p =>
      let a := match file_actions b !! p with
               | Some PathDeleted => DeletedThenChanged
               | Some a => a
               | None => Changed
               end in
      MkBatch (<[p := a]> (file_actions b)) (refresh_all b) (refresh_dirty b) (other_commands b) n
  | HandleFileDeleted p => MkBatch (<[p := PathDeleted]> (file_actions b)) (refresh_all b) (refresh_dirty b) (other_commands b) n
  | RefreshAllBaselines => MkBatch (file_actions b) true (refresh_dirty b) (other_commands b) n
  | RefreshGitDirtyCache => MkBatch (file_actions b) (refresh_all b) true (other_commands b) n
  | _ => MkBatch (file_actions b) (refresh_all b) (refresh_dirty b) (other_commands b ++ [cmd]) n
  end.

(** [first] and the commands the channel holds. *)
Definition drain_and_coalesce (first : HunkTrackerCommand) (queued : list HunkTrackerCommand) : CoalescedBatch :=
  foldl batch_add batch_new (first :: queued).

Definition batch_file w (z : gset string * Tracker) (pa : string * CoalescedPathAction) : gset string * Tracker :=
  let '(processed, t) := z in
  match pa.2 with
  | Changed | DeletedThenChanged =>
      if negb (tracked pa.1 t) then ({[pa.1]} ∪ processed, handle_file_change w t pa.1) else (processed, t)
  | PathDeleted => if tracked pa.1 t then (processed, handle_file_deleted w t pa.1) else (processed, t)
  end.

Definition deleted_file w t (pa : string * CoalescedPathAction) : Tracker :=
  match pa.2 with PathDeleted => handle_file_deleted w t pa.1 | _ => t end.

Definition handle_coalesced_batch w t (b : CoalescedBatch) : list TrackerReply * Tracker :=
  let t1 := if refresh_dirty b && negb (refresh_all b) then refresh_git_dirty_cache w t None else t in
  let actions := order (file_actions b) in
  let t2 :=
    if refresh_all b then
      let '(processed, t2) := foldl (batch_file w) (∅, t1) actions in refresh_all_baselines_except w t2 processed
    else
      let changed := (List.filter (fun pa => negb (bool_decide (pa.2 = PathDeleted))) actions).*1 in
      handle_file_changes_batch w (foldl (deleted_file w) t1 actions) changed in
  foldl (fun '(rs, t) cmd => let '(r, t') := handle_command w t cmd in (rs ++ [r], t')) ([], t2) (other_commands b).

(** One round of the loop: a command is received, and the channel holds [queued].
    What is left in the channel is returned. *)
Definition actor_round w t (cmd : HunkTrackerCommand) (queued : list HunkTrackerCommand)
  : list TrackerReply * Tracker * list HunkTrackerCommand :=
  if is_coalescable cmd then let '(rs, t') := handle_coalesced_batch w t (drain_and_coalesce cmd queued) in (rs, t', [])
  else let '(r, t') := handle_command w t cmd in ([r], t', queued).

(** The start of [run]. *)
Definition actor_start w t : Tracker :=
  if bool_decide (mode t = AllDirty) then refresh_git_dirty_cache w t None else t.

End tracker.
