(* ===== verification/HunkInvariant.v ===== *)
(** * [xai-hunk-tracker]: what holds of the tracker at all times

    Identities are unique, the index of turns only holds hunks of its turn, and
    the hunks of a file are the difference of its two contents; every command
    keeps this, and while the file system does not fail the index is complete, so
    that looking up a turn is the same as scanning all hunks. *)

From S2P Require Import Prelude RustStr Paths HunkDiff HunkTracker.

Open Scope Z_scope.

(** ** Matching passes on distinct identities *)

Lemma min_by_key_elem {A} (key : A -> Z) l x : min_by_key key l = Some x -> x ∈ l.
Proof.
  revert x. induction l as [|y l IH]; intros x; [done|]. cbn.
  destruct (min_by_key key l) as [z|]; [case_match; intros [= <-]; [by left|right; by apply IH]|intros [= <-]; by left].
Qed.

Lemma max_by_key_elem {A} (key : A -> Z) l x : max_by_key key l = Some x -> x ∈ l.
Proof.
  revert x. induction l as [|y l IH]; intros x; [done|]. cbn.
  destruct (max_by_key key l) as [z|]; [case_match; intros [= <-]; [right; by apply IH|by left]|intros [= <-]; by left].
Qed.

Lemma elem_of_lfilter {A} (f : A -> bool) x l : x ∈ List.filter f l <-> f x = true /\ x ∈ l.
Proof. rewrite !list_elem_of_In, List.filter_In. tauto. Qed.

Lemma matching_elem h old o : find_matching_old_hunk h old = Some o -> o ∈ old.
Proof.
  unfold find_matching_old_hunk. destruct (List.filter _ old) as [|x l] eqn:E.
  - intros Hm%max_by_key_elem. by apply elem_of_lfilter in Hm as [_ ?].
  - intros Hm%min_by_key_elem. rewrite <- E in Hm. by apply elem_of_lfilter in Hm as [_ ?].
Qed.

Lemma sublist_fmap_id (l k : list Hunk) : l `sublist_of` k -> (h_id <$> l) `sublist_of` (h_id <$> k).
Proof. induction 1; rewrite ?fmap_cons; by constructor. Qed.

Lemma lfilter_sublist {A} (f : A -> bool) (l : list A) : List.filter f l `sublist_of` l.
Proof. induction l as [|x l IH]; [constructor|]. cbn [List.filter]. destruct (f x); by constructor. Qed.

Lemma nodup_same (l : list Hunk) h h' : NoDup (h_id <$> l) -> h ∈ l -> h' ∈ l -> h_id h = h_id h' -> h = h'.
Proof.
  induction l as [|x l IH]; intros N Hh Hh' E; [by apply elem_of_nil in Hh|]. rewrite fmap_cons in N.
  apply list.NoDup_cons in N as [N1 N2]. apply elem_of_cons in Hh as [->|Hh], Hh' as [->|Hh']; [done| | |by apply IH].
  - destruct N1. rewrite E. by apply list_elem_of_fmap_2.
  - destruct N1. rewrite <- E. by apply list_elem_of_fmap_2.
Qed.

Lemma preserve_ids_body old claimed new : body <$> preserve_ids old claimed new = body <$> new.
Proof.
  revert claimed. induction new as [|h new IH]; intros claimed; [done|]. cbn [preserve_ids].
  destruct (find_matching_old_hunk h old); [case_bool_decide|]; rewrite !fmap_cons, IH; done.
Qed.

Lemma preserve_ids_elem old claimed new h : h ∈ preserve_ids old claimed new ->
  (exists n, n ∈ new /\ h_path h = h_path n /\ (h = n \/ exists o, o ∈ old /\ h = inherit n o /\ h_id o ∉ claimed)).
Proof.
  revert claimed. induction new as [|n new IH]; intros claimed Hh; [by apply elem_of_nil in Hh|]. cbn [preserve_ids] in Hh.
  assert (Next : forall c, claimed ⊆ c -> h ∈ preserve_ids old c new ->
    exists n', n' ∈ n :: new /\ h_path h = h_path n' /\ (h = n' \/ exists o, o ∈ old /\ h = inherit n' o /\ h_id o ∉ claimed)).
  { intros c Hc Hr. destruct (IH c Hr) as (n'&Hn&Hp&[->|(o&Ho&->&Hno)]).
    - exists n'. split_and!; [by right|done|by left].
    - exists n'. split_and!; [by right|done|]. right. exists o. set_solver. }
  destruct (find_matching_old_hunk n old) as [o|] eqn:E; [case_bool_decide|]; apply elem_of_cons in Hh as [->|Hh].
  - exists n. split_and!; [by left|done|by left].
  - by apply (Next claimed).
  - exists n. split_and!; [by left|done|]. right. exists o. split_and!; [by eapply matching_elem|done|done].
  - eapply Next; [|exact Hh]. set_solver.
  - exists n. split_and!; [by left|done|by left].
  - by apply (Next claimed).
Qed.

Lemma preserve_ids_nodup old claimed new : NoDup (h_id <$> new) ->
  (forall h o, h ∈ new -> o ∈ old -> h_id h <> h_id o) -> NoDup (h_id <$> preserve_ids old claimed new).
Proof.
  revert claimed. induction new as [|n new IH]; intros claimed N A; [constructor|]. rewrite fmap_cons in N.
  apply list.NoDup_cons in N as [N1 N2]. assert (A' : forall h o, h ∈ new -> o ∈ old -> h_id h <> h_id o).
  { intros h o Hh. apply A. by right. }
  assert (Fresh : forall c, h_id n ∉ h_id <$> preserve_ids old c new).
  { intros c (h&E&Hh)%list_elem_of_fmap. apply preserve_ids_elem in Hh as (m&Hm&_&[->|(o&Ho&->&_)]).
    - apply N1. rewrite E. by apply list_elem_of_fmap_2.
    - cbn in E. eapply A; [by left|exact Ho|exact E]. }
  cbn [preserve_ids]. destruct (find_matching_old_hunk n old) as [o|] eqn:E; [case_bool_decide|]; rewrite fmap_cons;
    apply list.NoDup_cons; (split; [|by apply IH]); [apply Fresh| |apply Fresh].
  cbn [inherit h_id]. intros (h&Eh&Hh)%list_elem_of_fmap. apply matching_elem in E.
  apply preserve_ids_elem in Hh as (m&Hm&_&[->|(o'&Ho&->&Hc)]).
  - eapply A'; [exact Hm|exact E|by rewrite Eh].
  - apply Hc. cbn in Eh. rewrite <- Eh. set_solver.
Qed.

(** ** The index of turns *)

Definition in_turn (i : gmap Z (gset HunkId)) (q : Z) (hid : HunkId) : Prop := exists s, i !! q = Some s /\ hid ∈ s.

Lemma index_remove_in i h q hid :
  in_turn (index_remove i h) q hid <-> in_turn i q hid /\ ~ (source_prompt_index (h_source h) = Some q /\ h_id h = hid).
Proof.
  unfold index_remove, in_turn. destruct (source_prompt_index (h_source h)) as [r|].
  - destruct (decide (r = q)) as [->|N].
    + rewrite lookup_alter, decide_True by done. destruct (i !! q) as [s|]; cbn.
      * split; [intros (?&[= <-]&Hs)|intros [(?&[= <-]&Hs) Hn]]; [split; [exists s|]|eexists; split; [done|]]; set_solver.
      * split; [by intros (?&?&_)|by intros [(?&?&_) _]].
    + rewrite lookup_alter_ne by done. split; [intros X; split; [exact X|by intros [[= ->] _]]|by intros [X _]].
  - split; [intros X; split; [exact X|by intros [? _]]|by intros [X _]].
Qed.

Lemma index_add_in i h q hid :
  in_turn (index_add i h) q hid <-> in_turn i q hid \/ (source_prompt_index (h_source h) = Some q /\ h_id h = hid).
Proof.
  unfold index_add, in_turn. destruct (source_prompt_index (h_source h)) as [r|].
  - destruct (decide (r = q)) as [->|N].
    + rewrite lookup_insert, decide_True by done. destruct (i !! q) as [s|]; cbn; split.
      * intros (?&[= <-]&Hs). apply elem_of_union in Hs as [->%elem_of_singleton|Hs]; [by right|left; by exists s].
      * intros [(?&[= <-]&Hs)|[_ <-]]; eexists; (split; [done|]); set_solver.
      * intros (?&[= <-]&Hs). right. set_solver.
      * intros [(?&?&?)|[_ <-]]; [done|]. eexists. split; [done|]. set_solver.
    + rewrite lookup_insert_ne by done. split; [by left|]. intros [X|[[= ->] _]]; [exact X|done].
  - split; [by left|]. by intros [X|[? _]].
Qed.

Lemma index_removes_in i hs q hid : in_turn (foldl index_remove i hs) q hid <->
  in_turn i q hid /\ forall h, h ∈ hs -> source_prompt_index (h_source h) = Some q -> h_id h <> hid.
Proof.
  revert i. induction hs as [|h hs IH]; intros i; cbn [foldl]; [set_solver|]. rewrite IH, index_remove_in.
  setoid_rewrite elem_of_cons. naive_solver.
Qed.

Lemma index_adds_in i hs q hid : in_turn (foldl index_add i hs) q hid <->
  in_turn i q hid \/ exists h, h ∈ hs /\ source_prompt_index (h_source h) = Some q /\ h_id h = hid.
Proof.
  revert i. induction hs as [|h hs IH]; intros i; cbn [foldl]; [set_solver|]. rewrite IH, index_add_in.
  setoid_rewrite elem_of_cons. naive_solver.
Qed.

(** ** The invariant *)

(** [h] is a hunk of the tracked file [p]. *)
Definition live (t : Tracker) (p : string) (h : Hunk) : Prop := exists f, file_states t !! p = Some f /\ h ∈ hunks f.

Section invariant.
Context (supply : Supply) `{!LineDiff} `{!HashOrder}.
Implicit Types (w : World) (t : Tracker).

Definition drawn t (hid : HunkId) : Prop := exists k, (k < issued t)%nat /\ hid = uuid supply k.

(** Identities are drawn ones and distinct, a hunk carries the path of its file,
    and what the index holds of a live hunk is its turn. *)
Record Inv t : Prop := {
  inv_drawn : forall p h, live t p h -> drawn t (h_id h);
  inv_nodup : forall p f, file_states t !! p = Some f -> NoDup (h_id <$> hunks f);
  inv_apart : forall p q h h', live t p h -> live t q h' -> h_id h = h_id h' -> p = q;
  inv_path : forall p h, live t p h -> h_path h = p;
  inv_index : forall i hid, in_turn (turn_index t) i hid -> drawn t hid;
  inv_turn : forall i p h, in_turn (turn_index t) i (h_id h) -> live t p h -> source_prompt_index (h_source h) = Some i;
}.

(** Every hunk of a turn is in the index. *)
Definition Complete t : Prop :=
  forall p h i, live t p h -> source_prompt_index (h_source h) = Some i -> in_turn (turn_index t) i (h_id h).

(** The hunks two contents have, as far as the texts go. *)
Definition diff_of (b c : FileContentState) : list (HunkLineInfo * option string * string) :=
  match b, c with
  | Full b, Full c => body <$> (compute_hunks supply 0 0 "" b c External).1
  | Full b, Missing => if is_empty b then [] else [body (file_deleted "" 0 "" b External)]
  | Missing, Full c => if is_empty c then [] else [body (file_created "" 0 "" c External)]
  | _, _ => []
  end.

(** The hunks of every file are the difference of its contents (or none, when
    the diff was not computed in time). *)
Definition Current t : Prop :=
  forall p f, file_states t !! p = Some f -> hunks f = [] \/ body <$> hunks f = diff_of (baseline f) (current_content f).

Lemma inv_same_hunk t p q h h' : Inv t -> live t p h -> live t q h' -> h_id h = h_id h' -> h = h' /\ p = q.
Proof.
  intros I L L' E. assert (p = q) as -> by (by eapply (inv_apart t)). split; [|done].
  destruct L as (f&Ef&Hh), L' as (g&Eg&Hh'). rewrite Ef in Eg. injection Eg as <-.
  eapply nodup_same; [by eapply (inv_nodup t)|done..].
Qed.

(** Fewer hunks and a smaller index. *)
Definition fewer t t' : Prop :=
  (forall p f', file_states t' !! p = Some f' -> hunks f' = [] \/ exists f, file_states t !! p = Some f /\ hunks f' `sublist_of` hunks f) /\
  (forall i hid, in_turn (turn_index t') i hid -> in_turn (turn_index t) i hid) /\ (issued t <= issued t')%nat.

Lemma fewer_live t t' p h : fewer t t' -> live t' p h -> live t p h.
Proof.
  intros (F&_) (f&E&Hh). destruct (F p f E) as [X|(g&Eg&S)]; [rewrite X in Hh; by apply elem_of_nil in Hh|].
  exists g. split; [done|]. by eapply elem_of_sublist.
Qed.

Lemma fewer_refl t : fewer t t.
Proof. split_and!; [|done|done]. intros p f E. right. exists f. by split. Qed.

Lemma fewer_trans t t' t'' : fewer t t' -> fewer t' t'' -> fewer t t''.
Proof.
  intros (F1&G1&K1) (F2&G2&K2). split_and!; [|auto|lia]. intros p f E. destruct (F2 p f E) as [?|(g&Eg&S)]; [by left|].
  destruct (F1 p g Eg) as [X|(g'&Eg'&S')].
  - left. rewrite X in S. by apply sublist_nil_r in S.
  - right. exists g'. split; [done|]. by etrans.
Qed.

Lemma inv_fewer t t' : fewer t t' -> Inv t -> Inv t'.
Proof.
  intros F I. assert (D : forall hid, drawn t hid -> drawn t' hid).
  { intros hid (k&Hk&->). exists k. split; [|done]. destruct F as (_&_&?). lia. }
  pose proof (fun p h => fewer_live t t' p h F) as L. pose proof F as (F1&F2&_). split.
  - intros p h Hl. apply D. by eapply inv_drawn, L.
  - intros p f E. destruct (F1 p f E) as [->|(g&Eg&S)]; [constructor|]. eapply sublist_NoDup; [by eapply inv_nodup|by apply sublist_fmap_id].
  - intros p q h h' H1 H2. eapply (inv_apart t); eauto.
  - intros p h H1. eapply (inv_path t); eauto.
  - intros i hid H1. apply D. eapply (inv_index t); eauto.
  - intros i p h H1 H2. eapply (inv_turn t); eauto.
Qed.

(** ** Recomputation *)

Lemma content_hunks_issued w k p b c src hs k' : content_hunks supply w k p b c src = (hs, k') ->
  k' = (k + length hs)%nat /\ h_id <$> hs = uuid supply <$> seq k (length hs) /\
  Forall (fun h => h_path h = p /\ h_source h = src) hs.
Proof.
  unfold content_hunks. destruct b, c; try (intros [= <- <-]; split_and!; cbn; [lia|done|constructor]).
  1,2: destruct (is_empty _); intros [= <- <-]; (split_and!; cbn; [lia|done|by repeat constructor]).
  intros E. apply compute_hunks_issued in E as (E1&E2&E3). split_and!; [done|done|].
  eapply Forall_impl; [|exact E3]. cbn. tauto.
Qed.

Lemma content_hunks_shape w k p b c src :
  (content_hunks supply w k p b c src).1 = [] \/ body <$> (content_hunks supply w k p b c src).1 = diff_of b c.
Proof.
  unfold content_hunks, diff_of. destruct b, c; try (by left); try (destruct (is_empty _); [by left|by right]).
  apply compute_hunks_body.
Qed.

(** What recomputation leaves: one file is replaced, its hunks are the new
    difference with identities of old hunks or fresh ones. *)
Lemma recompute_spec w t p c src f : file_states t !! p = Some f ->
  let t' := recompute_hunks supply w t p c src in
  exists new, file_states t' = <[p := set_hunks new (set_current (unwrap_or missing_content c) f)]> (file_states t) /\
    turn_index t' = foldl index_add (foldl index_remove (turn_index t) (hunks f)) new /\
    (issued t <= issued t')%nat /\
    (new = [] \/ body <$> new = diff_of (baseline f) (unwrap_or missing_content c)) /\
    exists computed, new = preserve_ids (hunks f) ∅ computed /\
      h_id <$> computed = uuid supply <$> seq (issued t) (issued t' - issued t) /\
      Forall (fun h => h_path h = p /\ h_source h = src) computed.
Proof.
  intros E. unfold recompute_hunks. rewrite E.
  pose proof (content_hunks_shape w (issued t) p (baseline f) (unwrap_or missing_content c) src) as S.
  destruct (content_hunks supply w (issued t) p (baseline f) (unwrap_or missing_content c) src) as [computed k] eqn:Ec.
  apply content_hunks_issued in Ec as (->&E2&E3). exists (preserve_ids (hunks f) ∅ computed). cbn in *.
  split_and!; [done|done|lia| |].
  - destruct S as [->|S]; [by left|right]. by rewrite preserve_ids_body.
  - exists computed. split_and!; [done| |done]. rewrite E2. f_equal. f_equal. lia.
Qed.

Context `{Distinct : !Inj (=) (=) (uuid supply)}.

Lemma live_insert t t' p f q h : file_states t' = <[p := f]> (file_states t) ->
  live t' q h -> (q = p /\ h ∈ hunks f) \/ (q <> p /\ live t q h).
Proof.
  intros E (g&Eg&Hg). rewrite E in Eg. destruct (decide (q = p)) as [->|N].
  - rewrite lookup_insert, decide_True in Eg by done. injection Eg as <-. by left.
  - rewrite lookup_insert_ne in Eg by done. right. split; [done|]. by exists g.
Qed.

(** A hunk after recomputation: fresh, or with the identity of a hunk the file had. *)
Lemma recompute_new w t p c src f h : Inv t -> file_states t !! p = Some f -> live (recompute_hunks supply w t p c src) p h ->
  h_path h = p /\ ((exists k, (issued t <= k < issued (recompute_hunks supply w t p c src))%nat /\ h_id h = uuid supply k) \/
                   exists o, o ∈ hunks f /\ h_id h = h_id o).
Proof.
  intros I E (g&Eg&Hg). destruct (recompute_spec w t p c src f E) as (new&Ef&_&Hk&_&computed&En&Ei&Ep).
  set (t' := recompute_hunks supply w t p c src) in *. rewrite Ef in Eg.
  rewrite lookup_insert, decide_True in Eg by done. injection Eg as <-. cbn in Hg. rewrite En in Hg.
  apply preserve_ids_elem in Hg as (n&Hn&Hp&Hc). eapply Forall_forall in Ep as [Ep _]; [|by apply list_elem_of_In].
  split; [by rewrite Hp|]. destruct Hc as [->|(o&Ho&->&_)]; [left|right; by exists o].
  assert (X : h_id n ∈ h_id <$> computed) by (by apply list_elem_of_fmap_2). rewrite Ei in X.
  apply list_elem_of_fmap in X as (k&->&Hk'). exists k. split; [|done]. apply elem_of_seq in Hk'. lia.
Qed.

Lemma not_drawn t hid k : drawn t hid -> (issued t <= k)%nat -> hid <> uuid supply k.
Proof. intros (j&Hj&->) Hk E. apply Distinct in E. lia. Qed.

Lemma fresh_nodup t p f computed n : Inv t -> file_states t !! p = Some f ->
  h_id <$> computed = uuid supply <$> seq (issued t) n -> NoDup (h_id <$> preserve_ids (hunks f) ∅ computed).
Proof.
  intros I E Eids. apply preserve_ids_nodup.
  - rewrite Eids. apply NoDup_fmap_2; [done|]. apply NoDup_seq.
  - intros h o Hh Ho X. assert (Y : h_id h ∈ h_id <$> computed) by (by apply list_elem_of_fmap_2). rewrite Eids in Y.
    apply list_elem_of_fmap in Y as (k&Ek&Hk'%elem_of_seq). eapply (not_drawn t (h_id o) k); [|lia|by rewrite <- X].
    eapply (inv_drawn t I p). by exists f.
Qed.

Lemma inv_recompute w t p c src : Inv t -> Inv (recompute_hunks supply w t p c src).
Proof.
  intros I. destruct (file_states t !! p) as [f|] eqn:E; [|unfold recompute_hunks; by rewrite E].
  pose proof (fun h => recompute_new w t p c src f h I E) as New.
  destruct (recompute_spec w t p c src f E) as (new&Ef&Ei&Hk&_&computed&En&Eids&Ep).
  set (t' := recompute_hunks supply w t p c src) in *.
  assert (D : forall hid, drawn t hid -> drawn t' hid) by (intros hid (k&Hk'&->); exists k; split; [lia|done]).
  assert (Old : forall o, o ∈ hunks f -> live t p o) by (intros o Ho; by exists f).
  assert (L : forall q h, live t' q h -> (q = p /\ h ∈ new) \/ (q <> p /\ live t q h)).
  { intros q h Hl. by apply (live_insert t t' p _ q h Ef) in Hl. }
  assert (ND : NoDup (h_id <$> new)) by (rewrite En; by eapply (fresh_nodup t p f)).
  assert (A : forall q h h', live t' p h -> q <> p -> live t q h' -> h_id h <> h_id h').
  { intros q h h' Hl Hq Hl' X. destruct (New h Hl) as (_&[(k&Hk'&Ek)|(o&Ho&Eo)]).
    - eapply (not_drawn t (h_id h') k); [by eapply inv_drawn|lia|]. by rewrite <- X.
    - apply Hq. eapply (inv_apart t I q p h' o); [done|by apply Old|]. by rewrite <- X. }
  split.
  - intros q h Hl. destruct (L q h Hl) as [[-> Hn]|[_ Hq]]; [|by eapply D, inv_drawn].
    destruct (New h Hl) as (_&[(k&Hk'&->)|(o&Ho&->)]); [exists k; split; [lia|done]|by eapply D, inv_drawn, Old].
  - intros q g Eg. rewrite Ef in Eg. destruct (decide (q = p)) as [->|N].
    + rewrite lookup_insert, decide_True in Eg by done. by injection Eg as <-.
    + rewrite lookup_insert_ne in Eg by done. by eapply inv_nodup.
  - intros q r h h' Hl Hl' X. destruct (L q h Hl) as [[-> Hn]|[Nq Hq]], (L r h' Hl') as [[-> Hn']|[Nr Hr]]; [done| | |].
    + by destruct (A r h h').
    + by destruct (A q h' h).
    + by eapply (inv_apart t).
  - intros q h Hl. destruct (L q h Hl) as [[-> Hn]|[_ Hq]]; [by apply New|by eapply inv_path].
  - intros i hid Hi. rewrite Ei in Hi. apply index_adds_in in Hi as [[Hi _]%index_removes_in|(h&Hh&_&<-)].
    + by eapply D, inv_index.
    + assert (Hl : live t' p h) by (eexists; rewrite Ef, lookup_insert, decide_True by done; split; [done|exact Hh]).
      destruct (New h Hl) as (_&[(k&Hk'&->)|(o&Ho&->)]); [exists k; split; [lia|done]|by eapply D, inv_drawn, Old].
  - intros i q h Hi Hl. rewrite Ei in Hi. apply index_adds_in in Hi as [[Hi Hr]%index_removes_in|(n&Hn&Hs&Hid)].
    + destruct (L q h Hl) as [[-> Hn]|[_ Hq]]; [|by eapply inv_turn].
      destruct (New h Hl) as (_&[(k&Hk'&Ek)|(o&Ho&Eo)]).
      * destruct (not_drawn t (h_id h) k); [by eapply inv_index|lia|done].
      * rewrite Eo in Hi. destruct (Hr o Ho); [|by rewrite Eo]. by eapply inv_turn; [|exact Hi|by apply Old].
    + assert (Hln : live t' p n) by (eexists; rewrite Ef, lookup_insert, decide_True by done; split; [done|exact Hn]).
      destruct (L q h Hl) as [[-> Hh]|[Nq Hq]]; [|by destruct (A q n h)].
      by rewrite <- (nodup_same new n h ND Hn Hh Hid).
Qed.

(** ** File by file *)

Definition CurrentAt t (p : string) : Prop :=
  forall f, file_states t !! p = Some f -> hunks f = [] \/ body <$> hunks f = diff_of (baseline f) (current_content f).
Definition CompleteAt t (p : string) : Prop :=
  forall h i, live t p h -> source_prompt_index (h_source h) = Some i -> in_turn (turn_index t) i (h_id h).

(** [whole] says that the index is complete as well. *)
Definition OkAt (whole : bool) t (p : string) : Prop := CurrentAt t p /\ (whole = true -> CompleteAt t p).
Definition Good (whole : bool) t : Prop := Inv t /\ forall p, OkAt whole t p.

Lemma good_iff whole t : Good whole t <-> Inv t /\ Current t /\ (whole = true -> Complete t).
Proof.
  unfold Good, OkAt, Current, Complete, CurrentAt, CompleteAt. split.
  - intros [I A]. split_and!; [done|intros p; by apply A|]. intros Hw p. by apply A.
  - intros (I&C&K). split; [done|]. intros p. split; [by apply C|]. intros Hw. by apply K.
Qed.

(** What the invariant reads of the state. *)
Definition core t : gmap string FileHunkState * gmap Z (gset HunkId) * nat := (file_states t, turn_index t, issued t).

Lemma good_core whole t t' : core t' = core t -> Good whole t -> Good whole t'.
Proof.
  unfold core. intros [= E1 E2 E3] [I A].
  assert (L : forall p h, live t' p h <-> live t p h) by (intros p h; unfold live; by rewrite E1). split.
  - apply (inv_fewer t); [|done]. split_and!; [|by rewrite E2|lia]. rewrite E1. intros p f E. right. exists f. by split.
  - intros p. destruct (A p) as [C K]. split; [intros f; rewrite E1; apply C|].
    intros Hw h i Hl. rewrite E2. apply (K Hw). by apply L.
Qed.

Lemma okat_no_hunks whole t p f : file_states t !! p = Some f -> hunks f = [] -> OkAt whole t p.
Proof.
  intros E N. split; [intros g Eg; rewrite E in Eg; injection Eg as <-; by left|].
  intros _ h i (g&Eg&Hg). rewrite E in Eg. injection Eg as <-. rewrite N in Hg. by apply elem_of_nil in Hg.
Qed.

Lemma okat_absent whole t p : file_states t !! p = None -> OkAt whole t p.
Proof. intros E. split; [intros g Eg; by rewrite E in Eg|]. intros _ h i (g&Eg&_). by rewrite E in Eg. Qed.

(** The files other than [p] and the index of their hunks stay. *)
Definition untouched (p : string) t t' : Prop := forall q, q <> p ->
  file_states t' !! q = file_states t !! q /\
  forall h i, live t q h -> in_turn (turn_index t) i (h_id h) -> in_turn (turn_index t') i (h_id h).

Lemma okat_untouched whole p t t' q : untouched p t t' -> q <> p -> OkAt whole t q -> OkAt whole t' q.
Proof.
  intros U N [C K]. destruct (U q N) as [E X]. split; [intros f; rewrite E; apply C|].
  intros Hw h i (g&Eg&Hg) Hs. rewrite E in Eg. apply X; [by exists g|]. apply K; [done|by exists g|done].
Qed.

Lemma good_step whole p t t' : Good whole t -> fewer t t' -> untouched p t t' -> OkAt whole t' p -> Good whole t'.
Proof.
  intros [I A] F U O. split; [by eapply inv_fewer|]. intros q. destruct (decide (q = p)) as [->|N]; [done|].
  by eapply okat_untouched.
Qed.

Lemma good_recompute whole w t p c src : Inv t -> (forall q, q <> p -> OkAt whole t q) ->
  Good whole (recompute_hunks supply w t p c src).
Proof.
  intros I A. split; [by apply inv_recompute|]. destruct (file_states t !! p) as [f|] eqn:E.
  2:{ intros q. unfold recompute_hunks. rewrite E. destruct (decide (q = p)) as [->|N]; [by apply okat_absent|by apply A]. }
  destruct (recompute_spec w t p c src f E) as (new&Ef&Ei&_&S&_).
  set (t' := recompute_hunks supply w t p c src) in *. intros q. destruct (decide (q = p)) as [->|N].
  - split.
    + intros g. rewrite Ef, lookup_insert, decide_True by done. intros [= <-]. exact S.
    + intros _ h i (g&Eg&Hg) Hs. rewrite Ef, lookup_insert, decide_True in Eg by done. injection Eg as <-.
      rewrite Ei. apply index_adds_in. right. by exists h.
  - apply (okat_untouched whole p t); [|done|by apply A]. intros r Nr. rewrite Ef, lookup_insert_ne by done. split; [done|].
    intros h i Hl Hi. rewrite Ei. apply index_adds_in. left. apply index_removes_in. split; [done|].
    intros o Ho _ X. apply Nr. eapply (inv_apart t I r p h o); [done|by exists f|done].
Qed.

(** ** The steps of the handlers *)

(** A file is entered without hunks. *)
Lemma good_insert_empty whole t p f : Good whole t -> hunks f = [] -> Good whole (insert_file p f t).
Proof.
  intros G N. apply (good_step whole p t); [done| | |].
  - split_and!; [|done|done]. cbn. intros q g. destruct (decide (q = p)) as [->|Nq].
    + rewrite lookup_insert, decide_True by done. intros [= <-]. by left.
    + rewrite lookup_insert_ne by done. intros Eg. right. exists g. by split.
  - intros q Nq. cbn. by rewrite lookup_insert_ne.
  - eapply okat_no_hunks; [|exact N]. cbn. by rewrite lookup_insert, decide_True.
Qed.

(** A file keeps its contents and hunks. *)
Lemma good_same_hunks whole t p f g : file_states t !! p = Some f -> hunks g = hunks f -> baseline g = baseline f ->
  current_content g = current_content f -> Good whole t -> Good whole (insert_file p g t).
Proof.
  intros E H1 H2 H3 G. assert (L : forall q h, live (insert_file p g t) q h -> live t q h).
  { intros q h Hl. apply (live_insert t _ p g q h) in Hl as [[-> Hh]|[_ ?]]; [|done..]. exists f. by rewrite <- H1. }
  apply (good_step whole p t); [done| | |].
  - split_and!; [|done|done]. cbn. intros q x. destruct (decide (q = p)) as [->|Nq].
    + rewrite lookup_insert, decide_True by done. intros [= <-]. right. exists f. by rewrite H1.
    + rewrite lookup_insert_ne by done. intros Eg. right. exists x. by split.
  - intros q Nq. cbn. by rewrite lookup_insert_ne.
  - destruct G as [_ A]. destruct (A p) as [C K]. split.
    + intros x. cbn. rewrite lookup_insert, decide_True by done. intros [= <-]. rewrite H1, H2, H3. by apply C.
    + intros Hw h i Hl. cbn. apply (K Hw). by apply L.
Qed.

(** A file is dropped. *)
Lemma good_delete whole t p : Good whole t -> Good whole (set_files (delete p (file_states t)) t).
Proof.
  intros G. apply (good_step whole p t); [done| | |].
  - split_and!; [|done|done]. cbn. intros q g Eg. apply lookup_delete_Some in Eg as [_ Eg]. right. exists g. by split.
  - intros q Nq. cbn. by rewrite lookup_delete_ne.
  - apply okat_absent. cbn. by rewrite lookup_delete, decide_True.
Qed.

Lemma good_unindex whole t hs : Good whole t -> (forall h q h', h ∈ hs -> live t q h' -> h_id h <> h_id h') ->
  Good whole (unindex hs t).
Proof.
  intros [I A] N. split.
  - apply (inv_fewer t); [|done]. split_and!; [|cbn|done].
    + intros p f E. right. exists f. by split.
    + intros i hid Hi. by apply index_removes_in in Hi as [? _].
  - intros p. destruct (A p) as [C K]. split; [exact C|]. intros Hw h i Hl Hs. cbn. apply index_removes_in.
    split; [by apply (K Hw)|]. intros o Ho _ X. by apply (N o p h).
Qed.

Lemma good_send whole es t : Good whole t -> Good whole (emit es t).
Proof. by apply good_core. Qed.

(** The hunks of a file go: the file is emptied or dropped, then the index follows. *)
Lemma good_drop_hunks whole t t' p f last : Inv t -> file_states t !! p = Some f -> Good whole t' ->
  (forall q h, live t' q h -> q <> p /\ live t q h) -> Good whole (drop_hunks p f last t').
Proof.
  intros I E G L. apply good_send, good_unindex; [done|]. intros h q h' Hh Hl X. destruct (L q h' Hl) as [N Hl'].
  apply N. eapply (inv_apart t I q p h' h); [done|by exists f|done].
Qed.

Lemma live_emptied t p f q h : hunks f = [] -> live (insert_file p f t) q h -> q <> p /\ live t q h.
Proof.
  intros N Hl. apply (live_insert t _ p f q h) in Hl as [[-> Hh]|?]; [|done..]. rewrite N in Hh. by apply elem_of_nil in Hh.
Qed.

Lemma live_deleted t p q h : live (set_files (delete p (file_states t)) t) q h -> q <> p /\ live t q h.
Proof. intros (g&Eg&Hg). cbn in Eg. apply lookup_delete_Some in Eg as [N Eg]. split; [congruence|]. by exists g. Qed.

(** The steps inside an action on the file [p], after which the file is put
    right. *)
Definition GoodOff (whole : bool) (p : string) t : Prop := Inv t /\ forall q, q <> p -> OkAt whole t q.

Lemma off_of_good whole p t : Good whole t -> GoodOff whole p t.
Proof. intros [I A]. split; [done|]. intros q _. apply A. Qed.

Lemma good_of_off whole p t : GoodOff whole p t -> OkAt whole t p -> Good whole t.
Proof. intros [I A] O. split; [done|]. intros q. destruct (decide (q = p)) as [->|N]; [done|by apply A]. Qed.

Lemma off_recompute whole w t p c src : GoodOff whole p t -> Good whole (recompute_hunks supply w t p c src).
Proof. intros [I A]. by apply good_recompute. Qed.

Lemma off_core whole p t t' : core t' = core t -> GoodOff whole p t -> GoodOff whole p t'.
Proof.
  unfold core. intros [= E1 E2 E3] [I A].
  assert (F : fewer t t'). { split_and!; [|by rewrite E2|lia]. rewrite E1. intros q f E. right. exists f. by split. }
  split; [by eapply inv_fewer|]. intros q N. apply (okat_untouched whole p t); [|done|by apply A].
  intros r _. rewrite E1, E2. split; [done|by auto].
Qed.

Lemma off_insert whole t p f g : GoodOff whole p t -> file_states t !! p = Some f -> hunks g `sublist_of` hunks f ->
  GoodOff whole p (insert_file p g t).
Proof.
  intros [I A] E S. split.
  - apply (inv_fewer t); [|done]. split_and!; [|done|done]. cbn. intros q x. destruct (decide (q = p)) as [->|N].
    + rewrite lookup_insert, decide_True by done. intros [= <-]. right. by exists f.
    + rewrite lookup_insert_ne by done. intros Ex. right. exists x. by split.
  - intros q N. apply (okat_untouched whole p t); [|done|by apply A]. intros r Nr. cbn. by rewrite lookup_insert_ne.
Qed.

Lemma count_actions_core a hs t :
  core (foldl (count_action a) t hs) = (file_states t, foldl index_remove (turn_index t) hs, issued t).
Proof. revert t. induction hs as [|h hs IH]; intros t; [done|]. cbn [foldl]. rewrite IH. done. Qed.

Lemma off_count whole a t p f hs : Good whole t -> file_states t !! p = Some f -> (forall h, h ∈ hs -> h ∈ hunks f) ->
  GoodOff whole p (foldl (count_action a) t hs).
Proof.
  intros G E Hs. apply (off_core whole p (unindex hs t)); [by rewrite count_actions_core|]. destruct G as [I A]. split.
  - apply (inv_fewer t); [|done]. split_and!; [|cbn|done].
    + intros q x Ex. right. exists x. by split.
    + intros i hid Hi. by apply index_removes_in in Hi as [? _].
  - intros q N. apply (okat_untouched whole p t); [|done|by apply A]. intros r Nr. split; [done|]. intros h i Hl Hi.
    cbn. apply index_removes_in. split; [done|]. intros o Ho _ X. apply Nr.
    eapply (inv_apart t I r p h o); [done|exists f; split; [done|by apply Hs]|done].
Qed.

(** ** Actions *)

Lemma diff_patchable b c : diff_of b c <> [] ->
  match b, c with Full _, Full _ => True | Full _, Missing | Missing, Full _ => length (diff_of b c) = 1%nat | _, _ => False end.
Proof. unfold diff_of. destruct b, c; try done; by destruct (is_empty _). Qed.

(** A file one side of which is missing has at most one hunk. *)
Lemma single_hunk t p f : CurrentAt t p -> file_states t !! p = Some f -> hunks f <> [] ->
  match baseline f, current_content f with
  | Full _, Full _ => True
  | Full _, Missing | Missing, Full _ => exists h, hunks f = [h]
  | _, _ => False
  end.
Proof.
  intros C E N. destruct (C f E) as [?|S]; [done|].
  assert (D : diff_of (baseline f) (current_content f) <> []) by (rewrite <- S; by destruct (hunks f)).
  apply diff_patchable in D. destruct (baseline f), (current_content f); try done;
    rewrite <- S, length_fmap in D; destruct (hunks f) as [|h [|]]; try done; by exists h.
Qed.

Lemma without_single (hs : list Hunk) h : hs <> [] -> (forall x, x ∈ hs -> x ∈ [h]) -> without_ids (h_id <$> hs) [h] = [].
Proof.
  intros N S. destruct hs as [|x hs]; [done|]. assert (x = h) as -> by (apply list_elem_of_singleton, S; by left).
  unfold without_ids. cbn [List.filter]. rewrite bool_decide_eq_true_2; [done|]. rewrite fmap_cons. by left.
Qed.

Lemma without_one hid (l : list Hunk) : List.filter (fun x => negb (h_id x =s? hid)) l = without_ids [hid] l.
Proof.
  unfold without_ids. induction l as [|x l IH]; [done|]. cbn [List.filter]. rewrite IH.
  assert ((h_id x =s? hid) = bool_decide (h_id x ∈ [hid])) as ->; [|done].
  destruct (String.eqb_spec (h_id x) hid) as [->|N]; symmetry; [apply bool_decide_eq_true|apply bool_decide_eq_false];
    by rewrite list_elem_of_singleton.
Qed.

(** Acting on one hunk is a batch of one. *)
Lemma accept_one w t p h : accept_hunk supply w t p h = accept_hunks_batch supply w t p [h].
Proof.
  unfold accept_hunk, accept_hunks_batch. destruct (file_states t !! p) as [f|]; [|done].
  rewrite without_one. destruct (baseline f) eqn:B; cbn [is_missing patch_baseline]; done.
Qed.

Lemma reject_one w t p h : reject_hunk supply w t p h = reject_hunks_batch supply w t p [h].
Proof. unfold reject_hunk, reject_hunks_batch. destruct (file_states t !! p) as [f|]; [|done]. by rewrite without_one. Qed.

Lemma good_accept whole w t p f hs : Good whole t -> file_states t !! p = Some f -> hs <> [] ->
  (forall h, h ∈ hs -> h ∈ hunks f) -> Good whole (accept_hunks_batch supply w (foldl (count_action Accept) t hs) p hs).
Proof.
  intros G E N S. pose proof (off_count whole Accept t p f hs G E S) as O.
  pose proof (count_actions_core Accept hs t) as Ec. injection Ec as Ef _ _.
  set (t1 := foldl (count_action Accept) t hs) in *.
  unfold accept_hunks_batch. destruct hs as [|h0 hs0]; [done|]. set (hs := h0 :: hs0) in *. rewrite Ef, E.
  match goal with |- context [insert_file p ?g t1] => set (f' := g) end.
  assert (O' : GoodOff whole p (send_events (removal_events p Accepted hs ++ [BaselineUpdated p]) (insert_file p f' t1))).
  { apply (off_core whole p (insert_file p f' t1)); [done|]. eapply off_insert; [done|by rewrite Ef, E|apply lfilter_sublist]. }
  destruct (is_missing (baseline f)) eqn:M; [|by apply off_recompute].
  apply (good_of_off whole p); [done|]. apply (okat_no_hunks whole _ p f'); [cbn; by rewrite lookup_insert, decide_True|].
  destruct (baseline f) eqn:B; try done. destruct G as [_ A]. destruct (A p) as [C _].
  assert (Hn : hunks f <> []). { intros X. specialize (S h0). rewrite X in S. apply elem_of_nil in S; [done|by left]. }
  pose proof (single_hunk t p f C E Hn) as Si. rewrite B in Si. destruct (current_content f); try done. destruct Si as [h Hh].
  subst f'. cbn [hunks set_hunks]. rewrite Hh. rewrite Hh in S. by apply without_single.
Qed.

Definition fs_works w : Prop := (forall p c, fs_write w p c = None) /\ (forall p, fs_remove w p = None).

Lemma good_reject whole w t p f hs : Good whole t -> (whole = true -> fs_works w) -> file_states t !! p = Some f -> hs <> [] ->
  (forall h, h ∈ hs -> h ∈ hunks f) -> Good whole (reject_hunks_batch supply w (foldl (count_action Reject) t hs) p hs).2.
Proof.
  intros G Fs E N S. pose proof (off_count whole Reject t p f hs G E S) as O.
  pose proof (count_actions_core Reject hs t) as Ec. injection Ec as Ef _ _.
  set (t1 := foldl (count_action Reject) t hs) in *.
  assert (Fail : whole = false -> Good whole t1).
  { intros ->. apply (good_of_off false p); [done|]. split; [|done]. destruct G as [_ A]. destruct (A p) as [C _].
    intros g. rewrite Ef. apply C. }
  destruct G as [I A]. destruct (A p) as [C _].
  assert (Hn : hunks f <> []). { intros X. destruct hs as [|h0 ?]; [done|]. specialize (S h0). rewrite X in S. apply elem_of_nil in S; [done|by left]. }
  pose proof (single_hunk t p f C E Hn) as Si.
  unfold reject_hunks_batch. destruct hs as [|h0 hs0]; [done|]. set (hs := h0 :: hs0) in *. rewrite Ef, E.
  assert (Settle : forall c es t', core t' = core t1 -> GoodOff whole p (send_events es (insert_file p
    (set_hunks (without_ids (h_id <$> hs) (hunks f)) (set_current c f)) t'))).
  { intros c es t' Et. apply (off_core whole p (insert_file p (set_hunks (without_ids (h_id <$> hs) (hunks f)) (set_current c f)) t1)).
    - injection Et as E1 E2 E3. unfold core. cbn. by rewrite E1, E2, E3.
    - eapply off_insert; [done|by rewrite Ef, E|apply lfilter_sublist]. }
  assert (Empty : forall h c es t', hunks f = [h] -> core t' = core t1 -> Good whole (send_events es (insert_file p
    (set_hunks (without_ids (h_id <$> hs) (hunks f)) (set_current c f)) t'))).
  { intros h c es t' Hh Et. apply (good_of_off whole p); [by apply Settle|]. eapply okat_no_hunks; [cbn; by rewrite lookup_insert, decide_True|].
    cbn [hunks set_hunks set_current]. rewrite Hh in S |- *. exact (without_single hs h N S). }
  unfold perform_reject, reject_action, write_content, remove_file.
  destruct (baseline f), (current_content f); try done; try (lazymatch type of Si with ex _ => destruct Si as [h Hh] end);
    (destruct (fs_write _ _ _) eqn:W || destruct (fs_remove _ _) eqn:W);
    cbn; try (by eapply Empty); try (by apply off_recompute, Settle);
    apply Fail; (destruct whole; [|done]); destruct (Fs eq_refl) as [Fw Fr]; by rewrite ?Fw, ?Fr in W.
Qed.

(** An action on one file leaves the states of the others. *)
Lemma recompute_other w t p c src q : q <> p -> file_states (recompute_hunks supply w t p c src) !! q = file_states t !! q.
Proof.
  intros N. destruct (file_states t !! p) as [f|] eqn:E; [|unfold recompute_hunks; by rewrite E].
  destruct (recompute_spec w t p c src f E) as (new&Ef&_). by rewrite Ef, lookup_insert_ne.
Qed.

Lemma accept_other w t p hs q : q <> p -> file_states (accept_hunks_batch supply w t p hs) !! q = file_states t !! q.
Proof.
  intros N. unfold accept_hunks_batch. destruct hs as [|h hs]; [done|]. destruct (file_states t !! p) as [f|]; [|done].
  cbv zeta. destruct (is_missing (baseline f)); [|rewrite recompute_other by done]; cbn; by rewrite lookup_insert_ne.
Qed.

Lemma reject_other w t p hs q : q <> p -> file_states (reject_hunks_batch supply w t p hs).2 !! q = file_states t !! q.
Proof.
  intros N. unfold reject_hunks_batch. destruct hs as [|h hs]; [done|]. destruct (file_states t !! p) as [f|]; [|done].
  unfold perform_reject, write_content, remove_file. destruct (reject_action f (reject_patches (h :: hs))); cbn; [..|done].
  - destruct (fs_write _ _ _); cbn; [done|by rewrite lookup_insert_ne].
  - destruct (fs_remove _ _); cbn; [done|by rewrite lookup_insert_ne].
  - destruct (fs_write _ _ _); [done|]. cbn. rewrite recompute_other by done. cbn. by rewrite lookup_insert_ne.
Qed.

(** Every pair names hunks its file has. *)
Definition pairs_ok t (files : list (string * list Hunk)) : Prop :=
  NoDup files.*1 /\ forall p hs, (p, hs) ∈ files -> hs <> [] /\ exists f, file_states t !! p = Some f /\ forall h, h ∈ hs -> h ∈ hunks f.

Lemma pairs_ok_tail t t' p hs files : pairs_ok t ((p, hs) :: files) ->
  (forall q, q <> p -> file_states t' !! q = file_states t !! q) -> pairs_ok t' files.
Proof.
  intros [N A] O. rewrite fmap_cons in N. apply list.NoDup_cons in N as [N1 N2]. split; [done|]. intros q gs Hq.
  destruct (A q gs) as (Hn&f&Ef&Hf); [by right|]. split; [done|]. exists f. rewrite O; [done|]. intros ->.
  apply N1. apply list_elem_of_fmap. by exists (p, gs).
Qed.

Lemma good_action_batch whole w t files a affected : Good whole t -> (whole = true -> fs_works w) -> pairs_ok t files ->
  Good whole (apply_action_batch supply w t files a affected).2.
Proof.
  revert t affected. induction files as [|[p hs] files IH]; intros t affected G Fs P; [done|]. cbn [apply_action_batch].
  destruct (proj2 P p hs) as (Hn&f&Ef&Hf); [by left|].
  assert (Cf : file_states (foldl (count_action a) t hs) = file_states t).
  { pose proof (count_actions_core a hs t) as X. by injection X. }
  destruct a.
  - apply IH; [by eapply good_accept|done|]. eapply pairs_ok_tail; [exact P|]. intros q Nq. rewrite accept_other by done. by rewrite Cf.
  - pose proof (good_reject whole w t p f hs G Fs Ef Hn Hf) as Gr.
    pose proof (reject_other w (foldl (count_action Reject) t hs) p hs) as Or.
    destruct (reject_hunks_batch supply w (foldl (count_action Reject) t hs) p hs) as [[u|e] t2]; [|done].
    apply IH; [done|done|]. eapply pairs_ok_tail; [exact P|]. intros q Nq. cbn in Or. rewrite Or by done. by rewrite Cf.
Qed.

Lemma order_elem {A} (m : gmap string A) p x : (p, x) ∈ order m <-> m !! p = Some x.
Proof. rewrite (order_perm A m). apply elem_of_map_to_list. Qed.

Lemma order_nodup {A} (m : gmap string A) : NoDup (order m).*1.
Proof. rewrite (order_perm A m). apply NoDup_fst_map_to_list. Qed.

Lemma good_hunk_action whole w t hid a : Good whole t -> (whole = true -> fs_works w) -> Good whole (apply_hunk_action supply w t hid a).2.
Proof.
  intros G Fs. unfold apply_hunk_action. destruct (find_map _ _) as [[p h]|] eqn:E; [|done].
  apply find_map_some in E as (l1&[q f]&l2&El&E&_).
  assert (Hq : (q, f) ∈ order (file_states t)) by (rewrite El; apply elem_of_app; right; by left). apply order_elem in Hq.
  destruct (List.find _ (hunks f)) as [x|] eqn:Ex; [|done]. injection E as <- <-. apply List.find_some in Ex as [Hx%list_elem_of_In _].
  assert (S : forall y, y ∈ [x] -> y ∈ hunks f) by (by intros y ->%list_elem_of_singleton).
  destruct a.
  - cbn [snd]. rewrite accept_one. by apply (good_accept whole w t q f [x]).
  - rewrite reject_one. by apply (good_reject whole w t q f [x]).
Qed.

Lemma good_file_action whole w t p a : Good whole t -> (whole = true -> fs_works w) -> Good whole (apply_file_action supply w t p a).2.
Proof.
  intros G Fs. unfold apply_file_action. destruct (file_states t !! p) as [f|] eqn:E; [|done].
  destruct (hunks f) as [|h hs] eqn:Eh; [done|]. apply good_action_batch; [done|done|]. split; [repeat constructor; set_solver|].
  intros q gs [= -> ->]%list_elem_of_singleton. split; [done|]. exists f. by rewrite Eh.
Qed.

Lemma good_all_action whole w t a : Good whole t -> (whole = true -> fs_works w) -> Good whole (apply_all_action supply w t a).2.
Proof.
  intros G Fs. unfold apply_all_action. set (files := _ <$> List.filter _ _).
  assert (P : pairs_ok t files).
  { split.
    - subst files. rewrite <- list_fmap_compose. eapply sublist_NoDup; [apply (order_nodup (file_states t))|].
      generalize (order (file_states t)). intros l. induction l as [|[q g] l IH]; [constructor|]. cbn [List.filter].
      destruct (negb _); rewrite !fmap_cons; [by apply sublist_skip|by apply sublist_cons].
    - intros p hs ([q f]&[= -> ->]&Hq)%list_elem_of_fmap. apply elem_of_lfilter in Hq as [Hb Hq]. apply order_elem in Hq.
      apply negb_true_iff, bool_decide_eq_false in Hb. split; [done|]. by exists f. }
  destruct files; [done|by apply good_action_batch].
Qed.

Lemma turn_hunks_elem i f h : h ∈ turn_hunks i f <-> h ∈ hunks f /\ source_prompt_index (h_source h) = Some i.
Proof. unfold turn_hunks. rewrite elem_of_lfilter, bool_decide_eq_true. tauto. Qed.

Lemma good_turn_action whole w t i a : Good whole t -> (whole = true -> fs_works w) -> Good whole (apply_turn_action supply w t i a).2.
Proof.
  intros G Fs. unfold apply_turn_action.
  assert (P : pairs_ok t (order (files_of_turn t i))).
  { split; [apply order_nodup|]. intros p hs Hp%order_elem. unfold files_of_turn in Hp. rewrite lookup_omap in Hp.
    destruct (file_states t !! p) as [f|]; [|done]. cbn in Hp. destruct (turn_hunks i f) as [|h l] eqn:Et; [done|].
    injection Hp as <-. split; [done|]. exists f. split; [done|]. intros x Hx. rewrite <- Et in Hx. by apply turn_hunks_elem in Hx as [? _]. }
  destruct (order (files_of_turn t i)); [done|by apply good_action_batch].
Qed.

(** ** Writes and notifications *)

Lemma git_task_core {A} w t (absent : A) body : core (git_task w t absent body).2 = core t /\ mode (git_task w t absent body).2 = mode t.
Proof. unfold git_task. destruct (negb _); [done|]. destruct (open_or_discover _ _ _) as [[[r p] [[? ?]|]]|]; [done..|]. by destruct (git_repo_state t). Qed.

Lemma read_baseline_core w t p : core (read_baseline w t p).2 = core t /\ mode (read_baseline w t p).2 = mode t.
Proof.
  unfold read_baseline. destruct (not_a_repo t); [done|].
  pose proof (git_task_core w t missing_content (fun repo prefix => unwrap_or missing_content
    (head_content (git w) repo prefix (unwrap_or (working_dir t) (canonicalize (git w) (working_dir t))) p))) as X.
  by destruct (git_task _ _ _ _).
Qed.

Lemma read_baselines_core w t ps : core (read_baselines_batch w t ps).2 = core t.
Proof.
  unfold read_baselines_batch. destruct (_ || _); [done|]. destruct (git_task w t _ _) as [r t'] eqn:E. cbn.
  match type of E with git_task w t ?a ?b = _ => pose proof (git_task_core w t a b) as [X _] end. by rewrite E in X.
Qed.

Lemma baseline_or_read_core w t pre p : core (baseline_or_read w t pre p).2 = core t.
Proof. destruct pre; [done|]. apply read_baseline_core. Qed.

Lemma good_recomputed whole w t p c src : Good whole t -> Good whole (recompute_hunks supply w t p c src).
Proof. intros [I A]. apply good_recompute; [done|]. intros q _. apply A. Qed.

Lemma core_tracked t t' p : core t' = core t -> tracked p t' = tracked p t.
Proof. intros [= E _ _]. unfold tracked. by rewrite E. Qed.

Lemma update_file_insert p g t f : file_states t !! p = Some f -> update_file p g t = insert_file p (g f) t.
Proof.
  intros E. unfold update_file, insert_file. f_equal. apply map_eq. intros j.
  rewrite lookup_alter, lookup_insert. by destruct (decide (p = j)) as [->|]; [rewrite E|].
Qed.

Lemma tracked_some p t : tracked p t = true <-> is_Some (file_states t !! p).
Proof. apply bool_decide_eq_true. Qed.

(** Updating a file that is there; nothing happens otherwise. *)
Lemma update_file_cases p g t :
  (exists f, file_states t !! p = Some f /\ update_file p g t = insert_file p (g f) t) \/ core (update_file p g t) = core t.
Proof.
  destruct (file_states t !! p) as [f|] eqn:E; [left; exists f; split; [done|by apply update_file_insert]|right].
  unfold core, update_file. cbn. rewrite (alter_id _ _ p); [done|]. intros x Hx. by rewrite E in Hx.
Qed.

Lemma good_record_write whole w t p content i prev : Good whole t -> Good whole (record_agent_write supply w t p content i prev).
Proof.
  intros G. unfold record_agent_write. destruct (negb (is_diffable _)).
  - destruct (negb (tracked p t)).
    + destruct (match prev with Some _ => _ | None => _ end) as [b t1] eqn:E. apply good_send, good_insert_empty; [|done].
      apply (good_core whole t); [|done]. destruct prev; [by injection E as _ <-|].
      pose proof (read_baseline_core w t p) as [X _]. by rewrite E in X.
    + destruct (update_file_cases p (fun f => set_hunks [] (set_current (classify_string content) (set_agent f))) t) as [(f&_&->)|E];
        [by apply good_insert_empty|by apply (good_core whole t)].
  - apply good_recomputed. destruct (negb (tracked p t)).
    + pose proof (read_baseline_core w t p) as [X _]. destruct (read_baseline w t p) as [b t1].
      apply good_send, good_insert_empty; [|done]. by apply (good_core whole t).
    + destruct (update_file_cases p set_agent t) as [(f&Ef&->)|E]; [by eapply good_same_hunks|by apply (good_core whole t)].
Qed.

Lemma good_process_change whole w t p pre : Good whole t -> Good whole (process_file_change supply w t p pre).
Proof.
  intros G. unfold process_file_change. destruct (_ && negb (tracked p t)); [done|]. cbv zeta.
  destruct (negb (is_diffable _) && negb (tracked p t)); [|destruct (negb (tracked p t))].
  - destruct (if bool_decide (mode t = AllDirty) then _ else _) as [b t1] eqn:E.
    assert (G1 : Good whole t1).
    { apply (good_core whole t); [|done]. destruct (bool_decide _); [|by injection E as _ <-].
      pose proof (baseline_or_read_core w t pre p) as X. by rewrite E in X. }
    destruct (git_ignored w t1 p b); [done|].
    destruct (is_diffable b); [apply good_recomputed|]; by apply good_send, good_insert_empty.
  - pose proof (baseline_or_read_core w t pre p) as X. destruct (baseline_or_read w t pre p) as [b t1].
    assert (G1 : Good whole t1) by (by apply (good_core whole t)).
    destruct (git_ignored w t1 p b); [done|]. by apply good_recomputed, good_send, good_insert_empty.
  - destruct (unwrap_or false _); [|by apply good_recomputed].
    pose proof (baseline_or_read_core w t pre p) as X. destruct (baseline_or_read w t pre p) as [b t1].
    assert (G1 : Good whole t1) by (by apply (good_core whole t)).
    destruct (content_matches_head _ _ _ _); [|by apply good_recomputed].
    destruct (update_file_cases p (fun f => set_hunks [] (set_accepted false (set_current b (set_baseline b f)))) t1) as [(f&_&->)|E];
      [by apply good_insert_empty|by apply (good_core whole t1)].
Qed.

Lemma good_changes_batch whole w t ps : Good whole t -> Good whole (handle_file_changes_batch supply w t ps).
Proof.
  intros G. unfold handle_file_changes_batch. destruct ps as [|p0 ps0]; [done|]. set (ps := p0 :: ps0).
  destruct (match List.filter _ ps with [] => _ | _ :: _ => _ end) as [bs t1] eqn:E.
  assert (G1 : Good whole t1).
  { apply (good_core whole t); [|done]. destruct (List.filter _ ps) eqn:Ef; [by injection E as _ <-|].
    match type of E with read_baselines_batch w t ?l = _ => pose proof (read_baselines_core w t l) as X end. by rewrite E in X. }
  clear E G. revert bs t1 G1. induction ps as [|p l IH]; intros bs t1 G1; [done|]. cbn [foldl]. apply IH. by apply good_process_change.
Qed.

Lemma good_deleted whole w t p : Good whole t -> Good whole (handle_file_deleted supply w t p).
Proof.
  intros G. unfold handle_file_deleted. destruct (negb (tracked p t)).
  - destruct (bool_decide _); [done|]. destruct (fs_exists w p); [done|]. pose proof (read_baseline_core w t p) as [X _].
    destruct (read_baseline w t p) as [b t1]. assert (G1 : Good whole t1) by (by apply (good_core whole t)).
    destruct (is_missing b); [done|]. by apply good_recomputed, good_send, good_insert_empty.
  - destruct (fs_exists w p); [by apply good_process_change|by apply good_recomputed].
Qed.

Lemma good_reset_baseline whole t p : Good whole t -> Good whole (reset_baseline t p).
Proof.
  intros G. unfold reset_baseline. destruct (file_states t !! p) as [f|] eqn:E; [|done].
  apply (good_drop_hunks whole t _ p f (BaselineUpdated p)); [apply G|done|by apply good_insert_empty|].
  intros q h. by apply live_emptied.
Qed.

Lemma good_untrack whole t p : Good whole t -> Good whole (untrack t p).
Proof.
  intros G. unfold untrack. destruct (file_states t !! p) as [f|] eqn:E; [|done].
  apply (good_drop_hunks whole t); [apply G|done|by apply good_delete|]. intros q h. apply live_deleted.
Qed.

(** ** Refreshing *)

Lemma off_delete whole t p : GoodOff whole p t -> Good whole (set_files (delete p (file_states t)) t).
Proof.
  intros [I A]. apply (good_of_off whole p); [|apply okat_absent; cbn; by rewrite lookup_delete, decide_True]. split.
  - apply (inv_fewer t); [|done]. split_and!; [|done|done]. cbn. intros q g Eg. apply lookup_delete_Some in Eg as [_ Eg].
    right. exists g. by split.
  - intros q N. apply (okat_untouched whole p t); [|done|by apply A]. intros r Nr. cbn. by rewrite lookup_delete_ne.
Qed.

Lemma off_emptied whole t p g : GoodOff whole p t -> is_Some (file_states t !! p) -> hunks g = [] -> Good whole (insert_file p g t).
Proof.
  intros O [f E] N. apply (good_of_off whole p).
  - eapply off_insert; [done|exact E|]. rewrite N. apply sublist_nil_l.
  - eapply okat_no_hunks; [|exact N]. cbn. by rewrite lookup_insert, decide_True.
Qed.

Lemma good_refresh_file whole w bs t p : Good whole t -> Good whole (refresh_file supply w bs t p).
Proof.
  intros G. unfold refresh_file. destruct (file_states t !! p) as [f|] eqn:E; [|done]. cbv zeta.
  match goal with |- context [insert_file p ?g t] => set (f' := g) end. set (t1 := insert_file p f' t).
  assert (E1 : file_states t1 !! p = Some f') by (cbn; by rewrite lookup_insert, decide_True).
  assert (O : GoodOff whole p t1) by (eapply off_insert; [by apply off_of_good|exact E|done]).
  assert (L : forall q h, q <> p -> live t1 q h -> live t q h).
  { intros q h N Hl. by apply (live_insert t t1 p f' q h) in Hl as [[? _]|[_ ?]]. }
  destruct (is_clean _ _ _ _ _); [|by apply good_send, off_recompute]. destruct (is_agent_file f).
  - apply (good_drop_hunks whole t); [apply G|done|by apply off_emptied; [|exists f'|]|].
    intros q h [N Hl]%live_emptied; [|done]. split; [done|by apply L].
  - apply (good_drop_hunks whole t); [apply G|done|by apply off_delete|].
    intros q h [N Hl]%live_deleted. split; [done|by apply L].
Qed.

Lemma good_foldl {A} whole (step : Tracker -> A -> Tracker) l t :
  (forall t x, Good whole t -> Good whole (step t x)) -> Good whole t -> Good whole (foldl step t l).
Proof. intros S. revert t. induction l as [|x l IH]; intros t G; [done|]. cbn. apply IH. by apply S. Qed.

Lemma good_refresh_dirty whole w t scope : Good whole t -> Good whole (refresh_git_dirty_cache supply w t scope).
Proof.
  intros G. unfold refresh_git_dirty_cache. destruct (not_a_repo t); [done|].
  match goal with |- context [git_task w t ?a ?b] => pose proof (git_task_core w t a b) as [X _]; destruct (git_task w t a b) as [[items|] t1] end.
  - assert (G1 : Good whole t1) by (by apply (good_core whole t)). cbv zeta. destruct (bool_decide _); [|by apply (good_core whole t1)].
    apply good_foldl; [intros t' x; apply good_process_change|]. by apply (good_core whole t1).
  - by apply (good_core whole t).
Qed.

Lemma good_refresh_all whole w t skip : Good whole t -> Good whole (refresh_all_baselines_except supply w t skip).
Proof.
  intros G. unfold refresh_all_baselines_except. destruct (_ && _); [done|].
  assert (X : core (read_repo_sync_state w t).2 = core t).
  { unfold read_repo_sync_state. destruct (not_a_repo t); [done|]. destruct (git_task w t _ _) as [r t'] eqn:E. cbn.
    match type of E with git_task w t ?a ?b = _ => pose proof (git_task_core w t a b) as [X _] end. by rewrite E in X. }
  destruct (read_repo_sync_state w t) as [sync t1]. assert (G1 : Good whole t1) by (by apply (good_core whole t)).
  destruct (bool_decide _); [done|]. cbv zeta. set (t2 := match sync with Some s => set_sync s t1 | None => t1 end).
  assert (G2 : Good whole t2) by (destruct sync; [by apply (good_core whole t1)|done]).
  match goal with |- context [List.filter _ (keys ?x)] => set (t3 := x) end.
  assert (G3 : Good whole t3).
  { subst t3. destruct (mode t2); [|by apply good_refresh_dirty]. destruct (filter_map _ _); [by apply (good_core whole t2)|by apply good_refresh_dirty]. }
  clearbody t3. set (paths := List.filter _ (keys t3)). destruct (match paths with [] => _ | _ :: _ => _ end) as [bs t4] eqn:E4.
  assert (G4 : Good whole t4).
  { apply (good_core whole t3); [|done]. destruct paths eqn:Ep; [by injection E4 as _ <-|].
    match type of E4 with read_baselines_batch w t3 ?l = _ => pose proof (read_baselines_core w t3 l) as Y end. by rewrite E4 in Y. }
  apply good_foldl; [|done]. intros t' x. apply good_refresh_file.
Qed.

Lemma good_set_mode whole w t m : Good whole t -> Good whole (set_mode supply w t m).
Proof.
  intros G. unfold set_mode. assert (G1 : Good whole (set_tracking m t)) by (by apply (good_core whole t)).
  destruct (mode t), m; [done|by apply good_refresh_dirty| |done].
  apply good_foldl; [|done]. intros t' x. apply good_untrack.
Qed.

(** ** Commands and rounds *)

(** The commands that neither move the tracker nor replace its state. *)
Definition plain (cmd : HunkTrackerCommand) : Prop :=
  match cmd with SetWorkingDir _ | RestoreState _ => False | _ => True end.

Lemma good_command whole w t cmd : Good whole t -> (whole = true -> fs_works w) -> plain cmd ->
  Good whole (handle_command supply w t cmd).2.
Proof.
  intros G Fs P. destruct cmd; try done; cbn [handle_command].
  - by apply good_record_write.
  - by apply good_process_change.
  - by apply good_deleted.
  - by apply good_refresh_dirty.
  - by apply good_reset_baseline.
  - by apply good_set_mode.
  - pose proof (good_hunk_action whole w t hunk_id action G Fs) as X. by destruct (apply_hunk_action _ _ _ _ _).
  - pose proof (good_file_action whole w t path action G Fs) as X. by destruct (apply_file_action _ _ _ _ _).
  - pose proof (good_all_action whole w t action G Fs) as X. by destruct (apply_all_action _ _ _ _).
  - pose proof (good_turn_action whole w t prompt_index action G Fs) as X. by destruct (apply_turn_action _ _ _ _ _).
  - by apply (good_core whole t).
  - by apply good_refresh_all.
Qed.

Lemma batch_add_plain b cmd : Forall plain (other_commands b) -> plain cmd -> Forall plain (other_commands (batch_add b cmd)).
Proof. intros Hb Hc. destruct cmd; cbn; try done; apply Forall_app_2; by repeat constructor. Qed.

Lemma drain_plain cmd queued : Forall plain (cmd :: queued) -> Forall plain (other_commands (drain_and_coalesce cmd queued)).
Proof.
  unfold drain_and_coalesce. generalize (cmd :: queued). assert (X : Forall plain (other_commands batch_new)) by constructor.
  revert X. generalize batch_new. intros b X l. revert b X. induction l as [|c l IH]; intros b X P; [done|].
  inversion P; subst. cbn [foldl]. apply IH; [|done]. by apply batch_add_plain.
Qed.

Lemma good_replies whole w l z : (whole = true -> fs_works w) -> Forall plain l -> Good whole z.2 ->
  Good whole (foldl (fun '(rs, t) cmd => let '(r, t') := handle_command supply w t cmd in (rs ++ [r], t')) z l).2.
Proof.
  intros Fs P. revert z. induction P as [|cmd l Pc _ IH]; intros [rs t] G; [done|]. cbn [foldl].
  pose proof (good_command whole w t cmd G Fs Pc) as X. destruct (handle_command supply w t cmd) as [r t']. by apply IH.
Qed.

Lemma good_batch whole w t b : Good whole t -> (whole = true -> fs_works w) -> Forall plain (other_commands b) ->
  Good whole (handle_coalesced_batch supply w t b).2.
Proof.
  intros G Fs P. unfold handle_coalesced_batch. cbv zeta.
  set (t1 := if refresh_dirty b && negb (refresh_all b) then _ else _).
  assert (G1 : Good whole t1) by (subst t1; destruct (_ && _); [by apply good_refresh_dirty|done]). clearbody t1.
  set (t2 := if refresh_all b then _ else _).
  assert (G2 : Good whole t2).
  { subst t2. destruct (refresh_all b).
    - assert (X : forall l z, Good whole z.2 -> Good whole (foldl (batch_file supply w) z l).2).
      { intros l. induction l as [|[p a] l IH]; intros [s t'] G'; [done|]. cbn [foldl]. apply IH. unfold batch_file. cbn.
        destruct a; destruct (tracked p t'); cbn; try done; by (apply good_process_change || apply good_deleted). }
      pose proof (X (order (file_actions b)) (∅, t1) G1) as Y. destruct (foldl _ _ _) as [s t']. by apply good_refresh_all.
    - apply good_changes_batch, good_foldl; [|done]. intros t' [p a] G'. unfold deleted_file. cbn. destruct a; [done| |done].
      by apply good_deleted. }
  clearbody t2. apply good_replies; [done|done|exact G2].
Qed.

Lemma good_round whole w t cmd queued : Good whole t -> (whole = true -> fs_works w) -> Forall plain (cmd :: queued) ->
  Good whole (actor_round supply w t cmd queued).1.2.
Proof.
  intros G Fs P. unfold actor_round. destruct (is_coalescable cmd).
  - pose proof (good_batch whole w t _ G Fs (drain_plain cmd queued P)) as X. by destruct (handle_coalesced_batch _ _ _ _).
  - inversion P; subst. pose proof (good_command whole w t cmd G Fs) as X. destruct (handle_command _ _ _ _). by apply X.
Qed.

(** ** Snapshots and a new working directory *)

Lemma snapshot_file_id f : snapshot_file_state f = f.
Proof. by destruct f. Qed.

Lemma restore_core t t0 : core (restore_snapshot t (take_snapshot t0)) = (file_states t0, turn_index t0, issued t).
Proof.
  unfold core. cbn. f_equal. f_equal. apply map_eq. intros p. rewrite !lookup_fmap.
  destruct (file_states t0 !! p) as [f|]; [cbn; by rewrite !snapshot_file_id|done].
Qed.

Lemma good_restore whole t t0 : Good whole t0 -> (issued t0 <= issued t)%nat ->
  Good whole (restore_snapshot t (take_snapshot t0)).
Proof.
  intros [I A] K. pose proof (f_equal (fun x => x.1.1) (restore_core t t0)) as E1. cbn [core fst] in E1.
  assert (E2 : turn_index (restore_snapshot t (take_snapshot t0)) = turn_index t0) by done.
  assert (E3 : issued (restore_snapshot t (take_snapshot t0)) = issued t) by done.
  set (t' := restore_snapshot t (take_snapshot t0)) in *.
  split.
  - apply (inv_fewer t0); [|done]. split_and!; [|by rewrite E2|lia]. rewrite E1. intros p f Ef. right. exists f. by split.
  - intros p. destruct (A p) as [C Kp]. split; [intros f; rewrite E1; apply C|].
    intros Hw h i (f&Ef&Hf). rewrite E1 in Ef. rewrite E2. apply (Kp Hw). by exists f.
Qed.

(** Files that get distinct paths are entered one by one. *)
Section rekey.
Context (old new : string).
Let rk (pf : string * FileHunkState) : string := rekey_path old new pf.1.
Let ins (m : gmap string FileHunkState) (pf : string * FileHunkState) : gmap string FileHunkState :=
  <[rk pf := rekey_state (rk pf) pf.2]> m.

Lemma rekey_lookup l m q g : NoDup (rk <$> l) -> (forall pf, pf ∈ l -> m !! rk pf = None) ->
  foldl ins m l !! q = Some g <-> m !! q = Some g \/ exists pf, pf ∈ l /\ rk pf = q /\ g = rekey_state q pf.2.
Proof.
  revert m. induction l as [|pf l IH]; intros m N F; cbn [foldl]; [set_solver|]. rewrite fmap_cons in N.
  apply list.NoDup_cons in N as [N1 N2]. assert (D : forall x, x ∈ l -> rk x <> rk pf).
  { intros x Hx E. apply N1. rewrite <- E. by apply list_elem_of_fmap_2. }
  rewrite IH; [|done|].
  - unfold ins at 1. destruct (decide (rk pf = q)) as [<-|Nq].
    + rewrite lookup_insert, decide_True by done. split.
      * intros [[= <-]|(x&Hx&Ex&->)]; [|by destruct (D x)]. right. exists pf. split; [by left|done].
      * intros [E|(x&Hx&Ex&->)]; [by rewrite F in E by (by left)|]. apply elem_of_cons in Hx as [->|Hx]; [by left|]. right. by exists x.
    + rewrite lookup_insert_ne by done. split; (intros [E|(x&Hx&Ex&->)]; [by left|right]); exists x.
      * split; [by right|done].
      * apply elem_of_cons in Hx as [->|Hx]; done.
  - intros x Hx. unfold ins. rewrite lookup_insert_ne by (intros E; by destruct (D x)). apply F. by right.
Qed.

Lemma rekey_inserts l m : NoDup (rk <$> l) -> (forall pf, pf ∈ l -> m !! rk pf = None) ->
  foldl (rekey_insert old new) m l = foldl ins m l.
Proof.
  revert m. induction l as [|pf l IH]; intros m N F; [done|]. cbn [foldl]. rewrite fmap_cons in N.
  apply list.NoDup_cons in N as [N1 N2]. assert (E : rekey_insert old new m pf = ins m pf).
  { unfold rekey_insert, ins, rk in *. by rewrite (F pf) by (by left). }
  rewrite E. apply IH; [done|]. intros x Hx. unfold ins. rewrite lookup_insert_ne; [apply F; by right|].
  intros X. apply N1. rewrite X. by apply list_elem_of_fmap_2.
Qed.
End rekey.

Definition no_collision t (wd : string) : Prop := NoDup (rekey_path (working_dir t) wd <$> keys t).

Lemma rekeyed_files t wd q g : no_collision t wd -> path_same wd (working_dir t) = false ->
  file_states (rekey_paths_for_working_dir t wd) !! q = Some g <->
  exists p f, file_states t !! p = Some f /\ q = rekey_path (working_dir t) wd p /\ g = rekey_state q f.
Proof.
  intros N S. unfold rekey_paths_for_working_dir. rewrite S, partition_filter. cbn [file_states set_files set_caches].
  set (old := working_dir t) in *. set (l := order (file_states t)).
  set (a := List.filter (fun pf => path_starts_with pf.1 wd) l). set (r := List.filter (fun pf => negb (path_starts_with pf.1 wd)) l).
  assert (P : l ≡ₚ a ++ r) by apply filter_permutation.
  set (rk := fun pf : string * FileHunkState => rekey_path old wd pf.1).
  assert (Nl : NoDup (rk <$> a ++ r)).
  { rewrite <- P. unfold no_collision, keys in N. rewrite <- list_fmap_compose in N. exact N. }
  rewrite fmap_app in Nl. apply list.NoDup_app in Nl as (Na&Nar&Nr).
  rewrite rekey_inserts; [|done|].
  - rewrite <- foldl_app. rewrite (rekey_lookup old wd (a ++ r) ∅ q g).
    + setoid_rewrite <- P. subst l. split.
      * intros [E|([p f]&Hp%order_elem&<-&->)]; [by rewrite lookup_empty in E|]. by exists p, f.
      * intros (p&f&Hp%order_elem&->&->). right. by exists (p, f).
    + rewrite fmap_app. by apply list.NoDup_app.
    + intros pf _. apply lookup_empty.
  - intros pf Hpf. destruct (foldl _ ∅ a !! _) as [x|] eqn:E; [|done]. apply (rekey_lookup old wd a ∅) in E as [E|(y&Hy&Ey&_)].
    + by rewrite lookup_empty in E.
    + destruct (Nar (rk y)); [by apply list_elem_of_fmap_2|]. assert (X : rk y = rk pf) by exact Ey. rewrite X. by apply list_elem_of_fmap_2.
    + done.
    + intros y _. apply lookup_empty.
Qed.

Lemma rekey_state_live t wd q h : no_collision t wd -> path_same wd (working_dir t) = false ->
  live (rekey_paths_for_working_dir t wd) q h ->
  h_path h = q /\ exists p h0, live t p h0 /\ q = rekey_path (working_dir t) wd p /\ h_id h = h_id h0 /\ h_source h = h_source h0.
Proof.
  intros N S (g&Eg&Hg). apply (rekeyed_files t wd q g N S) in Eg as (p&f&Ef&Eq&->). cbn in Hg.
  apply list_elem_of_fmap in Hg as (h0&->&Hh0). split; [done|]. exists p, h0. split_and!; [by exists f|done..].
Qed.

Lemma good_working_dir whole t wd : no_collision t wd -> Good whole t -> Good whole (set_working_dir t wd).
Proof.
  intros N [I A]. apply (good_core whole (rekey_paths_for_working_dir t wd)); [done|].
  destruct (path_same wd (working_dir t)) eqn:S; [unfold rekey_paths_for_working_dir; by rewrite S|].
  assert (Ei : turn_index (rekey_paths_for_working_dir t wd) = turn_index t /\ issued (rekey_paths_for_working_dir t wd) = issued t).
  { unfold rekey_paths_for_working_dir. rewrite S. by destruct (partition _ _). }
  destruct Ei as [Ei Ek]. set (t' := rekey_paths_for_working_dir t wd) in *.
  pose proof (fun q h => rekey_state_live t wd q h N S) as L. fold t' in L.
  assert (D : forall hid, drawn t hid -> drawn t' hid) by (intros hid (k&Hk&->); exists k; split; [lia|done]).
  split; [split|].
  - intros q h Hl. destruct (L q h Hl) as (_&p&h0&Hl0&_&->&_). by eapply D, inv_drawn.
  - intros q g Eg. apply (rekeyed_files t wd q g N S) in Eg as (p&f&Ef&_&->). cbn. rewrite <- list_fmap_compose. by eapply (inv_nodup t).
  - intros q r h h' Hl Hl' E. destruct (L q h Hl) as (_&p&h0&Hl0&->&E0&_), (L r h' Hl') as (_&p'&h0'&Hl0'&->&E0'&_).
    f_equal. eapply (inv_apart t); [done|exact Hl0|exact Hl0'|congruence].
  - intros q h Hl. by apply L.
  - intros i hid Hi. rewrite Ei in Hi. by eapply D, inv_index.
  - intros i q h Hi Hl. rewrite Ei in Hi. destruct (L q h Hl) as (_&p&h0&Hl0&_&E0&->). rewrite E0 in Hi. by eapply (inv_turn t).
  - intros q. split.
    + intros g Eg. apply (rekeyed_files t wd q g N S) in Eg as (p&f&Ef&_&->). destruct (A p) as [C _]. cbn.
      destruct (C f Ef) as [->|E]; [by left|right]. rewrite <- E, <- list_fmap_compose. done.
    + intros Hw h i Hl Hs. destruct (L q h Hl) as (_&p&h0&Hl0&_&E0&Es). rewrite Ei, E0. destruct (A p) as [_ K].
      apply (K Hw); [done|by rewrite <- Es].
Qed.

(** ** Reachable states *)

(** The tracker draws identifiers from a supply that is never reset: a session
    starts with some drawn.  [whole]: no write or removal of a file has failed. *)
Inductive reachable (whole : bool) : Tracker -> Prop :=
| reach_start w wd m k : reachable whole (actor_start supply w (set_issued k (tracker_new wd m)))
| reach_round t w cmd queued : reachable whole t -> (whole = true -> fs_works w) -> Forall plain (cmd :: queued) ->
    reachable whole (actor_round supply w t cmd queued).1.2
| reach_restore t t0 : reachable whole t -> reachable whole t0 -> (issued t0 <= issued t)%nat ->
    reachable whole (restore_snapshot t (take_snapshot t0))
| reach_move t wd : reachable whole t -> no_collision t wd -> reachable whole (set_working_dir t wd).

Lemma reachable_good whole t : reachable whole t -> Good whole t.
Proof.
  induction 1 as [w wd m k|t w cmd queued _ IH Fs P|t t0 _ IH _ IH0 K|t wd _ IH N].
  - assert (G : Good whole (set_issued k (tracker_new wd m))).
    { apply good_iff. split_and!; [split| |].
      1,3,4: intros * (f&E&_); cbn in E; by rewrite lookup_empty in E.
      - intros p f E. cbn in E. by rewrite lookup_empty in E.
      - intros i hid (s&E&_). cbn in E. by rewrite lookup_empty in E.
      - intros i p h (s&E&_). cbn in E. by rewrite lookup_empty in E.
      - intros p f E. cbn in E. by rewrite lookup_empty in E.
      - intros _ p h i (f&E&_). cbn in E. by rewrite lookup_empty in E. }
    unfold actor_start. destruct (bool_decide _); [by apply good_refresh_dirty|done].
  - by apply good_round.
  - by apply good_restore.
  - by apply good_working_dir.
Qed.

(** ** Looking up a turn *)

Lemma all_hunks_live t h : h ∈ all_hunks t <-> exists p, live t p h.
Proof.
  unfold all_hunks, live. rewrite list_elem_of_In, in_concat. split.
  - intros (l&Hl&Hh). apply list_elem_of_In, list_elem_of_fmap in Hl as ([p f]&->&Hp%order_elem). exists p, f. by rewrite list_elem_of_In.
  - intros (p&f&Hp&Hh). exists (hunks f). rewrite <- !list_elem_of_In. split; [|done]. apply list_elem_of_fmap. exists (p, f).
    split; [done|by apply order_elem].
Qed.

Lemma all_hunks_nodup t : Inv t -> NoDup (h_id <$> all_hunks t).
Proof.
  intros I. unfold all_hunks. assert (X : forall p f, (p, f) ∈ order (file_states t) -> file_states t !! p = Some f) by (intros p f; by apply order_elem).
  pose proof (order_nodup (file_states t)) as N. revert X N. generalize (order (file_states t)). intros l.
  induction l as [|[p f] l IH]; intros X N; [constructor|]. rewrite fmap_cons in N. rewrite fmap_cons. apply list.NoDup_cons in N as [N1 N2].
  cbn [concat snd]. rewrite fmap_app. apply list.NoDup_app. split_and!.
  - eapply (inv_nodup t I p f). apply X. by left.
  - intros hid (h&->&Hh)%list_elem_of_fmap (h'&E&Hh')%list_elem_of_fmap.
    apply list_elem_of_In, in_concat in Hh' as (gs&Hg&Hh'). apply list_elem_of_In, list_elem_of_fmap in Hg as ([q g]&->&Hq).
    apply N1. apply list_elem_of_fmap. exists (q, g). split; [|done]. cbn.
    eapply (inv_apart t I p q h h'); [exists f; split; [apply X; by left|done]|exists g; split; [apply X; by right|by apply list_elem_of_In]|done].
  - apply IH; [|done]. intros q g Hq. apply X. by right.
Qed.

Lemma get_hunk_spec t hid h : Inv t -> get_hunk t hid = Some h <-> h ∈ all_hunks t /\ h_id h = hid.
Proof.
  intros I. unfold get_hunk. split.
  - intros [H1%list_elem_of_In H2]%List.find_some. split; [done|by apply String.eqb_eq].
  - intros [Hh <-]. destruct (List.find _ _) as [x|] eqn:E.
    + apply List.find_some in E as [Hx%list_elem_of_In Ex]. apply String.eqb_eq in Ex. f_equal.
      by eapply nodup_same; [apply all_hunks_nodup|..].
    + apply list_elem_of_In in Hh. pose proof (List.find_none _ _ E h Hh) as X. cbn in X. by rewrite String.eqb_refl in X.
Qed.


(** C28: As long as no write or removal of a file failed, the index of turns that
    the tracker keeps for fast lookup agrees with the hunks themselves: asking for
    the hunks of a turn gives exactly the hunks that a scan over all files finds
    attributed to it, each once. *)
Theorem turn_index_is_scan t i : reachable true t ->
  get_hunks_for_turn t i ≡ₚ List.filter (fun h => bool_decide (source_prompt_index (h_source h) = Some i)) (all_hunks t).
Proof.
  intros R. apply reachable_good in R as [I A].
  assert (K : forall p h, live t p h -> source_prompt_index (h_source h) = Some i -> in_turn (turn_index t) i (h_id h)).
  { intros p h Hl. destruct (A p) as [_ K]. by apply (K eq_refl). }
  apply NoDup_Permutation.
  - unfold get_hunks_for_turn. destruct (turn_index t !! i) as [s|]; [|constructor].
    assert (N : NoDup (set_order s)) by (rewrite set_order_perm; apply NoDup_elements).
    induction N as [|hid l Hn _ IH]; [constructor|]. cbn [filter_map]. destruct (get_hunk t hid) as [h|] eqn:E; [|done].
    apply list.NoDup_cons. split; [|done]. intros (x&Hx&Ex)%elem_of_filter_map. apply (get_hunk_spec t) in E, Ex; [|done..].
    destruct E as [_ <-], Ex as [_ <-]. done.
  - eapply sublist_NoDup; [|apply lfilter_sublist]. eapply NoDup_fmap_1, all_hunks_nodup, I.
  - intros h. rewrite elem_of_lfilter, bool_decide_eq_true. unfold get_hunks_for_turn. split.
    + destruct (turn_index t !! i) as [s|] eqn:E; [|intros Hh; by apply elem_of_nil in Hh].
      intros (hid&Hid&Eh)%elem_of_filter_map. rewrite set_order_perm, elem_of_elements in Hid.
      apply (get_hunk_spec t) in Eh as [Hh <-]; [|done]. split; [|done]. apply all_hunks_live in Hh as [p Hl].
      eapply (inv_turn t I); [|exact Hl]. by exists s.
    + intros [Hs Hh]. pose proof Hh as Hh'. apply all_hunks_live in Hh' as [p Hl]. destruct (K p h Hl Hs) as (s&Es&Hid).
      rewrite Es. apply elem_of_filter_map. exists (h_id h). rewrite set_order_perm, elem_of_elements. split; [done|].
      by apply get_hunk_spec.
Qed.

End invariant.

(** ** A session *)

#[export] Instance sample_distinct : Inj (=) (=) (uuid sample_supply).
Proof. intros n m E. cbn in E. apply (sapp_inj_r "id-"), dec_inj in E; lia. Qed.

(** No git, nothing on disk, and every write succeeds. *)
Definition sample_world : World :=
  MkWorld (fun _ _ => 0) (fun _ _ => None) (fun _ => None) (fun _ => MkRead None false (fun _ => None) None)
    (fun _ => false) (fun _ => false)
    (MkGit true (fun _ => None) (fun _ => None) (fun _ _ => None) (fun _ => false) (fun _ _ => None) (fun _ => MkSync None None)).

Definition sample_round (t : Tracker) (cmd : HunkTrackerCommand) : Tracker := (actor_round sample_supply sample_world t cmd []).1.2.

(** Two turns of the agent on one file. *)
Definition sample_session : Tracker :=
  sample_round (sample_round (actor_start sample_supply sample_world (set_issued 0 (tracker_new "/w" AgentOnly)))
    (RecordAgentWrite "/w/a" (text ["one"; "2"; "three"; "four"]) 1 (Some (text ["one"; "two"; "three"; "four"]))))
    (RecordAgentWrite "/w/a" (text ["one"; "2"; "three"; "four"; "five"]) 2 None).

Lemma sample_reachable whole : reachable sample_supply whole sample_session.
Proof.
  apply reach_round; [|by split|by repeat constructor]. apply reach_round; [|by split|by repeat constructor]. apply reach_start.
Qed.


Lemma turn_index_is_scan_witness :
  length (get_hunks_for_turn sample_session 2) = 2%nat /\
  get_hunks_for_turn sample_session 2 ≡ₚ
  List.filter (fun h => bool_decide (source_prompt_index (h_source h) = Some 2)) (all_hunks sample_session).
Proof. split; [vm_compute; reflexivity|]. exact (turn_index_is_scan sample_supply sample_session 2 (sample_reachable true)). Defined.
