(* ===== verification/HunkActions.v ===== *)
(** * [xai-hunk-tracker]: what the actions and queries promise

    Accepting or rejecting the hunks of a file settles it; an action that fails
    leaves the files alone; coalescing keeps the last word about every path; the
    bounded read classifies like the whole content; the summary counts every
    hunk once; and places where the tracker does not tell its clients. *)

From S2P Require Import Prelude RustStr Paths HunkDiff HunkTracker HunkInvariant.

Open Scope Z_scope.

(** ** Patches depend on the texts of the hunks only *)

Lemma hunk_at_body h h' o n dels inss : body h = body h' -> hunk_at h o n dels inss -> hunk_at h' o n dels inss.
Proof. unfold body, hunk_at. intros [= -> -> ->]. done. Qed.

Lemma aligned_body pick pick' o n olds news kept merged hs hs' : aligned pick o n olds news kept merged hs ->
  body <$> hs = body <$> hs' -> exists merged', aligned pick' o n olds news kept merged' hs'.
Proof.
  intros A. revert hs'. induction A as [|o n l olds news kept merged hs _ IH|o n h dels inss H|o n h dels inss l olds news kept merged hs H _ IH];
    intros hs' E.
  - destruct hs'; [|done]. exists []. constructor.
  - destruct (IH hs' E) as [m A]. exists (l :: m). by constructor.
  - destruct hs' as [|h' [|]]; [done| |done]. injection E as E. eexists. constructor. by eapply (hunk_at_body h); [unfold body; congruence|].
  - destruct hs' as [|h' hs']; [done|]. rewrite !fmap_cons in E. injection E as E1 E2 E3 E.
    destruct (IH hs' E) as [m A]. eexists. constructor; [|exact A]. eapply (hunk_at_body h); [unfold body; congruence|done].
Qed.

(** Texts for which the patches of a file meet. *)
Definition patchable `{LineDiff} (b c : string) (olds news : list string) : Prop :=
  b = text olds /\ c = text news /\ solid olds /\ solid news /\ kept_side (diff_lines b c) <> [String LF ""].

Section actions.
Context (supply : Supply) `{!LineDiff, !LineDiffLaws} `{!HashOrder} `{!Inj (=) (=) (uuid supply)}.
Implicit Types (w : World) (t : Tracker).

Lemma settled_patches hs b c olds news : patchable b c olds news -> hs <> [] ->
  body <$> hs = diff_of supply (Full b) (Full c) -> accept_patches hs b = c /\ reject_patches hs c = b.
Proof.
  intros (->&->&O&N&K) Ne E. unfold diff_of in E.
  destruct (compute_hunks supply 0 0 "" (text olds) (text news) External) as [cs k] eqn:Ec. cbn [fst] in E.
  assert (Nc : cs <> []) by (intros ->; by destruct hs).
  assert (M : forall pick, exists m, accept_patches (List.filter pick hs) (text olds) = text m /\
                                     reject_patches (List.filter (fun h => negb (pick h)) hs) (text news) = text m).
  { intros pick. destruct (compute_hunks_aligned supply 0 0 "" olds news External cs k pick) as (kept&m&A&Ek); [apply O|apply N|done..|].
    destruct (aligned_body pick pick _ _ _ _ _ _ _ hs A) as [m' A']; [by rewrite E|]. exists m'.
    apply (aligned_meet pick olds news kept m' hs); [done|done| |done]. intros ->. by apply K. }
  assert (E1 : List.filter (fun _ : Hunk => true) hs = hs) by (apply List.forallb_filter_id, List.forallb_forall; done).
  assert (E2 : List.filter (fun _ : Hunk => false) hs = []) by (clear; by induction hs).
  destruct (M (fun _ => true)) as (m1&A1&B1), (M (fun _ => false)) as (m2&A2&B2). cbn [negb] in *.
  rewrite E1, E2 in *. split; [rewrite A1, <- B1; done|rewrite B2, <- A2; done].
Qed.

(** Recomputation of a file whose contents agree. *)
Lemma recompute_settled w t p f s src : file_states t !! p = Some f -> hunks f = [] -> baseline f = Full s ->
  let t' := recompute_hunks supply w t p (Some (Full s)) src in
  file_states t' = <[p := set_current (Full s) f]> (file_states t) /\ effects t' = effects t /\ turn_index t' = turn_index t.
Proof.
  intros E N B. unfold recompute_hunks. rewrite E, N, B. cbn [unwrap_or content_hunks]. unfold compute_hunks. rewrite String.eqb_refl.
  cbn. split_and!; [|by rewrite app_nil_r|done]. f_equal. destruct f; cbn in *. by subst.
Qed.

Lemma without_all (hs : list Hunk) : without_ids (h_id <$> hs) hs = [].
Proof.
  unfold without_ids. assert (X : forall l, (forall h, h ∈ l -> h ∈ hs) ->
    List.filter (fun h => negb (bool_decide (h_id h ∈ h_id <$> hs))) l = []).
  { intros l. induction l as [|h l IH]; intros S; [done|]. cbn [List.filter]. rewrite bool_decide_eq_true_2.
    - cbn [negb]. apply IH. intros x Hx. apply S. by right.
    - apply list_elem_of_fmap_2, S. by left. }
  by apply X.
Qed.

Lemma count_actions_effects a hs t : effects (foldl (count_action a) t hs) = effects t.
Proof. revert t. induction hs as [|h hs IH]; intros t; [done|]. cbn [foldl]. by rewrite IH. Qed.

Lemma count_actions_files a hs t : file_states (foldl (count_action a) t hs) = file_states t.
Proof. pose proof (count_actions_core a hs t) as X. by injection X. Qed.

Lemma accept_settled w t p f b c : file_states t !! p = Some f -> baseline f = Full b -> current_content f = Full c ->
  hunks f <> [] -> accept_patches (hunks f) b = c ->
  let t' := accept_hunks_batch supply w t p (hunks f) in
  exists f', file_states t' = <[p := f']> (file_states t) /\ baseline f' = Full c /\ current_content f' = Full c /\ hunks f' = [] /\
    effects t' = effects t ++ (Sent <$> removal_events p Accepted (hunks f) ++ [BaselineUpdated p]).
Proof.
  intros E Eb Ec Ne PA. unfold accept_hunks_batch. rewrite E, without_all, Eb, Ec. cbn [is_missing patch_baseline]. rewrite PA.
  destruct (hunks f) as [|h0 hs0] eqn:Eh; [done|]. rewrite <- Eh. cbv zeta.
  match goal with |- context [insert_file p ?g t] => set (g1 := g) end.
  set (t2 := send_events _ (insert_file p g1 t)).
  destruct (recompute_settled w t2 p g1 c (remaining_source t2 p)) as (F1&F2&_); [cbn; by rewrite lookup_insert, decide_True|done|done|].
  exists (set_current (Full c) g1). rewrite F1, F2. cbn. rewrite insert_insert, decide_True by done. by rewrite Eh.
Qed.

Lemma reject_settled w t p f b c : file_states t !! p = Some f -> baseline f = Full b -> current_content f = Full c ->
  hunks f <> [] -> reject_patches (hunks f) c = b -> fs_write w p b = None ->
  exists f' t', reject_hunks_batch supply w t p (hunks f) = (Ok tt, t') /\
    file_states t' = <[p := f']> (file_states t) /\ baseline f' = Full b /\ current_content f' = Full b /\ hunks f' = [] /\
    effects t' = effects t ++ Wrote p b :: (Sent <$> removal_events p Rejected (hunks f)).
Proof.
  intros E Eb Ec Ne PR W. unfold reject_hunks_batch, reject_action. rewrite E, without_all, Eb, Ec, PR.
  destruct (hunks f) as [|h0 hs0] eqn:Eh; [done|]. rewrite <- Eh. cbn [perform_reject]. unfold write_content. rewrite W. cbv zeta.
  match goal with |- context [insert_file p ?g ?x] => set (g1 := g); set (t1 := x) end.
  set (t2 := send_events _ (insert_file p g1 t1)).
  destruct (recompute_settled w t2 p g1 b (remaining_source t2 p)) as (F1&F2&_); [cbn; by rewrite lookup_insert, decide_True|done|done|].
  exists (set_current (Full b) g1). eexists. split; [reflexivity|]. rewrite F1, F2. cbn. rewrite insert_insert, decide_True by done.
  split_and!; try done. by rewrite <- app_assoc.
Qed.


(** ** Failures *)

Lemma reject_error w t p hs e t' : reject_hunks_batch supply w t p hs = (Err e, t') ->
  t' = t /\ ((exists m, e = WriteError p m) \/ (exists m, e = DeleteError p m)).
Proof.
  unfold reject_hunks_batch. destruct hs as [|h hs]; [done|]. destruct (file_states t !! p) as [f|]; [|done].
  unfold perform_reject, write_content, remove_file. destruct (reject_action f _); try done;
    [destruct (fs_write _ _ _)|destruct (fs_remove _ _)|destruct (fs_write _ _ _)]; intros [= <- <-]; eauto.
Qed.

(** C31: A failed action stops where it failed.  Accepting or rejecting hunks of
    several files fails exactly when one file cannot be written or removed; then
    everything is as after acting on the files before it alone, with no event and
    no change to the state of that file or a later one, except that the hunks of
    the failing file are already counted in the statistics and have left the
    index of turns.  An action on one hunk fails when the hunk is not there, with
    nothing changed, or in the same way. *)
Theorem failed_action_stops w t :
  (forall files a affected e t', apply_action_batch supply w t files a affected = (Err e, t') ->
     exists done p hs rest ids t1, files = done ++ (p, hs) :: rest /\
       apply_action_batch supply w t done a affected = (Ok ids, t1) /\ t' = foldl (count_action a) t1 hs /\
       file_states t' = file_states t1 /\ effects t' = effects t1 /\
       a = Reject /\ ((exists m, e = WriteError p m) \/ (exists m, e = DeleteError p m))) /\
  (forall hid a e t', apply_hunk_action supply w t hid a = (Err e, t') ->
     (e = HunkNotFound hid /\ t' = t) \/
     exists p h, live t p h /\ h_id h = hid /\ t' = count_action Reject t h /\
       ((exists m, e = WriteError p m) \/ (exists m, e = DeleteError p m))).
Proof.
  split.
  - intros files. revert t. induction files as [|[p hs] files IH]; intros t a affected e t'; [done|]. cbn [apply_action_batch].
    destruct a.
    + intros X. destruct (IH _ _ _ _ _ X) as (dn&p'&hs'&rest&ids&t1&->&D&R). exists ((p, hs) :: dn), p', hs', rest, ids, t1. done.
    + destruct (reject_hunks_batch supply w (foldl (count_action Reject) t hs) p hs) as [[u|e'] t2] eqn:E.
      * intros X. destruct (IH _ _ _ _ _ X) as (dn&p'&hs'&rest&ids&t1&->&D&R).
        exists ((p, hs) :: dn), p', hs', rest, ids, t1. split; [done|]. split; [|done]. cbn [app apply_action_batch]. by rewrite E.
      * intros [= <- <-]. apply reject_error in E as [-> Er]. exists [], p, hs, files, affected, t.
        split_and!; [done|done|done|apply count_actions_files|apply count_actions_effects|done|done].
  - intros hid a e t'. unfold apply_hunk_action. destruct (find_map _ _) as [[p h]|] eqn:E; [|intros [= <- <-]; by left].
    apply find_map_some in E as (l1&[q f]&l2&El&E&_).
    assert (Hq : (q, f) ∈ order (file_states t)) by (rewrite El; apply elem_of_app; right; by left). apply order_elem in Hq.
    destruct (List.find _ (hunks f)) as [x|] eqn:Ex; [|done]. injection E as <- <-.
    apply List.find_some in Ex as [Hx%list_elem_of_In Hid%String.eqb_eq]. destruct a; [done|]. rewrite reject_one.
    intros [-> Er]%reject_error. right. exists q, x. split_and!; [by exists f|done|done|done].
Qed.

(** ** Coalescing *)

Definition about (p : string) (cmd : HunkTrackerCommand) : bool :=
  match cmd with HandleFileChange q | HandleFileDeleted q => q =s? p | _ => false end.
Definition deletes (cmd : HunkTrackerCommand) : bool := match cmd with HandleFileDeleted _ => true | _ => false end.

(** The last notification about the path decides; a change after a deletion says so. *)
Definition last_word (p : string) (cmds : list HunkTrackerCommand) : option CoalescedPathAction :=
  let es := List.filter (about p) cmds in
  match list.last es with
  | None => None
  | Some e => Some (if deletes e then PathDeleted else if existsb deletes es then DeletedThenChanged else Changed)
  end.

Lemma last_word_snoc p cmds cmd : last_word p (cmds ++ [cmd]) =
  if about p cmd then Some (if deletes cmd then PathDeleted
                            else if existsb deletes (List.filter (about p) cmds) then DeletedThenChanged else Changed)
  else last_word p cmds.
Proof.
  unfold last_word. rewrite List.filter_app. cbn [List.filter]. destruct (about p cmd); [|by rewrite app_nil_r].
  rewrite last_snoc, existsb_app. cbn. by destruct (deletes cmd); rewrite ?orb_false_r.
Qed.

Lemma last_word_deleted p cmds : last_word p cmds = Some PathDeleted \/ last_word p cmds = Some DeletedThenChanged <->
  existsb deletes (List.filter (about p) cmds) = true.
Proof.
  unfold last_word. destruct (list.last (List.filter (about p) cmds)) as [e|] eqn:E.
  - destruct (existsb deletes (List.filter (about p) cmds)) eqn:X.
    + split; [done|]. intros _. destruct (deletes e); auto.
    + split; [|done]. assert (deletes e = false) as ->; [|by intros [?|?]]. apply last_Some_elem_of, list_elem_of_In in E.
      destruct (deletes e) eqn:De; [|done]. rewrite <- X. symmetry. apply existsb_exists. by exists e.
  - apply last_None in E. rewrite E. split; [by intros [?|?]|done].
Qed.

(** Draining the queue keeps what matters: after coalescing, the action of
    each path is the last word of its notifications (gone, changed, or changed
    after having been gone), a refresh is done exactly when one was asked for, and
    every other command is kept, in its order. *)
Theorem coalescing_keeps_last_word first queued :
  let b := drain_and_coalesce first queued in
  (forall p, file_actions b !! p = last_word p (first :: queued)) /\
  other_commands b = List.filter (fun c => negb (is_coalescable c)) (first :: queued) /\
  refresh_all b = existsb (fun c => match c with RefreshAllBaselines => true | _ => false end) (first :: queued) /\
  refresh_dirty b = existsb (fun c => match c with RefreshGitDirtyCache => true | _ => false end) (first :: queued) /\
  command_count b = Z.of_nat (length (first :: queued)).
Proof.
  cbv zeta. unfold drain_and_coalesce. generalize (first :: queued). intros l. induction l as [|cmd l IH] using rev_ind.
  - by split_and!.
  - rewrite foldl_snoc. destruct IH as (I1&I2&I3&I4&I5). set (b := foldl batch_add batch_new l) in *.
    rewrite List.filter_app, !existsb_app, length_app. cbn [List.filter length].
    split_and!; [|destruct cmd; cbn; rewrite ?I2, ?app_nil_r; done|destruct cmd; cbn; rewrite ?I3, ?orb_false_r, ?orb_true_r; done
                 |destruct cmd; cbn; rewrite ?I4, ?orb_false_r, ?orb_true_r; done|destruct cmd; cbn; rewrite I5; lia].
    intros p. rewrite last_word_snoc. destruct cmd; cbn; try apply I1.
    + destruct (String.eqb_spec path p) as [->|N]; [|by rewrite lookup_insert_ne].
      rewrite lookup_insert, decide_True, I1 by done. pose proof (last_word_deleted p l) as X.
      destruct (existsb deletes (List.filter (about p) l)) eqn:Ex; cbn.
      * destruct (proj2 X eq_refl) as [-> | ->]; done.
      * destruct (last_word p l) as [[]|]; try done; by destruct X as [X _]; discriminate X; auto.
    + destruct (String.eqb_spec path p) as [->|N]; [by rewrite lookup_insert, decide_True|by rewrite lookup_insert_ne].
Qed.

(** ** Reading a file *)

(** The answers of the file system about a file with these bytes. *)
Definition file_reads (bytes : string) (f : FileRead) : Prop :=
  lstat f = Some (false, len bytes) /\ opens f = true /\
  (forall n, 0 <= n -> first_read f n = Some (stake (Z.to_nat n) bytes)) /\
  read_to_end f = Some (sdrop (Z.to_nat (Z.min 8000 (len bytes))) bytes).

Lemma stake_all n s : (String.length s <= n)%nat -> stake n s = s.
Proof. intros L. by rewrite <- (stake_sdrop n s) at 2; rewrite sdrop_all, sapp_nil_r by done. Qed.

Lemma stake_idem n s : stake n (stake n s) = stake n s.
Proof. revert s. induction n as [|n IH]; intros [|a s]; [done..|]. cbn. by rewrite IH. Qed.

Lemma len_stake n s : (n <= String.length s)%nat -> len (stake n s) = Z.of_nat n.
Proof. unfold len. revert s. induction n as [|n IH]; intros [|a s] L; cbn in *; [done..|lia|]. rewrite Nat2Z.inj_succ, IH by lia. lia. Qed.

(** The bounded read of a file (a prefix first, the rest only when it looks
    like text) classifies it exactly as classifying all its bytes would: too
    large, a pointer of git LFS, binary, or text; and a valid string is
    classified the same whether it comes from a tool or from disk. *)
Theorem bounded_read_classifies bytes f : file_reads bytes f ->
  read_file_bounded f = classify_bytes bytes /\ (utf8 bytes = true -> classify_string bytes = classify_bytes bytes).
Proof.
  intros (E1&E2&E3&E4). split.
  2:{ intros U. unfold classify_string, classify_bytes, from_utf8. by rewrite U. }
  unfold read_file_bounded, classify_bytes. rewrite E1, E2. pose proof (len_nonneg bytes) as Hl.
  destruct (MAX_TRACKED_TEXT_BYTES <? len bytes); [done|]. cbn [negb]. rewrite E3, E4 by lia.
  destruct (Z.leb_spec (len bytes) 8000) as [L|L].
  - rewrite Z.min_r by lia. rewrite stake_all by (unfold len; lia). by rewrite Z.ltb_irrefl.
  - rewrite Z.min_l by lia. rewrite (proj2 (Z.ltb_lt _ _) L), stake_sdrop.
    assert (P1 : is_lfs_pointer (stake (Z.to_nat 8000) bytes) = false).
    { unfold is_lfs_pointer. rewrite len_stake by (unfold len in L; lia). done. }
    assert (P2 : is_lfs_pointer bytes = false) by (unfold is_lfs_pointer; rewrite (proj2 (Z.ltb_ge _ _)) by lia; done).
    rewrite P1, P2. unfold is_binary. by rewrite stake_idem.
Qed.

(** ** The summary *)

Lemma sum_of_app {A} (f : A -> Z) l k : sum_of f (l ++ k) = sum_of f l + sum_of f k.
Proof. unfold sum_of. induction l as [|x l IH]; [done|]. cbn. rewrite IH. lia. Qed.

#[local] Instance sum_of_perm {A} (f : A -> Z) : Proper ((≡ₚ) ==> (=)) (sum_of f).
Proof. intros l k P. unfold sum_of. induction P; cbn; lia. Qed.

Lemma sum_of_fmap {A B} (f : B -> Z) (g : A -> B) l : sum_of f (g <$> l) = sum_of (fun x => f (g x)) l.
Proof. unfold sum_of. induction l as [|x l IH]; [done|]. cbn in *. by rewrite IH. Qed.

Lemma sort_turns_perm l : sort_turns l ≡ₚ l.
Proof.
  unfold sort_turns. induction l as [|x l IH]; [done|]. cbn [foldr]. rewrite <- IH at 2. generalize (foldr insert_turn [] l).
  intros k. induction k as [|y k IHk]; [done|]. cbn [insert_turn]. destruct (_ <=? _); [done|]. rewrite IHk. by constructor.
Qed.

(** A quantity summed over the turns. *)
Definition turns_sum (f : TurnData -> Z) (m : gmap Z TurnData) : Z := sum_of (fun kv => f kv.2) (map_to_list m).

Lemma turns_sum_insert f m i d' : turns_sum f (<[i := d']> m) = turns_sum f m - unwrap_or 0 (f <$> m !! i) + f d'.
Proof.
  unfold turns_sum. destruct (m !! i) as [d|] eqn:E.
  - rewrite <- (insert_delete_id m i d E) at 2. rewrite <- insert_delete_eq.
    rewrite !map_to_list_insert by (by rewrite lookup_delete, decide_True). unfold sum_of. cbn. lia.
  - rewrite map_to_list_insert by done. unfold sum_of. cbn. lia.
Qed.

Definition agent_hunks (hs : list Hunk) : list Hunk := List.filter (fun h => is_agent_edit (h_source h)) hs.
Definition count_of {A} (l : list A) : Z := Z.of_nat (length l).

(** What has been collected of the hunks seen so far. *)
Definition collected (z : Collected) (seen : list Hunk) : Prop :=
  turns_sum (fun d => count_of (td_pending d)) (cl_turns z) = count_of (agent_hunks seen) /\
  turns_sum td_added (cl_turns z) = sum_of (fun h => new_count (line_info h)) (agent_hunks seen) /\
  turns_sum td_removed (cl_turns z) = sum_of (fun h => old_count (line_info h)) (agent_hunks seen) /\
  cl_unattributed z + count_of (agent_hunks seen) = count_of seen /\
  (forall i, unwrap_or [] (td_pending <$> cl_turns z !! i) =
             List.filter (fun h => bool_decide (source_prompt_index (h_source h) = Some i)) seen).

Lemma agent_hunks_snoc seen h : agent_hunks (seen ++ [h]) = agent_hunks seen ++ (if is_agent_edit (h_source h) then [h] else []).
Proof. unfold agent_hunks. by rewrite List.filter_app. Qed.

Lemma collect_hunk_spec p z seen h : collected z seen -> collected (collect_hunk p z h) (seen ++ [h]).
Proof.
  intros (C1&C2&C3&C4&C5). unfold collected. rewrite agent_hunks_snoc. unfold collect_hunk, count_of in *.
  destruct (h_source h) as [i| |] eqn:E; cbn [source_prompt_index is_agent_edit cl_turns cl_unattributed] in *; rewrite ?app_nil_r.
  - rewrite !turns_sum_insert. cbn [td_pending td_added td_removed]. rewrite C1, C2, C3, !length_app, !sum_of_app. cbn [length].
    destruct (cl_turns z !! i) as [d|] eqn:Ed; cbn [unwrap_or td_pending td_added td_removed fmap option_fmap option_map];
      rewrite ?length_app; cbn; (split_and!; [lia..|]).
    all: intros j; rewrite List.filter_app; cbn [List.filter]; rewrite E; cbn [source_prompt_index]; rewrite <- C5, lookup_insert;
      destruct (decide (i = j)) as [<-|N];
      [rewrite bool_decide_eq_true_2 by done; by rewrite Ed|rewrite bool_decide_eq_false_2 by congruence; by rewrite app_nil_r].
  - rewrite !length_app. cbn. split_and!; [done..|lia|]. intros j. rewrite List.filter_app. cbn. rewrite E. cbn. by rewrite app_nil_r, C5.
  - rewrite !length_app. cbn. split_and!; [done..|lia|]. intros j. rewrite List.filter_app. cbn. rewrite E. cbn. by rewrite app_nil_r, C5.
Qed.

Definition has_agent (pf : string * FileHunkState) : bool := existsb (fun h => is_agent_edit (h_source h)) (hunks pf.2).

Lemma collect_hunk_files p z hs : cl_files (foldl (collect_hunk p) z hs) = cl_files z.
Proof. revert z. induction hs as [|h hs IH]; intros z; [done|]. cbn [foldl]. rewrite IH. unfold collect_hunk. by destruct (source_prompt_index _). Qed.

Lemma collect_hunks_spec p z seen hs : collected z seen -> collected (foldl (collect_hunk p) z hs) (seen ++ hs).
Proof.
  revert z seen. induction hs as [|h hs IH]; intros z seen C; [by rewrite app_nil_r|]. cbn [foldl].
  replace (seen ++ h :: hs) with ((seen ++ [h]) ++ hs) by (by rewrite <- app_assoc). by apply IH, collect_hunk_spec.
Qed.

Lemma collect_files_spec l z seen : collected z seen ->
  let z' := foldl collect_file z l in
  collected z' (seen ++ concat ((fun pf => hunks pf.2) <$> l)) /\
  cl_files z' = cl_files z ∪ list_to_set (List.filter has_agent l).*1.
Proof.
  revert z seen. induction l as [|[p f] l IH]; intros z seen C; cbn [foldl]; [split; [by rewrite app_nil_r|set_solver]|].
  assert (C' : collected (collect_file z (p, f)) (seen ++ hunks f)).
  { unfold collect_file. pose proof (collect_hunks_spec p z seen (hunks f) C) as X. cbn. by destruct (existsb _ _). }
  destruct (IH _ _ C') as [I1 I2]. split.
  - rewrite fmap_cons. cbn [concat snd]. by rewrite app_assoc.
  - rewrite I2. cbn [List.filter]. unfold collect_file, has_agent. cbn. destruct (existsb _ _); cbn; rewrite collect_hunk_files; set_solver.
Qed.

(** The session summary counts every pending hunk once: the hunks of the
    turns and the unattributed ones are all hunks there are, the totals of
    pending hunks and lines are those of the agent's hunks, a turn lists exactly
    the hunks attributed to it, and the number of modified files is the number of
    files with such a hunk. *)
Theorem summary_counts_every_hunk t :
  let s := compute_session_summary t in
  pending_hunks s = count_of (agent_hunks (all_hunks t)) /\
  pending_hunks s + unattributed_pending s = count_of (all_hunks t) /\
  pending_lines_added s = sum_of (fun h => new_count (line_info h)) (agent_hunks (all_hunks t)) /\
  pending_lines_removed s = sum_of (fun h => old_count (line_info h)) (agent_hunks (all_hunks t)) /\
  (forall ts, ts ∈ sm_turns s -> ts_pending ts =
     List.filter (fun h => bool_decide (source_prompt_index (h_source h) = Some (ts_prompt_index ts))) (all_hunks t)) /\
  files_modified s = count_of (List.filter has_agent (order (file_states t))).
Proof.
  cbv zeta. assert (C0 : collected (MkCollected ∅ 0 ∅) []) by (split_and!; try done; intros i; by rewrite lookup_empty).
  destruct (collect_files_spec (order (file_states t)) _ [] C0) as [(C1&C2&C3&C4&C5) F]. cbn [app] in *.
  fold (all_hunks t) in C1, C2, C3, C4, C5. unfold compute_session_summary. set (z := foldl _ _ _) in *.
  cbn [pending_hunks unattributed_pending pending_lines_added pending_lines_removed sm_turns files_modified].
  rewrite !(sort_turns_perm _), !sum_of_fmap.
  assert (X : forall g g', (forall d i, g' (MkTurnSummary i (set_order (td_files d)) (td_pending d) (td_added d) (td_removed d)) = g d) ->
    sum_of (fun x => g' (let '(i, d) := x in MkTurnSummary i (set_order (td_files d)) (td_pending d) (td_added d) (td_removed d)))
      (map_to_list (cl_turns z)) = turns_sum g (cl_turns z)).
  { intros g g' Hg. unfold turns_sum, sum_of. induction (map_to_list (cl_turns z)) as [|[i d] l IH]; [done|]. cbn. by rewrite IH, Hg. }
  rewrite (X (fun d => count_of (td_pending d)) (fun s => Z.of_nat (length (ts_pending s)))), (X td_added ts_added), (X td_removed ts_removed) by done.
  split_and!; [done|lia|done|done| |].
  - intros ts Hts. rewrite sort_turns_perm in Hts. apply list_elem_of_fmap in Hts as ([i d]&->&Hd%elem_of_map_to_list).
    cbn. rewrite <- C5, Hd. done.
  - rewrite F. cbn. rewrite union_empty_l_L. rewrite size_list_to_set; [by rewrite length_fmap|].
    eapply sublist_NoDup; [apply (order_nodup (file_states t))|].
    generalize (order (file_states t)). intros l. induction l as [|pf l IH]; [constructor|]. cbn [List.filter].
    destruct (has_agent pf); rewrite !fmap_cons; by constructor.
Qed.

End actions.

(** ** Witnesses *)


(** A disk on which nothing can be written. *)
Definition full_disk : World :=
  MkWorld (fun _ _ => 0) (fun _ _ => Some "denied") (fun _ => Some "denied") (fs_read sample_world) (fun _ => false) (fun _ => false) (git sample_world).

Lemma failed_action_stops_witness :
  match apply_file_action sample_supply full_disk sample_session "/w/a" Reject with
  | (Err e, t') => exists m, e = WriteError "/w/a" m /\ effects t' = effects sample_session
  | _ => False
  end.
Proof.
  destruct (apply_file_action sample_supply full_disk sample_session "/w/a" Reject) as [r t'] eqn:E.
  assert (E' : apply_action_batch sample_supply full_disk sample_session
    [("/w/a", match file_states sample_session !! "/w/a" with Some f => hunks f | None => [] end)] Reject [] = (r, t')) by (rewrite <- E; vm_compute; reflexivity).
  destruct r as [ids|e]; [vm_compute in E; discriminate|].
  destruct (proj1 (failed_action_stops sample_supply full_disk sample_session) _ _ _ _ _ E') as (dn&p&hs&rest&ids&t1&Ef&Ed&_&_&Ee&_&Er).
  destruct dn as [|? [|]]; [|done..]. injection Ef as <- _ _. injection Ed as _ <-.
  destruct Er as [[m ->]|[m ->]]; [by exists m|vm_compute in E; discriminate].
Defined.

Lemma bounded_read_classifies_witness :
  let bytes := "caf" +:+ String "195" (String "169" "") in
  let f := MkRead (Some (false, 5)) true (fun n => Some (stake (Z.to_nat n) bytes)) (Some "") in
  classify_bytes bytes = Full bytes /\ read_file_bounded f = classify_bytes bytes.
Proof.
  intros bytes f. split; [reflexivity|]. refine (proj1 (bounded_read_classifies bytes f _)). split_and!; [reflexivity|reflexivity|done|reflexivity].
Defined.

(** ** Where clients are not told *)

(** A rejection that cannot be written is counted, and its hunks are no longer
    found under their turn although they are still there. *)
Example failed_reject_is_counted :
  let t' := (apply_file_action sample_supply full_disk sample_session "/w/a" Reject).2 in
  rejected_hunks (session_stats t') = 2 /\ length (all_hunks t') = 2%nat /\ get_hunks_for_turn t' 2 = [].
Proof. vm_compute. done. Qed.

(** The agent replaces the file by one that is not text: its hunks go without a
    word to the clients and stay in the index. *)
Example hunks_cleared_silently :
  let t' := record_agent_write sample_supply sample_world sample_session "/w/a" (String "000" "") 3 None in
  all_hunks t' = [] /\ effects t' = effects sample_session /\ turn_index t' !! 2 = turn_index sample_session !! 2 /\
  match turn_index t' !! 2 with Some s => size s = 2%nat | None => False end.
Proof. vm_compute. done. Qed.

(** A file of [HEAD] that is binary on disk, seen for the first time: it is
    tracked as deleted, with a hunk that removes its text. *)
Definition binary_on_disk : World :=
  MkWorld (fun _ _ => 0) (fun _ _ => None) (fun _ => None)
    (fun _ => MkRead (Some (false, 2)) true (fun _ => Some (String "000" "x")) (Some "")) (fun _ => true) (fun _ => false)
    (MkGit true (fun _ => Some "/w") (fun p => Some p) (fun _ _ => Some (BlobEntry (text ["a"]))) (fun _ => true) (fun _ _ => Some []) (fun _ => MkSync None None)).

Example binary_shown_as_deleted :
  let t' := handle_file_change sample_supply binary_on_disk (tracker_new "/w" AllDirty) "/w/a" in
  fs_exists binary_on_disk "/w/a" = true /\
  match file_states t' !! "/w/a" with
  | Some f => current_content f = Missing /\ new_text <$> hunks f = [""]
  | None => False
  end.
Proof. vm_compute. done. Qed.

(** A move of the working directory that gives two files one path: the hunks of
    both are kept under the baseline of one. *)
Example remount_merges_hunks :
  let t0 := sample_round sample_session (RecordAgentWrite "/w/c/a" (text ["x"; "y"]) 3 (Some (text ["x"]))) in
  let t' := set_working_dir t0 "/w/c" in
  match file_states t' !! "/w/c/a" with
  | Some f => baseline f = Full (text ["x"]) /\ length (hunks f) = 3%nat
  | None => False
  end.
Proof. vm_compute. done. Qed.
