(* ===== verification/HunkLoc.v ===== *)
(** * [xai-hunk-tracker]: lines of code by author

    The sink of [loc/mod.rs] that turns the events of the tracker into
    attribution records.  The writer is a function that says whether a record
    could be written; the channel to the signals is the list of what was sent.
    The file shows that the records of a hunk always sum to what was accepted of
    it plus what is still pending. *)

From S2P Require Import Prelude RustStr HunkDiff HunkTracker.

Open Scope Z_scope.

Inductive AuthorType : Type := Agent | Human.

Definition author_display (a : AuthorType) : string := match a with Agent => "agent" | Human => "human" end.

Inductive SourceType : Type := SrcAgentEdit | SrcExternalEditOnAgentFile | SrcExternal.

Definition source_display (s : SourceType) : string :=
  match s with
  | SrcAgentEdit => "agent_edit"
  | SrcExternalEditOnAgentFile => "external_edit_on_agent_file"
  | SrcExternal => "external"
  end.

Inductive EventType : Type := Added | Updated | Removed.

Definition event_display (e : EventType) : string :=
  match e with Added => "added" | Updated => "updated" | Removed => "removed" end.

Record HunkRecord : Type := MkRecord {
  rec_hunk_id : HunkId;
  rec_file_path : string;
  hunk_start : Z;
  hunk_end : Z;
  lines_added : Z;
  lines_removed : Z;
  author_type : option AuthorType;
  author_id : option string;
  agent_id : string;
  session_id : string;
  timestamp : Z;
  rec_prompt_index : option Z;
  source_type : option SourceType;
  event_type : EventType;
  removal_reason : option HunkRemovalReason;
}.

(** Without the channel: what is sent on it is recorded below, when there is one. *)
Record LocSinkContext : Type := MkContext {
  ctx_session_id : string; ctx_agent_id : string; ctx_user_id : option string; ctx_has_aggregates : bool }.

Definition attribution (ctx : LocSinkContext) (s : HunkSource) : AuthorType * option string * option Z * SourceType :=
  match s with
  | AgentEdit i => (Agent, Some (ctx_agent_id ctx), Some i, SrcAgentEdit)
  | ExternalEditOnAgentFile => (Human, ctx_user_id ctx, None, SrcExternalEditOnAgentFile)
  | External => (Human, ctx_user_id ctx, None, SrcExternal)
  end.

Definition from_hunk (ctx : LocSinkContext) (h : Hunk) (e : EventType) (attribution_source : HunkSource) : HunkRecord :=
  let '(author, author_id, prompt, source) := attribution ctx attribution_source in
  let i := line_info h in
  let '(start, count) := if new_count i =? 0 then (old_start i, old_count i) else (new_start i, new_count i) in
  let stop := if count =? 0 then start else start + count - 1 in
  MkRecord (h_id h) (h_path h) start stop (new_count i) (old_count i) (Some author) author_id (ctx_agent_id ctx)
    (ctx_session_id ctx) (created_at h) prompt (Some source) e None.

Definition with_lines (a r : Z) (x : HunkRecord) : HunkRecord :=
  MkRecord (rec_hunk_id x) (rec_file_path x) (hunk_start x) (hunk_end x) a r (author_type x) (author_id x) (agent_id x)
    (session_id x) (timestamp x) (rec_prompt_index x) (source_type x) (event_type x) (removal_reason x).

Inductive LocAggregate : Type :=
| LinesChanged (author : AuthorType) (added removed : Z) (file_path : string)
| LinesReverted (added_reverted removed_reverted : Z).

(** The accumulated lines of each hunk, the records in the file, and what was
    sent to the signals. *)
Record LocState : Type := MkLoc { acc : gmap HunkId (Z * Z); written : list HunkRecord; aggregates : list LocAggregate }.

Definition loc_new : LocState := MkLoc ∅ [] [].

Section sink.
Context (ctx : LocSinkContext) (clock : Z) (writes : HunkRecord -> bool).

(** A record that cannot be written is dropped. *)
Definition write_record (r : HunkRecord) (z : LocState) : LocState :=
  if writes r then MkLoc (acc z) (written z ++ [r]) (aggregates z) else z.

Definition send_aggregate (a : LocAggregate) (z : LocState) : LocState :=
  if ctx_has_aggregates ctx then MkLoc (acc z) (written z) (aggregates z ++ [a]) else z.

Definition accumulate (hid : HunkId) (a r : Z) (z : LocState) : LocState :=
  let '(a0, r0) := unwrap_or (0, 0) (acc z !! hid) in
  MkLoc (<[hid := (a0 + a, r0 + r)]> (acc z)) (written z) (aggregates z).

(** A new or changed hunk. *)
Definition record_lines (h : Hunk) (r : HunkRecord) (default_author : AuthorType) (z : LocState) : LocState :=
  write_record r
    (send_aggregate (LinesChanged (unwrap_or default_author (author_type r)) (lines_added r) (lines_removed r) (rec_file_path r))
      (accumulate (h_id h) (lines_added r) (lines_removed r) z)).

Definition handle_event (z : LocState) (e : HunkEvent) : LocState :=
  match e with
  | HunkAdded _ h => record_lines h (from_hunk ctx h Added (h_source h)) Agent z
  | HunkContentChanged _ h trigger prev_added prev_removed =>
      let r := with_lines (new_count (line_info h) - prev_added) (old_count (line_info h) - prev_removed)
                 (from_hunk ctx h Updated trigger) in
      record_lines h r Human z
  | HunkRemoved p hid reason =>
      let z' := MkLoc (delete hid (acc z)) (written z) (aggregates z) in
      match reason with
      | Accepted => z'
      | Rejected | Superseded =>
          match acc z !! hid with
          | None => z'
          | Some (total_added, total_removed) =>
              if (total_added =? 0) && (total_removed =? 0) then z'
              else write_record (MkRecord hid p 0 0 (- total_added) (- total_removed) None None (ctx_agent_id ctx)
                     (ctx_session_id ctx) clock None None Removed (Some reason))
                     (send_aggregate (LinesReverted (Z.max total_added 0) (Z.max total_removed 0)) z')
          end
      end
  | HunkMoved _ _ _ | FileAdded _ _ | FileRemoved _ | BaselineUpdated _ => z
  end.

(** The events received, and on cancellation those that are left. *)
Definition run_loc_sink (received drained : list HunkEvent) : LocState :=
  foldl handle_event (foldl handle_event loc_new received) drained.

(** ** The ledger of a hunk *)

(** What the events say of one hunk: the lines of it that were accepted and those
    that are pending. *)
Record Ledger : Type := MkLedger { settled : Z * Z; pending : Z * Z }.

Definition add2 (x y : Z * Z) : Z * Z := (x.1 + y.1, x.2 + y.2).

Definition post (hid : HunkId) (l : Ledger) (e : HunkEvent) : Ledger :=
  match e with
  | HunkAdded _ h =>
      if h_id h =s? hid then MkLedger (settled l) (add2 (pending l) (new_count (line_info h), old_count (line_info h))) else l
  | HunkContentChanged _ h _ a r =>
      if h_id h =s? hid then MkLedger (settled l) (add2 (pending l) (new_count (line_info h) - a, old_count (line_info h) - r)) else l
  | HunkRemoved _ i Accepted => if i =s? hid then MkLedger (add2 (settled l) (pending l)) (0, 0) else l
  | HunkRemoved _ i _ => if i =s? hid then MkLedger (settled l) (0, 0) else l
  | _ => l
  end.

Definition ledger (hid : HunkId) (es : list HunkEvent) : Ledger := foldl (post hid) (MkLedger (0, 0) (0, 0)) es.

(** The sum of the records of a hunk. *)
Definition total (hid : HunkId) (rs : list HunkRecord) : Z * Z :=
  foldr (fun r s => if rec_hunk_id r =s? hid then add2 (lines_added r, lines_removed r) s else s) (0, 0) rs.

Lemma total_snoc hid rs r : total hid (rs ++ [r]) =
  add2 (total hid rs) (if rec_hunk_id r =s? hid then (lines_added r, lines_removed r) else (0, 0)).
Proof.
  unfold total. induction rs as [|x rs IH]; cbn.
  - destruct (_ =s? _); cbn; unfold add2; cbn; f_equal; lia.
  - rewrite IH. destruct (rec_hunk_id x =s? hid); [|done]. unfold add2. cbn. f_equal; lia.
Qed.

(** The state of the sink agrees with the ledger. *)
Definition balanced (hid : HunkId) (l : Ledger) (z : LocState) : Prop :=
  unwrap_or (0, 0) (acc z !! hid) = pending l /\ total hid (written z) = add2 (settled l) (pending l).

Context (Writes : forall r, writes r = true).

Lemma send_aggregate_core a z : acc (send_aggregate a z) = acc z /\ written (send_aggregate a z) = written z.
Proof. unfold send_aggregate. by destruct (ctx_has_aggregates ctx). Qed.

Lemma record_balanced hid l z h r d : rec_hunk_id r = h_id h -> balanced hid l z ->
  balanced hid (if h_id h =s? hid then MkLedger (settled l) (add2 (pending l) (lines_added r, lines_removed r)) else l)
    (record_lines h r d z).
Proof.
  intros Er [B1 B2]. unfold balanced, record_lines, write_record. rewrite Writes. cbn [acc written].
  match goal with |- context [send_aggregate ?a ?x] => destruct (send_aggregate_core a x) as [-> ->] end.
  rewrite total_snoc, Er. unfold accumulate. destruct (unwrap_or (0, 0) (acc z !! h_id h)) as [a0 r0] eqn:Ea. cbn [acc written].
  destruct (String.eqb_spec (h_id h) hid) as [E|N]; [subst hid|].
  - rewrite lookup_insert, decide_True by done. cbn [unwrap_or settled pending]. rewrite Ea in B1. rewrite B2, <- B1.
    unfold add2. cbn. split; [done|f_equal; lia].
  - rewrite lookup_insert_ne by done. split; [done|]. rewrite B2. unfold add2. cbn. f_equal; lia.
Qed.

Lemma event_balanced hid l z e : balanced hid l z -> balanced hid (post hid l e) (handle_event z e).
Proof.
  intros B. destruct e as [p h|p i reason|p i li|p h src a r|p b|p|p]; cbn [post handle_event]; try done.
  - pose proof (record_balanced hid l z h (from_hunk ctx h Added (h_source h)) Agent) as X.
    unfold from_hunk in *. destruct (attribution ctx (h_source h)) as [[[? ?] ?] ?], (if new_count (line_info h) =? 0 then _ else _).
    cbn in X. by apply X.
  - destruct B as [B1 B2]. unfold balanced. destruct (String.eqb_spec i hid) as [->|N].
    + assert (D : delete hid (acc z) !! hid = None) by (by rewrite lookup_delete, decide_True).
      destruct reason; cbn [acc written]; [split; [by rewrite D|rewrite B2; unfold add2; cbn; f_equal; lia]| |];
        (destruct (acc z !! hid) as [[ta tr]|] eqn:Ea; cbn [unwrap_or] in B1; rewrite <- B1 in B2; cbn [acc written]).
      all: try (rewrite D; split; [done|]; rewrite B2; done).
      all: destruct ((ta =? 0) && (tr =? 0)) eqn:Z0; cbn [acc written].
      all: try (rewrite D; split; [done|]; rewrite B2; apply andb_true_iff in Z0 as [->%Z.eqb_eq ->%Z.eqb_eq]; done).
      all: unfold write_record; rewrite Writes; cbn [acc written];
        match goal with |- context [send_aggregate ?a ?x] => destruct (send_aggregate_core a x) as [-> ->] end; cbn [acc written];
        rewrite D, total_snoc, B2; cbn [rec_hunk_id]; rewrite String.eqb_refl; unfold add2; cbn; (split; [done|f_equal; lia]).
    + assert (D : delete i (acc z) !! hid = acc z !! hid) by (by rewrite lookup_delete_ne).
      destruct reason; cbn [acc written]; try (by rewrite D);
        (destruct (acc z !! i) as [[ta tr]|]; cbn [acc written]; [|by rewrite D]);
        (destruct (_ && _); cbn [acc written]; [by rewrite D|]);
        unfold write_record; rewrite Writes; cbn [acc written];
        match goal with |- context [send_aggregate ?a ?x] => destruct (send_aggregate_core a x) as [-> ->] end; cbn [acc written];
        rewrite D, total_snoc, B2; cbn [rec_hunk_id]; rewrite (proj2 (String.eqb_neq _ _) N); unfold add2; cbn;
        (split; [done|f_equal; lia]).
  - pose proof (record_balanced hid l z h (with_lines (new_count (line_info h) - a) (old_count (line_info h) - r) (from_hunk ctx h Updated src)) Human) as X.
    unfold from_hunk in *. destruct (attribution ctx src) as [[[? ?] ?] ?], (if new_count (line_info h) =? 0 then _ else _).
    cbn in X. by apply X.
Qed.

Lemma events_balanced hid es l z : balanced hid l z -> balanced hid (foldl (post hid) l es) (foldl handle_event z es).
Proof. revert l z. induction es as [|e es IH]; intros l z B; [done|]. cbn [foldl]. by apply IH, event_balanced. Qed.

Lemma never_accepted hid es l : (forall p, HunkRemoved p hid Accepted ∉ es) -> settled (foldl (post hid) l es) = settled l.
Proof.
  revert l. induction es as [|e es IH]; intros l N; [done|]. cbn [foldl]. rewrite IH by (intros p Hp; apply (N p); by right).
  destruct e as [p h|p i reason|p i li|p h src a r|p b|p|p]; cbn; try done; try (by destruct (_ =s? _)).
  destruct reason; try (by destruct (_ =s? _)). destruct (String.eqb_spec i hid) as [->|_]; [|done]. destruct (N p). by left.
Qed.

(** C32: The attribution records balance.  When every record can be written, the
    records of a hunk sum to the lines of it that were accepted plus those still
    pending, whatever events arrive and wherever the sink is cancelled; so a hunk
    that was never accepted and has just been rejected or superseded sums to
    zero, added and removed lines alike. *)
Theorem records_balance received drained hid :
  let z := run_loc_sink received drained in let l := ledger hid (received ++ drained) in
  total hid (written z) = add2 (settled l) (pending l) /\
  (forall es p reason, received ++ drained = es ++ [HunkRemoved p hid reason] -> reason <> Accepted ->
     (forall q, HunkRemoved q hid Accepted ∉ es) -> total hid (written z) = (0, 0)).
Proof.
  cbv zeta. unfold run_loc_sink, ledger. rewrite <- foldl_app.
  assert (B0 : balanced hid (MkLedger (0, 0) (0, 0)) loc_new) by (by split; cbn [acc loc_new]; rewrite ?lookup_empty).
  pose proof (events_balanced hid (received ++ drained) _ _ B0) as [_ B]. split; [exact B|].
  intros es p reason E R N. rewrite B, E, foldl_snoc. cbn [post]. pose proof (never_accepted hid es (MkLedger (0, 0) (0, 0)) N) as S.
  destruct reason; [done| |]; rewrite String.eqb_refl; cbn [settled pending]; by rewrite S.
Qed.
End sink.

Lemma records_balance_witness :
  let ctx := MkContext "s" "agent-1" (Some "u") true in
  let h n := MkHunk "h1" "/a" (MkLines 1 1 1 n) (AgentEdit 1) (Some "x") "y" None 0 false in
  let es := [HunkAdded "/a" (h 3); HunkContentChanged "/a" (h 5) External 3 1] in
  total "h1" (written (run_loc_sink ctx 0 (fun _ => true) es [])) = (5, 1) /\
  total "h1" (written (run_loc_sink ctx 0 (fun _ => true) es [HunkRemoved "/a" "h1" Rejected])) = (0, 0).
Proof.
  intros ctx h es. split.
  - exact (proj1 (records_balance ctx 0 (fun _ => true) (fun _ => eq_refl) es [] "h1")).
  - refine (proj2 (records_balance ctx 0 (fun _ => true) (fun _ => eq_refl) es [HunkRemoved "/a" "h1" Rejected] "h1") es "/a" Rejected eq_refl _ _).
    + discriminate.
    + intros q Hq. apply elem_of_cons in Hq as [?|Hq]; [discriminate|]. apply list_elem_of_singleton in Hq. discriminate.
Defined.
