(* ===== verification/BotUpdate.v ===== *)
(** * [bot-update]: checking for and installing a release

    The decision of [execute], the resolution of a release for a platform, the
    bounded and hashed download, the checks between the download and the
    replacement of the binary, and the replacement itself on Unix.  Semantic
    versions, SHA-256, the HTTP client, archives and the operating system are
    the class [UpdateDeps]; the code is a state monad over the files on disk,
    in which every call of the operating system may fail. *)

From S2P Require Import Prelude RustStr.

Definition DEFAULT_REPOSITORY : string := "woosal1337/bot".
Definition GITHUB_API : string := "https://api.github.com".
Definition MAX_ARCHIVE_BYTES : Z := 512 * 1024 * 1024.
Definition MAX_CHECKSUM_BYTES : Z := 1024 * 1024.

Inductive UpdateMode : Type := Check | Install.

Record ReleaseAsset : Type := MkReleaseAsset {
  asset_name : string; browser_download_url : string; asset_size : Z; asset_digest : option string }.

Record ReleaseResponse : Type := MkReleaseResponse {
  tag_name : string; draft : bool; prerelease : bool; assets : list ReleaseAsset }.

Inductive ArchiveFormat : Type := TarGz | Zip.

Record Platform : Type := MkPlatform { pf_target : string; pf_format : ArchiveFormat }.

(** An entry of an archive; reading its bytes may fail. *)
Record ArchiveEntry : Type := MkArchiveEntry {
  entry_path : string; entry_is_file : bool; entry_bytes : result string string }.

(** The calls of the operating system, in the order the code makes them. *)
Inductive IoPoint : Type :=
| IoOpenLock | IoTempDir | IoCreate (path : string) | IoWrite (path : string) (chunk : nat)
| IoSync (path : string) | IoReadSums | IoStage | IoOpenArchive | IoCopy | IoFlush | IoPermissions
| IoSyncStaged | IoPersist | IoOpenParent | IoSyncParent.

Class UpdateDeps := {
  Version : Type;
  version_parse : string -> option Version;
  version_cmp : Version -> Version -> comparison;
  version_eqb : Version -> Version -> bool;
  version_display : Version -> string;
  (** streaming SHA-256: new, update, lower-case hexadecimal of finalize *)
  Sha : Type;
  sha_new : Sha;
  sha_update : Sha -> string -> Sha;
  sha_hex : Sha -> string;
  (** [std::env] *)
  os : string; arch : string; bot_repository : option string;
  current_exe : result string string;
  parent : string -> option string;
  (** the HTTP client: building it, the latest release, a body as chunks *)
  build_client : result string unit;
  fetch_json : string -> result string ReleaseResponse;
  http_stream : string -> result string (list (result string string));
  (** archives *)
  tar_entries : string -> result string (list (result string ArchiveEntry));
  zip_by_name : string -> result string (string -> option ArchiveEntry);
  (** the file system and the staged process *)
  download_dir : string; staged_path : string;
  io_error : IoPoint -> option string;
  lock_taken : bool;
  run_version : string -> result string (bool * string);
  version_output : string -> result string string }.

Section update.
Context `{D : UpdateDeps}.

Inductive UpdateOutcome : Type :=
| Current (version : Version)
| LocalNewer (current latest : Version)
| Available (current latest : Version)
| Updated (previous current : Version)
| Staged (previous current : Version).

Definition outcome_message (o : UpdateOutcome) : string :=
  match o with
  | Current version => "Bot " +:+ version_display version +:+ " is current."
  | LocalNewer current latest =>
      "Bot " +:+ version_display current +:+ " is newer than the latest published release, "
      +:+ version_display latest +:+ ". No update was installed."
  | Available current latest =>
      "Bot " +:+ version_display latest +:+ " is available. You have " +:+ version_display current
      +:+ ". Run `bot update`."
  | Updated previous current =>
      "Updated Bot from " +:+ version_display previous +:+ " to " +:+ version_display current
      +:+ ". Existing Bot sessions keep " +:+ version_display previous +:+ " until they restart."
  | Staged previous current =>
      "Staged Bot " +:+ version_display current +:+ " over " +:+ version_display previous
      +:+ ". The update will finish after this command exits."
  end.

Inductive UpdateError : Type :=
| InvalidCurrentVersion (s : string) | InvalidReleaseVersion (s : string)
| UnsupportedPlatform (s : string) | UnstableRelease | MissingAsset (s : string)
| MissingAssetDigest (s : string) | AssetTooLarge (name : string) (size : Z)
| AssetSizeMismatch (name : string) (expected actual : Z) | AssetDigestMismatch (s : string)
| MissingChecksum (s : string) | ChecksumMismatch (s : string) | MissingBinary (s : string)
| StagedVersionMismatch (expected actual : Version) | UpdateLocked
| Network (s : string) | Io (s : string) | ZipError (s : string) | JsonError (s : string)
| PathPersist (s : string) | StagedBinary (s : string) | InvalidStagedVersion.

(** ** Platforms and releases *)

Definition Platform_from_parts (os arch : string) : result UpdateError Platform :=
  architecture ← (if arch =s? "x86_64" then Ok "x86_64"
                  else if arch =s? "aarch64" then Ok "aarch64"
                  else Err (UnsupportedPlatform (os +:+ "/" +:+ arch)));
  '(system, format) ←
    (if os =s? "linux" then Ok ("unknown-linux-gnu", TarGz)
     else if os =s? "macos" then Ok ("apple-darwin", TarGz)
     else if (os =s? "windows") && (architecture =s? "x86_64") then Ok ("pc-windows-msvc", Zip)
     else Err (UnsupportedPlatform (os +:+ "/" +:+ arch)));
  Ok (MkPlatform (architecture +:+ "-" +:+ system) format).

Definition Platform_current : result UpdateError Platform := Platform_from_parts os arch.

Definition archive_name (p : Platform) : string :=
  let extension := match pf_format p with TarGz => "tar.gz" | Zip => "zip" end in
  "bot-" +:+ pf_target p +:+ "." +:+ extension.

Definition binary_entry (p : Platform) : string :=
  let suffix := match pf_format p with Zip => ".exe" | TarGz => "" end in
  "bot-" +:+ pf_target p +:+ "/bot" +:+ suffix.

Record Release : Type := MkRelease {
  rel_version : Version; rel_archive : ReleaseAsset; rel_checksums : ReleaseAsset }.

Definition find_asset (name : string) (l : list ReleaseAsset) : result UpdateError ReleaseAsset :=
  ok_or (MissingAsset name) (List.find (fun asset => asset_name asset =s? name) l).

Definition resolve_release (response : ReleaseResponse) (platform : Platform) : result UpdateError Release :=
  if draft response || prerelease response then Err UnstableRelease
  else
    let version_text := trim_start_matches "v" (tag_name response) in
    version ← ok_or (InvalidReleaseVersion (tag_name response)) (version_parse version_text);
    archive ← find_asset (archive_name platform) (assets response);
    checksums ← find_asset "SHA256SUMS" (assets response);
    Ok (MkRelease version archive checksums).

Definition fetch_release (repository : string) (platform : Platform) : result UpdateError Release :=
  let url := GITHUB_API +:+ "/repos/" +:+ repository +:+ "/releases/latest" in
  response ← map_err Network (fetch_json url);
  resolve_release response platform.

Definition parse_version (value : string) : option Version :=
  value ← head (split_whitespace (trim_start_matches "v" (trim value)));
  version_parse value.

Definition verify_api_digest (asset : ReleaseAsset) (actual : string) : result UpdateError unit :=
  expected ← ok_or (MissingAssetDigest (asset_name asset)) (d ← asset_digest asset; strip_prefix "sha256:" d);
  if negb (eq_ignore_ascii_case expected actual) then Err (AssetDigestMismatch (asset_name asset))
  else Ok tt.

(** The closure of [checksum_for] on one line. *)
Definition checksum_line (name line : string) : option string :=
  match split_whitespace line with
  | digest :: file :: rest =>
      let file_name := trim_start_matches "*" file in
      then_some ((file_name =s? name) && match rest with [] => true | _ => false end) digest
  | _ => None
  end.

Definition checksum_for (contents name : string) : option string :=
  find_map (checksum_line name) (lines contents).

(** ** Files *)

Abbreviation Disk := (gmap string string).

Definition U (A : Type) : Type := Disk -> Disk * result UpdateError A.
#[global] Instance U_ret : MRet U := fun A a d => (d, Ok a).
#[global] Instance U_bind : MBind U := fun A B f m d =>
  match m d with
  | (d', Ok a) => f a d'
  | (d', Err e) => (d', Err e)
  end.

Definition lift {A} (r : result UpdateError A) : U A := fun d => (d, r).
Definition put_file (path contents : string) : U unit := fun d => (<[path := contents]> d, Ok tt).
Definition get_file (path : string) : U (option string) := fun d => (d, Ok (d !! path)).
(** A call of the operating system that changes nothing when it succeeds. *)
Definition io (p : IoPoint) : U unit :=
  lift (match io_error p with Some e => Err (Io e) | None => Ok tt end).

Definition ensure (b : bool) (e : UpdateError) : U unit := lift (if b then Ok tt else Err e).

(** The [while let] of [download_asset] from the [k]-th chunk on. *)
Fixpoint download_loop (asset : ReleaseAsset) (destination : string) (maximum : Z)
    (k : nat) (chunks : list (result string string)) (size : Z) (digest : Sha) : U (Z * Sha) :=
  match chunks with
  | [] => mret (size, digest)
  | chunk :: chunks =>
      chunk ← lift (map_err Network chunk);
      let size := sat_add u64_max size (len chunk) in
      _ ← ensure (size <=? maximum)%Z (AssetTooLarge (asset_name asset) size);
      _ ← io (IoWrite destination k);
      written ← get_file destination;
      _ ← put_file destination (unwrap_or "" written +:+ chunk);
      download_loop asset destination maximum (S k) chunks size (sha_update digest chunk)
  end.

Definition download_asset (asset : ReleaseAsset) (destination : string) (maximum : Z) : U string :=
  _ ← ensure (asset_size asset <=? maximum)%Z (AssetTooLarge (asset_name asset) (asset_size asset));
  chunks ← lift (map_err Network (http_stream (browser_download_url asset)));
  _ ← io (IoCreate destination);
  _ ← put_file destination "";
  '(size, digest) ← download_loop asset destination maximum 0 chunks 0 sha_new;
  _ ← io (IoSync destination);
  _ ← ensure (size =? asset_size asset)%Z (AssetSizeMismatch (asset_name asset) (asset_size asset) size);
  mret (sha_hex digest).

(** [Path] equality: empty and [.] components after the first do not count. *)
Definition path_components (p : string) : bool * list string :=
  match split_char "/" p with
  | first :: rest =>
      (starts_with "/" p,
       List.filter (fun c => negb (is_empty c)) [first] ++
       List.filter (fun c => negb (is_empty c) && negb (c =s? ".")) rest)
  | [] => (false, [])
  end.
Definition path_eqb (p q : string) : bool := bool_decide (path_components p = path_components q).

(** The loop over the entries of a tar archive. *)
Fixpoint find_tar_entry (expected : string) (entries : list (result string ArchiveEntry))
  : result UpdateError (option string) :=
  match entries with
  | [] => Ok None
  | entry :: entries =>
      entry ← map_err Io entry;
      if path_eqb (entry_path entry) expected && entry_is_file entry
      then bytes ← map_err Io (entry_bytes entry); Ok (Some bytes)
      else find_tar_entry expected entries
  end.

(** The bytes [extract_binary] copies out of an archive. *)
Definition extracted (platform : Platform) (archive archive_name : string) : result UpdateError string :=
  let expected := binary_entry platform in
  found ← match pf_format platform with
          | TarGz =>
              entries ← map_err Io (tar_entries archive);
              find_tar_entry expected entries
          | Zip =>
              by_name ← map_err ZipError (zip_by_name archive);
              match by_name expected with
              | Some entry =>
                  if negb (entry_is_file entry) then Err (MissingBinary expected)
                  else bytes ← map_err Io (entry_bytes entry); Ok (Some bytes)
              | None => Ok None
              end
          end;
  ok_or (MissingBinary (archive_name +:+ ":" +:+ expected)) found.

Definition extract_binary (archive_path : string) (platform : Platform) (destination archive_name : string) : U unit :=
  _ ← io IoOpenArchive;
  archive ← get_file archive_path;
  bytes ← lift (extracted platform (unwrap_or "" archive) archive_name);
  _ ← io IoCopy;
  put_file destination bytes.

Definition read_binary_version (path : string) : U Version :=
  binary ← get_file path;
  '(success, stdout) ← lift (map_err StagedBinary (run_version (unwrap_or "" binary)));
  _ ← ensure success InvalidStagedVersion;
  text ← lift (map_err JsonError (version_output stdout));
  lift (ok_or InvalidStagedVersion (parse_version text)).

(** Unix: rename the staged file over the executable and sync the directory. *)
Definition apply_update (executable : string) (previous current : Version) : U UpdateOutcome :=
  _ ← lift (match io_error IoPersist with Some e => Err (PathPersist e) | None => Ok tt end);
  staged ← get_file staged_path;
  _ ← put_file executable (unwrap_or "" staged);
  _ ← (fun d => (delete staged_path d, Ok tt));
  _ ← match parent executable with
      | Some _ => _ ← io IoOpenParent; io IoSyncParent
      | None => mret tt
      end;
  mret (Updated previous current).

(** Drop of the temporary directory and of a staged file that was not kept. *)
Definition drop_temps {A} (paths : list string) (m : U A) : U A := fun d =>
  let '(d', r) := m d in (foldr delete d' paths, r).

Definition checksum_path : string := download_dir +:+ "/SHA256SUMS".
Definition archive_path (release : Release) : string := download_dir +:+ "/" +:+ asset_name (rel_archive release).

(** [install_release] between the lock and the staging: both downloads and the
    three digest checks. *)
Definition fetch_verified (release : Release) : U unit :=
  checksum_digest ← download_asset (rel_checksums release) checksum_path MAX_CHECKSUM_BYTES;
  _ ← lift (verify_api_digest (rel_checksums release) checksum_digest);
  archive_digest ← download_asset (rel_archive release) (archive_path release) MAX_ARCHIVE_BYTES;
  _ ← lift (verify_api_digest (rel_archive release) archive_digest);
  _ ← io IoReadSums;
  checksum_text ← get_file checksum_path;
  _ ← ensure (utf8 (unwrap_or "" checksum_text)) (Io "stream did not contain valid UTF-8");
  expected ← lift (ok_or (MissingChecksum (asset_name (rel_archive release)))
                     (checksum_for (unwrap_or "" checksum_text) (asset_name (rel_archive release))));
  ensure (eq_ignore_ascii_case expected archive_digest) (ChecksumMismatch (asset_name (rel_archive release))).

(** [install_release] from the staged file on. *)
Definition stage_and_apply (executable : string) (previous : Version) (release : Release)
    (platform : Platform) : U UpdateOutcome :=
  _ ← io IoStage;
  _ ← put_file staged_path "";
  _ ← extract_binary (archive_path release) platform staged_path (asset_name (rel_archive release));
  _ ← io IoFlush;
  _ ← io IoPermissions;
  _ ← io IoSyncStaged;
  staged_version ← read_binary_version staged_path;
  _ ← ensure (version_eqb staged_version (rel_version release))
        (StagedVersionMismatch (rel_version release) staged_version);
  apply_update executable previous (rel_version release).

Definition lock_path (install_directory : string) : string := install_directory +:+ "/.bot-update.lock".

Definition install_release (previous : Version) (release : Release) (platform : Platform) : U UpdateOutcome :=
  executable ← lift (map_err Io current_exe);
  install_directory ← lift (ok_or (Io "the executable has no parent directory") (parent executable));
  _ ← io IoOpenLock;
  lock ← get_file (lock_path install_directory);
  _ ← put_file (lock_path install_directory) (unwrap_or "" lock);
  _ ← ensure (negb lock_taken) UpdateLocked;
  _ ← io IoTempDir;
  drop_temps [checksum_path; archive_path release; staged_path]
    (_ ← fetch_verified release;
     stage_and_apply executable previous release platform).

Definition execute (current_version : string) (mode : UpdateMode) : U UpdateOutcome :=
  current ← lift (ok_or (InvalidCurrentVersion current_version) (parse_version current_version));
  let repository := unwrap_or DEFAULT_REPOSITORY bot_repository in
  platform ← lift Platform_current;
  _ ← lift (map_err Network build_client);
  release ← lift (fetch_release repository platform);
  if version_eqb current (rel_version release) then mret (Current current)
  else match version_cmp current (rel_version release) with
       | Gt => mret (LocalNewer current (rel_version release))
       | _ =>
           match mode with
           | Check => mret (Available current (rel_version release))
           | Install => install_release current release platform
           end
       end.

(** ** Frames *)

(** The method changes no file outside [ps]. *)
Definition frame {A} (ps : list string) (m : U A) : Prop :=
  forall d p, p ∉ ps -> (m d).1 !! p = d !! p.

Lemma U_bind_eq {A B} (m : U A) (f : A -> U B) d :
  (m ≫= f) d = match m d with (d', Ok a) => f a d' | (d', Err e) => (d', Err e) end.
Proof. done. Qed.

Lemma U_lift_bind {A B} (r : result UpdateError A) (f : A -> U B) d :
  (lift r ≫= f) d = match r with Ok a => f a d | Err e => (d, Err e) end.
Proof. by destruct r. Qed.

Lemma U_io_bind {B} p (f : unit -> U B) d :
  (io p ≫= f) d = match io_error p with None => f tt d | Some e => (d, Err (Io e)) end.
Proof. unfold io. rewrite U_lift_bind. by destruct (io_error p). Qed.

Lemma U_ensure_bind {B} b e (f : unit -> U B) d :
  (ensure b e ≫= f) d = if b then f tt d else (d, Err e).
Proof. unfold ensure. rewrite U_lift_bind. by destruct b. Qed.

Lemma frame_bind {A B} ps (m : U A) (f : A -> U B) :
  frame ps m -> (forall a, frame ps (f a)) -> frame ps (m ≫= f).
Proof.
  intros Hm Hf d p Hp. rewrite U_bind_eq. specialize (Hm d p Hp).
  destruct (m d) as [d1 [a|e]]; cbn in *; [by rewrite Hf|done].
Qed.

Lemma frame_lift {A} ps (r : result UpdateError A) : frame ps (lift r).
Proof. done. Qed.
Lemma frame_ret {A} ps (a : A) : frame ps (mret a).
Proof. done. Qed.
Lemma frame_io ps p : frame ps (io p).
Proof. done. Qed.
Lemma frame_ensure ps b e : frame ps (ensure b e).
Proof. done. Qed.
Lemma frame_get ps p : frame ps (get_file p).
Proof. done. Qed.
Lemma frame_put ps p c : p ∈ ps -> frame ps (put_file p c).
Proof. intros Hp d q Hq. cbn. apply lookup_insert_ne. by intros ->. Qed.

Create HintDb update.
#[local] Hint Resolve frame_lift frame_ret frame_io frame_ensure frame_get frame_put : update.

Ltac framed := repeat first
  [ by auto with update | apply frame_bind; [|intros ?] | progress cbn zeta
  | match goal with |- frame _ (let '(_, _) := ?x in _) => destruct x end ].

Lemma frame_download_loop asset dest max k chunks size dg :
  frame [dest] (download_loop asset dest max k chunks size dg).
Proof.
  assert (Hd : dest ∈ [dest]) by by left.
  revert k size dg. induction chunks as [|c cs IH]; intros k size dg; cbn [download_loop]; framed.
Qed.

Lemma frame_download asset dest max : frame [dest] (download_asset asset dest max).
Proof.
  assert (Hd : dest ∈ [dest]) by by left. unfold download_asset. framed. apply frame_download_loop.
Qed.

Lemma frame_weaken {A} ps qs (m : U A) : ps ⊆ qs -> frame ps m -> frame qs m.
Proof. intros Hs Hm d p Hp. apply Hm. set_solver. Qed.

(** A change outside the frame of the first part happens in the second. *)
Lemma changed_bind {A B} ps (m : U A) (f : A -> U B) q d d' r :
  frame ps m -> q ∉ ps -> (m ≫= f) d = (d', r) -> d' !! q <> d !! q ->
  exists a d1, m d = (d1, Ok a) /\ f a d1 = (d', r) /\ d' !! q <> d1 !! q.
Proof.
  intros Hf Hq. rewrite U_bind_eq. specialize (Hf d q Hq).
  destruct (m d) as [d1 [a|e]]; cbn in *.
  - intros E N. exists a, d1. by rewrite Hf.
  - intros [= <- <-] N. done.
Qed.

Lemma U_bind_ok {A B} (m : U A) (f : A -> U B) d d' b :
  (m ≫= f) d = (d', Ok b) -> exists a d1, m d = (d1, Ok a) /\ f a d1 = (d', Ok b).
Proof. rewrite U_bind_eq. destruct (m d) as [d1 [a|e]]; [eauto|done]. Qed.

Lemma lift_ok {A} (r : result UpdateError A) d d1 a : lift r d = (d1, Ok a) -> d1 = d /\ r = Ok a.
Proof. by intros [= -> ->]. Qed.

Lemma io_ok p d d1 a : io p d = (d1, Ok a) -> d1 = d.
Proof. intros H%lift_ok. apply H. Qed.

Lemma ensure_ok b e d d1 a : ensure b e d = (d1, Ok a) -> d1 = d /\ b = true.
Proof. intros [-> H]%lift_ok. by destruct b. Qed.

(** ** Downloads *)

Definition sha256 (bytes : string) : string := sha_hex (sha_update sha_new bytes).

(** Hashing chunk by chunk is hashing the whole. *)
Class ShaLaw : Prop := sha_chunks : forall cs, sha_hex (foldl sha_update sha_new cs) = sha256 (concat_str cs).

Lemma download_loop_spec asset dest max k chunks done_ d d' r :
  (max < u64_max)%Z -> d !! dest = Some (concat_str done_) -> (len (concat_str done_) <= max)%Z ->
  download_loop asset dest max k chunks (len (concat_str done_)) (foldl sha_update sha_new done_) d = (d', r) ->
  exists all, d' !! dest = Some (concat_str all) /\ (len (concat_str all) <= max)%Z /\
    forall x, r = Ok x -> x = (len (concat_str all), foldl sha_update sha_new all).
Proof.
  intros Hm. revert k done_ d. induction chunks as [|c cs IH]; intros k dn d Hd Hl; cbn [download_loop].
  - intros [= <- <-]. exists dn. split_and!; [done..|]. by intros x [= <-].
  - assert (Stop : forall e, (d, Err e) = (d', r) -> exists all, d' !! dest = Some (concat_str all) /\
      (len (concat_str all) <= max)%Z /\ forall x, r = Ok x -> x = (len (concat_str all), foldl sha_update sha_new all)).
    { intros e [= <- <-]. exists dn. done. }
    rewrite U_lift_bind. destruct c as [c|e]; [cbn [map_err]|by apply Stop]. cbn zeta. rewrite U_ensure_bind.
    pose proof (len_nonneg c). pose proof (len_nonneg (concat_str dn)).
    destruct (Z.leb_spec (sat_add u64_max (len (concat_str dn)) (len c)) max) as [Hs|]; [|by apply Stop].
    assert (Es : sat_add u64_max (len (concat_str dn)) (len c) = (len (concat_str dn) + len c)%Z).
    { unfold sat_add in *. lia. }
    rewrite U_io_bind. destruct (io_error (IoWrite dest k)); [by apply Stop|].
    rewrite U_bind_eq. cbn [get_file]. rewrite Hd, U_bind_eq. cbn [put_file unwrap_or].
    assert (Ec : concat_str dn +:+ c = concat_str (dn ++ [c])).
    { rewrite concat_str_app. cbn. by rewrite sapp_nil_r. }
    assert (El : sat_add u64_max (len (concat_str dn)) (len c) = len (concat_str (dn ++ [c]))).
    { by rewrite Es, <- Ec, len_sapp. }
    rewrite Ec, El. replace (sha_update (foldl sha_update sha_new dn) c)
      with (foldl sha_update sha_new (dn ++ [c])) by by rewrite foldl_app.
    apply IH; [apply lookup_insert_eq|lia].
Qed.

(** What a download leaves at its destination. *)
Lemma download_spec asset dest max d d' r :
  (max < u64_max)%Z -> (0 <= max)%Z -> download_asset asset dest max d = (d', r) ->
  (d' = d /\ exists e, r = Err e) \/
  exists all, d' !! dest = Some (concat_str all) /\ (len (concat_str all) <= max)%Z /\
    forall h, r = Ok h -> asset_size asset = len (concat_str all) /\ h = sha_hex (foldl sha_update sha_new all).
Proof.
  intros Hm H0. unfold download_asset. rewrite U_ensure_bind.
  destruct (asset_size asset <=? max)%Z; [|intros [= <- <-]; left; eauto].
  rewrite U_lift_bind. destruct (http_stream _) as [cs|]; [|intros [= <- <-]; left; eauto].
  cbn [map_err]. rewrite U_io_bind. destruct (io_error _); [intros [= <- <-]; left; eauto|].
  rewrite U_bind_eq. cbn [put_file]. rewrite U_bind_eq.
  destruct (download_loop asset dest max 0 cs 0 sha_new (<[dest:="" ]> d)) as [d1 r1] eqn:E.
  destruct (download_loop_spec asset dest max 0 cs [] (<[dest:="" ]> d) d1 r1) as (all&H1&H2&H3);
    [done|apply lookup_insert_eq|cbn; unfold len; cbn; lia|exact E|].
  intros H. right. exists all. destruct r1 as [[size dg]|e]; [|by injection H as <- <-].
  specialize (H3 _ eq_refl) as [= -> ->]. rewrite U_io_bind in H.
  destruct (io_error (IoSync dest)); [by injection H as <- <-|]. rewrite U_ensure_bind in H.
  destruct (Z.eqb_spec (len (concat_str all)) (asset_size asset)) as [Es|]; injection H as <- <-;
    split_and!; try done. by intros h [= <-].
Qed.

(** The bytes have the size GitHub reports and the digest it reports. *)
Definition asset_verified (asset : ReleaseAsset) (maximum : Z) (bytes : string) : Prop :=
  asset_size asset = len bytes /\ (len bytes <= maximum)%Z /\
  exists d, asset_digest asset = Some ("sha256:" +:+ d) /\ eq_ignore_ascii_case d (sha256 bytes) = true.

Lemma download_verified `{SL : ShaLaw} asset dest max d d1 h d2 x :
  (max < u64_max)%Z -> (0 <= max)%Z ->
  download_asset asset dest max d = (d1, Ok h) -> lift (verify_api_digest asset h) d1 = (d2, Ok x) ->
  d2 = d1 /\ exists bytes, d1 !! dest = Some bytes /\ asset_verified asset max bytes /\ h = sha256 bytes.
Proof.
  intros Hm H0 E [-> V]%lift_ok. split; [done|].
  destruct (download_spec asset dest max d d1 (Ok h) Hm H0 E) as [[_ [e [=]]]|(all&H1&H2&H3)].
  destruct (H3 _ eq_refl) as [Hs ->]. exists (concat_str all). rewrite sha_chunks in *.
  split_and!; try done. split_and!; try done. unfold verify_api_digest in V.
  apply result_bind_ok in V as (ex&Ex%ok_or_ok&V).
  destruct (asset_digest asset) as [dg|]; [|done]. cbn [mbind option_bind] in Ex. apply strip_prefix_some in Ex as ->.
  exists ex. split; [done|]. by destruct (eq_ignore_ascii_case ex _).
Qed.

(** ** Installing *)

Definition release_files (release : Release) : list string := [checksum_path; archive_path release].

Lemma frame_fetch_verified release : frame (release_files release) (fetch_verified release).
Proof.
  assert (Hc : forall a m, frame (release_files release) (download_asset a checksum_path m)).
  { intros a m. eapply frame_weaken; [|apply frame_download]. set_solver. }
  assert (Ha : forall a m, frame (release_files release) (download_asset a (archive_path release) m)).
  { intros a m. eapply frame_weaken; [|apply frame_download]. set_solver. }
  unfold fetch_verified. framed.
Qed.

(** What the checks before the staging establish about the archive. *)
Definition archive_verified (release : Release) (archive : string) : Prop :=
  asset_verified (rel_archive release) MAX_ARCHIVE_BYTES archive /\
  exists sums expected, asset_verified (rel_checksums release) MAX_CHECKSUM_BYTES sums /\
    checksum_for sums (asset_name (rel_archive release)) = Some expected /\
    eq_ignore_ascii_case expected (sha256 archive) = true.

Lemma limits_ok : (0 <= MAX_CHECKSUM_BYTES < u64_max)%Z /\ (0 <= MAX_ARCHIVE_BYTES < u64_max)%Z.
Proof. unfold MAX_CHECKSUM_BYTES, MAX_ARCHIVE_BYTES, u64_max. lia. Qed.

Lemma fetch_verified_ok `{SL : ShaLaw} release d d' x :
  checksum_path <> archive_path release -> fetch_verified release d = (d', Ok x) ->
  exists archive, d' !! archive_path release = Some archive /\ archive_verified release archive.
Proof.
  intros N. unfold fetch_verified. set (ap := archive_path release) in *.
  intros (h1&d1&E1&(?&d1'&V1&(h2&d2&E2&(?&d2'&V2&E)%U_bind_ok)%U_bind_ok)%U_bind_ok)%U_bind_ok.
  destruct (download_verified _ _ _ _ _ _ _ _ (proj2 (proj1 limits_ok)) (proj1 (proj1 limits_ok)) E1 V1) as (->&sums&H1&A1&->).
  destruct (download_verified _ _ _ _ _ _ _ _ (proj2 (proj2 limits_ok)) (proj1 (proj2 limits_ok)) E2 V2) as (->&ar&H2&A2&->).
  apply U_bind_ok in E as (?&?&->%io_ok&E). rewrite U_bind_eq in E. cbn [get_file] in E.
  assert (Hs : d2 !! checksum_path = Some sums).
  { pose proof (frame_download (rel_archive release) ap MAX_ARCHIVE_BYTES d1 checksum_path) as F.
    rewrite E2 in F. cbn in F. rewrite F; [done|]. by intros ?%list_elem_of_singleton. }
  rewrite Hs in E. cbn [unwrap_or] in E. apply U_bind_ok in E as (?&?&[-> _]%ensure_ok&E).
  apply U_bind_ok in E as (ex&?&[-> Ex%ok_or_ok]%lift_ok&[-> Eq]%ensure_ok).
  exists ar. split; [done|]. split; [done|]. by exists sums, ex.
Qed.

(** The staged binary reports the version of the release. *)
Definition reports_version (binary : string) (v : Version) : Prop :=
  exists stdout text staged, run_version binary = Ok (true, stdout) /\ version_output stdout = Ok text /\
    parse_version text = Some staged /\ version_eqb staged v = true.

Lemma read_binary_version_ok path d d' v : read_binary_version path d = (d', Ok v) ->
  d' = d /\ exists stdout text, run_version (unwrap_or "" (d !! path)) = Ok (true, stdout) /\
    version_output stdout = Ok text /\ parse_version text = Some v.
Proof.
  unfold read_binary_version. rewrite U_bind_eq. cbn [get_file].
  intros ([ok_ out]&?&[-> E]%lift_ok&(?&?&[-> ->]%ensure_ok&(t&?&[-> Et]%lift_ok&[-> Ep%ok_or_ok]%lift_ok)%U_bind_ok)%U_bind_ok)%U_bind_ok.
  split; [done|]. exists out, t. split_and!; [|..|done].
  - destruct (run_version _) as [p|e]; [|done]. by injection E as ->.
  - destruct (version_output out) as [p|e]; [|done]. by injection Et as ->.
Qed.

Lemma frame_read_version ps path : frame ps (read_binary_version path).
Proof. unfold read_binary_version. framed. Qed.

Lemma frame_extract ps ap pf dest name : dest ∈ ps -> frame ps (extract_binary ap pf dest name).
Proof. intros H. unfold extract_binary. framed. Qed.

Lemma extract_binary_ok ap pf dest name d d' x : extract_binary ap pf dest name d = (d', Ok x) ->
  exists bytes, extracted pf (unwrap_or "" (d !! ap)) name = Ok bytes /\ d' = <[dest := bytes]> d.
Proof.
  unfold extract_binary. intros (?&?&->%io_ok&E)%U_bind_ok. rewrite U_bind_eq in E. cbn [get_file] in E.
  apply U_bind_ok in E as (b&?&[-> Eb]%lift_ok&(?&?&->%io_ok&[= <- _])%U_bind_ok). eauto.
Qed.

Lemma stage_and_apply_changed exe previous release pf d d' r :
  exe <> staged_path -> archive_path release <> staged_path ->
  stage_and_apply exe previous release pf d = (d', r) -> d' !! exe <> d !! exe ->
  exists binary, extracted pf (unwrap_or "" (d !! archive_path release)) (asset_name (rel_archive release)) = Ok binary /\
    reports_version binary (rel_version release) /\ d' !! exe = Some binary.
Proof.
  intros Ne Na E C. assert (Hn : exe ∉ [staged_path]) by by intros ?%list_elem_of_singleton.
  assert (Hi : staged_path ∈ [staged_path]) by by left.
  unfold stage_and_apply in E.
  eapply changed_bind in E as (?&d1&->%io_ok&E&C1); [|apply frame_io|exact Hn|exact C]. clear C.
  eapply changed_bind in E as (?&d2&Ep&E&C2); [|by apply frame_put|exact Hn|exact C1]. clear C1.
  injection Ep as <- _.
  eapply changed_bind in E as (?&d3&(b&Eb&->)%extract_binary_ok&E&C3); [|by apply frame_extract|exact Hn|exact C2].
  clear C2. rewrite lookup_insert_ne in Eb by done.
  do 3 (eapply changed_bind in E as (?&?&->%io_ok&E&?); [|apply frame_io|exact Hn|eassumption]).
  eapply changed_bind in E as (v&?&(->&out&t&Er&Ev&Ept)%read_binary_version_ok&E&C4);
    [|apply (frame_read_version [])|by apply not_elem_of_nil|eassumption].
  rewrite lookup_insert_eq in Er. cbn [unwrap_or] in Er.
  eapply changed_bind in E as (?&?&[-> Vq]%ensure_ok&E&C5); [|apply (frame_ensure [])|by apply not_elem_of_nil|eassumption].
  exists b. split; [done|]. split; [by exists out, t, v|].
  unfold apply_update in E.
  eapply changed_bind in E as (?&?&[-> _]%lift_ok&E&C6); [|apply (frame_lift [])|by apply not_elem_of_nil|exact C5].
  rewrite U_bind_eq in E. cbn [get_file] in E. rewrite lookup_insert_eq in E. cbn [unwrap_or] in E.
  rewrite U_bind_eq in E. cbn [put_file] in E. rewrite U_bind_eq in E.
  set (df := delete staged_path (<[exe:=b]> (<[staged_path:=b]> (<[staged_path:="" ]> d)))) in E.
  assert (F : d' = df).
  { rewrite U_bind_eq in E. destruct (parent exe).
    - rewrite U_io_bind in E. destruct (io_error IoOpenParent); [by injection E|].
      unfold io, lift in E. by destruct (io_error IoSyncParent); injection E.
    - by injection E. }
  subst d'. unfold df. rewrite lookup_delete_ne by done. apply lookup_insert_eq.
Qed.

(** The files of an update are different files.  The temporary directory and
    the staged file have fresh names. *)
Definition paths_distinct (exe dir : string) (release : Release) : Prop :=
  exe ∉ [lock_path dir; checksum_path; archive_path release; staged_path] /\
  archive_path release <> staged_path.

Lemma foldr_delete_lookup (ps : list string) (d : Disk) p : p ∉ ps -> foldr delete d ps !! p = d !! p.
Proof.
  induction ps as [|q ps IH]; [done|]. intros [N H]%not_elem_of_cons. cbn. by rewrite lookup_delete_ne, IH.
Qed.

Lemma install_release_changed `{SL : ShaLaw} exe dir previous release pf d d' r :
  checksum_path <> archive_path release ->
  current_exe = Ok exe -> parent exe = Some dir -> paths_distinct exe dir release ->
  install_release previous release pf d = (d', r) -> d' !! exe <> d !! exe ->
  exists archive binary, archive_verified release archive /\
    extracted pf archive (asset_name (rel_archive release)) = Ok binary /\
    reports_version binary (rel_version release) /\ d' !! exe = Some binary.
Proof.
  intros Hc He Hp (Hx&Sa) E C.
  assert (Nl : exe <> lock_path dir) by set_solver. assert (Ns : exe <> staged_path) by set_solver.
  assert (Nt : exe ∉ [checksum_path; archive_path release; staged_path]) by set_solver.
  assert (Nr : exe ∉ release_files release) by set_solver.
  unfold install_release in E. rewrite He in E. cbn [map_err] in E. rewrite U_lift_bind, Hp in E.
  cbn [ok_or] in E. rewrite U_lift_bind in E.
  eapply changed_bind in E as (?&?&->%io_ok&E&C1); [|apply (frame_io [])|by apply not_elem_of_nil|exact C].
  rewrite U_bind_eq in E. cbn [get_file] in E.
  eapply changed_bind in E as (?&d1&_&E&C2);
    [|apply (frame_put [lock_path dir]); by left|by intros ?%list_elem_of_singleton|exact C1].
  eapply changed_bind in E as (?&?&[-> _]%ensure_ok&E&C3); [|apply (frame_ensure [])|by apply not_elem_of_nil|exact C2].
  eapply changed_bind in E as (?&?&->%io_ok&E&C4); [|apply (frame_io [])|by apply not_elem_of_nil|exact C3].
  unfold drop_temps in E.
  destruct ((fetch_verified release ≫= fun _ => stage_and_apply exe previous release pf) d1) as [d2 r2] eqn:E2.
  injection E as <- <-.
  pose proof (foldr_delete_lookup _ d2 exe Nt) as F. cbn [foldr] in F. rewrite F in C4.
  eapply changed_bind in E2 as (?&d3&Ef&E2&C5);
    [|apply frame_fetch_verified|exact Nr|exact C4].
  destruct (fetch_verified_ok _ _ _ _ Hc Ef) as (ar&Har&V).
  destruct (stage_and_apply_changed _ _ _ _ _ _ _ Ns Sa E2 C5) as (b&Eb&Rv&Eb').
  rewrite Har in Eb. exists ar, b. by rewrite F.
Qed.

(** ** Properties *)

Definition release_of (r : Release) (platform : Platform) : Prop :=
  fetch_release (unwrap_or DEFAULT_REPOSITORY bot_repository) platform = Ok r.

(** The archive of a resolved release has the name of the platform's archive,
    so it is not the checksum file. *)
Lemma release_archive_path release platform : release_of release platform -> checksum_path <> archive_path release.
Proof.
  unfold release_of, fetch_release. intros (resp&_&H)%result_bind_ok. unfold resolve_release in H.
  destruct (draft resp || prerelease resp); [done|].
  apply result_bind_ok in H as (v&_&(a&Ea%ok_or_ok&(c&_&[= <-])%result_bind_ok)%result_bind_ok).
  apply List.find_some in Ea as [_ En%String.eqb_eq].
  unfold archive_path, checksum_path. cbn [rel_archive]. rewrite En. intros X%sapp_inj_r. done.
Qed.

(** C38: the installed binary is replaced only by an update command (never by a
    check), only for a published release that is not the running version and
    not older, and only with the binary of an archive that has the size and the
    digest GitHub reports and the digest [SHA256SUMS] lists for it, where that
    file has the size and digest GitHub reports, and which itself reports the
    version of the release.  In every other case, any failure included, the
    executable stays as it was. *)
Theorem installed_only_verified `{SL : ShaLaw} exe dir current_version mode d d' r :
  current_exe = Ok exe -> parent exe = Some dir ->
  (forall platform release, release_of release platform -> paths_distinct exe dir release) ->
  execute current_version mode d = (d', r) ->
  d' !! exe = d !! exe \/
  exists current platform release archive binary,
    mode = Install /\ parse_version current_version = Some current /\
    Platform_current = Ok platform /\ release_of release platform /\
    version_eqb current (rel_version release) = false /\
    version_cmp current (rel_version release) <> Gt /\
    archive_verified release archive /\
    extracted platform archive (asset_name (rel_archive release)) = Ok binary /\
    reports_version binary (rel_version release) /\ d' !! exe = Some binary.
Proof.
  intros He Hp Hd E. destruct (decide (d' !! exe = d !! exe)) as [|C]; [by left|right].
  unfold execute in E.
  eapply changed_bind in E as (cur&?&[-> Ec%ok_or_ok]%lift_ok&E&_); [|apply (frame_lift [])|by apply not_elem_of_nil|exact C].
  cbn zeta in E.
  eapply changed_bind in E as (pf&?&[-> Epf]%lift_ok&E&_); [|apply (frame_lift [])|by apply not_elem_of_nil|exact C].
  eapply changed_bind in E as (?&?&[-> _]%lift_ok&E&_); [|apply (frame_lift [])|by apply not_elem_of_nil|exact C].
  eapply changed_bind in E as (rel&?&[-> Erel]%lift_ok&E&_); [|apply (frame_lift [])|by apply not_elem_of_nil|exact C].
  destruct (version_eqb cur (rel_version rel)) eqn:Eq; [by injection E as <- _|].
  assert (version_cmp cur (rel_version rel) <> Gt /\ mode = Install /\ install_release cur rel pf d = (d', r))
    as (Gt_&->&Ei).
  { destruct (version_cmp cur (rel_version rel)), mode; try (by injection E as <- _); done. }
  destruct (install_release_changed _ _ _ _ _ _ _ _ (release_archive_path _ _ Erel) He Hp (Hd _ _ Erel) Ei C) as (ar&b&V&X&Rv&Eb).
  exists cur, pf, rel, ar, b. done.
Qed.

(** What [execute] reports when it does not fail before the decision: equal
    versions are current, an older release leaves the local one, a newer one is
    announced in check mode, and none of these touches any file; a draft or a
    prerelease is always an error. *)
Theorem execute_decision current_version d current platform release :
  parse_version current_version = Some current -> Platform_current = Ok platform ->
  build_client = Ok tt -> release_of release platform ->
  (version_eqb current (rel_version release) = true -> forall mode,
     execute current_version mode d = (d, Ok (Current current))) /\
  (version_eqb current (rel_version release) = false ->
   version_cmp current (rel_version release) = Gt -> forall mode,
     execute current_version mode d = (d, Ok (LocalNewer current (rel_version release)))) /\
  (version_eqb current (rel_version release) = false ->
   version_cmp current (rel_version release) = Lt ->
     execute current_version Check d = (d, Ok (Available current (rel_version release)))) /\
  (forall response p, draft response = true \/ prerelease response = true ->
     resolve_release response p = Err UnstableRelease).
Proof.
  intros Hc Hp Hb Hr.
  assert (E : forall mode, execute current_version mode d =
    if version_eqb current (rel_version release) then (d, Ok (Current current))
    else match version_cmp current (rel_version release) with
         | Gt => (d, Ok (LocalNewer current (rel_version release)))
         | _ => match mode with
                | Check => (d, Ok (Available current (rel_version release)))
                | Install => install_release current release platform d
                end
         end).
  { intros mode. unfold execute. rewrite U_lift_bind, Hc. cbn [ok_or]. cbn zeta.
    rewrite U_lift_bind, Hp, U_lift_bind, Hb. cbn [map_err]. rewrite U_lift_bind, Hr.
    destruct (version_eqb _ _); [done|]. by destruct (version_cmp _ _), mode. }
  split_and!.
  - intros Eq mode. by rewrite E, Eq.
  - intros Eq Cmp mode. by rewrite E, Eq, Cmp.
  - intros Eq Cmp. by rewrite E, Eq, Cmp.
  - intros response p H. unfold resolve_release. by destruct H as [ -> | -> ]; rewrite ?orb_true_r.
Qed.

(** A download never writes more than the limit, whatever the server sends
    and however it fails; when it succeeds, the file has exactly the size that
    was announced and the returned digest is the digest of its bytes. *)
Theorem download_bounded `{SL : ShaLaw} asset dest max d :
  (0 <= max < u64_max)%Z ->
  let '(d', r) := download_asset asset dest max d in
  (forall p, p <> dest -> d' !! p = d !! p) /\
  ((d' = d /\ exists e, r = Err e) \/
   exists bytes, d' !! dest = Some bytes /\ (len bytes <= max)%Z /\
     forall h, r = Ok h -> len bytes = asset_size asset /\ h = sha256 bytes).
Proof.
  intros [H0 Hm]. pose proof (frame_download asset dest max d) as F.
  destruct (download_asset asset dest max d) as [d' r] eqn:E. split.
  - intros p Hp. apply F. by intros ?%list_elem_of_singleton.
  - destruct (download_spec _ _ _ _ _ _ Hm H0 E) as [?|(all&H1&H2&H3)]; [by left|right].
    exists (concat_str all). split_and!; [done..|]. intros h Hh. rewrite <- sha_chunks.
    destruct (H3 _ Hh) as [-> ->]. done.
Qed.
End update.

(** ** A concrete update *)

Module Demo.
Definition archive_asset : ReleaseAsset :=
  MkReleaseAsset "bot-x86_64-unknown-linux-gnu.tar.gz" "archive" 4 (Some "sha256:AbCd").
Definition sums_asset : ReleaseAsset :=
  MkReleaseAsset "SHA256SUMS" "sums" 40 (Some "sha256:abcd bot-x86_64-unknown-linux-gnu.tar.gz").

(** Versions are strings of one digit, the digest of a text is the text. *)
#[local] Instance deps : UpdateDeps := {|
  Version := string; version_parse v := Some v; version_cmp := String.compare;
  version_eqb := String.eqb; version_display v := v;
  Sha := string; sha_new := ""; sha_update d c := d +:+ c; sha_hex d := d;
  os := "linux"; arch := "x86_64"; bot_repository := None;
  current_exe := Ok "/opt/bot"; parent _ := Some "/opt";
  build_client := Ok tt;
  fetch_json _ := Ok (MkReleaseResponse "v2" false false [archive_asset; sums_asset]);
  http_stream url := if url =s? "archive" then Ok [Ok "ab"; Ok "cd"]
                     else Ok [Ok "abcd "; Ok "bot-x86_64-unknown-linux-gnu.tar.gz"];
  tar_entries _ := Ok [Ok (MkArchiveEntry "bot-x86_64-unknown-linux-gnu/bot" true (Ok "new binary"))];
  zip_by_name _ := Err "not a zip";
  download_dir := "/tmp/d"; staged_path := "/opt/.tmp1"; io_error _ := None; lock_taken := false;
  run_version _ := Ok (true, "2"); version_output t := Ok t |}.

#[local] Instance sha_law : ShaLaw.
Proof.
  intros cs. unfold sha256. cbn. rewrite sapp_nil_l.
  assert (G : forall acc, foldl (fun d c => d +:+ c) acc cs = acc +:+ concat_str cs).
  { induction cs as [|c cs IH]; intros acc; cbn; [by rewrite sapp_nil_r|]. by rewrite IH, sapp_assoc. }
  exact (G "").
Qed.

Lemma demo_paths platform release : release_of release platform -> paths_distinct "/opt/bot" "/opt" release.
Proof.
  intros _. unfold paths_distinct, archive_path. cbn.
  split; [|by intros [=]].
  rewrite !not_elem_of_cons. split_and!; try (by intros [=]); try done. by apply not_elem_of_nil.
Qed.

Definition before : gmap string string := {["/opt/bot" := "old binary"]}.

Lemma installed_only_verified_witness :
  (execute "1" Install before).1 !! "/opt/bot" = Some "new binary" /\
  ((execute "1" Install before).1 !! "/opt/bot" = before !! "/opt/bot" \/
   exists current platform release archive binary,
    Install = Install /\ parse_version "1" = Some current /\
    Platform_current = Ok platform /\ release_of release platform /\
    version_eqb current (rel_version release) = false /\
    version_cmp current (rel_version release) <> Gt /\
    archive_verified release archive /\
    extracted platform archive (asset_name (rel_archive release)) = Ok binary /\
    reports_version binary (rel_version release) /\
    (execute "1" Install before).1 !! "/opt/bot" = Some binary).
Proof.
  split; [vm_compute; reflexivity|].
  apply (installed_only_verified (D:=deps) "/opt/bot" "/opt" "1" Install before
    (execute "1" Install before).1 (execute "1" Install before).2 eq_refl eq_refl demo_paths).
  by destruct (execute "1" Install before).
Defined.

Definition demo_release : @Release deps := MkRelease "2" archive_asset sums_asset.
Definition demo_platform : Platform := MkPlatform "x86_64-unknown-linux-gnu" TarGz.

Lemma execute_decision_witness :
  execute "1" Check before = (before, Ok (Available "1" "2")).
Proof.
  exact (proj1 (proj2 (proj2 (execute_decision (D:=deps) "1" before "1" demo_platform demo_release
    eq_refl eq_refl eq_refl eq_refl))) eq_refl eq_refl).
Defined.

Lemma download_bounded_witness :
  let '(d', r) := download_asset sums_asset "/tmp/d/SHA256SUMS" MAX_CHECKSUM_BYTES before in
  (forall p, p <> "/tmp/d/SHA256SUMS" -> d' !! p = before !! p) /\
  ((d' = before /\ exists e, r = Err e) \/
   exists bytes, d' !! "/tmp/d/SHA256SUMS" = Some bytes /\ (len bytes <= MAX_CHECKSUM_BYTES)%Z /\
     forall h, r = Ok h -> len bytes = asset_size sums_asset /\ h = sha256 bytes).
Proof. exact (download_bounded (D:=deps) sums_asset "/tmp/d/SHA256SUMS" MAX_CHECKSUM_BYTES before (proj1 limits_ok)). Defined.
End Demo.
