(* ===== verification/CodexMessage.v ===== *)
(** * [bot-provider-codex], [message.rs]: the line protocol of the app server

    Requests, notifications and responses as one JSON object per line.  The
    conversions that [#[derive(Serialize, Deserialize)]] generates for
    [RequestId] and [RemoteError] are a class of their own; a caller's [params]
    and [result] come with their [Serialize] as a function. *)

From S2P Require Import Prelude RustStr Json.

Section message.
Context `{J : SerdeJson}.

Inductive RequestId : Type := Number (value : Z) | IdString (value : string).

#[export] Instance RequestId_eq_dec : EqDecision RequestId.
Proof. solve_decision. Defined.

(** [From<u32>] *)
Definition RequestId_from_u32 (value : Z) : RequestId := Number value.

(** [Display] *)
Definition RequestId_display (id : RequestId) : string :=
  match id with Number value => pretty value | IdString value => value end.

Record RemoteError : Type := MkRemoteError {
  re_code : Z; re_message : string; re_data : option Value }.

Record ServerResponse : Type := MkServerResponse {
  sr_id : RequestId; outcome : result RemoteError Value }.

Record ServerNotification : Type := MkServerNotification {
  sn_method : string; sn_params : Value }.

Record ServerRequest : Type := MkServerRequest {
  rq_id : RequestId; rq_method : string; rq_params : Value }.

Inductive IncomingMessage : Type :=
| InResponse (r : ServerResponse)
| InNotification (n : ServerNotification)
| InRequest (r : ServerRequest).

Inductive ProtocolError : Type :=
| InvalidJson (e : SerdeError)
| ExpectedObject
| MissingField (name : string)
| InvalidField (name : string)
| InvalidResponse.

(** The [#[error(..)]] texts. *)
Definition ProtocolError_display (e : ProtocolError) : string :=
  match e with
  | InvalidJson e => "Codex sent invalid JSON: " +:+ error_to_string e
  | ExpectedObject => "Codex sent a message that is not an object"
  | MissingField f => "Codex message is missing `" +:+ f +:+ "`"
  | InvalidField f => "Codex message has an invalid `" +:+ f +:+ "`"
  | InvalidResponse => "Codex response must contain exactly one of `result` or `error`"
  end.

(** The generated conversions: [serde_json::to_value] and [from_value]. *)
Class MessageSerde := {
  id_to_value : RequestId -> result SerdeError Value;
  id_of_value : Value -> result SerdeError RequestId;
  error_to_value : RemoteError -> result SerdeError Value;
  error_of_value : Value -> result SerdeError RemoteError }.

(** They are inverse to each other, but for [data: Some(Null)], which reads
    back as [None]. *)
Class MessageSerdeLaws (S : MessageSerde) : Prop := {
  id_of_to : forall id v, id_to_value id = Ok v -> id_of_value v = Ok id;
  error_of_to : forall e v, re_data e <> Some VNull -> error_to_value e = Ok v ->
    error_of_value v = Ok e }.

Context `{S : MessageSerde}.

(** [?] on a [serde_json::Error] *)
Definition json {A} (r : result SerdeError A) : result ProtocolError A := map_err InvalidJson r.

Definition encode_object (object : Map) : result ProtocolError string :=
  line ← json (to_string (VObject object));
  Ok (line +:+ String LF "").

Section params.
Context {T : Type} (to_value : T -> result SerdeError Value).

(** The object [encode_request] builds. *)
Definition request_object (id : RequestId) (method : string) (params : T) : result ProtocolError Map :=
  id ← json (id_to_value id);
  params ← json (to_value params);
  Ok (map_insert "params" params (map_insert "method" (VString method) (map_insert "id" id map_new))).

Definition encode_request (id : RequestId) (method : string) (params : T) : result ProtocolError string :=
  object ← request_object id method params;
  encode_object object.

Definition notification_object (method : string) (params : T) : result ProtocolError Map :=
  params ← json (to_value params);
  Ok (map_insert "params" params (map_insert "method" (VString method) map_new)).

Definition encode_notification (method : string) (params : T) : result ProtocolError string :=
  object ← notification_object method params;
  encode_object object.

Definition response_object (id : RequestId) (res : T) : result ProtocolError Map :=
  id ← json (id_to_value id);
  res ← json (to_value res);
  Ok (map_insert "result" res (map_insert "id" id map_new)).

Definition encode_response (id : RequestId) (res : T) : result ProtocolError string :=
  object ← response_object id res;
  encode_object object.
End params.

Definition error_object (id : RequestId) (error : RemoteError) : result ProtocolError Map :=
  id ← json (id_to_value id);
  error ← json (error_to_value error);
  Ok (map_insert "error" error (map_insert "id" id map_new)).

Definition encode_error_response (id : RequestId) (error : RemoteError) : result ProtocolError string :=
  object ← error_object id error;
  encode_object object.

Definition parse_method (value : Value) : result ProtocolError string :=
  ok_or (InvalidField "method") (as_str value).

Definition parse_id (value : Value) : result ProtocolError RequestId :=
  map_err (fun _ => InvalidField "id") (id_of_value value).

Definition decode_request (method id : Value) (object : Map) : result ProtocolError IncomingMessage :=
  id ← parse_id id;
  method ← parse_method method;
  let params := unwrap_or VNull (map_remove "params" object).1 in
  Ok (InRequest (MkServerRequest id method params)).

Definition decode_notification (method : Value) (object : Map) : result ProtocolError IncomingMessage :=
  method ← parse_method method;
  let params := unwrap_or VNull (map_remove "params" object).1 in
  Ok (InNotification (MkServerNotification method params)).

Definition decode_response (id : Value) (object : Map) : result ProtocolError IncomingMessage :=
  let '(res, object) := map_remove "result" object in
  let '(error, object) := map_remove "error" object in
  outcome ← match res, error with
            | Some res, None => Ok (Ok res)
            | None, Some error => error ← json (error_of_value error); Ok (Err error)
            | _, _ => Err InvalidResponse
            end;
  id ← parse_id id;
  Ok (InResponse (MkServerResponse id outcome)).

Definition decode_line (line : string) : result ProtocolError IncomingMessage :=
  value ← json (from_str line);
  object ← ok_or ExpectedObject (as_object value);
  let '(method, object) := map_remove "method" object in
  let '(id, object) := map_remove "id" object in
  match method, id with
  | Some method, Some id => decode_request method id object
  | Some method, None => decode_notification method object
  | None, Some id => decode_response id object
  | None, None => Err (MissingField "method or id")
  end.

(** ** Lemmas *)

Lemma json_ok {A} (r : result SerdeError A) a : json r = Ok a <-> r = Ok a.
Proof. destruct r; cbn; intuition congruence. Qed.

(** The text form of a value is read back as that value. *)
Definition faithful_text (v : Value) : Prop := forall s, to_string v = Ok s -> from_str s = Ok v.

Context {L : SerdeLaws J} {LS : MessageSerdeLaws S}.

Lemma encode_object_ok object line :
  encode_object object = Ok line ->
  exists s, to_string (VObject object) = Ok s /\ line = s +:+ String LF "".
Proof.
  unfold encode_object. intros (s&E%json_ok&[= <-])%result_bind_ok. eauto.
Qed.

(** What [decode_line] sees of an object that was sent. *)
Lemma decode_encoded object line :
  encode_object object = Ok line -> faithful_text (VObject object) ->
  decode_line line =
    match map_get "method" object, map_get "id" object with
    | Some method, Some id => decode_request method id (map_remove "id" (map_remove "method" object).2).2
    | Some method, None => decode_notification method (map_remove "id" (map_remove "method" object).2).2
    | None, Some id => decode_response id (map_remove "id" (map_remove "method" object).2).2
    | None, None => Err (MissingField "method or id")
    end.
Proof.
  intros (s&E&->)%encode_object_ok F. unfold decode_line.
  rewrite (from_str_newline _ _ (F _ E)). cbn. rewrite as_object_object. cbn.
  destruct (map_remove "method" object) as [m o1] eqn:E1.
  destruct (map_remove "id" o1) as [i o2] eqn:E2.
  assert (m = map_get "method" object) as <- by (by rewrite <- map_remove_get, E1).
  assert (i = map_get "id" object) as <-.
  { replace o1 with ((map_remove "method" object).2) in E2 by by rewrite E1.
    rewrite <- (map_get_remove_ne "id" "method") by done.
    by rewrite <- map_remove_get, E2. }
  cbn. by rewrite E2.
Qed.

Lemma removed_get k object :
  k <> "id" -> k <> "method" ->
  (map_remove k (map_remove "id" (map_remove "method" object).2).2).1 = map_get k object.
Proof. intros ??. by rewrite map_remove_get, !map_get_remove_ne. Qed.

Lemma decode_response_get id object :
  decode_response id object =
    (outcome ← match map_get "result" object, map_get "error" object with
               | Some res, None => Ok (Ok res)
               | None, Some error => error ← json (error_of_value error); Ok (Err error)
               | _, _ => Err InvalidResponse
               end;
     id ← parse_id id;
     Ok (InResponse (MkServerResponse id outcome))).
Proof.
  unfold decode_response. rewrite <- map_remove_get.
  rewrite <- (map_get_remove_ne "error" "result") by done.
  destruct (map_remove "result" object) as [r o1]. cbn.
  rewrite <- (map_remove_get "error" o1). by destruct (map_remove "error" o1).
Qed.

#[local] Hint Rewrite map_get_insert map_get_new : json.
#[local] Hint Rewrite map_get_insert_ne using done : json.

Lemma parse_id_sent id v : id_to_value id = Ok v -> parse_id v = Ok id.
Proof. intros H. unfold parse_id. by rewrite (id_of_to _ _ H). Qed.

(** The reader decodes every encoded request and notification to exactly
    the id, method and parameters that were sent. *)
Theorem calls_roundtrip {T} (to_value : T -> result SerdeError Value) id method (params : T) line :
  (encode_request to_value id method params = Ok line ->
   (forall object, request_object to_value id method params = Ok object ->
      faithful_text (VObject object)) ->
   exists v, to_value params = Ok v /\
     decode_line line = Ok (InRequest (MkServerRequest id method v))) /\
  (encode_notification to_value method params = Ok line ->
   (forall object, notification_object to_value method params = Ok object ->
      faithful_text (VObject object)) ->
   exists v, to_value params = Ok v /\
     decode_line line = Ok (InNotification (MkServerNotification method v))).
Proof.
  split.
  - intros (o&Eo&Ee)%result_bind_ok F. pose proof (F _ Eo) as Ft.
    apply result_bind_ok in Eo as (i&Ei%json_ok&(v&Ev%json_ok&[= <-])%result_bind_ok).
    exists v. split; [done|]. rewrite (decode_encoded _ _ Ee Ft). autorewrite with json.
    unfold decode_request. rewrite (parse_id_sent _ _ Ei), removed_get by done. cbn.
    unfold parse_method. rewrite as_str_string. cbn. by autorewrite with json.
  - intros (o&Eo&Ee)%result_bind_ok F. pose proof (F _ Eo) as Ft.
    apply result_bind_ok in Eo as (v&Ev%json_ok&[= <-]).
    exists v. split; [done|]. rewrite (decode_encoded _ _ Ee Ft). autorewrite with json.
    unfold decode_notification. rewrite removed_get by done.
    unfold parse_method. rewrite as_str_string. cbn. by autorewrite with json.
Qed.

(** The reader decodes every encoded response to the id and the result that
    were sent, and every error response to the id and the error, whose data is
    not an explicit null. *)
Theorem replies_roundtrip {T} (to_value : T -> result SerdeError Value) id (res : T) error line :
  (encode_response to_value id res = Ok line ->
   (forall object, response_object to_value id res = Ok object -> faithful_text (VObject object)) ->
   exists v, to_value res = Ok v /\
     decode_line line = Ok (InResponse (MkServerResponse id (Ok v)))) /\
  (encode_error_response id error = Ok line ->
   (forall object, error_object id error = Ok object -> faithful_text (VObject object)) ->
   re_data error <> Some VNull ->
   decode_line line = Ok (InResponse (MkServerResponse id (Err error)))).
Proof.
  assert (G : forall o, map_get "result" (map_remove "id" (map_remove "method" o).2).2 = map_get "result" o /\
                        map_get "error" (map_remove "id" (map_remove "method" o).2).2 = map_get "error" o).
  { intros o. by rewrite !map_get_remove_ne. }
  split.
  - intros (o&Eo&Ee)%result_bind_ok F. pose proof (F _ Eo) as Ft.
    apply result_bind_ok in Eo as (i&Ei%json_ok&(v&Ev%json_ok&[= <-])%result_bind_ok).
    exists v. split; [done|]. rewrite (decode_encoded _ _ Ee Ft). autorewrite with json.
    rewrite decode_response_get, (proj1 (G _)), (proj2 (G _)). autorewrite with json.
    cbn. by rewrite (parse_id_sent _ _ Ei).
  - intros (o&Eo&Ee)%result_bind_ok F N. pose proof (F _ Eo) as Ft.
    apply result_bind_ok in Eo as (i&Ei%json_ok&(v&Ev%json_ok&[= <-])%result_bind_ok).
    rewrite (decode_encoded _ _ Ee Ft). autorewrite with json.
    rewrite decode_response_get, (proj1 (G _)), (proj2 (G _)). autorewrite with json.
    cbn. rewrite (error_of_to _ _ N Ev). cbn. by rewrite (parse_id_sent _ _ Ei).
Qed.

(** A line is accepted only as what its fields say: a request has a string
    method and an id, a notification a string method and no id, a response an
    id, no method, and exactly one of result and error; every other line is
    rejected with an error. *)
Theorem decode_line_sound line m :
  decode_line line = Ok m ->
  exists v o, from_str line = Ok v /\ as_object v = Some o /\
  match m with
  | InRequest r => exists mv iv, map_get "method" o = Some mv /\ as_str mv = Some (rq_method r) /\
      map_get "id" o = Some iv /\ id_of_value iv = Ok (rq_id r) /\
      rq_params r = unwrap_or VNull (map_get "params" o)
  | InNotification n => exists mv, map_get "method" o = Some mv /\ as_str mv = Some (sn_method n) /\
      map_get "id" o = None /\ sn_params n = unwrap_or VNull (map_get "params" o)
  | InResponse r => exists iv, map_get "method" o = None /\
      map_get "id" o = Some iv /\ id_of_value iv = Ok (sr_id r) /\
      match outcome r with
      | Ok res => map_get "result" o = Some res /\ map_get "error" o = None
      | Err e => exists ev, map_get "error" o = Some ev /\ error_of_value ev = Ok e /\
                   map_get "result" o = None
      end
  end.
Proof.
  unfold decode_line. intros (v&Ev%json_ok&(o&Eo%ok_or_ok&H)%result_bind_ok)%result_bind_ok.
  exists v, o. split_and!; [done..|].
  pose proof (map_remove_get "method" o) as Gm.
  pose proof (map_remove_get "id" (map_remove "method" o).2) as Gi.
  rewrite map_get_remove_ne in Gi by done.
  pose proof (removed_get "params" o ltac:(done) ltac:(done)) as Gp.
  assert (Gr : map_get "result" (map_remove "id" (map_remove "method" o).2).2 = map_get "result" o)
    by by rewrite !map_get_remove_ne.
  assert (Ge : map_get "error" (map_remove "id" (map_remove "method" o).2).2 = map_get "error" o)
    by by rewrite !map_get_remove_ne.
  destruct (map_remove "method" o) as [mv o1]. cbn in *.
  destruct (map_remove "id" o1) as [iv o2]. cbn in *. rewrite <- Gm, <- Gi.
  assert (P : forall w x, parse_id w = Ok x -> id_of_value w = Ok x).
  { intros w x. unfold parse_id. by destruct (id_of_value w); cbn; intros [=->]. }
  destruct mv as [mv|], iv as [iv|]; [..|done].
  - apply result_bind_ok in H as (i&Ei%P&(s&Es%ok_or_ok&[= <-])%result_bind_ok).
    exists mv, iv. cbn. by rewrite Gp.
  - apply result_bind_ok in H as (s&Es%ok_or_ok&[= <-]).
    exists mv. cbn. by rewrite Gp.
  - rewrite decode_response_get, Gr, Ge in H.
    apply result_bind_ok in H as (out&Eout&(i&Ei%P&[= <-])%result_bind_ok).
    exists iv. split_and!; [done..|]. cbn.
    destruct (map_get "result" o) as [r|], (map_get "error" o) as [e|]; try done.
    + by injection Eout as <-.
    + apply result_bind_ok in Eout as (x&Ex%json_ok&[= <-]). eauto.
Qed.
End message.

(** ** The laws can hold *)

Module TreeMessage.
Import Tree.
#[local] Existing Instance Tree.serde.
#[local] Existing Instance Tree.serde_laws.

Definition error_fields (e : RemoteError) : list tree :=
  [GenLeaf (inl "code"); GenLeaf (inr (re_code e)); GenLeaf (inl "message"); GenLeaf (inl (re_message e))]
  ++ match re_data e with Some v => [GenLeaf (inl "data"); v] | None => [] end.

#[local] Instance message_serde : MessageSerde := {|
  id_to_value id := Ok (match id with Number z => GenLeaf (inr z) | IdString s => GenLeaf (inl s) end);
  id_of_value v := match v with
                   | GenLeaf (inr z) => Ok (Number z) | GenLeaf (inl s) => Ok (IdString s)
                   | _ => Err "invalid id" end;
  error_to_value e := Ok (GenNode 4 (error_fields e));
  error_of_value v :=
    match v with
    | GenNode 4 [_; GenLeaf (inr c); _; GenLeaf (inl m)] => Ok (MkRemoteError c m None)
    | GenNode 4 [_; GenLeaf (inr c); _; GenLeaf (inl m); _; GenNode 0 []] => Ok (MkRemoteError c m None)
    | GenNode 4 [_; GenLeaf (inr c); _; GenLeaf (inl m); _; d] => Ok (MkRemoteError c m (Some d))
    | _ => Err "invalid error"
    end |}.

#[local] Instance message_serde_laws : MessageSerdeLaws message_serde.
Proof.
  split.
  - by intros [z|s] v [= <-].
  - intros [c m [d|]] v N [= <-]; cbn; [|done].
    destruct d as [x|[|n] [|d1 l]]; try done.
Qed.

Lemma faithful v : faithful_text v.
Proof. intros s [= <-]. destruct (from_to v) as (s&[= <-]&E). exact E. Qed.

Definition demo_params : @Value serde := GenNode 4 [GenLeaf (inl "threadId"); GenLeaf (inl "t1")].

Definition demo_error : @RemoteError serde := MkRemoteError (-32601) "unknown method" None.

(** Encoding to the concrete text form always succeeds. *)
Lemma encodes (id : RequestId) (m : string) (v : Value) (e : RemoteError) :
  (exists l, encode_request Ok id m v = Ok l) /\ (exists l, encode_notification Ok m v = Ok l) /\
  (exists l, encode_response Ok id v = Ok l) /\ (exists l, encode_error_response id e = Ok l).
Proof.
  split_and!; eexists;
    unfold encode_request, encode_notification, encode_response, encode_error_response,
      request_object, notification_object, response_object, error_object, json, map_err;
    reflexivity.
Qed.

Lemma calls_roundtrip_witness :
  (exists line, encode_request Ok (Number 1) "thread/resume" demo_params = Ok line /\
    decode_line line = Ok (InRequest (MkServerRequest (Number 1) "thread/resume" demo_params))) /\
  (exists line, encode_notification Ok "initialized" demo_params = Ok line /\
    decode_line line = Ok (InNotification (MkServerNotification "initialized" demo_params))).
Proof.
  destruct (encodes (Number 1) "thread/resume" demo_params demo_error) as ((l&E)&_).
  destruct (encodes (Number 1) "initialized" demo_params demo_error) as (_&(l'&E')&_).
  split.
  - exists l. split; [exact E|].
    destruct (proj1 (calls_roundtrip Ok (Number 1) "thread/resume" demo_params l)
      E (fun o _ => faithful _)) as (v&[= <-]&D). exact D.
  - exists l'. split; [exact E'|].
    destruct (proj2 (calls_roundtrip Ok (Number 1) "initialized" demo_params l')
      E' (fun o _ => faithful _)) as (v&[= <-]&D). exact D.
Defined.

Lemma replies_roundtrip_witness :
  (exists line, encode_response Ok (IdString "r") demo_params = Ok line /\
    decode_line line = Ok (InResponse (MkServerResponse (IdString "r") (Ok demo_params)))) /\
  (exists line, encode_error_response (Number 7) demo_error = Ok line /\
    decode_line line = Ok (InResponse (MkServerResponse (Number 7) (Err demo_error)))).
Proof.
  destruct (encodes (IdString "r") "" demo_params demo_error) as (_&_&(l&E)&_).
  destruct (encodes (Number 7) "" demo_params demo_error) as (_&_&_&(l'&E')).
  split.
  - exists l. split; [exact E|].
    destruct (proj1 (replies_roundtrip Ok (IdString "r") demo_params demo_error l)
      E (fun o _ => faithful _)) as (v&[= <-]&D). exact D.
  - exists l'. split; [exact E'|].
    apply (proj2 (replies_roundtrip Ok (Number 7) demo_params demo_error l')
      E' (fun o _ => faithful _)). done.
Defined.

Lemma decode_line_sound_witness :
  exists line, encode_notification Ok "initialized" demo_params = Ok line /\
  exists v o, from_str line = Ok v /\ as_object v = Some o /\
    exists mv, map_get "method" o = Some mv /\ as_str mv = Some "initialized" /\
      map_get "id" o = None /\ demo_params = unwrap_or VNull (map_get "params" o).
Proof.
  destruct (encodes (Number 1) "initialized" demo_params demo_error) as (_&(l&E)&_).
  exists l. split; [exact E|].
  apply (decode_line_sound l (InNotification (MkServerNotification "initialized" demo_params))).
  apply result_bind_ok in E as (o&[= <-]&E).
  rewrite (decode_encoded _ _ E (faithful _)). reflexivity.
Defined.
End TreeMessage.
