(* ===== verification/CodexDiff.v ===== *)
(** * [bot-provider-codex], [diff.rs]: unified diffs of a turn

    Splitting the diff of a turn into files and a file's diff into hunks with
    the text before and after the change. *)

From S2P Require Import Prelude RustStr.

Record CodexFileDiff : Type := MkCodexFileDiff { fd_path : string; fd_diff : string }.

Record CodexDiffDetail : Type := MkCodexDiffDetail {
  old_string : string; old_line : Z; new_string : string; new_line : Z;
  context_before : string; context_after : string; line_prefix : string }.

Inductive LineKind : Type := Context | Delete | Insert.

#[export] Instance LineKind_eq_dec : EqDecision LineKind.
Proof. solve_decision. Defined.

Record HunkLine : Type := MkHunkLine { hl_kind : LineKind; hl_text : string }.

(** [Iterator::position] and [rposition] *)
Fixpoint position {A} (p : A -> bool) (l : list A) : option nat :=
  match l with [] => None | x :: l' => if p x then Some 0%nat else S <$> position p l' end.

Fixpoint rposition {A} (p : A -> bool) (l : list A) : option nat :=
  match l with
  | [] => None
  | x :: l' => match rposition p l' with
               | Some i => Some (S i)
               | None => if p x then Some 0%nat else None
               end
  end.

Definition is_change (l : HunkLine) : bool := bool_decide (hl_kind l <> Context).

Definition join_text (ls : list HunkLine) (include : LineKind -> bool) : string :=
  concat_str (hl_text <$> List.filter (fun l => include (hl_kind l)) ls).

Definition not_insert (k : LineKind) : bool := bool_decide (k <> Insert).
Definition not_delete (k : LineKind) : bool := bool_decide (k <> Delete).

Definition finish_hunk (hunk : Z * Z * list HunkLine) : option CodexDiffDetail :=
  let '(old_start, new_start, ls) := hunk in
  first ← position is_change ls;
  last ← rposition is_change ls;
  let context_before := join_text (take first ls) (fun _ => true) in
  let context_after := join_text (drop (last + 1) ls) (fun _ => true) in
  let body := take (last + 1 - first) (drop first ls) in
  let old_string := join_text body not_insert in
  let new_string := join_text body not_delete in
  Some (MkCodexDiffDetail old_string (sat_add usize_max old_start (Z.of_nat first))
          new_string (sat_add usize_max new_start (Z.of_nat first))
          context_before context_after "").

Definition parse_range_start (value : string) : option Z :=
  first ← head (split_char "," value);
  parse_usize first.

Definition parse_hunk_header (line : string) : option (Z * Z) :=
  body ← strip_prefix "@@ -" line;
  '(old, body) ← split_once " +" body;
  '(new, _) ← split_once " @@" body;
  old ← parse_range_start old;
  new ← parse_range_start new;
  Some (old, new).

(** A line of the body of a hunk, [None] when it is skipped. *)
Definition hunk_line (line : string) : option HunkLine :=
  '(prefix, text) ← split_at_checked 1 line;
  if prefix =s? " " then Some (MkHunkLine Context text)
  else if prefix =s? "-" then Some (MkHunkLine Delete text)
  else if prefix =s? "+" then Some (MkHunkLine Insert text)
  else None.

(** [details] and [current] of the loop. *)
Definition diff_state : Type := list CodexDiffDetail * option (Z * Z * list HunkLine).

Definition push_hunk (details : list CodexDiffDetail) (current : option (Z * Z * list HunkLine))
  : list CodexDiffDetail :=
  match current ≫= finish_hunk with Some hunk => details ++ [hunk] | None => details end.

Definition diff_line (st : diff_state) (line : string) : diff_state :=
  let '(details, current) := st in
  match parse_hunk_header line with
  | Some (old, new) => (push_hunk details current, Some (old, new, []))
  | None =>
      match current with
      | None => (details, None)
      | Some (old, new, ls) =>
          match hunk_line line with
          | None => (details, current)
          | Some l => (details, Some (old, new, ls ++ [l]))
          end
      end
  end.

Definition parse_unified_diff (diff : string) : list CodexDiffDetail :=
  let '(details, current) := foldl diff_line ([], None) (split_inclusive LF diff) in
  push_hunk details current.

Definition header_path (diff prefix : string) : option string :=
  value ← find_map (strip_prefix prefix) (lines diff);
  if value =s? "/dev/null" then Some value
  else
    value ← or_else (strip_prefix "a/" value) (strip_prefix "b/" value);
    then_some (negb (is_empty value)) value.

Definition diff_path (diff : string) : option string :=
  let new_path := header_path diff "+++ " in
  if bool_decide (new_path <> Some "/dev/null") then new_path
  else ofilter (fun path => negb (path =s? "/dev/null")) (header_path diff "--- ").

(** [sections] and [current] of the loop. *)
Definition section_line (st : list string * string) (line : string) : list string * string :=
  let '(sections, current) := st in
  let '(sections, current) :=
    if starts_with "diff --git " line && negb (is_empty current)
    then (sections ++ [current], "") else (sections, current) in
  (sections, current +:+ line).

Definition turn_sections (diff : string) : list string :=
  let '(sections, current) := foldl section_line ([], "") (split_inclusive LF diff) in
  if negb (is_empty current) then sections ++ [current] else sections.

Definition file_of_section (diff : string) : option CodexFileDiff :=
  path ← diff_path diff;
  Some (MkCodexFileDiff path diff).

Definition split_turn_diff (diff : string) : list CodexFileDiff :=
  filter_map file_of_section (turn_sections diff).

(** ** Hunks *)

Lemma position_none {A} (p : A -> bool) l : position p l = None <-> forall x, x ∈ l -> p x = false.
Proof.
  induction l as [|x l IH]; cbn; [split; [by intros _ ? ?%elem_of_nil|done]|].
  setoid_rewrite elem_of_cons. destruct (p x) eqn:E.
  - split; [done|]. intros H. rewrite H in E by by left. done.
  - rewrite fmap_None, IH. split; [|by auto]. intros H y [->|Hy]; auto.
Qed.

Lemma position_some {A} (p : A -> bool) l i : position p l = Some i ->
  exists l1 x l2, l = l1 ++ x :: l2 /\ length l1 = i /\ p x = true /\ forall y, y ∈ l1 -> p y = false.
Proof.
  revert i. induction l as [|x l IH]; intros i; cbn; [done|]. destruct (p x) eqn:E.
  - intros [= <-]. exists [], x, l. split_and!; [done..|]. by intros y ?%elem_of_nil.
  - intros (j&H&[= ->])%fmap_Some. destruct (IH _ H) as (l1&z&l2&->&<-&?&?).
    exists (x :: l1), z, l2. split_and!; [done..|]. intros y [->|?]%elem_of_cons; auto.
Qed.

Lemma rposition_last {A} (p : A -> bool) l1 x l2 :
  p x = true -> (forall y, y ∈ l2 -> p y = false) -> rposition p (l1 ++ x :: l2) = Some (length l1).
Proof.
  intros Hx H2. assert (N : rposition p l2 = None).
  { induction l2 as [|y l2 IH]; cbn; [done|]. rewrite IH.
    - by rewrite H2 by by left.
    - intros z Hz. apply H2. by right. }
  induction l1 as [|y l1 IH]; cbn; [by rewrite N, Hx|by rewrite IH].
Qed.

(** The last element that satisfies [p]. *)
Lemma split_last {A} (p : A -> bool) l : (exists x, x ∈ l /\ p x = true) ->
  exists l1 x l2, l = l1 ++ x :: l2 /\ p x = true /\ forall y, y ∈ l2 -> p y = false.
Proof.
  intros (x&Hx&Px). induction l as [|y l IH] using rev_ind; [by apply elem_of_nil in Hx|].
  destruct (p y) eqn:E.
  - exists l, y, []. split_and!; [done..|]. by intros ? ?%elem_of_nil.
  - apply elem_of_app in Hx as [Hx|Hx%list_elem_of_singleton]; [|congruence].
    destruct (IH Hx) as (l1&z&l2&->&?&H). exists l1, z, (l2 ++ [y]).
    split_and!; [by rewrite <- app_assoc|done|].
    intros w [?|Hw%list_elem_of_singleton]%elem_of_app; [auto|congruence].
Qed.

(** The lines of a hunk as the context before, the changed body and the context
    after. *)
Definition hunk_split (ls before body after : list HunkLine) : Prop :=
  ls = before ++ body ++ after /\
  (forall l, l ∈ before \/ l ∈ after -> hl_kind l = Context) /\
  (exists l, head body = Some l /\ hl_kind l <> Context) /\
  (exists l, list.last body = Some l /\ hl_kind l <> Context).

Lemma is_change_false l : is_change l = false <-> hl_kind l = Context.
Proof. unfold is_change. rewrite bool_decide_eq_false. split; [apply dec_stable|intros -> H; by apply H]. Qed.

Lemma is_change_true l : is_change l = true <-> hl_kind l <> Context.
Proof. unfold is_change. by rewrite bool_decide_eq_true. Qed.

Lemma finish_hunk_some old new ls d : finish_hunk (old, new, ls) = Some d ->
  exists before body after, hunk_split ls before body after /\
    d = MkCodexDiffDetail (join_text body not_insert) (sat_add usize_max old (Z.of_nat (length before)))
          (join_text body not_delete) (sat_add usize_max new (Z.of_nat (length before)))
          (concat_str (hl_text <$> before)) (concat_str (hl_text <$> after)) "".
Proof.
  unfold finish_hunk. destruct (position is_change ls) as [f|] eqn:Ef; [|done]. cbn [mbind option_bind].
  destruct (position_some _ _ _ Ef) as (b&x&r&->&<-&Hx&Hb).
  destruct (split_last is_change (x :: r)) as (m&y&a&E&Hy&Ha); [exists x; split; [by left|done]|].
  rewrite E, app_assoc, rposition_last by done. cbn [mbind option_bind]. intros [= <-].
  exists b, (m ++ [y]), a. split.
  - split_and!.
    + by rewrite <- !app_assoc.
    + intros l [H|H]; apply is_change_false; auto.
    + exists x. split; [|by apply is_change_true].
      destruct m as [|z m]; cbn in *; by injection E as <- _.
    + exists y. split; [by rewrite last_snoc|by apply is_change_true].
  - assert (F : forall k, List.filter (fun _ : HunkLine => true) k = k).
    { induction k as [|z k IH]; cbn; [done|by rewrite IH]. }
    rewrite length_app. f_equal.
    all: unfold join_text; rewrite ?F; repeat f_equal; rewrite <- ?app_assoc.
    all: rewrite ?drop_app_length, ?take_app_length; try done.
    all: try (replace (length b + length m + 1 - length b)%nat with (length (m ++ [y]))
                by (rewrite length_app; cbn; lia);
              change (m ++ y :: a) with (m ++ [y] ++ a); by rewrite app_assoc, take_app_length).
    replace (length b + length m + 1)%nat with (length (b ++ m ++ [y]))
      by (rewrite !length_app; cbn; lia).
    replace (b ++ m ++ y :: a) with ((b ++ m ++ [y]) ++ a) by by rewrite <- !app_assoc.
    by rewrite drop_app_length.
Qed.

Lemma join_text_app l k inc : join_text (l ++ k) inc = join_text l inc +:+ join_text k inc.
Proof. unfold join_text. by rewrite List.filter_app, fmap_app, concat_str_app. Qed.

Lemma join_text_context l inc : inc Context = true -> (forall x, x ∈ l -> hl_kind x = Context) ->
  join_text l inc = concat_str (hl_text <$> l).
Proof.
  intros Hi. unfold join_text. induction l as [|x l IH]; intros H; [done|]. cbn.
  rewrite (H x), Hi by by left. cbn. rewrite IH; [done|]. intros y Hy. apply H. by right.
Qed.

(** A finished hunk splits its lines into the context before, a body that
    starts and ends with a change, and the context after; the line numbers
    count the context before; and the context put around the old text is the
    file before the change, around the new text the file after it.  A hunk is
    dropped exactly when it changes nothing. *)
Theorem finish_hunk_sides old new ls :
  match finish_hunk (old, new, ls) with
  | None => forall l, l ∈ ls -> hl_kind l = Context
  | Some d => exists before body after, hunk_split ls before body after /\
      old_line d = sat_add usize_max old (Z.of_nat (length before)) /\
      new_line d = sat_add usize_max new (Z.of_nat (length before)) /\
      context_before d +:+ old_string d +:+ context_after d = join_text ls not_insert /\
      context_before d +:+ new_string d +:+ context_after d = join_text ls not_delete
  end.
Proof.
  destruct (finish_hunk (old, new, ls)) as [d|] eqn:E.
  - destruct (finish_hunk_some _ _ _ _ E) as (b&m&a&S&->). exists b, m, a.
    split_and!; [done..| |]; cbn; destruct S as (->&C&_); rewrite !join_text_app;
      rewrite (join_text_context b), (join_text_context a); auto.
  - unfold finish_hunk in E. intros l Hl. apply is_change_false.
    destruct (position is_change ls) as [f|] eqn:Ef; [exfalso|by apply (proj1 (position_none _ _) Ef)].
    destruct (position_some _ _ _ Ef) as (b&x&r&->&_&Hx&_). cbn in E.
    destruct (split_last is_change (b ++ x :: r)) as (m&y&a&E2&?&?).
    { exists x. split; [|done]. apply elem_of_app. right. by left. }
    rewrite E2, rposition_last in E by done. done.
Qed.

(** ** Reading back rendered hunks *)

Definition no_lf (s : string) : bool := sall (fun a => negb (byte_eqb a LF)) s.

(** A complete line: its only line feed ends it. *)
Definition is_line (l : string) : Prop := exists t, no_lf t = true /\ l = t +:+ String LF "".

Lemma split_inclusive_lines ls : Forall is_line ls -> split_inclusive LF (concat_str ls) = ls.
Proof.
  induction 1 as [|l ls (t&Ht&->) _ IH]; [done|]. cbn [concat_str].
  rewrite sapp_assoc, sapp_cons, sapp_nil_l, split_inclusive_piece by exact Ht. by rewrite IH.
Qed.

Definition prefix_of (k : LineKind) : ascii :=
  match k with Context => " " | Delete => "-" | Insert => "+" end.

Definition render_line (l : HunkLine) : string := String (prefix_of (hl_kind l)) (hl_text l).

(** A hunk as [diff -u] prints it: both ranges with their counts, an optional
    section heading, the lines. *)
Record Hunk : Type := MkHunk {
  h_old : Z; h_old_count : Z; h_new : Z; h_new_count : Z; h_heading : string;
  h_lines : list HunkLine }.

Definition render_header (h : Hunk) : string :=
  "@@ -" +:+ (dec (h_old h) +:+ "," +:+ dec (h_old_count h)) +:+ " +"
  +:+ (dec (h_new h) +:+ "," +:+ dec (h_new_count h)) +:+ " @@" +:+ h_heading h +:+ String LF "".

Definition render_hunk (h : Hunk) : list string := render_header h :: (render_line <$> h_lines h).

Definition hunk_ok (h : Hunk) : Prop :=
  (0 <= h_old h <= usize_max)%Z /\ (0 <= h_new h <= usize_max)%Z /\ no_lf (h_heading h) = true /\
  Forall (fun l => is_line (hl_text l) /\ utf8 (hl_text l) = true) (h_lines h).

Lemma parse_range_start_rendered n c : (0 <= n <= usize_max)%Z ->
  parse_range_start (dec n +:+ "," +:+ dec c) = Some n.
Proof.
  intros Hn. unfold parse_range_start. rewrite sapp_cons, sapp_nil_l, split_char_piece.
  - cbn. by apply parse_unsigned_dec.
  - apply (sall_impl is_digit); [|apply dec_digits].
    intros a Ha. destruct (byte_eqb_spec a ","); [by subst|done].
Qed.

Lemma parse_rendered_header h : hunk_ok h -> parse_hunk_header (render_header h) = Some (h_old h, h_new h).
Proof.
  intros (Ho&Hn&_). unfold parse_hunk_header, render_header. rewrite strip_prefix_app. cbn [mbind option_bind].
  assert (S : forall a b, sall (fun c => negb (byte_eqb " " c)) (dec a +:+ "," +:+ dec b) = true).
  { intros a b. rewrite !sall_app. apply andb_true_iff; split; [|apply andb_true_iff; split; [done|]];
      (apply (sall_impl is_digit); [|apply dec_digits]);
      intros c Hc; destruct (byte_eqb_spec " " c); by subst. }
  rewrite split_once_app by apply S. cbn [mbind option_bind].
  rewrite split_once_app by apply S. cbn [mbind option_bind].
  by rewrite !parse_range_start_rendered.
Qed.

Lemma render_line_not_header l : parse_hunk_header (render_line l) = None.
Proof. unfold render_line. by destruct (hl_kind l). Qed.

Lemma hunk_line_rendered l : is_line (hl_text l) -> utf8 (hl_text l) = true ->
  hunk_line (render_line l) = Some l.
Proof.
  intros (t&_&E) U. unfold hunk_line, render_line, split_at_checked.
  assert (B : is_char_boundary (String (prefix_of (hl_kind l)) (hl_text l)) 1 = true).
  { by apply boundary_cons; [left|]. }
  rewrite B. cbn [mbind option_bind stake sdrop].
  destruct l as [k x]. cbn in *. destruct x as [|a x]; [by destruct t|].
  by destruct k.
Qed.

Lemma read_lines details old new acc ls :
  Forall (fun l => is_line (hl_text l) /\ utf8 (hl_text l) = true) ls ->
  foldl diff_line (details, Some (old, new, acc)) (render_line <$> ls)
  = (details, Some (old, new, acc ++ ls)).
Proof.
  intros H. revert acc. induction H as [|l ls [Hl Hu] _ IH]; intros acc; cbn [fmap list_fmap foldl].
  - by rewrite app_nil_r.
  - unfold diff_line at 2. rewrite render_line_not_header, hunk_line_rendered by done.
    rewrite IH. by rewrite <- app_assoc.
Qed.

Lemma read_hunk details current h : hunk_ok h ->
  foldl diff_line (details, current) (render_hunk h)
  = (push_hunk details current, Some (h_old h, h_new h, h_lines h)).
Proof.
  intros H. unfold render_hunk. cbn [foldl]. unfold diff_line at 2.
  rewrite parse_rendered_header by done. by rewrite read_lines by apply H.
Qed.

Lemma read_hunks details current hs :
  Forall hunk_ok hs ->
  (let '(d, c) := foldl diff_line (details, current) (hs ≫= render_hunk) in push_hunk d c)
  = push_hunk details current ++ filter_map (fun h => finish_hunk (h_old h, h_new h, h_lines h)) hs.
Proof.
  intros H. revert details current. induction H as [|h hs Hh _ IH]; intros details current.
  - cbn. by rewrite app_nil_r.
  - rewrite bind_cons, foldl_app, read_hunk, IH by done.
    cbn [filter_map]. unfold push_hunk at 1. cbn [mbind option_bind].
    destruct (finish_hunk _); [by rewrite <- app_assoc|done].
Qed.

Lemma skip_preamble ls : Forall (fun l => parse_hunk_header l = None) ls ->
  foldl diff_line ([], None) ls = ([], None).
Proof. induction 1 as [|l ls H _ IH]; [done|]. cbn [foldl]. unfold diff_line at 2. by rewrite H. Qed.

Lemma render_line_is_line l : is_line (hl_text l) -> is_line (render_line l).
Proof.
  intros (t&Ht&E). exists (String (prefix_of (hl_kind l)) t). unfold render_line. rewrite E, sapp_cons.
  split; [|done]. unfold no_lf in *. cbn [sall]. rewrite Ht. by destruct (hl_kind l).
Qed.

Lemma dec_no_lf n : no_lf (dec n) = true.
Proof.
  apply (sall_impl is_digit); [|apply dec_digits]. intros c Hc. by destruct (byte_eqb_spec c LF); subst.
Qed.

Lemma render_hunk_lines h : hunk_ok h -> Forall is_line (render_hunk h).
Proof.
  intros (_&_&Hh&Hl). unfold render_hunk. constructor.
  - exists ("@@ -" +:+ (dec (h_old h) +:+ "," +:+ dec (h_old_count h)) +:+ " +"
      +:+ (dec (h_new h) +:+ "," +:+ dec (h_new_count h)) +:+ " @@" +:+ h_heading h).
    split; [|unfold render_header; by rewrite !sapp_assoc].
    unfold no_lf in *. rewrite !sall_app, Hh. rewrite !(dec_no_lf _ : sall _ _ = true). done.
  - apply Forall_fmap. eapply List.Forall_impl; [|exact Hl]. intros l [? _]. by apply render_line_is_line.
Qed.

(** A diff rendered from hunks parses back to exactly those hunks, in order,
    each with its own line numbers and lines, whatever header lines come before
    the first hunk; only hunks without a change are left out. *)
Theorem parse_rendered_diff (preamble : list string) (hs : list Hunk) :
  Forall (fun l => is_line l /\ parse_hunk_header l = None) preamble ->
  Forall hunk_ok hs ->
  parse_unified_diff (concat_str (preamble ++ (hs ≫= render_hunk)))
  = filter_map (fun h => finish_hunk (h_old h, h_new h, h_lines h)) hs.
Proof.
  intros Hp Hh. unfold parse_unified_diff. rewrite split_inclusive_lines.
  - rewrite foldl_app, skip_preamble by (eapply List.Forall_impl; [|exact Hp]; by intros ? []).
    by rewrite read_hunks.
  - apply Forall_app. split; [eapply List.Forall_impl; [|exact Hp]; by intros ? []|].
    apply Forall_bind. eapply List.Forall_impl; [|exact Hh]. intros h. apply render_hunk_lines.
Qed.

Definition demo_hunk : Hunk :=
  MkHunk 10 3 10 3 " fn main" [MkHunkLine Context ("before" +:+ String LF "");
    MkHunkLine Delete ("old" +:+ String LF ""); MkHunkLine Insert ("new" +:+ String LF "")].

Lemma parse_rendered_diff_witness :
  parse_unified_diff (concat_str (["+++ b/a.txt" +:+ String LF ""] ++ ([demo_hunk] ≫= render_hunk)))
  = [MkCodexDiffDetail ("old" +:+ String LF "") 11 ("new" +:+ String LF "") 11
       ("before" +:+ String LF "") "" ""].
Proof.
  apply (parse_rendered_diff ["+++ b/a.txt" +:+ String LF ""] [demo_hunk]).
  - constructor; [|done]. split; [by exists "+++ b/a.txt"|done].
  - constructor; [|done]. unfold hunk_ok. cbn -[usize_max].
    split_and!; [lia|unfold usize_max, u64_max; lia|lia|unfold usize_max, u64_max; lia|done|].
    repeat apply Forall_cons_2; try apply Forall_nil_2; cbn [hl_text]; (split; [|done]);
      [by exists "before"|by exists "old"|by exists "new"].
Defined.

(** ** Files of a turn *)

Lemma strip_suffix_char_app c t : strip_suffix_char c (t +:+ String c "") = Some t.
Proof.
  induction t as [|a t IH]; [rewrite sapp_nil_l; cbn; by rewrite byte_eqb_refl|].
  rewrite sapp_cons. cbn [strip_suffix_char].
  destruct (t +:+ String c "") eqn:E; [by destruct t|]. by rewrite IH.
Qed.

Lemma strip_suffix_char_some c s r : strip_suffix_char c s = Some r -> s = r +:+ String c "".
Proof.
  revert r. induction s as [|a s IH]; intros r; [done|]. cbn [strip_suffix_char].
  destruct s as [|b s].
  - destruct (byte_eqb_spec a c) as [->|]; [|done]. by intros [= <-].
  - intros (q&E&->)%fmap_Some. rewrite sapp_cons. f_equal. by apply IH.
Qed.

(** A line as [str::lines] yields it is a prefix of the piece it comes from. *)
Lemma line_of_piece_prefix l : exists r, l = line_of_piece l +:+ r.
Proof.
  unfold line_of_piece. destruct (strip_suffix_char LF l) as [l1|] eqn:E; cycle 1.
  { exists "". by rewrite sapp_nil_r. }
  apply strip_suffix_char_some in E as ->.
  destruct (strip_suffix_char CR l1) as [l2|] eqn:E2; [|by eexists].
  apply strip_suffix_char_some in E2 as ->. rewrite sapp_assoc. by eexists.
Qed.

Lemma strip_prefix_line p l : starts_with p l = false -> strip_prefix p (line_of_piece l) = None.
Proof.
  unfold starts_with. destruct (strip_prefix p (line_of_piece l)) as [r|] eqn:E; [|done].
  apply strip_prefix_some in E. destruct (line_of_piece_prefix l) as (q&Hq).
  rewrite E, sapp_assoc in Hq. by rewrite Hq, strip_prefix_app.
Qed.

Lemma strip_suffix_cr_none t : sall (fun a => negb (byte_eqb a CR)) t = true -> strip_suffix_char CR t = None.
Proof.
  intros H. destruct (strip_suffix_char CR t) as [r|] eqn:E; [|done].
  apply strip_suffix_char_some in E as ->. rewrite sall_app in H. apply andb_true_iff in H as [_ H].
  done.
Qed.

Lemma line_of_complete t : sall (fun a => negb (byte_eqb a CR)) t = true ->
  line_of_piece (t +:+ String LF "") = t.
Proof. intros H. unfold line_of_piece. by rewrite strip_suffix_char_app, strip_suffix_cr_none. Qed.

Lemma find_map_app {A B} (f : A -> option B) l x k y :
  (forall z, z ∈ l -> f z = None) -> f x = Some y -> find_map f (l ++ x :: k) = Some y.
Proof.
  intros H Hx. induction l as [|z l IH]; cbn; [by rewrite Hx|].
  rewrite (H z) by by left. apply IH. intros w Hw. apply H. by right.
Qed.

(** The diff of one file, as [git diff] prints it. *)
Inductive FileChange : Type := Modified | Added | Deleted.

Record FileSection : Type := MkFileSection {
  fs_path : string; fs_change : FileChange; fs_extended : list string; fs_body : list string }.

Definition git_line (f : FileSection) : string :=
  "diff --git " +:+ ("a/" +:+ fs_path f +:+ " b/" +:+ fs_path f) +:+ String LF "".

Definition old_header (f : FileSection) : string :=
  "--- " +:+ match fs_change f with Added => "/dev/null" | _ => "a/" +:+ fs_path f end.
Definition new_header (f : FileSection) : string :=
  "+++ " +:+ match fs_change f with Deleted => "/dev/null" | _ => "b/" +:+ fs_path f end.

Definition file_lines (f : FileSection) : list string :=
  [git_line f] ++ fs_extended f ++
  [old_header f +:+ String LF ""; new_header f +:+ String LF ""] ++ fs_body f.

Definition path_ok (p : string) : Prop :=
  p <> "" /\ p <> "/dev/null" /\ no_lf p = true /\ sall (fun a => negb (byte_eqb a CR)) p = true.

Definition section_ok (f : FileSection) : Prop :=
  path_ok (fs_path f) /\
  Forall (fun l => is_line l /\ starts_with "diff --git " l = false /\
                   starts_with "--- " l = false /\ starts_with "+++ " l = false) (fs_extended f) /\
  Forall (fun l => is_line l /\ starts_with "diff --git " l = false) (fs_body f).

Lemma header_no_cr f : path_ok (fs_path f) ->
  sall (fun a => negb (byte_eqb a CR)) (old_header f) = true /\
  sall (fun a => negb (byte_eqb a CR)) (new_header f) = true.
Proof.
  intros (_&_&_&H). unfold old_header, new_header. destruct (fs_change f); rewrite !sall_app, ?H; done.
Qed.

Lemma header_no_lf f : path_ok (fs_path f) -> no_lf (old_header f) = true /\ no_lf (new_header f) = true.
Proof.
  intros (_&_&H&_). unfold no_lf, old_header, new_header in *.
  destruct (fs_change f); rewrite !sall_app, ?H; done.
Qed.

Lemma file_lines_are_lines f : section_ok f -> Forall is_line (file_lines f).
Proof.
  intros (P&E&B). destruct (header_no_lf _ P) as [H1 H2]. destruct P as (_&_&P&_).
  unfold file_lines. apply Forall_app. split; [|apply Forall_app; split; [|apply Forall_app; split]].
  - constructor; [|done]. exists ("diff --git " +:+ ("a/" +:+ fs_path f +:+ " b/" +:+ fs_path f)).
    unfold git_line. split; [|by rewrite !sapp_assoc]. unfold no_lf in *. by rewrite !sall_app, P.
  - eapply List.Forall_impl; [|exact E]. by intros l [].
  - repeat constructor; eexists; eauto.
  - eapply List.Forall_impl; [|exact B]. by intros l [].
Qed.

Lemma git_line_not_header f p : p = "--- " \/ p = "+++ " -> strip_prefix p (line_of_piece (git_line f)) = None.
Proof. intros H. apply strip_prefix_line. by destruct H as [ -> | -> ]. Qed.

(** The two header lines are the first of their kind in the section. *)
Lemma first_headers f : section_ok f ->
  find_map (strip_prefix "--- ") (lines (concat_str (file_lines f)))
    = strip_prefix "--- " (old_header f) /\
  find_map (strip_prefix "+++ ") (lines (concat_str (file_lines f)))
    = strip_prefix "+++ " (new_header f).
Proof.
  intros H. unfold lines. rewrite split_inclusive_lines by by apply file_lines_are_lines.
  destruct H as (P&E&_). destruct (header_no_cr _ P) as [C1 C2].
  assert (X : forall p l, p = "--- " \/ p = "+++ " ->
    l ∈ line_of_piece <$> ([git_line f] ++ fs_extended f) -> strip_prefix p l = None).
  { intros p l Hp (q&->&Hq)%list_elem_of_fmap.
    apply elem_of_app in Hq as [->%list_elem_of_singleton|Hq]; [by apply git_line_not_header|].
    rewrite Forall_forall in E. destruct (E q) as (_&_&?&?); [by apply list_elem_of_In|].
    apply strip_prefix_line. by destruct Hp as [ -> | -> ]. }
  unfold file_lines. rewrite app_assoc, fmap_app. revert X.
  generalize (line_of_piece <$> ([git_line f] ++ fs_extended f)). intros pre X. cbn [fmap list_fmap app].
  rewrite !line_of_complete by done. unfold old_header, new_header in *. split.
  - rewrite strip_prefix_app. apply find_map_app; [by auto|]. apply strip_prefix_app.
  - rewrite strip_prefix_app, cons_middle, app_assoc.
    apply find_map_app; [|apply strip_prefix_app].
    intros l [Hl| ->%list_elem_of_singleton]%elem_of_app; [by auto|].
    by destruct (fs_change f).
Qed.

Lemma diff_path_section f : section_ok f -> diff_path (concat_str (file_lines f)) = Some (fs_path f).
Proof.
  intros H. destruct (first_headers f H) as [H1 H2]. destruct H as ((NE&ND&_)&_).
  assert (K : forall ab, ab = "a/" \/ ab = "b/" -> (ab +:+ fs_path f =s? "/dev/null") = false).
  { by intros ab [ -> | -> ]. }
  assert (N : (fs_path f =s? "") = false) by by apply String.eqb_neq.
  unfold diff_path, header_path, is_empty. rewrite H1, H2. unfold old_header, new_header.
  rewrite !strip_prefix_app. cbn [mbind option_bind].
  destruct (fs_change f); rewrite ?K by auto; cbn [negb].
  all: replace (strip_prefix "a/" ("b/" +:+ fs_path f)) with (None (A:=string)) by done.
  all: rewrite !strip_prefix_app; cbn [or_else mbind option_bind]; rewrite ?N; cbn [negb then_some].
  - rewrite bool_decide_eq_true_2; [done|]. by intros [= ?].
  - rewrite bool_decide_eq_true_2; [done|]. by intros [= ?].
  - rewrite bool_decide_eq_false_2 by (intros X; by apply X). cbn [ofilter].
    by destruct (String.eqb_spec (fs_path f) "/dev/null").
Qed.

Lemma section_append ss cur ls :
  Forall (fun l => starts_with "diff --git " l = false) ls ->
  foldl section_line (ss, cur) ls = (ss, cur +:+ concat_str ls).
Proof.
  intros H. revert cur. induction H as [|l ls Hl _ IH]; intros cur; cbn [foldl concat_str].
  - by rewrite sapp_nil_r.
  - unfold section_line at 2. rewrite Hl. cbn. by rewrite IH, sapp_assoc.
Qed.

Lemma section_of_file ss cur f : section_ok f ->
  foldl section_line (ss, cur) (file_lines f)
  = (if is_empty cur then ss else ss ++ [cur], concat_str (file_lines f)).
Proof.
  intros (P&E&B). unfold file_lines. cbn [app foldl].
  assert (G : starts_with "diff --git " (git_line f) = true).
  { unfold starts_with, git_line. by rewrite strip_prefix_app. }
  unfold section_line at 2. rewrite G. cbn [andb].
  destruct (is_empty cur) eqn:Ec; cbn [negb]; rewrite section_append; try done.
  - apply String.eqb_eq in Ec as ->. done.
  - apply Forall_app; split; [eapply List.Forall_impl; [|exact E]; by intros ? (?&?&?)|].
    constructor; [|constructor]; [by destruct (fs_change f)..|].
    eapply List.Forall_impl; [|exact B]; by intros ? (?&?).
  - apply Forall_app; split; [eapply List.Forall_impl; [|exact E]; by intros ? (?&?&?)|].
    constructor; [|constructor]; [by destruct (fs_change f)..|].
    eapply List.Forall_impl; [|exact B]; by intros ? (?&?).
Qed.

Lemma sections_of_files ss cur fs : Forall section_ok fs ->
  (let '(ss, cur) := foldl section_line (ss, cur) (fs ≫= file_lines) in
   if negb (is_empty cur) then ss ++ [cur] else ss)
  = (if is_empty cur then ss else ss ++ [cur]) ++ ((fun f => concat_str (file_lines f)) <$> fs).
Proof.
  intros H. revert ss cur. induction H as [|f fs Hf _ IH]; intros ss cur.
  - cbn. rewrite app_nil_r. by destruct (is_empty cur).
  - rewrite bind_cons, foldl_app, section_of_file, IH by done. cbn [fmap list_fmap].
    replace (is_empty (concat_str (file_lines f))) with false by done.
    by rewrite <- app_assoc.
Qed.

(** The diff of a turn splits into one entry per file, in order, each with
    the path of its file (the old path when the file was deleted) and with
    exactly the text of its section. *)
Theorem split_turn_diff_files (fs : list FileSection) :
  Forall section_ok fs ->
  split_turn_diff (concat_str (fs ≫= file_lines))
  = (fun f => MkCodexFileDiff (fs_path f) (concat_str (file_lines f))) <$> fs.
Proof.
  intros H. unfold split_turn_diff, turn_sections.
  rewrite split_inclusive_lines.
  - rewrite (sections_of_files [] "" fs H). cbn [is_empty app].
    change (is_empty "") with true. cbn [app].
    induction H as [|f fs Hf _ IH]; [done|]. cbn [fmap list_fmap filter_map].
    unfold file_of_section at 1. rewrite diff_path_section by done.
    cbn [mbind option_bind]. f_equal. exact IH.
  - apply Forall_bind. eapply List.Forall_impl; [|exact H]. apply file_lines_are_lines.
Qed.

Definition demo_file : FileSection :=
  MkFileSection "old.txt" Deleted [] ["@@ -1 +0,0 @@" +:+ String LF ""; "-old" +:+ String LF ""].

Lemma split_turn_diff_files_witness :
  split_turn_diff (concat_str ([demo_file] ≫= file_lines))
  = [MkCodexFileDiff "old.txt" (concat_str (file_lines demo_file))].
Proof.
  apply (split_turn_diff_files [demo_file]). constructor; [|constructor].
  split; [by repeat split|split; [constructor|]].
  repeat apply Forall_cons_2; try apply Forall_nil_2; (split; [|done]);
    [by exists "@@ -1 +0,0 @@"|by exists "-old"].
Defined.
