(* ===== verification/CodexTransport.v ===== *)
(** * [bot-provider-codex], [transport.rs]: the client of the app server

    The client's shared state (request ids, the table of pending requests, the
    write half of the pipe) and the reader task, as a transition system.  A
    transition is the code between two awaits: a request is one transition up
    to the insertion in [pending], one when its write finishes and one when its
    channel yields; the reader is one transition per line, one for the close
    notification and one for the drain of [pending].  What the process, the
    pipe and the scheduler do is the choice of the next transition. *)

From S2P Require Import Prelude RustStr Json CodexMessage.

#[export] Instance RequestId_countable : Countable RequestId.
Proof.
  refine (inj_countable' (fun i => match i with Number z => inl z | IdString s => inr s end)
            (fun e => match e with inl z => Number z | inr s => IdString s end) _).
  by intros [].
Defined.

(** The method constants of [lib.rs] by the client method that sends them. *)
Inductive ClientCall : Type :=
| c_account | c_start_account_login | c_cancel_account_login | c_logout_account
| c_account_rate_limits | c_account_usage | c_models | c_mcp_server_statuses
| c_reload_mcp_servers | c_hooks | c_plugins | c_install_plugin | c_uninstall_plugin
| c_reconcile_plugins | c_write_config_value | c_skills | c_write_skill_config
| c_start_thread | c_list_threads | c_search_threads | c_list_thread_turns
| c_revert_thread | c_resume_thread | c_compact_thread | c_set_thread_name
| c_delete_thread | c_fork_thread | c_start_turn | c_steer_turn | c_interrupt_turn
| c_clean_background_terminals.

#[export] Instance ClientCall_eq_dec : EqDecision ClientCall.
Proof. solve_decision. Defined.

Definition method_of (c : ClientCall) : string :=
  match c with
  | c_account => "account/read"
  | c_start_account_login => "account/login/start"
  | c_cancel_account_login => "account/login/cancel"
  | c_logout_account => "account/logout"
  | c_account_rate_limits => "account/rateLimits/read"
  | c_account_usage => "account/usage/read"
  | c_models => "model/list"
  | c_mcp_server_statuses => "mcpServerStatus/list"
  | c_reload_mcp_servers => "config/mcpServer/reload"
  | c_hooks => "hooks/list"
  | c_plugins => "plugin/list"
  | c_install_plugin => "plugin/install"
  | c_uninstall_plugin => "plugin/uninstall"
  | c_reconcile_plugins => "plugin/reconcile"
  | c_write_config_value => "config/value/write"
  | c_skills => "skills/list"
  | c_write_skill_config => "skills/config/write"
  | c_start_thread => "thread/start"
  | c_list_threads => "thread/list"
  | c_search_threads => "thread/search"
  | c_list_thread_turns => "thread/turns/list"
  | c_revert_thread => "thread/revert"
  | c_resume_thread => "thread/resume"
  | c_compact_thread => "thread/compact/start"
  | c_set_thread_name => "thread/name/set"
  | c_delete_thread => "thread/delete"
  | c_fork_thread => "thread/fork"
  | c_start_turn => "turn/start"
  | c_steer_turn => "turn/steer"
  | c_interrupt_turn => "turn/interrupt"
  | c_clean_background_terminals => "thread/backgroundTerminals/clean"
  end.

Section transport.
Context `{J : SerdeJson} `{S : MessageSerde}.

Inductive CodexEvent : Type :=
| Notification (n : ServerNotification)
| Request (r : ServerRequest)
| UnmatchedResponse (r : ServerResponse)
| ConnectionClosed (message : string).

(** [io::Error] is its text. *)
Inductive CodexTransportError : Type :=
| Spawn (e : string)
| MissingPipe (pipe : string)
| Write (e : string)
| Protocol (e : ProtocolError)
| Remote (code : Z) (message : string)
| InvalidResult (method : string) (source : SerdeError)
| RequestIdsExhausted
| StartupTimeout
| TransportClosed (message : string).

(** [From<RemoteError>] *)
Definition transport_of_remote (e : RemoteError) : CodexTransportError :=
  Remote (re_code e) (re_message e).

(** What a call of [request] is doing: its line is being written, it waits on
    its channel, or it has returned. *)
Inductive CallPhase : Type :=
| Sending (line : string) | Waiting | Returned (r : result CodexTransportError Value).

(** A call of [request] and its oneshot channel: [inbox] is what was sent. *)
Record Call : Type := MkCall {
  call_id : RequestId; call_phase : CallPhase;
  inbox : option (result CodexTransportError Value) }.

(** The reader task: in its loop, after the close notification, finished. *)
Inductive Reader : Type := Reading | Closing (failure : string) | Finished.

(** [pending] maps a request id to the sender of a channel; a channel is the
    index of its call in [cl_calls].  [cl_events] is what was broadcast and
    [cl_written] what went through the pipe. *)
Record Client : Type := MkClient {
  cl_next_id : Z; cl_stdin : bool; cl_pending : gmap RequestId nat;
  cl_calls : list Call; cl_reader : Reader; cl_events : list CodexEvent;
  cl_written : list string }.

(** The state [start_with_config_overrides] builds once the process runs. *)
Definition client_new : Client := MkClient 1 true ∅ [] Reading [] [].

Definition with_call (c : Client) (ch : nat) (k : Call) : Client :=
  MkClient (cl_next_id c) (cl_stdin c) (cl_pending c) (<[ch := k]> (cl_calls c)) (cl_reader c)
    (cl_events c) (cl_written c).
Definition with_pending (c : Client) (p : gmap RequestId nat) : Client :=
  MkClient (cl_next_id c) (cl_stdin c) p (cl_calls c) (cl_reader c) (cl_events c) (cl_written c).
Definition with_event (c : Client) (e : CodexEvent) : Client :=
  MkClient (cl_next_id c) (cl_stdin c) (cl_pending c) (cl_calls c) (cl_reader c)
    (cl_events c ++ [e]) (cl_written c).
Definition with_reader (c : Client) (r : Reader) : Client :=
  MkClient (cl_next_id c) (cl_stdin c) (cl_pending c) (cl_calls c) r (cl_events c) (cl_written c).

Definition next_request_id (c : Client) : Client * result CodexTransportError RequestId :=
  match checked_add i64_max (cl_next_id c) 1 with
  | Some next =>
      (MkClient next (cl_stdin c) (cl_pending c) (cl_calls c) (cl_reader c) (cl_events c)
         (cl_written c), Ok (Number (cl_next_id c)))
  | None => (c, Err RequestIdsExhausted)
  end.

(** [request] up to the insertion in [pending]; the channel of the call is
    returned.  [params] is what [to_value] gives for the argument. *)
Definition begin_request (c : Client) (method : string) (params : result SerdeError Value)
  : Client * result CodexTransportError nat :=
  let '(c, id) := next_request_id c in
  match id with
  | Err e => (c, Err e)
  | Ok id =>
      match encode_request (fun p => p) id method params with
      | Err e => (c, Err (Protocol e))
      | Ok line =>
          let ch := length (cl_calls c) in
          (MkClient (cl_next_id c) (cl_stdin c) (<[id := ch]> (cl_pending c))
             (cl_calls c ++ [MkCall id (Sending line) None]) (cl_reader c) (cl_events c) (cl_written c),
           Ok ch)
      end
  end.

(** The outcome of [write]: the pipe's, unless the input was closed. *)
Definition write_outcome (c : Client) (pipe : result string unit) : result CodexTransportError unit :=
  if cl_stdin c then map_err Write pipe else Err (Write "Codex input is closed").

(** The write of a call finishes. *)
Definition finish_write (c : Client) (ch : nat) (pipe : result string unit) : option Client :=
  call ← cl_calls c !! ch;
  match call_phase call with
  | Sending line =>
      match write_outcome c pipe with
      | Err error =>
          Some (with_call (with_pending c (delete (call_id call) (cl_pending c))) ch
                  (MkCall (call_id call) (Returned (Err error)) (inbox call)))
      | Ok _ =>
          let c := with_call c ch (MkCall (call_id call) Waiting (inbox call)) in
          Some (MkClient (cl_next_id c) (cl_stdin c) (cl_pending c) (cl_calls c) (cl_reader c)
                  (cl_events c) (cl_written c ++ [line]))
      end
  | _ => None
  end.

(** [receiver.await] yields what was sent. *)
Definition receive (c : Client) (ch : nat) : option Client :=
  call ← cl_calls c !! ch;
  match call_phase call, inbox call with
  | Waiting, Some r => Some (with_call c ch (MkCall (call_id call) (Returned r) (inbox call)))
  | _, _ => None
  end.

(** The conversion at the end of [request]. *)
Definition request_result {R} (of_value : Value -> result SerdeError R) (method : string)
    (r : result CodexTransportError Value) : result CodexTransportError R :=
  value ← r;
  map_err (InvalidResult method) (of_value value).

(** [sender.send]: the value goes to the call's channel, and is lost when the
    call no longer listens. *)
Definition send_to (calls : list Call) (ch : nat) (r : result CodexTransportError Value) : list Call :=
  match calls !! ch with
  | Some call => <[ch := MkCall (call_id call) (call_phase call) (Some r)]> calls
  | None => calls
  end.

Definition dispatch_message (c : Client) (message : IncomingMessage) : Client :=
  match message with
  | InResponse response =>
      match cl_pending c !! sr_id response with
      | Some sender =>
          let c := with_pending c (delete (sr_id response) (cl_pending c)) in
          let r := map_err transport_of_remote (outcome response) in
          MkClient (cl_next_id c) (cl_stdin c) (cl_pending c) (send_to (cl_calls c) sender r)
            (cl_reader c) (cl_events c) (cl_written c)
      | None => with_event c (UnmatchedResponse response)
      end
  | InNotification notification => with_event c (Notification notification)
  | InRequest request => with_event c (Request request)
  end.

(** The result of [read_line]: end of file, a line, or an error. *)
Inductive ReadResult : Type := ReadEof | ReadLine (line : string) | ReadError (error : string).

(** One turn of the loop of [read_messages], with the close notification when
    the loop ends. *)
Definition read_step (c : Client) (r : ReadResult) : option Client :=
  match cl_reader c with
  | Reading =>
      let fail failure := Some (with_reader (with_event c (ConnectionClosed failure)) (Closing failure)) in
      match r with
      | ReadEof => fail "Codex app-server closed its output"
      | ReadLine line =>
          match decode_line line with
          | Ok message => Some (dispatch_message c message)
          | Err error => fail (ProtocolError_display error)
          end
      | ReadError error => fail ("Failed to read from Codex app-server: " +:+ error)
      end
  | _ => None
  end.

(** The drain of [pending] that ends [read_messages]. *)
Definition drain_pending (c : Client) : option Client :=
  match cl_reader c with
  | Closing failure =>
      let calls := foldl (fun calls p => send_to calls p.2 (Err (TransportClosed failure)))
                     (cl_calls c) (map_to_list (cl_pending c)) in
      Some (MkClient (cl_next_id c) (cl_stdin c) ∅ calls Finished (cl_events c) (cl_written c))
  | _ => None
  end.

(** [close] gives up the write half unless the reader has finished. *)
Definition close (c : Client) : Client :=
  match cl_reader c with
  | Finished => c
  | _ => MkClient (cl_next_id c) false (cl_pending c) (cl_calls c) (cl_reader c) (cl_events c) (cl_written c)
  end.

(** [notify], [respond] and [respond_error] encode a line and write it. *)
Definition send_line (c : Client) (line : result ProtocolError string) (pipe : result string unit)
  : Client * result CodexTransportError unit :=
  match line with
  | Err e => (c, Err (Protocol e))
  | Ok line =>
      match write_outcome c pipe with
      | Err e => (c, Err e)
      | Ok _ => (MkClient (cl_next_id c) (cl_stdin c) (cl_pending c) (cl_calls c) (cl_reader c)
                   (cl_events c) (cl_written c ++ [line]), Ok tt)
      end
  end.

Definition notify (c : Client) (method : string) (params : result SerdeError Value) :=
  send_line c (encode_notification (fun p => p) method params).
Definition respond (c : Client) (id : RequestId) (res : result SerdeError Value) :=
  send_line c (encode_response (fun p => p) id res).
Definition respond_error (c : Client) (id : RequestId) (code : Z) (message : string)
    (data : option Value) :=
  send_line c (encode_error_response id (MkRemoteError code message data)).

(** ** The transition system *)

Inductive Step : Client -> Client -> Prop :=
| st_begin c method params c' r : begin_request c method params = (c', r) -> Step c c'
| st_write c ch pipe c' : finish_write c ch pipe = Some c' -> Step c c'
| st_receive c ch c' : receive c ch = Some c' -> Step c c'
| st_read c r c' : read_step c r = Some c' -> Step c c'
| st_drain c c' : drain_pending c = Some c' -> Step c c'
| st_close c : Step c (close c)
| st_notify c method params pipe c' r : notify c method params pipe = (c', r) -> Step c c'
| st_respond c id res pipe c' r : respond c id res pipe = (c', r) -> Step c c'
| st_respond_error c id code m d pipe c' r : respond_error c id code m d pipe = (c', r) -> Step c c'.

Definition Steps : Client -> Client -> Prop := rtc Step.
Definition Reachable (c : Client) : Prop := Steps client_new c.

(** ** The invariant *)

(** The call has not returned. *)
Definition open (k : Call) : Prop := forall r, call_phase k <> Returned r.

(** The call has not returned and nothing was sent to it. *)
Definition unanswered (k : Call) : Prop := open k /\ inbox k = None.

Definition answered (k : Call) (r : result CodexTransportError Value) : Call :=
  MkCall (call_id k) (call_phase k) (Some r).

(** [pending] holds exactly the calls without an answer, each under its own
    id, and ids are issued once. *)
Record client_inv (c : Client) : Prop := {
  inv_pending : forall id ch, cl_pending c !! id = Some ch ->
    exists k, cl_calls c !! ch = Some k /\ call_id k = id /\ unanswered k;
  inv_unanswered : forall ch k, cl_calls c !! ch = Some k -> unanswered k ->
    cl_pending c !! call_id k = Some ch;
  inv_ids : forall ch k, cl_calls c !! ch = Some k ->
    exists n, call_id k = Number n /\ (1 <= n < cl_next_id c)%Z;
  inv_unique : forall ch ch' k k', cl_calls c !! ch = Some k -> cl_calls c !! ch' = Some k' ->
    call_id k = call_id k' -> ch = ch';
  inv_next : (1 <= cl_next_id c)%Z }.

Lemma client_new_inv : client_inv client_new.
Proof.
  split; cbn.
  - intros id ch H. by rewrite lookup_empty in H.
  - intros ch k H. by rewrite lookup_nil in H.
  - intros ch k H. by rewrite lookup_nil in H.
  - intros ch ch' k k' H. by rewrite lookup_nil in H.
  - done.
Qed.

(** A state that differs only in the events, the written lines, the reader or
    the input keeps the invariant. *)
Lemma client_inv_same c c' :
  cl_next_id c' = cl_next_id c -> cl_pending c' = cl_pending c -> cl_calls c' = cl_calls c ->
  client_inv c -> client_inv c'.
Proof. intros E1 E2 E3 [I1 I2 I3 I4 I5]. split; rewrite ?E1, ?E2, ?E3; done. Qed.

(** A call that was in [pending] leaves it and is no longer unanswered. *)
Lemma client_inv_settle c ch k k' c' :
  client_inv c -> cl_calls c !! ch = Some k -> call_id k' = call_id k -> ~ unanswered k' ->
  cl_next_id c' = cl_next_id c -> cl_pending c' = delete (call_id k) (cl_pending c) ->
  cl_calls c' = <[ch := k']> (cl_calls c) -> client_inv c'.
Proof.
  intros [I1 I2 I3 I4 I5] Hk Hid Hu E1 E2 E3.
  assert (L : forall ch2 k2, <[ch := k']> (cl_calls c) !! ch2 = Some k2 ->
    (ch2 = ch /\ k2 = k') \/ (ch2 <> ch /\ cl_calls c !! ch2 = Some k2)).
  { intros ch2 k2. destruct (decide (ch2 = ch)) as [->|N].
    - rewrite list_lookup_insert_eq by by eapply lookup_lt_Some. intros [= ->]. auto.
    - rewrite list_lookup_insert_ne by done. auto. }
  split; rewrite ?E1, ?E2, ?E3.
  - intros id ch2 [N H]%lookup_delete_Some. destruct (I1 _ _ H) as (k2&Hk2&<-&U).
    exists k2. split; [|done]. rewrite list_lookup_insert_ne; [done|]. intros <-. congruence.
  - intros ch2 k2 [(->&->)|(N&H)]%L U; [done|].
    apply lookup_delete_Some. split; [|by apply I2]. intros Eid. apply N. by eapply I4.
  - intros ch2 k2 [(->&->)|(N&H)]%L; [|by eapply I3]. rewrite Hid. by eapply I3.
  - intros ch1 ch2 k1 k2 [(->&->)|(N1&H1)]%L [(->&->)|(N2&H2)]%L Eid; [done|..].
    + eapply I4; [exact Hk|exact H2|congruence].
    + eapply I4; [exact H1|exact Hk|congruence].
    + by eapply I4.
  - done.
Qed.

(** A call changes its phase without settling. *)
Lemma client_inv_phase c ch k k' c' :
  client_inv c -> cl_calls c !! ch = Some k -> call_id k' = call_id k ->
  (unanswered k' <-> unanswered k) ->
  cl_next_id c' = cl_next_id c -> cl_pending c' = cl_pending c ->
  cl_calls c' = <[ch := k']> (cl_calls c) -> client_inv c'.
Proof.
  intros [I1 I2 I3 I4 I5] Hk Hid Hu E1 E2 E3.
  assert (L : forall ch2 k2, <[ch := k']> (cl_calls c) !! ch2 = Some k2 ->
    exists k0, cl_calls c !! ch2 = Some k0 /\ call_id k2 = call_id k0 /\ (unanswered k2 -> unanswered k0)).
  { intros ch2 k2. destruct (decide (ch2 = ch)) as [->|N].
    - rewrite list_lookup_insert_eq by by eapply lookup_lt_Some. intros [= <-].
      exists k. split_and!; [done..|by apply Hu].
    - rewrite list_lookup_insert_ne by done. eauto. }
  split; rewrite ?E1, ?E2, ?E3.
  - intros id ch2 H. destruct (I1 _ _ H) as (k2&Hk2&<-&U). destruct (decide (ch2 = ch)) as [->|N].
    + exists k'. rewrite list_lookup_insert_eq by by eapply lookup_lt_Some.
      assert (k2 = k) as -> by congruence. split_and!; [done..|by apply Hu].
    + exists k2. by rewrite list_lookup_insert_ne.
  - intros ch2 k2 (k0&H&->&U)%L X. auto.
  - intros ch2 k2 (k0&H&->&_)%L. by eapply I3.
  - intros ch1 ch2 k1 k2 (x1&H1&->&_)%L (x2&H2&->&_)%L Eid. by eapply I4.
  - done.
Qed.

Lemma next_request_id_inv c c' r : client_inv c -> next_request_id c = (c', r) ->
  client_inv c' /\ cl_calls c' = cl_calls c /\ cl_pending c' = cl_pending c /\
  (forall id, r = Ok id -> id = Number (cl_next_id c) /\ cl_next_id c' = (cl_next_id c + 1)%Z).
Proof.
  intros I. unfold next_request_id. destruct (checked_add _ _ _) as [n|] eqn:E; intros [= <- <-].
  - apply checked_add_some in E as [_ ->]. split; [|split_and!; [done..|by intros id [= <-]]].
    destruct I as [I1 I2 I3 I4 I5]. split; cbn; [done|done| |done|lia].
    intros ch k H. destruct (I3 _ _ H) as (n&->&?). exists n. split; [done|lia].
  - by split_and!.
Qed.

Lemma begin_request_inv c method params c' r :
  client_inv c -> begin_request c method params = (c', r) -> client_inv c'.
Proof.
  intros I. unfold begin_request. destruct (next_request_id c) as [c1 r1] eqn:E.
  destruct (next_request_id_inv _ _ _ I E) as (I'&Ec&Ep&Ei).
  destruct r1 as [id|e]; [|by intros [= <- <-]].
  destruct (encode_request _ _ _ _) as [line|e]; intros [= <- <-]; [|done].
  destruct (Ei _ eq_refl) as [-> En]. destruct I' as [I1 I2 I3 I4 I5].
  assert (F : forall ch k, cl_calls c1 !! ch = Some k -> call_id k <> Number (cl_next_id c)).
  { intros ch k H. rewrite Ec in H. destruct (inv_ids _ I _ _ H) as (n&->&?). intros [= ->]. lia. }
  assert (L : forall ch k, (cl_calls c1 ++ [MkCall (Number (cl_next_id c)) (Sending line) None]) !! ch = Some k ->
    cl_calls c1 !! ch = Some k \/
    (ch = length (cl_calls c1) /\ k = MkCall (Number (cl_next_id c)) (Sending line) None)).
  { intros ch k [H|[Hl H]]%lookup_app_Some; [by left|right].
    destruct (ch - length (cl_calls c1))%nat as [|m] eqn:Em; [|done].
    injection H as <-. split; [lia|done]. }
  split; cbn.
  - intros id ch [[<- <-]|[N H]]%lookup_insert_Some.
    + exists (MkCall (Number (cl_next_id c)) (Sending line) None).
      rewrite lookup_app_r, Nat.sub_diag by lia. done.
    + destruct (I1 _ _ H) as (k&Hk&?). exists k. split; [by apply lookup_app_l_Some|done].
  - intros ch k [H|[-> ->]]%L U.
    + rewrite lookup_insert_ne; [by apply I2|]. intros X. by apply (F _ _ H).
    + apply lookup_insert_eq.
  - intros ch k [H|[-> ->]]%L; [by eapply I3|]. exists (cl_next_id c). split; [done|].
    pose proof (inv_next _ I). lia.
  - intros ch ch' k k' [H|[-> ->]]%L [H'|[-> ->]]%L Eid; [by eapply I4|..|done].
    + by destruct (F _ _ H).
    + by destruct (F _ _ H').
  - done.
Qed.

Lemma finish_write_inv c ch pipe c' : client_inv c -> finish_write c ch pipe = Some c' -> client_inv c'.
Proof.
  intros I. unfold finish_write. destruct (cl_calls c !! ch) as [k|] eqn:Hk; [|done]. cbn.
  destruct (call_phase k) as [line| |r] eqn:P; [|done..].
  destruct (write_outcome c pipe); intros [= <-].
  - eapply client_inv_phase; [exact I|exact Hk| |..|done|done|done]; [done|].
    unfold unanswered, open. cbn. rewrite P. naive_solver.
  - eapply client_inv_settle; [exact I|exact Hk| | |done|done|done]; [done|].
    intros [O _]. by eapply O.
Qed.

Lemma receive_inv c ch c' : client_inv c -> receive c ch = Some c' -> client_inv c'.
Proof.
  intros I. unfold receive. destruct (cl_calls c !! ch) as [k|] eqn:Hk; [|done]. cbn.
  destruct (call_phase k) as [line| |r] eqn:P; [done| |done].
  destruct (inbox k) as [r|] eqn:B; [|done]. intros [= <-].
  eapply client_inv_phase; [exact I|exact Hk| |..|done|done|done]; [done|].
  unfold unanswered. cbn. by rewrite B; split; intros [].
Qed.

(** What a response does to the call that waits for it. *)
Lemma dispatch_response c r ch k : client_inv c ->
  cl_calls c !! ch = Some k -> unanswered k -> call_id k = sr_id r ->
  dispatch_message c (InResponse r) =
    MkClient (cl_next_id c) (cl_stdin c) (delete (sr_id r) (cl_pending c))
      (<[ch := answered k (map_err transport_of_remote (outcome r))]> (cl_calls c))
      (cl_reader c) (cl_events c) (cl_written c).
Proof.
  intros I Hk U E. cbn. pose proof (inv_unanswered _ I _ _ Hk U) as Hp. rewrite E in Hp.
  rewrite Hp. unfold send_to. cbn. by rewrite Hk.
Qed.

Lemma dispatch_unmatched c r : client_inv c ->
  (forall ch k, cl_calls c !! ch = Some k -> unanswered k -> call_id k <> sr_id r) ->
  dispatch_message c (InResponse r) = with_event c (UnmatchedResponse r).
Proof.
  intros I N. cbn. destruct (cl_pending c !! sr_id r) as [ch|] eqn:E; [|done].
  destruct (inv_pending _ I _ _ E) as (k&Hk&Hid&U). by destruct (N _ _ Hk U).
Qed.

Lemma not_unanswered_answered k r : ~ unanswered (answered k r).
Proof. by intros [_ ?]. Qed.

Lemma dispatch_inv c m : client_inv c -> client_inv (dispatch_message c m).
Proof.
  intros I. destruct m as [r|n|q]; [|by apply (client_inv_same c)..].
  destruct (cl_pending c !! sr_id r) as [ch|] eqn:E.
  - destruct (inv_pending _ I _ _ E) as (k&Hk&Hid&U). rewrite (dispatch_response c r ch k) by done.
    eapply client_inv_settle; [exact I|exact Hk| | |done| |done].
    + done.
    + apply not_unanswered_answered.
    + cbn. by rewrite Hid.
  - cbn. rewrite E. by apply (client_inv_same c).
Qed.

(** Sending one value to each of a list of channels. *)
Lemma send_all_lookup r (l : list (RequestId * nat)) calls ch :
  foldl (fun calls p => send_to calls p.2 r) calls l !! ch =
  (fun k => if bool_decide (ch ∈ l.*2) then answered k r else k) <$> calls !! ch.
Proof.
  revert calls. induction l as [|[id ch0] l IH]; intros calls; cbn [foldl].
  - cbn. rewrite bool_decide_eq_false_2 by apply not_elem_of_nil. by destruct (calls !! ch).
  - rewrite IH. cbn [fmap list_fmap snd]. unfold send_to.
    destruct (calls !! ch0) as [k0|] eqn:E0.
    + destruct (decide (ch = ch0)) as [->|N].
      * rewrite list_lookup_insert_eq by by eapply lookup_lt_Some. rewrite E0. cbn.
        rewrite (bool_decide_eq_true_2 (ch0 ∈ ch0 :: l.*2)) by by left. by case_bool_decide.
      * rewrite list_lookup_insert_ne by done. f_equal. f_equal.
        repeat case_bool_decide; rewrite ?elem_of_cons in *; naive_solver.
    + destruct (calls !! ch) as [k|] eqn:E; [|done]. cbn. f_equal.
      repeat case_bool_decide; rewrite ?elem_of_cons in *; naive_solver.
Qed.

(** The drain answers exactly the calls without an answer. *)
Lemma drain_lookup c c' f ch : client_inv c -> cl_reader c = Closing f -> drain_pending c = Some c' ->
  cl_calls c' !! ch =
  (fun k => if bool_decide (cl_pending c !! call_id k = Some ch)
            then answered k (Err (TransportClosed f)) else k) <$> cl_calls c !! ch.
Proof.
  intros I R. unfold drain_pending. rewrite R. intros [= <-]. cbn [cl_calls].
  rewrite send_all_lookup. destruct (cl_calls c !! ch) as [k|] eqn:Hk; [|done]. cbn. f_equal.
  assert (X : ch ∈ (map_to_list (cl_pending c)).*2 <-> cl_pending c !! call_id k = Some ch).
  { rewrite list_elem_of_fmap. split.
    - intros ([id x]&->&H%elem_of_map_to_list). cbn in *.
      destruct (inv_pending _ I _ _ H) as (k'&Hk'&<-&_). congruence.
    - intros H. exists (call_id k, ch). split; [done|]. by apply elem_of_map_to_list. }
  repeat case_bool_decide; tauto.
Qed.

Lemma drain_inv c c' : client_inv c -> drain_pending c = Some c' -> client_inv c'.
Proof.
  intros I H. assert (exists f, cl_reader c = Closing f) as [f R].
  { unfold drain_pending in H. destruct (cl_reader c); by eauto. }
  assert (D := fun ch => drain_lookup c c' f ch I R H).
  assert (E : cl_next_id c' = cl_next_id c /\ cl_pending c' = ∅).
  { unfold drain_pending in H. rewrite R in H. by injection H as <-. }
  destruct E as [E1 E2].
  assert (L : forall ch k, cl_calls c' !! ch = Some k ->
    exists k0, cl_calls c !! ch = Some k0 /\ call_id k = call_id k0 /\ ~ unanswered k).
  { intros ch k Hk. rewrite D in Hk. apply fmap_Some in Hk as (k0&H0&->). exists k0.
    split; [done|]. case_bool_decide as Hp; [split; [done|apply not_unanswered_answered]|].
    split; [done|]. intros U. apply Hp. by eapply inv_unanswered. }
  split; rewrite ?E1, ?E2.
  - intros id ch X. by rewrite lookup_empty in X.
  - by intros ch k (k0&_&_&N)%L U.
  - intros ch k (k0&H0&->&_)%L. by eapply inv_ids.
  - intros ch ch' k k' (k0&H0&->&_)%L (k0'&H0'&->&_)%L Eid. by eapply inv_unique.
  - by apply inv_next.
Qed.

Lemma send_line_same c line pipe c' r : send_line c line pipe = (c', r) ->
  cl_next_id c' = cl_next_id c /\ cl_pending c' = cl_pending c /\ cl_calls c' = cl_calls c /\
  cl_reader c' = cl_reader c.
Proof.
  unfold send_line. destruct line as [line|e]; [destruct (write_outcome c pipe)|];
    by intros [= <- <-].
Qed.

Lemma close_same c :
  cl_next_id (close c) = cl_next_id c /\ cl_pending (close c) = cl_pending c /\
  cl_calls (close c) = cl_calls c /\ cl_reader (close c) = cl_reader c.
Proof. unfold close. by destruct (cl_reader c) eqn:E. Qed.

Lemma read_step_inv c r c' : client_inv c -> read_step c r = Some c' -> client_inv c'.
Proof.
  intros I. unfold read_step. destruct (cl_reader c); [|done..].
  destruct r as [|line|e]; [..|by intros [= <-]; apply (client_inv_same c)].
  - intros [= <-]. by apply (client_inv_same c).
  - destruct (decode_line line); intros [= <-]; [by apply dispatch_inv|by apply (client_inv_same c)].
Qed.

Lemma step_inv c c' : Step c c' -> client_inv c -> client_inv c'.
Proof.
  intros H I. destruct H as [c m p c' r E|c ch pipe c' E|c ch c' E|c r c' E|c c' E|c
    |c m p pipe c' r E|c id r pipe c' x E|c id code m d pipe c' r E].
  - by eapply begin_request_inv.
  - by eapply finish_write_inv.
  - by eapply receive_inv.
  - by eapply read_step_inv.
  - by eapply drain_inv.
  - destruct (close_same c) as (?&?&?&_). by apply (client_inv_same c).
  - apply send_line_same in E as (?&?&?&_). by apply (client_inv_same c).
  - apply send_line_same in E as (?&?&?&_). by apply (client_inv_same c).
  - apply send_line_same in E as (?&?&?&_). by apply (client_inv_same c).
Qed.

Lemma reachable_inv c : Reachable c -> client_inv c.
Proof.
  intros H. assert (G : forall a b, Steps a b -> client_inv a -> client_inv b).
  { induction 1 as [|a b d S1 _ IH]; [done|]. intros I. apply IH. by eapply step_inv. }
  by eapply G, client_new_inv.
Qed.

(** ** What a step does to one call *)

(** Nothing sent to a call is ever replaced, and a call that has returned does
    not change. *)
Definition call_grows (k k' : Call) : Prop :=
  call_id k' = call_id k /\ (forall r, inbox k = Some r -> inbox k' = Some r) /\
  (forall r, call_phase k = Returned r -> k' = k).

Lemma call_grows_refl k : call_grows k k.
Proof. done. Qed.

Lemma call_grows_answered k r : unanswered k -> call_grows k (answered k r).
Proof.
  intros [O B]. split_and!; [done| |].
  - intros r' E. by rewrite B in E.
  - intros r' E. by destruct (O r').
Qed.

Lemma lookup_insert_grows (l : list Call) ch0 k0 k0' ch k :
  l !! ch0 = Some k0 -> call_grows k0 k0' -> l !! ch = Some k ->
  exists k', <[ch0 := k0']> l !! ch = Some k' /\ call_grows k k'.
Proof.
  intros H0 G H. destruct (decide (ch = ch0)) as [->|N].
  - exists k0'. rewrite list_lookup_insert_eq by by eapply lookup_lt_Some.
    split; [done|]. congruence.
  - exists k. rewrite list_lookup_insert_ne by done. by split.
Qed.

Lemma begin_request_calls c m p c' r ch k : begin_request c m p = (c', r) ->
  cl_calls c !! ch = Some k -> cl_calls c' !! ch = Some k /\ cl_reader c' = cl_reader c.
Proof.
  unfold begin_request, next_request_id. intros E H.
  destruct (checked_add _ _ _); cbn in E; [|by injection E as <- _].
  destruct (encode_request _ _ _ _); injection E as <- _; [|done].
  split; [|done]. cbn. by apply lookup_app_l_Some.
Qed.

Lemma finish_write_calls c ch0 pipe c' : finish_write c ch0 pipe = Some c' ->
  exists k0 k0', cl_calls c !! ch0 = Some k0 /\ cl_calls c' = <[ch0 := k0']> (cl_calls c) /\
    call_grows k0 k0' /\ inbox k0' = inbox k0 /\ cl_reader c' = cl_reader c /\
    (exists line, call_phase k0 = Sending line) /\ (forall v, call_phase k0' <> Returned (Ok v)).
Proof.
  unfold finish_write. destruct (cl_calls c !! ch0) as [k0|] eqn:H0; [|done]. cbn.
  destruct (call_phase k0) as [line| |] eqn:P; [|done..].
  destruct (write_outcome c pipe); intros [= <-];
    eexists k0, _; unfold call_grows; split_and!; try done; try (by eexists); cbn; by rewrite P.
Qed.

Lemma receive_calls c ch0 c' : receive c ch0 = Some c' ->
  exists k0 k0', cl_calls c !! ch0 = Some k0 /\ cl_calls c' = <[ch0 := k0']> (cl_calls c) /\
    call_grows k0 k0' /\ inbox k0 <> None /\ cl_reader c' = cl_reader c.
Proof.
  unfold receive. destruct (cl_calls c !! ch0) as [k0|] eqn:H0; [|done]. cbn.
  destruct (call_phase k0) as [| |] eqn:P; [done| |done].
  destruct (inbox k0) as [r|] eqn:B; [|done]. intros [= <-].
  eexists k0, _. unfold call_grows. split_and!; try done; cbn; rewrite ?P, ?B; done.
Qed.

Lemma dispatch_calls c m ch k : client_inv c -> cl_calls c !! ch = Some k ->
  exists k', cl_calls (dispatch_message c m) !! ch = Some k' /\ call_grows k k'.
Proof.
  intros I H. destruct m as [r|n|q]; [|by exists k..].
  destruct (cl_pending c !! sr_id r) as [ch0|] eqn:E.
  - destruct (inv_pending _ I _ _ E) as (k0&Hk0&Hid&U). rewrite (dispatch_response c r ch0 k0) by done.
    eapply lookup_insert_grows; [done| |done]. by apply call_grows_answered.
  - cbn. rewrite E. by exists k.
Qed.

Lemma read_step_calls c r c' ch k : client_inv c -> read_step c r = Some c' -> cl_calls c !! ch = Some k ->
  exists k', cl_calls c' !! ch = Some k' /\ call_grows k k'.
Proof.
  intros I E H. unfold read_step in E. destruct (cl_reader c); [|done..].
  destruct r as [|line|e]; [by injection E as <-; exists k| |by injection E as <-; exists k].
  destruct (decode_line line) as [m|e]; injection E as <-; [|by exists k].
  by apply dispatch_calls.
Qed.

Lemma drain_calls c c' ch k : client_inv c -> drain_pending c = Some c' -> cl_calls c !! ch = Some k ->
  exists k', cl_calls c' !! ch = Some k' /\ call_grows k k'.
Proof.
  intros I E H. assert (exists f, cl_reader c = Closing f) as [f R].
  { unfold drain_pending in E. destruct (cl_reader c); by eauto. }
  rewrite (drain_lookup c c' f ch I R E), H. cbn. eexists. split; [done|].
  case_bool_decide as Hp; [|done]. apply call_grows_answered.
  destruct (inv_pending _ I _ _ Hp) as (k'&Hk'&_&U). congruence.
Qed.

Lemma step_calls c c' ch k : client_inv c -> Step c c' -> cl_calls c !! ch = Some k ->
  exists k', cl_calls c' !! ch = Some k' /\ call_grows k k'.
Proof.
  intros I H Hk. destruct H as [c m p c' r E|c ch0 pipe c' E|c ch0 c' E|c r c' E|c c' E|c
    |c m p pipe c' r E|c id r pipe c' x E|c id code m d pipe c' r E].
  - exists k. split; [|done]. by eapply begin_request_calls.
  - destruct (finish_write_calls _ _ _ _ E) as (k0&k0'&H0&->&G&_). by eapply lookup_insert_grows.
  - destruct (receive_calls _ _ _ E) as (k0&k0'&H0&->&G&_). by eapply lookup_insert_grows.
  - by eapply read_step_calls.
  - by eapply drain_calls.
  - exists k. destruct (close_same c) as (_&_&->&_). done.
  - exists k. apply send_line_same in E as (_&_&->&_). done.
  - exists k. apply send_line_same in E as (_&_&->&_). done.
  - exists k. apply send_line_same in E as (_&_&->&_). done.
Qed.

(** Once the reader has finished, a call without an answer stays without one. *)
Lemma finished_step c c' ch k : cl_reader c = Finished -> Step c c' ->
  cl_calls c !! ch = Some k -> inbox k = None -> (forall v, call_phase k <> Returned (Ok v)) ->
  cl_reader c' = Finished /\ exists k', cl_calls c' !! ch = Some k' /\ inbox k' = None /\
    (forall v, call_phase k' <> Returned (Ok v)) /\ (call_phase k = Waiting -> k' = k).
Proof.
  intros F H Hk B NR. destruct H as [c m p c' r E|c ch0 pipe c' E|c ch0 c' E|c r c' E|c c' E|c
    |c m p pipe c' r E|c id r pipe c' x E|c id code m d pipe c' r E].
  - destruct (begin_request_calls _ _ _ _ _ _ _ E Hk) as [Hk' ->]. split; [done|]. by exists k.
  - destruct (finish_write_calls _ _ _ _ E) as (k0&k0'&H0&->&G&Eb&->&[line P]&N). split; [done|].
    destruct (decide (ch = ch0)) as [->|Nc].
    + exists k0'. rewrite list_lookup_insert_eq by by eapply lookup_lt_Some.
      assert (k0 = k) as -> by congruence. split_and!; [done|congruence|done|congruence].
    + exists k. rewrite list_lookup_insert_ne by done. done.
  - destruct (receive_calls _ _ _ E) as (k0&k0'&H0&->&G&Nb&->). split; [done|].
    destruct (decide (ch = ch0)) as [->|Nc]; [congruence|].
    exists k. rewrite list_lookup_insert_ne by done. done.
  - unfold read_step in E. by rewrite F in E.
  - unfold drain_pending in E. by rewrite F in E.
  - destruct (close_same c) as (_&_&->&->). split; [done|]. by exists k.
  - apply send_line_same in E as (_&_&->&->). split; [done|]. by exists k.
  - apply send_line_same in E as (_&_&->&->). split; [done|]. by exists k.
  - apply send_line_same in E as (_&_&->&->). split; [done|]. by exists k.
Qed.

(** ** Properties *)

(** C34: in every reachable state the table of pending requests holds exactly the
    calls that have not returned and were not answered, each under its own id,
    and no two calls ever share an id. *)
Theorem pending_exact c ch k : Reachable c -> cl_calls c !! ch = Some k ->
  (unanswered k <-> cl_pending c !! call_id k = Some ch) /\
  (forall ch' k', cl_calls c !! ch' = Some k' -> call_id k' = call_id k -> ch' = ch).
Proof.
  intros I%reachable_inv Hk. split; [split|].
  - by apply inv_unanswered.
  - intros Hp. destruct (inv_pending _ I _ _ Hp) as (k'&Hk'&_&U). congruence.
  - intros ch' k' H' E. by eapply inv_unique.
Qed.

(** A response line reaches the one call that waits under its id, with its
    result or its error, and changes no other call and no event; a response no
    call waits for is broadcast as unmatched and changes no call. *)
Theorem response_routed c line r : Reachable c -> cl_reader c = Reading ->
  decode_line line = Ok (InResponse r) ->
  exists c', read_step c (ReadLine line) = Some c' /\ cl_reader c' = Reading /\
  ((exists ch k, cl_calls c !! ch = Some k /\ unanswered k /\ call_id k = sr_id r /\
      cl_calls c' = <[ch := answered k (map_err transport_of_remote (outcome r))]> (cl_calls c) /\
      cl_pending c' = delete (sr_id r) (cl_pending c) /\ cl_events c' = cl_events c) \/
   ((forall ch k, cl_calls c !! ch = Some k -> unanswered k -> call_id k <> sr_id r) /\
      cl_calls c' = cl_calls c /\ cl_events c' = cl_events c ++ [UnmatchedResponse r])).
Proof.
  intros I%reachable_inv R D. exists (dispatch_message c (InResponse r)).
  unfold read_step. rewrite R, D. split; [done|].
  destruct (cl_pending c !! sr_id r) as [ch|] eqn:E.
  - destruct (inv_pending _ I _ _ E) as (k&Hk&Hid&U).
    rewrite (dispatch_response c r ch k) by done. split; [done|]. left. by exists ch, k.
  - assert (N : forall ch k, cl_calls c !! ch = Some k -> unanswered k -> call_id k <> sr_id r).
    { intros ch k Hk U Hid. rewrite <- Hid, (inv_unanswered _ I _ _ Hk U) in E. done. }
    rewrite dispatch_unmatched by done. split; [done|]. by right.
Qed.

(** A call gets at most one answer, and what it returned stands: no step
    replaces a value that was sent to a call or changes a call that returned. *)
Theorem answered_once c c' ch k : Reachable c -> Steps c c' -> cl_calls c !! ch = Some k ->
  exists k', cl_calls c' !! ch = Some k' /\ call_grows k k'.
Proof.
  intros I%reachable_inv H. revert k. induction H as [c|c d c' S1 _ IH]; intros k Hk; [by exists k|].
  destruct (step_calls _ _ _ _ I S1 Hk) as (k1&H1&G1).
  destruct (IH (step_inv _ _ S1 I) k1 H1) as (k2&H2&G2). exists k2. split; [done|].
  destruct G1 as (E1&A1&R1), G2 as (E2&A2&R2). split_and!.
  - congruence.
  - intros r Hr. apply A2, A1, Hr.
  - intros r Hr. pose proof (R1 _ Hr) as ->. by eapply R2.
Qed.

(** C35: when the reader ends, for whatever reason, it announces the close and
    its drain answers every call that has none with the failure and leaves the
    others as they are; afterwards nothing is pending. *)
Theorem close_answers_all c f : Reachable c -> cl_reader c = Closing f ->
  exists c', drain_pending c = Some c' /\ cl_reader c' = Finished /\ cl_pending c' = ∅ /\
    forall ch k, cl_calls c !! ch = Some k ->
      (unanswered k -> cl_calls c' !! ch = Some (answered k (Err (TransportClosed f)))) /\
      (~ unanswered k -> cl_calls c' !! ch = Some k).
Proof.
  intros I%reachable_inv R. destruct (drain_pending c) as [c'|] eqn:E; cycle 1.
  { unfold drain_pending in E. by rewrite R in E. }
  exists c'. split; [done|]. assert (D := fun ch => drain_lookup c c' f ch I R E).
  unfold drain_pending in E. rewrite R in E. injection E as E. split_and!; [by rewrite <- E..|].
  intros ch k Hk. rewrite D, Hk. cbn. split; intros U.
  - by rewrite bool_decide_eq_true_2 by by apply inv_unanswered.
  - rewrite bool_decide_eq_false_2; [done|]. intros Hp.
    destruct (inv_pending _ I _ _ Hp) as (k'&Hk'&_&U'). apply U. congruence.
Qed.

(** A request whose entry is made after the reader has finished is never
    answered: whatever happens afterwards, no value is sent to it, it never
    returns a result, and once its line is written it waits for ever. *)
Theorem late_request_never_answered c c' ch k : cl_reader c = Finished ->
  cl_calls c !! ch = Some k -> unanswered k -> Steps c c' ->
  exists k', cl_calls c' !! ch = Some k' /\ inbox k' = None /\
    (forall v, call_phase k' <> Returned (Ok v)) /\ (call_phase k = Waiting -> k' = k).
Proof.
  intros F Hk [O B] H. assert (NR : forall v, call_phase k <> Returned (Ok v)) by (intros v; apply O).
  clear O. revert k F Hk B NR. induction H as [c|c d c' S1 _ IH]; intros k F Hk B NR; [by exists k|].
  destruct (finished_step _ _ _ _ F S1 Hk B NR) as (F'&k1&H1&B1&NR1&W1).
  destruct (IH k1 F' H1 B1 NR1) as (k2&H2&B2&NR2&W2). exists k2. split_and!; [done..|].
  intros W. rewrite (W1 W) in W2. auto.
Qed.

(** Every client method has a wire method of its own. *)
Lemma method_of_inj a b : method_of a = method_of b -> a = b.
Proof. by destruct a, b. Qed.
End transport.

(** ** Concrete runs *)

Module TreeTransport.
Import Tree TreeMessage.
#[local] Existing Instance Tree.serde.
#[local] Existing Instance Tree.serde_laws.
#[local] Existing Instance TreeMessage.message_serde.
#[local] Existing Instance TreeMessage.message_serde_laws.

(** A client that has sent its first request, in either phase of the reader. *)
Definition one_call (phase : CallPhase) (reader : Reader) (events : list CodexEvent)
    (written : list string) : Client :=
  MkClient 2 true {[Number 1 := 0%nat]} [MkCall (Number 1) phase None] reader events written.

Definition empty_client (reader : Reader) (events : list CodexEvent) : Client :=
  MkClient 1 true ∅ [] reader events [].

Lemma begin_one reader events : exists line,
  begin_request (empty_client reader events) "account/read" (Ok VNull)
  = (one_call (Sending line) reader events [], Ok 0%nat).
Proof.
  assert (E : exists l, encode_request (fun p => p) (Number 1) "account/read" (Ok VNull) = Ok l).
  { eexists. unfold encode_request, request_object, json, map_err. reflexivity. }
  destruct E as [l E]. exists l. unfold begin_request.
  change (next_request_id (empty_client reader events))
    with (MkClient 2 true ∅ [] reader events [], Ok (E:=CodexTransportError) (Number 1)).
  cbv beta iota. rewrite E. reflexivity.
Qed.

Lemma one_call_reachable : exists line, Reachable (one_call (Sending line) Reading [] []).
Proof.
  destruct (begin_one Reading []) as [line E]. exists line.
  eapply rtc_l; [|apply rtc_refl]. by eapply st_begin.
Qed.

Lemma pending_exact_witness : exists c k, Reachable c /\ cl_calls c !! 0%nat = Some k /\
  unanswered k /\ cl_pending c !! call_id k = Some 0%nat.
Proof.
  destruct one_call_reachable as [line R].
  exists (one_call (Sending line) Reading [] []), (MkCall (Number 1) (Sending line) None).
  assert (U : unanswered (MkCall (Number 1) (Sending line) None)) by done.
  split_and!; [exact R|reflexivity|exact U|].
  exact (proj1 (proj1 (pending_exact _ 0%nat _ R eq_refl)) U).
Defined.

(** A response to the first request. *)
Definition demo_response : ServerResponse := MkServerResponse (Number 1) (Ok demo_params).

Lemma response_line : exists line, decode_line line = Ok (InResponse demo_response).
Proof.
  destruct (encodes (Number 1) "" demo_params demo_error) as (_&_&(l&E)&_). exists l.
  apply result_bind_ok in E as (o&[= <-]&E).
  rewrite (decode_encoded _ _ E (faithful _)). reflexivity.
Qed.

Lemma response_routed_witness : exists c line c' l, Reachable c /\
  read_step c (ReadLine line) = Some c' /\
  cl_calls c' !! 0%nat = Some (MkCall (Number 1) (Sending l) (Some (Ok demo_params))).
Proof.
  destruct one_call_reachable as [l R]. destruct response_line as [line D].
  destruct (response_routed _ line demo_response R eq_refl D) as (c'&E&_&[X|(N&_)]).
  - exists (one_call (Sending l) Reading [] []), line, c', l. split; [exact R|]. split; [exact E|].
    destruct X as (ch&k&Hk&_&_&->&_). destruct ch as [|[|ch]]; [|done..].
    injection Hk as <-. reflexivity.
  - exfalso. by eapply (N 0%nat).
Defined.

Lemma answered_once_witness : exists c c' k, Steps c c' /\ cl_calls c !! 0%nat = Some k /\
  exists k', cl_calls c' !! 0%nat = Some k' /\ call_grows k k'.
Proof.
  destruct one_call_reachable as [l R]. destruct response_line as [line D].
  eexists (one_call (Sending l) Reading [] []), _, _. split_and!; [|reflexivity|].
  - eapply rtc_l; [|apply rtc_refl]. apply (st_read _ (ReadLine line)). unfold read_step.
    cbn [cl_reader one_call]. rewrite D. reflexivity.
  - eapply (answered_once _ _ 0%nat _ R); [|reflexivity].
    eapply rtc_l; [|apply rtc_refl]. apply (st_read _ (ReadLine line)). unfold read_step.
    cbn [cl_reader one_call]. rewrite D. reflexivity.
Defined.

Definition eof : string := "Codex app-server closed its output".

Lemma close_answers_all_witness : exists c c' k, Reachable c /\ drain_pending c = Some c' /\
  cl_calls c !! 0%nat = Some k /\ cl_calls c' !! 0%nat = Some (answered k (Err (TransportClosed eof))).
Proof.
  destruct one_call_reachable as [l R].
  assert (R' : Reachable (one_call (Sending l) (Closing eof) [ConnectionClosed eof] [])).
  { eapply rtc_r; [exact R|]. by apply (st_read _ ReadEof). }
  destruct (close_answers_all _ eof R' eq_refl) as (c'&E&_&_&A).
  eexists _, c', _. split_and!; [exact R'|exact E|reflexivity|].
  by apply (A 0%nat _ eq_refl).
Defined.

(** The reader stops at a line that is not JSON while the process and its input
    are alive; the next request is written and waits for ever. *)
Lemma late_request_never_answered_witness : exists c k, Reachable c /\
  cl_calls c !! 0%nat = Some k /\ call_phase k = Waiting /\
  forall c', Steps c c' -> exists k', cl_calls c' !! 0%nat = Some k' /\ inbox k' = None /\
    (forall v, call_phase k' <> Returned (Ok v)) /\ (call_phase k = Waiting -> k' = k).
Proof.
  set (f := "Codex sent invalid JSON: invalid JSON").
  assert (R0 : Reachable (empty_client Finished [ConnectionClosed f])).
  { assert (D : decode_line "not-json" = Err (InvalidJson (J:=serde) "invalid JSON")) by reflexivity.
    apply (rtc_l _ _ (empty_client (Closing f) [ConnectionClosed f])).
    - apply (st_read _ (ReadLine "not-json")). unfold read_step. cbn [cl_reader client_new].
      rewrite D. reflexivity.
    - eapply rtc_l; [by apply st_drain|apply rtc_refl]. }
  destruct (begin_one Finished [ConnectionClosed f]) as [l E].
  exists (one_call Waiting Finished [ConnectionClosed f] [l]), (MkCall (Number 1) Waiting None).
  split_and!; [|reflexivity|reflexivity|].
  - eapply rtc_r; [eapply rtc_r; [exact R0|by eapply st_begin]|].
    by apply (st_write _ 0%nat (Ok tt)).
  - intros c' H. 
    by apply (late_request_never_answered (one_call Waiting Finished [ConnectionClosed f] [l])
                c' 0%nat (MkCall (Number 1) Waiting None)).
Defined.
End TreeTransport.
