(* ===== verification/CodexNormalize.v ===== *)
(** * [bot-provider-codex], [normalize.rs]: app-server events as agent events

    The normalizer turns what the app server sends into the provider-neutral
    events of [bot-core], keeping a sequence number for event ids and the last
    known state of every tool call.  [&mut self] with [?] is a state monad whose
    state survives a failure: what was written before an early return stays
    written. *)

From S2P Require Import Prelude RustStr Json BotCore CodexMessage CodexTransport.

(** ** Pure helpers *)

(** The loop of [append_tail]: the first character boundary from [start] on,
    looked for in at most [fuel] steps.  The end of the string is one, so
    [length + 1] steps are enough ([next_boundary_total]). *)
Fixpoint next_boundary (fuel : nat) (s : string) (start : nat) : option nat :=
  match fuel with
  | O => None
  | S fuel => if is_char_boundary s start then Some start else next_boundary fuel s (S start)
  end.

Definition append_tail (output : option string) (delta : string) (maximum : nat) : option string :=
  let output := unwrap_or "" output +:+ delta in
  if (String.length output <=? maximum)%nat then Some output
  else
    let start := (String.length output - maximum)%nat in
    match next_boundary (S (String.length output)) output start with
    | Some start => Some (sdrop start output)
    | None => None
    end.

Section normalize.
Context `{J : SerdeJson}.

Definition norm_parse_id (value : Value) : option TurnId :=
  s ← as_str value; ok (TurnId_new s).

Definition parse_nested_turn_id (params : Value) : option TurnId :=
  turn ← get params "turn"; id ← get turn "id"; norm_parse_id id.

Definition parse_turn_id (params : Value) : option TurnId :=
  id ← get params "turnId"; norm_parse_id id.

Definition nonblank (s : string) : bool := negb (is_empty (trim s)).
Definition nonempty (s : string) : bool := negb (is_empty s).

Definition command_text (value : Value) : option string :=
  command ← get value "command";
  match as_str command with
  | Some command => then_some (nonblank command) command
  | None =>
      parts ← as_array command;
      let command := join " " (filter_map as_str parts) in
      then_some (nonblank command) command
  end.

Definition approval_title (kind : ApprovalKind) (params : Value) : string :=
  match kind with
  | ACommand => unwrap_or "Run command" (command_text params)
  | AFileChange => "Apply file changes"
  | APermission => "Grant permissions"
  | AQuestion => "Answer agent questions"
  | ATool => "Run tool"
  end.

Definition tool_state (item : Value) (fallback : ToolCallState) : ToolCallState :=
  if bool_decide (get_bool item "success" = Some false) then TFailed
  else match get_str item "status" with
       | Some s =>
           if (s =s? "inProgress") || (s =s? "pending") then TRunning
           else if s =s? "completed" then TCompleted
           else if (s =s? "interrupted") || (s =s? "cancelled") then TCancelled
           else if (s =s? "failed") || (s =s? "declined") || (s =s? "error") then TFailed
           else fallback
       | None => fallback
       end.

Definition completed_tool_state (params : Value) : ToolCallState :=
  match get params "item" with
  | None => TCompleted
  | Some item => tool_state item TCompleted
  end.

Definition qualified_tool_name (item : Value) : option string :=
  tool ← or_else (get item "tool") (get item "name");
  tool ← as_str tool;
  Some (match get_str item "namespace" with
        | Some namespace => if nonempty namespace then namespace +:+ " · " +:+ tool else tool
        | None => tool
        end).

Definition json_detail (value : Value) : option string :=
  ofilter (fun value => negb (value =s? "null")) (ok (to_string value)).

Definition media_output (label : string) (value : option Value) : string :=
  match ofilter (fun url => negb (starts_with "data:" url)) (value ≫= as_str) with
  | Some url => label +:+ ": " +:+ url
  | None => label
  end.

Definition output_content_item (item : Value) : option string :=
  t ← get_str item "type";
  if (t =s? "inputText") || (t =s? "input_text") then get_str item "text"
  else if (t =s? "inputImage") || (t =s? "input_image") then
    Some (media_output "Image output" (or_else (get item "imageUrl") (get item "image_url")))
  else if (t =s? "inputAudio") || (t =s? "input_audio") then
    Some (media_output "Audio output" (or_else (get item "audioUrl") (get item "audio_url")))
  else if t =s? "encrypted_content" then Some "Encrypted output"
  else None.

Definition output_content (value : Value) : option string :=
  match ofilter nonempty (as_str value) with
  | Some text => Some text
  | None =>
      items ← as_array value;
      let ls := filter_map output_content_item items in
      match ls with [] => None | _ => Some (join (String LF "") ls) end
  end.

Definition hook_prompt_output (fragments : list Value) : option string :=
  let text := join (String LF "")
    (List.filter nonempty (filter_map (fun fragment => get_str fragment "text") fragments)) in
  then_some (nonempty text) text.

Definition file_change_title (changes : option Value) : string :=
  let count := unwrap_or 0%nat (length <$> (changes ≫= as_array)) in
  match count with
  | 0%nat => "Edit files"
  | 1%nat => "Edit 1 file"
  | count => "Edit " +:+ dec (Z.of_nat count) +:+ " files"
  end.

Definition file_change_detail (changes : Value) : option string :=
  items ← as_array changes;
  let paths := take 3 (filter_map (fun change => get_str change "path") items) in
  match paths with [] => None | _ => Some (join " · " paths) end.

Definition mcp_result_detail (item : Value) : option string :=
  ofilter nonempty
    (or_else (error ← get item "error"; get_str error "message")
       (res ← get item "result"; value ← get res "structuredContent"; get_str value "message")).

Definition collaboration_title (item : Value) : string :=
  let tool := unwrap_or "activity" (or_else (get_str item "tool") (get_str item "kind")) in
  if tool =s? "spawnAgent" then "Spawn agent"
  else if (tool =s? "sendInput") || (tool =s? "sendMessage") || (tool =s? "followupTask") then "Message agent"
  else if tool =s? "resumeAgent" then "Resume agent"
  else if tool =s? "wait" then "Wait for agents"
  else if tool =s? "closeAgent" then "Close agent"
  else if tool =s? "interruptAgent" then "Interrupt agent"
  else if tool =s? "listAgents" then "List agents"
  else "Agent activity".

Definition auto_review_subject (action : option Value) : string :=
  match (value ← action; get_str value "type") with
  | Some t =>
      if t =s? "command" then "a command"
      else if t =s? "execve" then "a program"
      else if t =s? "writeStdin" then "terminal input"
      else if t =s? "applyPatch" then "file changes"
      else if t =s? "networkAccess" then "network access"
      else if t =s? "mcpToolCall" then "an MCP tool"
      else if t =s? "requestPermissions" then "permissions"
      else "an action"
  | None => "an action"
  end.

(** ** [tool_call] *)

Definition tool_call (item : Value) (fallback_state : ToolCallState) : option ToolCall :=
  kind ← get_str item "type";
  let state := tool_state item fallback_state in
  let duration_ms := get_u64 item "durationMs" in
  let output := ofilter nonempty (get_str item "aggregatedOutput") in
  if kind =s? "commandExecution" then
    let command := command_text item in
    Some (MkToolCall TCommand (unwrap_or "Run command" command)
            ((fun value => "$ " +:+ value) <$> command) output state duration_ms)
  else if kind =s? "fileChange" then
    Some (MkToolCall TFileChange (file_change_title (get item "changes"))
            (get item "changes" ≫= file_change_detail) None state duration_ms)
  else if kind =s? "mcpToolCall" then
    server ← get_str item "server";
    tool ← get_str item "tool";
    Some (MkToolCall TMcp ("Call " +:+ server +:+ " · " +:+ tool) (mcp_result_detail item) None
            state duration_ms)
  else if kind =s? "dynamicToolCall" then
    name ← qualified_tool_name item;
    Some (MkToolCall TOther ("Run " +:+ name) (get item "arguments" ≫= json_detail)
            (get item "contentItems" ≫= output_content) state duration_ms)
  else if kind =s? "functionCallOutput" then
    name ← qualified_tool_name item;
    Some (MkToolCall TOther ("Receive output from " +:+ name) None
            (get item "output" ≫= output_content) state duration_ms)
  else if kind =s? "hookPrompt" then
    fragments ← get_array item "fragments";
    Some (MkToolCall TOther "Apply hook context"
            (Some (match length fragments with
                   | 1%nat => "1 context fragment"
                   | count => dec (Z.of_nat count) +:+ " context fragments"
                   end))
            (hook_prompt_output fragments) state duration_ms)
  else if kind =s? "webSearch" then
    Some (MkToolCall TWebSearch "Search the web" (ofilter nonempty (get_str item "query")) None
            state duration_ms)
  else if kind =s? "imageGeneration" then
    Some (MkToolCall TImage "Generate image" (ofilter nonempty (get_str item "revisedPrompt")) None
            state duration_ms)
  else if kind =s? "imageView" then
    Some (MkToolCall TImage "View image" (get_str item "path") None state duration_ms)
  else if (kind =s? "collabAgentToolCall") || (kind =s? "subAgentActivity") then
    Some (MkToolCall TCollaboration (collaboration_title item)
            (ofilter nonempty (get_str item "prompt")) None state duration_ms)
  else if kind =s? "sleep" then
    Some (MkToolCall TWait "Wait" ((fun duration => dec duration +:+ " ms") <$> get_u64 item "durationMs")
            None state duration_ms)
  else if kind =s? "enteredReviewMode" then
    Some (MkToolCall TOther "Enter review mode" (get_str item "review") None state duration_ms)
  else if kind =s? "exitedReviewMode" then
    Some (MkToolCall TOther "Finish review" (get_str item "review") None state duration_ms)
  else if kind =s? "contextCompaction" then
    Some (MkToolCall TOther "Compact context" None None state duration_ms)
  else None.

Definition historical_tool_call (item : Value) : option ToolCall := tool_call item TCompleted.

(** ** The normalizer *)

Record CodexEventNormalizer : Type := MkNormalizer {
  nz_session : SessionId; next_event_id : Z; tool_calls : gmap string ToolCall }.

Definition normalizer_new (session_id : SessionId) : CodexEventNormalizer :=
  MkNormalizer session_id 1 ∅.

(** A method that may stop early: the state after it and its value. *)
Definition NM (A : Type) : Type := CodexEventNormalizer -> CodexEventNormalizer * option A.

#[global] Instance NM_ret : MRet NM := fun A a s => (s, Some a).
#[global] Instance NM_bind : MBind NM := fun A B f m s =>
  match m s with
  | (s', Some a) => f a s'
  | (s', None) => (s', None)
  end.

(** [opt?], and reading or updating a field of [self]. *)
Definition try_opt {A} (o : option A) : NM A := fun s => (s, o).
Definition gets {A} (f : CodexEventNormalizer -> A) : NM A := fun s => (s, Some (f s)).
Definition set_tool (item_id : string) (call : ToolCall) : NM unit := fun s =>
  (MkNormalizer (nz_session s) (next_event_id s) (<[item_id := call]> (tool_calls s)), Some ()).

Definition event_id : NM EventId := fun s =>
  let sequence := next_event_id s in
  match checked_add u64_max sequence 1 with
  | None => (s, None)
  | Some next =>
      (MkNormalizer (nz_session s) next (tool_calls s),
       ok (EventId_new (session_id_str (nz_session s) +:+ ":codex:" +:+ dec sequence)))
  end.

Definition raw_item_event_id (item_id : string) : NM EventId :=
  session ← gets nz_session;
  try_opt (ok (EventId_new (session_id_str session +:+ ":codex:item:" +:+ item_id))).

Definition item_event_id (item : Value) : NM EventId :=
  item_id ← try_opt (get_str item "id");
  raw_item_event_id item_id.

Definition warning (message : string) : NM AgentEvent :=
  session ← gets nz_session; mret (Warning session message).

Definition provider_event (kind : ProviderEventKind) (name : string) (params : Value) : NM AgentEvent :=
  let payload := match to_string params with Ok payload => payload | Err error => error_to_string error end in
  session ← gets nz_session;
  mret (ProviderEvent session kind name payload).

Definition turn_started (params : Value) : NM AgentEvent :=
  session ← gets nz_session;
  turn_id ← try_opt (parse_nested_turn_id params);
  mret (TurnStarted session turn_id).

Definition turn_completed (params : Value) : NM AgentEvent :=
  turn ← try_opt (get params "turn");
  status ← try_opt (get_str turn "status");
  let outcome :=
    if status =s? "completed" then OCompleted
    else if status =s? "failed" then OFailed
    else if status =s? "interrupted" then OInterrupted
    else OUnknown status in
  session ← gets nz_session;
  turn_id ← try_opt (id ← get turn "id"; norm_parse_id id);
  mret (TurnCompleted session turn_id outcome).

Definition text_delta (params : Value) (reasoning : bool) : NM AgentEvent :=
  id ← event_id;
  turn_id ← try_opt (parse_turn_id params);
  text ← try_opt (get_str params "delta");
  session ← gets nz_session;
  if reasoning then mret (ReasoningSummaryDelta id session turn_id text)
  else mret (AgentTextDelta id session turn_id text).

Definition reasoning_status (params : Value) (text : string) : NM AgentEvent :=
  id ← event_id;
  session ← gets nz_session;
  turn_id ← try_opt (parse_turn_id params);
  mret (ReasoningSummaryDelta id session turn_id text).

Definition summary_part_added (params : Value) : NM AgentEvent :=
  index ← try_opt (get_u64 params "summaryIndex");
  if (index =? 0)%Z then try_opt None
  else reasoning_status params (String LF (String LF "")).

Definition auto_review_status (params : Value) (completed : bool) : NM AgentEvent :=
  let subject := auto_review_subject (get params "action") in
  text ← (if completed then
            status ← try_opt (review ← get params "review"; get_str review "status");
            let status :=
              if status =s? "timedOut" then "timed out"
              else if status =s? "inProgress" then "in progress"
              else status in
            mret ("Codex safety review for " +:+ subject +:+ ": " +:+ status +:+ "." +:+ String LF "")
          else mret ("Codex is reviewing " +:+ subject +:+ "." +:+ String LF ""));
  reasoning_status params text.

Definition model_safety_status (params : Value) : NM AgentEvent :=
  if bool_decide (get_bool params "showBufferingUi" <> Some true) then try_opt None
  else reasoning_status params ("Codex is checking safe model routing." +:+ String LF "").

(** The call that [tool_changed] stores: what is missing is taken from the
    previous one. *)
Definition merge_call (call : ToolCall) (previous : option ToolCall) : ToolCall :=
  match previous with
  | Some previous =>
      MkToolCall (call_kind call) (call_title call)
        (match call_detail call with None => call_detail previous | d => d end)
        (match call_output call with None => call_output previous | o => o end)
        (call_state call) (call_duration_ms call)
  | None => call
  end.

Definition tool_changed (params : Value) (state : ToolCallState) : NM AgentEvent :=
  item ← try_opt (get params "item");
  item_id ← try_opt (get_str item "id");
  call ← try_opt (tool_call item state);
  previous ← gets (fun s => tool_calls s !! item_id);
  let call := merge_call call previous in
  _ ← set_tool item_id call;
  id ← item_event_id item;
  session ← gets nz_session;
  turn_id ← try_opt (parse_turn_id params);
  mret (ToolCallChanged id session turn_id call).

(** [self.tool_calls.get_mut(item_id)?], an update of it, and the event. *)
Definition update_tool (params : Value) (item_id : string) (f : ToolCall -> ToolCall) : NM AgentEvent :=
  call ← gets (fun s => tool_calls s !! item_id);
  call ← try_opt call;
  let call := f call in
  _ ← set_tool item_id call;
  id ← raw_item_event_id item_id;
  session ← gets nz_session;
  turn_id ← try_opt (parse_turn_id params);
  mret (ToolCallChanged id session turn_id call).

Definition with_output (o : option string) (c : ToolCall) : ToolCall :=
  MkToolCall (call_kind c) (call_title c) (call_detail c) o (call_state c) (call_duration_ms c).
Definition with_detail (d : option string) (c : ToolCall) : ToolCall :=
  MkToolCall (call_kind c) (call_title c) d (call_output c) (call_state c) (call_duration_ms c).

Definition TAIL : nat := Z.to_nat 32768.

Definition tool_output (params : Value) : NM AgentEvent :=
  item_id ← try_opt (get_str params "itemId");
  delta ← try_opt (get_str params "delta");
  update_tool params item_id (fun call => with_output (append_tail (call_output call) delta TAIL) call).

Definition file_change_updated (params : Value) : NM AgentEvent :=
  item_id ← try_opt (get_str params "itemId");
  changes ← try_opt (get params "changes");
  let detail := file_change_detail changes in
  update_tool params item_id (with_detail detail).

Definition terminal_interaction (params : Value) : NM AgentEvent :=
  item_id ← try_opt (get_str params "itemId");
  stdin ← try_opt (get_str params "stdin");
  let text := concat_str ((fun line => "> " +:+ line +:+ String LF "") <$> lines stdin) in
  update_tool params item_id (fun call => with_output (append_tail (call_output call) text TAIL) call).

Definition tool_progress (params : Value) : NM AgentEvent :=
  item_id ← try_opt (get_str params "itemId");
  message ← try_opt (get_str params "message");
  let message := trim message in
  update_tool params item_id
    (fun call => if nonempty message then with_detail (Some message) call else call).

Definition message (params : Value) (error : bool) : NM AgentEvent :=
  message ← try_opt (or_else (or_else (get_str params "message")
                                (value ← get params "error"; get_str value "message"))
                       (get_str params "summary"));
  let detail := ofilter nonblank
    (or_else (get_str params "details") (value ← get params "error"; get_str value "additionalDetails")) in
  let message := match detail with Some detail => message +:+ ": " +:+ detail | None => message end in
  if error && bool_decide (get_bool params "willRetry" = Some true) then
    warning (message +:+ " Codex will retry.")
  else if error then session ← gets nz_session; mret (Error session message)
  else warning message.

Definition model_rerouted (params : Value) : NM AgentEvent :=
  from ← try_opt (get_str params "fromModel");
  to ← try_opt (get_str params "toModel");
  warning ("Codex changed the model from " +:+ from +:+ " to " +:+ to +:+ ".").

Definition mcp_oauth_completed (params : Value) : NM AgentEvent :=
  if bool_decide (get_bool params "success" <> Some false) then try_opt None
  else
    let server := unwrap_or "MCP server" (get_str params "name") in
    let error := unwrap_or "Login failed" (ofilter nonblank (get_str params "error")) in
    warning (server +:+ ": " +:+ error).

(** The token counts of [usage_changed] that may be left out. *)
Definition or_zero (v : Value) (key : string) : Z := unwrap_or 0%Z (get_u64 v key).
Definition total_or_sum (v : Value) : Z :=
  match get_u64 v "totalTokens" with
  | Some n => n
  | None => sat_add u64_max (or_zero v "inputTokens") (or_zero v "outputTokens")
  end.

Definition usage_changed (params : Value) : NM AgentEvent :=
  usage ← try_opt (get params "tokenUsage");
  total ← try_opt (get usage "total");
  last ← try_opt (get usage "last");
  session ← gets nz_session;
  input ← try_opt (get_u64 total "inputTokens");
  output ← try_opt (get_u64 total "outputTokens");
  mret (UsageChanged session
    (MkUsage input (or_zero total "cachedInputTokens") output (or_zero total "reasoningOutputTokens")
       (total_or_sum total) (total_or_sum last) (get_u64 usage "modelContextWindow"))).

(** ** Dispatch *)

(** A method that returns a vector of events. *)
Definition NV : Type := CodexEventNormalizer -> CodexEventNormalizer * list AgentEvent.

(** [event.into_iter().collect()] *)
Definition collect (m : NM AgentEvent) : NV := fun s =>
  let '(s', e) := m s in (s', option_list e).

(** Items that are shown by other notifications. *)
Definition hidden_item (item : Value) : bool :=
  match get_str item "type" with
  | Some t => (t =s? "userMessage") || (t =s? "agentMessage") || (t =s? "plan") || (t =s? "reasoning")
  | None => false
  end.

Definition item_lifecycle (method : string) (params : Value) (state : ToolCallState) : NV := fun s =>
  match get params "item" with
  | None => collect (provider_event PNotification method params) s
  | Some item =>
      if hidden_item item then (s, [])
      else match tool_changed params state s with
           | (s', Some event) => (s', [event])
           | (s', None) => collect (provider_event PNotification method params) s'
           end
  end.

Definition normalize_notification (n : ServerNotification) : NV :=
  let m := sn_method n in
  let params := sn_params n in
  if m =s? "turn/started" then collect (turn_started params)
  else if m =s? "turn/completed" then collect (turn_completed params)
  else if (m =s? "item/agentMessage/delta") || (m =s? "item/plan/delta") then collect (text_delta params false)
  else if m =s? "item/reasoning/textDelta" then fun s => (s, [])
  else if m =s? "item/reasoning/summaryTextDelta" then collect (text_delta params true)
  else if m =s? "item/reasoning/summaryPartAdded" then collect (summary_part_added params)
  else if m =s? "item/autoApprovalReview/started" then collect (auto_review_status params false)
  else if m =s? "item/autoApprovalReview/completed" then collect (auto_review_status params true)
  else if m =s? "autoApprovalReview/strictReviewRequired" then
    collect (reasoning_status params ("Codex started a strict safety review." +:+ String LF ""))
  else if m =s? "item/started" then item_lifecycle m params TRunning
  else if m =s? "item/completed" then item_lifecycle m params (completed_tool_state params)
  else if m =s? "item/commandExecution/outputDelta" then collect (tool_output params)
  else if m =s? "item/commandExecution/terminalInteraction" then collect (terminal_interaction params)
  else if m =s? "item/fileChange/outputDelta" then collect (tool_output params)
  else if m =s? "item/fileChange/patchUpdated" then collect (file_change_updated params)
  else if m =s? "item/mcpToolCall/progress" then collect (tool_progress params)
  else if m =s? "thread/tokenUsage/updated" then collect (usage_changed params)
  else if (m =s? "warning") || (m =s? "guardianWarning") || (m =s? "configWarning")
          || (m =s? "deprecationNotice") then collect (message params false)
  else if m =s? "model/rerouted" then collect (model_rerouted params)
  else if m =s? "model/safetyBuffering/updated" then collect (model_safety_status params)
  else if m =s? "model/verification" then
    collect (reasoning_status params ("Codex is verifying model access." +:+ String LF ""))
  else if m =s? "mcpServer/oauthLogin/completed" then collect (mcp_oauth_completed params)
  else if m =s? "error" then collect (message params true)
  else collect (provider_event PNotification m params).

(** The approval kind of a request method. *)
Definition request_kind (m : string) : option ApprovalKind :=
  if m =s? "item/commandExecution/requestApproval" then Some ACommand
  else if m =s? "item/fileChange/requestApproval" then Some AFileChange
  else if m =s? "item/permissions/requestApproval" then Some APermission
  else if m =s? "item/tool/requestUserInput" then Some AQuestion
  else None.

Definition normalize_request (r : ServerRequest) : NV := fun s =>
  match request_kind (rq_method r) with
  | None => collect (provider_event PRequest (rq_method r) (rq_params r)) s
  | Some kind =>
      match parse_turn_id (rq_params r) with
      | None => collect (warning ("Codex sent an incomplete " +:+ rq_method r +:+ " request.")) s
      | Some turn_id =>
          let title := approval_title kind (rq_params r) in
          match event_id s with
          | (s', None) => collect (warning "The event ID sequence is exhausted.") s'
          | (s', Some id) => (s', [ApprovalRequested id (nz_session s') turn_id title kind])
          end
      end
  end.

Definition normalize (e : CodexEvent) : NV :=
  match e with
  | Notification n => normalize_notification n
  | Request r => normalize_request r
  | UnmatchedResponse r =>
      collect (warning ("Codex returned a response for unknown request " +:+ RequestId_display (sr_id r) +:+ "."))
  | ConnectionClosed m => fun s => (s, [Error (nz_session s) m])
  end.

(** A whole event stream. *)
Fixpoint normalize_all (es : list CodexEvent) : NV := fun s =>
  match es with
  | [] => (s, [])
  | e :: es =>
      let '(s', out) := normalize e s in
      let '(s'', outs) := normalize_all es s' in
      (s'', out ++ outs)
  end.

(** ** The output tail *)

Lemma next_boundary_spec fuel s start : (start <= String.length s)%nat ->
  (String.length s - start < fuel)%nat ->
  exists n, next_boundary fuel s start = Some n /\ (start <= n <= String.length s)%nat /\
    is_char_boundary s n = true /\ forall k, (start <= k < n)%nat -> is_char_boundary s k = false.
Proof.
  revert start. induction fuel as [|fuel IH]; intros start L F; [lia|]. cbn [next_boundary].
  destruct (is_char_boundary s start) eqn:B.
  - exists start. split_and!; [done|lia|lia|done|]. intros k ?. lia.
  - destruct (decide (start = String.length s)) as [->|N]; [by rewrite is_char_boundary_end in B|].
    destruct (IH (S start) ltac:(lia) ltac:(lia)) as (n&->&?&?&M). exists n.
    split_and!; [done|lia|lia|done|]. intros k Hk. destruct (decide (k = start)) as [->|]; [done|].
    apply M. lia.
Qed.

(** What [append_tail] leaves: the whole text, or its tail from the first
    boundary that fits. *)
Lemma append_tail_spec output delta maximum :
  exists out, append_tail output delta maximum = Some out /\
  let whole := unwrap_or "" output +:+ delta in
  ((String.length whole <= maximum)%nat /\ out = whole \/
   exists n, (maximum < String.length whole)%nat /\ out = sdrop n whole /\
     (String.length whole - maximum <= n <= String.length whole)%nat /\
     is_char_boundary whole n = true /\
     forall k, (String.length whole - maximum <= k < n)%nat -> is_char_boundary whole k = false).
Proof.
  unfold append_tail. cbn zeta. set (whole := unwrap_or "" output +:+ delta).
  destruct (Nat.leb_spec (String.length whole) maximum) as [L|L]; [by exists whole; auto|].
  destruct (next_boundary_spec (S (String.length whole)) whole (String.length whole - maximum))
    as (n&->&?&?&?); [lia..|].
  eexists. split; [done|]. right. exists n. split_and!; try done; lia.
Qed.

Lemma append_tail_some output delta maximum : append_tail output delta maximum <> None.
Proof. destruct (append_tail_spec output delta maximum) as (out&->&_). done. Qed.

(** Appending output keeps it within the limit and valid UTF-8: the result
    is the whole text when it fits, and otherwise a suffix of it that starts at
    a character boundary and is at most three bytes shorter than the limit.  The
    search for the boundary always ends. *)
Theorem output_tail_bounded output delta maximum :
  utf8 (unwrap_or "" output) = true -> utf8 delta = true ->
  exists out, append_tail output delta maximum = Some out /\ utf8 out = true /\
    (String.length out <= maximum)%nat /\
    (exists cut, unwrap_or "" output +:+ delta = cut +:+ out) /\
    (out = unwrap_or "" output +:+ delta \/ (maximum <= String.length out + 3)%nat).
Proof.
  intros U1 U2. destruct (append_tail_spec output delta maximum) as (out&E&H). exists out.
  split; [done|]. cbn zeta in H.
  assert (U : utf8 (unwrap_or "" output +:+ delta) = true) by by apply utf8_app.
  set (whole := unwrap_or "" output +:+ delta) in *.
  destruct H as [[L ->]|(n&L&->&R&B&M)].
  - split_and!; [done..|by exists ""|by left].
  - rewrite length_sdrop. split_and!; [by apply utf8_sdrop|lia| |].
    + exists (stake n whole). by rewrite stake_sdrop.
    + right. destruct (utf8_boundary_near whole (String.length whole - maximum) U) as (k&Hk&Bk); [lia|].
      destruct (decide (n <= String.length whole - maximum + k)%nat) as [|G]; [lia|].
      rewrite M in Bk by lia. done.
Qed.

(** ** Reasoning about methods *)

Lemma NM_bind_eq {A B} (m : NM A) (f : A -> NM B) s :
  (m ≫= f) s = match m s with (s', Some a) => f a s' | (s', None) => (s', None) end.
Proof. done. Qed.

Definition seq_event_id (session : SessionId) (n : Z) : EventId :=
  MkEventId (session_id_str session +:+ ":codex:" +:+ dec n).
Definition item_event (session : SessionId) (item_id : string) : EventId :=
  MkEventId (session_id_str session +:+ ":codex:item:" +:+ item_id).

Lemma event_id_new_codex x y : EventId_new (x +:+ ":codex:" +:+ y) = Ok (MkEventId (x +:+ ":codex:" +:+ y)).
Proof.
  apply string_id_new_ok. split; [|done]. rewrite (sapp_cons ":" "codex:" y). by apply trim_plain_inside.
Qed.

Lemma event_id_eq s : event_id s =
  if (next_event_id s + 1 <=? u64_max)%Z
  then (MkNormalizer (nz_session s) (next_event_id s + 1) (tool_calls s),
        Some (seq_event_id (nz_session s) (next_event_id s)))
  else (s, None).
Proof.
  unfold event_id, checked_add. destruct (next_event_id s + 1 <=? u64_max)%Z; [|done].
  by rewrite event_id_new_codex.
Qed.

Lemma raw_item_event_id_eq i s : raw_item_event_id i s = (s, Some (item_event (nz_session s) i)).
Proof.
  unfold raw_item_event_id. rewrite NM_bind_eq. cbn [gets]. unfold try_opt, item_event.
  change (":codex:item:" +:+ i) with (":codex:" +:+ ("item:" +:+ i)). by rewrite event_id_new_codex.
Qed.

(** The session of an event. *)
Definition event_session (e : AgentEvent) : SessionId :=
  match e with
  | TurnStarted s _ | TurnCompleted s _ _ | UserMessage _ s _ _ | AgentTextDelta _ s _ _
  | ReasoningSummaryDelta _ s _ _ | ToolCallChanged _ s _ _ | ApprovalRequested _ s _ _ _
  | ApprovalResolved _ s _ | UsageChanged s _ | ProviderEvent s _ _ _ | Warning s _ | Error s _ => s
  end.

(** Known tool calls stay known, and output that was collected is not lost. *)
Definition tools_kept (t t' : gmap string ToolCall) : Prop :=
  forall i c, t !! i = Some c -> exists c', t' !! i = Some c' /\ (call_output c <> None -> call_output c' <> None).

(** What an emitted event says about the states before and after it. *)
Definition emit_ok (s s' : CodexEventNormalizer) (e : AgentEvent) : Prop :=
  event_session e = nz_session s /\
  match e with
  | AgentTextDelta id _ _ _ | ReasoningSummaryDelta id _ _ _ | ApprovalRequested id _ _ _ _ =>
      id = seq_event_id (nz_session s) (next_event_id s) /\ next_event_id s' = (next_event_id s + 1)%Z
  | ToolCallChanged id _ _ call =>
      exists i, id = item_event (nz_session s) i /\ tool_calls s' !! i = Some call
  | UserMessage _ _ _ _ | ApprovalResolved _ _ _ => False
  | _ => True
  end.

Definition advance (s s' : CodexEventNormalizer) : Prop :=
  nz_session s' = nz_session s /\
  (next_event_id s <= next_event_id s')%Z /\
  tools_kept (tool_calls s) (tool_calls s').

Definition method_ok (m : NM AgentEvent) : Prop := forall s,
  advance s (m s).1 /\ forall e, (m s).2 = Some e -> emit_ok s (m s).1 e.

Lemma tools_kept_refl t : tools_kept t t.
Proof. intros i c ->. eauto. Qed.

Lemma tools_kept_trans t t' t'' : tools_kept t t' -> tools_kept t' t'' -> tools_kept t t''.
Proof. intros H1 H2 i c Hc. destruct (H1 _ _ Hc) as (c1&E1&O1). destruct (H2 _ _ E1) as (c2&->&O2). eauto. Qed.

Lemma advance_refl s : advance s s.
Proof. split_and!; [done|lia|apply tools_kept_refl]. Qed.

Lemma advance_trans s s' s'' : advance s s' -> advance s' s'' -> advance s s''.
Proof.
  intros (E1&L1&T1) (E2&L2&T2). split_and!; [congruence|lia|by eapply tools_kept_trans].
Qed.

(** A method that does not change the state and emits no id is sound. *)
Lemma method_ok_pure (m : NM AgentEvent) :
  (forall s, (m s).1 = s /\ forall e, (m s).2 = Some e -> emit_ok s s e) -> method_ok m.
Proof. intros H s. destruct (H s) as [-> E]. split; [apply advance_refl|done]. Qed.

Lemma method_ok_opt {A} (o : option A) (f : A -> NM AgentEvent) :
  (forall a, method_ok (f a)) -> method_ok (try_opt o ≫= f).
Proof.
  intros H s. rewrite NM_bind_eq. cbn [try_opt]. destruct o as [a|]; [apply H|].
  split; [apply advance_refl|done].
Qed.

Lemma method_ok_none : method_ok (try_opt None).
Proof. intros s. split; [apply advance_refl|done]. Qed.

Lemma method_ok_warning m : method_ok (warning m).
Proof. apply method_ok_pure. intros s. split; [done|]. by intros e [= <-]. Qed.

Lemma method_ok_provider k n p : method_ok (provider_event k n p).
Proof. apply method_ok_pure. intros s. split; [done|]. by intros e [= <-]. Qed.

(** A method that reads the session and then only builds an event. *)
Lemma method_ok_session (f : SessionId -> NM AgentEvent) :
  (forall sid s, (f sid s).1 = s /\ forall e, (f sid s).2 = Some e -> sid = nz_session s -> emit_ok s s e) ->
  method_ok (gets nz_session ≫= f).
Proof.
  intros H. apply method_ok_pure. intros s. rewrite NM_bind_eq. cbn [gets].
  destruct (H (nz_session s) s) as [-> E]. split; [done|]. intros e He. by apply E.
Qed.

Lemma reasoning_status_ok params text : method_ok (reasoning_status params text).
Proof.
  intros s. unfold reasoning_status. rewrite NM_bind_eq, event_id_eq.
  destruct (Z.leb_spec (next_event_id s + 1) u64_max); [|split; [apply advance_refl|done]].
  unfold gets, try_opt. rewrite !NM_bind_eq. cbn.
  destruct (parse_turn_id params); cbn; (split; [split_and!; [done|cbn; lia|apply tools_kept_refl]|]); [|done].
  by intros e [= <-].
Qed.

Lemma text_delta_ok params reasoning : method_ok (text_delta params reasoning).
Proof.
  intros s. unfold text_delta. rewrite NM_bind_eq, event_id_eq.
  destruct (Z.leb_spec (next_event_id s + 1) u64_max); [|split; [apply advance_refl|done]].
  unfold gets, try_opt. rewrite NM_bind_eq. cbn.
  assert (A : advance s (MkNormalizer (nz_session s) (next_event_id s + 1) (tool_calls s))).
  { split_and!; [done|cbn; lia|apply tools_kept_refl]. }
  destruct (parse_turn_id params); [|split; done]. rewrite NM_bind_eq. cbn.
  destruct (get_str params "delta"); [|split; done]. rewrite NM_bind_eq. cbn.
  destruct reasoning; (split; [done|]); by intros e [= <-].
Qed.

(** Storing a call under an item that keeps the item's output, and its event. *)
Lemma store_ok s i call : (forall c, tool_calls s !! i = Some c -> call_output c <> None -> call_output call <> None) ->
  advance s (MkNormalizer (nz_session s) (next_event_id s) (<[i := call]> (tool_calls s))).
Proof.
  intros H. split_and!; [done|cbn; lia|]. intros k c Hc. cbn. destruct (decide (k = i)) as [->|N].
  - exists call. rewrite lookup_insert_eq. split; [done|]. by apply H.
  - exists c. by rewrite lookup_insert_ne.
Qed.

Lemma update_tool_ok params i f :
  (forall c, call_output c <> None -> call_output (f c) <> None) -> method_ok (update_tool params i f).
Proof.
  intros F s. unfold update_tool. rewrite NM_bind_eq. cbn [gets]. rewrite NM_bind_eq. cbn [try_opt].
  destruct (tool_calls s !! i) as [c|] eqn:E; [|split; [apply advance_refl|done]].
  cbn zeta. rewrite NM_bind_eq. cbn [set_tool]. rewrite NM_bind_eq, raw_item_event_id_eq.
  rewrite !NM_bind_eq. cbn [gets]. rewrite NM_bind_eq. cbn.
  assert (A : advance s (MkNormalizer (nz_session s) (next_event_id s) (<[i := f c]> (tool_calls s)))).
  { apply store_ok. intros c' Hc'. rewrite E in Hc'. injection Hc' as <-. apply F. }
  destruct (parse_turn_id params); cbn; (split; [done|]); [|done].
  intros e [= <-]. split; [done|]. exists i. cbn. by rewrite lookup_insert_eq.
Qed.

Lemma item_event_id_eq item i s : get_str item "id" = Some i ->
  item_event_id item s = (s, Some (item_event (nz_session s) i)).
Proof. intros E. unfold item_event_id. rewrite NM_bind_eq, E. apply raw_item_event_id_eq. Qed.

Lemma tool_changed_eq params state s :
  tool_changed params state s =
  match get params "item" with
  | None => (s, None)
  | Some item =>
      match get_str item "id", tool_call item state with
      | Some i, Some call =>
          let call := merge_call call (tool_calls s !! i) in
          (MkNormalizer (nz_session s) (next_event_id s) (<[i := call]> (tool_calls s)),
           (fun t => ToolCallChanged (item_event (nz_session s) i) (nz_session s) t call) <$> parse_turn_id params)
      | _, _ => (s, None)
      end
  end.
Proof.
  unfold tool_changed. rewrite NM_bind_eq. cbn [try_opt].
  destruct (get params "item") as [item|]; [|done]. rewrite NM_bind_eq. cbn [try_opt].
  destruct (get_str item "id") as [i|] eqn:Ei; [|done]. rewrite NM_bind_eq. cbn [try_opt].
  destruct (tool_call item state) as [call|]; [|done]. rewrite NM_bind_eq. cbn [gets].
  cbn zeta. generalize (merge_call call (tool_calls s !! i)). intros m.
  rewrite NM_bind_eq. cbn [set_tool]. rewrite NM_bind_eq, (item_event_id_eq _ i) by done.
  rewrite NM_bind_eq. cbn [gets]. rewrite NM_bind_eq. cbn.
  by destruct (parse_turn_id params).
Qed.

Lemma tool_changed_ok params state : method_ok (tool_changed params state).
Proof.
  intros s. rewrite tool_changed_eq.
  destruct (get params "item") as [item|]; [|split; [apply advance_refl|done]].
  destruct (get_str item "id") as [i|]; [|split; [apply advance_refl|done]].
  destruct (tool_call item state) as [call|]; [|split; [apply advance_refl|done]]. cbn.
  split.
  - apply store_ok. intros c ->. cbn. by destruct (call_output call).
  - intros e (t&_&->)%fmap_Some. split; [done|]. exists i. cbn. by rewrite lookup_insert_eq.
Qed.

Lemma output_kept delta c : call_output (with_output (append_tail (call_output c) delta TAIL) c) <> None.
Proof. apply append_tail_some. Qed.

(** Every method that may emit an event. *)
Lemma methods_ok params :
  method_ok (turn_started params) /\ method_ok (turn_completed params) /\
  method_ok (summary_part_added params) /\ (forall b, method_ok (auto_review_status params b)) /\
  method_ok (model_safety_status params) /\ method_ok (tool_output params) /\
  method_ok (file_change_updated params) /\ method_ok (terminal_interaction params) /\
  method_ok (tool_progress params) /\ (forall b, method_ok (message params b)) /\
  method_ok (model_rerouted params) /\ method_ok (mcp_oauth_completed params) /\
  method_ok (usage_changed params).
Proof.
  split_and!.
  - apply method_ok_session. intros sid s. rewrite NM_bind_eq. cbn [try_opt].
    destruct (parse_nested_turn_id params); (split; [done|]); [|done]. by intros e [= <-] ->.
  - do 2 (apply method_ok_opt; intros ?). apply method_ok_session. intros sid s.
    rewrite NM_bind_eq. cbn [try_opt]. destruct (_ ≫= _); (split; [done|]); [|done]. by intros e [= <-] ->.
  - apply method_ok_opt. intros n. destruct (n =? 0)%Z; [apply method_ok_none|apply reasoning_status_ok].
  - intros [|]; unfold auto_review_status; cbn zeta.
    + destruct (review ← get params "review"; get_str review "status") as [st|]; [|apply method_ok_none].
      intros s. exact (reasoning_status_ok params _ s).
    + intros s. exact (reasoning_status_ok params _ s).
  - unfold model_safety_status. case_bool_decide; [apply method_ok_none|apply reasoning_status_ok].
  - do 2 (apply method_ok_opt; intros ?). apply update_tool_ok. intros c _. apply output_kept.
  - do 2 (apply method_ok_opt; intros ?). by apply update_tool_ok.
  - do 2 (apply method_ok_opt; intros ?). apply update_tool_ok. intros c _. apply output_kept.
  - do 2 (apply method_ok_opt; intros ?). apply update_tool_ok. intros c. by destruct (nonempty _).
  - intros b. apply method_ok_opt. intros m. destruct (b && _); [apply method_ok_warning|].
    destruct b; [|apply method_ok_warning]. apply method_ok_session. intros sid s.
    split; [done|]. by intros e [= <-] ->.
  - do 2 (apply method_ok_opt; intros ?). apply method_ok_warning.
  - unfold mcp_oauth_completed. case_bool_decide; [apply method_ok_none|apply method_ok_warning].
  - do 3 (apply method_ok_opt; intros ?). apply method_ok_session. intros sid s.
    rewrite NM_bind_eq. cbn [try_opt]. destruct (get_u64 _ "inputTokens"); [|done].
    rewrite NM_bind_eq. cbn [try_opt]. destruct (get_u64 _ "outputTokens"); [|done].
    split; [done|]. by intros e [= <-] ->.
Qed.

(** ** One event *)

(** At most one event, which is sound for the states around it. *)
Definition vec_ok (m : NV) : Prop := forall s,
  advance s (m s).1 /\ ((m s).2 = [] \/ exists e, (m s).2 = [e] /\ emit_ok s (m s).1 e).

Lemma collect_ok m : method_ok m -> vec_ok (collect m).
Proof.
  intros H s. destruct (H s) as [A E]. unfold collect. destruct (m s) as [s' [e|]]; cbn in *; [|by auto].
  split; [done|]. right. exists e. auto.
Qed.

Lemma provider_vec_ok k n p : vec_ok (collect (provider_event k n p)).
Proof. apply collect_ok, method_ok_provider. Qed.

Lemma item_lifecycle_ok method params state : vec_ok (item_lifecycle method params state).
Proof.
  intros s. unfold item_lifecycle. destruct (get params "item") as [item|] eqn:E; [|apply provider_vec_ok].
  destruct (hidden_item item); [split; [apply advance_refl|by left]|].
  destruct (tool_changed_ok params state s) as [A Ev].
  destruct (tool_changed params state s) as [s' [e|]]; cbn in *.
  - split; [done|]. right. exists e. auto.
  - split; [done|]. right. eexists. split; [done|]. split; [|done]. cbn. by destruct A.
Qed.

Lemma normalize_notification_ok n : vec_ok (normalize_notification n).
Proof.
  destruct (methods_ok (sn_params n)) as (?&?&?&?&?&?&?&?&?&?&?&?&?).
  unfold normalize_notification. cbn zeta.
  repeat match goal with |- vec_ok (if ?b then _ else _) => destruct b end;
    try apply item_lifecycle_ok; try apply provider_vec_ok;
    try (by apply collect_ok; auto using text_delta_ok, reasoning_status_ok).
  intros s. split; [apply advance_refl|by left].
Qed.

Lemma normalize_request_ok r : vec_ok (normalize_request r).
Proof.
  intros s. unfold normalize_request. destruct (request_kind (rq_method r)) as [k|]; [|apply provider_vec_ok].
  destruct (parse_turn_id (rq_params r)) as [t|]; [|apply collect_ok, method_ok_warning].
  rewrite event_id_eq. destruct (Z.leb_spec (next_event_id s + 1) u64_max); [|apply collect_ok, method_ok_warning].
  cbn. split; [split_and!; [done|cbn; lia|apply tools_kept_refl]|]. right. by eexists.
Qed.

Lemma normalize_ok e : vec_ok (normalize e).
Proof.
  destruct e as [n|r|r|m]; cbn [normalize].
  - apply normalize_notification_ok.
  - apply normalize_request_ok.
  - apply collect_ok, method_ok_warning.
  - intros s. split; [apply advance_refl|]. right. by eexists.
Qed.

(** ** Streams of events *)

(** The sequence id an event carries, and the id of a tool item. *)
Definition seq_ids (out : list AgentEvent) : list EventId :=
  filter_map (fun e => match e with
    | AgentTextDelta id _ _ _ | ReasoningSummaryDelta id _ _ _ | ApprovalRequested id _ _ _ _ => Some id
    | _ => None end) out.
Definition item_ids (out : list AgentEvent) : list EventId :=
  filter_map (fun e => match e with ToolCallChanged id _ _ _ => Some id | _ => None end) out.

Lemma seq_event_id_inj sid n m : (0 <= n)%Z -> (0 <= m)%Z -> seq_event_id sid n = seq_event_id sid m -> n = m.
Proof. intros Hn Hm [= E]. do 2 apply sapp_inj_r in E. by apply dec_inj. Qed.

Lemma seq_not_item sid n i : seq_event_id sid n <> item_event sid i.
Proof.
  intros [= E]. apply sapp_inj_r in E. change (":codex:item:" +:+ i) with (":codex:" +:+ ("item:" +:+ i)) in E.
  apply sapp_inj_r in E. pose proof (dec_digits n) as D. rewrite E in D. done.
Qed.

Lemma normalize_stream es s : (1 <= next_event_id s)%Z ->
  let '(s', out) := normalize_all es s in
  advance s s' /\ (length out <= length es)%nat /\
  Forall (fun e => event_session e = nz_session s) out /\
  (exists ks, seq_ids out = seq_event_id (nz_session s) <$> ks /\ NoDup ks /\
     Forall (fun k => (next_event_id s <= k < next_event_id s')%Z) ks) /\
  Forall (fun id => exists i, id = item_event (nz_session s) i) (item_ids out).
Proof.
  revert s. induction es as [|e es IH]; intros s Hs; cbn [normalize_all].
  { split_and!; [apply advance_refl|done|done| |done]. exists []. by split_and!; constructor. }
  destruct (normalize_ok e s) as [A V]. destruct (normalize e s) as [s1 out]. cbn [fst snd] in *.
  pose proof A as (Es&Ln&_). specialize (IH s1 ltac:(lia)).
  destruct (normalize_all es s1) as [s2 outs].
  destruct IH as (A2&Ll&Fs&(ks&Ek&Nk&Fk)&Fi). rewrite Es in *.
  assert (Mono : (next_event_id s1 <= next_event_id s2)%Z) by apply A2.
  assert (Fk' : Forall (fun k => (next_event_id s <= k < next_event_id s2)%Z) ks).
  { eapply List.Forall_impl; [|exact Fk]. cbn. intros. lia. }
  split; [by eapply advance_trans|].
  destruct V as [ -> | (ev & -> & Hev & Hid) ].
  { cbn. split_and!; [lia|done|by exists ks|done]. }
  cbn [app length]. split; [lia|]. split; [by constructor|].
  unfold seq_ids, item_ids in *. cbn [filter_map].
  destruct ev; try done; try (split; [by exists ks|done]).
  1,2,4: destruct Hid as [-> Hn]; (split; [|done]); exists (next_event_id s :: ks);
    cbn; rewrite Ek; split_and!; [done| |constructor; [lia|done]];
    apply list.NoDup_cons; split; [|done];
    intros Hin; rewrite Forall_forall in Fk; specialize (Fk _ (proj1 (list_elem_of_In _ _) Hin)); lia.
  destruct Hid as (i&->&_). split; [by exists ks|]. constructor; [by exists i|done].
Qed.

(** C33: over any stream of events from the app server, a session's normalizer
    emits at most one event per input, all of them for its own session; text,
    reasoning and approval events get ids that never repeat and that no tool
    call carries. *)
Theorem stream_ids_unique (sid : SessionId) (es : list CodexEvent) :
  let '(_, out) := normalize_all es (normalizer_new sid) in
  (length out <= length es)%nat /\ Forall (fun e => event_session e = sid) out /\
  NoDup (seq_ids out) /\ (forall id, id ∈ seq_ids out -> id ∈ item_ids out -> False).
Proof.
  pose proof (normalize_stream es (normalizer_new sid) ltac:(cbn; lia)) as H.
  destruct (normalize_all es (normalizer_new sid)) as [s' out].
  destruct H as (_&L&F&(ks&Ek&Nk&Fk)&Fi). cbn [nz_session normalizer_new next_event_id] in *.
  split_and!; [done|done| |].
  - rewrite Ek. rewrite Forall_forall in Fk. apply NoDup_fmap_2_strong; [|done].
    intros x y Hx Hy. apply seq_event_id_inj;
      [apply list_elem_of_In, Fk in Hx|apply list_elem_of_In, Fk in Hy]; cbn in *; lia.
  - intros id Hs Hi. rewrite Ek in Hs. apply list_elem_of_fmap in Hs as (k&->&_).
    rewrite Forall_forall in Fi. apply list_elem_of_In, Fi in Hi as (i&E). by eapply seq_not_item.
Qed.

(** The events about a tool call follow the normalizer's record of it: each
    one carries exactly the call that is stored for its item, no event forgets
    a tool call, and a call that has output never goes back to having none. *)
Theorem tool_events_follow_record (e : CodexEvent) (s : CodexEventNormalizer) :
  let '(s', out) := normalize e s in
  (forall id se t call, ToolCallChanged id se t call ∈ out ->
     exists i, id = item_event (nz_session s) i /\ tool_calls s' !! i = Some call) /\
  (forall i c, tool_calls s !! i = Some c ->
     exists c', tool_calls s' !! i = Some c' /\ (call_output c <> None -> call_output c' <> None)).
Proof.
  destruct (normalize_ok e s) as [(_&_&T) V]. destruct (normalize e s) as [s' out]. cbn in *.
  split; [|exact T]. intros id se t call Hin.
  destruct V as [ -> | (ev & -> & Hs & Hev) ]; [by apply elem_of_nil in Hin|].
  apply list_elem_of_singleton in Hin as <-. done.
Qed.

(** No request of the app server is dropped: it yields exactly one event,
    an approval with the request's turn and a fresh id when the method is known,
    the turn id is valid and ids are left, and otherwise a warning or the raw
    request, never silence. *)
Theorem request_always_visible (r : ServerRequest) (s : CodexEventNormalizer) :
  (normalize (Request r) s).2 =
    [match request_kind (rq_method r), parse_turn_id (rq_params r) with
     | None, _ => ProviderEvent (nz_session s) PRequest (rq_method r)
                    (match to_string (rq_params r) with Ok p => p | Err e => error_to_string e end)
     | Some _, None => Warning (nz_session s) ("Codex sent an incomplete " +:+ rq_method r +:+ " request.")
     | Some kind, Some t =>
         if (next_event_id s <? u64_max)%Z then
           ApprovalRequested (seq_event_id (nz_session s) (next_event_id s)) (nz_session s) t
             (approval_title kind (rq_params r)) kind
         else Warning (nz_session s) "The event ID sequence is exhausted."
     end].
Proof.
  cbn [normalize]. unfold normalize_request.
  destruct (request_kind (rq_method r)) as [k|]; [|done].
  destruct (parse_turn_id (rq_params r)) as [t|]; [|done]. rewrite event_id_eq.
  destruct (Z.leb_spec (next_event_id s + 1) u64_max), (Z.ltb_spec (next_event_id s) u64_max);
    try done; lia.
Qed.

(** The notifications that have a meaning of their own. *)
Definition known_methods : list string :=
  ["turn/started"; "turn/completed"; "item/agentMessage/delta"; "item/plan/delta";
   "item/reasoning/textDelta"; "item/reasoning/summaryTextDelta"; "item/reasoning/summaryPartAdded";
   "item/autoApprovalReview/started"; "item/autoApprovalReview/completed";
   "autoApprovalReview/strictReviewRequired"; "item/started"; "item/completed";
   "item/commandExecution/outputDelta"; "item/commandExecution/terminalInteraction";
   "item/fileChange/outputDelta"; "item/fileChange/patchUpdated"; "item/mcpToolCall/progress";
   "thread/tokenUsage/updated"; "warning"; "guardianWarning"; "configWarning"; "deprecationNotice";
   "model/rerouted"; "model/safetyBuffering/updated"; "model/verification";
   "mcpServer/oauthLogin/completed"; "error"].

Lemma unknown_method n : sn_method n ∉ known_methods ->
  normalize_notification n = collect (provider_event PNotification (sn_method n) (sn_params n)).
Proof.
  intros N. unfold normalize_notification. cbn zeta.
  assert (K : forall m, List.existsb (String.eqb m) known_methods = true -> (sn_method n =s? m) = false).
  { intros m (x&Hx&->%String.eqb_eq)%List.existsb_exists. apply String.eqb_neq. intros <-.
    by apply N, list_elem_of_In. }
  rewrite !K by reflexivity. done.
Qed.

(** A notification the normalizer does not know is passed on with its name
    and its whole payload and changes nothing; the hidden reasoning text of the
    model never becomes an event and changes nothing. *)
Theorem notifications_passed_or_hidden (n : ServerNotification) (s : CodexEventNormalizer) :
  (sn_method n ∉ known_methods ->
   normalize (Notification n) s =
     (s, [ProviderEvent (nz_session s) PNotification (sn_method n)
            (match to_string (sn_params n) with Ok p => p | Err e => error_to_string e end)])) /\
  (sn_method n = "item/reasoning/textDelta" -> normalize (Notification n) s = (s, [])).
Proof.
  cbn [normalize]. split.
  - intros N. by rewrite unknown_method.
  - intros E. unfold normalize_notification. cbn zeta. by rewrite E.
Qed.

(** A text notification of turn [t] with text [d]. *)
Definition text_notification (e : CodexEvent) (t : TurnId) (d : string) : Prop :=
  exists n, e = Notification n /\
    (sn_method n = "item/agentMessage/delta" \/ sn_method n = "item/plan/delta") /\
    parse_turn_id (sn_params n) = Some t /\ get_str (sn_params n) "delta" = Some d.

Lemma text_notification_step e t d s : text_notification e t d -> (next_event_id s < u64_max)%Z ->
  normalize e s =
    (MkNormalizer (nz_session s) (next_event_id s + 1) (tool_calls s),
     [AgentTextDelta (seq_event_id (nz_session s) (next_event_id s)) (nz_session s) t d]).
Proof.
  intros (n&->&M&T&D) L. cbn [normalize].
  assert (normalize_notification n = collect (text_delta (sn_params n) false)) as ->.
  { unfold normalize_notification. cbn zeta. destruct n as [m p]. cbn in M |- *.
    by destruct M as [ -> | -> ]. }
  unfold collect, text_delta. rewrite NM_bind_eq, event_id_eq.
  destruct (Z.leb_spec (next_event_id s + 1) u64_max); [|lia].
  rewrite NM_bind_eq. cbn [try_opt]. rewrite T, NM_bind_eq. cbn [try_opt]. rewrite D. done.
Qed.

(** The text of an answer arrives complete and in order: a stream of text
    deltas comes out as the same texts, each in an event of its turn. *)
Theorem text_stream_preserved (ds : list (CodexEvent * (TurnId * string))) (s : CodexEventNormalizer) :
  Forall (fun x => text_notification x.1 x.2.1 x.2.2) ds ->
  (next_event_id s + Z.of_nat (length ds) <= u64_max)%Z ->
  filter_map (fun e => match e with AgentTextDelta _ _ t d => Some (t, d) | _ => None end)
    (normalize_all ds.*1 s).2 = ds.*2.
Proof.
  intros H. revert s. induction H as [|[e [t d]] ds He _ IH]; intros s L; [done|].
  cbn [fmap list_fmap fst snd normalize_all length] in *.
  rewrite (text_notification_step e t d) by (done || lia).
  specialize (IH (MkNormalizer (nz_session s) (next_event_id s + 1) (tool_calls s))).
  cbn [next_event_id] in IH. destruct (normalize_all ds.*1 _) as [s'' outs].
  cbn. cbn in IH. rewrite IH by lia. done.
Qed.
End normalize.

Module TreeNormalize.
Import Tree.
#[local] Existing Instance Tree.serde.

Definition delta_event (text : string) : CodexEvent :=
  Notification (MkServerNotification "item/agentMessage/delta"
    (GenNode 4 [GenLeaf (inl "turnId"); GenLeaf (inl "turn-1"); GenLeaf (inl "delta"); GenLeaf (inl text)] : Value)).

Lemma text_stream_preserved_witness :
  filter_map (fun e => match e with AgentTextDelta _ _ t d => Some (t, d) | _ => None end)
    (normalize_all [delta_event "Hello "; delta_event "world"] (normalizer_new (MkSessionId "s"))).2
  = [(MkTurnId "turn-1", "Hello "); (MkTurnId "turn-1", "world")].
Proof.
  apply (text_stream_preserved
    [(delta_event "Hello ", (MkTurnId "turn-1", "Hello ")); (delta_event "world", (MkTurnId "turn-1", "world"))]).
  - repeat apply Forall_cons_2; try apply Forall_nil_2; (eexists; split_and!; [reflexivity|left; reflexivity|reflexivity|reflexivity]).
  - vm_compute. discriminate.
Defined.

Lemma output_tail_bounded_witness :
  exists out, append_tail (Some "abc") "def" 4 = Some out /\ utf8 out = true /\
    (String.length out <= 4)%nat /\
    (exists cut, unwrap_or "" (Some "abc") +:+ "def" = cut +:+ out) /\
    (out = unwrap_or "" (Some "abc") +:+ "def" \/ (4 <= String.length out + 3)%nat).
Proof. exact (output_tail_bounded (Some "abc") "def" 4 eq_refl eq_refl). Defined.
End TreeNormalize.
