(* ===== verification/Breaker.v ===== *)
(** * [xai-circuit-breaker]: the breaker, its window and the retry policies

    The sliding window ([window.rs]), the configuration ([config.rs]), the
    three-state machine ([breaker.rs], [state.rs], with the observer callbacks
    of [observer.rs] as a log), the registry ([registry.rs]) and the HTTP and
    gRPC retry policies ([retry_policy.rs], [grpc.rs]).  A call of the breaker
    is one step, and its clock readings are its arguments.  Instants and
    durations are nanoseconds. *)

From S2P Require Import Prelude RustStr Float64.

(** ** [window.rs] *)

Definition MAX_WINDOW_ENTRIES : nat := Z.to_nat 10000.

Record SlidingWindow : Type := MkWindow { entries : list (Z * bool); failures : Z }.

Definition window_new : SlidingWindow := MkWindow [] 0.

(** [usize] decrement: it wraps in a release build. *)
Definition usize_dec (n : Z) : Z := (n - 1) mod 2 ^ 64.

Definition window_push (w : SlidingWindow) (is_failure : bool) (at_ : Z) : SlidingWindow :=
  let w :=
    if (MAX_WINDOW_ENTRIES <=? length (entries w))%nat then
      match entries w with
      | (_, was_failure) :: rest =>
          MkWindow rest (if was_failure then usize_dec (failures w) else failures w)
      | [] => w
      end
    else w in
  MkWindow (entries w ++ [(at_, is_failure)]) (if is_failure then failures w + 1 else failures w)%Z.

(** The loop of [evict]. *)
Fixpoint evict_loop (cutoff : Z) (es : list (Z * bool)) (failures : Z) : SlidingWindow :=
  match es with
  | (ts, was_failure) :: rest =>
      if (ts <? cutoff)%Z then evict_loop cutoff rest (if was_failure then usize_dec failures else failures)
      else MkWindow es failures
  | [] => MkWindow [] failures
  end.

(** [Instant::checked_sub], with the earliest instant of the platform. *)
Definition instant_checked_sub (instant_min now d : Z) : option Z :=
  if (instant_min <=? now - d)%Z then Some (now - d)%Z else None.

Definition window_evict (instant_min : Z) (w : SlidingWindow) (window now : Z) : SlidingWindow :=
  match instant_checked_sub instant_min now window with
  | None => w
  | Some cutoff => evict_loop cutoff (entries w) (failures w)
  end.

Definition window_error_rate (w : SlidingWindow) : f64 :=
  match entries w with
  | [] => f64_0
  | es => f64_div (f64_of_Z (failures w)) (f64_of_Z (Z.of_nat (length es)))
  end.

Definition sample_count (w : SlidingWindow) : nat := length (entries w).

Definition window_clear (w : SlidingWindow) : SlidingWindow := MkWindow [] 0.

(** ** [config.rs] *)

Definition DEFAULT_FAILURE_CODES : list Z := [429; 500; 502; 503; 504]%Z.

Record BreakerConfig : Type := MkBreakerConfig {
  window_duration : Z; min_samples : Z; error_rate_threshold : f64; open_duration : Z;
  half_open_max_probes : Z; failure_codes : gset Z; enabled : bool }.

Definition secs (n : Z) : Z := n * 1000000000.

Definition default_failure_codes : gset Z := list_to_set DEFAULT_FAILURE_CODES.

Definition config_server : BreakerConfig :=
  MkBreakerConfig (secs 60) 10 f64_half (secs 10) 1 default_failure_codes true.

Definition config_client : BreakerConfig :=
  MkBreakerConfig (secs 60) 5 f64_half (secs 60) 1 {[401%Z]} true.

Definition parse_failure_codes (s : string) : gset Z :=
  list_to_set (filter_map (fun c => parse_unsigned u16_max (trim c)) (split_char "," s)).

Definition lookup_or {T} (parse : string -> option T) (get : string -> option string) (key : string)
    (default : T) : T :=
  match get key with
  | Some v => match parse v with Some parsed => parsed | None => default end
  | None => default
  end.

(** [bool::from_str] *)
Definition parse_bool (s : string) : option bool :=
  if s =s? "true" then Some true else if s =s? "false" then Some false else None.

(** [f64::from_str] is the argument [parse_f64]. *)
Definition from_lookup_with_prefix (parse_f64 : string -> option f64) (prefix : string)
    (get : string -> option string) : BreakerConfig :=
  let key k := prefix +:+ k in
  let codes :=
    match get (key "FAILURE_CODES") with
    | Some raw =>
        let codes := parse_failure_codes raw in
        if bool_decide (codes = ∅) then default_failure_codes else codes
    | None => default_failure_codes
    end in
  MkBreakerConfig
    (secs (lookup_or (parse_unsigned u64_max) get (key "WINDOW_SECS") 60%Z))
    (lookup_or parse_usize get (key "MIN_SAMPLES") 10)%Z
    (lookup_or parse_f64 get (key "ERROR_RATE_THRESHOLD") f64_half)
    (secs (lookup_or (parse_unsigned u64_max) get (key "OPEN_DURATION_SECS") 10%Z))
    (Z.max (lookup_or parse_usize get (key "HALF_OPEN_MAX_PROBES") 1) 1)%Z
    codes
    (lookup_or parse_bool get (key "ENABLED") true).

Definition is_failure_status (c : BreakerConfig) (status : Z) : bool :=
  bool_decide (status ∈ failure_codes c).

(** ** [state.rs] and [observer.rs] *)

Inductive BreakerState : Type := BClosed | BOpen | BHalfOpen.

#[export] Instance BreakerState_eq_dec : EqDecision BreakerState.
Proof. solve_decision. Defined.

Definition state_to_u8 (s : BreakerState) : Z := match s with BClosed => 0 | BOpen => 1 | BHalfOpen => 2 end.
Definition state_from_u8 (v : Z) : BreakerState :=
  if (v =? 1)%Z then BOpen else if (v =? 2)%Z then BHalfOpen else BClosed.

Inductive Outcome : Type := Success | Failure.

Record BreakerOpenErr : Type := MkBreakerOpen { retry_after : Z }.

(** The observer's callbacks. *)
Inductive Callback : Type :=
| on_state_change (old new : BreakerState) (reason : string)
| on_probe_admission (allowed : bool)
| on_outcome (o : Outcome) (status : BreakerState).

(** ** [breaker.rs] *)

Record CircuitBreaker : Type := MkBreaker {
  b_config : BreakerConfig; b_state : Z; b_baseline : Z; opened_at_millis : Z;
  half_open_probes : Z; probe_claimed_at_millis : Z; is_open_fast : bool;
  b_window : SlidingWindow; b_log : list Callback }.

Section breaker.
Context (instant_min : Z).

Definition with_clock (config : BreakerConfig) (now : Z) : CircuitBreaker :=
  let config := MkBreakerConfig (window_duration config) (min_samples config) (error_rate_threshold config)
    (open_duration config) (Z.max (half_open_max_probes config) 1) (failure_codes config) (enabled config) in
  MkBreaker config (state_to_u8 BClosed) now 0 0 0 false window_new [].

Definition state (b : CircuitBreaker) : BreakerState := state_from_u8 (b_state b).
Definition is_open (b : CircuitBreaker) : bool := is_open_fast b.

Definition notify_observer (b : CircuitBreaker) (c : Callback) : CircuitBreaker :=
  MkBreaker (b_config b) (b_state b) (b_baseline b) (opened_at_millis b) (half_open_probes b)
    (probe_claimed_at_millis b) (is_open_fast b) (b_window b) (b_log b ++ [c]).

Definition with_window (b : CircuitBreaker) (w : SlidingWindow) : CircuitBreaker :=
  MkBreaker (b_config b) (b_state b) (b_baseline b) (opened_at_millis b) (half_open_probes b)
    (probe_claimed_at_millis b) (is_open_fast b) w (b_log b).

(** [as_millis() as u64] of a duration *)
Definition millis (d : Z) : Z := (d / 1000000) mod 2 ^ 64.

Definition elapsed_millis (b : CircuitBreaker) (now : Z) : Z := millis (sat_sub now (b_baseline b)).

Definition on_change (prev new : BreakerState) (reason : string) (b : CircuitBreaker) : CircuitBreaker :=
  if bool_decide (prev <> new) then notify_observer b (on_state_change prev new reason) else b.

Definition trip (b : CircuitBreaker) (prev : BreakerState) (reason : string) (now : Z) : CircuitBreaker :=
  on_change prev BOpen reason
    (MkBreaker (b_config b) (state_to_u8 BOpen) (b_baseline b) (elapsed_millis b now) 0
       (probe_claimed_at_millis b) true (b_window b) (b_log b)).

Definition breaker_close (b : CircuitBreaker) (prev : BreakerState) (reason : string) : CircuitBreaker :=
  on_change prev BClosed reason
    (MkBreaker (b_config b) (state_to_u8 BClosed) (b_baseline b) (opened_at_millis b) 0
       (probe_claimed_at_millis b) false (window_clear (b_window b)) (b_log b)).

Definition HALF_OPEN_PROBE_BACKOFF : Z := 50 * 1000000.

Definition with_probes (b : CircuitBreaker) (probes claimed : Z) : CircuitBreaker :=
  MkBreaker (b_config b) (b_state b) (b_baseline b) (opened_at_millis b) probes claimed
    (is_open_fast b) (b_window b) (b_log b).

Definition try_half_open_probe (b : CircuitBreaker) (t : Z) : CircuitBreaker * result BreakerOpenErr unit :=
  let now := elapsed_millis b t in
  let prev := half_open_probes b in
  let b := with_probes b ((prev + 1) mod 2 ^ 64) (probe_claimed_at_millis b) in
  if (prev <? half_open_max_probes (b_config b))%Z then
    (notify_observer (with_probes b (half_open_probes b) now) (on_probe_admission true), Ok tt)
  else
    let b := with_probes b ((half_open_probes b - 1) mod 2 ^ 64) (probe_claimed_at_millis b) in
    let lease_millis := millis (open_duration (b_config b)) in
    let claimed := probe_claimed_at_millis b in
    if (lease_millis <=? sat_sub now claimed)%Z then
      (notify_observer (with_probes b (half_open_probes b) now) (on_probe_admission true), Ok tt)
    else
      (notify_observer b (on_probe_admission false),
       Err (MkBreakerOpen (Z.min HALF_OPEN_PROBE_BACKOFF (open_duration (b_config b))))).

(** [cas_state]: the breaker after it and whether it succeeded. *)
Definition cas_state (b : CircuitBreaker) (from to : BreakerState) : CircuitBreaker * bool :=
  if (b_state b =? state_to_u8 from)%Z then
    (MkBreaker (b_config b) (state_to_u8 to) (b_baseline b) (opened_at_millis b) (half_open_probes b)
       (probe_claimed_at_millis b) (is_open_fast b) (b_window b) (b_log b), true)
  else (b, false).

(** [t1] and [t2] are the clock at the first and the second reading. *)
Definition check_open (b : CircuitBreaker) (t1 t2 : Z) : CircuitBreaker * result BreakerOpenErr unit :=
  let elapsed := (sat_sub (elapsed_millis b t1) (opened_at_millis b) * 1000000)%Z in
  if (open_duration (b_config b) <=? elapsed)%Z then
    let '(b, won) := cas_state b BOpen BHalfOpen in
    if won then
      let b := MkBreaker (b_config b) (b_state b) (b_baseline b) (opened_at_millis b) (half_open_probes b)
                 (probe_claimed_at_millis b) false (b_window b) (b_log b) in
      try_half_open_probe (notify_observer b (on_state_change BOpen BHalfOpen "open_elapsed")) t2
    else
      match state b with
      | BClosed => (b, Ok tt)
      | BHalfOpen => try_half_open_probe b t2
      | BOpen =>
          let elapsed := (sat_sub (elapsed_millis b t2) (opened_at_millis b) * 1000000)%Z in
          (b, Err (MkBreakerOpen (sat_sub (open_duration (b_config b)) elapsed)))
      end
  else (b, Err (MkBreakerOpen (sat_sub (open_duration (b_config b)) elapsed))).

Definition check (b : CircuitBreaker) (t1 t2 : Z) : CircuitBreaker * result BreakerOpenErr unit :=
  if negb (enabled (b_config b)) then (b, Ok tt)
  else match state b with
       | BClosed => (b, Ok tt)
       | BOpen => check_open b t1 t2
       | BHalfOpen => try_half_open_probe b t1
       end.

(** Push the sample and evict, as [record] does under the lock. *)
Definition sampled (b : CircuitBreaker) (is_failure : bool) (now : Z) : SlidingWindow :=
  window_evict instant_min (window_push (b_window b) is_failure now) (window_duration (b_config b)) now.

Definition should_trip (c : BreakerConfig) (w : SlidingWindow) : bool :=
  (min_samples c <=? Z.of_nat (sample_count w))%Z && f64_ge (window_error_rate w) (error_rate_threshold c).

Definition record (b : CircuitBreaker) (outcome : Outcome) (t1 t2 : Z) : CircuitBreaker :=
  if negb (enabled (b_config b)) then b
  else
    let is_failure := match outcome with Failure => true | Success => false end in
    let now := t1 in
    let prev_state := state b in
    let b :=
      match prev_state with
      | BClosed =>
          let w := sampled b is_failure now in
          let b := with_window b w in
          if should_trip (b_config b) w then trip b prev_state "trip" t2 else b
      | BHalfOpen =>
          if is_failure then trip b prev_state "probe_failure" t2 else breaker_close b prev_state "probe_success"
      | BOpen => with_window b (sampled b is_failure now)
      end in
    notify_observer b (on_outcome outcome (state b)).

Definition error_rate (b : CircuitBreaker) (now : Z) : CircuitBreaker * f64 :=
  let w := window_evict instant_min (b_window b) (window_duration (b_config b)) now in
  (with_window b w, window_error_rate w).

(** A call of the breaker with its clock readings. *)
Inductive BreakerOp : Type :=
| OpCheck (t1 t2 : Z) | OpRecord (o : Outcome) (t1 t2 : Z) | OpErrorRate (t : Z).

Definition apply_op (b : CircuitBreaker) (o : BreakerOp) : CircuitBreaker :=
  match o with
  | OpCheck t1 t2 => (check b t1 t2).1
  | OpRecord o t1 t2 => record b o t1 t2
  | OpErrorRate t => (error_rate b t).1
  end.

Definition run_ops (b : CircuitBreaker) (os : list BreakerOp) : CircuitBreaker := foldl apply_op b os.

(** ** [registry.rs] *)

(** The registry hands out shared breakers: a handle is a location. *)
Record Registry : Type := MkRegistry {
  reg_config : BreakerConfig; reg_breakers : gmap string nat; reg_heap : list CircuitBreaker }.

Definition registry_new (config : BreakerConfig) : Registry := MkRegistry config ∅ [].

Definition registry_get (r : Registry) (key : string) (now : Z) : Registry * option nat :=
  if negb (enabled (reg_config r)) then (r, None)
  else match reg_breakers r !! key with
       | Some cb => (r, Some cb)
       | None =>
           let cb := length (reg_heap r) in
           (MkRegistry (reg_config r) (<[key := cb]> (reg_breakers r))
              (reg_heap r ++ [with_clock (reg_config r) now]), Some cb)
       end.
End breaker.

(** ** [retry_policy.rs] and [grpc.rs] *)

Inductive Disposition : Type := Retryable | AuthRefresh | Terminal.

Record RetryPolicy : Type := MkRetryPolicy {
  rp_retryable : list Z; rp_auth_refresh : list Z; rp_terminal : list Z; rp_default : Disposition }.

Definition contains_code (l : list Z) (s : Z) : bool := bool_decide (s ∈ l).

Definition rp_classify (p : RetryPolicy) (status : Z) : option Disposition :=
  if ((200 <=? status) && (status <? 300))%Z then None
  else if contains_code (rp_auth_refresh p) status then Some AuthRefresh
  else if contains_code (rp_terminal p) status then Some Terminal
  else if contains_code (rp_retryable p) status || ((500 <=? status) && (status <? 600))%Z then Some Retryable
  else Some (rp_default p).

Definition should_retry (p : RetryPolicy) (status : Z) : bool :=
  match rp_classify p status with Some Retryable => true | _ => false end.

Definition policy_server : RetryPolicy := MkRetryPolicy [429]%Z [] [] Terminal.
Definition policy_edge_client : RetryPolicy := MkRetryPolicy [429]%Z [] [525; 526]%Z Terminal.
Definition policy_client_storage : RetryPolicy :=
  MkRetryPolicy [] [401]%Z [400; 403; 404; 525; 526]%Z Retryable.

(** [tonic::Code], of which the policies use equality and five codes. *)
Class TonicCode : Type := MkTonicCode {
  Code : Type; Code_eq_dec :: EqDecision Code;
  COk : Code; CUnavailable : Code; CUnknown : Code; CInternal : Code; CDeadlineExceeded : Code }.

Section grpc.
Context `{TonicCode}.

Record GrpcRetryPolicy : Type := MkGrpc { grpc_retryable : list Code }.

Definition GRPC_DEFAULT : GrpcRetryPolicy := MkGrpc [CUnavailable; CUnknown].
Definition GRPC_PERMISSIVE : GrpcRetryPolicy := MkGrpc [CUnavailable; CUnknown; CInternal; CDeadlineExceeded].

Definition is_retryable (p : GrpcRetryPolicy) (code : Code) : bool := bool_decide (code ∈ grpc_retryable p).

Definition grpc_classify (p : GrpcRetryPolicy) (code : Code) : option Disposition :=
  if bool_decide (code = COk) then None
  else if is_retryable p code then Some Retryable
  else Some Terminal.
End grpc.

(** ** The window *)

Definition fails (es : list (Z * bool)) : Z := Z.of_nat (length (List.filter snd es)).

(** The counter is the number of failures in the window, and the window is
    bounded. *)
Definition window_inv (w : SlidingWindow) : Prop :=
  failures w = fails (entries w) /\ (length (entries w) <= MAX_WINDOW_ENTRIES)%nat.

Lemma fails_cons t b es : fails ((t, b) :: es) = ((if b then 1 else 0) + fails es)%Z.
Proof. unfold fails. cbn. destruct b; cbn; lia. Qed.

Lemma fails_snoc es t b : fails (es ++ [(t, b)]) = (fails es + if b then 1 else 0)%Z.
Proof. unfold fails. rewrite List.filter_app, length_app. cbn. destruct b; cbn; lia. Qed.

Lemma fails_bound es : (0 <= fails es <= Z.of_nat (length es))%Z.
Proof. unfold fails. pose proof (List.filter_length_le snd es). lia. Qed.

Lemma usize_dec_exact es t : (length es <= MAX_WINDOW_ENTRIES)%nat ->
  usize_dec (fails ((t, true) :: es)) = fails es.
Proof.
  intros L. rewrite fails_cons. unfold usize_dec. pose proof (fails_bound es).
  replace (1 + fails es - 1)%Z with (fails es) by lia. apply Z.mod_small.
  unfold MAX_WINDOW_ENTRIES in L. lia.
Qed.

Lemma window_push_inv w f t : window_inv w -> window_inv (window_push w f t).
Proof.
  destruct w as [es n]. intros [E L]. cbn in *. unfold window_push. cbn [entries failures].
  assert (K : forall es, (length es < MAX_WINDOW_ENTRIES)%nat ->
    window_inv (MkWindow (es ++ [(t, f)]) (if f then fails es + 1 else fails es)%Z)).
  { intros es' L'. split; cbn.
    - rewrite fails_snoc. destruct f; lia.
    - rewrite length_app. cbn. lia. }
  destruct (Nat.leb_spec MAX_WINDOW_ENTRIES (length es)); cbn [entries failures]; [|subst n; by apply K].
  destruct es as [|[t0 b0] es]; cbn [length] in *; [unfold MAX_WINDOW_ENTRIES in *; lia|].
  cbn [entries failures]. replace (if b0 then usize_dec n else n) with (fails es); [apply K; lia|].
  subst n. destruct b0; [by rewrite usize_dec_exact by lia|]. by rewrite fails_cons.
Qed.

(** Eviction drops exactly the expired prefix. *)
Lemma evict_loop_spec cutoff es : (length es <= MAX_WINDOW_ENTRIES)%nat ->
  exists dropped kept, es = dropped ++ kept /\ Forall (fun s => (s.1 < cutoff)%Z) dropped /\
    (forall s, head kept = Some s -> (cutoff <= s.1)%Z) /\
    evict_loop cutoff es (fails es) = MkWindow kept (fails kept).
Proof.
  induction es as [|[t b] es IH]; intros L; cbn [evict_loop].
  - exists [], []. split_and!; [done|constructor|done|done].
  - cbn [length] in L. destruct (Z.ltb_spec t cutoff).
    + destruct IH as (dr&kept&->&Fd&Hk&E); [lia|]. exists ((t, b) :: dr), kept.
      split_and!; [done|by constructor|done|]. rewrite <- E. f_equal.
      destruct b; [by rewrite usize_dec_exact by lia|]. by rewrite fails_cons.
    + exists [], ((t, b) :: es). split_and!; [done|constructor|by intros s [= <-]|done].
Qed.

Lemma window_evict_inv imin w d now : window_inv w -> window_inv (window_evict imin w d now).
Proof.
  intros [E L]. unfold window_evict. destruct (instant_checked_sub _ _ _) as [c|]; [|done].
  rewrite E. destruct (evict_loop_spec c (entries w) L) as (dr&k&Ee&_&_&->).
  split; [done|]. cbn. rewrite Ee, length_app in L. lia.
Qed.

(** Recording a sequence of samples at the window. *)
Definition record_all (imin d : Z) (ss : list (Z * bool)) : SlidingWindow :=
  foldl (fun w s => window_evict imin (window_push w s.2 s.1) d s.1) window_new ss.

(** The times of a sequence do not decrease. *)
Definition monotone (ss : list (Z * bool)) : Prop :=
  forall i j s t, (i <= j)%nat -> ss !! i = Some s -> ss !! j = Some t -> (s.1 <= t.1)%Z.

Lemma monotone_app ss s : monotone (ss ++ [s]) -> monotone ss /\ Forall (fun x => (x.1 <= s.1)%Z) ss.
Proof.
  intros M. split.
  - intros i j x y L Hx Hy. eapply M; [exact L|by apply lookup_app_l_Some..].
  - apply Forall_lookup. intros i x Hx. eapply (M i (length ss)).
    + apply lookup_lt_Some in Hx. lia.
    + by apply lookup_app_l_Some.
    + rewrite lookup_app_r, Nat.sub_diag by lia. done.
Qed.

Lemma filter_mono_suffix c dr kept : Forall (fun s => (s.1 < c)%Z) dr ->
  monotone (dr ++ kept) -> (forall s, head kept = Some s -> (c <= s.1)%Z) ->
  List.filter (fun s => (c <=? s.1)%Z) (dr ++ kept) = kept.
Proof.
  intros Fd M H. rewrite List.filter_app.
  assert (List.filter (fun s : Z * bool => (c <=? s.1)%Z) dr = []) as ->.
  { induction Fd as [|s dr Hs _ IH]; [done|]. cbn. destruct (Z.leb_spec c s.1); [lia|].
    apply IH. intros i j x y L Hx Hy. by apply (M (S i) (S j)); [lia|..]. }
  destruct kept as [|s kept]; [done|]. specialize (H s eq_refl). cbn [app].
  assert (G : Forall (fun x => (c <= x.1)%Z) (s :: kept)).
  { apply Forall_lookup. intros i x Hx. etrans; [exact H|]. apply (M (length dr) (length dr + i)%nat); [lia|..].
    - by rewrite lookup_app_r, Nat.sub_diag by lia.
    - rewrite lookup_app_r by lia. by replace (length dr + i - length dr)%nat with i by lia. }
  clear -G. induction G as [|x l Hx _ IH]; [done|]. cbn. destruct (Z.leb_spec c x.1); [by rewrite IH|lia].
Qed.

(** One more sample: what is kept is a suffix, what is dropped is expired. *)
Lemma record_all_split imin d ss :
  monotone ss -> (length ss <= MAX_WINDOW_ENTRIES)%nat -> (forall x, x ∈ ss -> imin <= x.1 - d)%Z ->
  exists dr kept, ss = dr ++ kept /\ record_all imin d ss = MkWindow kept (fails kept) /\
    (forall c, Forall (fun x => (x.1 - d <= c)%Z) ss -> Forall (fun x => (x.1 < c)%Z) dr) /\
    (forall s k, list.last ss = Some s -> head kept = Some k -> (s.1 - d <= k.1)%Z).
Proof.
  induction ss as [|s ss IH] using rev_ind; intros M L Hi.
  { exists [], []. split_and!; [done..| |done]. intros c _. constructor. }
  destruct (monotone_app _ _ M) as [M' Fs]. rewrite length_app in L. cbn [length] in L.
  destruct IH as (dr&kept&Ess&Er&Fd&Hk); [done|lia|intros x Hx; apply Hi, elem_of_app; by left|].
  unfold record_all in *. rewrite foldl_app, Er. cbn [foldl].
  assert (Lk : (length kept < MAX_WINDOW_ENTRIES)%nat) by (rewrite Ess, length_app in L; lia).
  assert (Ep : window_push (MkWindow kept (fails kept)) s.2 s.1 = MkWindow (kept ++ [s]) (fails (kept ++ [s]))).
  { unfold window_push. cbn [entries failures]. destruct (Nat.leb_spec MAX_WINDOW_ENTRIES (length kept)); [lia|].
    destruct s as [t b]. cbn. rewrite fails_snoc. f_equal. destruct b; lia. }
  rewrite Ep. unfold window_evict, instant_checked_sub. cbn [entries failures].
  destruct (Z.leb_spec imin (s.1 - d)) as [_|X]; cycle 1.
  { specialize (Hi s ltac:(apply elem_of_app; right; by left)). lia. }
  destruct (evict_loop_spec (s.1 - d) (kept ++ [s])) as (dr2&kept2&E2&F2&H2&Ev);
    [rewrite length_app; cbn; lia|].
  exists (dr ++ dr2), kept2. split_and!.
  - rewrite Ess, <- app_assoc, E2, app_assoc. done.
  - exact Ev.
  - intros c Fc. apply Forall_app in Fc as [Fc1 Fc2]. apply Forall_app. split; [by apply Fd|].
    eapply List.Forall_impl; [|exact F2]. intros x Hx. inversion Fc2; subst. cbn in *. lia.
  - intros s' k Hs' Hk'. rewrite last_snoc in Hs'. injection Hs' as <-. by apply H2.
Qed.

(** For samples recorded in time order, the window holds exactly the ones of
    the last [d] nanoseconds before the latest, in order, and its failure
    counter is their number of failures (up to the cap on entries). *)
Theorem window_exact imin d ss s :
  (0 < d)%Z -> monotone (ss ++ [s]) -> (length (ss ++ [s]) <= MAX_WINDOW_ENTRIES)%nat ->
  (forall x, x ∈ ss ++ [s] -> imin <= x.1 - d)%Z ->
  let live := List.filter (fun x => s.1 - d <=? x.1)%Z (ss ++ [s]) in
  entries (record_all imin d (ss ++ [s])) = live /\
  failures (record_all imin d (ss ++ [s])) = fails live.
Proof.
  intros Hd M L Hi. cbn zeta.
  destruct (record_all_split imin d _ M L Hi) as (dr&kept&E&->&Fd&Hk). cbn [entries failures].
  assert (F : Forall (fun x => (x.1 < s.1 - d)%Z) dr).
  { apply Fd. destruct (monotone_app _ _ M) as [_ Fs]. apply Forall_app. split.
    - eapply List.Forall_impl; [|exact Fs]. cbn. intros x Hx. lia.
    - constructor; [lia|done]. }
  rewrite E in M |- *. rewrite filter_mono_suffix; [done|exact F|exact M|].
  intros k. apply Hk. by rewrite last_snoc.
Qed.

Lemma window_exact_witness :
  let ss := [(0, true); (5, false)]%Z in
  let live := List.filter (fun x => 12 - 10 <=? x.1)%Z (ss ++ [(12, true)%Z]) in
  entries (record_all (-100) 10 (ss ++ [(12, true)%Z])) = live /\
  failures (record_all (-100) 10 (ss ++ [(12, true)%Z])) = fails live.
Proof.
  apply (window_exact (-100) 10 [(0, true); (5, false)]%Z (12, true)%Z).
  - lia.
  - intros i j x y Hij Hx Hy.
    destruct i as [|[|[|i]]], j as [|[|[|j]]]; cbn in Hx, Hy; simplify_eq; cbn; lia.
  - unfold MAX_WINDOW_ENTRIES. cbn [app length]. lia.
  - intros x Hx. repeat (apply elem_of_cons in Hx as [ -> |Hx]; [cbn; lia|]). by apply elem_of_nil in Hx.
Defined.

(** ** The state machine *)

Record breaker_inv (b : CircuitBreaker) : Prop := {
  bi_state : b_state b = state_to_u8 (state b);
  bi_mirror : is_open_fast b = bool_decide (state b = BOpen);
  bi_max : (1 <= half_open_max_probes (b_config b) <= usize_max)%Z;
  bi_probes : (0 <= half_open_probes b <= half_open_max_probes (b_config b))%Z;
  bi_idle : state b <> BHalfOpen -> half_open_probes b = 0%Z;
  bi_window : window_inv (b_window b) }.

(** The breaker part of the invariant does not look at the log. *)
Lemma notify_inv b c : breaker_inv b -> breaker_inv (notify_observer b c).
Proof. intros [H1 H2 H3 H4 H5 H6]. by split. Qed.

Lemma on_change_inv prev new reason b : breaker_inv b -> breaker_inv (on_change prev new reason b).
Proof. intros H. unfold on_change. case_bool_decide; [by apply notify_inv|done]. Qed.

Lemma trip_inv b prev reason t : breaker_inv b -> breaker_inv (trip b prev reason t).
Proof.
  intros [H1 H2 H3 H4 H5 H6]. apply on_change_inv. split; cbn; [done|done|done|lia|done|done].
Qed.

Lemma close_inv b prev reason : breaker_inv b -> breaker_inv (breaker_close b prev reason).
Proof.
  intros [H1 H2 H3 H4 H5 H6]. apply on_change_inv. split; cbn; [done|done|done|lia|done|].
  split; [done|cbn; lia].
Qed.

(** What a probe attempt does. *)
Lemma try_probe_eq b t : breaker_inv b ->
  try_half_open_probe b t =
  let now := elapsed_millis b t in
  if (half_open_probes b <? half_open_max_probes (b_config b))%Z then
    (notify_observer (with_probes b (half_open_probes b + 1) now) (on_probe_admission true), Ok tt)
  else if (millis (open_duration (b_config b)) <=? sat_sub now (probe_claimed_at_millis b))%Z then
    (notify_observer (with_probes b (half_open_probes b) now) (on_probe_admission true), Ok tt)
  else
    (notify_observer b (on_probe_admission false),
     Err (MkBreakerOpen (Z.min HALF_OPEN_PROBE_BACKOFF (open_duration (b_config b))))).
Proof.
  intros [_ _ Hm Hp _ _]. unfold try_half_open_probe. cbn zeta. unfold usize_max, u64_max in Hm.
  cbn [half_open_probes with_probes b_config probe_claimed_at_millis].
  destruct (Z.ltb_spec (half_open_probes b) (half_open_max_probes (b_config b))).
  - rewrite Z.mod_small by lia. done.
  - assert (E : (((half_open_probes b + 1) mod 2 ^ 64 - 1) mod 2 ^ 64)%Z = half_open_probes b).
    { rewrite Zminus_mod_idemp_l. replace (half_open_probes b + 1 - 1)%Z with (half_open_probes b) by lia.
      apply Z.mod_small. lia. }
    rewrite E. by destruct b.
Qed.

Lemma try_probe_inv b t : breaker_inv b -> state b = BHalfOpen -> breaker_inv (try_half_open_probe b t).1.
Proof.
  intros H S. rewrite try_probe_eq by done. cbn zeta. destruct H as [H1 H2 H3 H4 H5 H6].
  destruct (Z.ltb_spec (half_open_probes b) (half_open_max_probes (b_config b))); cbn [fst].
  - apply notify_inv. split; cbn; try done; lia.
  - destruct (Z.leb_spec (millis (open_duration (b_config b)))
      (sat_sub (elapsed_millis b t) (probe_claimed_at_millis b))); cbn [fst]; apply notify_inv; by split.
Qed.

(** Entering the half-open state. *)
Definition half_opened (b : CircuitBreaker) : CircuitBreaker :=
  notify_observer
    (MkBreaker (b_config b) (state_to_u8 BHalfOpen) (b_baseline b) (opened_at_millis b) (half_open_probes b)
       (probe_claimed_at_millis b) false (b_window b) (b_log b))
    (on_state_change BOpen BHalfOpen "open_elapsed").

Lemma half_opened_inv b : breaker_inv b -> breaker_inv (half_opened b).
Proof. intros [H1 H2 H3 H4 H5 H6]. by split; cbn. Qed.

Lemma check_open_eq b t1 t2 : breaker_inv b -> state b = BOpen ->
  check_open b t1 t2 =
  let elapsed := (sat_sub (elapsed_millis b t1) (opened_at_millis b) * 1000000)%Z in
  if (open_duration (b_config b) <=? elapsed)%Z then try_half_open_probe (half_opened b) t2
  else (b, Err (MkBreakerOpen (sat_sub (open_duration (b_config b)) elapsed))).
Proof.
  intros H S. unfold check_open. cbn zeta. destruct (Z.leb_spec (open_duration (b_config b))
    (sat_sub (elapsed_millis b t1) (opened_at_millis b) * 1000000)); [|done].
  unfold cas_state. rewrite (bi_state _ H), S. done.
Qed.

Lemma check_inv b t1 t2 : breaker_inv b -> breaker_inv (check b t1 t2).1.
Proof.
  intros H. unfold check. destruct (negb _); [done|]. destruct (state b) eqn:S; [done| |].
  - rewrite check_open_eq by done. cbn zeta. destruct (_ <=? _)%Z; [|done].
    apply try_probe_inv; [by apply half_opened_inv|done].
  - by apply try_probe_inv.
Qed.

Lemma with_window_inv b w : breaker_inv b -> window_inv w -> breaker_inv (with_window b w).
Proof. intros [H1 H2 H3 H4 H5 H6] Hw. by split. Qed.

Lemma sampled_inv imin b f t : breaker_inv b -> window_inv (sampled imin b f t).
Proof. intros H. apply window_evict_inv, window_push_inv, H. Qed.

Lemma record_inv imin b o t1 t2 : breaker_inv b -> breaker_inv (record imin b o t1 t2).
Proof.
  intros H. unfold record. destruct (negb _); [done|]. cbn zeta. apply notify_inv.
  set (f := match o with Failure => true | Success => false end).
  pose proof (with_window_inv b _ H (sampled_inv imin b f t1 H)) as Hw.
  destruct (state b) eqn:S.
  - destruct (should_trip _ _); [by apply trip_inv|done].
  - done.
  - destruct f; [by apply trip_inv|by apply close_inv].
Qed.

Lemma apply_op_inv imin b o : breaker_inv b -> breaker_inv (apply_op imin b o).
Proof.
  intros H. destruct o as [t1 t2|o t1 t2|t]; cbn [apply_op].
  - by apply check_inv.
  - by apply record_inv.
  - apply with_window_inv; [done|]. apply window_evict_inv, H.
Qed.

Lemma with_clock_inv config now : (half_open_max_probes config <= usize_max)%Z ->
  breaker_inv (with_clock config now).
Proof.
  intros H. unfold with_clock. split; cbn; try done.
  - unfold usize_max, u64_max in *. lia.
  - lia.
  - split; [done|cbn; lia].
Qed.

(** C39: after any calls, with any clock readings, the state byte is one of the
    three states, the lock-free mirror is true exactly when the breaker is open,
    no more probe slots are taken than configured and none outside the half-open
    state, and the failure counter is the number of failures in a window of
    bounded size. *)
Theorem breaker_invariant imin config now ops :
  (half_open_max_probes config <= usize_max)%Z ->
  let b := run_ops imin (with_clock config now) ops in
  b_state b = state_to_u8 (state b) /\
  is_open b = bool_decide (state b = BOpen) /\
  (0 <= half_open_probes b <= half_open_max_probes (b_config b))%Z /\
  (state b <> BHalfOpen -> half_open_probes b = 0%Z) /\
  failures (b_window b) = fails (entries (b_window b)) /\
  (length (entries (b_window b)) <= MAX_WINDOW_ENTRIES)%nat.
Proof.
  intros Hm. cbn zeta.
  assert (G : forall b, breaker_inv b -> breaker_inv (run_ops imin b ops)).
  { unfold run_ops. induction ops as [|o ops IH]; intros b H; cbn; [done|]. by apply IH, apply_op_inv. }
  destruct (G _ (with_clock_inv config now Hm)) as [H1 H2 H3 H4 H5 [H6 H7]]. done.
Qed.

Lemma breaker_invariant_witness :
  let b := run_ops 0 (with_clock config_server 0)
             [OpRecord Failure 1 1; OpCheck 2 2; OpRecord Success 3 3] in
  b_state b = state_to_u8 (state b) /\
  is_open b = bool_decide (state b = BOpen) /\
  (0 <= half_open_probes b <= half_open_max_probes (b_config b))%Z /\
  (state b <> BHalfOpen -> half_open_probes b = 0%Z) /\
  failures (b_window b) = fails (entries (b_window b)) /\
  (length (entries (b_window b)) <= MAX_WINDOW_ENTRIES)%nat.
Proof.
  apply (breaker_invariant 0 config_server 0 [OpRecord Failure 1 1; OpCheck 2 2; OpRecord Success 3 3]).
  vm_compute. discriminate.
Defined.

(** ** Shedding and probing *)

(** A state the breaker can be in. *)
Definition breaker_reachable (imin : Z) (b : CircuitBreaker) : Prop :=
  exists config now ops, (half_open_max_probes config <= usize_max)%Z /\
    b = run_ops imin (with_clock config now) ops.

Lemma reachable_breaker_inv imin b : breaker_reachable imin b -> breaker_inv b.
Proof.
  intros (config&now&ops&Hm&->). generalize (with_clock_inv config now Hm).
  generalize (with_clock config now). unfold run_ops.
  induction ops as [|o ops IH]; intros b H; cbn; [done|]. by apply IH, apply_op_inv.
Qed.

(** An open breaker rejects every request until its cool-down has elapsed,
    with the rest of the cool-down as the time to wait, and is not changed by
    them; the first request after the cool-down is let through as a probe and
    leaves the breaker half-open with one slot taken. *)
Theorem open_sheds_until_elapsed imin b t1 t2 :
  breaker_reachable imin b -> enabled (b_config b) = true -> state b = BOpen ->
  let elapsed := (sat_sub (elapsed_millis b t1) (opened_at_millis b) * 1000000)%Z in
  ((elapsed < open_duration (b_config b))%Z ->
   check b t1 t2 = (b, Err (MkBreakerOpen (open_duration (b_config b) - elapsed)%Z))) /\
  ((open_duration (b_config b) <= elapsed)%Z ->
   exists b', check b t1 t2 = (b', Ok tt) /\ state b' = BHalfOpen /\ is_open b' = false /\
     half_open_probes b' = 1%Z).
Proof.
  intros H%reachable_breaker_inv En S. cbn zeta. unfold check. rewrite En, S. cbn [negb].
  rewrite check_open_eq by done. cbn zeta.
  destruct (Z.leb_spec (open_duration (b_config b))
    (sat_sub (elapsed_millis b t1) (opened_at_millis b) * 1000000)) as [Le|Gt]; split; intros; try lia.
  - rewrite try_probe_eq by by apply half_opened_inv. cbn zeta.
    pose proof (bi_idle _ H ltac:(by rewrite S)) as Hz. pose proof (bi_max _ H).
    destruct (Z.ltb_spec (half_open_probes (half_opened b)) (half_open_max_probes (b_config (half_opened b))));
      cbn in *; [|lia].
    eexists. split; [done|]. cbn. rewrite Hz. done.
  - rewrite sat_sub_exact by lia. done.
Qed.

(** Consecutive checks, with the number admitted. *)
Fixpoint run_checks (b : CircuitBreaker) (ts : list Z) : CircuitBreaker * Z :=
  match ts with
  | [] => (b, 0%Z)
  | t :: ts =>
      let '(b, r) := check b t t in
      let '(b, n) := run_checks b ts in
      (b, (match r with Ok _ => 1 | Err _ => 0 end + n)%Z)
  end.

(** While no probe reports back and no claim is older than the lease, a
    half-open breaker admits exactly as many requests as it has free probe
    slots, however many ask. *)
Theorem half_open_admits_free_slots imin b ts :
  breaker_reachable imin b -> enabled (b_config b) = true -> state b = BHalfOpen ->
  Forall (fun t => probe_claimed_at_millis b <= elapsed_millis b t
                   < probe_claimed_at_millis b + millis (open_duration (b_config b)))%Z ts ->
  (run_checks b ts).2 =
    Z.min (Z.of_nat (length ts)) (half_open_max_probes (b_config b) - half_open_probes b).
Proof.
  intros H%reachable_breaker_inv En S F.
  set (c0 := probe_claimed_at_millis b) in F. assert (C : (c0 <= probe_claimed_at_millis b)%Z) by (subst c0; lia).
  clearbody c0. set (f := elapsed_millis b) in F.
  assert (Ef : forall t, elapsed_millis b t = f t) by done. clearbody f.
  set (lease := millis (open_duration (b_config b))) in F.
  assert (El : millis (open_duration (b_config b)) = lease) by done. clearbody lease.
  revert b H En S C Ef El. induction F as [|t ts Ht _ IH]; intros b H En S C Ef El; cbn [run_checks].
  { cbn. pose proof (bi_probes _ H). lia. }
  pose proof (bi_probes _ H) as Hp. unfold check. rewrite En, S. cbn [negb].
  pose proof (try_probe_inv b t H S) as Hi. rewrite (try_probe_eq b t H) in Hi |- *. cbn zeta in *.
  destruct (Z.ltb_spec (half_open_probes b) (half_open_max_probes (b_config b))) as [Lt|Ge]; cbn [fst] in Hi.
  - specialize (IH _ Hi En S). cbn [probe_claimed_at_millis notify_observer with_probes] in IH.
    rewrite Ef in IH. specialize (IH ltac:(lia) Ef El).
    rewrite Ef. destruct (run_checks _ ts) as [b' n]. cbn in *. rewrite IH. lia.
  - destruct (Z.leb_spec (millis (open_duration (b_config b)))
      (sat_sub (elapsed_millis b t) (probe_claimed_at_millis b))) as [X|X].
    { rewrite Ef, El in X. unfold sat_sub in X. lia. }
    cbn [fst] in Hi. specialize (IH _ Hi En S C Ef El).
    destruct (run_checks _ ts) as [b' n]. cbn in *. rewrite IH. lia.
Qed.

(** A probe whose owner never reports back does not strand the breaker: once
    the latest claim is as old as the cool-down, the next request is admitted,
    and its outcome closes the breaker with an empty window or opens it again. *)
Theorem lost_probe_recovers imin b t t1 t2 t3 :
  breaker_reachable imin b -> enabled (b_config b) = true -> state b = BHalfOpen ->
  (millis (open_duration (b_config b)) <= sat_sub (elapsed_millis b t) (probe_claimed_at_millis b))%Z ->
  exists b', check b t t1 = (b', Ok tt) /\ state b' = BHalfOpen /\
    probe_claimed_at_millis b' = elapsed_millis b t /\
    state (record imin b' Success t2 t3) = BClosed /\ entries (b_window (record imin b' Success t2 t3)) = [] /\
    state (record imin b' Failure t2 t3) = BOpen /\ is_open (record imin b' Failure t2 t3) = true.
Proof.
  intros H%reachable_breaker_inv En S L. unfold check. rewrite En, S. cbn [negb].
  rewrite try_probe_eq by done. cbn zeta.
  assert (G : forall p, let b' := notify_observer (with_probes b p (elapsed_millis b t)) (on_probe_admission true) in
    state b' = BHalfOpen /\ probe_claimed_at_millis b' = elapsed_millis b t /\
    state (record imin b' Success t2 t3) = BClosed /\ entries (b_window (record imin b' Success t2 t3)) = [] /\
    state (record imin b' Failure t2 t3) = BOpen /\ is_open (record imin b' Failure t2 t3) = true).
  { intros p. cbn zeta. unfold record. cbn [b_config notify_observer with_probes]. rewrite En. cbn [negb].
    assert (S' : state (notify_observer (with_probes b p (elapsed_millis b t)) (on_probe_admission true)) = BHalfOpen)
      by exact S.
    rewrite S'. done. }
  destruct (half_open_probes b <? half_open_max_probes (b_config b))%Z.
  - eexists. split; [done|]. apply G.
  - destruct (Z.leb_spec (millis (open_duration (b_config b)))
      (sat_sub (elapsed_millis b t) (probe_claimed_at_millis b))); [|lia].
    eexists. split; [done|]. apply G.
Qed.

(** A breaker that trips at the first failure and cools down for 10 ms. *)
Definition demo_config : BreakerConfig :=
  MkBreakerConfig (secs 60) 1 f64_half 10000000 2 ∅ true.
Definition demo_open : CircuitBreaker := run_ops 0 (with_clock demo_config 0) [OpRecord Failure 0 0].
Definition demo_half_open : CircuitBreaker :=
  run_ops 0 (with_clock demo_config 0) [OpRecord Failure 0 0; OpCheck 10000000 10000000].

Lemma demo_open_reachable : breaker_reachable 0 demo_open.
Proof. exists demo_config, 0%Z, [OpRecord Failure 0 0]. split; [vm_compute; discriminate|reflexivity]. Qed.
Lemma demo_half_open_reachable : breaker_reachable 0 demo_half_open.
Proof.
  exists demo_config, 0%Z, [OpRecord Failure 0 0; OpCheck 10000000 10000000].
  split; [vm_compute; discriminate|reflexivity].
Qed.

Lemma open_sheds_until_elapsed_witness :
  check demo_open 3000000 3000000 = (demo_open, Err (MkBreakerOpen 7000000)).
Proof.
  apply (proj1 (open_sheds_until_elapsed 0 demo_open 3000000 3000000 demo_open_reachable
    ltac:(vm_compute; reflexivity) ltac:(vm_compute; reflexivity))).
  vm_compute. reflexivity.
Defined.

Lemma half_open_admits_free_slots_witness :
  (run_checks demo_half_open [11000000; 12000000; 13000000]%Z).2 = 1%Z.
Proof.
  apply (half_open_admits_free_slots 0 demo_half_open [11000000; 12000000; 13000000]%Z demo_half_open_reachable
    ltac:(vm_compute; reflexivity) ltac:(vm_compute; reflexivity)).
  repeat apply Forall_cons_2; try apply Forall_nil_2; vm_compute; split; done.
Defined.

Lemma lost_probe_recovers_witness :
  exists b', check demo_half_open 30000000 30000000 = (b', Ok tt) /\ state b' = BHalfOpen /\
    probe_claimed_at_millis b' = elapsed_millis demo_half_open 30000000 /\
    state (record 0 b' Success 31000000 31000000) = BClosed /\
    entries (b_window (record 0 b' Success 31000000 31000000)) = [] /\
    state (record 0 b' Failure 31000000 31000000) = BOpen /\
    is_open (record 0 b' Failure 31000000 31000000) = true.
Proof.
  apply (lost_probe_recovers 0 demo_half_open 30000000 30000000 31000000 31000000 demo_half_open_reachable
    ltac:(vm_compute; reflexivity) ltac:(vm_compute; reflexivity)).
  vm_compute. discriminate.
Defined.
