(* ===== verification/BotProvider.v ===== *)
(** * [bot-provider]: provider catalog, extension contracts, command ownership

    [extensions.rs], [ownership.rs] and [catalog.rs].  The environment and the
    file system that [catalog.rs] looks at are arguments. *)

From S2P Require Import Prelude RustStr BotCore.

(** ** [extensions.rs] *)

Definition EXTENSION_CONTRACT_VERSION : Z := 1.

Inductive ExtensionCapability : Type :=
| Hooks | Plugins | PluginUpdates | Marketplace | Skills | Workflows | McpServers | McpMutations.

#[export] Instance ExtensionCapability_eq_dec : EqDecision ExtensionCapability.
Proof. solve_decision. Defined.

Definition capabilities_all : list ExtensionCapability :=
  [Hooks; Plugins; PluginUpdates; Marketplace; Skills; Workflows; McpServers; McpMutations].

Definition capability_index (c : ExtensionCapability) : nat :=
  match c with
  | Hooks => 0 | Plugins => 1 | PluginUpdates => 2 | Marketplace => 3
  | Skills => 4 | Workflows => 5 | McpServers => 6 | McpMutations => 7
  end.

#[export] Instance ExtensionCapability_countable : Countable ExtensionCapability.
Proof. apply (inj_countable capability_index (fun n => capabilities_all !! n)). by intros []. Defined.

Record ExtensionContract : Type := MkExtensionContract {
  ec_api_version : Z; ec_capabilities : gset ExtensionCapability }.

Inductive ExtensionContractError : Type :=
| UnsupportedVersion (v : Z)
| MissingCapability (capability required : ExtensionCapability).

Definition supports (c : ExtensionContract) (capability : ExtensionCapability) : bool :=
  bool_decide (capability ∈ ec_capabilities c).

(** The table of [validate_dependencies]. *)
Definition capability_dependencies : list (ExtensionCapability * ExtensionCapability) :=
  [(PluginUpdates, Plugins); (Marketplace, Plugins); (McpMutations, McpServers)].

(** The [for] loop over the table. *)
Fixpoint check_dependencies (c : ExtensionContract) (deps : list (ExtensionCapability * ExtensionCapability))
  : result ExtensionContractError unit :=
  match deps with
  | [] => Ok tt
  | (capability, required) :: deps =>
      if supports c capability && negb (supports c required)
      then Err (MissingCapability capability required)
      else check_dependencies c deps
  end.

Definition validate_dependencies (c : ExtensionContract) : result ExtensionContractError unit :=
  check_dependencies c capability_dependencies.

Definition ExtensionContract_new (api_version : Z) (capabilities : list ExtensionCapability)
  : result ExtensionContractError ExtensionContract :=
  if negb (api_version =? EXTENSION_CONTRACT_VERSION)%Z then Err (UnsupportedVersion api_version)
  else
    let contract := MkExtensionContract api_version (list_to_set capabilities) in
    _ ← validate_dependencies contract;
    Ok contract.

Definition ExtensionContract_validate (c : ExtensionContract) : result ExtensionContractError unit :=
  if negb (ec_api_version c =? EXTENSION_CONTRACT_VERSION)%Z then Err (UnsupportedVersion (ec_api_version c))
  else validate_dependencies c.

Definition extension_contract (provider : ProviderId) : ExtensionContract :=
  let capabilities :=
    match provider with
    | Grok => [Hooks; Plugins; PluginUpdates; Marketplace; Skills; Workflows; McpServers; McpMutations]
    | Codex => [Hooks; Plugins; Skills; McpServers]
    | Gemini | Claude | Custom _ => []
    end in
  MkExtensionContract EXTENSION_CONTRACT_VERSION (list_to_set capabilities).

(** ** [ownership.rs] *)

Definition COMMAND_OWNERSHIP_VERSION : Z := 1.

Inductive CommandKind : Type := KSkill | KWorkflow.

Record CommandOwnership : Type := MkCommandOwnership {
  co_version : Z; co_provider : string; co_owner : string; co_kind : CommandKind }.

Inductive CommandOwnershipError : Type := OwnershipVersion (v : Z) | EmptyProvider | EmptyOwner.

Definition CommandOwnership_new (version : Z) (provider owner : string) (kind : CommandKind)
  : result CommandOwnershipError CommandOwnership :=
  if negb (version =? COMMAND_OWNERSHIP_VERSION)%Z then Err (OwnershipVersion version)
  else
    let provider := trim provider in
    if is_empty provider then Err EmptyProvider
    else
      let owner := trim owner in
      if is_empty owner then Err EmptyOwner
      else Ok (MkCommandOwnership version provider owner kind).

Definition CommandOwnership_current (provider owner : string) (kind : CommandKind) :=
  CommandOwnership_new COMMAND_OWNERSHIP_VERSION provider owner kind.

(** ** [catalog.rs] *)

Inductive ProviderProtocol : Type := CodexAppServer | AgentClientProtocol | PolicyGated.

Definition protocol_label (p : ProviderProtocol) : string :=
  match p with CodexAppServer => "app-server" | AgentClientProtocol => "ACP" | PolicyGated => "policy gate" end.

Inductive SupportLevel : Type := SReady | SNext | SPlanned | SDeferred.

Definition support_label (s : SupportLevel) : string :=
  match s with SReady => "ready" | SNext => "next" | SPlanned => "planned" | SDeferred => "deferred" end.

Record ProviderDescriptor : Type := MkProviderDescriptor {
  pd_id : ProviderId; pd_executable : string; pd_executable_path : option string;
  pd_protocol : ProviderProtocol; pd_support : SupportLevel }.

Definition is_installed (d : ProviderDescriptor) : bool :=
  match pd_executable_path d with Some _ => true | None => false end.

(** What the operating system knows of a path: not a file, or a file whose
    metadata (the mode bits) may be unreadable. *)
Inductive FileInfo : Type := NotAFile | AFile (mode : option Z).

Section catalog.
Context (EXE_SUFFIX : string) (PATH : option string) (stat : string -> FileInfo).

(** [Path::join] with a relative name *)
Definition path_join (dir name : string) : string :=
  if is_empty dir then name
  else match strip_suffix_char "/" dir with
       | Some _ => dir +:+ name
       | None => dir +:+ "/" +:+ name
       end.

(** [env::split_paths] on Unix *)
Definition split_paths (value : string) : list string := split_char ":" value.

Definition executable_permissions (info : FileInfo) : bool :=
  match info with
  | AFile (Some mode) => negb (Z.land mode 73 =? 0)%Z
  | _ => false
  end.

Definition is_executable (path : string) : bool :=
  match stat path with
  | NotAFile => false
  | info => executable_permissions info
  end.

Definition executable_names (executable : string) : list string :=
  if is_empty EXE_SUFFIX || ends_with EXE_SUFFIX executable then [executable]
  else [executable; executable +:+ EXE_SUFFIX].

Definition candidates (executable : string) (paths : list string) : list string :=
  let names := executable_names executable in
  paths ≫= fun path => path_join path <$> names.

Definition find_executable_in (executable : string) (paths : list string) : option string :=
  List.find is_executable (candidates executable paths).

Definition find_executable (executable : string) : option string :=
  value ← PATH;
  find_executable_in executable (split_paths value).

Definition discover_providers : list ProviderDescriptor :=
  (fun '(id, executable, protocol, support) =>
     MkProviderDescriptor id executable (find_executable executable) protocol support) <$>
  [(Grok, "grok", AgentClientProtocol, SReady); (Codex, "codex", CodexAppServer, SNext);
   (Gemini, "gemini", AgentClientProtocol, SPlanned); (Claude, "claude", PolicyGated, SDeferred)].
End catalog.

(** ** Properties *)

(** A capability set that contains what its members need. *)
Definition dependency_closed (s : gset ExtensionCapability) : Prop :=
  forall c r, (c, r) ∈ capability_dependencies -> c ∈ s -> r ∈ s.

Lemma check_dependencies_spec c deps :
  match check_dependencies c deps with
  | Ok _ => forall x r, (x, r) ∈ deps -> x ∈ ec_capabilities c -> r ∈ ec_capabilities c
  | Err e => exists x r, e = MissingCapability x r /\ (x, r) ∈ deps /\
               x ∈ ec_capabilities c /\ r ∉ ec_capabilities c
  end.
Proof.
  induction deps as [|[x r] deps IH]; cbn [check_dependencies]; [by intros x r ?%elem_of_nil|].
  unfold supports. destruct (bool_decide (x ∈ ec_capabilities c)) eqn:Ex, (bool_decide (r ∈ ec_capabilities c)) eqn:Er;
    cbn [andb negb]; rewrite ?bool_decide_eq_true, ?bool_decide_eq_false in Ex;
    rewrite ?bool_decide_eq_true, ?bool_decide_eq_false in Er.
  all: try (exists x, r; split_and!; [done|by left|done|done]).
  all: destruct (check_dependencies c deps) as [[]|e];
    [intros y q [[= -> ->]|Hy]%elem_of_cons Hc; [done|by eapply IH]
    |destruct IH as (y&q&->&Hy&?&?); exists y, q; split_and!; [done|by right|done|done]].
Qed.

(** A contract can be made exactly from version 1 and a capability set that
    contains the capabilities its members require; otherwise the error names the
    version or a pair that is really missing; and the built-in contract of every
    provider passes its own validation. *)
Theorem contract_new_exact v caps provider :
  match ExtensionContract_new v caps with
  | Ok c => v = EXTENSION_CONTRACT_VERSION /\ c = MkExtensionContract v (list_to_set caps) /\
      dependency_closed (list_to_set caps) /\ ExtensionContract_validate c = Ok tt
  | Err (UnsupportedVersion w) => w = v /\ v <> EXTENSION_CONTRACT_VERSION
  | Err (MissingCapability x r) => (x, r) ∈ capability_dependencies /\ x ∈ caps /\ r ∉ caps
  end /\ ExtensionContract_validate (extension_contract provider) = Ok tt.
Proof.
  split; [|by destruct provider].
  unfold ExtensionContract_new, ExtensionContract_validate, validate_dependencies.
  destruct (Z.eqb_spec v EXTENSION_CONTRACT_VERSION) as [->|N]; cbn [negb]; [|done].
  pose proof (check_dependencies_spec (MkExtensionContract EXTENSION_CONTRACT_VERSION (list_to_set caps))
    capability_dependencies) as H.
  destruct (check_dependencies _ _) as [[]|e] eqn:E; cbn [mbind result_bind].
  - split_and!; [done|done|exact H|]. cbn [ec_api_version]. rewrite Z.eqb_refl. exact E.
  - destruct H as (x&r&->&Hd&Hx&Hr). cbn in Hx, Hr. rewrite elem_of_list_to_set in Hx, Hr. done.
Qed.

(** Discovery lists the four built-in providers once each, and reports as a
    provider's executable the first candidate, in the order of PATH, that is a
    file someone may execute; a provider counts as installed exactly when there
    is one. *)
Theorem discover_first_executable suffix path stat d :
  d ∈ discover_providers suffix path stat ->
  NoDup (pd_id <$> discover_providers suffix path stat) /\
  match pd_executable_path d with
  | Some p => is_installed d = true /\ is_executable stat p = true /\
      exists value before after, path = Some value /\
        candidates suffix (pd_executable d) (split_paths value) = before ++ p :: after /\
        forall q, q ∈ before -> is_executable stat q = false
  | None => is_installed d = false /\
      forall value q, path = Some value ->
        q ∈ candidates suffix (pd_executable d) (split_paths value) -> is_executable stat q = false
  end.
Proof.
  intros Hd. split.
  { change (NoDup [Grok; Codex; Gemini; Claude]).
    repeat (apply list.NoDup_cons; split; [by rewrite ?elem_of_cons, elem_of_nil; naive_solver|]). apply base.NoDup_nil_2. }
  assert (E : pd_executable_path d = find_executable suffix path stat (pd_executable d)).
  { unfold discover_providers in Hd. apply list_elem_of_fmap in Hd as ([[[i e] pr] su]&->&_). done. }
  unfold is_installed. rewrite E. unfold find_executable. destruct path as [value|]; [|done].
  cbn [mbind option_bind]. unfold find_executable_in.
  assert (G : forall l, match List.find (is_executable stat) l with
    | Some p => is_executable stat p = true /\ exists b a, l = b ++ p :: a /\
                  forall q, q ∈ b -> is_executable stat q = false
    | None => forall q, q ∈ l -> is_executable stat q = false end).
  { induction l as [|x l IH]; cbn; [by intros q ?%elem_of_nil|]. destruct (is_executable stat x) eqn:Ex.
    - split; [done|]. exists [], l. split; [done|]. by intros q ?%elem_of_nil.
    - destruct (List.find (is_executable stat) l) as [p|].
      + destruct IH as (Hp&b&a&->&Hb). split; [done|]. exists (x :: b), a. split; [done|].
        intros q [->|Hq]%elem_of_cons; auto.
      + intros q [->|Hq]%elem_of_cons; auto. }
  specialize (G (candidates suffix (pd_executable d) (split_paths value))).
  destruct (List.find _ _) as [p|].
  - destruct G as (Hp&b&a&Hl&Hb). split_and!; [done|done|]. by exists value, b, a.
  - split; [done|]. intros v q [= <-]. apply G.
Qed.

Lemma discover_first_executable_witness :
  let stat p := if p =s? "/bin/codex" then AFile (Some 493%Z) else NotAFile in
  let d := MkProviderDescriptor Codex "codex" (Some "/bin/codex") CodexAppServer SNext in
  NoDup (pd_id <$> discover_providers "" (Some "/usr/bin:/bin") stat) /\
  (is_installed d = true /\ is_executable stat "/bin/codex" = true /\
   exists value before after, Some "/usr/bin:/bin" = Some value /\
     candidates "" "codex" (split_paths value) = before ++ "/bin/codex" :: after /\
     forall q, q ∈ before -> is_executable stat q = false).
Proof.
  apply (discover_first_executable "" (Some "/usr/bin:/bin")
    (fun p => if p =s? "/bin/codex" then AFile (Some 493%Z) else NotAFile)
    (MkProviderDescriptor Codex "codex" (Some "/bin/codex") CodexAppServer SNext)).
  right. left.
Defined.

(** An ownership record can be made exactly for version 1 from a provider
    and an owner that are not blank, and stores both without surrounding white
    space, so that making it again from its own fields gives the same record. *)
Theorem ownership_canonical v provider owner kind o :
  CommandOwnership_new v provider owner kind = Ok o <->
  v = COMMAND_OWNERSHIP_VERSION /\ trim provider <> "" /\ trim owner <> "" /\
  o = MkCommandOwnership v (trim provider) (trim owner) kind /\
  CommandOwnership_new (co_version o) (co_provider o) (co_owner o) (co_kind o) = Ok o.
Proof.
  unfold CommandOwnership_new, is_empty. destruct (Z.eqb_spec v COMMAND_OWNERSHIP_VERSION) as [->|N]; cbn [negb]; cycle 1.
  { split; [done|by intros (?&_)]. }
  destruct (String.eqb_spec (trim provider) "") as [Ep|Np]; [by split; [|intros (_&?&_)]|].
  destruct (String.eqb_spec (trim owner) "") as [Eo|No]; [by split; [|intros (_&_&?&_)]|].
  split; [|by intros (_&_&_&->&_)]. intros [= <-]. split_and!; try done.
  cbn [co_version co_provider co_owner co_kind]. rewrite !trim_idemp. by destruct (String.eqb_spec (trim provider) ""), (String.eqb_spec (trim owner) "").
Qed.
