(* ===== verification/BreakerAtomic.v ===== *)
(** * [xai-circuit-breaker], [breaker.rs], under concurrency

    [Breaker] takes a call of the breaker as one step.  Here a step is one
    access to the shared memory: an atomic load, store, fetch-and-add or
    compare-exchange, one reading of the clock, or one critical section of the
    window's mutex.  A call is a thread whose [Pc] says which access comes
    next, with the values it has read; a schedule names the thread that moves
    and the clock at that moment.  Memory is sequentially consistent, which is
    one of the behaviours the orderings of the code allow.  A callback of the
    observer is logged by the step before it.

    The file shows that a call that is not interrupted is the call of [Breaker],
    that every call ends within ten of its own steps, how many probes
    concurrent callers can get, and three races. *)

From S2P Require Import Prelude RustStr Float64 Breaker.

(** ** Threads *)

(** Where a call is.  [check], then [check_open], [try_half_open_probe],
    [record], [trip] and [close]. *)
Inductive Pc : Type :=
| CheckState
| OpenLoad | OpenClock (opened : Z) | OpenCas | OpenFast | OpenState | OpenReload | OpenReclock (opened : Z)
| ProbeClock | ProbeAdd (now : Z) | ProbeClaim (now : Z) | ProbeSub (now : Z)
| LeaseLoad (now : Z) | LeaseCas (now claimed : Z)
| RecordClock (o : Outcome) | RecordState (o : Outcome) (now : Z)
| RecordClosed (o : Outcome) (now : Z) | RecordOpen (o : Outcome) (now : Z) | RecordEnd (o : Outcome)
| TripState (o : Outcome) (prev : BreakerState) (reason : string)
| TripClock (o : Outcome) (prev : BreakerState) (reason : string)
| TripOpened (o : Outcome) (prev : BreakerState) (reason : string) (now : Z)
| TripProbes (o : Outcome) (prev : BreakerState) (reason : string)
| TripFast (o : Outcome) (prev : BreakerState) (reason : string)
| CloseState (o : Outcome) (prev : BreakerState) (reason : string)
| CloseWindow (o : Outcome) (prev : BreakerState) (reason : string)
| CloseProbes (o : Outcome) (prev : BreakerState) (reason : string)
| CloseFast (o : Outcome) (prev : BreakerState) (reason : string)
| Checked (r : result BreakerOpenErr unit)
| Recorded.

(** Stores to the single fields. *)
Definition store_state (b : CircuitBreaker) (s : BreakerState) : CircuitBreaker :=
  MkBreaker (b_config b) (state_to_u8 s) (b_baseline b) (opened_at_millis b) (half_open_probes b)
    (probe_claimed_at_millis b) (is_open_fast b) (b_window b) (b_log b).
Definition store_opened (b : CircuitBreaker) (v : Z) : CircuitBreaker :=
  MkBreaker (b_config b) (b_state b) (b_baseline b) v (half_open_probes b)
    (probe_claimed_at_millis b) (is_open_fast b) (b_window b) (b_log b).
Definition store_fast (b : CircuitBreaker) (v : bool) : CircuitBreaker :=
  MkBreaker (b_config b) (b_state b) (b_baseline b) (opened_at_millis b) (half_open_probes b)
    (probe_claimed_at_millis b) v (b_window b) (b_log b).
Definition store_probes (b : CircuitBreaker) (v : Z) : CircuitBreaker :=
  with_probes b v (probe_claimed_at_millis b).
Definition store_claimed (b : CircuitBreaker) (v : Z) : CircuitBreaker :=
  with_probes b (half_open_probes b) v.

(** The cool-down still to wait. *)
Definition still_open (b : CircuitBreaker) (now opened : Z) : Pc :=
  Checked (Err (MkBreakerOpen (sat_sub (open_duration (b_config b)) (sat_sub now opened * 1000000)))).

(** [check]: its one access. *)
Definition check_access (b : CircuitBreaker) (pc : Pc) (t : Z) : option (CircuitBreaker * Pc) :=
  match pc with
  | CheckState =>
      Some (b, if negb (enabled (b_config b)) then Checked (Ok tt)
               else match state b with BClosed => Checked (Ok tt) | BOpen => OpenLoad | BHalfOpen => ProbeClock end)
  | _ => None
  end.

(** [check_open], one access at a time. *)
Definition check_open_access (b : CircuitBreaker) (pc : Pc) (t : Z) : option (CircuitBreaker * Pc) :=
  match pc with
  | OpenLoad => Some (b, OpenClock (opened_at_millis b))
  | OpenClock opened =>
      let now := elapsed_millis b t in
      Some (b, if (open_duration (b_config b) <=? sat_sub now opened * 1000000)%Z then OpenCas
               else still_open b now opened)
  | OpenCas =>
      Some ((cas_state b BOpen BHalfOpen).1, if (cas_state b BOpen BHalfOpen).2 then OpenFast else OpenState)
  | OpenFast =>
      Some (notify_observer (store_fast b false) (on_state_change BOpen BHalfOpen "open_elapsed"), ProbeClock)
  | OpenState =>
      Some (b, match state b with BClosed => Checked (Ok tt) | BHalfOpen => ProbeClock | BOpen => OpenReload end)
  | OpenReload => Some (b, OpenReclock (opened_at_millis b))
  | OpenReclock opened => Some (b, still_open b (elapsed_millis b t) opened)
  | _ => None
  end.

(** [try_half_open_probe], one access at a time. *)
Definition probe_access (b : CircuitBreaker) (pc : Pc) (t : Z) : option (CircuitBreaker * Pc) :=
  let rejected := (notify_observer b (on_probe_admission false),
    Checked (Err (MkBreakerOpen (Z.min HALF_OPEN_PROBE_BACKOFF (open_duration (b_config b)))))) in
  match pc with
  | ProbeClock => Some (b, ProbeAdd (elapsed_millis b t))
  | ProbeAdd now =>
      let prev := half_open_probes b in
      Some (store_probes b ((prev + 1) mod 2 ^ 64),
            if (prev <? half_open_max_probes (b_config b))%Z then ProbeClaim now else ProbeSub now)
  | ProbeClaim now => Some (notify_observer (store_claimed b now) (on_probe_admission true), Checked (Ok tt))
  | ProbeSub now => Some (store_probes b ((half_open_probes b - 1) mod 2 ^ 64), LeaseLoad now)
  | LeaseLoad now =>
      let claimed := probe_claimed_at_millis b in
      if (millis (open_duration (b_config b)) <=? sat_sub now claimed)%Z then Some (b, LeaseCas now claimed)
      else Some rejected
  | LeaseCas now claimed =>
      if (probe_claimed_at_millis b =? claimed)%Z
      then Some (notify_observer (store_claimed b now) (on_probe_admission true), Checked (Ok tt))
      else Some rejected
  | _ => None
  end.

Section access.
Context (instant_min : Z).

(** [record], one access at a time; a sample is taken under the lock. *)
Definition record_access (b : CircuitBreaker) (pc : Pc) (t : Z) : option (CircuitBreaker * Pc) :=
  let is_failure o := match o with Failure => true | Success => false end in
  match pc with
  | RecordClock o => Some (b, if negb (enabled (b_config b)) then Recorded else RecordState o t)
  | RecordState o now =>
      Some (b, match state b with
               | BClosed => RecordClosed o now
               | BHalfOpen => if is_failure o then TripState o BHalfOpen "probe_failure"
                              else CloseState o BHalfOpen "probe_success"
               | BOpen => RecordOpen o now
               end)
  | RecordClosed o now =>
      let w := sampled instant_min b (is_failure o) now in
      Some (with_window b w, if should_trip (b_config b) w then TripState o BClosed "trip" else RecordEnd o)
  | RecordOpen o now => Some (with_window b (sampled instant_min b (is_failure o) now), RecordEnd o)
  | RecordEnd o => Some (notify_observer b (on_outcome o (state b)), Recorded)
  | _ => None
  end.

(** [trip] and [close], one access at a time. *)
Definition transition_access (b : CircuitBreaker) (pc : Pc) (t : Z) : option (CircuitBreaker * Pc) :=
  match pc with
  | TripState o prev reason => Some (store_state b BOpen, TripClock o prev reason)
  | TripClock o prev reason => Some (b, TripOpened o prev reason (elapsed_millis b t))
  | TripOpened o prev reason now => Some (store_opened b now, TripProbes o prev reason)
  | TripProbes o prev reason => Some (store_probes b 0, TripFast o prev reason)
  | TripFast o prev reason => Some (on_change prev BOpen reason (store_fast b true), RecordEnd o)
  | CloseState o prev reason => Some (store_state b BClosed, CloseWindow o prev reason)
  | CloseWindow o prev reason => Some (with_window b (window_clear (b_window b)), CloseProbes o prev reason)
  | CloseProbes o prev reason => Some (store_probes b 0, CloseFast o prev reason)
  | CloseFast o prev reason => Some (on_change prev BClosed reason (store_fast b false), RecordEnd o)
  | _ => None
  end.

(** The next access of a call; [None] when it has returned. *)
Definition access (b : CircuitBreaker) (pc : Pc) (t : Z) : option (CircuitBreaker * Pc) :=
  match pc with
  | CheckState => check_access b pc t
  | OpenLoad | OpenClock _ | OpenCas | OpenFast | OpenState | OpenReload | OpenReclock _ => check_open_access b pc t
  | ProbeClock | ProbeAdd _ | ProbeClaim _ | ProbeSub _ | LeaseLoad _ | LeaseCas _ _ => probe_access b pc t
  | RecordClock _ | RecordState _ _ | RecordClosed _ _ | RecordOpen _ _ | RecordEnd _ => record_access b pc t
  | Checked _ | Recorded => None
  | _ => transition_access b pc t
  end.

(** The breaker and the calls on it. *)
Record Sys : Type := MkSys { mem : CircuitBreaker; calls : list Pc }.

(** Thread [m.1] moves at time [m.2]; a thread that has returned does not. *)
Definition move (s : Sys) (m : nat * Z) : Sys :=
  match calls s !! m.1 with
  | Some pc => match access (mem s) pc m.2 with
               | Some (b, pc') => MkSys b (<[m.1 := pc']> (calls s))
               | None => s
               end
  | None => s
  end.

Definition run_schedule (s : Sys) (ms : list (nat * Z)) : Sys := foldl move s ms.

(** A call alone: its accesses in a row, the clock readings in order. *)
Definition reads_clock (pc : Pc) : bool :=
  match pc with
  | OpenClock _ | OpenReclock _ | ProbeClock | RecordClock _ | TripClock _ _ _ => true
  | _ => false
  end.

Fixpoint alone (fuel : nat) (b : CircuitBreaker) (pc : Pc) (readings : list Z) : CircuitBreaker * Pc :=
  match fuel with
  | O => (b, pc)
  | S fuel =>
      let '(t, readings) := if reads_clock pc then (hd 0%Z readings, tl readings) else (0%Z, readings) in
      match access b pc t with
      | Some (b, pc) => alone fuel b pc readings
      | None => (b, pc)
      end
  end.
End access.

#[local] Arguments Z.modulo : simpl never.
#[local] Arguments Z.mul : simpl never.
#[local] Arguments Z.add : simpl never.
#[local] Arguments Z.sub : simpl never.
#[local] Arguments Z.leb : simpl never.
#[local] Arguments Z.ltb : simpl never.
#[local] Arguments Z.pow : simpl never.
#[local] Arguments millis : simpl never.
#[local] Arguments elapsed_millis : simpl never.
#[local] Arguments sat_sub : simpl never.
#[local] Arguments sampled : simpl never.
#[local] Arguments should_trip : simpl never.
#[local] Arguments window_clear : simpl never.

(** ** Calls that are not interrupted *)

Lemma alone_probe imin b t ts k :
  alone imin (5 + k) b ProbeClock (t :: ts) = ((try_half_open_probe b t).1, Checked (try_half_open_probe b t).2).
Proof.
  unfold try_half_open_probe. cbn.
  destruct (half_open_probes b <? half_open_max_probes (b_config b))%Z eqn:E1; cbn; [done|].
  destruct (millis (open_duration (b_config b)) <=? sat_sub (elapsed_millis b t) (probe_claimed_at_millis b))%Z
    eqn:E2; cbn; [|done].
  rewrite Z.eqb_refl. by destruct k.
Qed.

Lemma alone_S imin fuel b pc ts t ts' b' pc' :
  (if reads_clock pc then (hd 0%Z ts, tl ts) else (0%Z, ts)) = (t, ts') ->
  access imin b pc t = Some (b', pc') -> alone imin (S fuel) b pc ts = alone imin fuel b' pc' ts'.
Proof. intros E1 E2. cbn [alone]. by rewrite E1, E2. Qed.

Lemma alone_check_open imin b t1 t2 :
  alone imin 9 b OpenLoad [t1; t2] = ((check_open b t1 t2).1, Checked (check_open b t1 t2).2).
Proof.
  unfold check_open. do 2 (erewrite alone_S; [|reflexivity|reflexivity]).
  cbn [hd tl]. destruct (open_duration (b_config b) <=? _)%Z; [|done].
  erewrite alone_S; [|reflexivity|reflexivity]. unfold cas_state.
  destruct (b_state b =? state_to_u8 BOpen)%Z eqn:C; cbn [fst snd].
  { exact (alone_probe imin _ t2 [] 0). }
  erewrite alone_S; [|reflexivity|reflexivity].
  destruct (state b); [done|done|exact (alone_probe imin _ t2 [] 0)].
Qed.

Lemma alone_trip imin b o prev reason t k :
  alone imin (6 + k) b (TripState o prev reason) [t]
  = (notify_observer (trip b prev reason t) (on_outcome o (state (trip b prev reason t))), Recorded).
Proof. cbn. unfold trip. by destruct k. Qed.

(** A call that no other call interrupts behaves as the call of the
    sequential model, [check] within ten accesses and [record] within nine. *)
Theorem uninterrupted_calls_sequential imin b o t1 t2 :
  alone imin 10 b CheckState [t1; t2] = ((check b t1 t2).1, Checked (check b t1 t2).2) /\
  alone imin 9 b (RecordClock o) [t1; t2] = (record imin b o t1 t2, Recorded).
Proof.
  split.
  - unfold check. cbn [alone reads_clock access check_access check_open_access]. destruct (enabled (b_config b)); cbn [negb]; [|done].
    destruct (state b); [done|apply alone_check_open|]. exact (alone_probe imin b t1 [t2] 4).
  - unfold record. cbn [alone reads_clock access record_access hd tl].
    destruct (enabled (b_config b)); cbn [negb]; [|done].
    cbn [alone reads_clock access record_access hd tl].
    destruct (state b).
    + cbn [alone reads_clock access record_access].
      cbn [b_config with_window]. destruct (should_trip (b_config b) _); [exact (alone_trip imin _ o BClosed "trip" t2 0)|done].
    + done.
    + destruct o; [done|exact (alone_trip imin _ Failure BHalfOpen "probe_failure" t2 1)].
Qed.

(** ** Every call ends *)

(** A bound on the accesses a call still makes. *)
Definition accesses_left (pc : Pc) : nat :=
  match pc with
  | CheckState => 10 | OpenLoad => 9 | OpenClock _ => 8 | OpenCas => 7 | OpenFast | OpenState => 6
  | OpenReload => 2 | OpenReclock _ => 1
  | ProbeClock => 5 | ProbeAdd _ => 4 | ProbeClaim _ => 1 | ProbeSub _ => 3 | LeaseLoad _ => 2 | LeaseCas _ _ => 1
  | RecordClock _ => 9 | RecordState _ _ => 8 | RecordClosed _ _ => 7 | RecordOpen _ _ => 2 | RecordEnd _ => 1
  | TripState _ _ _ => 6 | TripClock _ _ _ => 5 | TripOpened _ _ _ _ => 4 | TripProbes _ _ _ => 3
  | TripFast _ _ _ => 2
  | CloseState _ _ _ => 5 | CloseWindow _ _ _ => 4 | CloseProbes _ _ _ => 3 | CloseFast _ _ _ => 2
  | Checked _ | Recorded => 0
  end.

Definition returned (pc : Pc) : bool := match pc with Checked _ | Recorded => true | _ => false end.

Lemma access_decreases imin b pc t :
  match access imin b pc t with
  | Some (_, pc') => (accesses_left pc' < accesses_left pc)%nat
  | None => returned pc = true
  end.
Proof.
  destruct pc; unfold access; cbn; split_matches; unfold still_open; cbn; try lia; done.
Qed.

Lemma lookup_move imin s m i pc : calls s !! i = Some pc ->
  calls (move imin s m) !! i =
    Some (if bool_decide (m.1 = i) then from_option snd pc (access imin (mem s) pc m.2) else pc).
Proof.
  intros H. unfold move. case_bool_decide as E.
  - rewrite E, H. destruct (access imin (mem s) pc m.2) as [[b' pc']|]; cbn; [|done].
    apply list_lookup_insert_eq. by eapply lookup_lt_Some.
  - destruct (calls s !! m.1); [|done]. destruct (access _ _ _ _) as [[b' pc']|]; cbn; [|done].
    by rewrite list_lookup_insert_ne.
Qed.

(** How often thread [i] moves. *)
Definition moves_of (i : nat) (ms : list (nat * Z)) : nat :=
  length (List.filter (fun m => bool_decide (m.1 = i)) ms).

(** The breaker is wait-free: whatever the other threads do and whatever the
    clock shows, a call has returned after ten of its own accesses. *)
Theorem calls_wait_free imin s ms i pc : calls s !! i = Some pc -> (10 <= moves_of i ms)%nat ->
  exists pc', calls (run_schedule imin s ms) !! i = Some pc' /\ returned pc' = true.
Proof.
  assert (B : forall ms s pc, calls s !! i = Some pc -> (accesses_left pc <= moves_of i ms)%nat ->
    exists pc', calls (run_schedule imin s ms) !! i = Some pc' /\ returned pc' = true); cycle 1.
  { intros Hi Hm. apply (B ms s pc Hi). assert (accesses_left pc <= 10)%nat by (destruct pc; cbn; lia). lia. }
  clear. induction ms as [|m ms IH]; intros s pc Hi Hle.
  { exists pc. split; [done|]. destruct pc; cbn in Hle; try lia; done. }
  cbn [run_schedule foldl]. pose proof (lookup_move imin s m i pc Hi) as Hm.
  apply (IH _ _ Hm). unfold moves_of in Hle |- *. cbn [List.filter] in Hle.
  case_bool_decide as E; [|done]. cbn [length] in Hle.
  pose proof (access_decreases imin (mem s) pc m.2) as D.
  destruct (access imin (mem s) pc m.2) as [[b' pc']|]; cbn [from_option snd]; [lia|].
  destruct pc; cbn in D |- *; try done; lia.
Qed.

(** ** How many probes concurrent callers get *)

Definition count (f : Pc -> bool) (l : list Pc) : Z := Z.of_nat (length (List.filter f l)).
Definition holds_slot (pc : Pc) : bool := match pc with ProbeClaim _ | Checked (Ok _) => true | _ => false end.
Definition gives_back (pc : Pc) : bool := match pc with ProbeSub _ => true | _ => false end.
Definition admitted (pc : Pc) : bool := match pc with Checked (Ok _) => true | _ => false end.

Definition bit (b : bool) : Z := if b then 1 else 0.

Lemma count_cons f x l : count f (x :: l) = (bit (f x) + count f l)%Z.
Proof. unfold count, bit. cbn. destruct (f x); cbn [length]; lia. Qed.

Lemma count_insert f l i x y : l !! i = Some x ->
  count f (<[i := y]> l) = (count f l - bit (f x) + bit (f y))%Z.
Proof.
  revert i. induction l as [|z l IH]; intros [|i] H; simplify_eq/=; rewrite !count_cons; [lia|].
  rewrite (IH i H). lia.
Qed.

Lemma count_pos f l i x : l !! i = Some x -> f x = true -> (1 <= count f l)%Z.
Proof.
  revert i. induction l as [|z l IH]; intros [|i] H Hf; simplify_eq/=; rewrite count_cons.
  - rewrite Hf. unfold bit, count. lia.
  - pose proof (IH i H Hf). unfold bit. destruct (f z); lia.
Qed.

Lemma count_le f g l : (forall x, f x = true -> g x = true) -> (0 <= count f l <= count g l)%Z.
Proof.
  intros H. induction l as [|z l IH]; [done|]. rewrite !count_cons.
  specialize (H z). unfold bit. destruct (f z), (g z); lia.
Qed.

Lemma one_kind z : (bit (holds_slot z) + bit (gives_back z) <= 1)%Z.
Proof. destruct z; cbn; try lia. destruct r; cbn; lia. Qed.

Lemma count_length l : (count holds_slot l + count gives_back l <= Z.of_nat (length l))%Z.
Proof.
  induction l as [|z l IH]; [done|]. rewrite !count_cons. cbn [length]. pose proof (one_kind z). lia.
Qed.

(** A thread that neither holds nor gives back a slot leaves room. *)
Lemma count_room l i x : l !! i = Some x -> holds_slot x = false -> gives_back x = false ->
  (count holds_slot l + count gives_back l < Z.of_nat (length l))%Z.
Proof.
  revert i. induction l as [|z l IH]; intros [|i] H Hh Hg; simplify_eq/=; rewrite !count_cons.
  - rewrite Hh, Hg. pose proof (count_length l). unfold bit. lia.
  - pose proof (IH i H Hh Hg). pose proof (one_kind z). lia.
Qed.

Section probes.
Context (imin : Z) (b0 : CircuitBreaker) (n : nat) (T : Z).

Let lease : Z := millis (open_duration (b_config b0)).
Let max : Z := half_open_max_probes (b_config b0).

(** The clock readings a thread holds are within one lease from [T], and a
    claim it wants to replace is older than the lease. *)
Definition in_lease (now : Z) : Prop := (T <= now < T + lease)%Z.

Definition thread_ok (pc : Pc) : Prop :=
  match pc with
  | CheckState | OpenLoad | OpenClock _ | OpenCas | OpenFast | OpenState | OpenReload | OpenReclock _
  | ProbeClock | Checked _ => True
  | ProbeAdd now | ProbeClaim now | ProbeSub now | LeaseLoad now => in_lease now
  | LeaseCas now claimed => in_lease now /\ (lease <= sat_sub now claimed)%Z
  | _ => False
  end.

(** [l] is 1 when a caller has taken over a claim, and 0 before. *)
Record probe_inv (s : Sys) : Prop := {
  pi_config : b_config (mem s) = b_config b0 /\ b_baseline (mem s) = b_baseline b0;
  pi_state : state (mem s) <> BClosed;
  pi_length : length (calls s) = n;
  pi_threads : Forall thread_ok (calls s);
  pi_count : exists l, (0 <= l <= 1)%Z /\ (l <= count holds_slot (calls s))%Z /\
    (count holds_slot (calls s) + count gives_back (calls s)
     = half_open_probes (mem s) - half_open_probes b0 + l)%Z /\
    (count holds_slot (calls s) <= max - half_open_probes b0 + l)%Z /\
    (l = 1 -> T <= probe_claimed_at_millis (mem s))%Z }.

Context (Hp : (0 <= half_open_probes b0 <= max)%Z)
  (Hn : (half_open_probes b0 + Z.of_nat n <= usize_max)%Z) (He : enabled (b_config b0) = true).

(** What one access of a thread does to the parts the invariant talks about. *)
Definition access_ok (b : CircuitBreaker) (pc : Pc) (b' : CircuitBreaker) (pc' : Pc) : Prop :=
  (b_config b' = b_config b /\ b_baseline b' = b_baseline b) /\
  (b_state b' = b_state b \/ b_state b' = state_to_u8 BHalfOpen) /\ thread_ok pc' /\
  ((half_open_probes b' = half_open_probes b /\ holds_slot pc' = holds_slot pc /\ gives_back pc' = false /\
    gives_back pc = false /\
    (probe_claimed_at_millis b' = probe_claimed_at_millis b \/ (T <= probe_claimed_at_millis b')%Z)) \/
   (half_open_probes b' = ((half_open_probes b + 1) mod 2 ^ 64)%Z /\
    probe_claimed_at_millis b' = probe_claimed_at_millis b /\ holds_slot pc = false /\ gives_back pc = false /\
    if (half_open_probes b <? max)%Z then holds_slot pc' = true /\ gives_back pc' = false
    else holds_slot pc' = false /\ gives_back pc' = true) \/
   (half_open_probes b' = ((half_open_probes b - 1) mod 2 ^ 64)%Z /\
    probe_claimed_at_millis b' = probe_claimed_at_millis b /\
    holds_slot pc = false /\ gives_back pc = true /\ holds_slot pc' = false /\ gives_back pc' = false) \/
   (half_open_probes b' = half_open_probes b /\ holds_slot pc = false /\ gives_back pc = false /\
    holds_slot pc' = true /\ gives_back pc' = false /\
    (probe_claimed_at_millis b < T <= probe_claimed_at_millis b')%Z)).

Lemma access_ok_step b pc t b' pc' :
  b_config b = b_config b0 /\ b_baseline b = b_baseline b0 -> state b <> BClosed -> thread_ok pc ->
  in_lease (elapsed_millis b0 t) -> access imin b pc t = Some (b', pc') -> access_ok b pc b' pc'.
Proof.
  intros [Hc Hb] Hs Ht Hl H.
  assert (El : elapsed_millis b t = elapsed_millis b0 t) by (unfold elapsed_millis; by rewrite Hb).
  unfold access_ok, access in *. destruct pc; try done; cbn [check_access check_open_access probe_access thread_ok] in H, Ht;
    unfold still_open, cas_state in H; rewrite ?Hc, ?El, ?He in H; cbn [negb] in H.
  all: repeat match type of H with
    | context [if ?c then _ else _] => destruct c eqn:?
    | context [match state ?x with _ => _ end] => destruct (state x) eqn:?
    end; simplify_eq/=.
  all: split_and!; try (by auto); try (left; split_and!; by auto).
  all: try (right; left; split_and!; [done..|]; subst max; by case_match).
  all: unfold in_lease in *.
  - left. split_and!; auto. lia.
  - right. right. left. by split_and!.
  - subst lease. by apply Z.leb_le.
  - right. right. right. unfold sat_sub in Ht. split_and!; try done; lia.
Qed.

Lemma probe_inv_move s m : probe_inv s -> in_lease (elapsed_millis b0 m.2) -> probe_inv (move imin s m).
Proof.
  intros I Hl. unfold move. destruct (calls s !! m.1) as [pc|] eqn:Hpc; [|done].
  destruct (access imin (mem s) pc m.2) as [[b' pc']|] eqn:A; [|done].
  destruct I as [Hc Hs Hlen Ht (l&Hl1&Hlh&Hsum&Hmax&Hcl)].
  pose proof (Forall_lookup_1 _ _ _ _ Ht Hpc) as Hok.
  destruct (access_ok_step _ _ _ _ _ Hc Hs Hok Hl A) as (Hc'&Hs'&Hok'&Hcase).
  split; cbn [mem calls].
  - destruct Hc, Hc'. split; congruence.
  - unfold state in *. by destruct Hs' as [-> | ->].
  - by rewrite length_insert.
  - by apply Forall_insert.
  - rewrite !(count_insert _ _ _ _ _ Hpc).
    pose proof (count_room _ _ _ Hpc) as Room. rewrite Hlen in Room.
    pose proof (count_le gives_back gives_back (calls s) ltac:(done)) as Hsub.
    unfold usize_max, u64_max in Hn.
    destruct Hcase as [(->&->&->&->&Hq)|[(->&->&Hh&Hg&Hi)|[(->&->&Hh&Hg&->&->)|(->&->&->&->&->&Hq)]]].
    + exists l. cbn [bit]. split_and!; lia.
    + specialize (Room Hh Hg). rewrite Hh, Hg, Z.mod_small by lia. exists l.
      destruct (Z.ltb_spec (half_open_probes (mem s)) max); destruct Hi as [-> ->]; cbn [bit]; split_and!; lia.
    + pose proof (count_pos gives_back _ _ _ Hpc Hg). rewrite Hh, Hg, Z.mod_small by (pose proof (count_length (calls s)); lia).
      exists l. cbn [bit]. split_and!; lia.
    + exists 1%Z. assert (l = 0)%Z as -> by lia. cbn [bit]. split_and!; lia.
Qed.

Lemma probe_inv_run s ms : probe_inv s -> Forall (fun m => in_lease (elapsed_millis b0 m.2)) ms ->
  probe_inv (run_schedule imin s ms).
Proof.
  intros I F. revert s I. induction F as [|m ms Hm _ IH]; intros s I; [done|].
  by apply IH, probe_inv_move.
Qed.

Lemma count_replicate f pc : f pc = false -> count f (replicate n pc) = 0%Z.
Proof. intros H. clear -H. induction n as [|k IH]; [done|]. cbn [replicate]. by rewrite count_cons, H, IH. Qed.

Lemma probe_inv_start : state b0 <> BClosed -> probe_inv (MkSys b0 (replicate n CheckState)).
Proof.
  intros Hs. split; cbn [mem calls]; [done|done|by rewrite length_replicate|by apply Forall_replicate|].
  exists 0%Z. rewrite !count_replicate by done. split_and!; lia.
Qed.
End probes.

(** C40: however [n] concurrent requests interleave at a breaker that is open or
    half-open, while no outcome is reported and the clock stays within one
    lease, at most one request more is admitted than there are free probe
    slots. *)
Theorem concurrent_probes_bounded imin b n T ms :
  enabled (b_config b) = true -> state b <> BClosed ->
  (0 <= half_open_probes b <= half_open_max_probes (b_config b))%Z ->
  (half_open_probes b + Z.of_nat n <= usize_max)%Z ->
  Forall (fun m => in_lease b T (elapsed_millis b m.2)) ms ->
  (count admitted (calls (run_schedule imin (MkSys b (replicate n CheckState)) ms))
   <= half_open_max_probes (b_config b) - half_open_probes b + 1)%Z.
Proof.
  intros He Hs Hp Hn F.
  destruct (probe_inv_run imin b n T Hp Hn He _ ms (probe_inv_start b n T Hp Hs) F) as [_ _ _ _ (l&Hl&_&_&Hm&_)].
  etrans; [apply (count_le admitted holds_slot)|lia]. by intros [].
Qed.

(** ** Races *)

#[local] Arguments run_schedule : simpl never.

(** Moves of one thread in a row, all at time [t]. *)
Definition turns (i k : nat) (t : Z) : list (nat * Z) := replicate k (i, t).

Lemma run_cons imin b l i t ms pc b' pc' : l !! i = Some pc -> access imin b pc t = Some (b', pc') ->
  run_schedule imin (MkSys b l) ((i, t) :: ms) = run_schedule imin (MkSys b' (<[i := pc']> l)) ms.
Proof. intros H1 H2. unfold run_schedule. cbn [foldl]. unfold move at 2. cbn [fst snd calls mem]. by rewrite H1, H2. Qed.

(** One move of a schedule whose test, if any, is decided by a hypothesis. *)
Ltac turn := erewrite run_cons; [|reflexivity|unfold access; cbn; decide_tests; reflexivity];
  repeat match goal with |- context [on_change ?p ?n ?r ?b] =>
    change (on_change p n r b) with (notify_observer b (on_state_change p n r)) end;
  unfold elapsed_millis; cbn; decide_tests
with decide_tests := repeat match goal with H : ?c = _ |- context [if ?c then _ else _] => rewrite H; cbn end.

Lemma state_byte b : (state b = BOpen -> b_state b = 1%Z) /\ (state b = BHalfOpen -> b_state b = 2%Z).
Proof.
  unfold state, state_from_u8. destruct (Z.eqb_spec (b_state b) 1); [by split|].
  by destruct (Z.eqb_spec (b_state b) 2).
Qed.

(** Two requests that meet when the cool-down ends are both admitted by a
    breaker with one probe slot, at the same instant: the second one finds the
    slot taken, but the claim it looks at is still that of the last half-open
    period, because the first has not stored its own. *)
Theorem second_probe_admitted imin b t :
  enabled (b_config b) = true -> state b = BOpen -> half_open_max_probes (b_config b) = 1%Z ->
  half_open_probes b = 0%Z -> (0 <= open_duration (b_config b))%Z ->
  (probe_claimed_at_millis b <= opened_at_millis b <= elapsed_millis b t)%Z ->
  (open_duration (b_config b) <= (elapsed_millis b t - opened_at_millis b) * 1000000)%Z ->
  exists ms, Forall (fun m => m.2 = t) ms /\
    calls (run_schedule imin (MkSys b [CheckState; CheckState]) ms) = [Checked (Ok tt); Checked (Ok tt)].
Proof.
  intros He Hs Hm Hp Ho Hc Hd. exists (turns 0 7 t ++ turns 1 6 t ++ turns 0 1 t). split.
  { unfold turns. rewrite !Forall_app. split_and!; by apply Forall_replicate. }
  apply (proj1 (state_byte b)) in Hs. destruct b as [cfg st base op pr cl fast w lg]; cbn in He, Hs, Hm, Hp, Ho, Hc, Hd; subst.
  unfold elapsed_millis in Hc, Hd. cbn in Hc, Hd.
  assert (E1 : (open_duration cfg <=? sat_sub (millis (sat_sub t base)) op * 1000000)%Z = true).
  { rewrite sat_sub_exact by lia. by apply Z.leb_le. }
  assert (E2 : (millis (open_duration cfg) <=? sat_sub (millis (sat_sub t base)) cl)%Z = true).
  { apply Z.leb_le. rewrite sat_sub_exact by lia. unfold millis at 1.
    pose proof (Z.mod_le (open_duration cfg / 1000000) (2 ^ 64) ltac:(apply Z.div_pos; lia) ltac:(lia)).
    pose proof (Z.div_le_upper_bound (open_duration cfg) 1000000 _ ltac:(lia) ltac:(rewrite Z.mul_comm; exact Hd)).
    lia. }
  assert (E3 : (0 <? half_open_max_probes cfg)%Z = true) by by rewrite Hm.
  assert (E4 : ((0 + 1) mod 2 ^ 64 <? half_open_max_probes cfg)%Z = false) by by rewrite Hm.
  pose proof (Z.eqb_refl cl) as E5.
  unfold turns. cbn [replicate app]. rewrite <- Bool.negb_false_iff in He. by do 14 turn.
Qed.

(** Two outcomes that are reported in the half-open state at the same time
    can leave the lock-free mirror wrong for good: both calls have returned, the
    breaker is closed and admits every request, and [is_open] says it is open. *)
Theorem open_mirror_diverges imin b (t : Z) :
  enabled (b_config b) = true -> state b = BHalfOpen ->
  exists ms, let s := run_schedule imin (MkSys b [RecordClock Failure; RecordClock Success]) ms in
    calls s = [Recorded; Recorded] /\ state (mem s) = BClosed /\ is_open (mem s) = true /\
    forall t1 t2, check (mem s) t1 t2 = (mem s, Ok tt).
Proof.
  intros He Hs. exists (turns 0 2 t ++ turns 1 2 t ++ turns 0 4 t ++ turns 1 5 t ++ turns 0 2 t).
  apply (proj2 (state_byte b)) in Hs. destruct b as [cfg st base op pr cl fast w lg]; cbn in He, Hs; subst.
  unfold turns. cbn [replicate app]. rewrite <- Bool.negb_false_iff in He. do 15 turn.
  cbn zeta. split_and!; try done. intros t1 t2. unfold check. change (enabled (b_config _)) with (enabled cfg). by rewrite He.
Qed.

(** A request that finds every probe slot taken gives its increment back
    after a failing probe has already reset the counter: the counter of the
    open breaker wraps to the greatest [usize], though the code relies on it
    being zero. *)
Theorem probe_counter_underflows imin b t :
  enabled (b_config b) = true -> state b = BHalfOpen ->
  half_open_probes b = half_open_max_probes (b_config b) ->
  (sat_sub (elapsed_millis b t) (probe_claimed_at_millis b) < millis (open_duration (b_config b)))%Z ->
  exists ms, let s := run_schedule imin (MkSys b [CheckState; RecordClock Failure]) ms in
    (exists e, calls s = [Checked (Err e); Recorded]) /\
    state (mem s) = BOpen /\ half_open_probes (mem s) = usize_max.
Proof.
  intros He Hs Hm Hl. exists (turns 0 3 t ++ turns 1 8 t ++ turns 0 2 t).
  apply (proj2 (state_byte b)) in Hs. destruct b as [cfg st base op pr cl fast w lg]; cbn in He, Hs, Hm, Hl; subst.
  unfold elapsed_millis in Hl. cbn in Hl. apply Z.leb_gt in Hl.
  assert (E : (half_open_max_probes cfg <? half_open_max_probes cfg)%Z = false) by apply Z.ltb_irrefl.
  unfold turns. cbn [replicate app]. rewrite <- Bool.negb_false_iff in He. do 13 turn.
  cbn zeta. split_and!; try done. by eexists.
Qed.

(** ** Witnesses *)

Module AtomicDemo.
Definition single_slot : BreakerConfig := MkBreakerConfig (secs 60) 1 f64_half 10000000 1 ∅ true.
(** Tripped at 0, and half-open with its slot taken at 10 ms. *)
Definition tripped : CircuitBreaker := run_ops 0 (with_clock single_slot 0) [OpRecord Failure 0 0].
Definition probing : CircuitBreaker := run_ops 0 tripped [OpCheck 10000000 10000000].

Lemma calls_wait_free_witness :
  exists pc', calls (run_schedule 0 (MkSys tripped [CheckState; CheckState]) (turns 1 10 20000000)) !! 1%nat
              = Some pc' /\ returned pc' = true.
Proof.
  apply (calls_wait_free 0 (MkSys tripped [CheckState; CheckState]) (turns 1 10 20000000) 1 CheckState);
    [reflexivity|vm_compute; lia].
Defined.

Lemma concurrent_probes_bounded_witness :
  (count admitted (calls (run_schedule 0 (MkSys tripped (replicate 3 CheckState))
     (turns 0 7 12000000 ++ turns 1 6 12000000 ++ turns 2 6 13000000 ++ turns 0 1 14000000))) <= 2)%Z.
Proof.
  apply (concurrent_probes_bounded 0 tripped 3 10
    (turns 0 7 12000000 ++ turns 1 6 12000000 ++ turns 2 6 13000000 ++ turns 0 1 14000000)).
  - vm_compute. reflexivity.
  - vm_compute. discriminate.
  - vm_compute. split; discriminate.
  - vm_compute. discriminate.
  - repeat (apply Forall_cons_2; [vm_compute; split; [discriminate|reflexivity]|]). apply Forall_nil_2.
Defined.

Lemma second_probe_admitted_witness :
  exists ms, Forall (fun m => m.2 = 12000000%Z) ms /\
    calls (run_schedule 0 (MkSys tripped [CheckState; CheckState]) ms) = [Checked (Ok tt); Checked (Ok tt)].
Proof.
  apply (second_probe_admitted 0 tripped 12000000); vm_compute; try reflexivity; try split; discriminate.
Defined.

Lemma open_mirror_diverges_witness :
  exists ms, let s := run_schedule 0 (MkSys probing [RecordClock Failure; RecordClock Success]) ms in
    calls s = [Recorded; Recorded] /\ state (mem s) = BClosed /\ is_open (mem s) = true /\
    forall t1 t2, check (mem s) t1 t2 = (mem s, Ok tt).
Proof. apply (open_mirror_diverges 0 probing 12000000); vm_compute; reflexivity. Defined.

Lemma probe_counter_underflows_witness :
  exists ms, let s := run_schedule 0 (MkSys probing [CheckState; RecordClock Failure]) ms in
    (exists e, calls s = [Checked (Err e); Recorded]) /\
    state (mem s) = BOpen /\ half_open_probes (mem s) = usize_max.
Proof. apply (probe_counter_underflows 0 probing 12000000); vm_compute; reflexivity. Defined.
End AtomicDemo.
